(* ===== verification/_CoqProject ===== *)
-Q . S2P
Prelude.v
GoStrings.v
Validators.v
Cursor.v
Versions.v
Claims.v
Codec.v
ConfigTypes.v
GoPath.v
Durations.v
LimitedFs.v
Config.v
Auth.v
AuditLog.v
ClaimsGate.v
Upstream.v
Filtering.v
Database.v
Entries.v
Streaming.v
Artifacts.v
Telemetry.v
ServerReads.v
Options.v
Sync.v
Writer.v
WriterCorrect.v
WriterKinds.v
Initialize.v
Sources.v
Fetching.v
Syncing.v
Coordinator.v
Registries.v
Admin.v
Service.v
Api.v
ApiCorrect.v
Kubernetes.v
Reconcilers.v
App.v
