(* ===== verification/Prelude.v ===== *)
(** * ToolHive Registry Server: a verification development

    The program (Go, [src/]) serves catalogues of MCP servers, skills and
    plugins.  A configuration file names _sources_ (git repositories, upstream
    APIs, files, one managed source, Kubernetes) and _registries_, ordered views
    over sources.  Replicas fetch synced sources in the background, filter what
    they fetch and store it in PostgreSQL; publishers write entries of the
    managed source through the API; clients page through registries.  Every
    request passes authentication (OAuth/OIDC or single sign-on), role
    resolution and, for each source, registry and entry, a comparison of the
    caller's JWT claims with the claims the resource carries.

    ** How Go is modelled

    A fallible function returns [result] (value or [error]); [error] keeps the
    sentinel [errors.Is] looks for and the literal text of the message.  Go
    strings and byte slices are [string]/[list ascii], bytewise.  Integers are
    [Z] with wrap-around written out where the code can reach it
    ([Durations.wrap64]).  Code that runs queries is in the monad [Database.Q]:
    the database, a call counter and an oracle that can make any call fail;
    [transaction] keeps a body's writes only when body and commit succeed.
    Loops without a bound take fuel and come with a proof of how much is enough
    (more than the rows of the registry for [stream_loop], the length of the
    text for [Duration.segments]); a handler whose fuel runs out answers with
    status 0, which no code path writes.  Third-party code is a parameter with named
    laws and a concrete instance that satisfies them: semver ([SemverLib],
    [SemverLaws], [MiniSemver]), JSON of claims ([JsonCodec], [JsonLaws],
    [ClaimsJson]), glob ([NameFilter]'s compiler), token validators, pgx's
    interval parser, the JSON of source blocks ([ConfigMarshal]), of request
    bodies ([ApiLib]) and of audit events ([AuditJson]), text search in SQL
    ([SqlConditions]), viper, the file system, [net/url]'s parser, the
    network ([Http]), go-git and go-billy ([GoGit], [Billy]), the Kubernetes
    cluster and controller-runtime ([Cluster], [ControllerRuntime]), SHA-256,
    YAML, and the chi
    router, which finds at most one of the registered routes for a method and a
    path ([Chi], [ChiLaws]).  A request body is a [Reader]: bytes, then the end or
    a read error.  A request has the path as decoded and, when they differ, as
    sent ([r_rawPath]): authentication and auditing look at the first, chi at the
    second when there is one.

    ** The files

    - [Prelude]: errors, results, their notation and tactics, shared lemmas.
    - [GoStrings], [GoPath], [Durations]: the parts of Go's library the program
      leans on: strings, trimming, regular expressions by derivatives (proved
      against their language), [path.Clean], [time.ParseDuration] with its
      64-bit accumulators and floating-point fractions, [Duration.String]; and
      [internal/db/pgtypes/interval.go] (module [Interval]).
    - [Validators]: [internal/validators/server_name.go] (module [ServerName])
      and the source-name check of [internal/config] (module [SourceName]).
    - [Cursor]: [internal/service/cursor.go] on a model of base64.
    - [Versions]: [internal/versions] and [findHighestVersion].
    - [Claims], [Codec], [ClaimsGate]: [internal/db/claims.go] and
      [internal/service/db/claims_filter.go]: claim values, the two matching
      rules, their JSON form, the gates and the list filter.
    - [ConfigTypes], [Config]: [internal/config/config.go]: the records, every
      validator, the getters, credentials and [LoadConfig].
    - [Auth]: [internal/auth]: roles, public paths, identity, the
      [WWW-Authenticate] header, the bearer middleware over several providers,
      role checks, the single sign-on validator, the access log.
    - [AuditLog]: [internal/audit]: event selection, the two middlewares, the
      annotations of a route, the capture of request bodies.
    - [Upstream], [Filtering]: the registry format with
      [internal/registry/tags.go], and [internal/filtering].
    - [Database]: the tables as finite maps on their keys, the queries of
      [internal/db/sqlc] used here, cascades, the query monad.
    - [Entries]: publishing, deleting and re-claiming entries
      ([internal/service/db/impl_mcp.go], [impl_entries.go], [impl_common.go]).
    - [Streaming]: listing: the query's order and cursor, the de-duplicating
      filter, [streamHelpers], and a client that follows cursors.
    - [ServerReads]: [ListServers], [ListServerVersions], [GetServerVersion] and
      the read-back after publishing, with the mapping of rows to the API schema
      ([internal/service/db/types.go]).
    - [Options]: [internal/service/options*.go].
    - [Artifacts]: skills and plugins ([impl_skills.go], [impl_plugins.go],
      [skill_types.go], [plugin_types.go]): the two mirrored files as instances
      of one interface ([ArtifactKind], [ArtifactKindLaws]).
    - [Telemetry]: [internal/telemetry]: the configuration, the providers, the two
      middlewares by what they record, and the cache in front of the query behind
      the gauges.
    - [LimitedFs], [Fetching]: [internal/git], [internal/httpclient] and
      [internal/sources]: the size-limited file system of clones, the HTTP and git
      clients, and the handlers of API, file and git sources, an instance of what
      the sync manager calls ([default_handlers]).
    - [Sync]: [internal/sync] (manager, detectors, coordinator) and the job
      queue of [internal/sync/state/db.go]; several replicas as a step relation.
    - [Writer], [WriterCorrect], [WriterKinds]: [internal/sync/writer/db.go]: the
      bulk import of a registry through temporary tables, an instance of the
      interface [SyncWriter] the manager uses, and its correctness, stage by
      stage.
    - [Syncing]: the replicas of [Sync] with that writer: what a source holds when
      its status says completed.
    - [Coordinator]: [internal/sync/coordinator]: the polling interval and the
      loop of [Start], which refines the steps of a replica.
    - [Initialize]: the start-up step of [internal/sync/state/db.go] that brings
      the database in line with the configuration.
    - [Sources], [Registries]: administration through the API
      ([impl_source.go], [impl_registry.go], [internal/service/validation.go]).
    - [Kubernetes], [Reconcilers]: [internal/kubernetes]: names, versions and
      entries of resources, the reconciler, its event predicates and options, and
      the work queue of a namespace as a step relation; the reconcilers
      [internal/app/builder.go] makes of a configuration.
    - [Admin]: these operations and restarts as a step relation, and what holds
      of every reachable database.
    - [Service]: the interface between the handlers and the service
      ([RegistryService] of [internal/service/service.go]) with its promises
      ([ServiceLaws]): a call that fails changes nothing, a read changes
      nothing, writes report only the errors the handlers know;
      [internal/service/db] as the instance that keeps them.
    - [Api], [ApiCorrect]: [internal/api]: parameters, every handler of v1,
      v0.1, skills and plugins, the routes with their roles and annotations;
      the contracts of the handlers over any service that keeps the promises.
    - [App]: [internal/app]: the service made from the configuration, the chain
      of middlewares in front of the routes and the whole server.

    ** What is shown

    The server as a whole: with authentication on, a request changes the
    database only for a caller whose token some provider accepted, on a route
    whose role the caller's claims give ([server_mediates]); with auditing on,
    every change leaves an event that names the caller ([audit_complete]);
    every answer has the security headers and a body of the kind its status
    promises, chi's plain text for a path it does not know, none for a method it
    does not know ([server_typed]); the route of a request is the one chi finds for
    it ([route_of]), and the theorems name that route's own role and event;
    the request data an event keeps is bounded, quoted exactly when it is not JSON,
    and the handler still reads the whole body, which it does not when the body
    breaks off while it is captured ([audit_bounded], [capture_loses_body]); PUT on a source creates or updates it and
    answers accordingly ([upsertSource_correct]).
    Access: roles, public paths and tokens are characterised exactly; the response header stays on one line and inside its quotes.
    Claims: both matching rules agree with their set-theoretic reading, what a
    caller may write it may see, more claims never hide anything, the list
    filter and the single-resource gate agree except on the empty object, and
    claims survive storage.  Entries: publishing, deleting and re-claiming
    change exactly the rows they should, keep the invariant of the tables
    ([wf_core], [wf_content]), leave the latest pointer of the entry at a greatest
    version when the versions of that entry are semantic versions ([latest_ok]),
    enforce the gates, and leave no trace when they fail.  Skills and plugins: the same of publishing
    and deleting; what is published reads back ([publish_read_back]); reading
    picks a visible row of the best source ([GetArtifactVersion_correct]); a list
    is the page of the query, in its order, without the rows whose status the
    filter does not name ([ListSkills_correct]).  Servers: the same of listing
    and of reading a version ([ListServers_correct], [GetServerVersion_correct],
    [publish_server_read_back]).  Administration:
    creating, changing and deleting sources and registries do what they say
    exactly when the request, the caller's claims and the references allow it,
    what was written reads back, and whatever sequence of operations and
    restarts is run, there is at most one managed source, every source has a
    sync status, links and entries refer to rows that exist
    ([admin_reachable]).  Listing: pages terminate, hold only visible
    rows of the registry the caller may see, and following the cursors yields
    every visible row once when each name has one source.  Configuration:
    validation accepts exactly [valid_config]; start-up makes sources, registries,
    links, entry claims and sync statuses match it, in one transaction, exactly
    when no API row stands in the way ([Initialize_correct]).  Synchronisation: the decision
    table, mutual exclusion of syncs across replicas by induction over the step
    relation, retry of failed sources, faithful status reports; with the writer
    and any handlers in place, a source whose row says completed holds exactly a
    registry fetched for it, with the hash in the row, in every state the replicas
    can reach, as long as no administrator changes the source itself in between
    ([completed_mirrors]; what else may happen in the database is [elsewhere]).  Fetching:
    a fetch yields exactly what the configuration names, stated in terms of requests,
    answers, files and the calls of go-git and not of the code's helpers
    ([handlers_correct]), ends whatever the other side answers
    ([fetch_terminates]), and each of the two file systems of a clone stays within
    its limits ([clone_bounded]).  Import: a sync that succeeds leaves exactly the upstream versions, with contents,
    ids and pointers, and touches no other source ([Store_correct]).  Kubernetes:
    a reconciliation stores exactly what the namespace publishes or changes
    nothing ([Reconcile_correct]), and with one watched namespace, whatever changes
    in the cluster meanwhile, once nothing is pending the source holds the servers
    its resources publish, with their contents and claims ([watch_converges]).
    Telemetry: the cache reads and answers as its times
    promise ([cache_correct]), the gauge of requests in flight is exact and clients
    cannot mint series ([metrics_reachable], [series_bounded]).
    Filtering: exactly the entries the include and exclude rules select, in order.

    Some theorems record where the code does something else than it says:
    versions that are not all semantic do not order ([IsNewerVersion_cycle]); a
    backslash defeats the header's escaping ([sanitize_backslash_escape]); the
    winner among several sources of a name depends on the page size
    ([dedup_page_dependent]) and a page can lose a visible row
    ([batch_boundary_drops_visible]); an unchanged source at the head of the
    queue starves the others ([unchanged_head_starves]); a filter change is
    never noticed ([filter_change_unnoticed]); a restart overwrites claims that
    entries and API registries have of their own ([Initialize_overwrites]); from
    two full pages of sources on, some are listed twice and others not at all
    ([stream_sources_overflow]); a plugin takes the latest pointer of a skill of
    its name ([latest_shared_by_kinds]); a registry with skills and plugins is
    never stored ([Store_both_kinds_fails]); reconciling one Kubernetes namespace
    drops the entries of another ([other_namespace_dropped]), and two resources of
    one name block their namespace ([namesakes_block]); a file size near the
    largest integer passes the limit ([truncate_overflow]).

    ** What is not modelled

    Pure input and output (the network itself, the OpenTelemetry SDK), generated code (sqlc beyond the meaning of its queries, swagger),
    the commands, the version and metrics endpoints.  The order and wording of log
    lines, spans and error texts beyond their literal part play no role.  Text
    search and the comparison of update times in SQL are parameters.  A
    transaction whose commit reports an error is taken not to have committed.

    ** Where the theorems stop

    Versions compare as a linear order only when they are semantic versions, so
    what is said of latest pointers asks it of the versions of the name in
    question.  The writer composes the keys of its temporary rows with an at sign;
    what is said of a stored registry asks that server names have none.  The
    packages of a server are those of the registry up to the leftovers a key too
    short leaves behind ([package_good]; a finding).  The packages of a skill or
    plugin come in no order the SQL fixes; the model returns them as inserted.  The
    position of a source in a registry is an int32 in the program and a natural
    number here: more than two billion sources of one registry are out of scope.
    go-git is taken to use file handles of files that were not renamed or removed
    under them, and sizes and offsets up to 2^61 ([clone_sensible]): past that, an addition of
    the limit check wraps around ([truncate_overflow]). *)

From stdpp Require Import base list strings gmap sorting sets.
From Stdlib Require Import ZArith Lia.

#[global] Set Default Goal Selector "!".

(** ** Errors

    Go's [error] values.  A sentinel is an [errors.New] variable the code
    tests with [errors.Is]; [EWrap s msg] is [fmt.Errorf("%w: ...", s, ...)],
    [EMsg msg] an error that wraps no sentinel.  [msg] is the literal part of
    the format string. *)

Inductive sentinel :=
| ErrNotFound | ErrNotImplemented | ErrRegistryNotFound | ErrVersionAlreadyExists
| ErrConfigSource | ErrInvalidSourceConfig | ErrSourceAlreadyExists
| ErrSourceTypeChangeNotAllowed | ErrSourceNotFound | ErrNoManagedSource
| ErrManagedSourceLimitReached | ErrRegistryAlreadyExists | ErrConfigRegistry
| ErrInvalidRegistryConfig | ErrSourceInUse | ErrClaimsMismatch
| ErrClaimsInsufficient | ErrInvalidEntryType | ErrInvalidServerName
| ErrBug            (* internal/service/db: ErrBug *)
| ErrNoRows         (* pgx.ErrNoRows *)
| ErrPgUnique       (* a pgconn.PgError with code 23505 *)
| ErrPgSerialization (* a pgconn.PgError with code 40001 *)
| ErrPgRestrict     (* a pgconn.PgError with code 23503: a foreign key restricts *).

#[export] Instance sentinel_eq_dec : EqDecision sentinel.
Proof. solve_decision. Defined.

Inductive error :=
| EWrap (s : sentinel) (msg : string)
| EMsg (msg : string).

(** [errors.Is(e, s)] for a sentinel [s]. *)
Definition errorIs (e : error) (s : sentinel) : bool :=
  match e with
  | EWrap s' _ => bool_decide (s = s')
  | EMsg _ => false
  end.

(** ** Results: Go's [(value, error)] pairs *)

Inductive result (A : Type) :=
| Ok (a : A)
| Err (e : error).
Arguments Ok {A} a.
Arguments Err {A} e.

#[export] Instance error_eq_dec : EqDecision error.
Proof. solve_decision. Defined.
#[export] Instance result_eq_dec {A} `{EqDecision A} : EqDecision (result A).
Proof. solve_decision. Defined.

(** [x, err := r; if err != nil { return err }; f(x)] *)
Definition rbind {A B} (r : result A) (f : A -> result B) : result B :=
  match r with
  | Ok a => f a
  | Err e => Err e
  end.
Arguments rbind : simpl never.

Declare Scope go_scope.
Delimit Scope go_scope with go.
Notation "x <- r ;; f" := (rbind r (fun x => f))
  (at level 100, r at next level, right associativity) : go_scope.
Notation "r ;;; f" := (rbind r (fun _ => f))
  (at level 100, right associativity) : go_scope.
#[global] Open Scope go_scope.

Definition is_ok {A} (r : result A) : bool :=
  match r with Ok _ => true | Err _ => false end.

(** [if cond { return err }] in front of the rest of a function. *)
Definition guard_err (b : bool) (e : error) : result () :=
  if b then Err e else Ok ().

Lemma guard_err_ok b e : guard_err b e = Ok () <-> b = false.
Proof. by destruct b. Qed.

Lemma bind_ok {A B} (m : result A) (f : A -> result B) (b : B) :
  rbind m f = Ok b <-> exists a, m = Ok a /\ f a = Ok b.
Proof. destruct m; unfold rbind; naive_solver. Qed.

(** A loop [for _, x := range xs { if err := f(x); err != nil { return err } }]. *)
Fixpoint for_each {A} (f : A -> result ()) (l : list A) : result () :=
  match l with
  | [] => Ok ()
  | x :: l' => f x ;;; for_each f l'
  end.

Lemma for_each_ok {A} (f : A -> result ()) (l : list A) :
  for_each f l = Ok () <-> Forall (fun x => f x = Ok ()) l.
Proof.
  induction l as [|x l IH]; simpl; [done|].
  rewrite Forall_cons, <-IH, bind_ok. split; [intros ([] & ? & ?)|intros [??]]; eauto.
Qed.

(** The same loop with its index. *)
Fixpoint for_each_i {A} (f : nat -> A -> result ()) (i : nat) (l : list A) : result () :=
  match l with
  | [] => Ok ()
  | x :: l' => f i x ;;; for_each_i f (S i) l'
  end.

Lemma for_each_i_ok {A} (f : nat -> A -> result ()) (i : nat) (l : list A) :
  for_each_i f i l = Ok () <-> forall k x, l !! k = Some x -> f (i + k)%nat x = Ok ().
Proof.
  revert i. induction l as [|x l IH]; intros i; simpl; [set_solver|].
  rewrite bind_ok. setoid_rewrite IH. split.
  - intros [[] [Hx Hl]] [|k] y Hy; simplify_eq/=.
    + by rewrite Nat.add_0_r.
    + rewrite Nat.add_succ_r. by apply Hl.
  - intros H. exists tt. split.
    + specialize (H 0 x eq_refl). by rewrite Nat.add_0_r in H.
    + intros k y Hy. specialize (H (S k) y Hy). by rewrite Nat.add_succ_r in H.
Qed.

(** ** Automation *)

Create HintDb registry.
Create Rewrite HintDb registry.
#[export] Hint Constants Transparent : registry.

(** Split a bind that succeeded into its two halves. *)
Ltac inv_ok :=
  repeat match goal with
  | H : rbind _ _ = Ok _ |- _ =>
      let a := fresh "a" in let E := fresh "E" in
      apply bind_ok in H as (a & E & H)
  | H : guard_err _ _ = Ok _ |- _ => apply guard_err_ok in H
  | a : () |- _ => destruct a
  | H : Ok _ = Ok _ |- _ => injection H as H
  | H : Err _ = Ok _ |- _ => discriminate H
  | H : Ok _ = Err _ |- _ => discriminate H
  end.

(** Case analysis on every [match]/[if] scrutinee of the goal. *)
Ltac crush_match :=
  repeat (case_match; simplify_eq/=; try done).

(** ** Generic lemmas *)

Lemma forallb_true_iff {A} (p : A -> bool) (l : list A) :
  forallb p l = true <-> forall x, x ∈ l -> p x = true.
Proof.
  rewrite forallb_forall. split; intros H x Hx; apply H; by apply list_elem_of_In.
Qed.

Lemma existsb_true_iff {A} (p : A -> bool) (l : list A) :
  existsb p l = true <-> exists x, x ∈ l /\ p x = true.
Proof.
  rewrite existsb_exists. split; intros (x & Hx & Hp); exists x; split; try done;
    by apply list_elem_of_In.
Qed.

Lemma bool_eq_iff (a b : bool) : (a = true <-> b = true) -> a = b.
Proof. destruct a, b; naive_solver. Qed.

Lemma bool_decide_true_iff (P : Prop) `{Decision P} : bool_decide P = true <-> P.
Proof. apply bool_decide_eq_true. Qed.
