(* ===== verification/GoStrings.v ===== *)
(** * Go strings

    The parts of Go's [strings], [regexp] and [encoding/base64] the program
    uses.  A Go string (and a [[]byte]) is a [string] of bytes; algorithms that
    walk the bytes work on [list ascii]. *)

From stdpp Require Import base list strings sets.
From Stdlib Require Import NArith ZArith Lia Ascii String.
From S2P Require Import Prelude.

Local Open Scope string_scope.
Local Open Scope list_scope.

Abbreviation bytes := (list ascii).
Definition to_bytes (s : string) : bytes := list_ascii_of_string s.
Definition of_bytes (l : bytes) : string := string_of_list_ascii l.

Lemma of_to_bytes s : of_bytes (to_bytes s) = s.
Proof. apply string_of_list_ascii_of_string. Qed.
Lemma to_of_bytes l : to_bytes (of_bytes l) = l.
Proof. apply list_ascii_of_string_of_list_ascii. Qed.

Lemma to_bytes_app a b : to_bytes (a +:+ b) = to_bytes a ++ to_bytes b.
Proof. induction a; simpl; [done|]. f_equal. apply IHa. Qed.

Lemma to_bytes_length s : List.length (to_bytes s) = String.length s.
Proof. unfold to_bytes. induction s; simpl; congruence. Qed.

#[export] Hint Rewrite of_to_bytes to_of_bytes to_bytes_app : registry.

(** [len(s)]: the number of bytes. *)
Definition len (s : string) : nat := String.length s.

(** [a < b] on Go strings: bytewise lexicographic. *)
Definition str_lt (a b : string) : bool := String.ltb a b.

(** [strings.ContainsRune(s, c)] for an ASCII rune. *)
Definition ContainsRune (s : string) (c : ascii) : bool :=
  existsb (Ascii.eqb c) (to_bytes s).

(** [strings.HasPrefix], [strings.TrimPrefix] *)
Definition HasPrefix (s p : string) : bool := String.prefix p s.
Definition TrimPrefix (s p : string) : string :=
  if HasPrefix s p then String.substring (len p) (len s - len p) s else s.

Lemma substring_all s : String.substring 0 (String.length s) s = s.
Proof. induction s as [|c s IH]; simpl; congruence. Qed.

(** [strings.Count(s, sep)] for a one-byte separator. *)
Definition Count (s : string) (sep : ascii) : nat :=
  List.length (List.filter (Ascii.eqb sep) (to_bytes s)).

(** The prefix before the first separator, and what follows it if there is one. *)
Fixpoint cut_bytes (sep : ascii) (l : bytes) : bytes * option bytes :=
  match l with
  | [] => ([], None)
  | c :: l' =>
      if Ascii.eqb c sep then ([], Some l')
      else let '(a, r) := cut_bytes sep l' in (c :: a, r)
  end.

(** [strings.SplitN(s, sep, 2)] *)
Definition SplitN2 (s : string) (sep : ascii) : list string :=
  match cut_bytes sep (to_bytes s) with
  | (a, None) => [of_bytes a]
  | (a, Some r) => [of_bytes a; of_bytes r]
  end.

(** [strings.Split(s, sep)] for a one-byte separator. *)
Fixpoint split_bytes (sep : ascii) (l : bytes) : list bytes :=
  match l with
  | [] => [[]]
  | c :: l' =>
      if Ascii.eqb c sep then [] :: split_bytes sep l'
      else match split_bytes sep l' with
           | [] => [[c]]
           | p :: ps => (c :: p) :: ps
           end
  end.
Definition Split (s : string) (sep : ascii) : list string :=
  of_bytes <$> split_bytes sep (to_bytes s).

Lemma split_bytes_app sep a b :
  sep ∉ a -> split_bytes sep (a ++ sep :: b) = a :: split_bytes sep b.
Proof.
  induction a as [|c a IH]; intros Hn; simpl.
  - by rewrite Ascii.eqb_refl.
  - rewrite not_elem_of_cons in Hn. destruct Hn as [Hc Ha].
    destruct (Ascii.eqb_spec c sep); [congruence|]. by rewrite IH.
Qed.

Lemma split_bytes_none sep a : sep ∉ a -> split_bytes sep a = [a].
Proof.
  induction a as [|c a IH]; intros Hn; simpl; [done|].
  rewrite not_elem_of_cons in Hn. destruct Hn as [Hc Ha].
  destruct (Ascii.eqb_spec c sep); [congruence|]. by rewrite IH.
Qed.

(** The number of pieces is one more than the number of separators. *)
Lemma split_bytes_length sep l :
  List.length (split_bytes sep l) = S (List.length (List.filter (Ascii.eqb sep) l)).
Proof.
  induction l as [|c l IH]; simpl; [done|].
  rewrite Ascii.eqb_sym. destruct (Ascii.eqb sep c); simpl; [by rewrite IH|].
  destruct (split_bytes sep l); simpl in *; lia.
Qed.

Lemma count_zero_iff sep l :
  List.length (List.filter (Ascii.eqb sep) l) = 0%nat <-> sep ∉ l.
Proof.
  induction l as [|c l IH]; simpl; [set_solver|].
  destruct (Ascii.eqb_spec sep c); simpl; rewrite not_elem_of_cons; [naive_solver|].
  rewrite IH. naive_solver.
Qed.

(** ** [strings.TrimSpace]

    Unicode white space as UTF-8 byte sequences: the six ASCII spaces,
    U+0085, U+00A0, U+1680, U+2000-U+200A, U+2028, U+2029, U+202F, U+205F
    and U+3000. *)

Definition byte (n : N) : ascii := ascii_of_N n.

Definition space_seqs : list bytes :=
  [ [byte 9]; [byte 10]; [byte 11]; [byte 12]; [byte 13]; [byte 32];
    [byte 194; byte 133]; [byte 194; byte 160];
    [byte 225; byte 154; byte 128];
    [byte 226; byte 128; byte 128]; [byte 226; byte 128; byte 129];
    [byte 226; byte 128; byte 130]; [byte 226; byte 128; byte 131];
    [byte 226; byte 128; byte 132]; [byte 226; byte 128; byte 133];
    [byte 226; byte 128; byte 134]; [byte 226; byte 128; byte 135];
    [byte 226; byte 128; byte 136]; [byte 226; byte 128; byte 137];
    [byte 226; byte 128; byte 138]; [byte 226; byte 128; byte 168];
    [byte 226; byte 128; byte 169]; [byte 226; byte 128; byte 175];
    [byte 226; byte 129; byte 159]; [byte 227; byte 128; byte 128] ].

(** Drop one of the patterns from the front, if one is there. *)
Fixpoint strip_bytes (p l : bytes) : option bytes :=
  match p, l with
  | [], _ => Some l
  | c :: p', d :: l' => if Ascii.eqb c d then strip_bytes p' l' else None
  | _ :: _, [] => None
  end.

Fixpoint strip_any (ps : list bytes) (l : bytes) : option bytes :=
  match ps with
  | [] => None
  | p :: ps' =>
      match strip_bytes p l with
      | Some r => Some r
      | None => strip_any ps' l
      end
  end.

Fixpoint trim_front (fuel : nat) (ps : list bytes) (l : bytes) : bytes :=
  match fuel with
  | O => l
  | S fuel' =>
      match strip_any ps l with
      | Some r => trim_front fuel' ps r
      | None => l
      end
  end.

Definition trim_bytes (l : bytes) : bytes :=
  let front := trim_front (List.length l) space_seqs l in
  rev (trim_front (List.length front) (map (@rev ascii) space_seqs) (rev front)).

Definition TrimSpace (s : string) : string := of_bytes (trim_bytes (to_bytes s)).

(** A string whose first and last bytes belong to no white-space sequence is
    not changed by [TrimSpace]. *)
Definition is_space_head (ps : list bytes) (c : ascii) : bool :=
  existsb (fun p => match p with d :: _ => Ascii.eqb d c | [] => true end) ps.

Lemma strip_any_no_head ps c l :
  is_space_head ps c = false -> strip_any ps (c :: l) = None.
Proof.
  induction ps as [|p ps IH]; simpl; [done|]. intros [Hp Hps]%orb_false_iff.
  destruct p as [|d p]; [done|]. simpl. by rewrite Hp, IH.
Qed.

Lemma trim_front_no_head fuel ps c l :
  is_space_head ps c = false -> trim_front fuel ps (c :: l) = c :: l.
Proof. intros H. destruct fuel; [done|]. simpl. by rewrite strip_any_no_head. Qed.

Lemma trim_bytes_id c l d l' :
  is_space_head space_seqs c = false ->
  is_space_head (map (@rev ascii) space_seqs) d = false ->
  c :: l = l' ++ [d] -> trim_bytes (c :: l) = c :: l.
Proof.
  intros Hc Hd E. unfold trim_bytes. rewrite trim_front_no_head by done.
  rewrite E, rev_app_distr. simpl rev at 2. simpl app.
  rewrite trim_front_no_head by done. simpl. by rewrite rev_involutive.
Qed.

(** ** Regular expressions

    The fragment of [regexp] the program uses, all anchored with [^] and [$]:
    byte classes, sequence, option, star and a bounded repetition
    [r{0,n}].  Matching is by derivatives. *)

Inductive regex :=
| RNone | REmpty
| RClass (p : ascii -> bool)
| RSeq (a b : regex) | RAlt (a b : regex)
| RStar (a : regex).

Definition ROpt (a : regex) : regex := RAlt REmpty a.
Fixpoint RUpTo (n : nat) (a : regex) : regex :=
  match n with O => REmpty | S n' => ROpt (RSeq a (RUpTo n' a)) end.

Fixpoint nullable (r : regex) : bool :=
  match r with
  | RNone => false | REmpty => true | RClass _ => false
  | RSeq a b => nullable a && nullable b
  | RAlt a b => nullable a || nullable b
  | RStar _ => true
  end.

Fixpoint deriv (c : ascii) (r : regex) : regex :=
  match r with
  | RNone | REmpty => RNone
  | RClass p => if p c then REmpty else RNone
  | RSeq a b =>
      if nullable a then RAlt (RSeq (deriv c a) b) (deriv c b)
      else RSeq (deriv c a) b
  | RAlt a b => RAlt (deriv c a) (deriv c b)
  | RStar a => RSeq (deriv c a) (RStar a)
  end.

Fixpoint re_match (r : regex) (l : bytes) : bool :=
  match l with
  | [] => nullable r
  | c :: l' => re_match (deriv c r) l'
  end.

Definition MatchString (r : regex) (s : string) : bool := re_match r (to_bytes s).

(** The language of a regular expression, the specification of [re_match]. *)
Inductive lang : regex -> bytes -> Prop :=
| L_empty : lang REmpty []
| L_class p c : p c = true -> lang (RClass p) [c]
| L_seq a b u v : lang a u -> lang b v -> lang (RSeq a b) (u ++ v)
| L_alt_l a b u : lang a u -> lang (RAlt a b) u
| L_alt_r a b u : lang b u -> lang (RAlt a b) u
| L_star_nil a : lang (RStar a) []
| L_star_cons a c u v :
    lang a (c :: u) -> lang (RStar a) v -> lang (RStar a) (c :: u ++ v).

Lemma lang_none l : ~ lang RNone l.
Proof. intros H. inversion H. Qed.
Lemma lang_empty l : lang REmpty l <-> l = [].
Proof. split; [by inversion 1|intros ->; constructor]. Qed.
Lemma lang_class p l : lang (RClass p) l <-> exists c, l = [c] /\ p c = true.
Proof. split; [inversion 1; eauto|intros (c & -> & ?); by constructor]. Qed.
Lemma lang_seq a b l : lang (RSeq a b) l <-> exists u v, l = u ++ v /\ lang a u /\ lang b v.
Proof. split; [inversion 1; eauto|intros (u & v & -> & ? & ?); by constructor]. Qed.
Lemma lang_alt a b l : lang (RAlt a b) l <-> lang a l \/ lang b l.
Proof. split; [inversion 1; eauto|intros [?|?]; [by apply L_alt_l|by apply L_alt_r]]. Qed.
Lemma lang_star_cons a c l :
  lang (RStar a) (c :: l) <-> exists u v, l = u ++ v /\ lang a (c :: u) /\ lang (RStar a) v.
Proof. split; [inversion 1; eauto|intros (u & v & -> & ? & ?); by constructor]. Qed.

Lemma lang_opt a l : lang (ROpt a) l <-> l = [] \/ lang a l.
Proof. unfold ROpt. by rewrite lang_alt, lang_empty. Qed.

Lemma nullable_spec r : nullable r = true <-> lang r [].
Proof.
  induction r as [| |p|a IHa b IHb|a IHa b IHb|a IHa]; simpl.
  - split; [done|intros []%lang_none].
  - by rewrite lang_empty.
  - rewrite lang_class. naive_solver.
  - rewrite andb_true_iff, IHa, IHb, lang_seq. split.
    + intros [??]. by exists [], [].
    + intros (u & v & [-> ->]%eq_sym%app_eq_nil & ?). done.
  - by rewrite orb_true_iff, IHa, IHb, lang_alt.
  - split; [constructor|done].
Qed.

Lemma lang_seq_cons a b c l :
  lang (RSeq a b) (c :: l) <->
  (exists u v, l = u ++ v /\ lang a (c :: u) /\ lang b v) \/ (lang a [] /\ lang b (c :: l)).
Proof.
  rewrite lang_seq. split.
  - intros ([|d u] & v & E & Ha & Hb); simplify_eq/=; [by right|left; eauto].
  - intros [(u & v & -> & Ha & Hb)|[Ha Hb]]; [by exists (c :: u), v|by exists [], (c :: l)].
Qed.

Lemma deriv_spec r c l : lang (deriv c r) l <-> lang r (c :: l).
Proof.
  revert l. induction r as [| |p|a IHa b IHb|a IHa b IHb|a IHa]; intros l; simpl.
  - split; by intros []%lang_none.
  - rewrite lang_empty. split; [intros []%lang_none|done].
  - rewrite lang_class. destruct (p c) eqn:Hp.
    + rewrite lang_empty. naive_solver.
    + split; [intros []%lang_none|intros (d & E & Hd); injection E as -> ->; congruence].
  - rewrite lang_seq_cons. pose proof (nullable_spec a) as Hn.
    destruct (nullable a); rewrite ?lang_alt, lang_seq; setoid_rewrite IHa; rewrite ?IHb.
    + assert (lang a []) by (by apply Hn). tauto.
    + assert (~ lang a []) by (by intros ?%Hn). tauto.
  - by rewrite !lang_alt, IHa, IHb.
  - rewrite lang_seq, lang_star_cons. by setoid_rewrite IHa.
Qed.

(** The matcher decides the language. *)
Lemma re_match_spec r l : re_match r l = true <-> lang r l.
Proof.
  revert r. induction l as [|c l IH]; intros r; simpl.
  - apply nullable_spec.
  - by rewrite IH, deriv_spec.
Qed.

Lemma lang_star_class p l : lang (RStar (RClass p)) l <-> Forall (fun c => p c = true) l.
Proof.
  split.
  - remember (RStar (RClass p)) as r. intros H. induction H; simplify_eq; [constructor|].
    match goal with H : lang (RClass p) (_ :: _) |- _ => apply lang_class in H as (? & ? & ?) end.
    simplify_eq/=. constructor; naive_solver.
  - induction 1 as [|c l Hc Hl IH]; [constructor|].
    apply (L_star_cons _ c [] l); [by constructor|done].
Qed.

Lemma lang_upto_class n p l :
  lang (RUpTo n (RClass p)) l <-> Forall (fun c => p c = true) l /\ (List.length l <= n)%nat.
Proof.
  revert l. induction n as [|n IH]; intros l; simpl.
  - split; [intros H; inversion H; by split; [constructor|simpl; lia]|].
    intros [_ Hl]. destruct l; [constructor|simpl in Hl; lia].
  - rewrite lang_opt, lang_seq. split.
    + intros [->|(u & v & -> & Hu & Hv)]; [split; [constructor|simpl; lia]|].
      apply lang_class in Hu as (c & -> & Hc). apply IH in Hv as [Hv Hlen].
      simpl. split; [by constructor|lia].
    + intros [Hf Hlen]. destruct l as [|c l]; [by left|right].
      apply Forall_cons in Hf as [Hc Hf]. exists [c], l.
      rewrite lang_class, IH. simpl in Hlen. naive_solver lia.
Qed.
