(* ===== verification/Validators.v ===== *)
(** * Name validation

    [internal/validators/server_name.go] and the source-name rule of
    [internal/config/config.go].  The regular expressions are kept as the
    source writes them; the theorems characterise what they accept. *)

From stdpp Require Import base list strings sets.
From Stdlib Require Import NArith Lia Ascii String.
From S2P Require Import Prelude GoStrings.

Local Open Scope string_scope.
Local Open Scope list_scope.

(** ** Byte classes *)

Definition in_range (lo hi : N) (c : ascii) : bool :=
  (N.leb lo (N_of_ascii c) && N.leb (N_of_ascii c) hi)%bool.

(** [[a-zA-Z0-9]] *)
Definition alnum (c : ascii) : bool :=
  in_range 97 122 c || in_range 65 90 c || in_range 48 57 c.
(** [[a-z0-9]] *)
Definition lower_alnum (c : ascii) : bool := in_range 97 122 c || in_range 48 57 c.

Definition ns_class (c : ascii) : bool := alnum c || Ascii.eqb c "." || Ascii.eqb c "-".
Definition name_class (c : ascii) : bool :=
  alnum c || Ascii.eqb c "." || Ascii.eqb c "_" || Ascii.eqb c "-".
Definition dns_class (c : ascii) : bool := Ascii.eqb c "-" || lower_alnum c.

(** [^A(B*A)?$], the shape of the two server-name patterns. *)
Definition bracket_re (A B : ascii -> bool) : regex :=
  RSeq (RClass A) (ROpt (RSeq (RStar (RClass B)) (RClass A))).

Definition namespacePattern : regex := bracket_re alnum ns_class.
Definition namePattern : regex := bracket_re alnum name_class.
Definition dnsSubdomainRegex : regex :=
  RSeq (RClass lower_alnum) (ROpt (RSeq (RUpTo 61 (RClass dns_class)) (RClass lower_alnum))).

(** What the patterns mean: first and last byte in [A], everything between in [B]. *)
Definition bracketed (A B : ascii -> bool) (l : bytes) : Prop :=
  (exists c, A c = true /\ l = [c]) \/
  (exists c m d, A c = true /\ A d = true /\ Forall (fun x => B x = true) m /\ l = c :: m ++ [d]).

Lemma bracket_re_spec A B l : lang (bracket_re A B) l <-> bracketed A B l.
Proof.
  unfold bracket_re, bracketed. rewrite lang_seq. setoid_rewrite lang_class.
  setoid_rewrite lang_opt. setoid_rewrite lang_seq. setoid_rewrite lang_star_class.
  setoid_rewrite lang_class. split.
  - intros (u & v & -> & (c & -> & Hc) & [->|(m & w & -> & Hm & d & -> & Hd)]); [left; eauto|].
    right. by exists c, m, d.
  - intros [(c & Hc & ->)|(c & m & d & Hc & Hd & Hm & ->)].
    + exists [c], []. split; [done|]. split; [eauto|by left].
    + exists [c], (m ++ [d]). split; [done|]. split; [eauto|]. right. exists m, [d]. eauto 10.
Qed.

Lemma dnsSubdomainRegex_spec l :
  lang dnsSubdomainRegex l <->
  bracketed lower_alnum dns_class l /\ (List.length l <= 63)%nat.
Proof.
  unfold dnsSubdomainRegex, bracketed. rewrite lang_seq. setoid_rewrite lang_class.
  setoid_rewrite lang_opt. setoid_rewrite lang_seq. setoid_rewrite lang_upto_class.
  setoid_rewrite lang_class. split.
  - intros (u & v & -> & (c & -> & Hc) & [->|(m & w & -> & [Hm Hlen] & d & -> & Hd)]).
    + split; [left; eauto|simpl; lia].
    + split; [right; by exists c, m, d|]. simpl. rewrite length_app. simpl. lia.
  - intros [[(c & Hc & ->)|(c & m & d & Hc & Hd & Hm & ->)] Hlen].
    + exists [c], []. split; [done|]. split; [eauto|by left].
    + simpl in Hlen. rewrite length_app in Hlen. simpl in Hlen.
      exists [c], (m ++ [d]). split; [done|]. split; [eauto|]. right. exists m, [d].
      split; [done|]. split; [split; [done|lia]|eauto].
Qed.

Lemma bracketed_Forall A B l :
  (forall c, A c = true -> B c = true) ->
  bracketed A B l -> l <> [] /\ Forall (fun c => B c = true) l.
Proof.
  intros HAB [(c & Hc & ->)|(c & m & d & Hc & Hd & Hm & ->)]; (split; [done|]).
  - by repeat constructor; apply HAB.
  - constructor; [by apply HAB|]. apply Forall_app. split; [done|].
    constructor; [by apply HAB|constructor].
Qed.

Lemma alnum_ns c : alnum c = true -> ns_class c = true.
Proof. unfold ns_class. by intros ->. Qed.
Lemma alnum_name c : alnum c = true -> name_class c = true.
Proof. unfold name_class. by intros ->. Qed.
Lemma lower_dns c : lower_alnum c = true -> dns_class c = true.
Proof. unfold dns_class. intros ->. apply orb_true_r. Qed.
#[export] Hint Resolve alnum_ns alnum_name lower_dns : registry.

Lemma class_excludes (B : ascii -> bool) l x :
  Forall (fun c => B c = true) l -> B x = false -> x ∉ l.
Proof. rewrite Forall_forall. intros H Hx Hin. specialize (H x Hin). congruence. Qed.

(** ** Server names *)

Module ServerName.

Definition minServerNameLength : nat := 3.
Definition maxServerNameLength : nat := 200.

Definition ValidateServerName (name0 : string) : result string :=
  let name := TrimSpace name0 in
  guard_err (String.eqb name "") (EMsg "server name cannot be empty") ;;;
  let slashCount := Count name "/" in
  guard_err (slashCount =? 0)%nat (EMsg "server name must be in format 'dns-namespace/name'") ;;;
  guard_err (1 <? slashCount)%nat (EMsg "server name must contain exactly one '/' separator") ;;;
  match SplitN2 name "/" with
  | [namespace; namePart] =>
      guard_err (String.eqb namespace "") (EMsg "namespace part cannot be empty") ;;;
      guard_err (String.eqb namePart "") (EMsg "name part cannot be empty") ;;;
      guard_err (len name <? minServerNameLength)%nat (EMsg "server name must be at least 3 characters long") ;;;
      guard_err (maxServerNameLength <? len name)%nat (EMsg "server name exceeds maximum length") ;;;
      guard_err (negb (MatchString namespacePattern namespace)) (EMsg "namespace is invalid") ;;;
      guard_err (negb (MatchString namePattern namePart)) (EMsg "name is invalid") ;;;
      Ok name
  | _ => Err (EMsg "panic: index out of range")
  end.

Definition IsValidServerName (name : string) : bool := is_ok (ValidateServerName name).

(** The names the validator accepts, as the MCP registry describes them. *)
Definition valid_name (n : string) : Prop :=
  exists ns nm, n = ns +:+ "/" +:+ nm /\
    bracketed alnum ns_class (to_bytes ns) /\
    bracketed alnum name_class (to_bytes nm) /\
    (3 <= len n <= 200)%nat.

Lemma cut_bytes_app sep a b :
  sep ∉ a -> cut_bytes sep (a ++ sep :: b) = (a, Some b).
Proof.
  induction a as [|c a IH]; intros Hn; simpl.
  - by rewrite Ascii.eqb_refl.
  - rewrite not_elem_of_cons in Hn. destruct Hn as [Hc Ha].
    destruct (Ascii.eqb_spec c sep); [congruence|]. by rewrite IH.
Qed.

Lemma cut_bytes_spec sep l :
  match cut_bytes sep l with
  | (a, Some b) => l = a ++ sep :: b /\ sep ∉ a
  | (a, None) => l = a /\ sep ∉ a
  end.
Proof.
  induction l as [|c l IH]; simpl; [split; [done|apply not_elem_of_nil]|].
  destruct (Ascii.eqb_spec c sep) as [->|Hne]; [split; [done|apply not_elem_of_nil]|].
  destruct (cut_bytes sep l) as [a [b|]]; destruct IH as [-> Ha];
    (split; [done|]); rewrite not_elem_of_cons; done.
Qed.

Lemma slash_not_ns l : bracketed alnum ns_class l -> "/"%char ∉ l.
Proof.
  intros [_ H]%bracketed_Forall; [|auto with registry]. by apply (class_excludes ns_class).
Qed.
Lemma slash_not_name l : bracketed alnum name_class l -> "/"%char ∉ l.
Proof.
  intros [_ H]%bracketed_Forall; [|auto with registry]. by apply (class_excludes name_class).
Qed.

Lemma count_app sep a b : Count (a +:+ b) sep = (Count a sep + Count b sep)%nat.
Proof. unfold Count. by rewrite to_bytes_app, List.filter_app, length_app. Qed.

Lemma split_valid ns nm :
  "/"%char ∉ to_bytes ns -> SplitN2 (ns +:+ "/" +:+ nm) "/" = [ns; nm].
Proof.
  intros Hns. unfold SplitN2. rewrite !to_bytes_app. simpl.
  rewrite cut_bytes_app by done. by rewrite !of_to_bytes.
Qed.

Lemma to_bytes_nil_inv s : to_bytes s = [] -> s = "".
Proof. by destruct s. Qed.

Lemma eqb_empty_false s : s <> "" -> String.eqb s "" = false.
Proof. intros H. by apply String.eqb_neq. Qed.

(** The body of the validator on an already trimmed name. *)
Lemma ValidateServerName_complete name n :
  TrimSpace name = n -> valid_name n -> ValidateServerName name = Ok n.
Proof.
  intros Ht (ns & nm & -> & Hns & Hnm & Hlen). unfold ValidateServerName. rewrite Ht.
  pose proof (slash_not_ns _ Hns) as Hs1. pose proof (slash_not_name _ Hnm) as Hs2.
  rewrite split_valid by done. rewrite !count_app.
  assert (Count ns "/" = 0%nat) as -> by (by apply count_zero_iff).
  assert (Count nm "/" = 0%nat) as -> by (by apply count_zero_iff).
  assert (ns <> "") by (intros ->; by apply bracketed_Forall in Hns as [? _]; auto with registry).
  assert (nm <> "") by (intros ->; by apply bracketed_Forall in Hnm as [? _]; auto with registry).
  rewrite !eqb_empty_false; [|done|done|by destruct ns]. simpl.
  unfold guard_err, rbind, minServerNameLength, maxServerNameLength, MatchString. simpl.
  apply bracket_re_spec, re_match_spec in Hns. apply bracket_re_spec, re_match_spec in Hnm.
  unfold namespacePattern, namePattern. rewrite Hns, Hnm. simpl.
  destruct (Nat.ltb_spec (len (ns +:+ "/" +:+ nm)) 3); [lia|].
  destruct (Nat.ltb_spec 200 (len (ns +:+ "/" +:+ nm))); [lia|]. done.
Qed.

Lemma ValidateServerName_sound name n :
  ValidateServerName name = Ok n -> n = TrimSpace name /\ valid_name n.
Proof.
  unfold ValidateServerName. intros H. inv_ok.
  unfold SplitN2 in H. pose proof (cut_bytes_spec "/" (to_bytes (TrimSpace name))) as Hc.
  destruct (cut_bytes "/" (to_bytes (TrimSpace name))) as [a [b|]]; [|done].
  destruct Hc as [Ha Hna]. inv_ok. split; [done|].
  repeat match goal with
  | H : negb _ = false |- _ => apply negb_false_iff in H
  | H : (_ <? _)%nat = false |- _ => apply Nat.ltb_ge in H
  end.
  unfold MatchString in *. rewrite to_of_bytes in *.
  subst n. exists (of_bytes a), (of_bytes b). split; [|split; [|split]].
  - rewrite <-(of_to_bytes (TrimSpace name)), Ha, <-(of_to_bytes (of_bytes a +:+ _)).
    by rewrite !to_bytes_app, !to_of_bytes.
  - rewrite to_of_bytes. by apply bracket_re_spec, re_match_spec.
  - rewrite to_of_bytes. by apply bracket_re_spec, re_match_spec.
  - unfold minServerNameLength, maxServerNameLength in *. lia.
Qed.

Lemma alnum_not_space c :
  alnum c = true ->
  is_space_head space_seqs c = false /\ is_space_head (map (@rev ascii) space_seqs) c = false.
Proof. destruct c as [[] [] [] [] [] [] [] []]; vm_compute; try discriminate; by split. Qed.

Lemma bracketed_ends A B l :
  bracketed A B l ->
  exists c r m d, l = c :: r /\ l = m ++ [d] /\ A c = true /\ A d = true.
Proof.
  intros [(c & Hc & ->)|(c & m & d & Hc & Hd & _ & ->)].
  - by exists c, [], [], c.
  - by exists c, (m ++ [d]), (c :: m), d.
Qed.

Lemma valid_name_trim n : valid_name n -> TrimSpace n = n.
Proof.
  intros (ns & nm & -> & Hns & Hnm & _).
  apply bracketed_ends in Hns as (c & r & _ & _ & Ens & _ & Hc & _).
  apply bracketed_ends in Hnm as (_ & _ & m & d & _ & Enm & _ & Hd).
  apply alnum_not_space in Hc as [Hc _]. apply alnum_not_space in Hd as [_ Hd].
  unfold TrimSpace. rewrite <-(of_to_bytes (ns +:+ _)) at 2. f_equal.
  rewrite !to_bytes_app, Ens, Enm. simpl.
  apply (trim_bytes_id _ _ d (c :: r ++ "/"%char :: m)); [done..|].
  simpl. by rewrite <-app_assoc.
Qed.

(** [ValidateServerName] accepts exactly the names that, once trimmed, are
    [namespace/name] with each part bracketed by alphanumerics, inner bytes in
    the part's class and a total length of 3 to 200 bytes; it returns the
    trimmed name, and every other input is an error. *)
Lemma ValidateServerName_iff name n :
  ValidateServerName name = Ok n <-> n = TrimSpace name /\ valid_name n.
Proof.
  split; [apply ValidateServerName_sound|].
  intros [-> ?]. by apply ValidateServerName_complete.
Qed.

(** A validated name validates again to itself. *)
Lemma ValidateServerName_idempotent name n :
  ValidateServerName name = Ok n -> ValidateServerName n = Ok n.
Proof.
  intros [_ H]%ValidateServerName_sound. apply ValidateServerName_complete; [|done].
  by apply valid_name_trim.
Qed.

(** Validated names never hold the cursor separator. *)
Lemma valid_name_no_comma n : valid_name n -> ","%char ∉ to_bytes n.
Proof.
  intros (ns & nm & -> & Hns & Hnm & _). rewrite !to_bytes_app, !elem_of_app.
  apply bracketed_Forall in Hns as [_ Hns]; [|auto with registry].
  apply bracketed_Forall in Hnm as [_ Hnm]; [|auto with registry].
  intros [H|[H|H]].
  - by apply (class_excludes ns_class _ ","%char) in Hns.
  - simpl in H. by apply list_elem_of_singleton in H.
  - by apply (class_excludes name_class _ ","%char) in Hnm.
Qed.

End ServerName.

(** ** Source names *)

Module SourceName.

Definition IsValidDNSSubdomain (s : string) : bool := MatchString dnsSubdomainRegex s.

Definition ValidateSourceName (name : string) : result () :=
  guard_err (negb (IsValidDNSSubdomain name))
    (EMsg "name must be a valid DNS subdomain (lowercase alphanumeric and hyphens, max 63 chars)").

(** [ValidateSourceName] succeeds exactly on RFC 1123 labels: lowercase
    alphanumerics and hyphens, no leading or trailing hyphen, 1 to 63 bytes. *)
Lemma ValidateSourceName_iff name :
  ValidateSourceName name = Ok () <->
  bracketed lower_alnum dns_class (to_bytes name) /\ (1 <= len name <= 63)%nat.
Proof.
  unfold ValidateSourceName, IsValidDNSSubdomain, MatchString.
  rewrite guard_err_ok, negb_false_iff, re_match_spec, dnsSubdomainRegex_spec.
  rewrite to_bytes_length. fold (len name). split; [|naive_solver].
  intros [Hb Hl]. split; [done|]. split; [|done].
  apply bracketed_Forall in Hb as [Hne _]; [|auto with registry]. destruct name; [done|]. simpl. lia.
Qed.

End SourceName.
