(* ===== verification/Cursor.v ===== *)
(** * Pagination cursors

    [internal/service/cursor.go] with the part of [encoding/base64] it uses
    ([base64.StdEncoding]). *)

From stdpp Require Import base list strings sets.
From Stdlib Require Import NArith ZArith Lia Ascii String.
From S2P Require Import Prelude GoStrings Validators.

Local Open Scope string_scope.
Local Open Scope list_scope.
Local Open Scope N_scope.

(** ** [base64.StdEncoding] *)

Module Base64.

Definition alphabet : string :=
  "ABCDEFGHIJKLMNOPQRSTUVWXYZabcdefghijklmnopqrstuvwxyz0123456789+/".

Definition enc_char (n : N) : ascii :=
  nth (N.to_nat n) (to_bytes alphabet) "="%char.

(** The reverse table: index of a byte in the alphabet. *)
Fixpoint index_of (c : ascii) (l : bytes) (i : N) : option N :=
  match l with
  | [] => None
  | d :: l' => if Ascii.eqb c d then Some i else index_of c l' (i + 1)
  end.
Definition dec_char (c : ascii) : option N := index_of c (to_bytes alphabet) 0.

Fixpoint encode (l : bytes) : bytes :=
  match l with
  | [] => []
  | [a] =>
      let a := N_of_ascii a in
      [enc_char (a / 4); enc_char ((a mod 4) * 16); "="%char; "="%char]
  | [a; b] =>
      let a := N_of_ascii a in let b := N_of_ascii b in
      [enc_char (a / 4); enc_char ((a mod 4) * 16 + b / 16);
       enc_char ((b mod 16) * 4); "="%char]
  | a :: b :: c :: l' =>
      let a := N_of_ascii a in let b := N_of_ascii b in let c := N_of_ascii c in
      enc_char (a / 4) :: enc_char ((a mod 4) * 16 + b / 16)
      :: enc_char ((b mod 16) * 4 + c / 64) :: enc_char (c mod 64) :: encode l'
  end.

Definition byte1 (x y : N) : ascii := ascii_of_N ((x * 4 + y / 16) mod 256).
Definition byte2 (y z : N) : ascii := ascii_of_N ((y mod 16) * 16 + z / 4).
Definition byte3 (z w : N) : ascii := ascii_of_N ((z mod 4) * 64 + w).

(** Quanta of four characters; ['='] is allowed only in the last one, as its
    third and fourth or as its fourth character.  Trailing bits of a short
    last quantum are ignored ([StdEncoding] is not strict). *)
Fixpoint decode_quanta (l : bytes) : option bytes :=
  match l with
  | [] => Some []
  | a :: b :: c :: d :: l' =>
      x ← dec_char a; y ← dec_char b;
      if Ascii.eqb c "=" then
        if (Ascii.eqb d "=" && match l' with [] => true | _ => false end)%bool
        then Some [byte1 x y] else None
      else
        z ← dec_char c;
        if Ascii.eqb d "=" then
          match l' with [] => Some [byte1 x y; byte2 y z] | _ => None end
        else
          w ← dec_char d; r ← decode_quanta l';
          Some (byte1 x y :: byte2 y z :: byte3 z w :: r)
  | _ => None
  end.

Definition is_newline (c : ascii) : bool :=
  (Ascii.eqb c (byte 10) || Ascii.eqb c (byte 13))%bool.

(** The decoder skips CR and LF. *)
Definition decode (l : bytes) : option bytes :=
  decode_quanta (List.filter (fun c => negb (is_newline c)) l).

Definition EncodeToString (s : string) : string := of_bytes (encode (to_bytes s)).
Definition DecodeString (s : string) : result string :=
  match decode (to_bytes s) with
  | Some l => Ok (of_bytes l)
  | None => Err (EMsg "illegal base64 data")
  end.

Lemma sextets (P : N -> Prop) :
  Forall P (N.of_nat <$> seq 0 64) -> forall n, n < 64 -> P n.
Proof.
  rewrite Forall_forall. intros H n Hn. apply H. apply list_elem_of_fmap.
  exists (N.to_nat n). split; [lia|]. apply elem_of_seq. lia.
Qed.

Lemma enc_char_spec n :
  n < 64 ->
  dec_char (enc_char n) = Some n /\ Ascii.eqb (enc_char n) "=" = false /\
  is_newline (enc_char n) = false.
Proof.
  revert n. apply sextets. vm_compute. repeat constructor.
Qed.

Lemma byte_lt a : N_of_ascii a < 256.
Proof. apply N_ascii_bounded. Qed.

Ltac sextet := match goal with |- context [N_of_ascii ?a] =>
  pose proof (byte_lt a); generalize dependent (N_of_ascii a); intros end.

(** The six-bit groups of the encoder are below 64 and the decoder's byte
    expressions invert them. *)
Lemma sextet_bounds a b c :
  a < 256 -> b < 256 -> c < 256 ->
  a / 4 < 64 /\ (a mod 4) * 16 < 64 /\ (a mod 4) * 16 + b / 16 < 64 /\
  (b mod 16) * 4 < 64 /\ (b mod 16) * 4 + c / 64 < 64 /\ c mod 64 < 64.
Proof. intros. zify. Z.to_euclidean_division_equations. lia. Qed.

Lemma byte1_enc a b :
  byte1 (N_of_ascii a / 4) ((N_of_ascii a mod 4) * 16 + N_of_ascii b / 16) = a.
Proof.
  unfold byte1. rewrite <-(ascii_N_embedding a) at 3. f_equal.
  pose proof (byte_lt a). pose proof (byte_lt b).
  generalize dependent (N_of_ascii a). generalize dependent (N_of_ascii b). intros.
  zify. Z.to_euclidean_division_equations. lia.
Qed.

Lemma byte1_enc_last a : byte1 (N_of_ascii a / 4) ((N_of_ascii a mod 4) * 16) = a.
Proof. rewrite <-(byte1_enc a Ascii.zero) at 3. f_equal. change (N_of_ascii Ascii.zero) with 0. change (0 / 16) with 0. change (0 / 64) with 0. lia. Qed.

Lemma byte2_enc a b c :
  byte2 ((N_of_ascii a mod 4) * 16 + N_of_ascii b / 16)
        ((N_of_ascii b mod 16) * 4 + N_of_ascii c / 64) = b.
Proof.
  unfold byte2. rewrite <-(ascii_N_embedding b) at 3. f_equal.
  pose proof (byte_lt a). pose proof (byte_lt b). pose proof (byte_lt c).
  generalize dependent (N_of_ascii a). generalize dependent (N_of_ascii b).
  generalize dependent (N_of_ascii c). intros.
  zify. Z.to_euclidean_division_equations. lia.
Qed.

Lemma byte2_enc_last a b :
  byte2 ((N_of_ascii a mod 4) * 16 + N_of_ascii b / 16) ((N_of_ascii b mod 16) * 4) = b.
Proof. rewrite <-(byte2_enc a b Ascii.zero) at 3. f_equal. change (N_of_ascii Ascii.zero) with 0. change (0 / 16) with 0. change (0 / 64) with 0. lia. Qed.

Lemma byte3_enc b c :
  byte3 ((N_of_ascii b mod 16) * 4 + N_of_ascii c / 64) (N_of_ascii c mod 64) = c.
Proof.
  unfold byte3. rewrite <-(ascii_N_embedding c) at 3. f_equal.
  pose proof (byte_lt b). pose proof (byte_lt c).
  generalize dependent (N_of_ascii b). generalize dependent (N_of_ascii c). intros.
  zify. Z.to_euclidean_division_equations. lia.
Qed.

(** Induction on the input three bytes at a time, as the encoder consumes it. *)
Lemma triples_ind (P : bytes -> Prop) :
  P [] -> (forall a, P [a]) -> (forall a b, P [a; b]) ->
  (forall a b c l, P l -> P (a :: b :: c :: l)) -> forall l, P l.
Proof.
  intros H0 H1 H2 H3. fix IH 1. intros [|a [|b [|c l]]]; [exact H0|apply H1|apply H2|apply H3, IH].
Qed.

Ltac enc_step :=
  repeat match goal with
  | |- context [dec_char (enc_char ?n)] =>
      rewrite (proj1 (enc_char_spec n ltac:(first [done|lia])))
  | |- context [Ascii.eqb (enc_char ?n) "="] =>
      rewrite (proj1 (proj2 (enc_char_spec n ltac:(first [done|lia]))))
  end.

Lemma decode_quanta_encode l : decode_quanta (encode l) = Some l.
Proof.
  induction l as [|a|a b|a b c l IH] using triples_ind; [done|..].
  - destruct (sextet_bounds _ 0 0 (byte_lt a)) as (? & ? & _); [done..|].
    simpl. enc_step. simpl. by rewrite byte1_enc_last.
  - destruct (sextet_bounds _ _ 0 (byte_lt a) (byte_lt b)) as (? & _ & ? & ? & _); [done|].
    simpl. enc_step. simpl. enc_step. by rewrite byte1_enc, byte2_enc_last.
  - destruct (sextet_bounds _ _ _ (byte_lt a) (byte_lt b) (byte_lt c)) as (? & _ & ? & _ & ? & ?).
    simpl. enc_step. simpl. enc_step. simpl. rewrite IH. simpl.
    by rewrite byte1_enc, byte2_enc, byte3_enc.
Qed.

Lemma encode_no_newline l : Forall (fun c => is_newline c = false) (encode l).
Proof.
  induction l as [|a|a b|a b c l IH] using triples_ind; simpl.
  - constructor.
  - destruct (sextet_bounds _ 0 0 (byte_lt a)) as (? & ? & _); [done..|].
    repeat constructor; by apply enc_char_spec.
  - destruct (sextet_bounds _ _ 0 (byte_lt a) (byte_lt b)) as (? & _ & ? & ? & _); [done|].
    repeat constructor; by apply enc_char_spec.
  - destruct (sextet_bounds _ _ _ (byte_lt a) (byte_lt b) (byte_lt c)) as (? & _ & ? & _ & ? & ?).
    do 4 (constructor; [by apply enc_char_spec|]). done.
Qed.

Lemma filter_all {A} (p : A -> bool) l : Forall (fun x => p x = true) l -> List.filter p l = l.
Proof. induction 1 as [|x l Hx Hl IH]; simpl; [done|]. by rewrite Hx, IH. Qed.

(** Decoding inverts encoding. *)
Lemma DecodeString_EncodeToString s : DecodeString (EncodeToString s) = Ok s.
Proof.
  unfold DecodeString, EncodeToString, decode. rewrite to_of_bytes.
  rewrite filter_all.
  - rewrite decode_quanta_encode. by rewrite of_to_bytes.
  - eapply Forall_impl; [apply encode_no_newline|]. simpl. by intros c ->.
Qed.

Lemma EncodeToString_empty s : EncodeToString s = "" -> s = "".
Proof.
  intros H. pose proof (DecodeString_EncodeToString s) as E. rewrite H in E.
  vm_compute in E. congruence.
Qed.

End Base64.

(** ** Cursors *)

Definition CursorSeparator : ascii := ",".

Definition DecodeCursor (cursor : string) : result (string * string) :=
  if String.eqb cursor "" then Ok ("", "")
  else
    match Base64.DecodeString cursor with
    | Err _ => Err (EMsg "failed to decode cursor")
    | Ok decoded =>
        match Split decoded CursorSeparator with
        | [name; version] => Ok (name, version)
        | _ => Err (EMsg "invalid cursor format: expected 2 fields separated by comma")
        end
    end.

Definition EncodeCursor (name version : string) : string :=
  Base64.EncodeToString (name +:+ String CursorSeparator "" +:+ version).

Lemma to_bytes_sep n v :
  to_bytes (n +:+ String CursorSeparator "" +:+ v) = to_bytes n ++ CursorSeparator :: to_bytes v.
Proof. by rewrite !to_bytes_app. Qed.

Lemma DecodeCursor_unfold n v :
  DecodeCursor (EncodeCursor n v) =
  match Split (n +:+ String CursorSeparator "" +:+ v) CursorSeparator with
  | [a; b] => Ok (a, b)
  | _ => Err (EMsg "invalid cursor format: expected 2 fields separated by comma")
  end.
Proof.
  unfold DecodeCursor, EncodeCursor.
  destruct (String.eqb_spec (Base64.EncodeToString (n +:+ String CursorSeparator "" +:+ v)) "") as [E|_].
  - apply Base64.EncodeToString_empty in E. by destruct n.
  - by rewrite Base64.DecodeString_EncodeToString.
Qed.

(** A cursor decodes back to the name and version it was made from exactly
    when neither contains the separator; with a comma in either field the
    decoder rejects the cursor the server itself handed out. *)
Lemma DecodeCursor_EncodeCursor_iff n v :
  DecodeCursor (EncodeCursor n v) = Ok (n, v) <->
  CursorSeparator ∉ to_bytes n /\ CursorSeparator ∉ to_bytes v.
Proof.
  rewrite DecodeCursor_unfold. unfold Split. rewrite to_bytes_sep. split.
  - intros H.
    assert (List.length (split_bytes CursorSeparator (to_bytes n ++ CursorSeparator :: to_bytes v)) = 2%nat) as Hl.
    { destruct (split_bytes _ _) as [|? [|? [|? ?]]]; simpl in H; done. }
    rewrite split_bytes_length, List.filter_app, length_app in Hl. simpl in Hl.
    rewrite <-!count_zero_iff. lia.
  - intros [Hn Hv]. rewrite split_bytes_app by done. rewrite split_bytes_none by done.
    simpl. by rewrite !of_to_bytes.
Qed.
