(* ===== verification/Versions.v ===== *)
(** * Entry versions

    [internal/versions/compare.go], [internal/versions/publishable.go] and
    [findHighestVersion] of [internal/service/db/impl_common.go].  The semantic
    version library (Masterminds/semver) is not part of the repository: it is
    the interface [SemverLib], with the order laws its documentation states in
    [SemverLaws]. *)

From stdpp Require Import base list strings sets.
From Stdlib Require Import NArith Lia Ascii String.
From S2P Require Import Prelude GoStrings.

Local Open Scope string_scope.
Local Open Scope list_scope.

(** ** The semver library *)

Class SemverLib := {
  semver : Type;
  NewVersion : string -> option semver;
  StrictNewVersion : string -> option semver;
  GreaterThan : semver -> semver -> bool
}.

(** Comparison is a strict weak order (precedence, SemVer section 11), and the
    lenient parser reads what the strict one reads, with or without a ["v"]. *)
Class SemverLaws (L : SemverLib) := {
  gt_irrefl : forall a, GreaterThan a a = false;
  gt_trans : forall a b c, GreaterThan a b = true -> GreaterThan b c = true -> GreaterThan a c = true;
  gt_negtrans : forall a b c, GreaterThan a c = true -> GreaterThan a b = true \/ GreaterThan b c = true;
  strict_lenient : forall s v, StrictNewVersion s = Some v -> NewVersion s = Some v;
  strict_v : forall s v, StrictNewVersion s = Some v -> NewVersion ("v" +:+ s) = Some v
}.

Section Versions.
Context `{L : SemverLib}.

Definition IsNewerVersion (newVersion oldVersion : string) : bool :=
  match NewVersion newVersion, NewVersion oldVersion with
  | Some newSemver, Some oldSemver => GreaterThan newSemver oldSemver
  | _, _ => str_lt oldVersion newVersion
  end.

Definition maxVersionLength : nat := 255.

Definition IsPublishable (v : string) : bool :=
  if (String.eqb v "" || (maxVersionLength <? len v)%nat)%bool then false
  else if ContainsRune v "+" then false
  else match StrictNewVersion (TrimPrefix v "v") with Some _ => true | None => false end.

(** A row of [ListEntryVersions]: the version's id and string. *)
Record VersionIdRow := { vr_id : nat; vr_version : string }.

(** The scan of [findHighestVersion] after its first row. *)
Fixpoint highest_from (best : VersionIdRow) (rows : list VersionIdRow) : VersionIdRow :=
  match rows with
  | [] => best
  | row :: rows' =>
      highest_from (if IsNewerVersion (vr_version row) (vr_version best) then row else best) rows'
  end.

(** [uuid.Nil] is [0]. *)
Definition findHighestVersion (rows : list VersionIdRow) : nat * string :=
  match rows with
  | [] => (0%nat, "")
  | r :: rs => let best := highest_from r rs in (vr_id best, vr_version best)
  end.

(** ** Properties *)

(** Versions the comparison reads as semantic versions. *)
Definition is_semver (v : string) : bool :=
  match NewVersion v with Some _ => true | None => false end.

Lemma is_semver_newer a b va vb :
  NewVersion a = Some va -> NewVersion b = Some vb -> IsNewerVersion a b = GreaterThan va vb.
Proof. unfold IsNewerVersion. by intros -> ->. Qed.

Context `{!SemverLaws L}.

Lemma newer_negtrans a b c :
  is_semver a = true -> is_semver b = true -> is_semver c = true ->
  IsNewerVersion a c = true -> IsNewerVersion a b = true \/ IsNewerVersion b c = true.
Proof.
  unfold is_semver, IsNewerVersion. intros Ha Hb Hc.
  destruct (NewVersion a), (NewVersion b), (NewVersion c); try done. apply gt_negtrans.
Qed.

Lemma newer_trans a b c :
  is_semver a = true -> is_semver b = true -> is_semver c = true ->
  IsNewerVersion a b = true -> IsNewerVersion b c = true -> IsNewerVersion a c = true.
Proof.
  unfold is_semver, IsNewerVersion. intros Ha Hb Hc.
  destruct (NewVersion a), (NewVersion b), (NewVersion c); try done. apply gt_trans.
Qed.

Lemma newer_irrefl a : is_semver a = true -> IsNewerVersion a a = false.
Proof. unfold is_semver, IsNewerVersion. destruct (NewVersion a); [|done]. intros _. apply gt_irrefl. Qed.

Lemma highest_from_in best rows : highest_from best rows ∈ best :: rows.
Proof.
  revert best. induction rows as [|r rows IH]; intros best; simpl; [set_solver|].
  specialize (IH (if IsNewerVersion (vr_version r) (vr_version best) then r else best)).
  case_match; set_solver.
Qed.

Lemma highest_from_max best rows :
  Forall (fun r => is_semver (vr_version r) = true) (best :: rows) ->
  forall r, r ∈ best :: rows ->
  IsNewerVersion (vr_version r) (vr_version (highest_from best rows)) = false.
Proof.
  revert best. induction rows as [|x rows IH]; intros best Hs r Hr; simpl.
  - apply list_elem_of_singleton in Hr as ->. apply newer_irrefl. by inversion Hs.
  - apply Forall_cons in Hs as [Hb Hs]. apply Forall_cons in Hs as [Hx Hs].
    set (b' := if IsNewerVersion (vr_version x) (vr_version best) then x else best).
    assert (is_semver (vr_version b') = true) as Hb' by (unfold b'; by case_match).
    assert (forall y, y = best \/ y = x -> IsNewerVersion (vr_version y) (vr_version b') = false) as Hy.
    { intros y [->| ->]; unfold b'; destruct (IsNewerVersion (vr_version x) (vr_version best)) eqn:E.
      - apply not_true_is_false. intros Hn.
        pose proof (newer_trans _ _ _ Hb Hx Hb Hn E) as Hbb. by rewrite newer_irrefl in Hbb.
      - by apply newer_irrefl.
      - by apply newer_irrefl.
      - done. }
    assert (Forall (fun r => is_semver (vr_version r) = true) (b' :: rows)) as Hall by by constructor.
    apply elem_of_cons in Hr as [Hr|Hr]; [|apply elem_of_cons in Hr as [Hr|Hr]];
      [| |by apply IH; [|set_solver]].
    all: apply not_true_is_false; intros Hn;
      pose proof (highest_from_in b' rows) as Hin;
      assert (is_semver (vr_version (highest_from b' rows)) = true)
        by (rewrite Forall_forall in Hall; by apply Hall);
      assert (is_semver (vr_version r) = true) by (subst r; done);
      destruct (newer_negtrans (vr_version r) (vr_version b') (vr_version (highest_from b' rows)))
        as [Hc|Hc]; [done..| |].
    all: first [rewrite Hy in Hc by naive_solver; done | rewrite IH in Hc by set_solver; done].
Qed.

(** Over versions that parse as semantic versions, [findHighestVersion]
    returns the id and version of one of the rows, and no row is newer. *)
Lemma findHighestVersion_max rows :
  rows <> [] -> Forall (fun r => is_semver (vr_version r) = true) rows ->
  exists r, r ∈ rows /\ findHighestVersion rows = (vr_id r, vr_version r) /\
    forall r', r' ∈ rows -> IsNewerVersion (vr_version r') (vr_version r) = false.
Proof.
  destruct rows as [|r rs]; [done|]. intros _ Hs. exists (highest_from r rs).
  split; [apply highest_from_in|]. split; [done|]. by apply highest_from_max.
Qed.

(** Publishable versions are semantic versions for the comparison. *)
Lemma publishable_semver v : IsPublishable v = true -> is_semver v = true.
Proof.
  unfold IsPublishable, is_semver. intros H. crush_match.
  match goal with H : StrictNewVersion _ = Some _ |- _ => rename H into Hs end.
  unfold TrimPrefix, HasPrefix in Hs. destruct (String.prefix "v" v) eqn:Hp.
  - destruct v as [|c v]; [done|]. cbn [String.prefix] in Hp.
    destruct (ascii_dec "v" c) as [Hv|]; [subst c|done].
    apply strict_v in Hs. simpl in Hs.
    replace (String.substring 0 _ v) with v in Hs.
    { change (String "v" v) with ("v" +:+ v) in *. congruence. }
    unfold len. simpl. by rewrite Nat.sub_0_r, substring_all.
  - apply strict_lenient in Hs. congruence.
Qed.

(** On publishable versions the comparison never falls back to the
    lexicographic order: it is a strict weak order (irreflexive, transitive and
    negatively transitive), so a highest version exists whatever the order of
    publication. *)
Lemma IsNewerVersion_publishable_order a b c :
  IsPublishable a = true -> IsPublishable b = true -> IsPublishable c = true ->
  IsNewerVersion a a = false /\
  (IsNewerVersion a b = true -> IsNewerVersion b c = true -> IsNewerVersion a c = true) /\
  (IsNewerVersion a c = true -> IsNewerVersion a b = true \/ IsNewerVersion b c = true).
Proof.
  intros Ha%publishable_semver Hb%publishable_semver Hc%publishable_semver.
  split; [by apply newer_irrefl|]. split; [by apply newer_trans|by apply newer_negtrans].
Qed.

End Versions.

(** Without the publishable gate the comparison is not an order: a string
    that is no semantic version compares lexicographically with both of two
    ordered ones, which closes a cycle, so "newest" depends on the order of
    publication. *)
Lemma IsNewerVersion_cycle `{SemverLib} v10 v9 :
  NewVersion "10.0.0" = Some v10 -> NewVersion "9.0.0" = Some v9 ->
  GreaterThan v10 v9 = true -> NewVersion "5!" = None ->
  IsNewerVersion "10.0.0" "9.0.0" = true /\ IsNewerVersion "9.0.0" "5!" = true /\
  IsNewerVersion "5!" "10.0.0" = true.
Proof. unfold IsNewerVersion. intros -> -> Hgt ->. by rewrite Hgt. Qed.

(** ** A concrete library for the witnesses

    Plain [major.minor.patch] numbers without leading zeros, an optional ["v"]
    in the lenient parser, compared lexicographically. *)

Module MiniSemver.

Definition digit (c : ascii) : option N :=
  let n := N_of_ascii c in
  if (N.leb 48 n && N.leb n 57)%bool then Some (n - 48)%N else None.

Fixpoint digits (acc : N) (l : bytes) : option N :=
  match l with
  | [] => Some acc
  | c :: l' => match digit c with Some d => digits (acc * 10 + d)%N l' | None => None end
  end.

Definition number (s : string) : option N :=
  match to_bytes s with
  | [] => None
  | [c] => digit c
  | c :: l => if Ascii.eqb c "0" then None else digits 0 (c :: l)
  end.

Definition strict (s : string) : option (N * N * N) :=
  match Split s "." with
  | [a; b; c] =>
      match number a, number b, number c with
      | Some a, Some b, Some c => Some (a, b, c)
      | _, _, _ => None
      end
  | _ => None
  end.

Definition lenient (s : string) : option (N * N * N) :=
  match strict s with
  | Some v => Some v
  | None => strict (TrimPrefix s "v")
  end.

Definition gtb (x y : N * N * N) : bool :=
  let '(a, b, c) := x in let '(a', b', c') := y in
  (a' <? a)%N || ((a =? a')%N && ((b' <? b)%N || ((b =? b')%N && (c' <? c)%N))).

#[export] Instance lib : SemverLib :=
  {| semver := N * N * N; NewVersion := lenient; StrictNewVersion := strict; GreaterThan := gtb |}.

Lemma gtb_spec x y :
  gtb x y = true <->
  let '(a, b, c) := x in let '(a', b', c') := y in
  (a' < a \/ (a = a' /\ (b' < b \/ (b = b' /\ c' < c))))%N.
Proof.
  destruct x as [[a b] c], y as [[a' b'] c']. unfold gtb.
  rewrite !orb_true_iff, !andb_true_iff, !orb_true_iff, !andb_true_iff, !N.ltb_lt, !N.eqb_eq. done.
Qed.

Lemma strict_v_none s : strict ("v" +:+ s) = None.
Proof.
  unfold strict, Split. rewrite to_bytes_app. simpl.
  destruct (split_bytes "." (to_bytes s)) as [|p [|b [|c [|? ?]]]]; simpl; [done..| |done].
  assert (number (String "v" (of_bytes p)) = None) as ->; [|done].
  unfold number. simpl. by destruct (to_bytes (of_bytes p)).
Qed.

#[export] Instance laws : SemverLaws lib.
Proof.
  split; simpl.
  - intros [[a b] c]. apply not_true_is_false. rewrite gtb_spec. lia.
  - intros [[a b] c] [[a' b'] c'] [[a2 b2] c2]. rewrite !gtb_spec. lia.
  - intros [[a b] c] [[a' b'] c'] [[a2 b2] c2]. rewrite !gtb_spec. lia.
  - unfold lenient. by intros s v ->.
  - intros s v Hs. unfold lenient. rewrite strict_v_none. unfold TrimPrefix, HasPrefix.
    simpl. replace (String.prefix "" s) with true by (by destruct s). unfold len. simpl.
    rewrite Nat.sub_0_r. change ("" +:+ s) with s. rewrite substring_all. by destruct s.
Qed.

End MiniSemver.
Import MiniSemver.

Lemma findHighestVersion_max_witness :
  exists r, r ∈ [ {| vr_id := 1; vr_version := "1.9.0" |}; {| vr_id := 2; vr_version := "1.10.0" |} ] /\
    findHighestVersion (L := MiniSemver.lib)
      [ {| vr_id := 1; vr_version := "1.9.0" |}; {| vr_id := 2; vr_version := "1.10.0" |} ]
      = (vr_id r, vr_version r) /\
    forall r', r' ∈ [ {| vr_id := 1; vr_version := "1.9.0" |}; {| vr_id := 2; vr_version := "1.10.0" |} ] ->
    IsNewerVersion (L := MiniSemver.lib) (vr_version r') (vr_version r) = false.
Proof.
  apply (findHighestVersion_max (L := MiniSemver.lib)); [discriminate|].
  repeat constructor.
Defined.

Lemma IsNewerVersion_publishable_order_witness :
  IsNewerVersion (L := MiniSemver.lib) "v1.2.3" "v1.2.3" = false /\
  (IsNewerVersion (L := MiniSemver.lib) "v1.2.3" "1.2.2" = true ->
   IsNewerVersion (L := MiniSemver.lib) "1.2.2" "0.9.0" = true ->
   IsNewerVersion (L := MiniSemver.lib) "v1.2.3" "0.9.0" = true) /\
  (IsNewerVersion (L := MiniSemver.lib) "v1.2.3" "0.9.0" = true ->
   IsNewerVersion (L := MiniSemver.lib) "v1.2.3" "1.2.2" = true \/
   IsNewerVersion (L := MiniSemver.lib) "1.2.2" "0.9.0" = true).
Proof.
  apply (IsNewerVersion_publishable_order (L := MiniSemver.lib) "v1.2.3" "1.2.2" "0.9.0"); reflexivity.
Defined.

Lemma IsNewerVersion_cycle_witness :
  IsNewerVersion (L := MiniSemver.lib) "10.0.0" "9.0.0" = true /\
  IsNewerVersion (L := MiniSemver.lib) "9.0.0" "5!" = true /\
  IsNewerVersion (L := MiniSemver.lib) "5!" "10.0.0" = true.
Proof.
  apply (IsNewerVersion_cycle (H := MiniSemver.lib) (10, 0, 0)%N (9, 0, 0)%N); reflexivity.
Defined.
