(* ===== verification/Claims.v ===== *)
(** * Claims

    The values of authorization claims and the two matching rules of
    [internal/service/db/claims_filter.go] (the write-path containment rule and
    the read-path visibility rule), with the claim-value validation of
    [internal/db/claims.go]. *)

From stdpp Require Import base list strings gmap sets.
From Stdlib Require Import Lia String.
From S2P Require Import Prelude.

Local Open Scope string_scope.

(** ** Dynamic values

    Go's [any] as JSON and YAML decoding produce it.  A number keeps its
    literal.  A nested [map[string]any] is the list of its pairs in iteration
    order. *)
Inductive any :=
| VNil
| VBool (b : bool)
| VNum (lit : string)
| VString (s : string)
| VStrings (l : list string)          (* []string *)
| VSlice (l : list any)               (* []any *)
| VMap (m : list (string * any)).     (* map[string]any *)

(** A non-nil [map[string]any] of claims; a map that may be nil is an
    [option claims]. *)
Abbreviation claims := (gmap string any).

Definition is_string (v : any) : bool :=
  match v with VString _ => true | _ => false end.

(** The strings among the elements of a [[]any]. *)
Definition slice_strings (l : list any) : list string :=
  omap (fun e => match e with VString s => Some s | _ => None end) l.

(** ** [internal/db/claims.go]: ValidateClaimValues *)

Definition ValidateClaimValue (v : any) : result () :=
  match v with
  | VString _ => Ok ()
  | VSlice l => guard_err (negb (forallb is_string l)) (EMsg "array element must be a string")
  | VStrings _ => Ok ()
  | _ => Err (EMsg "value must be a string or array of strings")
  end.

Definition ValidateClaimValues (c : claims) : result () :=
  for_each (fun kv => ValidateClaimValue (snd kv)) (map_to_list c).

(** ** Matching *)

(** [isValidClaimValue] *)
Definition isValidClaimValue (v : any) : bool :=
  match v with
  | VString _ => true
  | VStrings _ => true
  | VSlice l => forallb is_string l
  | _ => false
  end.

(** [toStringSet]: a [map[string]struct{}] is a [gset string]. *)
Definition toStringSet (v : any) : gset string :=
  match v with
  | VString s => {[ s ]}
  | VSlice l => list_to_set (slice_strings l)
  | VStrings l => list_to_set l
  | _ => ∅
  end.

Definition subsetOf (required have : gset string) : bool :=
  forallb (fun v => bool_decide (v ∈ have)) (elements required).

Definition overlaps (a b : gset string) : bool :=
  let '(a, b) := if (size b <? size a)%nat then (b, a) else (a, b) in
  existsb (fun v => bool_decide (v ∈ b)) (elements a).

(** One iteration of the loop of [claimsMatch]. *)
Definition claimMatches (caller : claims) (matchValues : gset string -> gset string -> bool)
    (kv : string * any) : bool :=
  let '(k, rv) := kv in
  if negb (isValidClaimValue rv) then false
  else match caller !! k with
       | None => false
       | Some cv =>
           let required := toStringSet rv in
           if (size required =? 0)%nat then true
           else matchValues required (toStringSet cv)
       end.

Definition claimsMatch (caller record : claims)
    (matchValues : gset string -> gset string -> bool) : bool :=
  forallb (claimMatches caller matchValues) (map_to_list record).

Definition claimsContain (caller record : claims) : bool := claimsMatch caller record subsetOf.
Definition claimsVisible (caller record : claims) : bool := claimsMatch caller record overlaps.
Definition claimsEqual (a b : claims) : bool := claimsContain a b && claimsContain b a.

(** ** Specifications *)

Lemma subsetOf_spec r h : subsetOf r h = true <-> r ⊆ h.
Proof.
  unfold subsetOf. rewrite forallb_true_iff. setoid_rewrite bool_decide_true_iff.
  setoid_rewrite elem_of_elements. done.
Qed.

Lemma overlaps_spec a b : overlaps a b = true <-> exists v, v ∈ a /\ v ∈ b.
Proof.
  unfold overlaps. case_match; case_match; simplify_eq;
    rewrite existsb_true_iff; setoid_rewrite bool_decide_true_iff;
    setoid_rewrite elem_of_elements; naive_solver.
Qed.

(** The key-level contract shared by both rules. *)
Definition covers (M : gset string -> gset string -> Prop) (caller record : claims) : Prop :=
  forall k rv, record !! k = Some rv ->
    isValidClaimValue rv = true /\
    exists cv, caller !! k = Some cv /\
      (toStringSet rv = ∅ \/ M (toStringSet rv) (toStringSet cv)).

Lemma claimsMatch_spec caller record m (M : gset string -> gset string -> Prop) :
  (forall r h, m r h = true <-> M r h) ->
  claimsMatch caller record m = true <-> covers M caller record.
Proof.
  intros HM. unfold claimsMatch, covers. rewrite forallb_true_iff. split.
  - intros H k rv Hk. specialize (H (k, rv)). rewrite elem_of_map_to_list in H.
    specialize (H Hk). simpl in H.
    destruct (isValidClaimValue rv); [|done]. split; [done|].
    destruct (caller !! k) as [cv|]; [|done]. exists cv. split; [done|].
    destruct (Nat.eqb_spec (size (toStringSet rv)) 0) as [E|]; simpl in H.
    + left. by apply size_empty_iff, leibniz_equiv in E.
    + right. by apply HM.
  - intros H [k rv] Hk%elem_of_map_to_list. simpl.
    destruct (H k rv Hk) as (-> & cv & -> & Hm). simpl.
    destruct (Nat.eqb_spec (size (toStringSet rv)) 0) as [E|E]; [done|].
    destruct Hm as [Hm|Hm]; [|by apply HM]. by rewrite Hm, size_empty in E.
Qed.

Lemma claimsContain_spec caller record :
  claimsContain caller record = true <-> covers (⊆) caller record.
Proof. apply claimsMatch_spec, subsetOf_spec. Qed.

(** Two value sets share an element. *)
Definition shares (a b : gset string) : Prop := exists v, v ∈ a /\ v ∈ b.

Lemma claimsVisible_spec caller record :
  claimsVisible caller record = true <-> covers shares caller record.
Proof. apply claimsMatch_spec, overlaps_spec. Qed.

Lemma contain_visible caller record : claimsContain caller record = true -> claimsVisible caller record = true.
Proof.
  rewrite claimsContain_spec, claimsVisible_spec. intros H k rv Hk.
  destruct (H k rv Hk) as (Hv & cv & Hc & Hm). split; [done|]. exists cv. split; [done|].
  destruct Hm as [|Hm]; [by left|].
  destruct (set_choose_or_empty (toStringSet rv)) as [[x Hx]|He]; [right|left].
  - exists x. set_solver.
  - by apply leibniz_equiv.
Qed.

(** The write rule is stronger than the read rule: a caller whose claims
    contain a resource's claims (and so may stamp them on it) also sees the
    resource. *)
Lemma claimsContain_visible caller record :
  claimsContain caller record = true -> claimsVisible caller record = true.
Proof. apply contain_visible. Qed.

Definition well_valued (c : claims) : Prop :=
  forall k v, c !! k = Some v -> isValidClaimValue v = true.

(** [claimsEqual] is equality of claims up to the representation of a
    value: the same keys, only string or string-array values, and for each key
    the same set of strings (so ["x"] and [["x"]] are equal). *)
Lemma claimsEqual_iff a b :
  claimsEqual a b = true <->
  well_valued a /\ well_valued b /\ dom a = dom b /\
  forall k x y, a !! k = Some x -> b !! k = Some y -> toStringSet x = toStringSet y.
Proof.
  unfold claimsEqual. rewrite andb_true_iff, !claimsContain_spec. unfold covers, well_valued.
  split.
  - intros [Hab Hba]. split; [naive_solver|]. split; [naive_solver|]. split.
    + apply set_eq. intros k. rewrite !elem_of_dom. split; intros [v Hv]; naive_solver.
    + intros k x y Hx Hy. apply set_eq. intros s.
      destruct (Hab k y Hy) as (_ & x' & Hx' & Hs1). destruct (Hba k x Hx) as (_ & y' & Hy' & Hs2).
      simplify_eq. set_solver.
  - intros (Ha & Hb & Hd & Hs). split; intros k v Hv.
    + split; [eauto|]. assert (k ∈ dom a) as [x Hx]%elem_of_dom by (rewrite Hd; by apply elem_of_dom).
      exists x. split; [done|]. right. by rewrite (Hs k x v).
    + split; [eauto|]. assert (k ∈ dom b) as [x Hx]%elem_of_dom by (rewrite <-Hd; by apply elem_of_dom).
      exists x. split; [done|]. right. by rewrite (Hs k v x).
Qed.

(** The order of callers: [b] holds every key of [a] with at least its values. *)
Definition caller_le (a b : claims) : Prop :=
  forall k x, a !! k = Some x -> exists y, b !! k = Some y /\ toStringSet x ⊆ toStringSet y.

(** Gaining claim values never takes access away: both rules are monotone
    in the caller. *)
Lemma claims_monotone a b record :
  caller_le a b ->
  (claimsVisible a record = true -> claimsVisible b record = true) /\
  (claimsContain a record = true -> claimsContain b record = true).
Proof.
  intros Hle. rewrite !claimsVisible_spec, !claimsContain_spec.
  split; intros H k rv Hk; destruct (H k rv Hk) as (Hv & cv & Hc & Hm);
    destruct (Hle k cv Hc) as (y & Hy & Hsub); (split; [done|]); exists y; (split; [done|]).
  - destruct Hm as [|(s & ? & ?)]; [by left|right; exists s; set_solver].
  - destruct Hm as [|Hm]; [by left|right; set_solver].
Qed.

(** Callers with the same keys and the same strings under each key: both rules
    see only the keys and the string sets of the caller. *)
Definition same_strings (a b : claims) : Prop := forall k, toStringSet <$> a !! k = toStringSet <$> b !! k.

#[export] Instance same_strings_equiv : Equivalence same_strings.
Proof. unfold same_strings. split; red; intros; [done|by symmetry|etrans; eauto]. Qed.

Lemma covers_same_strings M a b record : same_strings a b -> covers M a record -> covers M b record.
Proof.
  intros Hs H k rv Hk. destruct (H k rv Hk) as (Hv & cv & Hc & Hm). split; [done|].
  specialize (Hs k). rewrite Hc in Hs. destruct (b !! k) as [cv'|] eqn:E; [|done]. simplify_eq/=.
  exists cv'. by replace (toStringSet cv') with (toStringSet cv).
Qed.

#[export] Instance claimsVisible_proper : Proper (same_strings ==> eq ==> eq) claimsVisible.
Proof.
  intros a b Hs r ? <-. apply bool_eq_iff. rewrite !claimsVisible_spec.
  split; apply covers_same_strings; [done|by symmetry].
Qed.
#[export] Instance claimsContain_proper : Proper (same_strings ==> eq ==> eq) claimsContain.
Proof.
  intros a b Hs r ? <-. apply bool_eq_iff. rewrite !claimsContain_spec.
  split; apply covers_same_strings; [done|by symmetry].
Qed.

(** Validated claims are exactly the well-valued ones. *)
Lemma ValidateClaimValue_iff v : ValidateClaimValue v = Ok () <-> isValidClaimValue v = true.
Proof. destruct v; simpl; try done. by rewrite guard_err_ok, negb_false_iff. Qed.

Lemma ValidateClaimValues_iff c : ValidateClaimValues c = Ok () <-> well_valued c.
Proof.
  unfold ValidateClaimValues, well_valued. rewrite for_each_ok, Forall_forall.
  setoid_rewrite ValidateClaimValue_iff. split.
  - intros H k v Hk. apply (H (k, v)). by apply elem_of_map_to_list.
  - intros H [k v] Hk%elem_of_map_to_list. eauto.
Qed.

(** Well-valued claims cover themselves, so an entry is visible to a caller
    holding exactly its claims. *)
Lemma claimsContain_refl c : well_valued c -> claimsContain c c = true.
Proof. rewrite claimsContain_spec. intros H k v Hk. split; [eauto|]. exists v. eauto. Qed.

Lemma claimsContain_visible_witness :
  claimsVisible {[ "team" := VStrings ["eng"; "data"]; "org" := VString "acme" ]}
                {[ "team" := VSlice [VString "eng"] ]} = true.
Proof. apply claimsContain_visible. vm_compute. reflexivity. Defined.

Lemma claims_monotone_witness :
  (claimsVisible {[ "team" := VString "eng" ]} {[ "team" := VStrings ["eng"; "ops"] ]} = true ->
   claimsVisible {[ "team" := VStrings ["eng"; "data"] ]} {[ "team" := VStrings ["eng"; "ops"] ]} = true) /\
  (claimsContain {[ "team" := VString "eng" ]} {[ "team" := VStrings ["eng"; "ops"] ]} = true ->
   claimsContain {[ "team" := VStrings ["eng"; "data"] ]} {[ "team" := VStrings ["eng"; "ops"] ]} = true).
Proof.
  apply claims_monotone. intros k x Hx. destruct (decide (k = "team")) as [->|Hne].
  - exists (VStrings ["eng"; "data"]). rewrite lookup_singleton_eq in Hx. split; [reflexivity|].
    injection Hx as <-. unfold toStringSet. set_solver.
  - rewrite lookup_singleton_ne in Hx by congruence. discriminate Hx.
Defined.
