(* ===== verification/Codec.v ===== *)
(** * Claims as JSON

    The interface through which the program stores claims: [json.Marshal] and
    [json.Unmarshal] on [map[string]any], with the laws of [encoding/json] the
    program relies on ([JsonLaws]), the helpers of [internal/db/claims.go], and
    a concrete JSON text codec for claim-shaped maps that satisfies the laws. *)

From stdpp Require Import base list strings gmap sets.
From Stdlib Require Import Lia Ascii String NArith.
From S2P Require Import Prelude GoStrings Claims.

Local Open Scope string_scope.
Local Open Scope list_scope.

(** ** UTF-8 *)

Definition between (lo hi : N) (c : ascii) : bool :=
  (N.leb lo (N_of_ascii c) && N.leb (N_of_ascii c) hi)%bool.
Definition cont (c : ascii) : bool := between 128 191 c.

(** Well-formed UTF-8 (RFC 3629): what [encoding/json] writes back unchanged. *)
Fixpoint utf8 (l : bytes) : bool :=
  match l with
  | [] => true
  | a :: l1 =>
      if between 0 127 a then utf8 l1
      else match l1 with
      | b :: l2 =>
          if between 194 223 a then (cont b && utf8 l2)%bool
          else match l2 with
          | c :: l3 =>
              if (between 224 239 a)%bool then
                ((if between 224 224 a then between 160 191 b
                  else if between 237 237 a then between 128 159 b
                  else cont b) && cont c && utf8 l3)%bool
              else match l3 with
              | d :: l4 =>
                  (between 240 244 a &&
                   (if between 240 240 a then between 144 191 b
                    else if between 244 244 a then between 128 143 b
                    else cont b) && cont c && cont d && utf8 l4)%bool
              | [] => false
              end
          | [] => false
          end
      | [] => false
      end
  end.
Definition utf8_valid (s : string) : bool := utf8 (to_bytes s).

(** The strings of a claim value. *)
Definition value_strings (v : any) : list string :=
  match v with
  | VString s => [s]
  | VStrings l => l
  | VSlice l => slice_strings l
  | _ => []
  end.

(** Every key and every string of the claims is UTF-8 text. *)
Definition utf8_text (c : claims) : Prop :=
  forall k v, c !! k = Some v ->
    utf8_valid k = true /\ Forall (fun s => utf8_valid s = true) (value_strings v).

(** Claims as the API edge lets them in: string or string-array values, text in UTF-8. *)
Definition storable (c : claims) : Prop := well_valued c /\ utf8_text c.

(** Decoding gives every array as a [[]any]. *)
Definition normalize_value (v : any) : any :=
  match v with VStrings l => VSlice (VString <$> l) | v => v end.
Definition normalize (c : claims) : claims := normalize_value <$> c.

(** ** The codec *)

Class JsonCodec := {
  json_Marshal : claims -> option string;
  json_Unmarshal : string -> option claims
}.

(** Marshal succeeds on storable claims, never writes an empty text, and
    Unmarshal reads its output back; for claims with other values beside (the
    numbers of a JWT), what is read back has the same keys and strings.  Only "null" and objects decode into a
    map, so an empty text is an error. *)
Class JsonLaws (C : JsonCodec) := {
  marshal_unmarshal : forall c, storable c ->
    exists b, json_Marshal c = Some b /\ json_Unmarshal b = Some (normalize c);
  marshal_strings : forall c b, json_Marshal c = Some b -> utf8_text c ->
    exists c', json_Unmarshal b = Some c' /\ same_strings c' c;
  marshal_nonempty : forall c b, json_Marshal c = Some b -> b <> "";
  unmarshal_object : json_Unmarshal "{}" = Some ∅;
  unmarshal_null : json_Unmarshal "null" = Some ∅
}.

Section Claims.
Context `{C : JsonCodec}.

(** [SerializeClaims]; the nil slice is the empty string. *)
Definition SerializeClaims (c : option claims) : string :=
  match c with
  | None => ""
  | Some c => if (size c =? 0)%nat then "" else default "" (json_Marshal c)
  end.

(** [DeserializeClaims]; a nil map reads as the empty one. *)
Definition DeserializeClaims (data : string) : claims :=
  if String.eqb data "" then ∅ else default ∅ (json_Unmarshal data).

Context `{!JsonLaws C}.

Lemma normalize_valid v : isValidClaimValue v = true -> isValidClaimValue (normalize_value v) = true.
Proof. destruct v as [| | | |l| |]; simpl; try done. intros _. apply forallb_true_iff. by intros x (s & -> & ?)%list_elem_of_fmap. Qed.

Lemma slice_strings_fmap l : slice_strings (VString <$> l) = l.
Proof. induction l as [|s l IH]; [done|]. unfold slice_strings in *. simpl. f_equal. apply IH. Qed.

Lemma normalize_set v : toStringSet (normalize_value v) = toStringSet v.
Proof. destruct v as [| | | |l| |]; simpl; try done. by rewrite slice_strings_fmap. Qed.

Lemma normalize_same_strings c : same_strings (normalize c) c.
Proof.
  intros k. unfold normalize. rewrite lookup_fmap. destruct (c !! k); simpl; [|done].
  by rewrite normalize_set.
Qed.

Lemma normalize_well_valued c : well_valued c -> well_valued (normalize c).
Proof.
  intros Hw k v Hv. unfold normalize in Hv. rewrite lookup_fmap in Hv.
  apply fmap_Some in Hv as (x & Hx & ->). eauto using normalize_valid.
Qed.

Lemma normalize_equal c : well_valued c -> claimsEqual (normalize c) c = true.
Proof.
  intros Hw. unfold claimsEqual. apply andb_true_iff. split.
  - rewrite (normalize_same_strings c). by apply claimsContain_refl.
  - rewrite <-(claimsContain_proper _ _ (normalize_same_strings c) _ _ eq_refl).
    by apply claimsContain_refl, normalize_well_valued.
Qed.

(** Stored claims survive the round trip through the database column:
    what [SerializeClaims] writes, [DeserializeClaims] reads back as equal
    claims, and only nil or empty claims are stored as an empty column. *)
Lemma SerializeClaims_roundtrip c :
  storable c ->
  claimsEqual (DeserializeClaims (SerializeClaims (Some c))) c = true /\
  (SerializeClaims (Some c) = "" <-> c = ∅).
Proof.
  intros Hs. unfold SerializeClaims. destruct (Nat.eqb_spec (size c) 0) as [E|E].
  - apply map_size_empty_inv in E as ->. split; [|done]. vm_compute. reflexivity.
  - destruct (marshal_unmarshal c Hs) as (b & Hb & Hu). rewrite Hb. simpl.
    assert (b <> "") by eauto using marshal_nonempty. split.
    + unfold DeserializeClaims. destruct (String.eqb_spec b ""); [done|]. rewrite Hu.
      apply normalize_equal. by destruct Hs.
    + split; [done|]. intros ->. by rewrite map_size_empty in E.
Qed.

End Claims.

(** ** A JSON text codec for claim-shaped maps *)

Module ClaimsJson.

Definition quote : ascii := byte 34.

Definition hex (n : N) : ascii :=
  if (n <? 10)%N then ascii_of_N (48 + n) else ascii_of_N (87 + n).
Definition unhex (c : ascii) : option N :=
  if between 48 57 c then Some (N_of_ascii c - 48)%N
  else if between 97 102 c then Some (N_of_ascii c - 87)%N else None.

(** Bytes that [encoding/json] escapes: quotes, backslashes, control
    characters and the HTML-sensitive ones. *)
Definition must_escape (c : ascii) : bool :=
  between 0 31 c || Ascii.eqb c quote || Ascii.eqb c "\"
  || Ascii.eqb c "<" || Ascii.eqb c ">" || Ascii.eqb c "&".

Definition esc (c : ascii) : bytes :=
  if must_escape c then
    ["\"; "u"; "0"; "0"; hex (N_of_ascii c / 16); hex (N_of_ascii c mod 16)]%char
  else [c].

Definition print_string (s : string) : bytes :=
  quote :: (to_bytes s ≫= esc) ++ [quote].

(** The body of a string literal up to its closing quote, and the rest. *)
Fixpoint parse_chars (l : bytes) : option (bytes * bytes) :=
  match l with
  | [] => None
  | c :: l1 =>
      if Ascii.eqb c quote then Some ([], l1)
      else if Ascii.eqb c "\" then
        match l1 with
        | u :: z1 :: z2 :: h1 :: h2 :: l2 =>
            if (Ascii.eqb u "u" && Ascii.eqb z1 "0" && Ascii.eqb z2 "0")%bool then
              a ← unhex h1; b ← unhex h2;
              '(s, r) ← parse_chars l2;
              Some (ascii_of_N (a * 16 + b) :: s, r)
            else None
        | _ => None
        end
      else '(s, r) ← parse_chars l1; Some (c :: s, r)
  end.

Definition parse_string (l : bytes) : option (string * bytes) :=
  match l with
  | c :: l' => if Ascii.eqb c quote then '(s, r) ← parse_chars l'; Some (of_bytes s, r) else None
  | [] => None
  end.

Lemma esc_case c :
  (must_escape c = true /\
   unhex (hex (N_of_ascii c / 16)) = Some (N_of_ascii c / 16)%N /\
   unhex (hex (N_of_ascii c mod 16)) = Some (N_of_ascii c mod 16)%N /\
   ascii_of_N (N_of_ascii c / 16 * 16 + N_of_ascii c mod 16) = c) \/
  (must_escape c = false /\ Ascii.eqb c quote = false /\ Ascii.eqb c "\" = false).
Proof. destruct c as [[] [] [] [] [] [] [] []]; vm_compute; auto. Qed.

Lemma parse_chars_esc h1 h2 l :
  parse_chars ("\" :: "u" :: "0" :: "0" :: h1 :: h2 :: l)%char =
  (a ← unhex h1; b ← unhex h2; '(s, r) ← parse_chars l; Some (ascii_of_N (a * 16 + b) :: s, r)).
Proof. reflexivity. Qed.

Lemma parse_chars_print l rest :
  parse_chars ((l ≫= esc) ++ quote :: rest) = Some (l, rest).
Proof.
  induction l as [|c l IH]; [done|]. rewrite bind_cons, <-app_assoc.
  unfold esc at 1. destruct (esc_case c) as [(-> & H1 & H2 & H3)|(-> & H1 & H2)].
  - cbn [app]. rewrite parse_chars_esc, H1, H2. cbn [mbind option_bind].
    rewrite IH. simpl. by rewrite H3.
  - cbn [app parse_chars]. by rewrite H1, H2, IH.
Qed.

Lemma parse_string_print s rest : parse_string (print_string s ++ rest) = Some (s, rest).
Proof.
  unfold print_string, parse_string. simpl. rewrite <-app_assoc. simpl.
  rewrite parse_chars_print. simpl. by rewrite of_to_bytes.
Qed.

(** A comma-separated sequence up to a closing bracket. *)
Section Seq.
Context {A : Type} (print : A -> bytes) (parse : bytes -> option (A * bytes)).
Context (close : ascii).

Fixpoint print_seq (l : list A) : bytes :=
  match l with
  | [] => [close]
  | [x] => print x ++ [close]
  | x :: l' => print x ++ ","%char :: print_seq l'
  end.

Fixpoint parse_more (fuel : nat) (l : bytes) : option (list A * bytes) :=
  match fuel with
  | O => None
  | S fuel' =>
      '(x, r) ← parse l;
      match r with
      | c :: r' =>
          if Ascii.eqb c close then Some ([x], r')
          else if Ascii.eqb c "," then '(xs, r'') ← parse_more fuel' r'; Some (x :: xs, r'')
          else None
      | [] => None
      end
  end.

Definition parse_seq (l : bytes) : option (list A * bytes) :=
  match l with
  | c :: l' => if Ascii.eqb c close then Some ([], l') else parse_more (List.length l) l
  | [] => None
  end.

Context (P : A -> Prop).
Context (Hrt : forall x rest, P x -> parse (print x ++ rest) = Some (x, rest)).
Context (Hclose : Ascii.eqb "," close = false).
Context (Hhead : forall x, exists c l, print x = c :: l /\ Ascii.eqb c close = false).

Lemma parse_more_print l fuel rest :
  l <> [] -> Forall P l -> (List.length l <= fuel)%nat ->
  parse_more fuel (print_seq l ++ rest) = Some (l, rest).
Proof.
  revert fuel. induction l as [|x l IH]; intros fuel Hne HP Hf; [done|].
  apply Forall_cons in HP as [Hx HP]. destruct fuel as [|fuel]; [simpl in Hf; lia|].
  destruct l as [|y l]; cbn [print_seq parse_more].
  - rewrite <-app_assoc, Hrt by done. cbn. by rewrite Ascii.eqb_refl.
  - rewrite <-app_assoc, Hrt by done. cbn [mbind option_bind app]. rewrite Hclose. cbn.
    rewrite IH; [done|done|done|simpl in *; lia].
Qed.

Lemma print_seq_length l : (List.length l <= List.length (print_seq l))%nat.
Proof.
  induction l as [|x l IH]; [simpl; lia|]. destruct l as [|y l].
  - cbn [print_seq]. rewrite length_app. simpl. lia.
  - cbn [print_seq List.length] in *. rewrite length_app. simpl in *. lia.
Qed.

Lemma parse_seq_print l rest :
  Forall P l -> parse_seq (print_seq l ++ rest) = Some (l, rest).
Proof.
  intros HP. destruct l as [|x l]; [simpl; by rewrite Ascii.eqb_refl|].
  assert (List.length (x :: l) <= List.length (print_seq (x :: l) ++ rest))%nat as Hlen.
  { rewrite length_app. pose proof (print_seq_length (x :: l)). lia. }
  pose proof (parse_more_print (x :: l) _ rest ltac:(done) HP Hlen) as Hm.
  destruct (Hhead x) as (c & t & Hp & Hc).
  assert (exists u, print_seq (x :: l) ++ rest = c :: u) as [u Hu].
  { destruct l; cbn [print_seq]; rewrite Hp; simpl; eauto. }
  unfold parse_seq. rewrite Hu in *. by rewrite Hc.
Qed.
End Seq.

(** Values: a string or an array of strings. *)
Definition print_value (v : any) : bytes :=
  match v with
  | VString s => print_string s
  | v => "["%char :: print_seq print_string "]" (value_strings v)
  end.

Definition parse_value (l : bytes) : option (any * bytes) :=
  match l with
  | c :: l' =>
      if Ascii.eqb c "[" then
        '(ss, r) ← parse_seq parse_string "]" l'; Some (VSlice (VString <$> ss), r)
      else '(s, r) ← parse_string l; Some (VString s, r)
  | [] => None
  end.

Lemma print_string_head s : exists c l, print_string s = c :: l /\ Ascii.eqb c "]" = false.
Proof. by eexists _, _. Qed.

Lemma slice_valid l : forallb is_string l = true -> VString <$> slice_strings l = l.
Proof.
  induction l as [|v l IH]; simpl; [done|]. destruct v; simpl; try done.
  intros H. f_equal. by apply IH.
Qed.

Lemma parse_value_print v rest :
  isValidClaimValue v = true -> parse_value (print_value v ++ rest) = Some (normalize_value v, rest).
Proof.
  assert (forall ss, parse_seq parse_string "]" (print_seq print_string "]" ss ++ rest) = Some (ss, rest)) as Hseq.
  { intros ss. apply (parse_seq_print print_string parse_string "]" (fun _ => True));
      [by intros; apply parse_string_print|done|apply print_string_head|by apply Forall_true]. }
  destruct v as [| | |s|l|l|]; simpl; try done; intros Hv.
  - rewrite <-app_assoc. simpl. rewrite parse_chars_print. simpl. by rewrite of_to_bytes.
  - by rewrite Hseq.
  - rewrite Hseq. simpl. by rewrite slice_valid.
Qed.

(** Objects. *)
Definition print_pair (kv : string * any) : bytes :=
  print_string (fst kv) ++ ":"%char :: print_value (snd kv).

Definition parse_pair (l : bytes) : option ((string * any) * bytes) :=
  '(k, r) ← parse_string l;
  match r with
  | c :: r' => if Ascii.eqb c ":" then '(v, r'') ← parse_value r'; Some ((k, v), r'') else None
  | [] => None
  end.

Definition normal_pair (kv : string * any) : Prop :=
  isValidClaimValue (snd kv) = true /\ normalize_value (snd kv) = snd kv.

Lemma parse_pair_print kv rest :
  normal_pair kv -> parse_pair (print_pair kv ++ rest) = Some (kv, rest).
Proof.
  destruct kv as [k v]. intros [Hv Hn]. unfold print_pair, parse_pair. cbn [fst snd] in *.
  rewrite <-app_assoc, parse_string_print. cbn [mbind option_bind app]. cbn.
  rewrite parse_value_print by done. cbn. by rewrite Hn.
Qed.

Lemma print_value_normalize v : print_value (normalize_value v) = print_value v.
Proof. destruct v as [| | | |l| |]; simpl; try done. by rewrite slice_strings_fmap. Qed.

Lemma print_seq_fmap {A B} (p : A -> bytes) (q : B -> bytes) f close l :
  (forall x, q (f x) = p x) -> print_seq q close (f <$> l) = print_seq p close l.
Proof.
  intros H. induction l as [|x [|y l] IH]; [done|simpl; by rewrite H|].
  cbn [fmap list_fmap print_seq] in *. by rewrite H, IH.
Qed.

Definition Marshal (c : claims) : option string :=
  if forallb (fun kv => isValidClaimValue (snd kv)) (map_to_list c)
  then Some (of_bytes ("{"%char :: print_seq print_pair "}" (map_to_list c)))
  else None.

(** A later duplicate key overwrites an earlier one. *)
Definition Unmarshal (s : string) : option claims :=
  if String.eqb s "null" then Some ∅
  else match to_bytes s with
       | c :: l =>
           if Ascii.eqb c "{" then
             '(ps, r) ← parse_seq parse_pair "}" l;
             match r with [] => Some (list_to_map (reverse ps)) | _ => None end
           else None
       | [] => None
       end.

#[export] Instance codec : JsonCodec := {| json_Marshal := Marshal; json_Unmarshal := Unmarshal |}.

Lemma Unmarshal_print c :
  well_valued c ->
  Unmarshal (of_bytes ("{"%char :: print_seq print_pair "}" (map_to_list c))) = Some (normalize c).
Proof.
  intros Hw. unfold Unmarshal.
  destruct (String.eqb_spec (of_bytes ("{"%char :: print_seq print_pair "}" (map_to_list c))) "null")
    as [E|_].
  { apply (f_equal to_bytes) in E. rewrite to_of_bytes in E. discriminate E. }
  rewrite to_of_bytes. cbn [Ascii.eqb].
  rewrite <-(print_seq_fmap _ print_pair (prod_map id normalize_value)).
  2:{ intros [k v]. unfold print_pair. simpl. by rewrite print_value_normalize. }
  rewrite <-(app_nil_r (print_seq _ _ _)).
  rewrite (parse_seq_print print_pair parse_pair "}" normal_pair); [|..].
  - cbn. f_equal. unfold normalize.
    rewrite <-(list_to_map_proper (M := gmap string) (prod_map id normalize_value <$> map_to_list c)).
    + rewrite list_to_map_fmap, list_to_map_to_list. done.
    + rewrite <-list_fmap_compose.
      rewrite (list_fmap_ext _ fst); [apply NoDup_fst_map_to_list|]. by intros ? [??] ?.
    + symmetry. apply reverse_Permutation.
  - apply parse_pair_print.
  - done.
  - intros [k v]. by eexists _, _.
  - apply Forall_fmap, Forall_forall. intros [k v] Hk%elem_of_map_to_list. split; simpl.
    + eauto using normalize_valid.
    + destruct v; done.
Qed.

#[export] Instance laws : JsonLaws codec.
Proof.
  split.
  - intros c [Hw _]. exists (of_bytes ("{"%char :: print_seq print_pair "}" (map_to_list c))).
    split; [|by apply Unmarshal_print]. unfold json_Marshal. simpl. unfold Marshal.
    rewrite (proj2 (forallb_true_iff _ _)); [done|]. intros [k v] Hk%elem_of_map_to_list. eauto.
  - simpl. unfold Marshal. intros c b H Hu. case_match eqn:E; [|done]. injection H as <-.
    exists (normalize c). split; [|apply normalize_same_strings]. apply Unmarshal_print.
    intros k v Hk. apply (proj1 (forallb_true_iff _ _) E (k, v)). by apply elem_of_map_to_list.
  - simpl. unfold Marshal. intros c b H. by case_match; simplify_eq.
  - reflexivity.
  - reflexivity.
Qed.

End ClaimsJson.
Import ClaimsJson.

Lemma SerializeClaims_roundtrip_witness :
  claimsEqual
    (DeserializeClaims (C := codec) (SerializeClaims (C := codec) (Some {[ "team" := VStrings ["eng"; "R&D"] ]})))
    {[ "team" := VStrings ["eng"; "R&D"] ]} = true /\
  (SerializeClaims (C := codec) (Some {[ "team" := VStrings ["eng"; "R&D"] ]}) = "" <->
   ({[ "team" := VStrings ["eng"; "R&D"] ]} : claims) = ∅).
Proof.
  apply (SerializeClaims_roundtrip (C := codec)). split.
  - intros k v Hv. apply lookup_singleton_Some in Hv as [<- <-]. reflexivity.
  - intros k v Hv. apply lookup_singleton_Some in Hv as [<- <-]. split; [reflexivity|].
    repeat constructor.
Defined.
