(* ===== verification/ConfigTypes.v ===== *)
(** * Configuration data

    The records of [internal/config/config.go].  A Go pointer that may be nil
    is an [option]; a Go map that may be nil is an [option] of a map.  [int]
    and [int32] fields are [Z].  The [Telemetry] block of [Config] is left out:
    no function modelled here reads it. *)

From stdpp Require Import base list strings gmap.
From Stdlib Require Import ZArith String.
From S2P Require Import Prelude Claims.

Local Open Scope string_scope.

(** [SourceType] is a string type; [""] is its zero value. *)
Inductive SourceType :=
| SourceTypeGit | SourceTypeAPI | SourceTypeFile | SourceTypeManaged | SourceTypeKubernetes
| SourceTypeNone.
#[export] Instance SourceType_eq_dec : EqDecision SourceType.
Proof. solve_decision. Defined.

Record GitAuthConfig := {
  ga_Username : string;
  ga_PasswordFile : string }.

Record GitConfig := {
  git_Repository : string;
  git_Branch : string;
  git_Tag : string;
  git_Commit : string;
  git_Path : string;
  git_Auth : option GitAuthConfig }.

Record APIConfig := { api_Endpoint : string; api_Timeout : string }.

Record FileConfig := {
  file_Path : string;
  file_URL : string;
  file_Data : string;
  file_Timeout : string }.

Record ManagedConfig := {}.
Record KubernetesConfig := { k8s_Namespaces : list string }.
Record SyncPolicyConfig := { sp_Interval : string }.
Record NameFilterConfig := { nf_Include : list string; nf_Exclude : list string }.
Record TagFilterConfig := { tf_Include : list string; tf_Exclude : list string }.
Record FilterConfig := {
  flt_Names : option NameFilterConfig;
  flt_Tags : option TagFilterConfig }.

Record SourceConfig := {
  src_Name : string;
  src_Git : option GitConfig;
  src_API : option APIConfig;
  src_File : option FileConfig;
  src_Managed : option ManagedConfig;
  src_Kubernetes : option KubernetesConfig;
  src_SyncPolicy : option SyncPolicyConfig;
  src_Filter : option FilterConfig;
  src_Claims : option claims }.

Record RegistryConfig := {
  reg_Name : string;
  reg_Claims : option claims;
  reg_Sources : list string }.

(** [GetType]: the first configured block decides. *)
Definition GetType (s : SourceConfig) : SourceType :=
  if bool_decide (is_Some (src_Git s)) then SourceTypeGit
  else if bool_decide (is_Some (src_API s)) then SourceTypeAPI
  else if bool_decide (is_Some (src_File s)) then SourceTypeFile
  else if bool_decide (is_Some (src_Managed s)) then SourceTypeManaged
  else if bool_decide (is_Some (src_Kubernetes s)) then SourceTypeKubernetes
  else SourceTypeNone.

Definition IsNonSyncedSource (s : SourceConfig) : bool :=
  let srcType := GetType s in
  bool_decide (srcType = SourceTypeManaged) || bool_decide (srcType = SourceTypeKubernetes).

(** [AuthMode] is a string type: a value other than the two constants can
    come from the file, [AuthModeOther]. *)
Inductive AuthMode := AuthModeAnonymous | AuthModeOAuth | AuthModeOther (s : string).

Record RolesConfig := {
  rc_SuperAdmin : list claims;
  rc_ManageSources : list claims;
  rc_ManageRegistries : list claims;
  rc_ManageEntries : list claims }.

Record AuthzConfig := { az_Roles : RolesConfig }.

Record OAuthProviderConfig := {
  op_Name : string;
  op_IssuerURL : string;
  op_JwksUrl : string;
  op_Audience : string;
  op_ClientID : string;
  op_ClientSecretFile : string;
  op_CACertPath : string;
  op_AuthTokenFile : string;
  op_IntrospectionURL : string;
  op_AllowPrivateIP : bool;
  op_SsoCheckURL : string }.

Record OAuthConfig := {
  oa_ResourceURL : string;
  oa_Providers : list OAuthProviderConfig;
  oa_Realm : string }.

Record AuthConfig := {
  ac_Mode : AuthMode;
  ac_PublicPaths : list string;
  ac_OAuth : option OAuthConfig;
  ac_Authz : option AuthzConfig;
  ac_InsecureAllowHTTP : bool }.

Record DynamicAuthAWSRDSIAM := { aws_Region : string }.
Record DynamicAuthConfig := { da_AWSRDSIAM : option DynamicAuthAWSRDSIAM }.

Record DatabaseConfig := {
  dbc_Host : string;
  dbc_Port : Z;
  dbc_User : string;
  dbc_MigrationUser : string;
  dbc_Password : string;
  dbc_MigrationPassword : string;
  dbc_DynamicAuth : option DynamicAuthConfig;
  dbc_Database : string;
  dbc_SSLMode : string;
  dbc_MaxOpenConns : Z;
  dbc_MaxIdleConns : Z;
  dbc_ConnMaxLifetime : string;
  dbc_MaxMetaSize : option Z }.

Record AuditConfig := {
  aud_Enabled : bool;
  aud_LogFile : string;
  aud_EventTypes : list string;
  aud_ExcludeEventTypes : list string;
  aud_IncludeRequestData : bool;
  aud_MaxDataSize : Z }.

Record Config := {
  cfg_Sources : list SourceConfig;
  cfg_Registries : list RegistryConfig;
  cfg_Database : option DatabaseConfig;
  cfg_Auth : option AuthConfig;
  cfg_Audit : option AuditConfig;
  cfg_insecureAllowHTTP : bool;
  cfg_compressResponse : bool;
  cfg_WatchNamespace : string;
  cfg_LeaderElectionID : string }.
