(* ===== verification/GoPath.v ===== *)
(** * Go's [path.Clean]

    A lexical path as its list of segments.  [Clean] is the standard library's
    function: repeated slashes and [.] segments are dropped, an inner [..]
    removes the segment before it, a leading [..] of a rooted path is dropped.
    [norm_segs] is the segment list of a cleaned path made absolute, the form
    in which [internal/auth/config.go] compares paths. *)

From stdpp Require Import base list strings sets.
From Stdlib Require Import Ascii String Lia.
From S2P Require Import Prelude GoStrings.

Local Open Scope string_scope.
Local Open Scope list_scope.

Definition slash : ascii := "/"%char.

(** One pass over the segments; the stack holds the kept ones, last first. *)
Fixpoint clean_segs (rooted : bool) (stack segs : list bytes) : list bytes :=
  match segs with
  | [] => reverse stack
  | s :: segs' =>
      if bool_decide (s = []) || bool_decide (s = to_bytes ".") then clean_segs rooted stack segs'
      else if bool_decide (s = to_bytes "..") then
        match stack with
        | top :: stack' =>
            if bool_decide (top = to_bytes "..") then clean_segs rooted (s :: stack) segs'
            else clean_segs rooted stack' segs'
        | [] => clean_segs rooted (if rooted then [] else [s]) segs'
        end
      else clean_segs rooted (s :: stack) segs'
  end.

(** [strings.Join(segs, "/")] *)
Fixpoint join_segs (segs : list bytes) : bytes :=
  match segs with
  | [] => []
  | [s] => s
  | s :: segs' => s ++ slash :: join_segs segs'
  end.

Definition is_rooted (l : bytes) : bool :=
  match l with c :: _ => Ascii.eqb c slash | [] => false end.

(** [path.Clean] *)
Definition clean_bytes (l : bytes) : bytes :=
  let segs := clean_segs (is_rooted l) [] (split_bytes slash l) in
  if is_rooted l then slash :: join_segs segs
  else match segs with [] => to_bytes "." | _ => join_segs segs end.
Definition Clean (p : string) : string := of_bytes (clean_bytes (to_bytes p)).

(** [path.Clean(p)], with a [/] put in front when it has none. *)
Definition abs_bytes (l : bytes) : bytes :=
  let c := clean_bytes l in if is_rooted c then c else slash :: c.

Definition norm_segs (l : bytes) : list bytes :=
  let segs := clean_segs (is_rooted l) [] (split_bytes slash l) in
  if is_rooted l then segs else match segs with [] => [to_bytes "."] | _ => segs end.

(** ** Segments hold no slash *)

Definition slash_free (s : bytes) : Prop := slash ∉ s.
#[export] Instance slash_free_dec s : Decision (slash_free s) := _.

Lemma split_bytes_slash_free l : Forall slash_free (split_bytes slash l).
Proof.
  induction l as [|c l IH]; simpl; [repeat constructor; unfold slash_free; set_solver|].
  destruct (Ascii.eqb_spec c slash).
  - constructor; [unfold slash_free; set_solver|done].
  - destruct (split_bytes slash l) as [|p ps]; [repeat constructor; unfold slash_free; set_solver|].
    apply Forall_cons in IH as [Hp Hps]. constructor; [|done].
    unfold slash_free in *. set_solver.
Qed.

Lemma clean_segs_Forall (P : bytes -> Prop) rooted stack segs :
  Forall P stack -> Forall P segs -> Forall P (clean_segs rooted stack segs).
Proof.
  revert stack. induction segs as [|s segs IH]; intros stack Hst Hs; simpl.
  - by apply Forall_reverse.
  - apply Forall_cons in Hs as [Hs Hss]. case_match; [by apply IH|].
    case_match; [|by apply IH; [constructor|]].
    destruct stack as [|top stack].
    + apply IH; [|done]. destruct rooted; by repeat constructor.
    + case_match; apply IH; try done; [by constructor|]. by apply Forall_cons in Hst as [??].
Qed.

Lemma norm_segs_slash_free l : Forall slash_free (norm_segs l).
Proof.
  assert (H : Forall slash_free (clean_segs (is_rooted l) [] (split_bytes slash l))).
  { apply clean_segs_Forall; [constructor|apply split_bytes_slash_free]. }
  unfold norm_segs. case_match; [done|]. case_match; [|done].
  repeat constructor. unfold slash_free. apply not_elem_of_cons; split; [done|apply not_elem_of_nil].
Qed.

(** A cleaned rooted path has no empty, [.] or [..] segment left. *)
Definition plain_seg (s : bytes) : Prop := s <> [] /\ s <> to_bytes "." /\ s <> to_bytes "..".

Lemma clean_segs_plain stack segs :
  Forall plain_seg stack -> Forall plain_seg (clean_segs true stack segs).
Proof.
  revert stack. induction segs as [|s segs IH]; intros stack Hst; simpl.
  - by apply Forall_reverse.
  - case_match eqn:E1; [by apply IH|]. apply orb_false_iff in E1 as [E1 E1'].
    apply bool_decide_eq_false in E1, E1'.
    case_match eqn:E2.
    + destruct stack as [|top stack]; [by apply IH|]. apply Forall_cons in Hst as [(?&?&?) Hst].
      rewrite bool_decide_eq_false_2 by done. by apply IH.
    + apply bool_decide_eq_false in E2. apply IH. by repeat constructor.
Qed.

Lemma norm_segs_plain l : is_rooted l = true -> Forall plain_seg (norm_segs l).
Proof. intros H. unfold norm_segs. rewrite H. by apply clean_segs_plain. Qed.

(** ** The absolute form is the segments, each closed by a slash *)

Definition close_segs (segs : list bytes) : bytes := List.concat ((fun s => s ++ [slash]) <$> segs).

Lemma join_close segs : segs <> [] -> join_segs segs ++ [slash] = close_segs segs.
Proof.
  induction segs as [|s [|s' segs] IH]; intros H; [done|unfold close_segs; simpl; by rewrite app_nil_r|].
  change (join_segs (s :: s' :: segs)) with (s ++ slash :: join_segs (s' :: segs)).
  change (close_segs (s :: s' :: segs)) with ((s ++ [slash]) ++ close_segs (s' :: segs)).
  rewrite <-IH by done. by rewrite <-!(assoc_L (++)).
Qed.

Lemma is_rooted_app s l : slash_free s -> s <> [] -> is_rooted (s ++ l) = false.
Proof.
  destruct s as [|c s]; [done|]. unfold slash_free. intros H%not_elem_of_cons _. simpl.
  destruct (Ascii.eqb_spec c slash); naive_solver.
Qed.

Lemma clean_segs_nonempty rooted stack segs :
  Forall (fun s => s <> []) stack -> Forall (fun s => s <> []) (clean_segs rooted stack segs).
Proof.
  revert stack. induction segs as [|s segs IH]; intros stack Hst; simpl.
  - by apply Forall_reverse.
  - case_match eqn:E1; [by apply IH|]. apply orb_false_iff in E1 as [E1%bool_decide_eq_false _].
    case_match; [|by apply IH; constructor].
    destruct stack as [|top stack].
    + apply IH. destruct rooted; by repeat constructor.
    + case_match; apply IH; [by constructor|]. by apply Forall_cons in Hst as [??].
Qed.

Lemma norm_segs_nonempty l : Forall (fun s => s <> []) (norm_segs l).
Proof.
  pose proof (clean_segs_nonempty (is_rooted l) [] (split_bytes slash l) ltac:(constructor)) as H.
  unfold norm_segs. case_match; [done|]. case_match; [by repeat constructor|done].
Qed.

Lemma abs_bytes_spec l :
  abs_bytes l = match norm_segs l with [] => [slash] | s => slash :: join_segs s end.
Proof.
  unfold abs_bytes, clean_bytes, norm_segs.
  pose proof (clean_segs_nonempty (is_rooted l) [] (split_bytes slash l)) as Hne.
  pose proof (clean_segs_Forall slash_free (is_rooted l) [] (split_bytes slash l)) as Hsf.
  specialize (Hne ltac:(constructor)).
  specialize (Hsf ltac:(constructor) (split_bytes_slash_free l)).
  destruct (is_rooted l) eqn:Hr; simpl.
  - by destruct (clean_segs _ _ _).
  - destruct (clean_segs false [] (split_bytes slash l)) as [|s segs] eqn:E; [done|].
    apply Forall_cons in Hne as [Hs _]. apply Forall_cons in Hsf as [Hf _].
    assert (is_rooted (join_segs (s :: segs)) = false) as ->; [|done].
    destruct segs as [|s' segs].
    + simpl. rewrite <-(app_nil_r s). by apply is_rooted_app.
    + by apply is_rooted_app.
Qed.

(** ** Prefixes of paths are prefixes of segment lists *)

Lemma close_seg_prefix x y u v :
  slash_free x -> slash_free y ->
  (x ++ [slash]) ++ u `prefix_of` (y ++ [slash]) ++ v <-> x = y /\ u `prefix_of` v.
Proof.
  unfold slash_free. rewrite <-!(assoc_L (++)). simpl. revert y.
  induction x as [|c x IH]; intros [|d y] Hx Hy; simpl.
  - split; [intros H%prefix_cons_inv_2|intros [_ H]; apply prefix_cons]; done.
  - split; [intros H%prefix_cons_inv_1|]; set_solver.
  - split; [intros H%prefix_cons_inv_1|]; set_solver.
  - rewrite not_elem_of_cons in Hx, Hy. split.
    + intros H. pose proof (prefix_cons_inv_1 _ _ _ _ H) as ->.
      apply prefix_cons_inv_2, IH in H; naive_solver.
    + intros [H ?]. simplify_eq. apply prefix_cons. apply IH; naive_solver.
Qed.

Lemma close_segs_prefix a b :
  Forall slash_free a -> Forall slash_free b ->
  close_segs a `prefix_of` close_segs b <-> a `prefix_of` b.
Proof.
  revert b. induction a as [|x a IH]; intros b Ha Hb.
  - split; intros _; apply prefix_nil.
  - destruct b as [|y b].
    + split; intros E%prefix_nil_inv; [|done]. unfold close_segs in E. simpl in E.
      by destruct x.
    + apply Forall_cons in Ha as [??], Hb as [??].
      change (close_segs (x :: a)) with ((x ++ [slash]) ++ close_segs a).
      change (close_segs (y :: b)) with ((y ++ [slash]) ++ close_segs b).
      rewrite close_seg_prefix, IH by done. split.
      * intros [-> ?]. by apply prefix_cons.
      * intros E. split; [by apply prefix_cons_inv_1 in E|by apply prefix_cons_inv_2 in E].
Qed.

Lemma abs_bytes_close l :
  abs_bytes l = [slash] /\ norm_segs l = [] \/
  abs_bytes l ++ [slash] = slash :: close_segs (norm_segs l) /\ norm_segs l <> [].
Proof.
  rewrite abs_bytes_spec. destruct (norm_segs l) as [|s segs] eqn:E; [by left|].
  right. split; [|done]. rewrite <-join_close by done. done.
Qed.

Lemma prefix_snoc_close (a b : bytes) :
  b = a \/ a ++ [slash] `prefix_of` b <-> a ++ [slash] `prefix_of` b ++ [slash].
Proof.
  split.
  - intros [->|H]; [done|]. by apply prefix_app_r.
  - intros [k Hk]. destruct k as [|x k] using rev_ind.
    + left. rewrite app_nil_r in Hk. by apply (inj (.++ [slash])) in Hk.
    + right. rewrite (assoc_L (++)) in Hk. apply app_inj_tail in Hk as [-> _]. by exists k.
Qed.

(** The comparison [IsPublicPath] makes, in segments. *)
Lemma abs_path_prefix p q :
  abs_bytes q = [slash] \/ abs_bytes p = abs_bytes q \/ abs_bytes q ++ [slash] `prefix_of` abs_bytes p
  <-> norm_segs q `prefix_of` norm_segs p.
Proof.
  destruct (abs_bytes_close q) as [[Hq Hq']|[Hq Hq']].
  { rewrite Hq'. split; [intros _; apply prefix_nil|by left]. }
  assert (abs_bytes q <> [slash]) as Hns.
  { intros E. rewrite E in Hq. simplify_eq/=. pose proof (norm_segs_nonempty q) as Hne.
    destruct (norm_segs q) as [|s segs]; [done|]. apply Forall_cons in Hne as [Hs _].
    unfold close_segs in Hq. simpl in Hq. destruct s as [|c [|??]]; simplify_eq/=. }
  rewrite prefix_snoc_close, Hq. destruct (abs_bytes_close p) as [[Hp Hp']|[Hp Hp']].
  - rewrite Hp, Hp'. split.
    + intros [?|H%prefix_length]; [done|]. exfalso. rewrite <-Hq in H.
      rewrite abs_bytes_spec in H, Hns. destruct (norm_segs q) as [|s segs]; [done|].
      rewrite length_app in H. destruct (join_segs (s :: segs)); [congruence|simpl in H; lia].
    + intros H%prefix_nil_inv. done.
  - rewrite Hp. rewrite <-close_segs_prefix by apply norm_segs_slash_free. split.
    + intros [?|H]; [done|]. by apply prefix_cons_inv_2 in H.
    + intros H. right. by apply prefix_cons.
Qed.
