(* ===== verification/Durations.v ===== *)
(** * Durations

    Go's [time.ParseDuration] (with its unsigned 64-bit accumulators and its
    floating-point fractions) and [internal/db/pgtypes/interval.go]: the type
    that carries a duration to and from a PostgreSQL INTERVAL column. *)

From stdpp Require Import base list strings.
From Stdlib Require Import ZArith NArith Lia Ascii String SpecFloat.
From S2P Require Import Prelude GoStrings.

Local Open Scope string_scope.
Local Open Scope list_scope.
Local Open Scope Z_scope.

(** ** Machine integers *)

Definition wrap64 (x : Z) : Z := (x + 2 ^ 63) mod 2 ^ 64 - 2 ^ 63.
Definition uwrap64 (x : Z) : Z := x mod 2 ^ 64.
Definition int64 (x : Z) : Prop := - 2 ^ 63 <= x < 2 ^ 63.

Lemma wrap64_id x : int64 x -> wrap64 x = x.
Proof. unfold int64, wrap64. intros Hx. rewrite Z.mod_small; lia. Qed.

Lemma wrap64_range x : int64 (wrap64 x).
Proof. unfold int64, wrap64. pose proof (Z.mod_pos_bound (x + 2 ^ 63) (2 ^ 64)). lia. Qed.

(** Nanoseconds. *)
Definition Microsecond : Z := 1000.
Definition Second : Z := 1000000000.
Definition Minute : Z := 60 * Second.
Definition Hour : Z := 60 * Minute.

(** ** time.ParseDuration *)
Module Duration.

Definition is_digit (c : ascii) : bool := (48 <=? N_of_ascii c)%N && (N_of_ascii c <=? 57)%N.
Definition digit (c : ascii) : Z := Z.of_N (N_of_ascii c) - 48.

(** [leadingInt]: [None] is its overflow error. *)
Fixpoint leadingInt (x : Z) (s : bytes) : option (Z * bytes) :=
  match s with
  | c :: s' =>
      if is_digit c then
        if 2 ^ 63 / 10 <? x then None
        else let y := x * 10 + digit c in
             if 2 ^ 63 <? y then None else leadingInt y s'
      else Some (x, s)
  | [] => Some (x, [])
  end.

(** [float64] *)
Definition of_int (n : Z) : spec_float := binary_normalize 53 1024 n 0 false.
Definition fmul : spec_float -> spec_float -> spec_float := SFmul 53 1024.
Definition fdiv : spec_float -> spec_float -> spec_float := SFdiv 53 1024.
(** [uint64(x)] of a finite non-negative [x]: the integer part. *)
Definition to_uint (x : spec_float) : Z :=
  match x with
  | S754_finite _ m e => Z.shiftl (Z.pos m) e
  | _ => 0
  end.

(** [leadingFraction]: digits beyond the precision of the accumulator are
    read and ignored. *)
Fixpoint leadingFraction (x : Z) (scale : spec_float) (overflow : bool) (s : bytes)
    : Z * spec_float * bytes :=
  match s with
  | c :: s' =>
      if is_digit c then
        if overflow then leadingFraction x scale true s'
        else if (2 ^ 63 - 1) / 10 <? x then leadingFraction x scale true s'
        else let y := x * 10 + digit c in
             if 2 ^ 63 <? y then leadingFraction x scale true s'
             else leadingFraction y (fmul scale (of_int 10)) false s'
      else (x, scale, s)
  | [] => (x, scale, [])
  end.

(** The unit: everything up to the next digit or point. *)
Fixpoint span_unit (s : bytes) : bytes * bytes :=
  match s with
  | c :: s' =>
      if Ascii.eqb c "." || is_digit c then ([], s)
      else let '(u, r) := span_unit s' in (c :: u, r)
  | [] => ([], [])
  end.

(** [unitMap]; the two spellings of the micro sign are U+00B5 and U+03BC. *)
Definition unitMap (u : bytes) : option Z :=
  if decide (u = to_bytes "ns") then Some 1
  else if decide (u = to_bytes "us") then Some 1000
  else if decide (u = [byte 194; byte 181; "s"%char]) then Some 1000
  else if decide (u = [byte 206; byte 188; "s"%char]) then Some 1000
  else if decide (u = to_bytes "ms") then Some 1000000
  else if decide (u = to_bytes "s") then Some Second
  else if decide (u = to_bytes "m") then Some Minute
  else if decide (u = to_bytes "h") then Some Hour
  else None.

Definition invalid {A} : result A := Err (EMsg "time: invalid duration").

(** One number with its unit: what it adds, and the rest of the text. *)
Definition segment (s : bytes) : result (Z * bytes) :=
  match s with
  | [] => invalid
  | c :: _ =>
      if negb (Ascii.eqb c "." || is_digit c) then invalid
      else
        match leadingInt 0 s with
        | None => invalid
        | Some (v, s1) =>
            let pre := negb (List.length s1 =? List.length s)%nat in
            let '(f, scale, s2, post) :=
              match s1 with
              | c1 :: s1' =>
                  if Ascii.eqb c1 "." then
                    let '(f, scale, s2) := leadingFraction 0 (of_int 1) false s1' in
                    (f, scale, s2, negb (List.length s2 =? List.length s1')%nat)
                  else (0, of_int 1, s1, false)
              | [] => (0, of_int 1, s1, false)
              end in
            if negb pre && negb post then invalid
            else
              let '(u, s3) := span_unit s2 in
              match u with
              | [] => Err (EMsg "time: missing unit in duration")
              | _ :: _ =>
                  match unitMap u with
                  | None => Err (EMsg "time: unknown unit in duration")
                  | Some unit =>
                      if 2 ^ 63 / unit <? v then invalid
                      else
                        let v := v * unit in
                        if 0 <? f then
                          let v := uwrap64 (v + to_uint (fmul (of_int f) (fdiv (of_int unit) scale))) in
                          if 2 ^ 63 <? v then invalid else Ok (v, s3)
                        else Ok (v, s3)
                  end
              end
        end
  end.

(** The loop; every segment consumes at least its unit, so the length of the
    text is enough fuel ([segments_total]). *)
Fixpoint segments (fuel : nat) (d : Z) (s : bytes) : option (result Z) :=
  match s with
  | [] => Some (Ok d)
  | _ :: _ =>
      match fuel with
      | O => None
      | S fuel' =>
          match segment s with
          | Err e => Some (Err e)
          | Ok (v, s') =>
              let d' := uwrap64 (d + v) in
              if 2 ^ 63 <? d' then Some invalid else segments fuel' d' s'
          end
      end
  end.

Definition ParseDuration (text : string) : result Z :=
  let s := to_bytes text in
  let '(neg, s) :=
    match s with
    | c :: s' => if Ascii.eqb c "-" || Ascii.eqb c "+" then (Ascii.eqb c "-", s') else (false, s)
    | [] => (false, s)
    end in
  if decide (s = to_bytes "0") then Ok 0
  else match s with
       | [] => invalid
       | _ :: _ =>
           match segments (List.length s) 0 s with
           | None => invalid
           | Some (Err e) => Err e
           | Some (Ok d) =>
               if neg : bool then Ok (wrap64 (- d))
               else if 2 ^ 63 - 1 <? d then invalid else Ok d
           end
       end.

Example parse_90m : ParseDuration "1h30m" = Ok (90 * Minute).
Proof. vm_compute. reflexivity. Qed.
Example parse_fraction : ParseDuration "-1.5h" = Ok (- (90 * Minute)).
Proof. vm_compute. reflexivity. Qed.
Example parse_thirds : ParseDuration ".333s" = Ok 333000000.
Proof. vm_compute. reflexivity. Qed.
Example parse_bad : ParseDuration "30" = Err (EMsg "time: missing unit in duration").
Proof. vm_compute. reflexivity. Qed.

(** *** The loop ends *)

Lemma leadingInt_shorter x s y r :
  leadingInt x s = Some (y, r) -> (List.length r <= List.length s)%nat.
Proof.
  revert x. induction s as [|c s IH]; intros x H; simpl in *; [by simplify_eq|].
  repeat case_match; simplify_eq/=; try lia. apply IH in H. lia.
Qed.

Lemma leadingFraction_shorter x sc o s f sc' r :
  leadingFraction x sc o s = (f, sc', r) -> (List.length r <= List.length s)%nat.
Proof.
  revert x sc o. induction s as [|c s IH]; intros x sc o H; simpl in *; [by simplify_eq|].
  repeat case_match; simplify_eq/=; try lia; apply IH in H; lia.
Qed.

Lemma span_unit_app s : fst (span_unit s) ++ snd (span_unit s) = s.
Proof.
  induction s as [|c s IH]; simpl; [done|]. case_match; [done|].
  destruct (span_unit s) as [u r]. simpl in *. congruence.
Qed.

Lemma segment_shorter s v r : segment s = Ok (v, r) -> (List.length r < List.length s)%nat.
Proof.
  unfold segment. intros H. destruct s as [|c0 s0]; [done|]. case_match; [done|].
  destruct (leadingInt 0 _) as [[v0 s1]|] eqn:E1; [|done]. apply leadingInt_shorter in E1.
  set (w := match s1 with [] => _ | _ => _ end) in *.
  assert (Hw : (List.length (snd (fst w)) <= List.length s1)%nat).
  { subst w. destruct s1 as [|c1 s1']; [done|]. destruct (Ascii.eqb c1 "."); [|done].
    destruct (leadingFraction _ _ _ _) as [[f sc] s2] eqn:E2. apply leadingFraction_shorter in E2.
    simpl. lia. }
  destruct w as [[[f sc] s2] post]. simpl in Hw. case_match; [done|].
  pose proof (span_unit_app s2) as Hu. destruct (span_unit s2) as [u s3]. simpl in Hu.
  destruct u as [|c u]; [done|]. apply (f_equal List.length) in Hu. rewrite length_app in Hu. simpl in Hu.
  repeat case_match; simplify_eq/=; lia.
Qed.

Lemma segments_total fuel d s : (List.length s <= fuel)%nat -> is_Some (segments fuel d s).
Proof.
  revert d s. induction fuel as [|fuel IH]; intros d [|c s] Hf; cbn [segments List.length] in *; try done; try lia.
  destruct (segment (c :: s)) as [[v r]|e] eqn:E; [|done]. apply segment_shorter in E.
  case_match; [done|]. apply IH. simpl in *. lia.
Qed.

(** *** Range *)

Lemma segments_range fuel d s d' :
  0 <= d <= 2 ^ 63 -> segments fuel d s = Some (Ok d') -> 0 <= d' <= 2 ^ 63.
Proof.
  revert d s. induction fuel as [|fuel IH]; intros d [|c s] Hd H; cbn [segments] in H; try by simplify_eq.
  destruct (segment (c :: s)) as [[v r]|e]; [|done]. case_match eqn:Hb; [done|]. apply Z.ltb_ge in Hb.
  apply (IH _ _) in H; [done|]. split; [|done]. apply Z.mod_pos_bound. lia.
Qed.

Lemma ParseDuration_range text d : ParseDuration text = Ok d -> int64 d.
Proof.
  unfold ParseDuration, int64. intros H. case_match. case_match; [simplify_eq; lia|].
  repeat case_match; simplify_eq; try apply wrap64_range;
    match goal with H : segments _ _ _ = _ |- _ => apply segments_range in H end;
    match goal with H : (_ <? _) = false |- _ => apply Z.ltb_ge in H | _ => idtac end; lia.
Qed.

(** *** A number with one unit *)

(** The value of a string of digits. *)
Definition dval_from (x : Z) (l : bytes) : Z := foldl (fun x c => x * 10 + digit c) x l.
Abbreviation dval := (dval_from 0).

Lemma digit_range c : is_digit c = true -> 0 <= digit c <= 9.
Proof. unfold is_digit, digit. intros [?%N.leb_le ?%N.leb_le]%andb_true_iff. lia. Qed.

Lemma dval_from_ge x l : 0 <= x -> Forall (fun c => is_digit c = true) l -> x <= dval_from x l.
Proof.
  intros Hx Hl. revert x Hx. induction Hl as [|c l Hc Hl IH]; intros x Hx; simpl; [lia|].
  apply digit_range in Hc. specialize (IH (x * 10 + digit c)). unfold dval_from in *. lia.
Qed.

Lemma leadingInt_digits x l u :
  0 <= x <= 2 ^ 63 -> Forall (fun c => is_digit c = true) l ->
  match u with c :: _ => is_digit c = false | [] => True end ->
  leadingInt x (l ++ u) = if dval_from x l <=? 2 ^ 63 then Some (dval_from x l, u) else None.
Proof.
  intros Hx Hl Hu. revert x Hx. induction Hl as [|c l Hc Hl IH]; intros x Hx.
  - simpl. rewrite (proj2 (Z.leb_le x (2 ^ 63))) by lia. destruct u as [|c u]; [done|]. simpl. by rewrite Hu.
  - cbn [app leadingInt]. rewrite Hc. change (dval_from x (c :: l)) with (dval_from (x * 10 + digit c) l).
    pose proof (digit_range c Hc) as Hr. pose proof (dval_from_ge (x * 10 + digit c) l) as Hge.
    destruct (Z.ltb_spec (2 ^ 63 / 10) x) as [Hlt|Hle].
    { rewrite (proj2 (Z.leb_gt _ _)); [done|]. apply Z.lt_le_trans with (x * 10 + digit c); [|apply Hge; [lia|done]].
      change (2 ^ 63 / 10) with 922337203685477580 in Hlt. lia. }
    destruct (Z.ltb_spec (2 ^ 63) (x * 10 + digit c)).
    { rewrite (proj2 (Z.leb_gt _ _)); [done|]. specialize (Hge ltac:(lia) Hl). lia. }
    apply IH. lia.
Qed.

(** The units, as text that starts with no digit and no point. *)
Lemma unitMap_shape u unit :
  unitMap u = Some unit ->
  span_unit u = (u, []) /\ 0 < unit /\
  exists c u', u = c :: u' /\ is_digit c = false /\ Ascii.eqb c "." = false.
Proof.
  unfold unitMap. intros H. repeat (case_decide; [simplify_eq; split; [done|]; split; [done|]; by eexists _, _|]).
  done.
Qed.

(** Text that the unit before it does not run into. *)
Definition fresh_start (r : bytes) : Prop :=
  match r with [] => True | c :: _ => is_digit c = true end.

Lemma span_unit_fresh u r :
  span_unit u = (u, []) -> fresh_start r -> span_unit (u ++ r) = (u, r).
Proof.
  intros Hu Hr. induction u as [|c u IH]; simpl in *.
  - destruct r as [|c r]; [done|]. simpl in *. by rewrite Hr, orb_true_r.
  - case_match; [done|]. destruct (span_unit u) as [u' r'] eqn:E. simplify_eq.
    by rewrite (IH eq_refl).
Qed.

(** One number with its unit. *)
Lemma segment_digits l u unit r :
  l <> [] -> Forall (fun c => is_digit c = true) l -> unitMap u = Some unit -> fresh_start r ->
  segment (l ++ u ++ r) =
  if 2 ^ 63 / unit <? dval l then invalid else Ok (dval l * unit, r).
Proof.
  intros Hl Hd Hu Hr. destruct (unitMap_shape u unit Hu) as (Hspan & Hpos & c & u' & Eu & Hc & Hdot).
  destruct l as [|d l]; [done|]. pose proof Hd as [Hd0 _]%Forall_cons.
  unfold segment. cbn [app]. rewrite Hd0, orb_true_r. cbn [negb].
  change (d :: l ++ u ++ r) with ((d :: l) ++ u ++ r).
  rewrite leadingInt_digits; [|lia|done|by rewrite Eu].
  destruct (Z.leb_spec (dval (d :: l)) (2 ^ 63)) as [Hle|Hgt].
  - pose proof (span_unit_fresh u r Hspan Hr) as Hs. rewrite Eu in Hs |- *. cbn [app] in Hs |- *.
    rewrite Hdot. replace (List.length (c :: u' ++ r) =? List.length (d :: l ++ c :: u' ++ r))%nat with false.
    2:{ symmetry. apply Nat.eqb_neq. simpl. rewrite !length_app. simpl. rewrite ?length_app. lia. }
    cbn [negb andb]. rewrite Hs. by rewrite <-Eu, Hu.
  - rewrite (proj2 (Z.ltb_lt _ _)); [done|]. apply Z.le_lt_trans with (2 ^ 63); [|done].
    apply Z.div_le_upper_bound; lia.
Qed.

(** The loop over such numbers: the sum, as long as it fits. *)
Lemma segments_digits fuel l u unit r d :
  l <> [] -> Forall (fun c => is_digit c = true) l -> unitMap u = Some unit -> fresh_start r ->
  0 <= d -> d + dval l * unit <= 2 ^ 63 - 1 ->
  segments (S fuel) d (l ++ u ++ r) = segments fuel (d + dval l * unit) r.
Proof.
  intros Hl Hd Hu Hr H0 Hb. pose proof (segment_digits l u unit r Hl Hd Hu Hr) as Hs.
  destruct (unitMap_shape u unit Hu) as (_ & Hpos & _).
  pose proof (dval_from_ge 0 l ltac:(lia) Hd) as Hnn.
  destruct l as [|c l]; [done|]. cbn [app segments] in *. rewrite Hs.
  set (v := dval (c :: l)) in *. assert (Hv : 0 <= v * unit) by nia.
  assert (Hq : v <= 2 ^ 63 / unit) by (apply Z.div_le_lower_bound; lia).
  rewrite (proj2 (Z.ltb_ge _ _) Hq). unfold uwrap64. rewrite Z.mod_small by lia.
  by rewrite (proj2 (Z.ltb_ge _ _)) by lia.
Qed.

(** [ParseDuration] on text that starts with a digit and is not just [0]. *)
Lemma ParseDuration_unsigned c s :
  is_digit c = true -> c :: s <> to_bytes "0" ->
  ParseDuration (of_bytes (c :: s)) =
  match segments (List.length (c :: s)) 0 (c :: s) with
  | Some (Ok d) => if 2 ^ 63 - 1 <? d then invalid else Ok d
  | Some (Err e) => Err e
  | None => invalid
  end.
Proof.
  intros Hc H0. unfold ParseDuration. rewrite to_of_bytes.
  assert (Hs : Ascii.eqb c "-" || Ascii.eqb c "+" = false).
  { apply orb_false_iff. split; apply Ascii.eqb_neq; intros ->; by vm_compute in Hc. }
  rewrite Hs, decide_False by done. by repeat case_match.
Qed.

Lemma ParseDuration_digits l u unit :
  l <> [] -> Forall (fun c => is_digit c = true) l -> unitMap u = Some unit ->
  ParseDuration (of_bytes (l ++ u)) =
  if dval l * unit <=? 2 ^ 63 - 1 then Ok (dval l * unit) else invalid.
Proof.
  intros Hl Hd Hu. pose proof (segment_digits l u unit [] Hl Hd Hu I) as Hs. rewrite app_nil_r in Hs.
  destruct (unitMap_shape u unit Hu) as (_ & Hpos & cu & u' & Eu & _).
  pose proof (dval_from_ge 0 l ltac:(lia) Hd) as Hnn.
  destruct l as [|c l]; [done|]. pose proof Hd as [Hc _]%Forall_cons. cbn [app] in *.
  rewrite ParseDuration_unsigned by (done || (rewrite Eu; destruct l; simpl; congruence)).
  cbn [List.length segments]. rewrite Hs. clear Hs.
  destruct (Z.ltb_spec (2 ^ 63 / unit) (dval (c :: l))) as [Hlt|Hle].
  - rewrite (proj2 (Z.leb_gt _ _)); [done|].
    pose proof (Z.mod_pos_bound (2 ^ 63) unit Hpos). pose proof (Z.div_mod (2 ^ 63) unit ltac:(lia)). nia.
  - pose proof (Z.mul_div_le (2 ^ 63) unit Hpos) as Hdiv.
    unfold uwrap64. rewrite Z.add_0_l, Z.mod_small by nia. rewrite (proj2 (Z.ltb_ge _ _)) by nia.
    destruct (List.length (l ++ u)); cbn [segments]; rewrite Z.ltb_antisym; by destruct (_ <=? _).
Qed.

(** *** Duration.String *)

(** The decimal digits of a number, most significant first; twenty are enough
    for 64 bits. *)
Fixpoint fmtInt_from (fuel : nat) (v : Z) (acc : bytes) : bytes :=
  match fuel with
  | O => acc
  | S fuel' =>
      let acc := ascii_of_N (Z.to_N (v mod 10) + 48) :: acc in
      if v / 10 =? 0 then acc else fmtInt_from fuel' (v / 10) acc
  end.
Definition fmtInt (v : Z) : bytes := fmtInt_from 20 v [].

(** [fmtFrac]: [prec] digits after the point without trailing zeros, and what
    is left of [v]. *)
Fixpoint fmtFrac_from (prec : nat) (print : bool) (v : Z) (acc : bytes) : bytes * Z :=
  match prec with
  | O => ((if print then "."%char :: acc else acc), v)
  | S prec' =>
      let digit := v mod 10 in
      let print := print || negb (digit =? 0) in
      fmtFrac_from prec' print (v / 10)
        (if print then ascii_of_N (Z.to_N digit + 48) :: acc else acc)
  end.
Definition fmtFrac (prec : nat) (v : Z) : bytes * Z := fmtFrac_from prec false v [].

Definition String (d : Z) : string :=
  let u := Z.abs d in
  of_bytes ((if d <? 0 then to_bytes "-" else []) ++
    (if u <? Second then
       if u =? 0 then to_bytes "0s"
       else
         let '(prec, unit) :=
           if u <? 1000 then (0%nat, to_bytes "ns")
           else if u <? 1000000 then (3%nat, [byte 194; byte 181; "s"%char])
           else (6%nat, to_bytes "ms") in
         let '(frac, v) := fmtFrac prec u in fmtInt v ++ frac ++ unit
     else
       let '(frac, v) := fmtFrac 9 u in
       let secs := fmtInt (v mod 60) ++ frac ++ to_bytes "s" in
       let m := v / 60 in
       if 0 <? m then
         let mins := fmtInt (m mod 60) ++ to_bytes "m" ++ secs in
         let h := m / 60 in
         if 0 <? h then fmtInt h ++ to_bytes "h" ++ mins else mins
       else secs)).

Example string_90m : String (90 * Minute) = "1h30m0s".
Proof. vm_compute. reflexivity. Qed.
Example string_frac : String (- 1500000) = "-1.5ms".
Proof. vm_compute. reflexivity. Qed.

Lemma digit_of k : 0 <= k < 10 -> is_digit (ascii_of_N (Z.to_N k + 48)) = true /\
  digit (ascii_of_N (Z.to_N k + 48)) = k.
Proof.
  intros Hk. assert (Hc : k = 0 \/ k = 1 \/ k = 2 \/ k = 3 \/ k = 4 \/ k = 5 \/ k = 6 \/ k = 7 \/ k = 8 \/ k = 9)
    by lia. by repeat destruct Hc as [->|Hc]; [..|subst k].
Qed.

Lemma fmtInt_from_spec fuel v acc :
  0 <= v < 10 ^ Z.of_nat fuel -> (0 < fuel)%nat ->
  exists l, fmtInt_from fuel v acc = l ++ acc /\ l <> [] /\ Forall (fun c => is_digit c = true) l /\ dval l = v.
Proof.
  revert v acc. induction fuel as [|fuel IH]; intros v acc Hv Hf; [lia|]. cbn [fmtInt_from].
  pose proof (Z.mod_pos_bound v 10 ltac:(lia)) as Hm. destruct (digit_of (v mod 10) ltac:(lia)) as [Hd Hval].
  pose proof (Z.div_mod v 10 ltac:(lia)) as Hdm.
  destruct (Z.eqb_spec (v / 10) 0) as [E|Hne].
  - exists [ascii_of_N (Z.to_N (v mod 10) + 48)]. split_and!; [done|done|by constructor|]. simpl. lia.
  - replace (Z.of_nat (S fuel)) with (Z.of_nat fuel + 1) in Hv by lia. rewrite Z.pow_add_r in Hv by lia.
    destruct (IH (v / 10) (ascii_of_N (Z.to_N (v mod 10) + 48) :: acc)) as (l & -> & Hl & HF & Hdv).
    { split; [apply Z.div_pos; lia|]. apply Z.div_lt_upper_bound; lia. }
    { destruct fuel; [|lia]. simpl in Hv. exfalso. apply Hne. apply Z.div_small. lia. }
    exists (l ++ [ascii_of_N (Z.to_N (v mod 10) + 48)]). split; [by rewrite <-(assoc_L (++))|].
    split; [by destruct l|]. split; [apply Forall_app; split; [done|by constructor]|].
    unfold dval_from in *. rewrite foldl_app. simpl. rewrite Hdv. lia.
Qed.

Lemma fmtInt_spec v :
  0 <= v < 2 ^ 63 ->
  fmtInt v <> [] /\ Forall (fun c => is_digit c = true) (fmtInt v) /\ dval (fmtInt v) = v.
Proof.
  intros Hv. destruct (fmtInt_from_spec 20 v []) as (l & E & ? & ? & ?); [lia..|].
  unfold fmtInt. rewrite E, app_nil_r. done.
Qed.

Lemma fmtFrac_whole prec v acc :
  0 <= v -> fmtFrac_from prec false (v * 10 ^ Z.of_nat prec) acc = (acc, v).
Proof.
  intros Hv. revert acc. induction prec as [|prec IH]; intros acc; cbn [fmtFrac_from].
  - f_equal. lia.
  - replace (Z.of_nat (S prec)) with (Z.of_nat prec + 1) by lia. rewrite Z.pow_add_r by lia.
    replace (v * (10 ^ Z.of_nat prec * 10 ^ 1)) with (v * 10 ^ Z.of_nat prec * 10) by lia.
    rewrite Z.mod_mul, Z.div_mul by lia. apply IH.
Qed.

Lemma fresh_fmtInt v r : 0 <= v < 2 ^ 63 -> fresh_start (fmtInt v ++ r).
Proof.
  intros Hv. destruct (fmtInt_spec v Hv) as (Hne & HF & _). destruct (fmtInt v); [done|].
  by apply Forall_cons in HF as [? _].
Qed.

(** More fuel changes nothing, and the length of the text is enough. *)
Lemma segments_mono fuel fuel' d s r :
  segments fuel d s = Some r -> (fuel <= fuel')%nat -> segments fuel' d s = Some r.
Proof.
  revert fuel' d s. induction fuel as [|fuel IH]; intros [|fuel'] d [|c s] H Hf; cbn [segments] in *; try done; try lia.
  destruct (segment (c :: s)) as [[v s']|]; [|done]. case_match; [done|]. apply IH; [done|lia].
Qed.

Lemma segments_enough k d s r : segments k d s = Some r -> segments (List.length s) d s = Some r.
Proof.
  intros H. destruct (segments_total (List.length s) d s) as [r' Hr']; [done|].
  apply (segments_mono _ (k + List.length s)) in H; [|lia].
  pose proof (segments_mono _ (k + List.length s) _ _ _ Hr' ltac:(lia)). congruence.
Qed.

Lemma ParseDuration_text s d k :
  fresh_start s -> (2 <= List.length s)%nat -> segments k 0 s = Some (Ok d) -> d <= 2 ^ 63 - 1 ->
  ParseDuration (of_bytes s) = Ok d.
Proof.
  destruct s as [|c s]; [simpl; lia|]. intros Hc Hlen H%segments_enough Hd.
  rewrite ParseDuration_unsigned; [|done|destruct s; [simpl in Hlen; lia|done]]. rewrite H.
  by rewrite (proj2 (Z.ltb_ge _ _)) by lia.
Qed.

(** A printed number with its unit, in front of more. *)
Lemma segments_printed fuel v u unit r d :
  0 <= v -> unitMap u = Some unit -> fresh_start r -> 0 <= d -> d + v * unit <= 2 ^ 63 - 1 ->
  segments (S fuel) d (fmtInt v ++ u ++ r) = segments fuel (d + v * unit) r.
Proof.
  intros Hv Hu Hr Hd Hb. destruct (unitMap_shape u unit Hu) as (_ & Hpos & _).
  destruct (fmtInt_spec v) as (Hne & HF & E); [nia|].
  rewrite (segments_digits fuel _ u unit r d); rewrite ?E; done.
Qed.

(** Whole seconds print and parse back: the schedules the configuration
    stores, as [IsIntervalSyncNeeded] reads them. *)
Lemma ParseDuration_String n :
  0 <= n -> n * Second <= 2 ^ 63 - 1 -> ParseDuration (String (n * Second)) = Ok (n * Second).
Proof.
  intros Hn Hb. destruct (decide (n = 0)) as [->|Hn0]; [by vm_compute|].
  unfold String. rewrite Z.abs_eq by (unfold Second; lia).
  rewrite (proj2 (Z.ltb_ge _ _)), (proj2 (Z.ltb_ge _ _)) by (unfold Second; lia).
  unfold fmtFrac. change Second with (10 ^ Z.of_nat 9) at 1. rewrite fmtFrac_whole by done. cbn [app].
  pose proof (Z.mod_pos_bound n 60 ltac:(lia)). pose proof (Z.mod_pos_bound (n / 60) 60 ltac:(lia)).
  pose proof (Z.div_mod n 60 ltac:(lia)) as E1. pose proof (Z.div_mod (n / 60) 60 ltac:(lia)) as E2.
  pose proof (Z.div_pos n 60 ltac:(lia) ltac:(lia)). pose proof (Z.div_pos (n / 60) 60 ltac:(lia) ltac:(lia)).
  assert (Hlen : forall v u, (1 <= List.length u)%nat -> 0 <= v < 2 ^ 63 ->
    (2 <= List.length (fmtInt v ++ u))%nat).
  { intros v u Hu Hv. destruct (fmtInt_spec v Hv) as (Hne & _). rewrite length_app.
    destruct (fmtInt v); [done|simpl; lia]. }
  assert (Hs : forall fuel d, 0 <= d -> d + (n mod 60) * Second <= 2 ^ 63 - 1 ->
    segments (S fuel) d (fmtInt (n mod 60) ++ to_bytes "s") = Some (Ok (d + (n mod 60) * Second))).
  { intros fuel d Hd Hdb. rewrite <-(app_nil_r (to_bytes "s")).
    rewrite (segments_printed fuel _ _ Second); [by destruct fuel|lia|done|done|done|done]. }
  unfold Minute, Hour, Second in *.
  destruct (Z.ltb_spec 0 (n / 60)) as [Hm|Hm]; [destruct (Z.ltb_spec 0 (n / 60 / 60)) as [Hh|Hh]|].
  - apply (ParseDuration_text _ _ 3); [apply fresh_fmtInt; lia|apply Hlen; [simpl; lia|lia]| |lia].
    rewrite (segments_printed 2 _ _ Hour); [|lia|done|apply fresh_fmtInt; lia|lia|unfold Hour, Minute, Second; lia].
    rewrite (segments_printed 1 _ _ Minute); [|lia|done|apply fresh_fmtInt; lia|unfold Hour, Minute, Second; lia|unfold Hour, Minute, Second; lia].
    rewrite Hs by (unfold Hour, Minute, Second; lia). do 2 f_equal. unfold Hour, Minute, Second. lia.
  - apply (ParseDuration_text _ _ 2); [apply fresh_fmtInt; lia|apply Hlen; [simpl; lia|lia]| |lia].
    rewrite (segments_printed 1 _ _ Minute); [|lia|done|apply fresh_fmtInt; lia|lia|unfold Minute, Second; lia].
    rewrite Hs by (unfold Hour, Minute, Second; lia). do 2 f_equal. unfold Hour, Minute, Second. lia.
  - apply (ParseDuration_text _ _ 1); [apply fresh_fmtInt; lia|apply Hlen; [simpl; lia|lia]| |lia].
    rewrite Hs by lia. do 2 f_equal. lia.
Qed.

End Duration.

(** ** PostgreSQL intervals

    [internal/db/pgtypes/interval.go]. *)
Module Interval.

(** [pgtype.Interval] of pgx. *)
Record PgInterval := {
  pg_Microseconds : Z;
  pg_Days : Z;
  pg_Months : Z;
  pg_Valid : bool }.

Record Interval := { iv_Duration : Z; iv_Valid : bool }.

Definition NewInterval (d : Z) : Interval := {| iv_Duration := d; iv_Valid := true |}.
Definition NewNullInterval : Interval := {| iv_Duration := 0; iv_Valid := false |}.

(** What a driver hands to [Scan]. *)
Inductive source :=
| SrcNil
| SrcInterval (v : PgInterval)
| SrcString (s : string)
| SrcBytes (s : string)
| SrcOther.

Section Scan.
(** pgx's own parser of interval text. *)
Variable pgScan : string -> option PgInterval.

(** The conversion both branches write out, in int64 arithmetic. *)
Definition from_pg (v : PgInterval) : Interval :=
  let microseconds := pg_Microseconds v in
  let microseconds := wrap64 (microseconds + wrap64 (pg_Days v * 24 * 60 * 60 * 1000000)) in
  let microseconds := wrap64 (microseconds + wrap64 (pg_Months v * 30 * 24 * 60 * 60 * 1000000)) in
  {| iv_Duration := wrap64 (microseconds * Microsecond); iv_Valid := pg_Valid v |}.

Definition scan_string (v : string) : result Interval :=
  match pgScan v with
  | None => Err (EMsg "failed to parse interval string")
  | Some pgInterval => Ok (from_pg pgInterval)
  end.

Definition Scan (src : source) : result Interval :=
  match src with
  | SrcNil => Ok NewNullInterval
  | SrcInterval v => Ok (from_pg v)
  | SrcString v => scan_string v
  | SrcBytes v => scan_string v
  | SrcOther => Err (EMsg "cannot scan %T into Interval")
  end.

Definition Value (i : Interval) : source :=
  if iv_Valid i then
    SrcInterval {| pg_Microseconds := Z.quot (iv_Duration i) 1000; pg_Days := 0; pg_Months := 0;
                   pg_Valid := true |}
  else SrcNil.

Definition ParseDuration (s : string) : result Interval :=
  if String.eqb s "" then Ok NewNullInterval
  else d <- Duration.ParseDuration s ;; Ok (NewInterval d).

Lemma wrap64_add_r a b : wrap64 (a + wrap64 b) = wrap64 (a + b).
Proof.
  unfold wrap64. f_equal. replace (a + ((b + 2 ^ 63) mod 2 ^ 64 - 2 ^ 63) + 2 ^ 63)
    with (a + (b + 2 ^ 63) mod 2 ^ 64) by lia. rewrite Z.add_mod_idemp_r by lia. f_equal. lia.
Qed.

Lemma wrap64_add_l a b : wrap64 (wrap64 a + b) = wrap64 (a + b).
Proof. by rewrite Z.add_comm, wrap64_add_r, Z.add_comm. Qed.

Lemma wrap64_cong x y : x mod 2 ^ 64 = y mod 2 ^ 64 -> wrap64 x = wrap64 y.
Proof. intros H. unfold wrap64. rewrite <-(Z.add_mod_idemp_l x), <-(Z.add_mod_idemp_l y), H by lia. done. Qed.

Lemma wrap64_mod x : wrap64 x mod 2 ^ 64 = x mod 2 ^ 64.
Proof. unfold wrap64. rewrite Zminus_mod_idemp_l. f_equal. lia. Qed.

Lemma wrap64_mul_l a b : wrap64 (wrap64 a * b) = wrap64 (a * b).
Proof. apply wrap64_cong. by rewrite <-Z.mul_mod_idemp_l, wrap64_mod, Z.mul_mod_idemp_l by lia. Qed.

(** The nanoseconds an interval stands for, a month being thirty days. *)
Definition pg_nanoseconds (v : PgInterval) : Z :=
  1000 * (pg_Microseconds v + (pg_Days v + 30 * pg_Months v) * 86400000000).

Lemma from_pg_wrap v : iv_Duration (from_pg v) = wrap64 (pg_nanoseconds v).
Proof.
  unfold from_pg, pg_nanoseconds, Microsecond. cbn [iv_Duration].
  rewrite !wrap64_add_r, wrap64_add_l, wrap64_mul_l. f_equal. lia.
Qed.

(** Reading an interval column is exact precisely when the duration fits 64
    bits of nanoseconds (about 292 years); beyond that it wraps around. *)
Lemma Scan_exact v :
  exists i, Scan (SrcInterval v) = Ok i /\ iv_Valid i = pg_Valid v /\
    (iv_Duration i = pg_nanoseconds v <-> int64 (pg_nanoseconds v)).
Proof.
  exists (from_pg v). split; [done|]. split; [done|]. rewrite from_pg_wrap. split.
  - intros <-. apply wrap64_range.
  - apply wrap64_id.
Qed.

(** A sync schedule survives its column: writing an interval and reading
    it back gives the duration cut to whole microseconds (toward zero), for
    every 64-bit duration, and NULL stays NULL; whole microseconds come back
    unchanged. *)
Lemma Scan_Value_roundtrip i :
  int64 (iv_Duration i) ->
  Scan (Value i) = Ok (if iv_Valid i
                       then NewInterval (iv_Duration i - Z.rem (iv_Duration i) 1000)
                       else NewNullInterval) /\
  (iv_Valid i = true -> (1000 | iv_Duration i) -> Scan (Value i) = Ok i).
Proof.
  intros Hi. destruct i as [d v]. unfold Value. simpl in *. destruct v; [|done].
  assert (E : from_pg {| pg_Microseconds := Z.quot d 1000; pg_Days := 0; pg_Months := 0; pg_Valid := true |}
              = NewInterval (d - Z.rem d 1000)).
  { unfold NewInterval. rewrite <-(wrap64_id (d - Z.rem d 1000)).
    - pose proof (from_pg_wrap {| pg_Microseconds := Z.quot d 1000; pg_Days := 0; pg_Months := 0;
        pg_Valid := true |}) as Hw. destruct (from_pg _) as [d' v'] eqn:Ef. simpl in Hw. subst d'.
      unfold from_pg in Ef. injection Ef as _ <-. f_equal. f_equal. unfold pg_nanoseconds. simpl.
      pose proof (Z.quot_rem d 1000). lia.
    - unfold int64 in *. pose proof (Z.quot_rem d 1000 ltac:(lia)).
      pose proof (Z.rem_bound_abs d 1000 ltac:(lia)). pose proof (Z.rem_sign_mul d 1000 ltac:(lia)).
      destruct (Z.le_gt_cases 0 d).
      + pose proof (Z.rem_nonneg d 1000). lia.
      + pose proof (Z.rem_nonpos d 1000). lia. }
  cbn [Scan]. rewrite E. split; [done|]. intros _ Hdiv.
  rewrite (proj2 (Z.rem_divide d 1000 ltac:(lia)) Hdiv), Z.sub_0_r. done.
Qed.

End Scan.

Lemma Scan_Value_roundtrip_witness :
  Scan (fun _ => None) (Value (NewInterval (90 * Minute))) = Ok (NewInterval (90 * Minute)).
Proof.
  apply (Scan_Value_roundtrip (fun _ => None) (NewInterval (90 * Minute))).
  - unfold int64, NewInterval, Minute, Second. simpl. lia.
  - reflexivity.
  - exists 5400000000. reflexivity.
Defined.

End Interval.
