(* ===== verification/LimitedFs.v ===== *)
(** * The size-limited file system

    [internal/git/fs.go]: the wrapper around an in-memory file system that git
    repositories are cloned into, which counts files and bytes and refuses to
    exceed a limit of either.

    The wrapped file system is go-billy's: an interface ([Billy]) with what its
    documentation says about files and sizes ([BillyLaws]).  Counters and sizes
    are 64-bit integers. *)

From stdpp Require Import base list strings gmap.
From Stdlib Require Import String Ascii ZArith Lia.
From S2P Require Import Prelude Durations.

Local Open Scope string_scope.
Local Open Scope list_scope.
Local Open Scope Z_scope.

(** ** The wrapped file system *)

(** [billy.Filesystem] and [billy.File], each operation a function of the state of
    the file system; a write says how many bytes it wrote. *)
Class Billy := {
  bfs : Type;
  bfile : Type;
  b_Name : bfile -> string;
  b_Create : string -> bfs -> result bfile * bfs;
  b_OpenFile : string -> Z -> Z -> bfs -> result bfile * bfs;
  b_TempFile : string -> string -> bfs -> result bfile * bfs;
  b_MkdirAll : string -> Z -> bfs -> result () * bfs;
  b_Symlink : string -> string -> bfs -> result () * bfs;
  b_Remove : string -> bfs -> result () * bfs;
  b_Rename : string -> string -> bfs -> result () * bfs;
  b_Stat : string -> bfs -> result Z;
  b_Offset : bfile -> bfs -> result Z;
  b_Write : bfile -> string -> bfs -> result Z * bfs;
  b_Truncate : bfile -> Z -> bfs -> result () * bfs }.

(** ** The wrapper *)

Section LimitedFs.
Context `{B : Billy}.

Record LimitedFs := {
  lf_Fs : bfs;
  lf_MaxFiles : Z;
  lf_TotalFileSize : Z;
  lf_currentFiles : Z;
  lf_currentSize : Z }.

Record fileWrapper := { fw_f : bfile }.

Definition ErrNotImplemented : error := EMsg "not implemented".
Definition ErrTooBig : error := EMsg "file too big".
Definition ErrTooManyFiles : error := EMsg "too many files".

Definition with_fs (f : LimitedFs) (fs : bfs) : LimitedFs :=
  {| lf_Fs := fs; lf_MaxFiles := lf_MaxFiles f; lf_TotalFileSize := lf_TotalFileSize f;
     lf_currentFiles := lf_currentFiles f; lf_currentSize := lf_currentSize f |}.
Definition with_files (f : LimitedFs) (n : Z) : LimitedFs :=
  {| lf_Fs := lf_Fs f; lf_MaxFiles := lf_MaxFiles f; lf_TotalFileSize := lf_TotalFileSize f;
     lf_currentFiles := n; lf_currentSize := lf_currentSize f |}.
Definition with_size (f : LimitedFs) (n : Z) : LimitedFs :=
  {| lf_Fs := lf_Fs f; lf_MaxFiles := lf_MaxFiles f; lf_TotalFileSize := lf_TotalFileSize f;
     lf_currentFiles := lf_currentFiles f; lf_currentSize := n |}.

(** An operation on the wrapper. *)
Definition Op (A : Type) : Type := LimitedFs -> result A * LimitedFs.

(** The wrapped operation. *)
Definition inner {A} (op : bfs -> result A * bfs) : Op A := fun f =>
  let '(r, fs) := op (lf_Fs f) in (r, with_fs f fs).

(** [f.currentFiles++] and the check after it, before the wrapped operation. *)
Definition counted {A} (op : bfs -> result A * bfs) : Op A := fun f =>
  let f := with_files f (wrap64 (lf_currentFiles f + 1)) in
  if lf_MaxFiles f <=? lf_currentFiles f then (Err ErrTooManyFiles, f) else inner op f.

Definition wrapped (op : bfs -> result bfile * bfs) : bfs -> result fileWrapper * bfs := fun fs =>
  let '(r, fs') := op fs in (h <- r ;; Ok {| fw_f := h |}, fs').

Definition O_CREATE : Z := 64.

Definition fs_Chroot (path : string) : Op () := fun f => (Err ErrNotImplemented, f).
Definition fs_Create (filename : string) : Op fileWrapper := counted (wrapped (b_Create filename)).
Definition fs_MkdirAll (filename : string) (perm : Z) : Op () := counted (b_MkdirAll filename perm).
Definition fs_OpenFile (filename : string) (flag perm : Z) : Op fileWrapper :=
  if negb (Z.land flag O_CREATE =? 0) then counted (wrapped (b_OpenFile filename flag perm))
  else inner (wrapped (b_OpenFile filename flag perm)).
Definition fs_Remove (filename : string) : Op () := inner (b_Remove filename).
Definition fs_Rename (oldpath newpath : string) : Op () := inner (b_Rename oldpath newpath).
Definition fs_Stat (filename : string) (f : LimitedFs) : result Z := b_Stat filename (lf_Fs f).
Definition fs_Symlink (target link : string) : Op () := counted (b_Symlink target link).
Definition fs_TempFile (dir prefix : string) : Op fileWrapper := counted (wrapped (b_TempFile dir prefix)).

Definition fileSize (h : fileWrapper) (f : LimitedFs) : result Z := fs_Stat (b_Name (fw_f h)) f.

Definition file_Truncate (h : fileWrapper) (size : Z) : Op () := fun f =>
  match fileSize h f with
  | Err err => (Err err, f)
  | Ok existingSize =>
      let growth := wrap64 (size - existingSize) in
      if lf_TotalFileSize f <? wrap64 (growth + lf_currentSize f) then (Err ErrTooBig, f)
      else inner (b_Truncate (fw_f h) size) (with_size f (wrap64 (lf_currentSize f + growth)))
  end.

Definition file_Write (h : fileWrapper) (p : string) : Op Z := fun f =>
  match fileSize h f with
  | Err err => (Err err, f)
  | Ok size =>
      match b_Offset (fw_f h) (lf_Fs f) with
      | Err err => (Err err, f)
      | Ok offset =>
          let growth := wrap64 (wrap64 (offset + Z.of_nat (String.length p)) - size) in
          let growth := if growth <? 0 then 0 else growth in
          if lf_TotalFileSize f <? wrap64 (growth + lf_currentSize f) then (Err ErrTooBig, f)
          else inner (b_Write (fw_f h) p) (with_size f (wrap64 (lf_currentSize f + growth)))
      end
  end.

(** Any call the code using the file system can make. *)
Inductive Call :=
| CallChroot (path : string)
| CallCreate (filename : string)
| CallMkdirAll (filename : string) (perm : Z)
| CallOpenFile (filename : string) (flag perm : Z)
| CallRemove (filename : string)
| CallRename (oldpath newpath : string)
| CallSymlink (target link : string)
| CallTempFile (dir prefix : string)
| CallTruncate (h : fileWrapper) (size : Z)
| CallWrite (h : fileWrapper) (p : string).

Definition perform (c : Call) (f : LimitedFs) : LimitedFs :=
  match c with
  | CallChroot path => snd (fs_Chroot path f)
  | CallCreate n => snd (fs_Create n f)
  | CallMkdirAll n perm => snd (fs_MkdirAll n perm f)
  | CallOpenFile n flag perm => snd (fs_OpenFile n flag perm f)
  | CallRemove n => snd (fs_Remove n f)
  | CallRename a b => snd (fs_Rename a b f)
  | CallSymlink t l => snd (fs_Symlink t l f)
  | CallTempFile a b => snd (fs_TempFile a b f)
  | CallTruncate h size => snd (file_Truncate h size f)
  | CallWrite h p => snd (file_Write h p f)
  end.
End LimitedFs.

(** ** The limits hold *)

(** What go-billy documents: [total] is the size of all regular files together,
    [count] the number of files and links, and [current h] says that the name of
    [h] still is the file [h] was opened on. *)
Class BillyLaws (B : Billy) := {
  total : bfs -> Z;
  count : bfs -> Z;
  current : bfile -> bfs -> Prop;
  total_nonneg : forall fs, 0 <= total fs;
  stat_size : forall h fs s, current h fs -> b_Stat (b_Name h) fs = Ok s -> 0 <= s <= total fs;
  offset_nonneg : forall h fs off, b_Offset h fs = Ok off -> 0 <= off;
  create_law : forall n fs, total (snd (b_Create n fs)) <= total fs /\ count (snd (b_Create n fs)) <= count fs + 1;
  open_law : forall n flag perm fs, total (snd (b_OpenFile n flag perm fs)) <= total fs /\
    count (snd (b_OpenFile n flag perm fs)) <= count fs + (if Z.land flag O_CREATE =? 0 then 0 else 1);
  temp_law : forall a b fs, total (snd (b_TempFile a b fs)) <= total fs /\ count (snd (b_TempFile a b fs)) <= count fs + 1;
  mkdir_law : forall n perm fs, total (snd (b_MkdirAll n perm fs)) <= total fs /\ count (snd (b_MkdirAll n perm fs)) <= count fs;
  symlink_law : forall t l fs, total (snd (b_Symlink t l fs)) <= total fs /\ count (snd (b_Symlink t l fs)) <= count fs + 1;
  remove_law : forall n fs, total (snd (b_Remove n fs)) <= total fs /\ count (snd (b_Remove n fs)) <= count fs;
  rename_law : forall a b fs, total (snd (b_Rename a b fs)) <= total fs /\ count (snd (b_Rename a b fs)) <= count fs;
  write_law : forall h p fs s off, current h fs -> b_Stat (b_Name h) fs = Ok s -> b_Offset h fs = Ok off ->
    total (snd (b_Write h p fs)) <= total fs + Z.max 0 (off + Z.of_nat (String.length p) - s) /\ count (snd (b_Write h p fs)) <= count fs;
  truncate_law : forall h size fs s, current h fs -> 0 <= size -> b_Stat (b_Name h) fs = Ok s ->
    total (snd (b_Truncate h size fs)) <= total fs + (size - s) /\ count (snd (b_Truncate h size fs)) <= count fs }.

Section Limits.
Context `{B : Billy} `{BL : !BillyLaws B}.

(** The calls the wrapper measures rightly.  It takes the size of a file by its
    name, so a write or a truncation has to be through a handle whose name still is
    the file it was opened on, and its sums are 64-bit, so offsets and sizes have
    to be below 2^61; both are asked of the client, here go-git, and neither is
    checked by the code ([truncate_overflow] below). *)
Definition sensible (c : Call) (f : LimitedFs) : Prop :=
  match c with
  | CallWrite h p => current (fw_f h) (lf_Fs f) /\ Z.of_nat (String.length p) <= 2 ^ 61 /\
      forall off, b_Offset (fw_f h) (lf_Fs f) = Ok off -> off <= 2 ^ 61
  | CallTruncate h size => current (fw_f h) (lf_Fs f) /\ 0 <= size <= 2 ^ 61
  | _ => True
  end.
Fixpoint sensible_run (cs : list Call) (f : LimitedFs) : Prop :=
  match cs with [] => True | c :: cs' => sensible c f /\ sensible_run cs' (perform c f) end.
Definition perform_all (cs : list Call) (f : LimitedFs) : LimitedFs := foldl (fun f c => perform c f) f cs.

(** The counters are above what they count, and below the limits. *)
Record within (f : LimitedFs) : Prop := {
  wi_total : total (lf_Fs f) <= lf_currentSize f;
  wi_size : lf_currentSize f <= lf_TotalFileSize f;
  wi_limit : lf_TotalFileSize f <= 2 ^ 61;
  wi_count : count (lf_Fs f) <= lf_currentFiles f;
  wi_files : count (lf_Fs f) < lf_MaxFiles f }.

Definition same_limits (f f' : LimitedFs) : Prop :=
  lf_MaxFiles f' = lf_MaxFiles f /\ lf_TotalFileSize f' = lf_TotalFileSize f.

(** One call. *)
Record kept (f f' : LimitedFs) : Prop := {
  kp_within : within f';
  kp_limits : same_limits f f';
  kp_files : lf_currentFiles f <= lf_currentFiles f' <= lf_currentFiles f + 1 }.

Lemma inner_kept {A} (op : bfs -> result A * bfs) f : within f ->
  total (snd (op (lf_Fs f))) <= total (lf_Fs f) /\ count (snd (op (lf_Fs f))) <= count (lf_Fs f) -> kept f (snd (inner op f)).
Proof. intros [W1 W2 W3 W4 W5] [H1 H2]. unfold inner. destruct (op (lf_Fs f)) as [r fs]. cbn in *. split; [split; cbn; lia|done|cbn; lia]. Qed.

Lemma counted_kept {A} (op : bfs -> result A * bfs) f : within f -> 0 <= lf_currentFiles f < 2 ^ 63 - 1 ->
  total (snd (op (lf_Fs f))) <= total (lf_Fs f) /\ count (snd (op (lf_Fs f))) <= count (lf_Fs f) + 1 -> kept f (snd (counted op f)).
Proof.
  intros [W1 W2 W3 W4 W5] Hn [H1 H2]. unfold counted. cbn. rewrite wrap64_id by (unfold int64; lia).
  destruct (Z.leb_spec (lf_MaxFiles f) (lf_currentFiles f + 1)).
  - cbn. split; [split; cbn; lia|done|cbn; lia].
  - unfold inner. cbn. destruct (op (lf_Fs f)) as [r fs]. cbn in *. split; [split; cbn; lia|done|cbn; lia].
Qed.

Lemma wrapped_snd op fs : snd (wrapped op fs) = snd (op fs).
Proof. unfold wrapped. by destruct (op fs). Qed.

Lemma grown_kept {A} (op : bfs -> result A * bfs) f growth : within f -> lf_currentSize f + growth <= lf_TotalFileSize f ->
  total (snd (op (lf_Fs f))) <= total (lf_Fs f) + growth -> count (snd (op (lf_Fs f))) <= count (lf_Fs f) ->
  kept f (snd (inner op (with_size f (lf_currentSize f + growth)))).
Proof. intros [W1 W2 W3 W4 W5] Hg H1 H2. unfold inner. cbn. destruct (op (lf_Fs f)) as [r fs]. cbn in *. split; [split; cbn; lia|done|cbn; lia]. Qed.

Lemma refused_kept f : within f -> kept f f.
Proof. intros W. split; [done|done|lia]. Qed.

Lemma truncate_kept h size f : within f -> sensible (CallTruncate h size) f -> kept f (snd (file_Truncate h size f)).
Proof.
  intros W [Hc Hs]. unfold file_Truncate, fileSize, fs_Stat. destruct (b_Stat _ _) as [s|] eqn:Es; [|by apply refused_kept].
  pose proof (stat_size _ _ _ Hc Es). pose proof W as [W1 W2 W3 W4 W5]. pose proof (total_nonneg (lf_Fs f)).
  rewrite (wrap64_id (size - s)) by (unfold int64; lia). rewrite !wrap64_id by (unfold int64; lia).
  destruct (Z.ltb_spec (lf_TotalFileSize f) (size - s + lf_currentSize f)); [by apply refused_kept|].
  destruct (truncate_law (fw_f h) size (lf_Fs f) s Hc (proj1 Hs) Es). apply grown_kept; try done. lia.
Qed.

Lemma write_kept h p f : within f -> sensible (CallWrite h p) f -> kept f (snd (file_Write h p f)).
Proof.
  intros W (Hc & Hp & Ho). unfold file_Write, fileSize, fs_Stat. destruct (b_Stat _ _) as [s|] eqn:Es; [|by apply refused_kept].
  destruct (b_Offset _ _) as [off|] eqn:Eo; [|by apply refused_kept]. specialize (Ho off eq_refl). pose proof (offset_nonneg _ _ _ Eo).
  pose proof (stat_size _ _ _ Hc Es). pose proof W as [W1 W2 W3 W4 W5]. pose proof (total_nonneg (lf_Fs f)).
  destruct (write_law (fw_f h) p (lf_Fs f) s off Hc Es Eo) as [L1 L2]. set (n := Z.of_nat (String.length p)) in *.
  assert (0 <= n) by lia. rewrite (wrap64_id (off + n)) by (unfold int64; lia). rewrite (wrap64_id (off + n - s)) by (unfold int64; lia).
  assert (Hg : (if off + n - s <? 0 then 0 else off + n - s) = Z.max 0 (off + n - s)) by (destruct (Z.ltb_spec (off + n - s) 0); lia).
  cbv zeta. rewrite Hg. rewrite !wrap64_id by (unfold int64; lia).
  destruct (Z.ltb_spec (lf_TotalFileSize f) (Z.max 0 (off + n - s) + lf_currentSize f)); [by apply refused_kept|].
  apply grown_kept; try done. lia.
Qed.

Lemma perform_kept c f : within f -> 0 <= lf_currentFiles f < 2 ^ 63 - 1 -> sensible c f -> kept f (perform c f).
Proof.
  intros W Hn Hs. destruct c; cbn [perform]; [by apply refused_kept|..].
  - unfold fs_Create. apply counted_kept; rewrite ?wrapped_snd; auto using create_law.
  - unfold fs_MkdirAll. apply counted_kept; auto. pose proof (mkdir_law filename perm (lf_Fs f)). lia.
  - unfold fs_OpenFile. pose proof (open_law filename flag perm (lf_Fs f)) as Ho. destruct (Z.land flag O_CREATE =? 0); cbn.
    + apply inner_kept; rewrite ?wrapped_snd; auto. lia.
    + apply counted_kept; rewrite ?wrapped_snd; auto.
  - apply inner_kept; auto using remove_law.
  - apply inner_kept; auto using rename_law.
  - unfold fs_Symlink. apply counted_kept; auto using symlink_law.
  - unfold fs_TempFile. apply counted_kept; rewrite ?wrapped_snd; auto using temp_law.
  - by apply truncate_kept.
  - by apply write_kept.
Qed.

(** The two file systems [Clone] makes, each with limits of its own: one for the
    files checked out, one for the objects of the repository. *)
Definition limited (fs : bfs) : LimitedFs :=
  {| lf_Fs := fs; lf_MaxFiles := 10 * 1000; lf_TotalFileSize := 100 * 1024 * 1024; lf_currentFiles := 0; lf_currentSize := 0 |}.
Record CloneFs := { cl_memFS : LimitedFs; cl_storerFs : LimitedFs }.
Definition clone_fs (memFS storerFs : bfs) : CloneFs := {| cl_memFS := limited memFS; cl_storerFs := limited storerFs |}.

(** Calls on the one and on the other, in any order. *)
Inductive CloneCall := OnWorktree (c : Call) | OnStorer (c : Call).
Definition clone_perform (x : CloneFs) (c : CloneCall) : CloneFs :=
  match c with
  | OnWorktree c => {| cl_memFS := perform c (cl_memFS x); cl_storerFs := cl_storerFs x |}
  | OnStorer c => {| cl_memFS := cl_memFS x; cl_storerFs := perform c (cl_storerFs x) |}
  end.
Definition clone_run (cs : list CloneCall) (x : CloneFs) : CloneFs := foldl clone_perform x cs.
Fixpoint clone_sensible (cs : list CloneCall) (x : CloneFs) : Prop :=
  match cs with
  | [] => True
  | c :: cs' =>
      match c with OnWorktree c => sensible c (cl_memFS x) | OnStorer c => sensible c (cl_storerFs x) end /\
      clone_sensible cs' (clone_perform x c)
  end.
Definition on_worktree (c : CloneCall) : option Call := match c with OnWorktree c => Some c | OnStorer _ => None end.
Definition on_storer (c : CloneCall) : option Call := match c with OnWorktree _ => None | OnStorer c => Some c end.

(** Either one only sees the calls on it. *)
Lemma clone_run_split cs x : cl_memFS (clone_run cs x) = perform_all (omap on_worktree cs) (cl_memFS x) /\
  cl_storerFs (clone_run cs x) = perform_all (omap on_storer cs) (cl_storerFs x).
Proof. revert x. induction cs as [|c cs IH]; intros x; [done|]. destruct (IH (clone_perform x c)) as [E1 E2]. by destruct c. Qed.
Lemma clone_sensible_split cs x : clone_sensible cs x ->
  sensible_run (omap on_worktree cs) (cl_memFS x) /\ sensible_run (omap on_storer cs) (cl_storerFs x).
Proof. revert x. induction cs as [|c cs IH]; intros x; [done|]. intros [Hc [H1 H2]%IH]. by destruct c. Qed.
Lemma omap_length {A C} (f : A -> option C) l : (List.length (omap f l) <= List.length l)%nat.
Proof. induction l as [|x l IH]; cbn; [done|]. destruct (f x); cbn; lia. Qed.

Lemma perform_all_within cs f : within f -> 0 <= lf_currentFiles f -> lf_currentFiles f + Z.of_nat (List.length cs) < 2 ^ 63 - 1 ->
  sensible_run cs f -> within (perform_all cs f) /\ same_limits f (perform_all cs f).
Proof.
  revert f. induction cs as [|c cs IH]; intros f W H0 Hn Hs; [done|]. cbn [List.length] in Hn. destruct Hs as [Hc Hs].
  destruct (perform_kept c f W) as [K1 [K2 K3] K4]; [lia|done|]. destruct (IH (perform c f) K1) as [I1 [I2 I3]]; [lia|lia|done|].
  split; [exact I1|]. split; [exact (eq_trans I2 K2)|exact (eq_trans I3 K3)].
Qed.

Lemma limited_bounded fs cs :
  total fs = 0 -> count fs = 0 -> Z.of_nat (List.length cs) < 2 ^ 62 -> sensible_run cs (limited fs) ->
  total (lf_Fs (perform_all cs (limited fs))) <= 104857600 /\ count (lf_Fs (perform_all cs (limited fs))) < 10000.
Proof.
  intros Ht Hc Hn Hs. destruct (perform_all_within cs (limited fs)) as [[W1 W2 _ _ W5] [E1 E2]]; cbn in *; try done; try lia.
  split; cbn; lia.
Qed.

End Limits.

(** ** A file system of sizes *)
Module LimitedFsExample.

Abbreviation sizes := (gmap string N).
Record handle := { hd_name : string; hd_offset : N }.

Definition create (n : string) (fs : sizes) : result handle * sizes := (Ok {| hd_name := n; hd_offset := 0 |}, <[n := 0%N]> fs).
Definition on_file {A} (h : handle) (k : N -> A * N) (fs : sizes) : result A * sizes :=
  match fs !! hd_name h with
  | None => (Err (EMsg "file does not exist"), fs)
  | Some s => let '(a, s') := k s in (Ok a, <[hd_name h := s']> fs)
  end.

Definition memory : Billy :=
  {| bfs := sizes; bfile := handle; b_Name := hd_name;
     b_Create := create;
     b_OpenFile := fun n flag _ fs =>
       match fs !! n with
       | Some s => (Ok {| hd_name := n; hd_offset := 0 |}, fs)
       | None => if Z.land flag O_CREATE =? 0 then (Err (EMsg "file does not exist"), fs) else create n fs
       end;
     b_TempFile := fun a b fs => create (a +:+ "/" +:+ b) fs;
     b_MkdirAll := fun _ _ fs => (Ok (), fs);
     b_Symlink := fun _ l fs => (Ok (), match fs !! l with Some _ => fs | None => <[l := 0%N]> fs end);
     b_Remove := fun n fs => (Ok (), delete n fs);
     b_Rename := fun a b fs => (Err (EMsg "not supported"), fs);
     b_Stat := fun n fs => match fs !! n with Some s => Ok (Z.of_N s) | None => Err (EMsg "file does not exist") end;
     b_Offset := fun h fs => Ok (Z.of_N (hd_offset h));
     b_Write := fun h p => on_file h (fun s => (Z.of_nat (String.length p), N.max s (hd_offset h + N.of_nat (String.length p))));
     b_Truncate := fun h size => on_file h (fun s => ((), Z.to_N size)) |}.
#[local] Existing Instance memory.

Definition sum (fs : sizes) : Z := map_fold (fun _ s a => Z.of_N s + a) 0 fs.
Lemma sum_insert_new fs n s : fs !! n = None -> sum (<[n := s]> fs) = Z.of_N s + sum fs.
Proof. intros H. unfold sum. rewrite map_fold_insert_L; [done|intros; lia|done]. Qed.
Lemma sum_delete fs n s : fs !! n = Some s -> sum fs = Z.of_N s + sum (delete n fs).
Proof. intros H. unfold sum. rewrite (map_fold_delete_L _ _ n s fs); [done|intros; lia|done]. Qed.
Lemma sum_nonneg fs : 0 <= sum fs.
Proof. unfold sum. apply (map_fold_weak_ind (fun r _ => 0 <= r)); [lia|]. intros. lia. Qed.
Lemma sum_insert fs n s s' : fs !! n = Some s -> sum (<[n := s']> fs) = sum fs + (Z.of_N s' - Z.of_N s).
Proof. intros H. rewrite <-insert_delete_eq, sum_insert_new by (by rewrite lookup_delete_eq). rewrite (sum_delete fs n s H). lia. Qed.
Lemma sum_lookup fs n s : fs !! n = Some s -> Z.of_N s <= sum fs.
Proof. intros H. rewrite (sum_delete fs n s H). pose proof (sum_nonneg (delete n fs)). lia. Qed.
Definition number (fs : sizes) : Z := Z.of_nat (size fs).
Lemma number_insert fs n s : number (<[n := s]> fs) <= number fs + 1 /\ (is_Some (fs !! n) -> number (<[n := s]> fs) = number fs).
Proof. unfold number. rewrite map_size_insert. destruct (fs !! n); cbn; (split; [lia|]); [done|]. by intros []. Qed.

Lemma create_ok n fs : sum (snd (create n fs)) <= sum fs /\ number (snd (create n fs)) <= number fs + 1.
Proof.
  cbn. split; [|apply number_insert]. destruct (fs !! n) as [s|] eqn:E; [rewrite (sum_insert _ _ s) by done; lia|].
  rewrite sum_insert_new by done. lia.
Qed.

#[local] Instance memory_laws : BillyLaws memory.
Proof.
  refine {| total := sum : @bfs memory -> Z; count := number : @bfs memory -> Z;
            current := fun (h : @bfile memory) (fs : @bfs memory) => is_Some ((fs : sizes) !! hd_name h) |}; cbn.
  - apply sum_nonneg.
  - intros h fs s [x Hx]. rewrite Hx. intros [= <-]. split; [lia|]. by apply sum_lookup with (hd_name h).
  - intros h fs off [= <-]. lia.
  - apply create_ok.
  - intros n flag perm fs. destruct (fs !! n) as [s|] eqn:E; cbn; [case_match; lia|]. destruct (Z.land flag O_CREATE =? 0); cbn; [lia|].
    apply (create_ok n fs).
  - intros a b fs. apply (create_ok (a +:+ "/" +:+ b) fs).
  - intros. lia.
  - intros t l fs. destruct (fs !! l) eqn:E; [lia|]. rewrite sum_insert_new by done. pose proof (proj1 (number_insert fs l 0)). lia.
  - intros n fs. unfold number. rewrite map_size_delete. destruct (fs !! n) as [s|] eqn:E; cbn.
    + rewrite (sum_delete fs n s E). lia.
    + rewrite delete_id by done. lia.
  - intros. lia.
  - intros h p fs s off [x Hx]. unfold on_file. rewrite Hx. intros [= <-] [= <-]. cbn. rewrite (sum_insert _ _ x) by done.
    destruct (number_insert fs (hd_name h) (N.max x (hd_offset h + N.of_nat (String.length p)))) as [_ Hn]. rewrite Hn by done. split; lia.
  - intros h size fs s [x Hx] Hs. unfold on_file. rewrite Hx. intros [= <-]. cbn. rewrite (sum_insert _ _ x) by done.
    destruct (number_insert fs (hd_name h) (Z.to_N size)) as [_ Hn]. rewrite Hn by done. split; lia.
Defined.

Definition a_file : fileWrapper := {| fw_f := {| hd_name := "a"; hd_offset := 0 |} |}.
Definition calls : list Call := [CallCreate "a"; CallWrite a_file "four"; CallTruncate a_file 2; CallRemove "b"].

Definition clone_calls : list CloneCall := (OnWorktree <$> calls) ++ [OnStorer (CallCreate "a"); OnStorer (CallWrite a_file "object")].


(** A size near the largest integer overflows the sum the limit is compared with. *)
Definition full : LimitedFs := {| lf_Fs := {[ "a" := 1%N; "b" := 5%N ]} : sizes; lf_MaxFiles := 10000; lf_TotalFileSize := 104857600; lf_currentFiles := 2; lf_currentSize := 6 |}.
Lemma truncate_overflow : fst (file_Truncate a_file (2 ^ 63 - 1) full) = Ok () /\
  lf_currentSize (snd (file_Truncate a_file (2 ^ 63 - 1) full)) < 0 /\
  104857600 < sum (lf_Fs (snd (file_Truncate a_file (2 ^ 63 - 1) full))).
Proof. split_and!; vm_compute; reflexivity. Qed.
End LimitedFsExample.
