(* ===== verification/Config.v ===== *)
(** * Configuration loading and validation

    The functions of [internal/config/config.go]: reading secrets, validation
    of every section, the getters, the mapping onto the shared PostgreSQL
    configuration and [LoadConfig].  The operating system's files
    ([FileSystem]), the parser behind [net/url] ([UrlParser]) and viper, which
    decodes the file and the environment, are parameters.

    The result is [validate_iff]: validation accepts exactly the
    configurations that meet [valid_config]. *)

From stdpp Require Import base list strings gmap sets.
From Stdlib Require Import ZArith Lia Ascii String.
From S2P Require Import Prelude GoStrings Validators Claims ConfigTypes GoPath Durations.

Local Open Scope string_scope.
Local Open Scope list_scope.

(** ** What the code takes from its environment *)

(** [filepath.EvalSymlinks], [os.Stat] (with [IsDir]) and [os.ReadFile]. *)
Class FileSystem := {
  EvalSymlinks : string -> result string;
  Stat : string -> result bool;
  ReadFile : string -> result string }.

(** [url.URL], the components the code looks at. *)
Record URL := { url_Scheme : string; url_Host : string }.
Class UrlParser := { url_Parse : string -> result URL }.

Definition IsAbs (u : URL) : bool := negb (String.eqb (url_Scheme u) "").

(** A port: empty, or a colon and digits. *)
Definition validOptionalPort (port : bytes) : bool :=
  match port with
  | [] => true
  | c :: ds => Ascii.eqb c ":" && forallb Duration.is_digit ds
  end.

(** The text before and from the last colon. *)
Fixpoint last_colon (l : bytes) : option (bytes * bytes) :=
  match l with
  | [] => None
  | c :: l' =>
      match last_colon l' with
      | Some (a, b) => Some (c :: a, b)
      | None => if Ascii.eqb c ":" then Some ([], l) else None
      end
  end.

(** [URL.Hostname]: the host without port and without brackets. *)
Definition Hostname (u : URL) : string :=
  let host := to_bytes (url_Host u) in
  let host := match last_colon host with
              | Some (h, port) => if validOptionalPort port then h else host
              | None => host
              end in
  of_bytes (match host with
            | c :: rest =>
                if Ascii.eqb c "[" then
                  match last rest with
                  | Some d => if Ascii.eqb d "]" then removelast rest else host
                  | None => host
                  end
                else host
            | [] => host
            end).

(** [filepath.IsAbs], [filepath.Dir] and [filepath.IsLocal] on Unix. *)
Definition filepath_IsAbs (p : string) : bool := HasPrefix p "/".

Fixpoint upto_last_slash (l : bytes) : bytes :=
  match l with
  | [] => []
  | c :: l' =>
      match upto_last_slash l' with
      | [] => if Ascii.eqb c slash then [c] else []
      | r => c :: r
      end
  end.
Definition filepath_Dir (p : string) : string := of_bytes (clean_bytes (upto_last_slash (to_bytes p))).

Definition filepath_IsLocal (p : string) : bool :=
  if filepath_IsAbs p || String.eqb p "" then false
  else
    let hasDots := existsb (fun part => bool_decide (part = to_bytes ".") || bool_decide (part = to_bytes ".."))
                     (split_bytes slash (to_bytes p)) in
    let p := if hasDots then Clean p else p in
    negb (String.eqb p ".." || HasPrefix p "../").

Example dir_file : filepath_Dir "/var/log//audit.log" = "/var/log".
Proof. reflexivity. Qed.
Example dir_relative : filepath_Dir "audit.log" = ".".
Proof. reflexivity. Qed.
Example hostname_port : Hostname {| url_Scheme := "http"; url_Host := "[::1]:8080" |} = "::1".
Proof. reflexivity. Qed.

(** ** Constants and getters *)

Definition DefaultAuditMaxDataSize : Z := 1024.
Definition MaxAuditDataSize : Z := Z.shiftl 1 20.
Definition DefaultMaxMetaSize : Z := 262144.
Definition maxAPITimeout : Z := (5 * Minute)%Z.
Definition hostLocalhost : string := "localhost".

Definition GetMaxDataSize (a : option AuditConfig) : Z :=
  match a with
  | None => DefaultAuditMaxDataSize
  | Some a => if (aud_MaxDataSize a <=? 0)%Z then DefaultAuditMaxDataSize else aud_MaxDataSize a
  end.

Definition GetPassword (d : DatabaseConfig) : string := dbc_Password d.

Definition GetMigrationUser (d : DatabaseConfig) : string :=
  if negb (String.eqb (dbc_MigrationUser d) "") then dbc_MigrationUser d else dbc_User d.

Definition GetMigrationPassword (d : DatabaseConfig) : string :=
  if negb (String.eqb (dbc_MigrationPassword d) "") then dbc_MigrationPassword d
  else if String.eqb (GetMigrationUser d) (dbc_User d) then dbc_Password d
  else "".

Definition GetMaxMetaSize (d : option DatabaseConfig) : Z :=
  match d with
  | None => DefaultMaxMetaSize
  | Some d => default DefaultMaxMetaSize (dbc_MaxMetaSize d)
  end.

Definition isLoopbackHost (host : string) : bool :=
  String.eqb host hostLocalhost || String.eqb host "127.0.0.1" || String.eqb host "::1".

Definition IsAuditEnabled (c : option Config) : bool :=
  match c with
  | Some c => match cfg_Audit c with Some a => aud_Enabled a | None => false end
  | None => false
  end.

Definition IsCompressionEnabled (c : option Config) : bool :=
  match c with Some c => cfg_compressResponse c | None => false end.

(** [fmt.Errorf("...: %w", err)]: the configuration has no sentinels. *)
Definition errorf {A} (msg : string) : result A := Err (EMsg msg).
Definition with_context {A} (msg : string) (r : result A) : result A :=
  match r with
  | Ok a => Ok a
  | Err (EWrap s _) => Err (EWrap s msg)
  | Err (EMsg _) => Err (EMsg msg)
  end.

Lemma with_context_ok {A} msg (r : result A) a : with_context msg r = Ok a <-> r = Ok a.
Proof. destruct r as [|[]]; naive_solver. Qed.

(** ** Validation *)

Section Validation.
Context `{FS : FileSystem} `{U : UrlParser}.

Definition readSecretFromFile (filePath : string) : result string :=
  if String.eqb filePath "" then Ok ""
  else
    realPath <- with_context "failed to resolve path" (EvalSymlinks filePath) ;;
    if negb (filepath_IsAbs realPath) then errorf "path must be absolute: %s"
    else
      data <- with_context "failed to read file" (ReadFile realPath) ;;
      Ok (TrimSpace data).

Definition GitAuth_GetPassword (a : option GitAuthConfig) : result string :=
  match a with
  | None => Ok ""
  | Some a => with_context "failed to read git password" (readSecretFromFile (ga_PasswordFile a))
  end.

Definition GetClientSecret (p : OAuthProviderConfig) : result string :=
  with_context "failed to read client secret" (readSecretFromFile (op_ClientSecretFile p)).

Definition GitAuth_Validate (a : option GitAuthConfig) : result () :=
  match a with
  | None => Ok ()
  | Some a =>
      let hasUsername := negb (String.eqb (ga_Username a) "") in
      let hasPasswordFile := negb (String.eqb (ga_PasswordFile a) "") in
      if negb (Bool.eqb hasUsername hasPasswordFile)
      then errorf "git.auth.username and git.auth.passwordFile must both be specified"
      else if hasPasswordFile then
        if negb (filepath_IsAbs (ga_PasswordFile a))
        then errorf "git.auth.passwordFile must be an absolute path"
        else with_context "git.auth.passwordFile is not accessible" (Stat (ga_PasswordFile a)) ;;; Ok ()
      else Ok ()
  end.

Definition validateSyncPolicy (policy : option SyncPolicyConfig) : result () :=
  match policy with
  | None => errorf "%s: syncPolicy.interval is required"
  | Some policy =>
      if String.eqb (sp_Interval policy) "" then errorf "%s: syncPolicy.interval is required"
      else with_context "%s: syncPolicy.interval must be a valid duration (e.g., '30m', '1h')"
             (Duration.ParseDuration (sp_Interval policy)) ;;; Ok ()
  end.

Definition count_some {A} (o : option A) : nat := match o with Some _ => 1 | None => 0 end.

Definition validateSourceTypeCount (src : SourceConfig) : result () :=
  let configCount := (count_some (src_Git src) + count_some (src_API src) + count_some (src_File src) +
                      count_some (src_Managed src) + count_some (src_Kubernetes src))%nat in
  if (configCount =? 0)%nat
  then errorf "%s: one of git, api, file, managed, or kubernetes configuration must be specified"
  else if (1 <? configCount)%nat
  then errorf "%s: only one of git, api, file, managed, or kubernetes configuration may be specified"
  else Ok ().

Definition validateClaims (c : option claims) : result () :=
  with_context "%s" (ValidateClaimValues (default ∅ c)).

Definition validateGitConfig (git : GitConfig) : result () :=
  if String.eqb (git_Repository git) "" then errorf "%s: git.repository is required"
  else match git_Auth git with
       | None => Ok ()
       | Some _ => with_context "%s" (GitAuth_Validate (git_Auth git))
       end.

Definition ValidateAPITimeout (timeout : string) : result () :=
  if String.eqb timeout "" then Ok ()
  else
    d <- with_context "api.timeout must be a valid duration (e.g., '30s', '1m')"
           (Duration.ParseDuration timeout) ;;
    if (d <=? 0)%Z then errorf "api.timeout must be greater than zero"
    else if (maxAPITimeout <? d)%Z then errorf "api.timeout must not exceed %s"
    else Ok ().

Definition validateAPIConfig (api : APIConfig) : result () :=
  if String.eqb (api_Endpoint api) "" then errorf "%s: api.endpoint is required"
  else with_context "%s" (ValidateAPITimeout (api_Timeout api)).

Definition validateFileURL (rawURL : string) : result () :=
  parsedURL <- with_context "%s: file.url is invalid" (url_Parse rawURL) ;;
  if negb (IsAbs parsedURL) || String.eqb (url_Host parsedURL) ""
  then errorf "%s: file.url must be an absolute URL with host"
  else if negb (String.eqb (url_Scheme parsedURL) "http") && negb (String.eqb (url_Scheme parsedURL) "https")
  then errorf "%s: file.url must use http or https scheme"
  else Ok ().

Definition validateFileConfig (file : FileConfig) : result () :=
  let hasPath := negb (String.eqb (file_Path file) "") in
  let hasURL := negb (String.eqb (file_URL file) "") in
  if negb hasPath && negb hasURL then errorf "%s: file.path or file.url is required"
  else if hasPath && hasURL then errorf "%s: file.path and file.url are mutually exclusive"
  else if hasURL then
    validateFileURL (file_URL file) ;;;
    if negb (String.eqb (file_Timeout file) "") then
      with_context "%s: file.timeout must be a valid duration (e.g., '30s', '1m')"
        (Duration.ParseDuration (file_Timeout file)) ;;; Ok ()
    else Ok ()
  else Ok ().

Definition validateSourceSpecificConfig (src : SourceConfig) : result () :=
  match src_Git src with
  | Some git => validateGitConfig git
  | None =>
      match src_API src with
      | Some api => validateAPIConfig api
      | None =>
          match src_File src with
          | Some file => validateFileConfig file
          | None => Ok ()
          end
      end
  end.

Definition validateSourceConfig (src : SourceConfig) : result () :=
  validateSourceTypeCount src ;;;
  if IsNonSyncedSource src then Ok ()
  else validateSyncPolicy (src_SyncPolicy src) ;;; validateSourceSpecificConfig src.

(** The loop over the sources: the names seen and the managed sources counted. *)
Fixpoint validateSources (sourceNames : gset string) (managedCount : nat) (l : list SourceConfig)
    : result (gset string * nat) :=
  match l with
  | [] => Ok (sourceNames, managedCount)
  | src :: l' =>
      if String.eqb (src_Name src) "" then errorf "source[%d]: name is required"
      else
        with_context "source[%d]" (SourceName.ValidateSourceName (src_Name src)) ;;;
        if bool_decide (src_Name src ∈ sourceNames) then errorf "source[%d]: duplicate source name '%s'"
        else
          let managedCount := match src_Managed src with Some _ => S managedCount | None => managedCount end in
          validateSourceConfig src ;;;
          validateClaims (src_Claims src) ;;;
          validateSources ({[ src_Name src ]} ∪ sourceNames) managedCount l'
  end.

Fixpoint validateRegistries (sourceNames registryNames : gset string) (l : list RegistryConfig) : result () :=
  match l with
  | [] => Ok ()
  | reg :: l' =>
      if String.eqb (reg_Name reg) "" then errorf "registries[%d]: name is required"
      else if bool_decide (reg_Name reg ∈ registryNames)
      then errorf "registries[%d]: duplicate registry name '%s'"
      else if (List.length (reg_Sources reg) =? 0)%nat
      then errorf "registries[%d] (%s): at least one source is required"
      else
        for_each (fun srcName =>
          guard_err (negb (bool_decide (srcName ∈ sourceNames)))
            (EMsg "registries[%d] (%s): references unknown source '%s'")) (reg_Sources reg) ;;;
        validateClaims (reg_Claims reg) ;;;
        validateRegistries sourceNames ({[ reg_Name reg ]} ∪ registryNames) l'
  end.

Definition validateStorageConfig (c : Config) : result () :=
  match cfg_Database c with
  | None => errorf "database configuration is required"
  | Some d =>
      if String.eqb (dbc_Host d) "" then errorf "database.host is required"
      else if (dbc_Port d =? 0)%Z then errorf "database.port is required"
      else if String.eqb (dbc_User d) "" then errorf "database.user is required"
      else if String.eqb (dbc_Database d) "" then errorf "database.database is required"
      else if match dbc_MaxMetaSize d with Some m => (m <=? 0)%Z | None => false end
      then errorf "database.maxMetaSize must be greater than zero"
      else match dbc_DynamicAuth d with
           | None => Ok ()
           | Some _ =>
               if negb (String.eqb (dbc_Password d) "")
               then errorf "database.password and database.dynamicAuth are mutually exclusive; use one authentication method"
               else if negb (String.eqb (dbc_MigrationPassword d) "")
               then errorf "database.migrationPassword and database.dynamicAuth are mutually exclusive; use one authentication method"
               else Ok ()
           end
  end.

Definition validateAudit (c : Config) : result () :=
  match cfg_Audit c with
  | None => Ok ()
  | Some a =>
      if (aud_MaxDataSize a <? 0)%Z then errorf "audit.maxDataSize must be non-negative, got %d"
      else if (MaxAuditDataSize <? aud_MaxDataSize a)%Z
      then errorf "audit.maxDataSize must not exceed %d bytes, got %d"
      else if negb (String.eqb (aud_LogFile a) "") then
        realDir <- with_context "audit.logFile directory does not exist"
                     (EvalSymlinks (filepath_Dir (aud_LogFile a))) ;;
        isDir <- with_context "audit.logFile directory is not accessible" (Stat realDir) ;;
        if negb isDir then errorf "audit.logFile parent path is not a directory: %s" else Ok ()
      else Ok ()
  end.

Definition validateProvider (p : OAuthProviderConfig) (insecureAllowHTTP : bool) : result () :=
  if String.eqb (op_Name p) "" then errorf "auth.oauth.providers[%d].name is required"
  else if String.eqb (op_IssuerURL p) "" then errorf "auth.oauth.providers[%d].issuerUrl is required"
  else
    issuerURL <- with_context "auth.oauth.providers[%d].issuerUrl is invalid" (url_Parse (op_IssuerURL p)) ;;
    if negb (IsAbs issuerURL) || String.eqb (url_Host issuerURL) ""
    then errorf "auth.oauth.providers[%d].issuerUrl must be an absolute URL with host"
    else
      let isSSO := negb (String.eqb (op_SsoCheckURL p) "") in
      (if isSSO then
         match url_Parse (op_SsoCheckURL p) with
         | Err _ => errorf "auth.oauth.providers[%d].ssoCheckUrl must be an absolute URL with host"
         | Ok checkURL =>
             if negb (IsAbs checkURL) || String.eqb (url_Host checkURL) ""
             then errorf "auth.oauth.providers[%d].ssoCheckUrl must be an absolute URL with host"
             else Ok ()
         end
       else Ok ()) ;;;
      if negb isSSO && negb (String.eqb (url_Scheme issuerURL) "https") && negb insecureAllowHTTP
         && negb (isLoopbackHost (Hostname issuerURL))
      then errorf "auth.oauth.providers[%d].issuerUrl must use HTTPS (set THV_REGISTRY_INSECURE_URL=true to allow HTTP)"
      else if negb isSSO && String.eqb (op_Audience p) ""
      then errorf "auth.oauth.providers[%d].audience is required"
      else Ok ().

Definition Auth_Validate (a : AuthConfig) (insecureAllowHTTP : bool) : result () :=
  match ac_Mode a with
  | AuthModeAnonymous => Ok ()
  | AuthModeOAuth =>
      match ac_OAuth a with
      | None => errorf "auth.oauth is required when mode is oauth"
      | Some oauth =>
          if (List.length (oa_Providers oauth) =? 0)%nat
          then errorf "auth.oauth.providers is required when mode is oauth"
          else for_each (fun provider => validateProvider provider insecureAllowHTTP) (oa_Providers oauth)
      end
  | AuthModeOther _ => errorf "invalid auth.mode: %s (must be 'anonymous' or 'oauth')"
  end.

Definition validateAuth (c : Config) : result () :=
  match cfg_Auth c with
  | None => errorf "auth configuration is required"
  | Some a => with_context "invalid auth configuration" (Auth_Validate a (cfg_insecureAllowHTTP c))
  end.

(** [Config.validate]; [None] is the nil receiver. *)
Definition validate (c : option Config) : result () :=
  match c with
  | None => errorf "config cannot be nil"
  | Some c =>
      if (List.length (cfg_Sources c) =? 0)%nat then errorf "at least one source must be configured"
      else
        st <- validateSources ∅ 0 (cfg_Sources c) ;;
        let '(sourceNames, managedCount) := (st : gset string * nat) in
        if (1 <? managedCount)%nat then errorf "at most one managed source is allowed, found %d"
        else if (List.length (cfg_Registries c) =? 0)%nat
        then errorf "at least one registry must be configured"
        else
          validateRegistries sourceNames ∅ (cfg_Registries c) ;;;
          validateStorageConfig c ;;;
          validateAudit c ;;;
          validateAuth c
  end.

End Validation.

(** ** What a valid configuration is *)

Section Spec.
Context `{FS : FileSystem} `{U : UrlParser}.

(** The blocks a source configures. *)
Definition block {A} (o : option A) (t : SourceType) : list SourceType :=
  match o with Some _ => [t] | None => [] end.
Definition blocks (s : SourceConfig) : list SourceType :=
  block (src_Git s) SourceTypeGit ++ block (src_API s) SourceTypeAPI ++ block (src_File s) SourceTypeFile ++
  block (src_Managed s) SourceTypeManaged ++ block (src_Kubernetes s) SourceTypeKubernetes.

Definition dns_label (n : string) : Prop :=
  bracketed lower_alnum dns_class (to_bytes n) /\ (len n <= 63)%nat.

(** A duration [time.ParseDuration] reads. *)
Definition duration (s : string) (P : Z -> Prop) : Prop :=
  exists d, Duration.ParseDuration s = Ok d /\ P d.

Definition valid_git_auth (a : GitAuthConfig) : Prop :=
  (ga_Username a = "" /\ ga_PasswordFile a = "") \/
  (ga_Username a <> "" /\ ga_PasswordFile a <> "" /\ filepath_IsAbs (ga_PasswordFile a) = true /\
   is_ok (Stat (ga_PasswordFile a)) = true).

Definition valid_git (g : GitConfig) : Prop :=
  git_Repository g <> "" /\ forall a, git_Auth g = Some a -> valid_git_auth a.

Definition valid_timeout (t : string) : Prop :=
  t = "" \/ duration t (fun d => (0 < d <= maxAPITimeout)%Z).

Definition valid_api (a : APIConfig) : Prop := api_Endpoint a <> "" /\ valid_timeout (api_Timeout a).

Definition absolute_url (s : string) (P : URL -> Prop) : Prop :=
  exists u, url_Parse s = Ok u /\ url_Scheme u <> "" /\ url_Host u <> "" /\ P u.

Definition valid_file (f : FileConfig) : Prop :=
  (file_Path f <> "" /\ file_URL f = "") \/
  (file_Path f = "" /\ file_URL f <> "" /\
   absolute_url (file_URL f) (fun u => url_Scheme u = "http" \/ url_Scheme u = "https") /\
   (file_Timeout f = "" \/ duration (file_Timeout f) (fun _ => True))).

Definition valid_policy (p : option SyncPolicyConfig) : Prop :=
  exists q, p = Some q /\ sp_Interval q <> "" /\ duration (sp_Interval q) (fun _ => True).

(** One source: a DNS label as name, exactly one block, and for the blocks
    that are synchronised a schedule and the block's own rules. *)
Definition valid_source (s : SourceConfig) : Prop :=
  dns_label (src_Name s) /\ well_valued (default ∅ (src_Claims s)) /\
  exists t, blocks s = [t] /\
    match t with
    | SourceTypeGit => valid_policy (src_SyncPolicy s) /\ forall g, src_Git s = Some g -> valid_git g
    | SourceTypeAPI => valid_policy (src_SyncPolicy s) /\ forall a, src_API s = Some a -> valid_api a
    | SourceTypeFile => valid_policy (src_SyncPolicy s) /\ forall f, src_File s = Some f -> valid_file f
    | _ => True
    end.

Definition valid_registry (names : list string) (r : RegistryConfig) : Prop :=
  reg_Name r <> "" /\ reg_Sources r <> [] /\ Forall (fun n => n ∈ names) (reg_Sources r) /\
  well_valued (default ∅ (reg_Claims r)).

Definition valid_database (d : DatabaseConfig) : Prop :=
  dbc_Host d <> "" /\ dbc_Port d <> 0%Z /\ dbc_User d <> "" /\ dbc_Database d <> "" /\
  (0 < GetMaxMetaSize (Some d))%Z /\
  (is_Some (dbc_DynamicAuth d) -> dbc_Password d = "" /\ dbc_MigrationPassword d = "").

Definition valid_audit (a : AuditConfig) : Prop :=
  (0 <= aud_MaxDataSize a <= MaxAuditDataSize)%Z /\
  (aud_LogFile a <> "" ->
   exists dir, EvalSymlinks (filepath_Dir (aud_LogFile a)) = Ok dir /\ Stat dir = Ok true).

(** A provider that verifies signatures must be reached over HTTPS unless it
    is on the loopback interface or the operator said otherwise; a single
    sign-on provider needs an endpoint to check tokens at. *)
Definition valid_provider (insecure : bool) (p : OAuthProviderConfig) : Prop :=
  op_Name p <> "" /\ op_IssuerURL p <> "" /\
  absolute_url (op_IssuerURL p) (fun u =>
    op_SsoCheckURL p = "" ->
    (url_Scheme u = "https" \/ insecure = true \/ Hostname u ∈ [hostLocalhost; "127.0.0.1"; "::1"]) /\
    op_Audience p <> "") /\
  (op_SsoCheckURL p <> "" -> absolute_url (op_SsoCheckURL p) (fun _ => True)).

Definition valid_auth (insecure : bool) (a : AuthConfig) : Prop :=
  match ac_Mode a with
  | AuthModeAnonymous => True
  | AuthModeOAuth =>
      exists oauth, ac_OAuth a = Some oauth /\ oa_Providers oauth <> [] /\
        Forall (valid_provider insecure) (oa_Providers oauth)
  | AuthModeOther _ => False
  end.

Definition managed (s : SourceConfig) : bool := bool_decide (is_Some (src_Managed s)).

Record valid_config (c : Config) : Prop := {
  vc_sources : cfg_Sources c <> [];
  vc_source : Forall valid_source (cfg_Sources c);
  vc_names : NoDup (src_Name <$> cfg_Sources c);
  vc_managed : (List.length (List.filter managed (cfg_Sources c)) <= 1)%nat;
  vc_registries : cfg_Registries c <> [];
  vc_registry : Forall (valid_registry (src_Name <$> cfg_Sources c)) (cfg_Registries c);
  vc_registry_names : NoDup (reg_Name <$> cfg_Registries c);
  vc_database : exists d, cfg_Database c = Some d /\ valid_database d;
  vc_audit : forall a, cfg_Audit c = Some a -> valid_audit a;
  vc_auth : exists a, cfg_Auth c = Some a /\ valid_auth (cfg_insecureAllowHTTP c) a }.

(** *** Each section *)

Lemma errorf_ok {A} msg (a : A) : errorf msg = Ok a <-> False.
Proof. done. Qed.

Lemma if_ok {A} (b : bool) (x y : result A) a :
  (if b then x else y) = Ok a <-> (b = true /\ x = Ok a) \/ (b = false /\ y = Ok a).
Proof. destruct b; naive_solver. Qed.

Lemma with_unit_ok {A} msg (r : result A) :
  (with_context msg r ;;; Ok ()) = Ok () <-> exists a, r = Ok a.
Proof. rewrite bind_ok. setoid_rewrite with_context_ok. naive_solver. Qed.

Lemma unit_bind_ok {B} (m : result ()) (f : () -> result B) b :
  rbind m f = Ok b <-> m = Ok () /\ f tt = Ok b.
Proof. rewrite bind_ok. split; [intros ([] & ? & ?)|]; naive_solver. Qed.

Lemma length_zero {A} (l : list A) : (List.length l =? 0)%nat = true <-> l = [].
Proof. by destruct l. Qed.
Lemma length_nonzero {A} (l : list A) : (List.length l =? 0)%nat = false <-> l <> [].
Proof. by destruct l. Qed.

(** Turn a validator's success into its conditions. *)
Ltac unfold_ok :=
  repeat first
    [ rewrite if_ok | rewrite errorf_ok | rewrite with_context_ok | rewrite with_unit_ok
    | rewrite unit_bind_ok | rewrite negb_true_iff | rewrite negb_false_iff
    | rewrite orb_true_iff | rewrite orb_false_iff | rewrite andb_true_iff | rewrite andb_false_iff
    | rewrite String.eqb_eq | rewrite String.eqb_neq ].

Lemma validateGitConfig_ok g : validateGitConfig g = Ok () <-> valid_git g.
Proof.
  unfold validateGitConfig, valid_git. unfold_ok.
  destruct (git_Auth g) as [a|]; [|naive_solver]. unfold_ok. unfold GitAuth_Validate.
  assert (H : GitAuth_Validate (Some a) = Ok () <-> valid_git_auth a).
  { unfold GitAuth_Validate, valid_git_auth. destruct (String.eqb_spec (ga_Username a) ""),
      (String.eqb_spec (ga_PasswordFile a) ""); cbn [negb Bool.eqb]; unfold_ok; try naive_solver.
    destruct (Stat (ga_PasswordFile a)); naive_solver. }
  unfold GitAuth_Validate in H. rewrite H. naive_solver.
Qed.

Lemma ValidateAPITimeout_ok t : ValidateAPITimeout t = Ok () <-> valid_timeout t.
Proof.
  unfold ValidateAPITimeout, valid_timeout, duration. unfold_ok. rewrite bind_ok.
  setoid_rewrite with_context_ok. setoid_rewrite if_ok. setoid_rewrite if_ok.
  setoid_rewrite errorf_ok. setoid_rewrite Z.leb_gt. setoid_rewrite Z.ltb_ge. split.
  - intros [[-> _]|(_ & d & ? & ?)]; [by left|right]. exists d. naive_solver.
  - intros [->|(d & Hd & ?)]; [by left|right]. split; [by intros ->|]. exists d. naive_solver.
Qed.

Lemma validateAPIConfig_ok a : validateAPIConfig a = Ok () <-> valid_api a.
Proof. unfold validateAPIConfig, valid_api. unfold_ok. rewrite ValidateAPITimeout_ok. naive_solver. Qed.

Lemma IsAbs_true u : IsAbs u = true <-> url_Scheme u <> "".
Proof. unfold IsAbs. unfold_ok. done. Qed.

Lemma absolute_url_check {A} s msg (f : URL -> result A) e (a : A) :
  (u <- with_context msg (url_Parse s) ;;
   if negb (IsAbs u) || String.eqb (url_Host u) "" then Err e else f u) = Ok a <->
  absolute_url s (fun u => f u = Ok a).
Proof.
  rewrite bind_ok. unfold absolute_url. setoid_rewrite with_context_ok. setoid_rewrite if_ok.
  setoid_rewrite orb_true_iff. setoid_rewrite orb_false_iff. setoid_rewrite negb_false_iff.
  setoid_rewrite IsAbs_true. setoid_rewrite String.eqb_neq. naive_solver.
Qed.

Lemma absolute_url_iff s P Q : (forall u, P u <-> Q u) -> absolute_url s P <-> absolute_url s Q.
Proof. unfold absolute_url. naive_solver. Qed.

Lemma validateFileConfig_ok f : validateFileConfig f = Ok () <-> valid_file f.
Proof.
  unfold validateFileConfig, valid_file, duration, validateFileURL.
  destruct (String.eqb_spec (file_Path f) ""), (String.eqb_spec (file_URL f) ""); cbn [negb andb];
    unfold_ok; try naive_solver.
  unfold errorf. rewrite absolute_url_check.
  rewrite (absolute_url_iff _ _ (fun u => url_Scheme u = "http" \/ url_Scheme u = "https")).
  2:{ intros u. destruct (String.eqb_spec (url_Scheme u) "http"), (String.eqb_spec (url_Scheme u) "https");
      cbn; naive_solver. }
  split.
  - intros [Hu [[? [d ?]]|[? _]]]; right; split_and!; try done; [right; by exists d|by left].
  - intros [[??]|(_ & _ & Hu & Ht)]; [done|]. split; [done|].
    destruct (decide (file_Timeout f = "")); [by right|left]. destruct Ht as [?|(d & ? & _)]; [done|]. eauto.
Qed.

Lemma validateSyncPolicy_ok p : validateSyncPolicy p = Ok () <-> valid_policy p.
Proof.
  unfold validateSyncPolicy, valid_policy, duration. destruct p as [q|]; [|naive_solver]. unfold_ok.
  naive_solver.
Qed.

Lemma ValidateSourceName_dns n : n <> "" /\ SourceName.ValidateSourceName n = Ok () <-> dns_label n.
Proof.
  unfold SourceName.ValidateSourceName, SourceName.IsValidDNSSubdomain, MatchString, dns_label.
  rewrite guard_err_ok, negb_false_iff, re_match_spec, dnsSubdomainRegex_spec, to_bytes_length.
  fold (len n). split; [naive_solver|]. intros [Hb Hl]. split; [|done]. intros ->.
  by apply bracketed_Forall in Hb as [Hne _]; [|auto with registry].
Qed.

Lemma validateSourceTypeCount_ok s : validateSourceTypeCount s = Ok () <-> exists t, blocks s = [t].
Proof.
  unfold validateSourceTypeCount, blocks.
  destruct (src_Git s), (src_API s), (src_File s), (src_Managed s), (src_Kubernetes s); cbn; naive_solver.
Qed.

Lemma blocks_type s t : blocks s = [t] -> GetType s = t.
Proof.
  unfold blocks, GetType. destruct (src_Git s), (src_API s), (src_File s), (src_Managed s), (src_Kubernetes s);
    cbn; naive_solver.
Qed.

Lemma validateSourceConfig_ok s :
  validateSourceConfig s = Ok () <->
  exists t, blocks s = [t] /\
    match t with
    | SourceTypeGit => valid_policy (src_SyncPolicy s) /\ forall g, src_Git s = Some g -> valid_git g
    | SourceTypeAPI => valid_policy (src_SyncPolicy s) /\ forall a, src_API s = Some a -> valid_api a
    | SourceTypeFile => valid_policy (src_SyncPolicy s) /\ forall f, src_File s = Some f -> valid_file f
    | _ => True
    end.
Proof.
  unfold validateSourceConfig. rewrite unit_bind_ok, validateSourceTypeCount_ok.
  destruct (blocks s) as [|t [|t2 ts]] eqn:Ht; [naive_solver| |naive_solver].
  assert (Hex : forall Q : SourceType -> Prop, (exists t', [t] = [t'] /\ Q t') <-> Q t).
  { intros Q. split; [by intros (? & [= <-] & ?)|eauto]. }
  rewrite Hex. assert (Hy : forall P, (exists t', [t] = [t']) /\ P <-> P) by naive_solver.
  rewrite Hy. unfold IsNonSyncedSource. rewrite (blocks_type s t Ht).
  unfold validateSourceSpecificConfig, blocks in *.
  destruct (src_Git s), (src_API s), (src_File s), (src_Managed s), (src_Kubernetes s); cbn in Ht;
    try discriminate Ht; injection Ht as <-; repeat (case_bool_decide; try done); cbn [orb]; try done;
    rewrite unit_bind_ok, validateSyncPolicy_ok, ?validateGitConfig_ok, ?validateAPIConfig_ok,
      ?validateFileConfig_ok; naive_solver.
Qed.

Lemma validateClaims_ok c : validateClaims c = Ok () <-> well_valued (default ∅ c).
Proof. unfold validateClaims. by rewrite with_context_ok, ValidateClaimValues_iff. Qed.

Lemma validateSources_ok seen k l names n :
  validateSources seen k l = Ok (names, n) <->
  Forall valid_source l /\ NoDup (src_Name <$> l) /\ Forall (fun s => src_Name s ∉ seen) l /\
  names = list_to_set (src_Name <$> l) ∪ seen /\ n = (k + List.length (List.filter managed l))%nat.
Proof.
  revert seen k. induction l as [|s l IH]; intros seen k; cbn [validateSources fmap list_fmap List.filter].
  { cbn [list_to_set List.length]. rewrite Nat.add_0_r, union_empty_l_L. split.
    - intros [= <- <-]. split_and!; auto using NoDup_nil_2.
    - by intros (_ & _ & _ & -> & ->). }
  rewrite !Forall_cons, NoDup_cons. unfold valid_source at 1.
  rewrite <-ValidateSourceName_dns, <-validateSourceConfig_ok, <-validateClaims_ok.
  destruct (String.eqb_spec (src_Name s) "") as [|Hne]; [naive_solver|].
  rewrite unit_bind_ok, with_context_ok.
  case_bool_decide as Hin. { split; [by intros [_ ?]|naive_solver]. }
  rewrite !unit_bind_ok, IH.
  assert (HF : Forall (fun x => src_Name x ∉ ({[src_Name s]} ∪ seen : gset string)) l <->
    src_Name s ∉ src_Name <$> l /\ Forall (fun x => src_Name x ∉ seen) l).
  { rewrite list_elem_of_fmap, !Forall_forall. set_solver. }
  rewrite HF, list_to_set_cons.
  assert (HU : {[src_Name s]} ∪ list_to_set (src_Name <$> l) ∪ seen =
               list_to_set (src_Name <$> l) ∪ ({[src_Name s]} ∪ seen) :> gset string) by set_solver.
  rewrite HU. unfold managed at 2. destruct (src_Managed s); cbn [List.length];
    [rewrite Nat.add_succ_comm|]; naive_solver.
Qed.

Lemma validateRegistries_ok names seen l :
  validateRegistries (list_to_set names) seen l = Ok () <->
  Forall (valid_registry names) l /\ NoDup (reg_Name <$> l) /\ Forall (fun r => reg_Name r ∉ seen) l.
Proof.
  revert seen. induction l as [|r l IH]; intros seen; cbn [validateRegistries fmap list_fmap].
  { split; [intros _; split_and!; auto using NoDup_nil_2|done]. }
  rewrite !Forall_cons, NoDup_cons. unfold valid_registry at 1.
  destruct (String.eqb_spec (reg_Name r) "") as [|Hne]; [naive_solver|].
  case_bool_decide as Hin; [naive_solver|].
  destruct (reg_Sources r) as [|x xs] eqn:Es; [naive_solver|]. cbn [List.length Nat.eqb].
  rewrite !unit_bind_ok, for_each_ok, validateClaims_ok, IH.
  setoid_rewrite guard_err_ok. setoid_rewrite negb_false_iff. setoid_rewrite bool_decide_eq_true.
  setoid_rewrite elem_of_list_to_set.
  assert (HF : Forall (fun y => reg_Name y ∉ ({[reg_Name r]} ∪ seen : gset string)) l <->
    reg_Name r ∉ reg_Name <$> l /\ Forall (fun y => reg_Name y ∉ seen) l).
  { rewrite list_elem_of_fmap, !Forall_forall. set_solver. }
  rewrite HF. naive_solver.
Qed.

Lemma validateStorageConfig_ok c :
  validateStorageConfig c = Ok () <-> exists d, cfg_Database c = Some d /\ valid_database d.
Proof.
  unfold validateStorageConfig. destruct (cfg_Database c) as [d|]; [|naive_solver].
  assert (H : forall P : DatabaseConfig -> Prop, (exists d', Some d = Some d' /\ P d') <-> P d) by naive_solver.
  rewrite H. unfold valid_database, GetMaxMetaSize. unfold_ok. rewrite Z.eqb_neq.
  assert (Hm : match dbc_MaxMetaSize d with Some m => (m <=? 0)%Z | None => false end = false <->
               (0 < default DefaultMaxMetaSize (dbc_MaxMetaSize d))%Z).
  { destruct (dbc_MaxMetaSize d); simpl; [apply Z.leb_gt|]. split; [done|]. by intros. }
  rewrite Hm. destruct (dbc_DynamicAuth d) as [da|].
  - assert (Hs : forall P : Prop, (is_Some (Some da) -> P) <-> P) by (split; eauto).
    rewrite Hs. unfold_ok. naive_solver.
  - assert (Hs : forall P : Prop, (is_Some (@None DynamicAuthConfig) -> P) <-> True) by
      (split; [done|by intros _ [??]]).
    rewrite Hs. naive_solver.
Qed.

Lemma validateAudit_ok c : validateAudit c = Ok () <-> forall a, cfg_Audit c = Some a -> valid_audit a.
Proof.
  unfold validateAudit. destruct (cfg_Audit c) as [a|]; [|naive_solver]. unfold valid_audit. unfold_ok.
  rewrite bind_ok. setoid_rewrite with_context_ok. setoid_rewrite bind_ok. setoid_rewrite with_context_ok.
  setoid_rewrite if_ok. setoid_rewrite negb_false_iff. setoid_rewrite errorf_ok.
  rewrite !Z.ltb_ge. split.
  - intros [[??]|[? [[_ ?]|[? [[Hl Hx]|[? _]]]]]] a' [= <-]; [done|done| |by split].
    split; [done|]. intros _. destruct Hx as (dir & Hd & [] & Hs & [[??]|[??]]); eauto; done.
  - intros Hv. destruct (Hv a eq_refl) as [[??] Hl]. right. split; [done|]. right. split; [done|].
    destruct (decide (aud_LogFile a = "")) as [|Hn]; [by right|left]. split; [done|].
    destruct (Hl Hn) as (dir & ? & ?). exists dir. split; [done|]. exists true. auto.
Qed.

Lemma validateProvider_ok p insecure : validateProvider p insecure = Ok () <-> valid_provider insecure p.
Proof.
  unfold validateProvider, valid_provider. unfold errorf at 3. unfold_ok. rewrite absolute_url_check.
  set (sso := op_SsoCheckURL p).
  assert (Hsso : (if negb (String.eqb sso "") then
         match url_Parse sso with
         | Err _ => errorf "auth.oauth.providers[%d].ssoCheckUrl must be an absolute URL with host"
         | Ok u => if negb (IsAbs u) || String.eqb (url_Host u) ""
                   then errorf "auth.oauth.providers[%d].ssoCheckUrl must be an absolute URL with host"
                   else Ok ()
         end else Ok ()) = Ok () <-> (sso <> "" -> absolute_url sso (fun _ => True))).
  { destruct (String.eqb_spec sso ""); cbn [negb]; [naive_solver|]. unfold absolute_url.
    destruct (url_Parse sso) as [u|]; [|naive_solver]. unfold_ok. rewrite <-not_true_iff_false, IsAbs_true.
    naive_solver. }
  assert (Hloop : forall h, isLoopbackHost h = true <-> h ∈ [hostLocalhost; "127.0.0.1"; "::1"]).
  { intros h. unfold isLoopbackHost. unfold_ok. set_solver. }
  set (P := fun u => sso = "" -> _). rewrite (absolute_url_iff _ _ (fun u => P u /\ (sso <> "" -> absolute_url sso (fun _ => True)))).
  - unfold absolute_url. naive_solver.
  - intros u. rewrite unit_bind_ok, Hsso. subst P. cbn beta. unfold_ok. rewrite <-Hloop.
    destruct (String.eqb_spec sso ""), insecure; naive_solver.
Qed.

Lemma Auth_Validate_ok a insecure : Auth_Validate a insecure = Ok () <-> valid_auth insecure a.
Proof.
  unfold Auth_Validate, valid_auth. destruct (ac_Mode a); [done| |done].
  destruct (ac_OAuth a) as [oauth|]; [|naive_solver].
  rewrite if_ok, length_nonzero, for_each_ok. setoid_rewrite validateProvider_ok. naive_solver.
Qed.

(** The conjunction of the sections. *)
Lemma validate_spec c : validate (Some c) = Ok () <-> valid_config c.
Proof.
  unfold validate. rewrite if_ok, length_nonzero, bind_ok.
  transitivity (cfg_Sources c <> [] /\
    exists names n, validateSources ∅ 0 (cfg_Sources c) = Ok (names, n) /\ (n <= 1)%nat /\
      cfg_Registries c <> [] /\ validateRegistries names ∅ (cfg_Registries c) = Ok () /\
      validateStorageConfig c = Ok () /\ validateAudit c = Ok () /\ validateAuth c = Ok ()).
  { split.
    - intros [[_ ?]|(Hne & [names n] & Hs & H)]; [done|]. split; [done|]. exists names, n.
      rewrite !if_ok, length_nonzero, Nat.ltb_ge, !unit_bind_ok in H. naive_solver.
    - intros (Hne & names & n & Hs & H). right. split; [done|]. exists (names, n). split; [done|].
      rewrite !if_ok, length_nonzero, Nat.ltb_ge, !unit_bind_ok. naive_solver. }
  assert (Ha : validateAuth c = Ok () <->
    exists a, cfg_Auth c = Some a /\ valid_auth (cfg_insecureAllowHTTP c) a).
  { unfold validateAuth. destruct (cfg_Auth c) as [a|]; [|naive_solver].
    rewrite with_context_ok, Auth_Validate_ok. naive_solver. }
  setoid_rewrite Ha. setoid_rewrite validateStorageConfig_ok. setoid_rewrite validateAudit_ok.
  setoid_rewrite validateSources_ok. split.
  - intros (? & names & n & (? & ? & _ & -> & ->) & ? & ? & Hr & ? & ? & ?).
    rewrite union_empty_r_L, validateRegistries_ok in Hr. destruct Hr as (? & ? & _). by constructor.
  - intros []. split; [done|]. eexists _, _. split; [split_and!; try done|].
    + apply Forall_forall. set_solver.
    + rewrite union_empty_r_L, validateRegistries_ok. split_and!; try done.
      apply Forall_forall. set_solver.
Qed.

Lemma validate_sound c : validate (Some c) = Ok () -> valid_config c.
Proof. apply validate_spec. Qed.

(** C36. Validation accepts exactly the valid configurations.  There are sources;
    each has a DNS label of its own, claims of strings or lists of strings, and
    exactly one block; a git, api or file block comes with a schedule that is a
    duration, and with its own rules: a repository, and a user name with an
    absolute, existing password file or neither (branch, tag and commit are not
    looked at); an endpoint, and a timeout above zero and of at most five minutes
    or none; a path or an absolute http or https URL but not both (inline data are
    not looked at, plain http is accepted from any host), with a timeout that is a
    duration or none.  At most one source is managed.  There are registries, each
    with a name of its own, configured sources (repetitions are not looked at) and
    claims like a source's.  The database section is there, complete, and has no
    password next to dynamic authentication.  The audit section, if there, has a
    size of at most one mebibyte and a log file in an existing directory.  The
    authentication section is there: anonymous, or OAuth with at least one
    provider, each with a name and an absolute issuer URL; a provider without a
    single sign-on endpoint also needs an audience and an issuer over HTTPS, on a
    loopback host or explicitly insecure, one with such an endpoint is exempt from
    these two and needs an absolute URL there instead. *)
Theorem validate_iff c : validate (Some c) = Ok () <-> valid_config c.
Proof. apply validate_spec. Qed.
End Spec.

(** ** Timeouts in whole units *)

(** A timeout written as digits and one unit is accepted exactly when it
    is more than nothing and at most five minutes, however many digits it has:
    numbers that overflow 64 bits are refused, not wrapped. *)
Lemma ValidateAPITimeout_digits l u unit :
  l <> [] -> Forall (fun c => Duration.is_digit c = true) l -> Duration.unitMap u = Some unit ->
  ValidateAPITimeout (of_bytes (l ++ u)) = Ok () <->
  (0 < Duration.dval l * unit <= maxAPITimeout)%Z.
Proof.
  intros Hl Hd Hu. rewrite ValidateAPITimeout_ok. unfold valid_timeout, duration.
  rewrite (Duration.ParseDuration_digits l u unit Hl Hd Hu).
  assert (Hne : of_bytes (l ++ u) <> "") by (destruct l; [done|]; by simpl).
  assert (Hmax : (maxAPITimeout <= 2 ^ 63 - 1)%Z) by by vm_compute.
  destruct (Z.leb_spec (Duration.dval l * unit)%Z (2 ^ 63 - 1)%Z).
  - split; [intros [?|(d & [= <-] & ?)]; done|]. intros ?. right. eauto.
  - split; [intros [?|(d & [=] & ?)]; done|]. lia.
Qed.

Lemma ValidateAPITimeout_digits_witness :
  ValidateAPITimeout "300s" = Ok () /\ ValidateAPITimeout "18446744073709551617s" <> Ok ().
Proof.
  split.
  - apply (ValidateAPITimeout_digits (to_bytes "300") (to_bytes "s") Second); vm_compute; try done.
    by repeat constructor.
  - intros H. apply (ValidateAPITimeout_digits (to_bytes "18446744073709551617") (to_bytes "s") Second) in H;
      [by destruct H|done| |done]. by repeat constructor.
Defined.

(** ** Database credentials *)

(** [postgres.Config] of toolhive-core. *)
Record PostgresConfig := {
  pc_Host : string;
  pc_Port : Z;
  pc_User : string;
  pc_Password : string;
  pc_MigrationUser : string;
  pc_MigrationPassword : string;
  pc_Database : string;
  pc_SSLMode : string;
  pc_MaxOpenConns : Z;
  pc_MinConns : Z;
  pc_ConnMaxLifetime : Z;
  pc_DynamicAuth : option string }.      (* the AWS RDS region *)

Section Postgres.
(** [PGPASSFILE], the home directory, and jackc/pgpassfile: the entries of a
    password file as a lookup by host, port, database and user. *)
Variable PGPASSFILE : string.
Variable UserHomeDir : result string.
Variable ReadPassfile : string -> result (string -> Z -> string -> string -> string).
(** [postgres.Config.GetMigrationUser] of toolhive-core. *)
Variable core_GetMigrationUser : PostgresConfig -> string.

(** [filepath.Join(home, ".pgpass")] *)
Definition pgpass_path (home : string) : string :=
  if String.eqb home "" then ".pgpass" else Clean (home +:+ "/" +:+ ".pgpass").

Definition resolvePgpassPassword (host : string) (port : Z) (database user : string) : string :=
  let lookup path := match ReadPassfile path with
                     | Err _ => ""
                     | Ok passfile => passfile host port database user
                     end in
  if String.eqb PGPASSFILE "" then
    match UserHomeDir with
    | Err _ => ""
    | Ok home => lookup (pgpass_path home)
    end
  else lookup PGPASSFILE.

Definition set_passwords (cfg : PostgresConfig) (password migration : string) : PostgresConfig :=
  {| pc_Host := pc_Host cfg; pc_Port := pc_Port cfg; pc_User := pc_User cfg; pc_Password := password;
     pc_MigrationUser := pc_MigrationUser cfg; pc_MigrationPassword := migration;
     pc_Database := pc_Database cfg; pc_SSLMode := pc_SSLMode cfg; pc_MaxOpenConns := pc_MaxOpenConns cfg;
     pc_MinConns := pc_MinConns cfg; pc_ConnMaxLifetime := pc_ConnMaxLifetime cfg;
     pc_DynamicAuth := pc_DynamicAuth cfg |}.

Definition ToCorePostgresConfig (d : option DatabaseConfig) : result PostgresConfig :=
  match d with
  | None => errorf "database configuration is required"
  | Some d =>
      lifetime <- (if negb (String.eqb (dbc_ConnMaxLifetime d) "")
                   then with_context "failed to parse connMaxLifetime"
                          (Duration.ParseDuration (dbc_ConnMaxLifetime d))
                   else Ok 0%Z) ;;
      let region := match dbc_DynamicAuth d with
                    | Some da => aws_Region <$> da_AWSRDSIAM da
                    | None => None
                    end in
      let cfg := {| pc_Host := dbc_Host d; pc_Port := dbc_Port d; pc_User := dbc_User d;
                    pc_Password := GetPassword d; pc_MigrationUser := dbc_MigrationUser d;
                    pc_MigrationPassword := dbc_MigrationPassword d; pc_Database := dbc_Database d;
                    pc_SSLMode := dbc_SSLMode d; pc_MaxOpenConns := dbc_MaxOpenConns d;
                    pc_MinConns := dbc_MaxIdleConns d; pc_ConnMaxLifetime := lifetime;
                    pc_DynamicAuth := region |} in
      match region with
      | Some _ => Ok cfg
      | None =>
          let resolve := resolvePgpassPassword (pc_Host cfg) (pc_Port cfg) (pc_Database cfg) in
          let password := if String.eqb (pc_Password cfg) "" then resolve (pc_User cfg) else pc_Password cfg in
          let cfg := set_passwords cfg password (pc_MigrationPassword cfg) in
          let migrationUser := core_GetMigrationUser cfg in
          if String.eqb (pc_MigrationPassword cfg) "" && negb (String.eqb migrationUser (pc_User cfg))
          then Ok (set_passwords cfg (pc_Password cfg) (resolve migrationUser))
          else Ok cfg
      end
  end.

(** The credentials of a validated database section: with AWS dynamic
    authentication no password reaches the pool; without it an inline password
    is used as it is, and only a missing one is looked up in the password
    file, under the user it belongs to. *)
Lemma ToCorePostgresConfig_credentials d cfg :
  valid_database d -> ToCorePostgresConfig (Some d) = Ok cfg ->
  pc_User cfg = dbc_User d /\ pc_MigrationUser cfg = dbc_MigrationUser d /\
  match pc_DynamicAuth cfg with
  | Some _ => pc_Password cfg = "" /\ pc_MigrationPassword cfg = ""
  | None =>
    let resolve := resolvePgpassPassword (dbc_Host d) (dbc_Port d) (dbc_Database d) in
    pc_Password cfg = (if decide (dbc_Password d = "") then resolve (dbc_User d) else dbc_Password d) /\
    (dbc_MigrationPassword d <> "" -> pc_MigrationPassword cfg = dbc_MigrationPassword d) /\
    (dbc_MigrationPassword d = "" ->
       pc_MigrationPassword cfg = "" \/
       exists user, user <> dbc_User d /\ pc_MigrationPassword cfg = resolve user)
  end.
Proof.
  intros (_ & _ & _ & _ & _ & Hdyn) H. unfold ToCorePostgresConfig in H.
  apply bind_ok in H as (lifetime & _ & H). unfold GetPassword in H.
  destruct (match dbc_DynamicAuth d with Some da => _ | None => _ end) as [region|] eqn:Er.
  - injection H as <-. cbn. split_and!; try done; apply Hdyn; by destruct (dbc_DynamicAuth d).
  - cbn in H. destruct (_ && _) eqn:Eb in H; injection H as <-; cbn;
      (split; [done|]); (split; [done|]);
      (split; [by destruct (String.eqb_spec (dbc_Password d) ""); case_decide|]).
    + apply andb_true_iff in Eb as [E1%String.eqb_eq E2%negb_true_iff]. split; [done|]. intros _. right.
      eexists. split; [by apply String.eqb_neq, E2|]. done.
    + split; [done|]. intros ->. by left.
Qed.
End Postgres.

(** ** Loading *)

Section Load.
Context `{FS : FileSystem} `{U : UrlParser}.

(** viper, set up on the file with the [THV_REGISTRY_] prefix: what
    [ReadInConfig] and [Unmarshal] give for a path (the fields that are not
    read from the file hold their zero values), and its lookups. *)
Record Viper := {
  v_ReadInConfig : string -> result ();
  v_Unmarshal : string -> result Config;
  v_GetBool : string -> bool;
  v_GetString : string -> string }.

(** [WithConfigPath]: the path it stores. *)
Definition WithConfigPath (path : string) : result string :=
  if String.eqb path "" then errorf "path is required"
  else
    realPath <- with_context "failed to evaluate symlinks" (EvalSymlinks path) ;;
    if negb (filepath_IsAbs realPath) && negb (filepath_IsLocal realPath)
    then errorf "path is not local or contains invalid traversal: %s"
    else Ok realPath.

(** The fields that come from the environment. *)
Definition set_env (c : Config) (v : Viper) : Config :=
  let insecure := v_GetBool v "insecure_url" in
  {| cfg_Sources := cfg_Sources c; cfg_Registries := cfg_Registries c; cfg_Database := cfg_Database c;
     cfg_Auth := (fun a => {| ac_Mode := ac_Mode a; ac_PublicPaths := ac_PublicPaths a;
                              ac_OAuth := ac_OAuth a; ac_Authz := ac_Authz a;
                              ac_InsecureAllowHTTP := insecure |}) <$> cfg_Auth c;
     cfg_Audit := cfg_Audit c; cfg_insecureAllowHTTP := insecure;
     cfg_compressResponse := v_GetBool v "compress_response";
     cfg_WatchNamespace := v_GetString v "watch_namespace";
     cfg_LeaderElectionID := v_GetString v "leader_election_id" |}.

(** [LoadConfig] with its option list: each is a [WithConfigPath]. *)
Definition LoadConfig (v : Viper) (paths : list string) : result Config :=
  path <- foldl (fun acc p => acc ;;; WithConfigPath p) (Ok "") paths ;;
  if String.eqb path "" then errorf "path is required"
  else
    with_context "failed to read config file" (v_ReadInConfig v path) ;;;
    config <- with_context "failed to unmarshal config" (v_Unmarshal v path) ;;
    let config := set_env config v in
    with_context "invalid configuration" (validate (Some config)) ;;;
    Ok config.

Lemma foldl_err {A B} (f : A -> result B) l e :
  foldl (fun acc p => acc ;;; f p) (Err e) l = Err e.
Proof. by induction l. Qed.

(** The path that is kept went through symlink resolution. *)
Lemma WithConfigPath_all paths acc path :
  foldl (fun acc p => acc ;;; WithConfigPath p) acc paths = Ok path ->
  acc = Ok path \/ exists p, p ∈ paths /\ EvalSymlinks p = Ok path /\
    (filepath_IsAbs path = true \/ filepath_IsLocal path = true).
Proof.
  revert acc. induction paths as [|p paths IH]; intros acc H; [by left|].
  destruct acc as [a|e]; [|by rewrite foldl_err in H]. simpl in H.
  destruct (IH _ H) as [Hp|(q & Hq & ?)]; [|right; exists q; set_solver].
  right. exists p. split; [set_solver|]. unfold rbind at 1, WithConfigPath in Hp.
  destruct (String.eqb p ""); [done|]. apply bind_ok in Hp as (r & Hr & Hp).
  apply with_context_ok in Hr. destruct (filepath_IsAbs r) eqn:E1, (filepath_IsLocal r) eqn:E2; cbn in Hp;
    simplify_eq; auto.
Qed.

(** What the server starts with: a loaded configuration is valid, comes
    from a path that went through symlink resolution and is absolute or stays
    below the working directory, and the switch that allows plain HTTP is the
    environment's alone and the same in the validation and in the
    authentication layer. *)
Lemma LoadConfig_valid v paths c :
  LoadConfig v paths = Ok c ->
  valid_config c /\ cfg_insecureAllowHTTP c = v_GetBool v "insecure_url" /\
  (forall a, cfg_Auth c = Some a -> ac_InsecureAllowHTTP a = cfg_insecureAllowHTTP c) /\
  exists p path, p ∈ paths /\ EvalSymlinks p = Ok path /\ v_ReadInConfig v path = Ok () /\
    (filepath_IsAbs path = true \/ filepath_IsLocal path = true).
Proof.
  unfold LoadConfig. intros (path & Hp & H)%bind_ok. destruct (String.eqb_spec path ""); [done|].
  apply bind_ok in H as ([] & Hread & H). apply with_context_ok in Hread.
  apply bind_ok in H as (config & _ & H). apply bind_ok in H as ([] & Hv & H). injection H as <-.
  apply with_context_ok in Hv.
  assert (Hc : valid_config (set_env config v)).
  { clear -Hv. revert Hv. generalize (set_env config v). intros c. apply validate_sound. }
  split; [done|]. split; [done|]. split.
  - cbn. intros a Ha. destruct (cfg_Auth config); [|done]. by injection Ha as <-.
  - destruct (WithConfigPath_all _ _ _ Hp) as [[= <-]|(p & ? & ? & ?)]; [done|]. by exists p, path.
Qed.
End Load.

(** ** A concrete configuration *)
Module ConfigExample.
#[local] Instance fs : FileSystem :=
  {| EvalSymlinks := fun p => Ok p; Stat := fun p => Ok (String.eqb p "/var/log");
     ReadFile := fun _ => Err (EMsg "no such file") |}.
(** Scheme and host of [scheme://host/...], the shape used below. *)
#[local] Instance urls : UrlParser :=
  {| url_Parse := fun s =>
       match cut_bytes ":" (to_bytes s) with
       | (scheme, Some (a :: b :: rest)) =>
           if Ascii.eqb a slash && Ascii.eqb b slash
           then Ok {| url_Scheme := of_bytes scheme; url_Host := of_bytes (fst (cut_bytes slash rest)) |}
           else Err (EMsg "unsupported")
       | _ => Err (EMsg "unsupported")
       end |}.

Definition git_source : SourceConfig :=
  {| src_Name := "upstream";
     src_Git := Some {| git_Repository := "https://git.example/r"; git_Branch := "main"; git_Tag := "";
                        git_Commit := ""; git_Path := "registry.json"; git_Auth := None |};
     src_API := None; src_File := None; src_Managed := None; src_Kubernetes := None;
     src_SyncPolicy := Some {| sp_Interval := "1h30m" |}; src_Filter := None; src_Claims := None |}.
Definition managed_source : SourceConfig :=
  {| src_Name := "internal"; src_Git := None; src_API := None; src_File := None;
     src_Managed := Some Build_ManagedConfig; src_Kubernetes := None; src_SyncPolicy := None; src_Filter := None;
     src_Claims := Some {[ "org" := VString "acme" ]} |}.
Definition database : DatabaseConfig :=
  {| dbc_Host := "db"; dbc_Port := 5432; dbc_User := "app"; dbc_MigrationUser := "migrator";
     dbc_Password := "secret"; dbc_MigrationPassword := ""; dbc_DynamicAuth := None;
     dbc_Database := "registry"; dbc_SSLMode := "require"; dbc_MaxOpenConns := 10; dbc_MaxIdleConns := 2;
     dbc_ConnMaxLifetime := "1h"; dbc_MaxMetaSize := None |}.
Definition provider : OAuthProviderConfig :=
  {| op_Name := "idp"; op_IssuerURL := "http://localhost:8080/realm"; op_JwksUrl := ""; op_Audience := "registry";
     op_ClientID := ""; op_ClientSecretFile := ""; op_CACertPath := ""; op_AuthTokenFile := "";
     op_IntrospectionURL := ""; op_AllowPrivateIP := false; op_SsoCheckURL := "" |}.
Definition file_config : Config :=
  {| cfg_Sources := [git_source; managed_source];
     cfg_Registries := [ {| reg_Name := "main"; reg_Claims := None; reg_Sources := ["internal"; "upstream"] |} ];
     cfg_Database := Some database;
     cfg_Auth := Some {| ac_Mode := AuthModeOAuth; ac_PublicPaths := [];
       ac_OAuth := Some {| oa_ResourceURL := ""; oa_Providers := [provider]; oa_Realm := "" |};
       ac_Authz := None; ac_InsecureAllowHTTP := false |};
     cfg_Audit := Some {| aud_Enabled := true; aud_LogFile := "/var/log/audit.log"; aud_EventTypes := [];
       aud_ExcludeEventTypes := []; aud_IncludeRequestData := false; aud_MaxDataSize := 4096 |};
     cfg_insecureAllowHTTP := false; cfg_compressResponse := false; cfg_WatchNamespace := "";
     cfg_LeaderElectionID := "" |}.
Definition viper : Viper :=
  {| v_ReadInConfig := fun _ => Ok (); v_Unmarshal := fun _ => Ok file_config;
     v_GetBool := fun _ => false; v_GetString := fun _ => "" |}.

Lemma LoadConfig_valid_witness : valid_config (set_env file_config viper).
Proof. apply (LoadConfig_valid viper ["/etc/registry.yaml"]). vm_compute. reflexivity. Defined.

(** Over plain HTTP to another host the same configuration is refused. *)
Definition remote_provider : OAuthProviderConfig :=
  {| op_Name := "idp"; op_IssuerURL := "http://idp.example/realm"; op_JwksUrl := ""; op_Audience := "registry";
     op_ClientID := ""; op_ClientSecretFile := ""; op_CACertPath := ""; op_AuthTokenFile := "";
     op_IntrospectionURL := ""; op_AllowPrivateIP := false; op_SsoCheckURL := "" |}.
Example remote_http_refused :
  is_ok (validateProvider remote_provider false) = false /\ is_ok (validateProvider remote_provider true) = true.
Proof. by vm_compute. Qed.

Definition passfile : string -> result (string -> Z -> string -> string -> string) :=
  fun _ => Ok (fun _ _ _ user => if String.eqb user "migrator" then "from-pgpass" else "").
Definition core_user (c : PostgresConfig) : string :=
  if String.eqb (pc_MigrationUser c) "" then pc_User c else pc_MigrationUser c.

Lemma ToCorePostgresConfig_credentials_witness :
  exists cfg, ToCorePostgresConfig "/run/pgpass" (Ok "/root") passfile core_user (Some database) = Ok cfg /\
    pc_Password cfg = "secret" /\ pc_MigrationPassword cfg = "from-pgpass".
Proof.
  destruct (ToCorePostgresConfig "/run/pgpass" (Ok "/root") passfile core_user (Some database)) as [cfg|] eqn:E;
    [|by vm_compute in E].
  exists cfg. split; [done|].
  assert (Hv : valid_database database).
  { unfold valid_database. cbn. split_and!; try done; by intros [??]. }
  pose proof (ToCorePostgresConfig_credentials "/run/pgpass" (Ok "/root") passfile core_user database cfg Hv E)
    as (_ & _ & H).
  assert (Hm : pc_MigrationPassword cfg = "from-pgpass" /\ pc_DynamicAuth cfg = None)
    by (vm_compute in E; by injection E as <-).
  destruct Hm as [Hm Hd]. rewrite Hd in H. split; [apply (proj1 H)|exact Hm].
Defined.
End ConfigExample.
