(* ===== verification/Auth.v ===== *)
(** * Authentication and role-based authorization

    [internal/auth]: role resolution ([roles.go], [claims.go]), the public-path
    test ([config.go]), identities ([identity.go]), the multi-provider bearer
    middleware ([middleware.go]), the role middlewares
    ([authz_middleware.go]) and the SSO validator ([sso_validator.go]); the
    access-log middleware of [internal/api/server.go] that reads the published
    identity.  The factory is in [App], the metadata endpoint in [Api].

    An HTTP handler maps a request and the identity holder of the request to a
    response and the holder's new contents: the holder is the one mutable
    object an inner middleware shares with an outer one. *)

From stdpp Require Import base list strings gmap sets.
From Stdlib Require Import Ascii String Lia.
From S2P Require Import Prelude GoStrings GoPath Claims ConfigTypes.

Local Open Scope string_scope.
Local Open Scope list_scope.

(** ** [roles.go] *)
Module Roles.

Inductive Role :=
| RoleSuperAdmin | RoleManageSources | RoleManageRegistries | RoleManageEntries.

#[export] Instance Role_eq_dec : EqDecision Role.
Proof. solve_decision. Defined.

Definition role_string (r : Role) : string :=
  match r with
  | RoleSuperAdmin => "superAdmin"
  | RoleManageSources => "manageSources"
  | RoleManageRegistries => "manageRegistries"
  | RoleManageEntries => "manageEntries"
  end.

Definition toStringSlice (v : any) : list string :=
  match v with
  | VString s => [s]
  | VStrings l => l
  | VSlice l => slice_strings l
  | _ => []
  end.

Definition matchesClaimValue (jwtValue requiredValue : any) : bool :=
  let requiredValues := toStringSlice requiredValue in
  if (List.length requiredValues =? 0)%nat then false
  else
    let jwtValues := toStringSlice jwtValue in
    if (List.length jwtValues =? 0)%nat then false
    else existsb (fun jv => existsb (fun rv => String.eqb jv rv) requiredValues) jwtValues.

Definition matchesClaimMap (cs claimMap : claims) : bool :=
  if (size claimMap =? 0)%nat then false
  else forallb (fun '(key, required) =>
         match cs !! key with
         | None => false
         | Some jwtValue => matchesClaimValue jwtValue required
         end) (map_to_list claimMap).

Definition matchesRoleRules (cs : claims) (rules : list claims) : bool :=
  existsb (matchesClaimMap cs) rules.

Definition ResolveRoles (cs : option claims) (authzCfg : option AuthzConfig) : list Role :=
  match authzCfg, cs with
  | Some az, Some cs =>
      let roles := az_Roles az in
      (if matchesRoleRules cs (rc_SuperAdmin roles) then [RoleSuperAdmin] else []) ++
      (if matchesRoleRules cs (rc_ManageSources roles) then [RoleManageSources] else []) ++
      (if matchesRoleRules cs (rc_ManageRegistries roles) then [RoleManageRegistries] else []) ++
      (if matchesRoleRules cs (rc_ManageEntries roles) then [RoleManageEntries] else [])
  | _, _ => []
  end.

Definition AllRoles : list Role :=
  [RoleSuperAdmin; RoleManageSources; RoleManageRegistries; RoleManageEntries].

Definition HasRole (roles : list Role) (required : Role) : bool :=
  existsb (fun r => bool_decide (r = RoleSuperAdmin) || bool_decide (r = required)) roles.

(** The rules a configuration gives for a role. *)
Definition rules_for (az : AuthzConfig) (r : Role) : list claims :=
  match r with
  | RoleSuperAdmin => rc_SuperAdmin (az_Roles az)
  | RoleManageSources => rc_ManageSources (az_Roles az)
  | RoleManageRegistries => rc_ManageRegistries (az_Roles az)
  | RoleManageEntries => rc_ManageEntries (az_Roles az)
  end.

(** What a rule asks of a caller: every key of a non-empty rule is a claim of
    the caller that shares a string with the rule's value. *)
Definition satisfies (cs rule : claims) : Prop :=
  rule <> ∅ /\
  forall k v, rule !! k = Some v ->
    exists jv s, cs !! k = Some jv /\ s ∈ toStringSlice jv /\ s ∈ toStringSlice v.

Lemma matchesClaimValue_spec jv rv :
  matchesClaimValue jv rv = true <-> exists s, s ∈ toStringSlice jv /\ s ∈ toStringSlice rv.
Proof.
  unfold matchesClaimValue.
  destruct (Nat.eqb_spec (List.length (toStringSlice rv)) 0) as [E%length_zero_iff_nil|_];
    [rewrite E; set_solver|].
  destruct (Nat.eqb_spec (List.length (toStringSlice jv)) 0) as [E%length_zero_iff_nil|_];
    [rewrite E; set_solver|].
  rewrite existsb_true_iff. setoid_rewrite existsb_true_iff. split.
  - intros (x & Hx & y & Hy & <-%String.eqb_eq). eauto.
  - intros (x & Hx & Hy). exists x. split; [done|]. exists x. split; [done|]. by apply String.eqb_eq.
Qed.

Lemma matchesClaimMap_spec cs rule : matchesClaimMap cs rule = true <-> satisfies cs rule.
Proof.
  unfold matchesClaimMap, satisfies. destruct (Nat.eqb_spec (size rule) 0) as [E|E].
  { apply map_size_empty_iff in E. naive_solver. }
  rewrite map_size_empty_iff in E. rewrite forallb_true_iff. split.
  - intros H. split; [done|]. intros k v Hk. specialize (H (k, v)).
    rewrite elem_of_map_to_list in H. specialize (H Hk). simpl in H.
    destruct (cs !! k) as [jv|]; [|done]. apply matchesClaimValue_spec in H. naive_solver.
  - intros [_ H] [k v] Hk%elem_of_map_to_list. simpl.
    destruct (H k v Hk) as (jv & s & -> & ?). apply matchesClaimValue_spec. eauto.
Qed.

Lemma matchesRoleRules_spec cs rules :
  matchesRoleRules cs rules = true <-> exists rule, rule ∈ rules /\ satisfies cs rule.
Proof.
  unfold matchesRoleRules. rewrite existsb_true_iff. by setoid_rewrite matchesClaimMap_spec.
Qed.

Lemma HasRole_spec roles r :
  HasRole roles r = true <-> RoleSuperAdmin ∈ roles \/ r ∈ roles.
Proof.
  unfold HasRole. rewrite existsb_true_iff. setoid_rewrite orb_true_iff.
  setoid_rewrite bool_decide_eq_true. naive_solver.
Qed.

Lemma elem_of_ResolveRoles cs az r :
  r ∈ ResolveRoles (Some cs) (Some az) <-> matchesRoleRules cs (rules_for az r) = true.
Proof. destruct r; simpl; repeat case_match; set_solver. Qed.

(** C38. A caller holds a role exactly when its claims satisfy one of the
    rules configured for that role or for superAdmin, where a rule is satisfied
    when it is not empty and each of its keys is a claim of the caller sharing
    a string with the required value. *)
Theorem HasRole_ResolveRoles_iff cs az r :
  HasRole (ResolveRoles (Some cs) (Some az)) r = true <->
  exists rule, rule ∈ rules_for az RoleSuperAdmin ++ rules_for az r /\ satisfies cs rule.
Proof.
  rewrite HasRole_spec, !elem_of_ResolveRoles, !matchesRoleRules_spec.
  setoid_rewrite elem_of_app. naive_solver.
Qed.

Arguments ResolveRoles : simpl never.
End Roles.
Export Roles.

(** ** [config.go]: IsPublicPath *)
Module PublicPath.

(** [strings.ToLower] on ASCII.  No other rune has an ASCII lower case among
    the characters of [%2f] and [%2e], so this decides the same containment. *)
Definition lower (c : ascii) : ascii :=
  let n := N_of_ascii c in
  if (65 <=? n)%N && (n <=? 90)%N then ascii_of_N (n + 32) else c.

Fixpoint contains (p l : bytes) : bool :=
  match l with
  | [] => bool_decide (p = [])
  | _ :: l' => bool_decide (p `prefix_of` l) || contains p l'
  end.

Definition encoded_separator (requestPath : bytes) : bool :=
  let lowerPath := lower <$> requestPath in
  contains (to_bytes "%2f") lowerPath || contains (to_bytes "%2e") lowerPath.

Fixpoint public_loop (cleanPath : bytes) (publicPaths : list string) : bool :=
  match publicPaths with
  | [] => false
  | publicPath :: rest =>
      let c := clean_bytes (to_bytes publicPath) in
      let cleanPublicPath := if is_rooted c then c else slash :: c in
      if bool_decide (cleanPublicPath = [slash]) then true
      else if bool_decide (cleanPath = cleanPublicPath) then true
      else if bool_decide (cleanPublicPath ++ [slash] `prefix_of` cleanPath) then true
      else public_loop cleanPath rest
  end.

Definition IsPublicPath (requestPath : string) (publicPaths : list string) : bool :=
  if encoded_separator (to_bytes requestPath) then false
  else
    let c := clean_bytes (to_bytes requestPath) in
    let cleanPath := if is_rooted c then c else slash :: c in
    public_loop cleanPath publicPaths.

Lemma public_loop_spec p publicPaths :
  public_loop (abs_bytes p) publicPaths = true <->
  exists q, q ∈ publicPaths /\ norm_segs (to_bytes q) `prefix_of` norm_segs p.
Proof.
  induction publicPaths as [|q qs IH]; cbn [public_loop]; [set_solver|].
  fold (abs_bytes (to_bytes q)).
  assert (Hq : forall b : bool,
    (if bool_decide (abs_bytes (to_bytes q) = [slash]) then true
     else if bool_decide (abs_bytes p = abs_bytes (to_bytes q)) then true
     else if bool_decide (abs_bytes (to_bytes q) ++ [slash] `prefix_of` abs_bytes p) then true
     else b) = true <-> norm_segs (to_bytes q) `prefix_of` norm_segs p \/ b = true).
  { intros b. rewrite <-abs_path_prefix. repeat case_bool_decide; naive_solver. }
  rewrite Hq, IH. setoid_rewrite elem_of_cons. naive_solver.
Qed.

(** C37. A request path bypasses authentication exactly when it has no
    encoded separator or dot and the segments of one of the public paths, after
    cleaning, are a prefix of its own cleaned segments. *)
Theorem IsPublicPath_iff requestPath publicPaths :
  IsPublicPath requestPath publicPaths = true <->
  encoded_separator (to_bytes requestPath) = false /\
  exists q, q ∈ publicPaths /\ norm_segs (to_bytes q) `prefix_of` norm_segs (to_bytes requestPath).
Proof.
  unfold IsPublicPath. destruct (encoded_separator _); [naive_solver|].
  fold (abs_bytes (to_bytes requestPath)). rewrite public_loop_spec. naive_solver.
Qed.

(** The default public paths let through neither a traversal out of them nor a
    longer sibling name. *)
Example traversal_not_public :
  (fun p => IsPublicPath p ["/openapi.json"; "/.well-known"]) <$>
    ["/.well-known/oauth-protected-resource"; "/.well-known/../v1/sources"; "/.well-knownx";
     "//openapi.json"; "/openapi.json/%2E%2e/v1"; "/v1/sources"]
  = [true; false; false; true; false; false].
Proof. by vm_compute. Qed.

End PublicPath.
Export PublicPath.

(** ** Requests, responses, handlers *)
Module Http.

(** [identityHolder]; the mutex is not modelled, [store] and [load] are one
    critical section each. *)
Record identityHolder := { ih_sub : string; ih_user : string; ih_set : bool }.

Definition fresh_holder : identityHolder := {| ih_sub := ""; ih_user := ""; ih_set := false |}.
Definition holder_store (sub user : string) (h : identityHolder) : identityHolder :=
  {| ih_sub := sub; ih_user := user; ih_set := true |}.

(** The values the code keeps in a request context.  A nil claims map and an
    absent one read back the same, and so do nil and absent roles. *)
Record Ctx := { ctx_claims : option claims; ctx_roles : list Role; ctx_holder : bool }.

Definition ContextWithClaims (c : Ctx) (cs : option claims) : Ctx :=
  {| ctx_claims := cs; ctx_roles := ctx_roles c; ctx_holder := ctx_holder c |}.
Definition ContextWithRoles (c : Ctx) (roles : list Role) : Ctx :=
  {| ctx_claims := ctx_claims c; ctx_roles := roles; ctx_holder := ctx_holder c |}.
Definition WithIdentityHolder (c : Ctx) : Ctx :=
  {| ctx_claims := ctx_claims c; ctx_roles := ctx_roles c; ctx_holder := true |}.
Definition ClaimsFromContext (c : Ctx) : option claims := ctx_claims c.
Definition RolesFromContext (c : Ctx) : list Role := ctx_roles c.
Definition IsSuperAdmin (c : Ctx) : bool := HasRole (RolesFromContext c) RoleSuperAdmin.

(** What reading a body gives: some bytes, and then its end or a read error,
    which stays. *)
Record Reader := { rd_bytes : string; rd_fails : bool }.
Definition whole (s : string) : Reader := {| rd_bytes := s; rd_fails := false |}.

(** A request, with what the router and the HTTP library made of it: the decoded
    path ([URL.Path]) and the path as it was sent where that differs from its
    default encoding ([URL.RawPath], empty otherwise), URL parameters as captured
    by chi (empty if there is none), query values, headers, body and peer
    address. *)
Record Request := {
  r_method : string;
  r_path : string;
  r_rawPath : string;
  r_authorization : string;
  r_param : string -> string;
  r_query : string -> string;
  r_header : string -> string;
  r_remote : string;
  r_body : Reader;
  r_ctx : Ctx }.
Definition WithContext (r : Request) (c : Ctx) : Request :=
  {| r_method := r_method r; r_path := r_path r; r_rawPath := r_rawPath r; r_authorization := r_authorization r; r_param := r_param r;
     r_query := r_query r; r_header := r_header r; r_remote := r_remote r; r_body := r_body r; r_ctx := c |}.

(** The values that are written as JSON; [P] are those of the API. *)
Inductive Body (P : Type) :=
| BError (msg : string)                             (* {"error": msg} *)
| BMe (subject : string) (roles : list string)      (* meResponse *)
| BMetadata (resource : string) (servers methods : list string) (* protectedResourceMetadata *)
| BText (text : string)                             (* text/plain, of net/http *)
| BNone                                             (* no body *)
| BData (p : P).
Arguments BError {_} _.
Arguments BMe {_} _ _.
Arguments BMetadata {_} _ _ _.
Arguments BText {_} _.
Arguments BNone {_}.
Arguments BData {_} _.

Record Response (P : Type) := {
  rs_status : Z;
  rs_headers : list (string * string);
  rs_body : Body P }.
Arguments rs_status {_} _.
Arguments rs_headers {_} _.
Arguments rs_body {_} _.

(** A handler answers and acts on the identity holder and on the rest of the
    world, of a type of its own. *)
Abbreviation Handler P W := (Request -> identityHolder * W -> Response P * (identityHolder * W)).

Definition json_header : string * string := ("Content-Type", "application/json").

Definition StatusOK : Z := 200.
Definition StatusUnauthorized : Z := 401.
Definition StatusForbidden : Z := 403.

Definition WriteErrorResponse {P} (message : string) (statusCode : Z) : Response P :=
  {| rs_status := statusCode; rs_headers := [json_header]; rs_body := BError message |}.

End Http.
Export Http.

(** ** [identity.go] *)
Module Identity.

Definition AnonymousSubject : string := "anonymous".

Definition claimString (cs : claims) (key : string) : string :=
  match cs !! key with Some (VString s) => s | _ => "" end.

Definition IdentityFromClaims (cs : option claims) : string * string :=
  match cs with
  | None => ("", "")
  | Some cs =>
      let sub := claimString cs "sub" in
      let name := claimString cs "name" in
      let pref := claimString cs "preferred_username" in
      let email := claimString cs "email" in
      if negb (String.eqb name "") then (sub, name)
      else if negb (String.eqb pref "") then (sub, pref)
      else if negb (String.eqb email "") then (sub, email)
      else (sub, "")
  end.

Definition SetIdentity (c : Ctx) (sub user : string) (h : identityHolder) : identityHolder :=
  if ctx_holder c then holder_store sub user h else h.

Definition IdentityFromContext (c : Ctx) (h : identityHolder) : string * string :=
  if ctx_holder c && ih_set h then (ih_sub h, ih_user h)
  else IdentityFromClaims (ClaimsFromContext c).

Arguments IdentityFromClaims : simpl never.
End Identity.
Export Identity.

(** ** [middleware.go]: header values *)
Module Header.

Definition CR : ascii := byte 13.
Definition LF : ascii := byte 10.
Definition quote : ascii := byte 34.
Definition backslash : ascii := byte 92.

(** [strings.ReplaceAll(s, c, with)] for a one-byte [c]. *)
Fixpoint replace_all (c : ascii) (new : bytes) (l : bytes) : bytes :=
  match l with
  | [] => []
  | x :: l' => (if Ascii.eqb x c then new else [x]) ++ replace_all c new l'
  end.

Definition sanitizeHeaderValue (s : bytes) : bytes :=
  if negb (existsb (fun c => Ascii.eqb c CR || Ascii.eqb c LF || Ascii.eqb c quote) s) then s
  else
    let s := replace_all CR [] s in
    let s := replace_all LF [] s in
    replace_all quote [backslash; quote] s.

(** Reading a quoted-string of RFC 7230 up to its closing quote. *)
Fixpoint lex_quoted (l : bytes) : option (bytes * bytes) :=
  match l with
  | [] => None
  | c :: r =>
      if Ascii.eqb c quote then Some ([], r)
      else if Ascii.eqb c backslash then
        match r with
        | [] => None
        | d :: r' => '(s, rest) ← lex_quoted r'; Some (d :: s, rest)
        end
      else '(s, rest) ← lex_quoted r; Some (c :: s, rest)
  end.

(** What the value should read as: the string without line breaks. *)
Definition strip_breaks (l : bytes) : bytes := replace_all LF [] (replace_all CR [] l).

Lemma replace_all_id c new l : c ∉ l -> replace_all c new l = l.
Proof.
  induction l as [|x l IH]; intros H; [done|]. apply not_elem_of_cons in H as [Hx H].
  simpl. destruct (Ascii.eqb_spec x c); [congruence|]. simpl. by rewrite IH.
Qed.

Lemma elem_of_replace_all c new l x :
  x ∈ replace_all c new l -> (x ∈ l /\ x <> c) \/ x ∈ new.
Proof.
  induction l as [|y l IH]; simpl; [set_solver|]. rewrite elem_of_app.
  intros [Hx|Hx]; [|set_solver].
  destruct (Ascii.eqb_spec y c); [by right|]. apply list_elem_of_singleton in Hx as ->. set_solver.
Qed.

(** The fast path computes what the slow one would. *)
Lemma sanitize_slow s :
  sanitizeHeaderValue s = replace_all quote [backslash; quote] (strip_breaks s).
Proof.
  unfold sanitizeHeaderValue, strip_breaks. destruct (existsb _ _) eqn:E; [done|]. simpl.
  assert (Hn : forall c, c = CR \/ c = LF \/ c = quote -> c ∉ s).
  { intros c Hc Hin. apply not_true_iff_false in E. apply E, existsb_true_iff. exists c.
    split; [done|]. rewrite !orb_true_iff, !Ascii.eqb_eq. naive_solver. }
  rewrite (replace_all_id CR) by auto. rewrite (replace_all_id LF) by auto.
  by rewrite replace_all_id by auto.
Qed.

Lemma sanitize_no_break s : CR ∉ sanitizeHeaderValue s /\ LF ∉ sanitizeHeaderValue s.
Proof.
  rewrite sanitize_slow. unfold strip_breaks. split; intros H;
    apply elem_of_replace_all in H as [[H _]|H]; try by vm_compute in H; set_solver.
  - apply elem_of_replace_all in H as [[H _]|H]; [|set_solver].
    apply elem_of_replace_all in H as [[_ H]|H]; [done|set_solver].
  - apply elem_of_replace_all in H as [[_ H]|H]; [done|set_solver].
Qed.

(** A realm, resource URL or description without backslashes survives
    the header: reading the quoted string back gives the value without its line
    breaks and stops at the closing quote the code wrote. *)
Lemma sanitize_lex_quoted s rest :
  backslash ∉ s ->
  lex_quoted (sanitizeHeaderValue s ++ quote :: rest) = Some (strip_breaks s, rest).
Proof.
  intros Hs. rewrite sanitize_slow.
  assert (H : backslash ∉ strip_breaks s).
  { unfold strip_breaks. intros H. apply elem_of_replace_all in H as [[H _]|H]; [|set_solver].
    apply elem_of_replace_all in H as [[H _]|H]; set_solver. }
  clear Hs. induction (strip_breaks s) as [|c l IH]; [done|].
  apply not_elem_of_cons in H as [Hc H]. cbn [replace_all].
  destruct (Ascii.eqb_spec c quote) as [->|Hq]; cbn [app lex_quoted].
  - change (Ascii.eqb backslash quote) with false. change (Ascii.eqb backslash backslash) with true.
    cbv iota. by rewrite IH.
  - destruct (Ascii.eqb_spec c quote); [done|]. destruct (Ascii.eqb_spec c backslash); [congruence|].
    by rewrite IH.
Qed.

Lemma sanitize_lex_quoted_witness :
  lex_quoted (sanitizeHeaderValue (to_bytes "my" ++ [quote; LF] ++ to_bytes "realm") ++ quote :: to_bytes ",x")
  = Some (to_bytes "my" ++ quote :: to_bytes "realm", to_bytes ",x").
Proof.
  refine (sanitize_lex_quoted (to_bytes "my" ++ [quote; LF] ++ to_bytes "realm") (to_bytes ",x") _).
  apply (bool_decide_unpack _). by vm_compute.
Defined.

(** A backslash in front of a quote defeats the escaping: the quoted
    string ends inside the value, and what follows it is read as header
    parameters. *)
Lemma sanitize_backslash_escape x rest :
  lex_quoted (sanitizeHeaderValue (backslash :: quote :: x) ++ quote :: rest)
  = Some ([backslash], sanitizeHeaderValue x ++ quote :: rest).
Proof. rewrite !sanitize_slow. reflexivity. Qed.

End Header.
Export Header.

(** ** [middleware.go]: the multi-provider middleware *)
Module Bearer.

(** [tokenValidatorInterface]: a validator returns claims, possibly nil, or an
    error.  Validators are toolhive's or the SSO one below. *)
Abbreviation Validator := (string -> result (option claims)).

Record namedValidator := { nv_Name : string; nv_Validator : Validator }.
Record providerError := { pe_Provider : string; pe_Error : error }.

Record validationResult := {
  vr_Provider : string;
  vr_Error : option error;
  vr_Errors : list providerError;
  vr_Claims : option claims }.

Record multiProviderMiddleware := {
  mp_validators : list namedValidator;
  mp_resourceURL : string;
  mp_realm : string }.

Definition defaultRealm : string := "mcp-registry".
Definition errorCodeInvalidRequest : string := "invalid_request".
Definition errorCodeInvalidToken : string := "invalid_token".
Definition errAllProvidersFailed : error := EMsg "all providers failed to validate token".

Fixpoint validate_loop (vs : list namedValidator) (token : string) (errs : list providerError)
    : validationResult :=
  match vs with
  | [] => {| vr_Provider := ""; vr_Error := Some errAllProvidersFailed; vr_Errors := errs;
             vr_Claims := None |}
  | nv :: vs' =>
      match nv_Validator nv token with
      | Err e => validate_loop vs' token (errs ++ [{| pe_Provider := nv_Name nv; pe_Error := e |}])
      | Ok cs => {| vr_Provider := nv_Name nv; vr_Error := None; vr_Errors := errs; vr_Claims := cs |}
      end
  end.

Definition validateToken (m : multiProviderMiddleware) (token : string) : validationResult :=
  validate_loop (mp_validators m) token [].

(** [writeError] *)
Definition quoted (name : string) (v : bytes) : bytes :=
  to_bytes name ++ to_bytes "=" ++ quote :: v ++ [quote].

Definition www_authenticate (m : multiProviderMiddleware) (errCode description : string) : bytes :=
  let realm := sanitizeHeaderValue (to_bytes (mp_realm m)) in
  let resourceURL := sanitizeHeaderValue (to_bytes (mp_resourceURL m)) in
  let desc := sanitizeHeaderValue (to_bytes description) in
  let base := to_bytes "Bearer " ++ quoted "realm" realm ++ to_bytes ", " ++
              quoted "error" (to_bytes errCode) ++ to_bytes ", " ++
              quoted "error_description" desc in
  if bool_decide (resourceURL = []) then base
  else base ++ to_bytes ", " ++
       quoted "resource_metadata" (resourceURL ++ to_bytes "/.well-known/oauth-protected-resource").

Definition writeError {P} (m : multiProviderMiddleware) (status : Z) (errCode description : string)
    : Response P :=
  {| rs_status := status;
     rs_headers := [json_header; ("WWW-Authenticate", of_bytes (www_authenticate m errCode description))];
     rs_body := BError description |}.

(** [auth.ExtractBearerToken] belongs to toolhive. *)
Section Middleware.
Context (ExtractBearerToken : Request -> result string).

Definition Middleware {P W} (m : multiProviderMiddleware) (next : Handler P W) : Handler P W :=
  fun r h =>
    match ExtractBearerToken r with
    | Err _ =>
        (writeError m StatusUnauthorized errorCodeInvalidRequest
           "missing or malformed authorization header", h)
    | Ok token =>
        let res := validateToken m token in
        match vr_Error res with
        | Some _ =>
            (writeError m StatusUnauthorized errorCodeInvalidToken "token validation failed", h)
        | None =>
            let '(sub, user) := IdentityFromClaims (vr_Claims res) in
            next (WithContext r (ContextWithClaims (r_ctx r) (vr_Claims res)))
                 (SetIdentity (r_ctx r) sub user (fst h), snd h)
        end
    end.

End Middleware.

Definition WrapWithPublicPaths {P W} (authMw : Handler P W -> Handler P W) (publicPaths : list string)
    (next : Handler P W) : Handler P W :=
  let authWrappedNext := authMw next in
  fun r h => if negb (IsPublicPath (r_path r) publicPaths) then authWrappedNext r h else next r h.

Lemma validate_loop_ok vs token errs name cs :
  (exists es, validate_loop vs token errs =
     {| vr_Provider := name; vr_Error := None; vr_Errors := es; vr_Claims := cs |}) <->
  exists before nv after, vs = before ++ nv :: after /\ nv_Name nv = name /\
    nv_Validator nv token = Ok cs /\
    Forall (fun v => is_ok (nv_Validator v token) = false) before.
Proof.
  revert errs. induction vs as [|v vs IH]; intros errs; simpl.
  { split; [by intros [es ?]|]. intros ([|??] & ? & ? & ? & _); simplify_eq. }
  destruct (nv_Validator v token) as [c|e] eqn:E.
  - split.
    + intros [es ?]. simplify_eq. exists [], v, vs. by repeat split.
    + intros ([|x b] & nv & a & ? & <- & Hn & Hb); simplify_eq/=.
      * rewrite E in Hn. simplify_eq. eauto.
      * apply Forall_cons in Hb as [Hb _]. by rewrite E in Hb.
  - rewrite IH. split.
    + intros (b & nv & a & -> & ? & ? & Hb). exists (v :: b), nv, a. repeat split; try done.
      constructor; [by rewrite E|done].
    + intros ([|x b] & nv & a & ? & ? & Hn & Hb); simplify_eq/=; [by rewrite E in Hn|].
      apply Forall_cons in Hb as [_ Hb]. eauto 10.
Qed.

Lemma validate_loop_cases vs token errs :
  (exists es name cs, validate_loop vs token errs =
     {| vr_Provider := name; vr_Error := None; vr_Errors := es; vr_Claims := cs |}) \/
  (vr_Error (validate_loop vs token errs) = Some errAllProvidersFailed /\
   Forall (fun v => is_ok (nv_Validator v token) = false) vs /\
   List.length (vr_Errors (validate_loop vs token errs)) = (List.length errs + List.length vs)%nat).
Proof.
  revert errs. induction vs as [|v vs IH]; intros errs; simpl; [right; split_and!; try done; lia|].
  destruct (nv_Validator v token) as [c|e] eqn:E; [left; eauto|].
  destruct (IH (errs ++ [{| pe_Provider := nv_Name v; pe_Error := e |}])) as [?|(?&?&Hl)]; [by left|].
  right. split_and!; [done| |].
  - constructor; [by rewrite E|done].
  - rewrite Hl, length_app. simpl. lia.
Qed.

(** Sequential fallback: validation succeeds with the claims of the
    first provider that accepts the token, every provider before it having
    refused; it fails exactly when all providers refuse, and then reports one
    error per provider. *)
Lemma validateToken_first m token :
  (forall name cs,
     (vr_Error (validateToken m token) = None /\ vr_Provider (validateToken m token) = name /\
      vr_Claims (validateToken m token) = cs) <->
     exists before nv after, mp_validators m = before ++ nv :: after /\ nv_Name nv = name /\
       nv_Validator nv token = Ok cs /\
       Forall (fun v => is_ok (nv_Validator v token) = false) before) /\
  (vr_Error (validateToken m token) <> None ->
     List.length (vr_Errors (validateToken m token)) = List.length (mp_validators m)).
Proof.
  unfold validateToken. split.
  - intros name cs. rewrite <-(validate_loop_ok _ _ []). split; [|intros [es ->]; done].
    destruct (validate_loop _ _ _) as [p e es c]. simpl. intros (-> & -> & ->). eauto.
  - destruct (validate_loop_cases (mp_validators m) token []) as [(es & n & c & ->)|(_ & _ & ->)]; done.
Qed.

Lemma not_elem_of_to_bytes c s : bool_decide (c ∉ to_bytes s) = true -> c ∉ to_bytes s.
Proof. apply bool_decide_eq_true. Qed.

Lemma quoted_no_break c name v :
  c <> quote -> c ∉ to_bytes name ++ to_bytes "=" -> c ∉ v -> c ∉ quoted name v.
Proof. unfold quoted. set_solver. Qed.

(** No configured realm or resource URL can break the 401 challenge out
    of its header line. *)
Lemma writeError_single_line m errCode description :
  errCode = errorCodeInvalidRequest \/ errCode = errorCodeInvalidToken ->
  CR ∉ www_authenticate m errCode description /\ LF ∉ www_authenticate m errCode description.
Proof.
  intros Hc.
  assert (H : forall c, c = CR \/ c = LF -> c ∉ www_authenticate m errCode description).
  { intros c Hb.
    assert (Hs : forall s, c ∉ sanitizeHeaderValue s).
    { intros s. pose proof (sanitize_no_break s). naive_solver. }
    assert (Hq : c <> quote) by (destruct Hb; subst; by vm_compute).
    assert (Hlit : forall s, existsb (fun x => Ascii.eqb x CR || Ascii.eqb x LF) (to_bytes s) = false ->
                   c ∉ to_bytes s).
    { intros s E Hin. apply not_true_iff_false in E. apply E, existsb_true_iff. exists c.
      rewrite orb_true_iff, !Ascii.eqb_eq. done. }
    unfold www_authenticate. case_match; rewrite !not_elem_of_app; split_and!;
      repeat apply quoted_no_break; rewrite ?not_elem_of_app; split_and?; auto;
      apply Hlit; destruct Hc as [->| ->]; by vm_compute. }
  split; apply H; auto.
Qed.

End Bearer.
Export Bearer.

Lemma writeError_single_line_witness :
  let m := {| mp_validators := []; mp_resourceURL := ""; mp_realm := of_bytes (LF :: to_bytes "X-Evil: 1") |} in
  CR ∉ www_authenticate m errorCodeInvalidToken "d" /\ LF ∉ www_authenticate m errorCodeInvalidToken "d".
Proof. apply writeError_single_line. by right. Defined.

(** ** [authz_middleware.go], [server.go], [me.go] *)
Module Authz.

(** The one-time warning is not modelled. *)
Definition ResolveRolesMiddleware {P W} (authzCfg : option AuthzConfig) (next : Handler P W) : Handler P W :=
  match authzCfg with
  | None => fun r h =>
      match ClaimsFromContext (r_ctx r) with
      | Some _ => next (WithContext r (ContextWithRoles (r_ctx r) AllRoles)) h
      | None => next r h
      end
  | Some _ => fun r h =>
      match ClaimsFromContext (r_ctx r) with
      | None => next r h
      | Some cs =>
          let roles := ResolveRoles (Some cs) authzCfg in
          next (WithContext r (ContextWithRoles (r_ctx r) roles)) h
      end
  end.

Definition RequireRole {P W} (role : Role) (authzCfg : option AuthzConfig) (next : Handler P W) : Handler P W :=
  match authzCfg with
  | None => next
  | Some _ => fun r h =>
      match ClaimsFromContext (r_ctx r) with
      | None => next r h
      | Some _ =>
          let roles := RolesFromContext (r_ctx r) in
          if negb (HasRole roles role)
          then (WriteErrorResponse "forbidden: insufficient permissions" StatusForbidden, h)
          else next r h
      end
  end.

(** [getMe] *)
Definition getMe {P W} : Handler P W := fun r h =>
  match ClaimsFromContext (r_ctx r) with
  | None => (WriteErrorResponse "authentication required" StatusUnauthorized, h)
  | Some cs =>
      let '(subject, _) := IdentityFromClaims (Some cs) in
      let roles := RolesFromContext (r_ctx r) in
      ({| rs_status := StatusOK; rs_headers := [json_header];
          rs_body := BMe subject (role_string <$> roles) |}, h)
  end.

(** [LoggingMiddleware]: the fields of the access-log line that depend on the
    chain. *)
Inductive logLevel := LevelInfo | LevelWarn | LevelError.
Record AccessLog := { al_level : logLevel; al_status : Z; al_sub : string; al_user : string }.

Definition LoggingMiddleware {P W} (next : Handler P W) (r : Request) (w : W) : Response P * AccessLog * W :=
  let r := WithContext r (WithIdentityHolder (r_ctx r)) in
  let '(resp, (h, w)) := next r (fresh_holder, w) in
  let status := rs_status resp in
  let level := if (500 <=? status)%Z then LevelError
               else if (400 <=? status)%Z then LevelWarn else LevelInfo in
  let '(sub, user) := IdentityFromContext (r_ctx r) h in
  let sub := if String.eqb sub "" then AnonymousSubject else sub in
  (resp, {| al_level := level; al_status := status; al_sub := sub; al_user := user |}, w).

(** ** The chain of [buildHTTPServer] in front of a role-protected route *)
Section Chain.
Context (ExtractBearerToken : Request -> result string).
Context (m : multiProviderMiddleware) (publicPaths : list string).
Context (authzCfg : option AuthzConfig) (role : Role).

Definition protected {P W} (next : Handler P W) : Handler P W :=
  WrapWithPublicPaths (Middleware ExtractBearerToken m) publicPaths
    (ResolveRolesMiddleware authzCfg (RequireRole role authzCfg next)).

(** The claims the request authenticates with, if it does. *)
Definition authenticated (r : Request) : option (option claims) :=
  match ExtractBearerToken r with
  | Err _ => None
  | Ok token => match vr_Error (validateToken m token) with
                | Some _ => None
                | None => Some (vr_Claims (validateToken m token))
                end
  end.

Definition with_identity (r : Request) (cs : claims) (roles : list Role) : Request :=
  WithContext r (ContextWithRoles (ContextWithClaims (r_ctx r) (Some cs)) roles).

Definition publish {W} (r : Request) (cs : claims) (h : identityHolder * W) : identityHolder * W :=
  (SetIdentity (r_ctx r) (fst (IdentityFromClaims (Some cs))) (snd (IdentityFromClaims (Some cs))) (fst h), snd h).

(** A validator that accepts a token returns a non-nil map: what toolhive's
    validator and the SSO validator do. *)
Definition never_nil : Prop :=
  forall v token cs, v ∈ mp_validators m -> nv_Validator v token = Ok cs -> cs <> None.

Lemma authenticated_non_nil r cs : never_nil -> authenticated r = Some cs -> cs <> None.
Proof.
  unfold authenticated, validateToken. intros Hn. destruct (ExtractBearerToken r) as [t|]; [|done].
  destruct (validate_loop_cases (mp_validators m) t []) as [(es & n & c & E)|(E & _)];
    rewrite E; simpl; [|done].
  intros ?. simplify_eq.
  destruct (proj1 (validate_loop_ok (mp_validators m) t [] n cs)) as (b & nv & a & Hm & _ & Hv & _); [eauto|].
  apply (Hn nv t); [rewrite Hm; set_solver|done].
Qed.

Lemma protected_not_public {P W} (next : Handler P W) r h :
  IsPublicPath (r_path r) publicPaths = false ->
  protected next r h =
    Middleware ExtractBearerToken m (ResolveRolesMiddleware authzCfg (RequireRole role authzCfg next)) r h.
Proof. intros H. unfold protected, WrapWithPublicPaths. by rewrite H. Qed.

(** Complete mediation: off the public paths, a role-protected handler
    runs only on a request some provider authenticated, with exactly the claims
    of that provider and the roles they resolve to, holding the role; every
    other request gets 401 (not authenticated, nothing published to the access
    log) or 403 (role missing) without the handler running. *)
Lemma protected_mediates {P W} az (next : Handler P W) r h :
  never_nil -> authzCfg = Some az -> IsPublicPath (r_path r) publicPaths = false ->
  match authenticated r with
  | None => rs_status (fst (protected next r h)) = StatusUnauthorized /\ snd (protected next r h) = h
  | Some cs =>
      exists c, cs = Some c /\
        let roles := ResolveRoles (Some c) authzCfg in
        if HasRole roles role
        then protected next r h = next (with_identity r c roles) (publish r c h)
        else rs_status (fst (protected next r h)) = StatusForbidden /\
             snd (protected next r h) = publish r c h
  end.
Proof.
  intros Hn Haz Hp. rewrite protected_not_public by done.
  destruct (authenticated r) as [cs|] eqn:Ea.
  - destruct cs as [c|]; [|by apply authenticated_non_nil in Ea]. exists c. split; [done|].
    unfold authenticated in Ea. unfold Middleware. destruct (ExtractBearerToken r) as [t|]; [|done].
    destruct (validateToken m t) as [n e es cs]; simpl in *. destruct e; simplify_eq/=.
    unfold publish. destruct (IdentityFromClaims (Some c)) as [sub user]. simpl.
    unfold ResolveRolesMiddleware, RequireRole. simpl. destruct (HasRole _ role); simpl; by repeat split.
  - unfold authenticated in Ea. unfold Middleware. destruct (ExtractBearerToken r) as [t|]; [|done].
    by destruct (vr_Error _).
Qed.

(** The access log names who was let in: for a request that passes
    authentication the line carries the [sub] claim of the accepting provider
    (or "anonymous" when that is empty), whatever the inner handler answers;
    for a refused request it says "anonymous". *)
Lemma access_log_subject {P W} (next : Handler P W) r w :
  IsPublicPath (r_path r) publicPaths = false ->
  ctx_claims (r_ctx r) = None ->
  (forall r' h', fst (snd (next r' h')) = fst h') ->
  al_sub (snd (fst (LoggingMiddleware (WrapWithPublicPaths (Middleware ExtractBearerToken m) publicPaths next) r w))) =
  match authenticated (WithContext r (WithIdentityHolder (r_ctx r))) with
  | Some (Some c) => if String.eqb (claimString c "sub") "" then AnonymousSubject else claimString c "sub"
  | _ => AnonymousSubject
  end.
Proof.
  intros Hp Hc Hnext. unfold LoggingMiddleware, WrapWithPublicPaths, authenticated.
  cbn [r_path WithContext]. rewrite Hp. cbn [negb]. unfold Middleware.
  destruct (ExtractBearerToken _) as [t|e].
  - destruct (validateToken m t) as [n [e|] es cs]; simpl.
    { unfold IdentityFromContext. simpl. unfold ClaimsFromContext. simpl. by rewrite Hc. }
    destruct (IdentityFromClaims cs) as [sub user] eqn:Ei. simpl.
    match goal with |- context [next ?a ?b] => specialize (Hnext a b); destruct (next a b) as [resp [h' w']] end.
    simpl in Hnext. subst h'. simpl. unfold IdentityFromContext. simpl.
    unfold IdentityFromClaims in Ei. destruct cs as [c|]; [|by simplify_eq].
    by repeat (case_match; simplify_eq/=).
  - unfold IdentityFromContext. simpl. unfold ClaimsFromContext. simpl. by rewrite Hc.
Qed.

End Chain.
End Authz.
Export Authz.

(** ** [sso_validator.go]

    The HTTP exchange and the decoding of the response envelope are
    parameters; the envelope is what [json.Unmarshal] finds in the fields of
    [ssoCheckResponse]. *)
Module Sso.

Record ssoCheckResponse := { sso_ErrorCode : string; sso_ErrorMsg : string; sso_Data : string }.

Section Sso.
(* the reply of the endpoint at a URL to a GET with the token as its
   accesstoken header: a status and a body, or a transport error *)
Context (http_get : string -> string -> result (Z * bytes)).
Context (json_Unmarshal_check : bytes -> result ssoCheckResponse).

(** [io.LimitReader(resp.Body, 64<<10)] *)
Definition body_limit : nat := 64 * 1024.

Definition sso_ValidateToken (checkURL issuer : string) (token : string) : result (option claims) :=
  if String.eqb token "" then Err (EMsg "sso: empty token")
  else
    reply <- http_get checkURL token ;;
    let '(status, full) := reply in
    if negb (status =? 200)%Z then Err (EMsg "sso: check endpoint returned status %d")
    else
      let body := take body_limit full in
      parsed <- json_Unmarshal_check body ;;
      if negb (String.eqb (sso_ErrorCode parsed) "0")
      then Err (EMsg "sso: token rejected (errorCode=%s errorMsg=%s)")
      else if String.eqb (sso_Data parsed) ""
      then Err (EMsg "sso: token accepted but response carries no subject (data field empty)")
      else Ok (Some (list_to_map [("iss", VString issuer); ("sub", VString (sso_Data parsed));
                                  ("preferred_username", VString (sso_Data parsed))])).

(** The SSO validator accepts only a non-empty token the endpoint answers
    with status 200, error code 0 and a subject; the accepted claims are never
    nil, carry that subject, and identify the caller by it. *)
Lemma sso_ValidateToken_ok checkURL issuer token cs :
  sso_ValidateToken checkURL issuer token = Ok cs <->
  token <> "" /\
  exists full resp, http_get checkURL token = Ok (200%Z, full) /\
    json_Unmarshal_check (take body_limit full) = Ok resp /\
    sso_ErrorCode resp = "0" /\ sso_Data resp <> "" /\
    exists c, cs = Some c /\ IdentityFromClaims cs = (sso_Data resp, sso_Data resp) /\
      c = {[ "iss" := VString issuer; "sub" := VString (sso_Data resp);
             "preferred_username" := VString (sso_Data resp) ]}.
Proof.
  unfold sso_ValidateToken. destruct (String.eqb_spec token ""); [naive_solver|].
  rewrite bind_ok. split.
  - intros ([status full] & Hg & H). split; [done|].
    destruct (Z.eqb_spec status 200); [subst|done]. simpl in H. apply bind_ok in H as (resp & Hu & H).
    destruct (String.eqb_spec (sso_ErrorCode resp) "0"); [|done]. simpl in H.
    destruct (String.eqb_spec (sso_Data resp) ""); [done|]. simplify_eq.
    exists full, resp. split_and!; try done. eexists. split_and!; [done| |done].
    unfold IdentityFromClaims, claimString. simplify_map_eq.
    by destruct (String.eqb_spec (sso_Data resp) "").
  - intros (_ & full & resp & Hg & Hu & He & Hd & c & -> & _ & ->). exists (200%Z, full).
    split; [done|]. simpl. rewrite Hu. unfold rbind. rewrite He. simpl.
    by destruct (String.eqb_spec (sso_Data resp) "").
Qed.

End Sso.
End Sso.
Export Sso.

(** ** A concrete chain *)
Module AuthExample.

Definition extract (r : Request) : result string :=
  if HasPrefix (r_authorization r) "Bearer " then Ok (TrimPrefix (r_authorization r) "Bearer ")
  else Err (EMsg "missing bearer token").

Definition alice : claims := {[ "sub" := VString "alice"; "team" := VString "platform" ]}.

Definition mw : multiProviderMiddleware :=
  {| mp_validators :=
       [ {| nv_Name := "down"; nv_Validator := fun _ => Err (EMsg "unreachable") |};
         {| nv_Name := "corp"; nv_Validator := fun t =>
              if String.eqb t "t-alice" then Ok (Some alice) else Err (EMsg "bad token") |} ];
     mp_resourceURL := ""; mp_realm := defaultRealm |}.

Definition az : AuthzConfig :=
  {| az_Roles := {| rc_SuperAdmin := []; rc_ManageSources := [ {[ "team" := VString "platform" ]} ];
                    rc_ManageRegistries := []; rc_ManageEntries := [] |} |}.

Definition req : Request :=
  {| r_method := "GET"; r_path := "/v1/sources"; r_rawPath := ""; r_authorization := "Bearer t-alice"; r_param := fun _ => "";
     r_query := fun _ => ""; r_header := fun _ => ""; r_remote := "10.0.0.1:4000"; r_body := whole "";
     r_ctx := {| ctx_claims := None; ctx_roles := []; ctx_holder := false |} |}.

Definition ok_handler : Handler unit unit := fun _ h =>
  ({| rs_status := 200; rs_headers := []; rs_body := BNone |}, h).
Definition start : identityHolder * unit := (fresh_holder, ()).

Lemma mw_never_nil : never_nil mw.
Proof.
  intros v t cs Hv. repeat (apply elem_of_cons in Hv as [->|Hv]); simpl.
  - done.
  - case_match; naive_solver.
  - by apply not_elem_of_nil in Hv.
Qed.

Lemma protected_mediates_witness :
  authenticated extract mw req = Some (Some alice) /\
  match authenticated extract mw req with
  | None => True
  | Some cs =>
      exists c, cs = Some c /\
        let roles := ResolveRoles (Some c) (Some az) in
        if HasRole roles RoleManageSources
        then protected extract mw ["/openapi.json"] (Some az) RoleManageSources ok_handler req start
             = ok_handler (with_identity req c roles) (publish req c start)
        else rs_status (fst (protected extract mw ["/openapi.json"] (Some az) RoleManageSources
                               ok_handler req start)) = StatusForbidden /\
             snd (protected extract mw ["/openapi.json"] (Some az) RoleManageSources
                    ok_handler req start) = publish req c start
  end.
Proof.
  split; [by vm_compute|].
  refine (protected_mediates extract mw ["/openapi.json"] (Some az) RoleManageSources az
            ok_handler req start mw_never_nil eq_refl _).
  by vm_compute.
Defined.

Lemma access_log_subject_witness :
  al_sub (snd (fst (LoggingMiddleware (WrapWithPublicPaths (Middleware extract mw) ["/openapi.json"] ok_handler) req ())))
  = "alice".
Proof.
  refine (access_log_subject extract mw ["/openapi.json"] ok_handler req () _ eq_refl _).
  - by vm_compute.
  - done.
Defined.

End AuthExample.
