(* ===== verification/AuditLog.v ===== *)
(** * The audit log

    [internal/audit]: the wrappers of [context.go] that annotate a route, the
    two middlewares of [middleware.go] and the helpers of [audit.go].  The log
    is the list of events written, oldest first; the shared audit library only
    carries the fields.  The fields the clock and the response writer fill in
    (duration, response size, request id) are not kept.  The carrier in the
    request's context and the log are part of the world the handlers act on. *)

From stdpp Require Import base list strings gmap sets.
From Stdlib Require Import String Ascii ZArith Lia.
From S2P Require Import Prelude GoStrings Claims Codec ConfigTypes Config Auth.

Local Open Scope string_scope.
Local Open Scope list_scope.

(** ** [audit.go] *)

Definition ComponentRegistryAPI : string := "toolhive-registry-api".

Definition ResourceTypeSource : string := "source".
Definition ResourceTypeRegistry : string := "registry".
Definition ResourceTypeEntry : string := "entry".
Definition ResourceTypeUser : string := "user".
Definition ResourceTypeServer : string := "server".
Definition ResourceTypeSkill : string := "skill".
Definition ResourceTypePlugin : string := "plugin".

Definition EventServerList : string := "server.list".
Definition EventServerVersionsList : string := "server.versions.list".
Definition EventServerVersionRead : string := "server.version.read".
Definition EventSkillList : string := "skill.list".
Definition EventSkillRead : string := "skill.read".
Definition EventSkillVersionsList : string := "skill.versions.list".
Definition EventSkillVersionRead : string := "skill.version.read".
Definition EventPluginList : string := "plugin.list".
Definition EventPluginRead : string := "plugin.read".
Definition EventPluginVersionsList : string := "plugin.versions.list".
Definition EventPluginVersionRead : string := "plugin.version.read".
Definition EventSourceCreate : string := "source.create".
Definition EventSourceUpdate : string := "source.update".
Definition EventSourceDelete : string := "source.delete".
Definition EventRegistryCreate : string := "registry.create".
Definition EventRegistryUpdate : string := "registry.update".
Definition EventRegistryDelete : string := "registry.delete".
Definition EventEntryPublish : string := "entry.publish".
Definition EventEntryDelete : string := "entry.delete".
Definition EventEntryClaims : string := "entry.claims.update".
Definition EventSourceList : string := "source.list".
Definition EventSourceRead : string := "source.read".
Definition EventSourceEntriesList : string := "source.entries.list".
Definition EventRegistryList : string := "registry.list".
Definition EventRegistryRead : string := "registry.read".
Definition EventRegistryEntriesList : string := "registry.entries.list".
Definition EventEntryClaimsRead : string := "entry.claims.read".
Definition EventUserInfo : string := "user.info".
Definition EventAuthUnauthenticated : string := "auth.unauthenticated".

(** The outcomes of the audit library. *)
Inductive Outcome := OutcomeSuccess | OutcomeDenied | OutcomeFailure | OutcomeError.

Definition OutcomeFromStatus (status : Z) : Outcome :=
  if ((200 <=? status) && (status <? 300))%Z then OutcomeSuccess
  else if (status =? StatusForbidden)%Z then OutcomeDenied
  else if ((400 <=? status) && (status <? 500))%Z then OutcomeFailure
  else OutcomeError.

Definition maxUserAgentLen : nat := 512.

(** [s[:n]] *)
Definition prefix_bytes (n : nat) (s : string) : string := of_bytes (take n (to_bytes s)).

Record EventSource := { es_Value : string; es_Extra : gmap string string }.

Definition SourceFromRequest (r : Request) : EventSource :=
  let xff := r_header r "X-Forwarded-For" in
  let ua := r_header r "User-Agent" in
  let extra := if String.eqb xff "" then ∅ else <["x_forwarded_for" := xff]> (∅ : gmap string string) in
  let ua := if (maxUserAgentLen <? len ua)%nat then prefix_bytes maxUserAgentLen ua else ua in
  let extra := if String.eqb (r_header r "User-Agent") "" then extra else <["user_agent" := ua]> extra in
  {| es_Value := r_remote r; es_Extra := extra |}.

(** ** [context.go] *)

Record RouteInfo := {
  ri_EventType : string;
  ri_OnCreate : string;
  ri_OnUpdate : string;
  ri_Target : gmap string string }.

Record AuditEvent := {
  ev_Type : string;
  ev_Source : EventSource;
  ev_Outcome : Outcome;
  ev_Subjects : gmap string string;
  ev_Component : string;
  ev_Target : gmap string string;
  ev_Data : option string }.

(** The carrier of the request at hand ([None] when no middleware installed
    one), the log, and the rest of the world. *)
Record Audit (W : Type) := {
  au_carrier : option (option RouteInfo);
  au_log : list AuditEvent;
  au_rest : W }.
Arguments au_carrier {_} _.
Arguments au_log {_} _.
Arguments au_rest {_} _.

Definition with_carrier {W} (c : option (option RouteInfo)) (a : Audit W) : Audit W :=
  {| au_carrier := c; au_log := au_log a; au_rest := au_rest a |}.
Definition log_event {W} (e : AuditEvent) (a : Audit W) : Audit W :=
  {| au_carrier := au_carrier a; au_log := au_log a ++ [e]; au_rest := au_rest a |}.
(** On the pair of the identity holder and the world. *)
Definition on_audit {W} (f : Audit W -> Audit W) (h : identityHolder * Audit W) : identityHolder * Audit W :=
  (fst h, f (snd h)).

Definition RouteInfoFromContext {W} (a : Audit W) : option RouteInfo :=
  match au_carrier a with Some info => info | None => None end.

Definition setRouteInfo {W} (info : RouteInfo) (a : Audit W) : Audit W :=
  match au_carrier a with
  | Some _ => with_carrier (Some (Some info)) a
  | None => a
  end.

(** [if v := ...; v != "" { target[key] = v }] *)
Definition target_with (key v : string) (t : gmap string string) : gmap string string :=
  if String.eqb v "" then t else <[key := v]> t.

Definition base_target (r : Request) : gmap string string :=
  <["path" := r_path r]> (<["method" := r_method r]> ∅).

Definition resource_target (resourceType nameParam : string) (r : Request) : gmap string string :=
  let target := target_with "resource_type" resourceType (base_target r) in
  if String.eqb nameParam "" then target else target_with "resource_name" (r_param r nameParam) target.

Section Wrappers.
Context {P W : Type}.
Implicit Types next : Handler P (Audit W).

Definition annotate (info : Request -> RouteInfo) next : Handler P (Audit W) :=
  fun r h => next r (on_audit (setRouteInfo (info r)) h).

Definition route_event (eventType : string) (target : gmap string string) : RouteInfo :=
  {| ri_EventType := eventType; ri_OnCreate := ""; ri_OnUpdate := ""; ri_Target := target |}.

Definition Audited (eventType resourceType nameParam : string) next : Handler P (Audit W) :=
  annotate (fun r => route_event eventType (resource_target resourceType nameParam r)) next.

Definition AuditedUpsert (onCreate onUpdate resourceType nameParam : string) next : Handler P (Audit W) :=
  annotate (fun r => {| ri_EventType := ""; ri_OnCreate := onCreate; ri_OnUpdate := onUpdate;
                        ri_Target := resource_target resourceType nameParam r |}) next.

Definition AuditedEntry (eventType : string) next : Handler P (Audit W) :=
  annotate (fun r => route_event eventType
    (target_with "version" (r_param r "version") (target_with "resource_name" (r_param r "name")
      (target_with "entry_type" (r_param r "type") (<["resource_type" := ResourceTypeEntry]> (base_target r)))))) next.

Definition AuditedServer (eventType : string) next : Handler P (Audit W) :=
  annotate (fun r => route_event eventType
    (target_with "version" (r_param r "version") (target_with "resource_name" (r_param r "serverName")
      (target_with "registry_name" (r_param r "registryName")
        (<["resource_type" := ResourceTypeServer]> (base_target r)))))) next.

Definition artifact_target (resourceType : string) (r : Request) : gmap string string :=
  target_with "version" (r_param r "version") (target_with "resource_name" (r_param r "name")
    (target_with "namespace" (r_param r "namespace") (target_with "registry_name" (r_param r "registryName")
      (<["resource_type" := resourceType]> (base_target r))))).

Definition AuditedSkill (eventType : string) next : Handler P (Audit W) :=
  annotate (fun r => route_event eventType (artifact_target ResourceTypeSkill r)) next.
Definition AuditedPlugin (eventType : string) next : Handler P (Audit W) :=
  annotate (fun r => route_event eventType (artifact_target ResourceTypePlugin r)) next.
End Wrappers.

(** ** [middleware.go] *)

(** [json.Valid], and [json.Marshal] of a string. *)
Class AuditJson := { json_Valid : string -> bool; json_Quote : string -> option string }.

Definition isMutating (method : string) : bool :=
  String.eqb method "POST" || String.eqb method "PUT" || String.eqb method "DELETE".

Definition isEventAllowed (eventType : string) (whitelist blacklist : list string) : bool :=
  if existsb (String.eqb eventType) blacklist then false
  else if (List.length whitelist =? 0)%nat then true
  else existsb (String.eqb eventType) whitelist.

Definition set_body (r : Request) (body : Reader) : Request :=
  {| r_method := r_method r; r_path := r_path r; r_rawPath := r_rawPath r; r_authorization := r_authorization r; r_param := r_param r;
     r_query := r_query r; r_header := r_header r; r_remote := r_remote r; r_body := body; r_ctx := r_ctx r |}.

(** At most [maxSize] bytes are taken off the body, which is put together again
    for the handlers; no bytes is nil.  A read error before them, which a limited
    reader sees only when the body has fewer, is also nil, and what was read is
    then not put back. *)
Definition captureRequestBody (r : Request) (maxSize : Z) : string * Request :=
  let body := r_body r in
  let buf := prefix_bytes (Z.to_nat maxSize) (rd_bytes body) in
  let rest := of_bytes (drop (Z.to_nat maxSize) (to_bytes (rd_bytes body))) in
  if rd_fails body && (len (rd_bytes body) <? Z.to_nat maxSize)%nat
  then ("", set_body r {| rd_bytes := rest; rd_fails := true |})
  else if (len buf =? 0)%nat then ("", r)
  else (buf, set_body r {| rd_bytes := buf ++ rest; rd_fails := rd_fails body |}).

Definition subjectsFromRequest (r : Request) : gmap string string :=
  match ClaimsFromContext (r_ctx r) with
  | None => {[ "identity" := "anonymous" ]}
  | Some cs =>
      let '(sub, user) := IdentityFromClaims (Some cs) in
      let subjects := if String.eqb sub "" then {[ "identity" := "anonymous" ]} else {[ "sub" := sub ]} in
      let subjects := target_with "user" user subjects in
      if IsSuperAdmin (r_ctx r) then <["role" := "super_admin"]> subjects else subjects
  end.

Section Middleware.
Context `{AJ : AuditJson} {P W : Type}.
Implicit Types next : Handler P (Audit W).

Definition event_data (reqBody : string) : option string :=
  if (0 <? len reqBody)%nat then
    if json_Valid reqBody then Some reqBody else json_Quote reqBody
  else None.

Definition emitEvent (r : Request) (status : Z) (eventType : string) (target : gmap string string) (reqBody : string)
    : AuditEvent :=
  {| ev_Type := eventType; ev_Source := SourceFromRequest r; ev_Outcome := OutcomeFromStatus status;
     ev_Subjects := subjectsFromRequest r; ev_Component := ComponentRegistryAPI; ev_Target := target;
     ev_Data := event_data reqBody |}.

Definition emitAuthFailureEvent (r : Request) : AuditEvent :=
  {| ev_Type := EventAuthUnauthenticated; ev_Source := SourceFromRequest r; ev_Outcome := OutcomeDenied;
     ev_Subjects := {[ "identity" := "unknown" ]}; ev_Component := ComponentRegistryAPI; ev_Target := base_target r;
     ev_Data := None |}.

Definition resolve_event (info : RouteInfo) (status : Z) : string :=
  if negb (String.eqb (ri_OnCreate info) "")
  then if (status =? 201)%Z then ri_OnCreate info else ri_OnUpdate info
  else ri_EventType info.

(** What is logged after the handler. *)
Definition after_request (cfg : AuditConfig) (r : Request) (reqBody : string) (resp : Response P) (a : Audit W) : Audit W :=
  match RouteInfoFromContext a with
  | None => a
  | Some info =>
      let eventType := resolve_event info (rs_status resp) in
      if String.eqb eventType "" then a
      else if negb (isEventAllowed eventType (aud_EventTypes cfg) (aud_ExcludeEventTypes cfg)) then a
      else log_event (emitEvent r (rs_status resp) eventType (ri_Target info) reqBody) a
  end.

Definition active (cfg : option AuditConfig) (logger : bool) : option AuditConfig :=
  match cfg with
  | Some c => if negb (aud_Enabled c) || negb logger then None else Some c
  | None => None
  end.

(** The carrier goes out of use with the request's context. *)
Definition AuditMiddleware (cfg : option AuditConfig) (logger : bool) next : Handler P (Audit W) :=
  match active cfg logger with
  | None => next
  | Some c => fun r h =>
      let '(reqBody, r) :=
        if aud_IncludeRequestData c && isMutating (r_method r)
        then captureRequestBody r (GetMaxDataSize (Some c)) else ("", r) in
      let '(resp, h') := next r (on_audit (with_carrier (Some None)) h) in
      (resp, on_audit (fun a => with_carrier (au_carrier (snd h)) (after_request c r reqBody resp a)) h')
  end.

Definition AuthFailureMiddleware (cfg : option AuditConfig) (logger : bool) next : Handler P (Audit W) :=
  match active cfg logger with
  | None => next
  | Some c => fun r h =>
      let '(resp, h') := next r h in
      (resp, if (rs_status resp =? StatusUnauthorized)%Z &&
                isEventAllowed EventAuthUnauthenticated (aud_EventTypes c) (aud_ExcludeEventTypes c)
             then on_audit (log_event (emitAuthFailureEvent r)) h' else h')
  end.
End Middleware.


(** ** What is logged *)

Lemma len_to_bytes s : len s = List.length (to_bytes s).
Proof. unfold len, to_bytes. induction s; cbn; congruence. Qed.

Lemma append_bytes a b : (of_bytes a ++ of_bytes b)%string = of_bytes (a ++ b).
Proof. unfold of_bytes. induction a as [|c a IH]; [done|]. simpl. by rewrite <-IH. Qed.

Lemma prefix_bytes_len n s : (len (prefix_bytes n s) <= n)%nat.
Proof. rewrite len_to_bytes. unfold prefix_bytes. rewrite to_of_bytes, length_take. lia. Qed.

(** Without a read error capturing does not change what the handlers read. *)
Lemma capture_transparent r n : rd_fails (r_body r) && (len (rd_bytes (r_body r)) <? Z.to_nat n)%nat = false ->
  captureRequestBody r n = (prefix_bytes (Z.to_nat n) (rd_bytes (r_body r)), r).
Proof.
  intros Hf. unfold captureRequestBody. rewrite Hf.
  destruct (Nat.eqb_spec (len (prefix_bytes (Z.to_nat n) (rd_bytes (r_body r)))) 0) as [E|_].
  - f_equal. by destruct (prefix_bytes _ _).
  - f_equal. unfold prefix_bytes. rewrite append_bytes, take_drop, of_to_bytes. by destruct r as [? ? ? ? ? ? ? ? []].
Qed.

Definition broken : Reader := {| rd_bytes := ""; rd_fails := true |}.
Lemma capture_lost r n : rd_fails (r_body r) && (len (rd_bytes (r_body r)) <? Z.to_nat n)%nat = true ->
  captureRequestBody r n = ("", set_body r broken).
Proof.
  intros Hf. unfold captureRequestBody. rewrite Hf. apply andb_true_iff in Hf as [_ Hn%Nat.ltb_lt].
  rewrite len_to_bytes in Hn. by rewrite drop_ge by lia.
Qed.

Section Logged.
Context `{AJ : AuditJson} {P W : Type}.

(** A handler that does not know of the log. *)
Definition unaware (k : Handler P W) : Handler P (Audit W) := fun r h =>
  let '(resp, (i, w)) := k r (fst h, au_rest (snd h)) in
  (resp, (i, {| au_carrier := au_carrier (snd h); au_log := au_log (snd h); au_rest := w |})).

(** Whether the audit reads the body, whether it fails doing so, what it keeps
    and the request the handlers get. *)
Definition collects (c : AuditConfig) (r : Request) : bool := aud_IncludeRequestData c && isMutating (r_method r).
Definition body_lost (c : AuditConfig) (r : Request) : bool :=
  collects c r && (rd_fails (r_body r) && (len (rd_bytes (r_body r)) <? Z.to_nat (GetMaxDataSize (Some c)))%nat).
Definition captured (c : AuditConfig) (r : Request) : string :=
  if collects c r && negb (body_lost c r)
  then prefix_bytes (Z.to_nat (GetMaxDataSize (Some c))) (rd_bytes (r_body r)) else "".
Definition handed (c : AuditConfig) (r : Request) : Request := if body_lost c r then set_body r broken else r.

(** The events a request of an annotated route is due. *)
Definition due (c : AuditConfig) (r : Request) (info : RouteInfo) (status : Z) : list AuditEvent :=
  let eventType := resolve_event info status in
  if negb (String.eqb eventType "") && isEventAllowed eventType (aud_EventTypes c) (aud_ExcludeEventTypes c)
  then [emitEvent r status eventType (ri_Target info) (captured c r)] else [].

Lemma audit_capture c r :
  (if aud_IncludeRequestData c && isMutating (r_method r) then captureRequestBody r (GetMaxDataSize (Some c)) else ("", r)) =
  (captured c r, handed c r).
Proof.
  unfold captured, handed, body_lost. fold (collects c r). destruct (collects c r); [|done]. cbn [andb].
  destruct (_ && _) eqn:E; cbn [negb]; [by apply capture_lost|by apply capture_transparent].
Qed.

(** Events do not show the body but through what was captured. *)
Lemma emit_handed c r st ty t b : emitEvent (handed c r) st ty t b = emitEvent r st ty t b.
Proof. unfold handed. by destruct (body_lost c r). Qed.
Lemma after_handed c r b (resp : Response P) (a : Audit W) : after_request c (handed c r) b resp a = after_request c r b resp a.
Proof. unfold after_request. destruct (RouteInfoFromContext a); [|done]. by rewrite emit_handed. Qed.

Lemma audit_active c (next : Handler P (Audit W)) r h : aud_Enabled c = true ->
  AuditMiddleware (Some c) true next r h =
  let '(resp, h') := next (handed c r) (on_audit (with_carrier (Some None)) h) in
  (resp, on_audit (fun a => with_carrier (au_carrier (snd h)) (after_request c r (captured c r) resp a)) h').
Proof.
  intros He. unfold AuditMiddleware, active. rewrite He. cbn -[captureRequestBody]. rewrite audit_capture.
  destruct (next _ _) as [resp h']. f_equal. unfold on_audit. by rewrite after_handed.
Qed.

(** The route annotated, the response of the handler untouched, the events due
    logged, in one equation. *)
Lemma audited_run c info (k : Handler P W) r i a : aud_Enabled c = true ->
  AuditMiddleware (Some c) true (annotate info (unaware k)) r (i, a) =
  let '(resp, (i', w)) := k (handed c r) (i, au_rest a) in
  (resp, (i', {| au_carrier := au_carrier a; au_log := au_log a ++ due c r (info (handed c r)) (rs_status resp); au_rest := w |})).
Proof.
  intros He. rewrite audit_active by done. unfold annotate, unaware, on_audit, setRouteInfo. cbn.
  destruct (k (handed c r) (i, au_rest a)) as [resp [i' w]]. cbn. unfold after_request, due, RouteInfoFromContext. cbn.
  destruct (String.eqb (resolve_event (info (handed c r)) (rs_status resp)) ""); cbn; [by rewrite app_nil_r|].
  by destruct (isEventAllowed _ _ _); cbn; rewrite ?app_nil_r.
Qed.

(** A handler that annotates nothing is not audited. *)
Lemma unannotated_run c (k : Handler P W) r i a : aud_Enabled c = true ->
  AuditMiddleware (Some c) true (unaware k) r (i, a) = unaware k (handed c r) (i, a).
Proof.
  intros He. rewrite audit_active by done. unfold unaware, on_audit. cbn.
  by destruct (k (handed c r) (i, au_rest a)) as [resp [i' w]].
Qed.

Lemma user_agent_bounded r ua : es_Extra (SourceFromRequest r) !! "user_agent" = Some ua -> (len ua <= maxUserAgentLen)%nat.
Proof.
  unfold SourceFromRequest. cbn [es_Extra]. destruct (String.eqb (r_header r "User-Agent") "").
  - destruct (String.eqb _ ""); [by rewrite lookup_empty|]. by rewrite lookup_insert_ne.
  - rewrite lookup_insert_eq. intros [= <-].
    destruct (Nat.ltb_spec maxUserAgentLen (len (r_header r "User-Agent"))); [apply prefix_bytes_len|done].
Qed.

Lemma accepted_size `{FS : FileSystem} cfg c : cfg_Audit cfg = Some c -> validateAudit cfg = Ok () ->
  (0 <= GetMaxDataSize (Some c) <= MaxAuditDataSize)%Z.
Proof.
  intros Hc Hv. unfold validateAudit in Hv. rewrite Hc in Hv.
  destruct (Z.ltb_spec (aud_MaxDataSize c) 0); [done|]. destruct (Z.ltb_spec MaxAuditDataSize (aud_MaxDataSize c)); [done|].
  unfold GetMaxDataSize. destruct (Z.leb_spec (aud_MaxDataSize c) 0); [|lia]. by vm_compute.
Qed.
Lemma bytes_split n s : exists rest, s = (prefix_bytes n s ++ rest)%string.
Proof. exists (of_bytes (drop n (to_bytes s))). unfold prefix_bytes. by rewrite append_bytes, take_drop, of_to_bytes. Qed.
Lemma prefix_bytes_exact n s : len (prefix_bytes n s) = (n `min` len s)%nat.
Proof. rewrite !len_to_bytes. unfold prefix_bytes. by rewrite to_of_bytes, length_take. Qed.

(** C25. The log is bounded per request: with an audit configuration that start-up
    accepts, one request of an annotated route adds at most one event.  Its data
    are there exactly when request data are configured, the method is POST, PUT or
    DELETE, and the part of the body to log is not empty and was read without an
    error; they are then the body up to the configured size, which is at most one
    mebibyte, as it is when that is valid JSON and quoted when it is not.  The
    user agent is cut at 512 bytes.  The answer is the handler's, which reads the
    whole body, except after a read error in the part to log: what was read then
    is lost and the handler sees only the error. *)
Theorem audit_bounded `{FS : FileSystem} cfg c info (k : Handler P W) r i a :
  cfg_Audit cfg = Some c -> validateAudit cfg = Ok () -> aud_Enabled c = true ->
  let size := GetMaxDataSize (Some c) in
  let reads := aud_IncludeRequestData c && isMutating (r_method r) in
  let failed := rd_fails (r_body r) && (Z.of_nat (len (rd_bytes (r_body r))) <? size)%Z in
  let seen := if reads && failed then set_body r {| rd_bytes := ""; rd_fails := true |} else r in
  let run := AuditMiddleware (Some c) true (annotate info (unaware k)) r (i, a) in
  fst run = fst (k seen (i, au_rest a)) /\ au_rest (snd (snd run)) = snd (snd (k seen (i, au_rest a))) /\
  exists events, au_log (snd (snd run)) = au_log a ++ events /\ (List.length events <= 1)%nat /\
    Forall (fun e =>
      (exists body rest, rd_bytes (r_body r) = (body ++ rest)%string /\ (Z.of_nat (len body) <= MaxAuditDataSize)%Z /\
         Z.of_nat (len body) = Z.min size (Z.of_nat (len (rd_bytes (r_body r)))) /\
         ev_Data e = (if reads && negb failed && negb (String.eqb body "")
                      then if json_Valid body then Some body else json_Quote body else None)) /\
      (forall ua, es_Extra (ev_Source e) !! "user_agent" = Some ua -> (len ua <= 512)%nat)) events.
Proof.
  intros Hc Hv He size reads failed seen run. pose proof (accepted_size cfg c Hc Hv) as Hmax. fold size in Hmax.
  assert (Hlost : body_lost c r = reads && failed).
  { unfold body_lost. f_equal. unfold failed. f_equal. fold size. apply eq_true_iff_eq. rewrite Nat.ltb_lt, Z.ltb_lt. lia. }
  assert (Hseen : seen = handed c r) by (unfold handed; by rewrite Hlost).
  unfold run. rewrite audited_run, <-Hseen by done. destruct (k seen (i, au_rest a)) as [resp [i' w]]. cbn [fst snd au_rest au_log].
  split; [done|]. split; [done|]. exists (due c r (info seen) (rs_status resp)). split; [done|]. unfold due.
  destruct (negb (String.eqb (resolve_event _ _) "") && _); [|by split; [cbn; lia|constructor]]. split; [cbn; lia|]. constructor; [|constructor].
  split; [|apply user_agent_bounded].
  destruct (bytes_split (Z.to_nat size) (rd_bytes (r_body r))) as [rest Hb].
  exists (prefix_bytes (Z.to_nat size) (rd_bytes (r_body r))), rest. rewrite prefix_bytes_exact. split_and!; [done|lia|lia|].
  cbn. unfold event_data, captured. rewrite Hlost. change (collects c r) with reads. fold size.
  destruct reads, failed; cbn [andb negb]; try done. by destruct (prefix_bytes _ _).
Qed.
End Logged.

(** ** A concrete request *)
Module AuditExample.
#[local] Instance no_files : FileSystem :=
  {| EvalSymlinks := fun _ => Err (EMsg ""); Stat := fun _ => Err (EMsg ""); ReadFile := fun _ => Err (EMsg "") |}.
#[local] Instance not_json : AuditJson := {| json_Valid := fun _ => false; json_Quote := fun s => Some ("'" +:+ s) |}.

Definition small : AuditConfig :=
  {| aud_Enabled := true; aud_LogFile := ""; aud_EventTypes := []; aud_ExcludeEventTypes := [];
     aud_IncludeRequestData := true; aud_MaxDataSize := 4 |}.
Definition cfg : Config :=
  {| cfg_Sources := []; cfg_Registries := []; cfg_Database := None; cfg_Auth := None; cfg_Audit := Some small;
     cfg_insecureAllowHTTP := false; cfg_compressResponse := false; cfg_WatchNamespace := ""; cfg_LeaderElectionID := "" |}.
Definition req : Request :=
  {| r_method := "PUT"; r_path := "/v1/sources/a"; r_rawPath := ""; r_authorization := ""; r_param := fun _ => "a";
     r_query := fun _ => ""; r_header := fun _ => "agent"; r_remote := "10.0.0.1:4000"; r_body := whole "a long body";
     r_ctx := {| ctx_claims := None; ctx_roles := []; ctx_holder := false |} |}.
Definition handler : Handler unit string := fun r h =>
  ({| rs_status := 201; rs_headers := []; rs_body := BNone |}, (fst h, rd_bytes (r_body r))).
Definition upsert (r : Request) : RouteInfo :=
  {| ri_EventType := ""; ri_OnCreate := "source.create"; ri_OnUpdate := "source.update"; ri_Target := ∅ |}.
Definition start : Audit string := {| au_carrier := None; au_log := []; au_rest := "" |}.

Definition run := AuditMiddleware (Some small) true (annotate upsert (unaware handler)) req (fresh_holder, start).

(** The handler read the whole body, four bytes of it are logged. *)
Lemma audit_bounded_witness :
  au_rest (snd (snd run)) = "a long body" /\ (ev_Data <$> au_log (snd (snd run))) = [Some "'a lo"] /\
  exists events, au_log (snd (snd run)) = events /\ (List.length events <= 1)%nat.
Proof.
  split; [by vm_compute|]. split; [by vm_compute|].
  destruct (audit_bounded cfg small upsert handler req fresh_holder start eq_refl eq_refl eq_refl) as (_ & _ & events & H & Hl & _).
  exists events. split; [exact H|exact Hl].
Defined.

(** With a read error after two bytes the handler gets nothing at all. *)
Example capture_loses_body : rd_bytes (r_body (snd (captureRequestBody (set_body req {| rd_bytes := "ab"; rd_fails := true |}) 4))) = "".
Proof. by vm_compute. Qed.
End AuditExample.
