(* ===== verification/ClaimsGate.v ===== *)
(** * The claim gate and the claim filter

    [internal/service/db/claims_filter.go]: the gate that admits a caller to
    one resource ([validateClaimsWith] and its two instances), the filter that
    thins lists ([newClaimsFilterWith], [checkClaims]) and the consistency check
    between a new version of an entry and its stored claims
    ([checkClaimConsistency]).  Claims at rest are JSON text, read and written
    through the codec interface of [Codec]. *)

From stdpp Require Import base list strings gmap sets.
From Stdlib Require Import String Lia.
From S2P Require Import Prelude GoStrings Claims Codec Auth.

Local Open Scope string_scope.

Section Gate.
Context `{C : JsonCodec}.

(** ** Write path *)

Definition unmarshal (what : string) (b : string) : result claims :=
  match json_Unmarshal b with
  | Some c => Ok c
  | None => Err (EMsg what)
  end.

Definition claims_mismatch : error := EWrap ErrClaimsMismatch "claims do not match existing entry".

(** A nil or empty [[]byte] is the empty string. *)
Definition checkClaimConsistency (incomingJSON existingJSON : string) : result () :=
  let incomingEmpty := String.eqb incomingJSON "" in
  let existingEmpty := String.eqb existingJSON "" in
  if incomingEmpty && existingEmpty then Ok ()
  else if xorb incomingEmpty existingEmpty then Err claims_mismatch
  else
    incoming <- unmarshal "failed to unmarshal incoming claims" incomingJSON ;;
    existing <- unmarshal "failed to unmarshal existing claims" existingJSON ;;
    if negb (claimsEqual incoming existing) then Err claims_mismatch else Ok ().

(** A nil map of resource claims has length 0, like the empty map. *)
Definition validateClaimsWith (ctx : Ctx) (callerClaims : option claims) (resourceClaims : claims)
    (matches : claims -> claims -> bool) : result () :=
  match callerClaims with
  | None => Ok ()
  | Some caller =>
      if IsSuperAdmin ctx then Ok ()
      else if (size resourceClaims =? 0)%nat
      then Err (EWrap ErrClaimsInsufficient "resource has no claims")
      else if negb (matches caller resourceClaims)
      then Err (EWrap ErrClaimsInsufficient "caller claims do not cover resource claims")
      else Ok ()
  end.

Definition validateClaimsSubset (ctx : Ctx) (callerClaims : option claims) (resourceClaims : claims)
    : result () := validateClaimsWith ctx callerClaims resourceClaims claimsContain.

Definition validateClaimsVisible (ctx : Ctx) (callerClaims : option claims) (resourceClaims : claims)
    : result () := validateClaimsWith ctx callerClaims resourceClaims claimsVisible.

Definition validateClaimsVisibleBytes (ctx : Ctx) (callerClaims : option claims)
    (resourceClaimsJSON : string) : result () :=
  match callerClaims with
  | None => Ok ()
  | Some _ => validateClaimsVisible ctx callerClaims (DeserializeClaims resourceClaimsJSON)
  end.

Definition claimsFromCtx (ctx : Ctx) : option claims := ClaimsFromContext ctx.

(** ** Read path *)

(** [service.RecordFilter]; nil is [None]. *)
Definition RecordFilter (R : Type) : Type := option (R -> result bool).

(** [marshalClaims]; nil is [None]. *)
Definition marshalClaims (callerClaims : option claims) : option string :=
  match callerClaims with
  | None => None
  | Some c => if (size c =? 0)%nat then None else json_Marshal c
  end.

Definition checkClaims (callerJSON recordJSON : string) : bool :=
  if String.eqb callerJSON "" || String.eqb recordJSON "" then false
  else match json_Unmarshal callerJSON with
       | None => false
       | Some caller =>
           match json_Unmarshal recordJSON with
           | None => false
           | Some record => claimsVisible caller record
           end
       end.

Definition newClaimsFilterWith {R} (ctx : Ctx) (callerClaims : option claims)
    (extract : R -> option string) : RecordFilter R :=
  match marshalClaims callerClaims with
  | None => None
  | Some callerJSON =>
      if IsSuperAdmin ctx then None
      else Some (fun record =>
        match extract record with
        | None => Err (EMsg "unexpected record type: %T")
        | Some recordJSON => Ok (checkClaims callerJSON recordJSON)
        end)
  end.

(** ** The gate's decision table *)

Lemma validateClaimsWith_ok ctx caller resource m :
  validateClaimsWith ctx caller resource m = Ok () <->
  caller = None \/ IsSuperAdmin ctx = true \/
  exists c, caller = Some c /\ resource <> ∅ /\ m c resource = true.
Proof.
  unfold validateClaimsWith. destruct caller as [c|]; [|naive_solver].
  destruct (IsSuperAdmin ctx); [naive_solver|].
  destruct (Nat.eqb_spec (size resource) 0) as [E|E]; rewrite map_size_empty_iff in E.
  - split; [done|]. by intros [?|[?|(? & ? & ? & ?)]].
  - destruct (m c resource) eqn:Em; simpl; (split; [|try done]).
    + intros _. right; right. eauto.
    + done.
    + intros [?|[?|(c' & ? & ? & ?)]]; congruence.
Qed.

(** A refusal is always [ErrClaimsInsufficient]. *)
Lemma validateClaimsWith_err ctx caller resource m e :
  validateClaimsWith ctx caller resource m = Err e -> errorIs e ErrClaimsInsufficient = true.
Proof. unfold validateClaimsWith. intros H. by repeat (case_match; simplify_eq/=). Qed.

(** ** Gate and filter *)
Context `{!JsonLaws C}.

Definition keeps {R} (f : RecordFilter R) (r : R) : Prop :=
  match f with None => True | Some p => p r = Ok true end.

(** The shapes of stored claims on which gate and filter part: a JSON text
    that decodes to no claims at all, "{}" or "null". *)
Definition empty_object (recordJSON : string) : Prop :=
  recordJSON <> "" /\ json_Unmarshal recordJSON = Some ∅.

Lemma visible_empty c : claimsVisible c ∅ = true.
Proof. apply claimsVisible_spec. intros k rv Hk. by rewrite lookup_empty in Hk. Qed.

Lemma checkClaims_caller caller b recordJSON :
  json_Marshal caller = Some b -> utf8_text caller ->
  checkClaims b recordJSON = true <->
  recordJSON <> "" /\ exists record, json_Unmarshal recordJSON = Some record /\
    claimsVisible caller record = true.
Proof.
  intros Hb Hu. destruct (marshal_strings caller b Hb Hu) as (c' & Hc' & Hs).
  pose proof (marshal_nonempty caller b Hb) as Hne. unfold checkClaims.
  destruct (String.eqb_spec b ""); [done|]. rewrite Hc'. simpl.
  destruct (String.eqb_spec recordJSON ""); [naive_solver|].
  destruct (json_Unmarshal recordJSON) as [r|]; [|naive_solver].
  rewrite (claimsVisible_proper _ _ Hs _ _ eq_refl). naive_solver.
Qed.

(** C27. For a caller with claims, the list filter keeps a record exactly when
    the single-resource gate admits the caller to it, or the record's stored
    claims decode to the empty map: the gate denies such a record by default
    and the list shows it. *)
Theorem filter_agrees_with_gate ctx caller recordJSON :
  caller <> ∅ -> utf8_text caller -> is_Some (json_Marshal caller) ->
  keeps (newClaimsFilterWith ctx (Some caller) (fun r => Some r)) recordJSON <->
  validateClaimsVisibleBytes ctx (Some caller) recordJSON = Ok () \/ empty_object recordJSON.
Proof.
  intros Hne Hu [b Hb]. unfold keeps, newClaimsFilterWith, marshalClaims.
  destruct (Nat.eqb_spec (size caller) 0) as [E|_]; [by apply map_size_empty_iff in E|].
  rewrite Hb. unfold validateClaimsVisibleBytes, validateClaimsVisible.
  rewrite validateClaimsWith_ok. destruct (IsSuperAdmin ctx); [naive_solver|].
  transitivity (checkClaims b recordJSON = true); [split; congruence|].
  rewrite (checkClaims_caller caller b) by done.
  unfold DeserializeClaims, empty_object.
  destruct (String.eqb_spec recordJSON ""); [naive_solver|].
  destruct (json_Unmarshal recordJSON) as [r|]; simpl; [|naive_solver].
  destruct (decide (r = ∅)) as [->|Hr].
  - split; [by right|]. intros _. split; [done|]. exists ∅. split; [done|]. apply visible_empty.
  - naive_solver.
Qed.

(** A caller with an empty, non-nil claims map is not filtered, while the gate
    denies it every resource with claims it cannot name. *)
Lemma empty_caller_unfiltered ctx recordJSON :
  IsSuperAdmin ctx = false ->
  keeps (newClaimsFilterWith ctx (Some ∅) (fun r => Some r)) recordJSON /\
  (forall k v, isValidClaimValue v = true -> json_Unmarshal recordJSON = Some {[ k := v ]} ->
     validateClaimsVisibleBytes ctx (Some ∅) recordJSON <> Ok ()).
Proof.
  intros Hsa. split; [done|]. intros k v Hv Hr.
  unfold validateClaimsVisibleBytes, validateClaimsVisible. rewrite validateClaimsWith_ok, Hsa.
  intros [?|[?|(c & ? & Hne & Hm)]]; simplify_eq.
  unfold DeserializeClaims in Hm, Hne. destruct (String.eqb recordJSON ""); [done|].
  rewrite Hr in Hm. apply claimsVisible_spec in Hm. simpl in Hm.
  destruct (Hm k v) as (_ & cv & Hc & _); [by rewrite lookup_singleton_eq|].
  by rewrite lookup_empty in Hc.
Qed.

Lemma normalize_value_valid v : isValidClaimValue (normalize_value v) = isValidClaimValue v.
Proof.
  destruct v; simpl; try done. apply forallb_true_iff. by intros x (s & -> & ?)%list_elem_of_fmap.
Qed.

Lemma claimsContain_record c r : claimsContain c (normalize r) = claimsContain c r.
Proof.
  apply bool_eq_iff. rewrite !claimsContain_spec. unfold covers, normalize.
  split; intros H k rv Hk.
  - specialize (H k (normalize_value rv)). rewrite lookup_fmap, Hk in H.
    by rewrite normalize_value_valid, normalize_set in H; apply H.
  - rewrite lookup_fmap in Hk. apply fmap_Some in Hk as (x & Hx & ->).
    rewrite normalize_value_valid, normalize_set. by apply H.
Qed.

Lemma claimsEqual_normalize a b : claimsEqual (normalize a) (normalize b) = claimsEqual a b.
Proof.
  unfold claimsEqual. rewrite !claimsContain_record.
  by rewrite (claimsContain_proper _ _ (normalize_same_strings a) _ _ eq_refl),
             (claimsContain_proper _ _ (normalize_same_strings b) _ _ eq_refl).
Qed.

(** What [SerializeClaims] leaves in the column. *)
Lemma SerializeClaims_cases c :
  storable c ->
  c = ∅ /\ SerializeClaims (Some c) = "" \/
  c <> ∅ /\ SerializeClaims (Some c) <> "" /\
    json_Unmarshal (SerializeClaims (Some c)) = Some (normalize c).
Proof.
  intros Hs. unfold SerializeClaims. destruct (Nat.eqb_spec (size c) 0) as [E|E];
    rewrite map_size_empty_iff in E; [by left|right].
  destruct (marshal_unmarshal c Hs) as (b & Hb & Hu). rewrite Hb. simpl.
  eauto using marshal_nonempty.
Qed.

Lemma claimsEqual_empty a : claimsEqual a ∅ = true <-> a = ∅.
Proof.
  unfold claimsEqual. rewrite andb_true_iff, !claimsContain_spec. unfold covers. split.
  - intros [_ H]. apply map_eq. intros k. rewrite lookup_empty.
    destruct (a !! k) as [v|] eqn:E; [|done]. destruct (H k v E) as (_ & cv & Hc & _).
    by rewrite lookup_empty in Hc.
  - intros ->. split; intros k rv Hk; by rewrite lookup_empty in Hk.
Qed.

Lemma claimsEqual_sym a b : claimsEqual a b = claimsEqual b a.
Proof. unfold claimsEqual. apply andb_comm. Qed.

(** A later version of an entry is accepted with the entry's stored
    claims and with no others: on columns written from storable claims, the
    check passes exactly when the two claim maps are equal. *)
Lemma checkClaimConsistency_serialized a b :
  storable a -> storable b ->
  checkClaimConsistency (SerializeClaims (Some a)) (SerializeClaims (Some b)) = Ok () <->
  claimsEqual a b = true.
Proof.
  intros Ha Hb. unfold checkClaimConsistency.
  destruct (SerializeClaims_cases a Ha) as [[-> ->]|(Ea & Hna & Hua)],
           (SerializeClaims_cases b Hb) as [[-> ->]|(Eb & Hnb & Hub)].
  - by rewrite claimsEqual_empty.
  - rewrite (proj2 (String.eqb_neq _ _) Hnb), claimsEqual_sym, claimsEqual_empty. naive_solver.
  - rewrite (proj2 (String.eqb_neq _ _) Hna), claimsEqual_empty. naive_solver.
  - rewrite (proj2 (String.eqb_neq _ _) Hna), (proj2 (String.eqb_neq _ _) Hnb). cbn [andb xorb].
    unfold unmarshal. rewrite Hua, Hub. unfold rbind.
    rewrite claimsEqual_normalize. by destruct (claimsEqual a b).
Qed.

End Gate.

(** ** Witnesses, on the concrete codec *)
Section Witnesses.
#[local] Existing Instance ClaimsJson.laws.
Let caller : claims := {[ "team" := VStrings ["eng"; "ops"] ]}.

Lemma caller_storable : storable caller.
Proof.
  split.
  - intros k v Hv. apply lookup_singleton_Some in Hv as [<- <-]. reflexivity.
  - intros k v Hv. apply lookup_singleton_Some in Hv as [<- <-]. split; [reflexivity|].
    repeat constructor.
Qed.

Definition anonymous_ctx : Ctx := {| ctx_claims := None; ctx_roles := []; ctx_holder := false |}.

Lemma filter_agrees_with_gate_witness :
  keeps (newClaimsFilterWith (C := ClaimsJson.codec) anonymous_ctx
           (Some {[ "team" := VStrings ["eng"; "ops"] ]}) (fun r => Some r)) "{}" /\
  validateClaimsVisibleBytes (C := ClaimsJson.codec) anonymous_ctx
    (Some {[ "team" := VStrings ["eng"; "ops"] ]}) "{}" <> Ok ().
Proof.
  split; [|vm_compute; discriminate].
  refine (proj2 (filter_agrees_with_gate (C := ClaimsJson.codec) anonymous_ctx
            {[ "team" := VStrings ["eng"; "ops"] ]} "{}" _ _ _) _).
  - apply map_non_empty_singleton.
  - apply caller_storable.
  - vm_compute. eexists. reflexivity.
  - right. split; [discriminate|reflexivity].
Defined.

Lemma checkClaimConsistency_serialized_witness :
  checkClaimConsistency (C := ClaimsJson.codec)
    (SerializeClaims (C := ClaimsJson.codec) (Some {[ "team" := VStrings ["eng"; "ops"] ]}))
    (SerializeClaims (C := ClaimsJson.codec) (Some {[ "team" := VStrings ["eng"; "ops"] ]})) = Ok ().
Proof.
  apply (checkClaimConsistency_serialized (C := ClaimsJson.codec)).
  - apply caller_storable.
  - apply caller_storable.
  - vm_compute. reflexivity.
Defined.
End Witnesses.
