(* ===== verification/Upstream.v ===== *)
(** * Upstream data

    The fields the program reads from the structures of the MCP registry
    packages ([upstreamv0.ServerJSON], [model.Package], [toolhivetypes.Skill],
    ...), which come from third-party modules, and the tag extraction of
    [internal/registry/tags.go].  A [map[string]any] met in metadata is the
    list of its pairs in iteration order. *)

From stdpp Require Import base list strings gmap sets.
From Stdlib Require Import String ZArith.
From S2P Require Import Prelude Claims.

Local Open Scope string_scope.
Local Open Scope list_scope.

Record Repository := {
  rp_URL : string; rp_Source : string; rp_ID : string; rp_Subfolder : string }.

(** [model.KeyValueInput] and [model.Argument], as the JSON objects they are
    stored as. *)
Record KeyValueInput := { kv_Name : string; kv_Value : string; kv_rest : list (string * any) }.
Record Argument := { arg_Name : string; arg_rest : list (string * any) }.

Record Transport := { tr_Type : string; tr_URL : string; tr_Headers : list KeyValueInput }.

Record Package := {
  pk_RegistryType : string;
  pk_RegistryBaseURL : string;
  pk_Identifier : string;
  pk_Version : string;
  pk_FileSHA256 : string;
  pk_RunTimeHint : string;
  pk_Transport : Transport;
  pk_RuntimeArguments : list Argument;
  pk_PackageArguments : list Argument;
  pk_EnvironmentVariables : list KeyValueInput }.

Record Icon := { ic_Src : string; ic_MimeType : option string; ic_Theme : option string }.

Record ServerMeta := { sm_PublisherProvided : list (string * any) }.

Record ServerJSON := {
  sj_Schema : string;
  sj_Name : string;
  sj_Description : string;
  sj_Title : string;
  sj_Version : string;
  sj_WebsiteURL : string;
  sj_Repository : option Repository;
  sj_Packages : list Package;
  sj_Remotes : list Transport;
  sj_Icons : list Icon;
  sj_Meta : option ServerMeta }.

Record ArtifactRepository := { ap_URL : string; ap_Type : string }.
Record ArtifactIcon := { ai_Src : string; ai_Size : string; ai_Type : string; ai_Label : string }.
Record ArtifactPackage := {
  pg_RegistryType : string;
  pg_Identifier : string;
  pg_Digest : string;
  pg_MediaType : string;
  pg_URL : string;
  pg_Ref : string;
  pg_Commit : string;
  pg_Subfolder : string }.

(** The fields [toolhivetypes.Skill] and [toolhivetypes.Plugin] share; a nil map
    is [None]. *)
Record Item := {
  it_Namespace : string;
  it_Name : string;
  it_Version : string;
  it_Title : string;
  it_Description : string;
  it_Status : string;
  it_License : string;
  it_Repository : option ArtifactRepository;
  it_Icons : list ArtifactIcon;
  it_Packages : list ArtifactPackage;
  it_Metadata : option claims;
  it_Meta : option claims }.

Record Skill := { sk_item : Item; sk_Compatibility : string; sk_AllowedTools : list string }.
Record Plugin := { pl_item : Item }.
Definition sk_Namespace (s : Skill) : string := it_Namespace (sk_item s).
Definition sk_Name (s : Skill) : string := it_Name (sk_item s).
Definition pl_Namespace (p : Plugin) : string := it_Namespace (pl_item p).
Definition pl_Name (p : Plugin) : string := it_Name (pl_item p).

Record UpstreamRegistry := {
  ur_Schema : string;
  ur_Version : string;
  ur_LastUpdated : string;
  ur_Servers : list ServerJSON;
  ur_Skills : list Skill;
  ur_Plugins : list Plugin }.

(** ** [registry.ExtractTags] *)

(** [m[key]] on a map given by its pairs. *)
Definition map_get (key : string) (m : list (string * any)) : option any :=
  snd <$> List.find (fun kv => String.eqb (fst kv) key) m.

Definition metadata_tags (metadatas : any) : list string :=
  match metadatas with
  | VMap metadatasMap =>
      match map_get "tags" metadatasMap with
      | Some (VSlice tags) => slice_strings tags
      | _ => []
      end
  | _ => []
  end.

Definition ExtractTags (server : ServerJSON) : list string :=
  match sj_Meta server with
  | None => []
  | Some meta =>
      sm_PublisherProvided meta ≫= fun kv =>
        match snd kv with
        | VMap metadataMap => metadataMap ≫= fun kv' => metadata_tags (snd kv')
        | _ => []
        end
  end.

(** A tag of a server: a string of a "tags" array two maps deep in the
    publisher metadata.  The order in which Go visits the maps plays no part. *)
Definition has_tag (server : ServerJSON) (t : string) : Prop :=
  exists meta k outer k' inner tags,
    sj_Meta server = Some meta /\
    (k, VMap outer) ∈ sm_PublisherProvided meta /\
    (k', VMap inner) ∈ outer /\
    map_get "tags" inner = Some (VSlice tags) /\
    VString t ∈ tags.

Lemma elem_of_slice_strings t l : t ∈ slice_strings l <-> VString t ∈ l.
Proof.
  unfold slice_strings. rewrite list_elem_of_omap. split.
  - intros (v & Hv & E). destruct v; simplify_eq/=. done.
  - intros H. by exists (VString t).
Qed.

Lemma elem_of_ExtractTags server t : t ∈ ExtractTags server <-> has_tag server t.
Proof.
  unfold ExtractTags, has_tag. destruct (sj_Meta server) as [meta|].
  2:{ split; [by intros ?%not_elem_of_nil|]. by intros (? & ? & ? & ? & ? & ? & ? & _). }
  rewrite list_elem_of_bind. split.
  - intros ([k v] & Ht & Hk). destruct v as [| | | | | |outer]; try by apply not_elem_of_nil in Ht.
    apply list_elem_of_bind in Ht as ([k' v'] & Ht & Hk'). unfold metadata_tags in Ht.
    destruct v' as [| | | | | |inner]; try by apply not_elem_of_nil in Ht.
    simpl in Ht. destruct (map_get "tags" inner) as [[| | | | |tags|]|] eqn:E;
      try by apply not_elem_of_nil in Ht.
    apply elem_of_slice_strings in Ht. by exists meta, k, outer, k', inner, tags.
  - intros (meta' & k & outer & k' & inner & tags & ? & Hk & Hk' & E & Ht). simplify_eq.
    exists (k, VMap outer). split; [|done]. apply list_elem_of_bind. exists (k', VMap inner).
    split; [|done]. simpl. rewrite E. by apply elem_of_slice_strings.
Qed.
