(* ===== verification/Filtering.v ===== *)
(** * Filtering of synced data

    [internal/filtering]: the name filter (glob patterns), the tag filter and
    the filter service that thins the servers, skills and plugins of a fetched
    registry.  Pattern validity is Go's [filepath.Match] syntax; the matcher
    itself, [github.com/gobwas/glob], is a parameter. *)

From stdpp Require Import base list strings sets.
From Stdlib Require Import Ascii String NArith Lia.
From S2P Require Import Prelude GoStrings Claims Codec ConfigTypes Upstream.

Local Open Scope string_scope.
Local Open Scope list_scope.

(** ** Pattern syntax of [filepath.Match]

    [Match] reports [ErrBadPattern] exactly when the pattern is malformed,
    whatever the name it is tried on. *)
Module Pattern.

(** [utf8.DecodeRuneInString]: the width of the first rune; [None] for an
    invalid encoding. *)
Definition rune_width (l : bytes) : option nat :=
  match l with
  | [] => None
  | a :: l1 =>
      if between 0 127 a then Some 1%nat
      else match l1 with
      | b :: l2 =>
          if between 194 223 a then (if cont b then Some 2%nat else None)
          else match l2 with
          | c :: l3 =>
              if between 224 239 a then
                if (if between 224 224 a then between 160 191 b
                    else if between 237 237 a then between 128 159 b
                    else cont b) && cont c then Some 3%nat else None
              else match l3 with
              | d :: _ =>
                  if between 240 244 a &&
                     (if between 240 240 a then between 144 191 b
                      else if between 244 244 a then between 128 143 b
                      else cont b) && cont c && cont d then Some 4%nat else None
              | [] => None
              end
          | [] => None
          end
      | [] => None
      end
  end.

(** [getEsc]: one possibly escaped character of a class; [None] is
    [ErrBadPattern]. *)
Definition getEsc (chunk : bytes) : option bytes :=
  match chunk with
  | [] => None
  | c :: rest =>
      if Ascii.eqb c "-" || Ascii.eqb c "]" then None
      else
        let chunk := if Ascii.eqb c "\" then rest else chunk in
        match chunk with
        | [] => None
        | _ =>
            match rune_width chunk with
            | None => None
            | Some n => match drop n chunk with [] => None | r => Some r end
            end
        end
  end.

(** The ranges of a class, up to and past its closing bracket. *)
Fixpoint class_end (fuel : nat) (nrange : nat) (chunk : bytes) : option bytes :=
  match fuel with
  | O => None
  | S fuel' =>
      match chunk with
      | c :: rest =>
          if Ascii.eqb c "]" && (0 <? nrange)%nat then Some rest
          else
            chunk ← getEsc chunk;
            match chunk with
            | d :: rest' =>
                if Ascii.eqb d "-" then chunk ← getEsc rest'; class_end fuel' (S nrange) chunk
                else class_end fuel' (S nrange) chunk
            | [] => None
            end
      | [] => None
      end
  end.

Fixpoint well_formed (fuel : nat) (pattern : bytes) : bool :=
  match fuel with
  | O => false
  | S fuel' =>
      match pattern with
      | [] => true
      | c :: rest =>
          if Ascii.eqb c "[" then
            let rest := match rest with d :: r => if Ascii.eqb d "^" then r else rest | [] => rest end in
            match class_end (S (List.length rest)) 0 rest with
            | Some r => well_formed fuel' r
            | None => false
            end
          else if Ascii.eqb c "\" then
            match rest with [] => false | _ :: r => well_formed fuel' r end
          else well_formed fuel' rest
      end
  end.

(** [_, err := filepath.Match(pattern, ...); err != nil] *)
Definition bad_pattern (pattern : string) : bool :=
  negb (well_formed (S (String.length pattern)) (to_bytes pattern)).

Example patterns :
  bad_pattern <$> ["io.github.*/*"; "a[b-d]?"; "a[^b]\*"; "a["; "a[]b]"; "a[b-]"; "a\"; "[b"; "*[x"]
  = [false; false; false; true; true; true; true; true; true].
Proof. by vm_compute. Qed.

End Pattern.
Export Pattern.

(** ** Interfaces

    [NameFilter] and [TagFilter] as the service sees them: a decision and the
    reason that is logged. *)
Class NameFilter := { name_ShouldInclude : string -> list string -> list string -> bool * string }.
Class TagFilter := { tag_ShouldInclude : list string -> list string -> list string -> bool * string }.

Section Default.
(** [glob.Compile] with no separators: a matcher, or an error. *)
Context (glob_Compile : string -> result (string -> bool)).

Definition matchPattern (pattern name : string) : result bool :=
  if bad_pattern pattern then Err (EMsg "syntax error in pattern")
  else
    compiled <- (match glob_Compile pattern with
                 | Ok m => Ok m
                 | Err _ => Err (EMsg "invalid glob pattern: %v")
                 end) ;;
    Ok (compiled name).

(** The loop over the exclude patterns: [Some reason] stops with exclusion. *)
Fixpoint exclude_loop (name : string) (exclude : list string) : option string :=
  match exclude with
  | [] => None
  | pattern :: rest =>
      match matchPattern pattern name with
      | Err _ => Some "invalid exclude pattern '%s': %v"
      | Ok true => Some "excluded by pattern '%s'"
      | Ok false => exclude_loop name rest
      end
  end.

(** The loop over the include patterns: [Some] is its early return. *)
Fixpoint include_loop (name : string) (include : list string) : option (bool * string) :=
  match include with
  | [] => None
  | pattern :: rest =>
      match matchPattern pattern name with
      | Err _ => Some (false, "invalid include pattern '%s': %v")
      | Ok true => Some (true, "included by pattern '%s'")
      | Ok false => include_loop name rest
      end
  end.

Definition name_filter (name : string) (include exclude : list string) : bool * string :=
  match exclude_loop name exclude with
  | Some reason => (false, reason)
  | None =>
      if (0 <? List.length include)%nat then
        match include_loop name include with
        | Some r => r
        | None => (false, "no match found in include patterns %v")
        end
      else if (0 <? List.length exclude)%nat then (true, "no match in exclude patterns %v")
      else (true, "no name filters specified")
  end.

Definition tag_filter (tags include exclude : list string) : bool * string :=
  let hits l := existsb (fun serverTag => existsb (String.eqb serverTag) l) tags in
  if (0 <? List.length exclude)%nat && hits exclude then (false, "excluded by tag '%s'")
  else if (0 <? List.length include)%nat then
    if hits include then (true, "included by tag '%s'")
    else (false, "no matching tags found in include list %v (server tags: %v)")
  else if (0 <? List.length exclude)%nat then (true, "no matching tags in exclude list %v (server tags: %v)")
  else (true, "no tag filters specified").

#[export] Instance defaultNameFilter : NameFilter := {| name_ShouldInclude := name_filter |}.
#[export] Instance defaultTagFilter : TagFilter := {| tag_ShouldInclude := tag_filter |}.

(** *** What the default filters decide *)

Definition matches (name pattern : string) : Prop := matchPattern pattern name = Ok true.
Definition refused (name pattern : string) : Prop := matchPattern pattern name = Ok false.

(** The first include pattern that does not simply fail to match is a match:
    an invalid pattern before it would have stopped the scan. *)
Definition included (name : string) (include : list string) : Prop :=
  exists before p after, include = before ++ p :: after /\ Forall (refused name) before /\ matches name p.

Lemma exclude_loop_none name exclude :
  exclude_loop name exclude = None <-> Forall (refused name) exclude.
Proof.
  unfold refused. induction exclude as [|p ps IH]; simpl; [done|].
  rewrite Forall_cons, <-IH. destruct (matchPattern p name) as [[]|]; naive_solver.
Qed.

Lemma include_loop_true name include :
  (exists reason, include_loop name include = Some (true, reason)) <-> included name include.
Proof.
  unfold included, refused, matches. induction include as [|p ps IH]; simpl.
  { split; [by intros [??]|]. by intros ([|??] & ? & ? & ? & _). }
  destruct (matchPattern p name) as [[]|] eqn:E.
  - split; [|eauto]. intros _. by exists [], p, ps.
  - rewrite IH. split.
    + intros (b & q & a & -> & Hb & Hq). exists (p :: b), q, a. split_and!; [done|by constructor|done].
    + intros ([|x b] & q & a & ? & Hb & Hq); simplify_eq/=; [congruence|].
      apply Forall_cons in Hb as [_ Hb]. by exists b, q, a.
  - split; [by intros [??]|]. intros ([|x b] & q & a & ? & Hb & Hq); simplify_eq/=; [congruence|].
    apply Forall_cons in Hb as [Hb _]. congruence.
Qed.

(** The default name filter keeps a name exactly when every exclude
    pattern is valid and fails to match it and, if there are include patterns,
    one of them matches it with only valid, non-matching patterns before it:
    exclusion takes precedence and a malformed pattern never lets a name in. *)
Lemma name_filter_iff name include exclude :
  fst (name_filter name include exclude) = true <->
  Forall (refused name) exclude /\ (include = [] \/ included name include).
Proof.
  unfold name_filter. rewrite <-exclude_loop_none.
  destruct (exclude_loop name exclude); [naive_solver|].
  destruct include as [|p ps] eqn:Hi; rewrite <-?Hi.
  { simpl. destruct (0 <? List.length exclude)%nat; naive_solver. }
  replace (0 <? List.length include)%nat with true by (subst; done).
  rewrite <-include_loop_true.
  destruct (include_loop name include) as [[[] reason]|]; simpl; naive_solver.
Qed.

Lemma tag_hits_spec tags l :
  existsb (fun serverTag => existsb (String.eqb serverTag) l) tags = true <->
  exists t, t ∈ tags /\ t ∈ l.
Proof using Type.
  clear glob_Compile.
  rewrite existsb_true_iff. setoid_rewrite existsb_true_iff. setoid_rewrite String.eqb_eq. naive_solver.
Qed.

Lemma tag_filter_iff tags include exclude :
  fst (tag_filter tags include exclude) = true <->
  (forall t, t ∈ tags -> t ∉ exclude) /\ (include = [] \/ exists t, t ∈ tags /\ t ∈ include).
Proof using Type.
  clear glob_Compile. unfold tag_filter. rewrite <-tag_hits_spec.
  assert (Hx : (forall t, t ∈ tags -> t ∉ exclude) <->
    (0 <? List.length exclude)%nat && existsb (fun s => existsb (String.eqb s) exclude) tags = false).
  { rewrite <-not_true_iff_false, andb_true_iff, tag_hits_spec. split.
    - intros H [_ (t & ? & ?)]. naive_solver.
    - intros H t Ht Hin. apply H. split; [by destruct exclude; [set_solver|]|]. eauto. }
  rewrite Hx. destruct (_ && _); simpl; [naive_solver|].
  destruct include as [|i is_]; simpl Nat.ltb; cbv iota.
  - destruct (0 <? List.length exclude)%nat; naive_solver.
  - destruct (existsb _ tags); naive_solver.
Qed.

End Default.

(** ** The filter service *)
Section Service.
Context `{NameFilter, TagFilter}.

Definition Join (sep : string) (l : list string) : string := String.concat sep l.

Definition shouldIncludeServerWithReason (serverName : string) (serverTags : list string)
    (nameInclude nameExclude tagInclude tagExclude : list string) : bool * string :=
  let '(nameIncluded, nameReason) := name_ShouldInclude serverName nameInclude nameExclude in
  if negb nameIncluded then (false, ("name filter: " ++ nameReason)%string)
  else
    let '(tagIncluded, tagReason) := tag_ShouldInclude serverTags tagInclude tagExclude in
    if negb tagIncluded then (false, ("tag filter: " ++ tagReason)%string)
    else
      let inclusionReasons :=
        (if (0 <? List.length nameInclude)%nat || (0 <? List.length nameExclude)%nat
         then [("name filter: " ++ nameReason)%string] else []) ++
        (if (0 <? List.length tagInclude)%nat || (0 <? List.length tagExclude)%nat
         then [("tag filter: " ++ tagReason)%string] else []) in
      if (List.length inclusionReasons =? 0)%nat then (true, "no filters specified, default include")
      else (true, ("passed all filters: " ++ Join " AND " inclusionReasons)%string).

(** A loop that appends the elements it includes. *)
Definition filter_loop {A} (decide_ : A -> bool * string) (l : list A) : list A :=
  fold_left (fun acc x => if fst (decide_ x) then acc ++ [x] else acc) l [].

Definition ApplyFilters (reg : UpstreamRegistry) (filter : option FilterConfig) : UpstreamRegistry :=
  match filter with
  | None => reg
  | Some filter =>
      let nameInclude := default [] (nf_Include <$> flt_Names filter) in
      let nameExclude := default [] (nf_Exclude <$> flt_Names filter) in
      let tagInclude := default [] (tf_Include <$> flt_Tags filter) in
      let tagExclude := default [] (tf_Exclude <$> flt_Tags filter) in
      {| ur_Schema := ur_Schema reg;
         ur_Version := ur_Version reg;
         ur_LastUpdated := ur_LastUpdated reg;
         ur_Servers := filter_loop (fun server =>
           shouldIncludeServerWithReason (sj_Name server) (ExtractTags server)
             nameInclude nameExclude tagInclude tagExclude) (ur_Servers reg);
         ur_Skills := filter_loop (fun skill =>
           name_ShouldInclude (sk_Namespace skill ++ "/" ++ sk_Name skill)%string
             nameInclude nameExclude) (ur_Skills reg);
         ur_Plugins := filter_loop (fun plugin =>
           name_ShouldInclude (pl_Namespace plugin ++ "/" ++ pl_Name plugin)%string
             nameInclude nameExclude) (ur_Plugins reg) |}
  end.

Lemma elem_of_filter_bool {A} (p : A -> bool) l x : x ∈ List.filter p l <-> x ∈ l /\ p x = true.
Proof. rewrite !list_elem_of_In. apply filter_In. Qed.

Lemma filter_loop_spec {A} (d : A -> bool * string) l :
  filter_loop d l = List.filter (fun x => fst (d x)) l.
Proof.
  unfold filter_loop. rewrite <-(app_nil_l (List.filter _ _)). generalize (@nil A) at 2 3.
  induction l as [|x l IH]; intros acc; simpl; [by rewrite app_nil_r|].
  rewrite IH. destruct (fst (d x)); [|done]. by rewrite <-(assoc_L (++)).
Qed.

Lemma shouldInclude_fst n t ni ne ti te :
  fst (shouldIncludeServerWithReason n t ni ne ti te) =
  fst (name_ShouldInclude n ni ne) && fst (tag_ShouldInclude t ti te).
Proof.
  unfold shouldIncludeServerWithReason.
  destruct (name_ShouldInclude n ni ne) as [[] ?]; simpl; [|done].
  destruct (tag_ShouldInclude t ti te) as [[] ?]; simpl; [|done]. by case_match.
Qed.

End Service.

Section Correct.
Context (glob_Compile : string -> result (string -> bool)).
#[local] Existing Instance defaultTagFilter.

Definition filtered (reg : UpstreamRegistry) (f : FilterConfig) : UpstreamRegistry :=
  @ApplyFilters (defaultNameFilter glob_Compile) _ reg (Some f).

Definition name_passes (name : string) (f : FilterConfig) : Prop :=
  Forall (refused glob_Compile name) (default [] (nf_Exclude <$> flt_Names f)) /\
  (default [] (nf_Include <$> flt_Names f) = [] \/
   included glob_Compile name (default [] (nf_Include <$> flt_Names f))).

Definition tags_pass (server : ServerJSON) (f : FilterConfig) : Prop :=
  (forall t, has_tag server t -> t ∉ default [] (tf_Exclude <$> flt_Tags f)) /\
  (default [] (tf_Include <$> flt_Tags f) = [] \/
   exists t, has_tag server t /\ t ∈ default [] (tf_Include <$> flt_Tags f)).

(** C40. Filtering a registry keeps, in their order and with their
    multiplicity, exactly the servers whose name and tags pass and exactly the
    skills and plugins whose qualified name passes: each list is the filter of the
    old one by a test that is true of just these.  The metadata is unchanged.
    The decision depends on the set of tags only, so not on the order in which
    the metadata maps are visited. *)
Theorem ApplyFilters_correct reg f :
  (exists p, (forall s, p s = true <-> name_passes (sj_Name s) f /\ tags_pass s f) /\
     ur_Servers (filtered reg f) = List.filter p (ur_Servers reg)) /\
  (exists p, (forall s, p s = true <-> name_passes (sk_Namespace s ++ "/" ++ sk_Name s)%string f) /\
     ur_Skills (filtered reg f) = List.filter p (ur_Skills reg)) /\
  (exists p, (forall x, p x = true <-> name_passes (pl_Namespace x ++ "/" ++ pl_Name x)%string f) /\
     ur_Plugins (filtered reg f) = List.filter p (ur_Plugins reg)) /\
  ur_Schema (filtered reg f) = ur_Schema reg /\ ur_Version (filtered reg f) = ur_Version reg /\
  ur_LastUpdated (filtered reg f) = ur_LastUpdated reg.
Proof.
  unfold filtered, ApplyFilters. cbn [ur_Servers ur_Skills ur_Plugins]. rewrite !filter_loop_spec.
  split_and!; try done; (eexists; split; [intros x|reflexivity]).
  - cbv beta. rewrite shouldInclude_fst, andb_true_iff. cbn [name_ShouldInclude tag_ShouldInclude defaultNameFilter defaultTagFilter].
    rewrite name_filter_iff, tag_filter_iff. unfold name_passes, tags_pass.
    setoid_rewrite elem_of_ExtractTags. naive_solver.
  - apply name_filter_iff.
  - apply name_filter_iff.
Qed.
End Correct.
