(* ===== verification/Database.v ===== *)
(** * The database

    The tables of [database/migrations] the service reads and writes, the
    queries of [database/queries] as functions on them, and the monad in which
    the service runs queries and transactions.

    A table with a natural key is a finite map on that key, so its uniqueness
    constraint holds by construction and an insert that violates it is the
    unique-violation error; row ids ([gen_random_uuid()]) come from a counter,
    and [uuid.Nil] is 0.  Deletions cascade along the foreign keys.  Every
    query may fail for reasons of its own (a lost connection, a serialization
    failure): an oracle says which calls do and with what error. *)

From stdpp Require Import base list strings gmap sets sorting.
From Stdlib Require Import String ZArith Lia.
From S2P Require Import Prelude ConfigTypes.

Local Open Scope string_scope.
Local Open Scope list_scope.

(** ** Tables *)

Abbreviation uuid := nat.
Definition uuid_Nil : uuid := 0%nat.

Inductive EntryType := EntryTypeMCP | EntryTypeSKILL | EntryTypePLUGIN.
#[export] Instance EntryType_eq_dec : EqDecision EntryType.
Proof. solve_decision. Defined.
#[export] Instance EntryType_countable : Countable EntryType.
Proof.
  refine (inj_countable'
    (fun t => match t with EntryTypeMCP => 0%nat | EntryTypeSKILL => 1%nat | EntryTypePLUGIN => 2%nat end)
    (fun n => match n with 0%nat => EntryTypeMCP | 1%nat => EntryTypeSKILL | _ => EntryTypePLUGIN end) _).
  by intros [].
Defined.

Inductive CreationType := CreationTypeAPI | CreationTypeCONFIG.
#[export] Instance CreationType_eq_dec : EqDecision CreationType.
Proof. solve_decision. Defined.

Inductive IconTheme := IconThemeLIGHT | IconThemeDARK.
#[export] Instance IconTheme_eq_dec : EqDecision IconTheme.
Proof. solve_decision. Defined.
#[export] Instance IconTheme_countable : Countable IconTheme.
Proof.
  refine (inj_countable' (fun t => match t with IconThemeLIGHT => true | IconThemeDARK => false end)
    (fun b : bool => if b then IconThemeLIGHT else IconThemeDARK) _).
  by intros [].
Defined.

(** [source]; a JSONB column that is NULL is the empty string. *)
Record SourceRow := {
  so_id : uuid;
  so_creation_type : CreationType;
  so_source_type : SourceType;
  so_source_config : string;
  so_filter_config : string;
  so_sync_schedule : option Z;      (* nanoseconds *)
  so_syncable : bool;
  so_claims : string;
  so_created_at : Z }.

Record RegistryRow := {
  rg_id : uuid;
  rg_creation_type : CreationType;
  rg_claims : string }.

Record EntryRow := { en_id : uuid; en_claims : string }.

Record VersionRow := {
  ve_id : uuid;
  ve_name : string;
  ve_title : string;
  ve_description : string;
  ve_created : Z }.

Record ServerRow := {
  se_website : string;
  se_server_meta : string;
  se_repository : option (string * string * string * string) }. (* url, id, subfolder, type *)

Record PackageRow := {
  pa_registry_url : string;
  pa_version : string;
  pa_runtime_hint : string;
  pa_runtime_arguments : string;
  pa_package_arguments : string;
  pa_env_vars : string;
  pa_sha256 : string;
  pa_transport_url : string;
  pa_transport_headers : string }.

(** [skill] and [plugin]: the columns they share, with the rows of their
    package tables, which belong to one skill or plugin each. *)
Inductive ArtifactStatus := StatusACTIVE | StatusDEPRECATED | StatusARCHIVED.
#[export] Instance ArtifactStatus_eq_dec : EqDecision ArtifactStatus.
Proof. solve_decision. Defined.

Record OciRow := { oc_identifier : string; oc_digest : string; oc_media_type : string }.
Record GitRow := { gp_url : string; gp_ref : string; gp_commit : string; gp_subfolder : string }.

Record ArtifactRow := {
  ar_namespace : string;
  ar_status : ArtifactStatus;
  ar_license : string;
  ar_repository : string;
  ar_icons : string;
  ar_metadata : string;
  ar_extension_meta : string;
  ar_oci : list OciRow;
  ar_git : list GitRow }.

Record SkillRow := {
  sl_row : ArtifactRow;
  sl_compatibility : string;
  sl_allowed_tools : list string }.

(** [registry_sync]: times are nanoseconds, NULL is [None]. *)
Inductive SyncState := SyncStatusINPROGRESS | SyncStatusCOMPLETED | SyncStatusFAILED.
#[export] Instance SyncState_eq_dec : EqDecision SyncState.
Proof. solve_decision. Defined.

Record SyncRow := {
  sy_status : SyncState;
  sy_error_msg : option string;
  sy_started_at : option Z;
  sy_ended_at : option Z;
  sy_attempt_count : Z;
  sy_last_sync_hash : option string;
  sy_filter_hash : option string;
  sy_server_count : Z;
  sy_skill_count : Z;
  sy_plugin_count : Z }.

Record DB := {
  d_next : uuid;                                        (* next fresh id *)
  d_source : gmap string SourceRow;                     (* by name *)
  d_registry : gmap string RegistryRow;                 (* by name *)
  d_registry_source : gmap (uuid * uuid) Z;             (* (registry, source): position *)
  d_entry : gmap (uuid * EntryType * string) EntryRow;  (* by (source, type, name) *)
  d_version : gmap (uuid * string) VersionRow;          (* by (entry, version) *)
  d_latest : gmap (uuid * string) (string * uuid);      (* (source, name): version, version id *)
  d_server : gmap uuid ServerRow;                       (* by version id *)
  d_package : gmap (uuid * string * string * string) PackageRow;
                                (* (server, registry type, identifier, transport) *)
  d_remote : gmap (uuid * string * string) string;      (* (server, transport, url): headers *)
  d_icon : gmap (uuid * string * string * IconTheme) unit;
  d_sync : gmap uuid SyncRow;                           (* registry_sync, by source *)
  d_skill : gmap uuid SkillRow;                         (* by version id *)
  d_plugin : gmap uuid ArtifactRow }.                   (* by version id *)

Definition set_next d x := {| d_next := x; d_source := d_source d; d_registry := d_registry d;
  d_registry_source := d_registry_source d; d_entry := d_entry d; d_version := d_version d;
  d_latest := d_latest d; d_server := d_server d; d_package := d_package d; d_remote := d_remote d;
  d_icon := d_icon d; d_sync := d_sync d; d_skill := d_skill d; d_plugin := d_plugin d |}.
Definition set_source d x := {| d_next := d_next d; d_source := x; d_registry := d_registry d;
  d_registry_source := d_registry_source d; d_entry := d_entry d; d_version := d_version d;
  d_latest := d_latest d; d_server := d_server d; d_package := d_package d; d_remote := d_remote d;
  d_icon := d_icon d; d_sync := d_sync d; d_skill := d_skill d; d_plugin := d_plugin d |}.
Definition set_registry d x := {| d_next := d_next d; d_source := d_source d; d_registry := x;
  d_registry_source := d_registry_source d; d_entry := d_entry d; d_version := d_version d;
  d_latest := d_latest d; d_server := d_server d; d_package := d_package d; d_remote := d_remote d;
  d_icon := d_icon d; d_sync := d_sync d; d_skill := d_skill d; d_plugin := d_plugin d |}.
Definition set_registry_source d x := {| d_next := d_next d; d_source := d_source d;
  d_registry := d_registry d; d_registry_source := x; d_entry := d_entry d;
  d_version := d_version d; d_latest := d_latest d; d_server := d_server d;
  d_package := d_package d; d_remote := d_remote d; d_icon := d_icon d; d_sync := d_sync d;
  d_skill := d_skill d; d_plugin := d_plugin d |}.
Definition set_entry d x := {| d_next := d_next d; d_source := d_source d;
  d_registry := d_registry d; d_registry_source := d_registry_source d; d_entry := x;
  d_version := d_version d; d_latest := d_latest d; d_server := d_server d;
  d_package := d_package d; d_remote := d_remote d; d_icon := d_icon d; d_sync := d_sync d;
  d_skill := d_skill d; d_plugin := d_plugin d |}.
Definition set_version d x := {| d_next := d_next d; d_source := d_source d;
  d_registry := d_registry d; d_registry_source := d_registry_source d; d_entry := d_entry d;
  d_version := x; d_latest := d_latest d; d_server := d_server d; d_package := d_package d;
  d_remote := d_remote d; d_icon := d_icon d; d_sync := d_sync d; d_skill := d_skill d;
  d_plugin := d_plugin d |}.
Definition set_latest d x := {| d_next := d_next d; d_source := d_source d;
  d_registry := d_registry d; d_registry_source := d_registry_source d; d_entry := d_entry d;
  d_version := d_version d; d_latest := x; d_server := d_server d; d_package := d_package d;
  d_remote := d_remote d; d_icon := d_icon d; d_sync := d_sync d; d_skill := d_skill d;
  d_plugin := d_plugin d |}.
Definition set_content d s p r i := {| d_next := d_next d; d_source := d_source d;
  d_registry := d_registry d; d_registry_source := d_registry_source d; d_entry := d_entry d;
  d_version := d_version d; d_latest := d_latest d; d_server := s; d_package := p; d_remote := r;
  d_icon := i; d_sync := d_sync d; d_skill := d_skill d; d_plugin := d_plugin d |}.
Definition set_sync d x := {| d_next := d_next d; d_source := d_source d;
  d_registry := d_registry d; d_registry_source := d_registry_source d; d_entry := d_entry d;
  d_version := d_version d; d_latest := d_latest d; d_server := d_server d;
  d_package := d_package d; d_remote := d_remote d; d_icon := d_icon d; d_sync := x;
  d_skill := d_skill d; d_plugin := d_plugin d |}.
Definition set_skill d x := {| d_next := d_next d; d_source := d_source d;
  d_registry := d_registry d; d_registry_source := d_registry_source d; d_entry := d_entry d;
  d_version := d_version d; d_latest := d_latest d; d_server := d_server d;
  d_package := d_package d; d_remote := d_remote d; d_icon := d_icon d; d_sync := d_sync d;
  d_skill := x; d_plugin := d_plugin d |}.
Definition set_plugin d x := {| d_next := d_next d; d_source := d_source d;
  d_registry := d_registry d; d_registry_source := d_registry_source d; d_entry := d_entry d;
  d_version := d_version d; d_latest := d_latest d; d_server := d_server d;
  d_package := d_package d; d_remote := d_remote d; d_icon := d_icon d; d_sync := d_sync d;
  d_skill := d_skill d; d_plugin := x |}.

(** ** The query monad *)

(** What can go wrong with any call: the connection, the context's deadline,
    or PostgreSQL refusing to serialize the transaction. *)
Inductive fault := FConn (msg : string) | FSerialization.
Definition fault_error (f : fault) : error :=
  match f with
  | FConn msg => EMsg msg
  | FSerialization => EWrap ErrPgSerialization "40001"
  end.

(** Which calls fail, and how: the oracle is consulted once per call. *)
Abbreviation Oracle := (nat -> option fault).

Lemma fault_no_rows f : errorIs (fault_error f) ErrNoRows = false.
Proof. by destruct f. Qed.
Lemma fault_no_unique f : errorIs (fault_error f) ErrPgUnique = false.
Proof. by destruct f. Qed.

Definition Q (A : Type) : Type := Oracle -> nat -> DB -> result A * nat * DB.

#[export] Instance Q_ret : MRet Q := fun A a o n d => (Ok a, n, d).
#[export] Instance Q_bind : MBind Q := fun A B f m o n d =>
  match m o n d with
  | (Ok a, n', d') => f a o n' d'
  | (Err e, n', d') => (Err e, n', d')
  end.

(** [return ..., err] *)
Definition fail {A} (e : error) : Q A := fun o n d => (Err e, n, d).
(** Lift a pure computation that may fail. *)
Definition lift {A} (r : result A) : Q A := fun o n d => (r, n, d).
(** Look at the error of a call instead of returning it. *)
Definition attempt {A} (m : Q A) : Q (result A) := fun o n d =>
  match m o n d with (r, n', d') => (Ok r, n', d') end.

(** [fmt.Errorf("...: %w", err)]: the sentinel inside stays visible. *)
Definition wrapf (msg : string) (e : error) : error :=
  match e with EWrap s _ => EWrap s msg | EMsg _ => EMsg msg end.
Definition wrapping {A} (msg : string) (m : Q A) : Q A := fun o n d =>
  match m o n d with
  | (Ok a, n', d') => (Ok a, n', d')
  | (Err e, n', d') => (Err (wrapf msg e), n', d')
  end.

(** One call to the database. *)
Definition query {A} (f : DB -> result (A * DB)) : Q A := fun o n d =>
  match o n with
  | Some e => (Err (fault_error e), S n, d)
  | None => match f d with
            | Ok (a, d') => (Ok a, S n, d')
            | Err e => (Err e, S n, d)
            end
  end.

(** A call that only reads. *)
Definition select {A} (f : DB -> result A) : Q A :=
  query (fun d => match f d with Ok a => Ok (a, d) | Err e => Err e end).

(** [BeginTx] (serializable), the body, [Commit], with the deferred
    [Rollback]: the body's writes are kept only if it and the commit succeed.
    The arguments say what becomes of an error of the first and the last call. *)
Definition transaction_gen {A} (begin_err commit_err : error -> error) (body : Q A) : Q A := fun o n d =>
  match o n with
  | Some e => (Err (begin_err (fault_error e)), S n, d)
  | None =>
      match body o (S n) d with
      | (Err e, n', _) => (Err e, n', d)
      | (Ok a, n', d') =>
          match o n' with
          | Some e => (Err (commit_err (fault_error e)), S n', d)
          | None => (Ok a, S n', d')
          end
      end
  end.

Definition transaction {A} : Q A -> Q A :=
  transaction_gen (wrapf "failed to begin transaction") (wrapf "failed to commit transaction").

(** A read-only transaction, always rolled back. *)
Definition read_transaction {A} (body : Q A) : Q A := fun o n d =>
  match o n with
  | Some e => (Err (wrapf "failed to begin transaction" (fault_error e)), S n, d)
  | None => match body o (S n) d with (r, n', _) => (r, n', d) end
  end.

(** A loop of calls over a slice. *)
Fixpoint for_each_q {A} (f : A -> Q ()) (l : list A) : Q () :=
  match l with
  | [] => mret ()
  | x :: l' => f x ≫= fun _ => for_each_q f l'
  end.

(** Failed transactions leave no trace. *)
Lemma transaction_gen_atomic {A} b c (body : Q A) o n d e n' d' :
  transaction_gen b c body o n d = (Err e, n', d') -> d' = d.
Proof. unfold transaction_gen. intros H. repeat case_match; congruence. Qed.

Lemma transaction_gen_ok {A} b c (body : Q A) o n d a n' d' :
  transaction_gen b c body o n d = (Ok a, n', d') -> exists n1 n2, body o n1 d = (Ok a, n2, d').
Proof. unfold transaction_gen. intros H. repeat case_match; simplify_eq; eauto. Qed.

Lemma transaction_atomic {A} (body : Q A) o n d e n' d' :
  transaction body o n d = (Err e, n', d') -> d' = d.
Proof. apply transaction_gen_atomic. Qed.

Lemma transaction_ok {A} (body : Q A) o n d a n' d' :
  transaction body o n d = (Ok a, n', d') -> exists n1 n2, body o n1 d = (Ok a, n2, d').
Proof. apply transaction_gen_ok. Qed.

Lemma read_transaction_ok {A} (body : Q A) o n d a n' d' :
  read_transaction body o n d = (Ok a, n', d') ->
  d' = d /\ exists n1 n2 d1, body o n1 d = (Ok a, n2, d1).
Proof. unfold read_transaction. intros H. repeat case_match; simplify_eq; eauto. Qed.

Lemma bind_run_ok {A B} (m : Q A) (f : A -> Q B) o n d b n' d' :
  (m ≫= f) o n d = (Ok b, n', d') <->
  exists a n1 d1, m o n d = (Ok a, n1, d1) /\ f a o n1 d1 = (Ok b, n', d').
Proof.
  unfold mbind, Q_bind. split.
  - destruct (m o n d) as [[[a|e] n1] d1]; [eauto 10|done].
  - by intros (a & n1 & d1 & -> & ?).
Qed.

Lemma query_run_ok {A} (f : DB -> result (A * DB)) o n d a n' d' :
  query f o n d = (Ok a, n', d') -> f d = Ok (a, d').
Proof. unfold query. intros H. repeat case_match; simplify_eq; done. Qed.

Lemma select_run_ok {A} (f : DB -> result A) o n d a n' d' :
  select f o n d = (Ok a, n', d') -> f d = Ok a /\ d' = d.
Proof. unfold select. intros H%query_run_ok. repeat case_match; simplify_eq; done. Qed.

Lemma wrapping_run_ok {A} msg (m : Q A) o n d a n' d' :
  wrapping msg m o n d = (Ok a, n', d') -> m o n d = (Ok a, n', d').
Proof. unfold wrapping. intros H. repeat case_match; simplify_eq; done. Qed.

Lemma attempt_run_ok {A} (m : Q A) o n d r n' d' :
  attempt m o n d = (Ok r, n', d') -> m o n d = (r, n', d').
Proof. unfold attempt. destruct (m o n d) as [[??]?]. naive_solver. Qed.

(** A call that found no row ran, and found none. *)
Lemma select_no_rows {A} (f : DB -> result A) o n d e n' d' :
  select f o n d = (Err e, n', d') -> errorIs e ErrNoRows = true -> f d = Err e /\ d' = d.
Proof.
  unfold select, query. intros H He. destruct (o n) as [ft|]; simplify_eq.
  - by rewrite fault_no_rows in He.
  - repeat case_match; by simplify_eq.
Qed.

Lemma select_run_any {A} (f : DB -> result A) o n d r n' d' :
  select f o n d = (r, n', d') -> d' = d.
Proof. unfold select, query. intros H. repeat case_match; simplify_eq; done. Qed.

(** ** Collation

    The order of text in [ORDER BY] is the database's; nothing here depends on
    more than its being a total order. *)
Class Collation := {
  coll_le : string -> string -> Prop;
  coll_dec :: RelDecision coll_le;
  coll_total :: Total coll_le;
  coll_trans :: Transitive coll_le;
  coll_anti :: AntiSymm (=) coll_le
}.

Definition no_rows : error := EWrap ErrNoRows "no rows in result set".
Definition unique_violation : error := EWrap ErrPgUnique "23505".

(** ** Queries on sources *)

(** GetManagedSources *)
Definition managed_sources (d : DB) : list (string * SourceRow) :=
  List.filter (fun '(_, s) => bool_decide (so_source_type s = SourceTypeManaged)) (map_to_list (d_source d)).
Definition GetManagedSources : Q (list (string * SourceRow)) := select (fun d => Ok (managed_sources d)).

Definition row_or_none {A} (o : option A) : result A :=
  match o with Some a => Ok a | None => Err no_rows end.

Definition GetRegistryByName (name : string) : Q RegistryRow :=
  select (fun d => row_or_none (d_registry d !! name)).
Definition GetSourceByName (name : string) : Q SourceRow :=
  select (fun d => row_or_none (d_source d !! name)).

(** ** Queries on entries *)

Definition GetRegistryEntryByName (sid : uuid) (ty : EntryType) (name : string) : Q EntryRow :=
  select (fun d => row_or_none (d_entry d !! (sid, ty, name))).

Definition InsertRegistryEntry (sid : uuid) (ty : EntryType) (name claims : string) : Q uuid :=
  query (fun d =>
    match d_entry d !! (sid, ty, name) with
    | Some _ => Err unique_violation
    | None =>
        let id := d_next d in
        let d := set_next d (S id) in
        Ok (id, set_entry d (<[(sid, ty, name) := {| en_id := id; en_claims := claims |}]> (d_entry d)))
    end).

Definition InsertEntryVersion (eid : uuid) (name version title description : string) (now : Z) : Q uuid :=
  query (fun d =>
    match d_version d !! (eid, version) with
    | Some _ => Err unique_violation
    | None =>
        let id := d_next d in
        let d := set_next d (S id) in
        Ok (id, set_version d (<[(eid, version) :=
          {| ve_id := id; ve_name := name; ve_title := title; ve_description := description;
             ve_created := now |}]> (d_version d)))
    end).

Definition InsertServerVersion (vid : uuid) (row : ServerRow) : Q uuid :=
  query (fun d =>
    match d_server d !! vid with
    | Some _ => Err unique_violation
    | None => Ok (vid, set_content d (<[vid := row]> (d_server d)) (d_package d) (d_remote d) (d_icon d))
    end).

Definition InsertServerPackage (vid : uuid) (rtype ident transport : string) (row : PackageRow) : Q () :=
  query (fun d =>
    match d_package d !! (vid, rtype, ident, transport) with
    | Some _ => Err unique_violation
    | None => Ok ((), set_content d (d_server d) (<[(vid, rtype, ident, transport) := row]> (d_package d))
                        (d_remote d) (d_icon d))
    end).

Definition InsertServerRemote (vid : uuid) (transport url headers : string) : Q () :=
  query (fun d =>
    match d_remote d !! (vid, transport, url) with
    | Some _ => Err unique_violation
    | None => Ok ((), set_content d (d_server d) (d_package d)
                        (<[(vid, transport, url) := headers]> (d_remote d)) (d_icon d))
    end).

Definition InsertServerIcon (vid : uuid) (uri mime : string) (theme : IconTheme) : Q () :=
  query (fun d =>
    match d_icon d !! (vid, uri, mime, theme) with
    | Some _ => Err unique_violation
    | None => Ok ((), set_content d (d_server d) (d_package d) (d_remote d)
                        (<[(vid, uri, mime, theme) := ()]> (d_icon d)))
    end).

Definition GetLatestEntryVersion (sid : uuid) (name : string) : Q string :=
  select (fun d => row_or_none (fst <$> d_latest d !! (sid, name))).

(** UpsertLatestServerVersion, and its twins for skills and plugins: the
    conflict key is (source_id, name). *)
Definition UpsertLatestVersion (sid : uuid) (name version : string) (vid : uuid) : Q uuid :=
  query (fun d => Ok (vid, set_latest d (<[(sid, name) := (version, vid)]> (d_latest d)))).

(** Removing version rows: ON DELETE CASCADE reaches the latest pointer, the
    server, skill or plugin row and, through it, its packages, remotes and
    icons. *)
Definition cascade_versions (dead : uuid -> bool) (d : DB) : DB :=
  let keep id := dead id = false in
  set_plugin (set_skill
    (set_content
      (set_latest
        (set_version d (filter (fun kv => keep (ve_id (snd kv))) (d_version d)))
        (filter (fun kv => keep (snd (snd kv))) (d_latest d)))
      (filter (fun kv => keep (fst kv)) (d_server d))
      (filter (fun kv => keep (fst (fst (fst (fst kv))))) (d_package d))
      (filter (fun kv => keep (fst (fst (fst kv)))) (d_remote d))
      (filter (fun kv => keep (fst (fst (fst (fst kv))))) (d_icon d)))
    (filter (fun kv => keep (fst kv)) (d_skill d)))
    (filter (fun kv => keep (fst kv)) (d_plugin d)).

Definition DeleteEntryVersion (eid : uuid) (version : string) : Q nat :=
  query (fun d =>
    match d_version d !! (eid, version) with
    | None => Ok (0%nat, d)
    | Some r => Ok (1%nat, cascade_versions (Nat.eqb (ve_id r)) d)
    end).

(** The versions of an entry. *)
Definition entry_versions (eid : uuid) (d : DB) : list (string * VersionRow) :=
  omap (fun '(k, r) => if (fst k =? eid)%nat then Some (snd k, r) else None) (map_to_list (d_version d)).

Definition CountEntryVersions (eid : uuid) : Q nat :=
  select (fun d => Ok (List.length (entry_versions eid d))).

Definition by_version `{Collation} {A} (a b : string * A) : Prop := coll_le (fst a) (fst b).
#[export] Instance by_version_dec `{Collation} {A} : RelDecision (@by_version _ A).
Proof. intros a b. apply coll_dec. Defined.

(** ORDER BY version ASC *)
Definition ListEntryVersions `{Collation} (eid : uuid) : Q (list (string * VersionRow)) :=
  select (fun d => Ok (merge_sort by_version (entry_versions eid d))).

(** DELETE FROM registry_entry WHERE id = $1, cascading to its versions. *)
Definition DeleteRegistryEntryByID (eid : uuid) : Q nat :=
  query (fun d =>
    let dead id := existsb (fun kv => (ve_id (snd kv) =? id)%nat) (entry_versions eid d) in
    let d' := cascade_versions dead d in
    let gone := filter (fun kv : (uuid * EntryType * string) * EntryRow => en_id (snd kv) = eid) (d_entry d) in
    Ok (size gone, set_entry d' (filter (fun kv => en_id (snd kv) <> eid) (d_entry d)))).

Definition UpdateRegistryEntryClaims (sid : uuid) (ty : EntryType) (name claims : string) : Q nat :=
  query (fun d =>
    match d_entry d !! (sid, ty, name) with
    | None => Ok (0%nat, d)
    | Some e => Ok (1%nat, set_entry d (<[(sid, ty, name) := {| en_id := en_id e; en_claims := claims |}]>
                                          (d_entry d)))
    end).

Lemma elem_of_entry_versions eid d v r :
  (v, r) ∈ entry_versions eid d <-> d_version d !! (eid, v) = Some r.
Proof.
  unfold entry_versions. rewrite list_elem_of_omap. split.
  - intros ([[e w] r'] & Hin%elem_of_map_to_list & E). simpl in E.
    destruct (Nat.eqb_spec e eid); simplify_eq. done.
  - intros H. exists ((eid, v), r). split; [by apply elem_of_map_to_list|]. simpl.
    by rewrite Nat.eqb_refl.
Qed.

(** ** Runs that succeed *)

Lemma lift_run_ok {A} (r : result A) o n d a n' d' :
  lift r o n d = (Ok a, n', d') -> r = Ok a /\ n' = n /\ d' = d.
Proof. unfold lift. intros. by simplify_eq. Qed.

Lemma ret_run_ok {A} (x : A) o n d a n' d' :
  mret (M := Q) x o n d = (Ok a, n', d') -> a = x /\ n' = n /\ d' = d.
Proof. unfold mret, Q_ret. intros. by simplify_eq. Qed.

Lemma fail_run_ok {A} e o n d (a : A) n' d' : fail e o n d = (Ok a, n', d') -> False.
Proof. by unfold fail. Qed.

Ltac run_ok :=
  repeat match goal with
  | H : (_ ≫= _) _ _ _ = (Ok _, _, _) |- _ =>
      let a := fresh "a" in let n := fresh "n" in let d := fresh "d" in let E := fresh "E" in
      apply bind_run_ok in H as (a & n & d & E & H)
  | H : wrapping _ _ _ _ _ = (Ok _, _, _) |- _ => apply wrapping_run_ok in H
  | H : lift _ _ _ _ = (Ok _, _, _) |- _ =>
      let E := fresh "E" in apply lift_run_ok in H as (E & -> & ->)
  | H : mret _ _ _ _ = (Ok _, _, _) |- _ => let E := fresh "E" in apply ret_run_ok in H as (E & -> & ->); try subst
  | H : fail _ _ _ _ = (Ok _, _, _) |- _ => by apply fail_run_ok in H
  | H : attempt _ _ _ _ = (Ok _, _, _) |- _ => apply attempt_run_ok in H
  | H : select _ _ _ _ = (Ok _, _, _) |- _ =>
      let E := fresh "E" in apply select_run_ok in H as (E & ->)
  | H : row_or_none _ = Ok _ |- _ => unfold row_or_none in H
  end.

(** One step at a time: [bind_in H a E] splits the first call off [H], [lift_in]
    and [select_in] also resolve it. *)
Ltac bind_in H a E :=
  let n := fresh "n" in let d := fresh "d" in
  apply bind_run_ok in H as (a & n & d & E & H); repeat apply wrapping_run_ok in E;
  match type of a with unit => destruct a | _ => idtac end.
Ltac lift_in H a E := bind_in H a E; apply lift_run_ok in E as (E & -> & ->).
Ltac ret_in H a E := bind_in H a E; apply ret_run_ok in E as (E & -> & ->).
Ltac select_in H a E := bind_in H a E; apply select_run_ok in E as (E & ->).
Ltac query_in H a E := bind_in H a E; apply query_run_ok in E.
Ltac attempt_in H a E := bind_in H a E; apply attempt_run_ok in E.

(** ** Programs that only read *)

Definition reads {A} (m : Q A) : Prop := forall o n d r n' d', m o n d = (r, n', d') -> d' = d.

Lemma reads_select {A} (f : DB -> result A) : reads (select f).
Proof. intros o n d r n' d'. apply select_run_any. Qed.
Lemma reads_ret {A} (a : A) : reads (mret a).
Proof. intros o n d r n' d' H. by injection H. Qed.
Lemma reads_fail {A} e : reads (fail (A := A) e).
Proof. intros o n d r n' d' H. by injection H. Qed.
Lemma reads_lift {A} (r : result A) : reads (lift r).
Proof. intros o n d r' n' d' H. by injection H. Qed.
Lemma reads_bind {A B} (m : Q A) (f : A -> Q B) : reads m -> (forall a, reads (f a)) -> reads (m ≫= f).
Proof.
  intros Hm Hf o n d r n' d'. unfold mbind, Q_bind. destruct (m o n d) as [[[a|e] n1] d1] eqn:E; intros H.
  - rewrite <-(Hm _ _ _ _ _ _ E). by eapply Hf.
  - injection H as <- <- <-. by eapply Hm.
Qed.
Lemma reads_attempt {A} (m : Q A) : reads m -> reads (attempt m).
Proof.
  intros Hm o n d r n' d'. unfold attempt. destruct (m o n d) as [[x n1] d1] eqn:E.
  intros H. injection H as <- <- <-. by eapply Hm.
Qed.
Lemma reads_wrapping {A} msg (m : Q A) : reads m -> reads (wrapping msg m).
Proof.
  intros Hm o n d r n' d'. unfold wrapping. destruct (m o n d) as [[[x|e] n1] d1] eqn:E; intros H;
    injection H as <- <- <-; by eapply Hm.
Qed.
#[export] Hint Resolve reads_select reads_ret reads_fail reads_lift reads_bind reads_attempt reads_wrapping
  : registry.

(** ** Runs with a database that works *)

Section Progress.
Context (o : Oracle).
Hypothesis Ho : forall k, o k = None.

Definition succeeds {A} (m : Q A) : Prop := forall n d, exists a n' d', m o n d = (Ok a, n', d').

Lemma query_fine {A} (f : DB -> result (A * DB)) n d a d' :
  f d = Ok (a, d') -> query f o n d = (Ok a, S n, d').
Proof using Ho. intros H. unfold query. by rewrite Ho, H. Qed.

Lemma select_fine {A} (f : DB -> result A) n d a :
  f d = Ok a -> select f o n d = (Ok a, S n, d).
Proof using Ho. intros H. apply query_fine. by rewrite H. Qed.

Lemma select_none {A} (f : DB -> result A) n d e :
  f d = Err e -> select f o n d = (Err e, S n, d).
Proof using Ho. intros H. unfold select, query. by rewrite Ho, H. Qed.

Lemma transaction_gen_fine {A} b c (body : Q A) n d a n' d' :
  body o (S n) d = (Ok a, n', d') -> transaction_gen b c body o n d = (Ok a, S n', d').
Proof using Ho. intros H. unfold transaction_gen. by rewrite Ho, H, Ho. Qed.

Lemma bind_fine {A B} (m : Q A) (f : A -> Q B) n d a n1 d1 r :
  m o n d = (Ok a, n1, d1) -> f a o n1 d1 = r -> (m ≫= f) o n d = r.
Proof using. intros H <-. unfold mbind, Q_bind. by rewrite H. Qed.

Lemma lift_fine {A} (r : result A) n d a : r = Ok a -> lift r o n d = (Ok a, n, d).
Proof using. by intros ->. Qed.

Lemma attempt_fine {A} (m : Q A) n d r n' d' : m o n d = (r, n', d') -> attempt m o n d = (Ok r, n', d').
Proof using. unfold attempt. by intros ->. Qed.

Lemma wrapping_fine {A} msg (m : Q A) n d a n' d' :
  m o n d = (Ok a, n', d') -> wrapping msg m o n d = (Ok a, n', d').
Proof using. unfold wrapping. by intros ->. Qed.

Lemma read_transaction_fine {A} (body : Q A) n d r n' d' :
  body o (S n) d = (r, n', d') -> read_transaction body o n d = (r, n', d).
Proof using Ho. intros H. unfold read_transaction. by rewrite Ho, H. Qed.

Lemma query_succeeds {A} (f : DB -> A * DB) : succeeds (query (fun d => Ok (f d))).
Proof using Ho. intros n d. destruct (f d) as [a d'] eqn:E. exists a, (S n), d'. apply query_fine. by rewrite E. Qed.

Lemma bind_succeeds {A B} (m : Q A) (f : A -> Q B) :
  succeeds m -> (forall a, succeeds (f a)) -> succeeds (m ≫= f).
Proof using.
  intros Hm Hf n d. destruct (Hm n d) as (a & n1 & d1 & E). destruct (Hf a n1 d1) as (b & n2 & d2 & E2).
  exists b, n2, d2. apply bind_run_ok. eauto.
Qed.

Lemma wrapping_succeeds {A} msg (m : Q A) : succeeds m -> succeeds (wrapping msg m).
Proof using. intros Hm n d. destruct (Hm n d) as (a & n1 & d1 & E). exists a, n1, d1. unfold wrapping. by rewrite E. Qed.

Lemma ret_succeeds {A} (a : A) : succeeds (mret a).
Proof using. intros n d. by exists a, n, d. Qed.

Lemma for_each_succeeds {A} (f : A -> Q ()) l : (forall x, x ∈ l -> succeeds (f x)) -> succeeds (for_each_q f l).
Proof using.
  clear Ho. induction l as [|x l IH]; intros H; cbn [for_each_q]; [apply ret_succeeds|].
  apply bind_succeeds; [apply H; set_solver|]. intros _. apply IH. set_solver.
Qed.
End Progress.
