(* ===== verification/Entries.v ===== *)
(** * Publishing and deleting entries

    The write path of the service for MCP servers: [PublishServerVersion],
    [DeleteServerVersion] and their helpers in
    [internal/service/db/impl_mcp.go] and [impl_common.go], and the claims
    operations of [impl_entries.go].  The functions run in the query monad of
    [Database]; what [encoding/json] makes of the third-party structures is the
    interface [ServerCodec]. *)

From stdpp Require Import base list strings gmap sets sorting.
From Stdlib Require Import String ZArith Lia.
From S2P Require Import Prelude GoStrings Validators Versions Claims Codec ConfigTypes Auth ClaimsGate.
From S2P Require Import Upstream Database.

Local Open Scope string_scope.
Local Open Scope list_scope.

(** ** Stored forms *)

(** [json.Marshal] and [json.Unmarshal] on the structures kept in JSONB
    columns. *)
Class ServerCodec := {
  kv_Marshal : list KeyValueInput -> option string;
  args_Marshal : list Argument -> option string;
  meta_Marshal : list (string * any) -> option string
}.

Section Stored.
Context `{SC : ServerCodec}.

Definition or_err {A} (msg : string) (o : option A) : result A :=
  match o with Some a => Ok a | None => Err (EMsg msg) end.

Definition serializeKeyValueInputs (kvInputs : list KeyValueInput) : result string :=
  if (List.length kvInputs =? 0)%nat then Ok "[]"
  else or_err "failed to serialize key-value inputs" (kv_Marshal kvInputs).

Definition SerializeArguments (arguments : list Argument) : result string :=
  if (List.length arguments =? 0)%nat then Ok "[]"
  else or_err "failed to serialize arguments" (args_Marshal arguments).

(** [SerializeServerMeta]; nil bytes are the empty string. *)
Definition SerializeServerMeta (meta : option ServerMeta) (maxMetaSize : Z) : result string :=
  match meta with
  | None => Ok ""
  | Some meta =>
      if (List.length (sm_PublisherProvided meta) =? 0)%nat then Ok ""
      else
        bytes <- or_err "failed to serialize server metadata" (meta_Marshal (sm_PublisherProvided meta)) ;;
        if (maxMetaSize <? Z.of_nat (len bytes))%Z
        then Err (EMsg "publisher-provided metadata size %d bytes exceeds maximum allowed size of %d bytes")
        else Ok bytes
  end.

End Stored.

(** ** The service *)

Record dbService := { sv_skipAuthz : bool; sv_maxMetaSize : Z }.

Record PublishServerVersionOptions := {
  po_ServerData : option ServerJSON;
  po_JWTClaims : option claims;
  po_Claims : option claims }.

Record DeleteServerVersionOptions := {
  do_ServerName : string;
  do_Version : string;
  do_JWTClaims : option claims }.

Record UpdateEntryClaimsOptions := {
  uo_EntryType : string;
  uo_Name : string;
  uo_Claims : option claims;
  uo_JWTClaims : option claims }.

(** [gateClaims := options.JWTClaims; if s.skipAuthz { gateClaims = nil }] *)
Definition gate (s : dbService) (jwt : option claims) : option claims :=
  if sv_skipAuthz s then None else jwt.

(** A nil claims map has no keys. *)
Definition claims_or_empty (c : option claims) : claims := default ∅ c.

Section Service.
Context `{SC : ServerCodec} `{C : JsonCodec} `{L : SemverLib} `{Co : Collation}.

(** *** Publishing *)

Definition getManagedSource : Q (string * SourceRow) :=
  rows ← wrapping "failed to get managed source" GetManagedSources;
  match rows with
  | [] => fail (EWrap ErrNoManagedSource "")
  | [row] => mret row
  | _ => fail (EMsg "expected exactly one managed source, found %d")
  end.

Definition server_row (server : ServerJSON) (serverMeta : string) : ServerRow :=
  {| se_website := sj_WebsiteURL server;
     se_server_meta := serverMeta;
     se_repository := (fun r => (rp_URL r, rp_ID r, rp_Subfolder r, rp_Source r)) <$> sj_Repository server |}.

(** The entry row of the name, made if it is missing; claims of an existing
    entry must agree. *)
Definition getOrCreateEntry (sid : uuid) (ty : EntryType) (name claimsJSON : string) : Q uuid :=
  existing ← attempt (GetRegistryEntryByName sid ty name);
  match existing with
  | Ok e =>
      _ ← lift (checkClaimConsistency claimsJSON (en_claims e));
      mret (en_id e)
  | Err err =>
      if errorIs err ErrNoRows
      then wrapping "failed to get or create registry entry" (InsertRegistryEntry sid ty name claimsJSON)
      else fail (wrapf "failed to get or create registry entry" err)
  end.

(** A unique violation of (entry_id, version) becomes [ErrVersionAlreadyExists]. *)
Definition insertVersionRow (eid : uuid) (name version title description : string) (now : Z) : Q uuid :=
  r ← attempt (InsertEntryVersion eid name version title description now);
  match r with
  | Ok vid => mret vid
  | Err err =>
      if errorIs err ErrPgUnique then fail (EWrap ErrVersionAlreadyExists "%s@%s")
      else fail (wrapf "failed to insert entry version" err)
  end.

Definition insertServerVersionData (server : ServerJSON) (sid : uuid) (maxMetaSize : Z)
    (claimsJSON : string) (now : Z) : Q uuid :=
  serverMeta ← wrapping "failed to serialize metadata" (lift (SerializeServerMeta (sj_Meta server) maxMetaSize));
  entryID ← getOrCreateEntry sid EntryTypeMCP (sj_Name server) claimsJSON;
  versionID ← insertVersionRow entryID (sj_Name server) (sj_Version server)
                (sj_Title server) (sj_Description server) now;
  wrapping "failed to insert server version" (InsertServerVersion versionID (server_row server serverMeta)).

Definition insertServerPackages (vid : uuid) (packages : list Package) : Q () :=
  for_each_q (fun pkg =>
    envVarsJSON ← wrapping "failed to serialize env vars"
      (lift (serializeKeyValueInputs (pk_EnvironmentVariables pkg)));
    transportHeadersJSON ← wrapping "failed to serialize transport headers"
      (lift (serializeKeyValueInputs (tr_Headers (pk_Transport pkg))));
    runtimeArgsJSON ← wrapping "failed to serialize runtime arguments"
      (lift (SerializeArguments (pk_RuntimeArguments pkg)));
    packageArgsJSON ← wrapping "failed to serialize package arguments"
      (lift (SerializeArguments (pk_PackageArguments pkg)));
    wrapping "failed to insert server package"
      (InsertServerPackage vid (pk_RegistryType pkg) (pk_Identifier pkg) (tr_Type (pk_Transport pkg))
        {| pa_registry_url := pk_RegistryBaseURL pkg;
           pa_version := pk_Version pkg;
           pa_runtime_hint := pk_RunTimeHint pkg;
           pa_runtime_arguments := runtimeArgsJSON;
           pa_package_arguments := packageArgsJSON;
           pa_env_vars := envVarsJSON;
           pa_sha256 := pk_FileSHA256 pkg;
           pa_transport_url := tr_URL (pk_Transport pkg);
           pa_transport_headers := transportHeadersJSON |})) packages.

Definition insertServerRemotes (vid : uuid) (remotes : list Transport) : Q () :=
  for_each_q (fun remote =>
    headersJSON ← wrapping "failed to serialize transport headers"
      (lift (serializeKeyValueInputs (tr_Headers remote)));
    wrapping "failed to insert server remote"
      (InsertServerRemote vid (tr_Type remote) (tr_URL remote) headersJSON)) remotes.

Definition icon_theme (icon : Icon) : IconTheme :=
  match ic_Theme icon with
  | Some t => if String.eqb t "light" then IconThemeLIGHT
              else if String.eqb t "dark" then IconThemeDARK
              else IconThemeLIGHT
  | None => IconThemeLIGHT
  end.

Definition insertServerIcons (vid : uuid) (icons : list Icon) : Q () :=
  for_each_q (fun icon =>
    wrapping "failed to insert server icon"
      (InsertServerIcon vid (ic_Src icon) (default "" (ic_MimeType icon)) (icon_theme icon))) icons.

(** The end of [insertServerData]: move the latest pointer unless that would
    take it back. *)
Definition advanceLatest (sid : uuid) (name version : string) (vid : uuid) : Q () :=
  currentLatest ← attempt (GetLatestEntryVersion sid name);
  shouldUpdateLatest ←
    (match currentLatest with
     | Ok cur => mret (IsNewerVersion version cur)
     | Err err => if errorIs err ErrNoRows then mret true
                  else fail (wrapf "failed to get current latest version" err)
     end);
  if (shouldUpdateLatest : bool)
  then _ ← wrapping "failed to upsert latest server version" (UpsertLatestVersion sid name version vid); mret ()
  else mret ().

Definition insertServerData (s : dbService) (server : ServerJSON) (sid : uuid) (claimsJSON : string)
    (now : Z) : Q () :=
  vid ← insertServerVersionData server sid (sv_maxMetaSize s) claimsJSON now;
  _ ← insertServerPackages vid (sj_Packages server);
  _ ← insertServerRemotes vid (sj_Remotes server);
  _ ← insertServerIcons vid (sj_Icons server);
  advanceLatest sid (sj_Name server) (sj_Version server) vid.

Definition executePublishTransaction (s : dbService) (ctx : Ctx) (server : ServerJSON)
    (claimsJSON : string) (gateClaims : option claims) (now : Z) : Q string :=
  transaction (
    source ← getManagedSource;
    _ ← lift (validateClaimsVisibleBytes ctx gateClaims (so_claims (snd source)));
    _ ← insertServerData s server (so_id (snd source)) claimsJSON now;
    mret (fst source)).

(** [PublishServerVersion] up to the fetch-back of the stored row, which
    writes nothing; the result is the source published into. *)
Definition PublishServerVersion (s : dbService) (ctx : Ctx) (opts : PublishServerVersionOptions)
    (now : Z) : Q string :=
  match po_ServerData opts with
  | None => fail (EMsg "server data is required")
  | Some server =>
      if negb (ServerName.IsValidServerName (sj_Name server))
      then fail (EWrap ErrInvalidServerName "%s")
      else
        let gateClaims := gate s (po_JWTClaims opts) in
        _ ← lift (validateClaimsSubset ctx gateClaims (claims_or_empty (po_Claims opts)));
        claimsJSON ← lift (match po_Claims opts with
                           | None => Ok ""
                           | Some c => or_err "failed to serialize claims" (json_Marshal c)
                           end);
        executePublishTransaction s ctx server claimsJSON gateClaims now
  end.

(** *** Deleting *)

Definition lookupAndDeleteEntryVersion (sid : uuid) (ty : EntryType) (name version : string) : Q uuid :=
  existing ← attempt (GetRegistryEntryByName sid ty name);
  match existing with
  | Err err => if errorIs err ErrNoRows then fail (EWrap ErrNotFound "%s@%s")
               else fail (wrapf "failed to look up registry entry" err)
  | Ok e =>
      rowsAffected ← wrapping "failed to delete entry version" (DeleteEntryVersion (en_id e) version);
      if (rowsAffected =? 0)%nat then fail (EWrap ErrNotFound "%s@%s") else mret (en_id e)
  end.

Definition cleanupOrphanedEntry (eid : uuid) : Q () :=
  remaining ← wrapping "failed to count remaining versions" (CountEntryVersions eid);
  if (remaining =? 0)%nat
  then _ ← wrapping "failed to delete empty registry entry" (DeleteRegistryEntryByID eid); mret ()
  else mret ().

Definition version_ids (rows : list (string * VersionRow)) : list VersionIdRow :=
  (fun '(v, r) => {| vr_id := ve_id r; vr_version := v |}) <$> rows.

Definition rePointLatestVersionIfNeeded (sid : uuid) (name : string) (eid : uuid) : Q () :=
  cur ← attempt (GetLatestEntryVersion sid name);
  match cur with
  | Ok _ => mret ()
  | Err err =>
      if negb (errorIs err ErrNoRows) then fail (wrapf "failed to check latest version" err)
      else
        remaining ← wrapping "failed to list remaining versions" (ListEntryVersions eid);
        let '(newVersionID, newVersion) := findHighestVersion (version_ids remaining) in
        if (newVersionID =? uuid_Nil)%nat then mret ()
        else _ ← UpsertLatestVersion sid name newVersion newVersionID; mret ()
  end.

Definition deleteGate (s : dbService) (ctx : Ctx) (sid : uuid) (opts : DeleteServerVersionOptions) : Q () :=
  match do_JWTClaims opts with
  | None => mret ()
  | Some _ =>
      existing ← attempt (GetRegistryEntryByName sid EntryTypeMCP (do_ServerName opts));
      match existing with
      | Err err => if errorIs err ErrNoRows then fail (EWrap ErrNotFound "%s@%s")
                   else fail (wrapf "failed to look up registry entry" err)
      | Ok e => lift (validateClaimsVisibleBytes ctx (gate s (do_JWTClaims opts)) (en_claims e))
      end
  end.

Definition executeDeleteTransaction (s : dbService) (ctx : Ctx) (opts : DeleteServerVersionOptions) : Q () :=
  transaction (
    source ← getManagedSource;
    let sid := so_id (snd source) in
    _ ← deleteGate s ctx sid opts;
    entryID ← lookupAndDeleteEntryVersion sid EntryTypeMCP (do_ServerName opts) (do_Version opts);
    _ ← rePointLatestVersionIfNeeded sid (do_ServerName opts) entryID;
    cleanupOrphanedEntry entryID).

Definition DeleteServerVersion (s : dbService) (ctx : Ctx) (opts : DeleteServerVersionOptions) : Q () :=
  executeDeleteTransaction s ctx opts.

(** *** Claims of entries *)

Definition mapEntryType (entryType : string) : result EntryType :=
  if String.eqb entryType "server" then Ok EntryTypeMCP
  else if String.eqb entryType "skill" then Ok EntryTypeSKILL
  else if String.eqb entryType "plugin" then Ok EntryTypePLUGIN
  else Err (EWrap ErrInvalidEntryType "%s").

Definition lookupEntry (sid : uuid) (ty : EntryType) (name : string) : Q EntryRow :=
  existing ← attempt (GetRegistryEntryByName sid ty name);
  match existing with
  | Err err => if errorIs err ErrNoRows then fail (EWrap ErrNotFound "%s")
               else fail (wrapf "failed to look up registry entry" err)
  | Ok e => mret e
  end.

Definition executeUpdateClaimsTransaction (s : dbService) (ctx : Ctx) (opts : UpdateEntryClaimsOptions)
    (ty : EntryType) : Q () :=
  transaction (
    source ← getManagedSource;
    let sid := so_id (snd source) in
    existing ← lookupEntry sid ty (uo_Name opts);
    _ ← lift (validateClaimsVisibleBytes ctx (gate s (uo_JWTClaims opts)) (en_claims existing));
    rowsAffected ← wrapping "failed to update entry claims"
      (UpdateRegistryEntryClaims sid ty (uo_Name opts) (SerializeClaims (uo_Claims opts)));
    if (rowsAffected =? 0)%nat then fail (EWrap ErrNotFound "%s") else mret ()).

Definition UpdateEntryClaims (s : dbService) (ctx : Ctx) (opts : UpdateEntryClaimsOptions) : Q () :=
  ty ← lift (mapEntryType (uo_EntryType opts));
  _ ← lift (match uo_Claims opts with
            | None => Ok ()
            | Some c => match ValidateClaimValues c with
                        | Ok _ => Ok ()
                        | Err e => Err (wrapf "invalid claim values" e)
                        end
            end);
  _ ← lift (validateClaimsSubset ctx (gate s (uo_JWTClaims opts)) (claims_or_empty (uo_Claims opts)));
  executeUpdateClaimsTransaction s ctx opts ty.

Definition GetEntryClaims (s : dbService) (ctx : Ctx) (entryType name : string) (jwt : option claims)
    : Q claims :=
  ty ← lift (mapEntryType entryType);
  source ← getManagedSource;
  row ← lookupEntry (so_id (snd source)) ty name;
  _ ← lift (validateClaimsVisibleBytes ctx (gate s jwt) (en_claims row));
  mret (DeserializeClaims (en_claims row)).

End Service.

Section Correct.
Context `{SC : ServerCodec} `{C : JsonCodec} `{L : SemverLib} `{Co : Collation}.

Lemma getManagedSource_ok o n d src n' d' :
  getManagedSource o n d = (Ok src, n', d') -> managed_sources d = [src] /\ d' = d.
Proof.
  unfold getManagedSource, GetManagedSources. intros H. run_ok. simplify_eq.
  destruct (managed_sources _) as [|x [|??]]; by run_ok.
Qed.

(** ** Frames

    What the content tables hold does not bear on entries, versions and
    pointers. *)
Definition core (d : DB) :=
  (d_next d, d_source d, d_registry d, d_registry_source d, d_entry d, d_version d, d_latest d).

Lemma core_content d s p r i : core (set_content d s p r i) = core d.
Proof. done. Qed.

Lemma for_each_q_inv {A} (P : DB -> Prop) (f : A -> Q ()) l o n d n' d' :
  (forall x o n d n' d', f x o n d = (Ok (), n', d') -> P d -> P d') ->
  for_each_q f l o n d = (Ok (), n', d') -> P d -> P d'.
Proof.
  intros Hf. revert n d. induction l as [|x l IH]; intros n d H HP; simpl in H; run_ok; [done|].
  destruct a. eapply IH; [done|]. eauto.
Qed.

(** Rows of the content tables belong to a server row, and that to a version. *)
Record wf_content (d : DB) : Prop := {
  wfc_server : forall vid s, d_server d !! vid = Some s ->
    exists k r, d_version d !! k = Some r /\ ve_id r = vid;
  wfc_package : forall vid a b c p, d_package d !! (vid, a, b, c) = Some p -> is_Some (d_server d !! vid);
  wfc_remote : forall vid a b h, d_remote d !! (vid, a, b) = Some h -> is_Some (d_server d !! vid);
  wfc_icon : forall vid a b t i, d_icon d !! (vid, a, b, t) = Some i -> is_Some (d_server d !! vid) }.

(** What the content inserts of one version keep. *)
Definition content_step (vid : uuid) (d0 d : DB) : Prop :=
  core d = core d0 /\ d_server d = d_server d0 /\ wf_content d.

(** One insert of a content row. *)
Ltac content_insert :=
  intros x o1 n1 d1 n2 d2 H1 (Hc & Hs & Hw1); cbv beta in H1; run_ok; apply query_run_ok in H1;
  case_match; simplify_eq; split; [unfold core in *; simpl; congruence|]; split; [done|];
  destruct Hw1; split; simpl; try done; intros *;
  let Hp := fresh in
  intros Hp; apply lookup_insert_Some in Hp as [[? _]|[_ Hp]]; [simplify_eq; by rewrite Hs|eauto].

Lemma insertServerPackages_ok vid l o n d n' d' :
  insertServerPackages vid l o n d = (Ok (), n', d') ->
  is_Some (d_server d !! vid) -> wf_content d -> content_step vid d d'.
Proof.
  intros H Hv Hw. eapply (for_each_q_inv (content_step vid d)); [|exact H|by repeat split; apply Hw].
  content_insert.
Qed.

Lemma insertServerRemotes_ok vid l o n d n' d' :
  insertServerRemotes vid l o n d = (Ok (), n', d') ->
  is_Some (d_server d !! vid) -> wf_content d -> content_step vid d d'.
Proof.
  intros H Hv Hw. eapply (for_each_q_inv (content_step vid d)); [|exact H|by repeat split; apply Hw].
  content_insert.
Qed.

Lemma insertServerIcons_ok vid l o n d n' d' :
  insertServerIcons vid l o n d = (Ok (), n', d') ->
  is_Some (d_server d !! vid) -> wf_content d -> content_step vid d d'.
Proof.
  intros H Hv Hw. eapply (for_each_q_inv (content_step vid d)); [|exact H|by repeat split; apply Hw].
  content_insert.
Qed.

(** ** Well-formedness of entries, versions and pointers *)

Record wf_core (d : DB) : Prop := {
  wf_entry_id : forall k e, d_entry d !! k = Some e -> (0 < en_id e < d_next d)%nat;
  wf_entry_inj : forall k1 k2 e1 e2, d_entry d !! k1 = Some e1 -> d_entry d !! k2 = Some e2 ->
    en_id e1 = en_id e2 -> k1 = k2;
  wf_version_id : forall k r, d_version d !! k = Some r -> (0 < ve_id r < d_next d)%nat;
  wf_version_inj : forall k1 k2 r1 r2, d_version d !! k1 = Some r1 -> d_version d !! k2 = Some r2 ->
    ve_id r1 = ve_id r2 -> k1 = k2;
  wf_version_entry : forall eid v r, d_version d !! (eid, v) = Some r ->
    exists sid ty e, d_entry d !! (sid, ty, ve_name r) = Some e /\ en_id e = eid;
  wf_latest : forall sid name v vid, d_latest d !! (sid, name) = Some (v, vid) ->
    exists ty e r, d_entry d !! (sid, ty, name) = Some e /\ d_version d !! (en_id e, v) = Some r /\
      ve_id r = vid;
  wf_next : (0 < d_next d)%nat }.

Lemma wf_core_proper d d' : core d = core d' -> wf_core d -> wf_core d'.
Proof.
  unfold core. intros E [H1 H2 H3 H4 H5 H6 H7]. injection E as E1 _ _ _ E5 E6 E7.
  split; rewrite <-?E1, <-?E5, <-?E6, <-?E7; done.
Qed.

Lemma wf_core_content d s p r i : wf_core d -> wf_core (set_content d s p r i).
Proof. by apply wf_core_proper. Qed.

Lemma wf_core_insert_entry d k c :
  wf_core d -> d_entry d !! k = None ->
  wf_core (set_entry (set_next d (S (d_next d)))
            (<[k := {| en_id := d_next d; en_claims := c |}]> (d_entry d))).
Proof.
  intros [H1 H2 H3 H4 H5 H6 H7] Hk. split; simpl.
  - intros k' e He. apply lookup_insert_Some in He as [[<- <-]|[_ He]]; simpl; [lia|].
    apply H1 in He. lia.
  - intros k1 k2 e1 e2 He1 He2 E.
    apply lookup_insert_Some in He1 as [[<- <-]|[Hn1 He1]];
      apply lookup_insert_Some in He2 as [[<- <-]|[Hn2 He2]]; simpl in *; [done|..|eauto].
    + apply H1 in He2. lia.
    + apply H1 in He1. lia.
  - intros k' r Hr. apply H3 in Hr. lia.
  - done.
  - intros eid v r Hr. destruct (H5 _ _ _ Hr) as (sid & ty & e & He & Hid). exists sid, ty, e.
    split; [|done]. rewrite lookup_insert_ne; [done|]. by intros ->; rewrite Hk in He.
  - intros sid name v vid Hl. destruct (H6 _ _ _ _ Hl) as (ty & e & r & He & Hr & Hid).
    exists ty, e, r. split; [|done]. rewrite lookup_insert_ne; [done|]. by intros ->; rewrite Hk in He.
  - lia.
Qed.

Lemma wf_core_insert_version d sid ty name e v row :
  wf_core d -> d_entry d !! (sid, ty, name) = Some e -> d_version d !! (en_id e, v) = None ->
  ve_id row = d_next d -> ve_name row = name ->
  wf_core (set_version (set_next d (S (d_next d))) (<[(en_id e, v) := row]> (d_version d))).
Proof.
  intros [H1 H2 H3 H4 H5 H6 H7] He Hv Hid Hname. split; simpl.
  - intros k' e' He'. apply H1 in He'. lia.
  - done.
  - intros k r Hr. apply lookup_insert_Some in Hr as [[<- <-]|[_ Hr]]; [lia|]. apply H3 in Hr. lia.
  - intros k1 k2 r1 r2 Hr1 Hr2 E.
    apply lookup_insert_Some in Hr1 as [[<- <-]|[Hn1 Hr1]];
      apply lookup_insert_Some in Hr2 as [[<- <-]|[Hn2 Hr2]]; [done|..|eauto].
    + apply H3 in Hr2. lia.
    + apply H3 in Hr1. lia.
  - intros eid v' r Hr. apply lookup_insert_Some in Hr as [[? <-]|[_ Hr]]; [|eauto].
    simplify_eq. eauto.
  - intros sid' name' v' vid Hl. destruct (H6 _ _ _ _ Hl) as (ty' & e' & r & He' & Hr & Hvid).
    exists ty', e', r. split; [done|]. split; [|done].
    rewrite lookup_insert_ne; [done|]. intros Heq. rewrite Heq in Hv. congruence.
  - lia.
Qed.

Lemma wf_core_upsert_latest d sid ty name e v r :
  wf_core d -> d_entry d !! (sid, ty, name) = Some e -> d_version d !! (en_id e, v) = Some r ->
  wf_core (set_latest d (<[(sid, name) := (v, ve_id r)]> (d_latest d))).
Proof.
  intros [H1 H2 H3 H4 H5 H6 H7] He Hr. split; simpl; try done.
  intros sid' name' v' vid Hl. apply lookup_insert_Some in Hl as [[? ?]|[_ Hl]]; [|eauto].
  simplify_eq. eauto 10.
Qed.

Lemma wf_core_cascade dead d : wf_core d -> wf_core (cascade_versions dead d).
Proof.
  intros [H1 H2 H3 H4 H5 H6 H7]. split; simpl; try done.
  - intros k r [Hr _]%map_lookup_filter_Some. eauto.
  - intros k1 k2 r1 r2 [Hr1 _]%map_lookup_filter_Some [Hr2 _]%map_lookup_filter_Some. eauto.
  - intros eid v r [Hr _]%map_lookup_filter_Some. eauto.
  - intros sid name v vid [Hl Hk]%map_lookup_filter_Some.
    destruct (H6 _ _ _ _ Hl) as (ty & e & r & He & Hr & Hid). exists ty, e, r.
    split_and!; try done. apply map_lookup_filter_Some. by subst.
Qed.

Lemma wf_content_cascade dead d : wf_content d -> wf_content (cascade_versions dead d).
Proof.
  intros [H1 H2 H3 H4]. split; simpl.
  - intros vid s [Hs Hk]%map_lookup_filter_Some. destruct (H1 _ _ Hs) as (k & r & Hr & Hid).
    exists k, r. split; [|done]. apply map_lookup_filter_Some. by subst.
  - intros vid a b c p [Hp Hk]%map_lookup_filter_Some. destruct (H2 _ _ _ _ _ Hp) as [s Hs].
    exists s. by apply map_lookup_filter_Some.
  - intros vid a b h [Hp Hk]%map_lookup_filter_Some. destruct (H3 _ _ _ _ Hp) as [s Hs].
    exists s. by apply map_lookup_filter_Some.
  - intros vid a b t i [Hp Hk]%map_lookup_filter_Some. destruct (H4 _ _ _ _ _ Hp) as [s Hs].
    exists s. by apply map_lookup_filter_Some.
Qed.

(** ** The effect of publishing *)

(** The latest pointer after publishing [v]: it moves when there was none or
    [v] is newer. *)
Definition latest_after (d : DB) (sid : uuid) (name v : string) (vid : uuid) :=
  match d_latest d !! (sid, name) with
  | Some (cur, _) => if IsNewerVersion v cur then <[(sid, name) := (v, vid)]> (d_latest d) else d_latest d
  | None => <[(sid, name) := (v, vid)]> (d_latest d)
  end.

Record published (s : dbService) (d d' : DB) (sid : uuid) (server : ServerJSON) (claimsJSON : string)
    (e : EntryRow) (r : VersionRow) : Prop := {
  pub_entry :
    (d_entry d !! (sid, EntryTypeMCP, sj_Name server) = Some e /\ d_entry d' = d_entry d /\
     checkClaimConsistency claimsJSON (en_claims e) = Ok ()) \/
    (d_entry d !! (sid, EntryTypeMCP, sj_Name server) = None /\ en_claims e = claimsJSON /\
     (d_next d <= en_id e)%nat /\
     d_entry d' = <[(sid, EntryTypeMCP, sj_Name server) := e]> (d_entry d));
  pub_fresh : d_version d !! (en_id e, sj_Version server) = None /\ (d_next d <= ve_id r)%nat;
  pub_row : ve_name r = sj_Name server /\ ve_title r = sj_Title server /\
            ve_description r = sj_Description server;
  pub_version : d_version d' = <[(en_id e, sj_Version server) := r]> (d_version d);
  pub_latest : d_latest d' = latest_after d sid (sj_Name server) (sj_Version server) (ve_id r);
  pub_server : exists meta, SerializeServerMeta (sj_Meta server) (sv_maxMetaSize s) = Ok meta /\
    d_server d' = <[ve_id r := server_row server meta]> (d_server d);
  pub_frame : d_source d' = d_source d /\ d_registry d' = d_registry d /\
              d_registry_source d' = d_registry_source d }.

Lemma getOrCreateEntry_ok sid ty name c o n d eid n' d' :
  wf_core d -> wf_content d -> getOrCreateEntry sid ty name c o n d = (Ok eid, n', d') ->
  exists e, en_id e = eid /\ d_entry d' !! (sid, ty, name) = Some e /\ wf_core d' /\ wf_content d' /\
    d_version d' = d_version d /\ d_latest d' = d_latest d /\ d_server d' = d_server d /\
    (d_next d <= d_next d')%nat /\
    d_source d' = d_source d /\ d_registry d' = d_registry d /\
    d_registry_source d' = d_registry_source d /\
    ((d_entry d !! (sid, ty, name) = Some e /\ d_entry d' = d_entry d /\
      checkClaimConsistency c (en_claims e) = Ok ()) \/
     (d_entry d !! (sid, ty, name) = None /\ en_claims e = c /\ (d_next d <= en_id e)%nat /\
      d_entry d' = <[(sid, ty, name) := e]> (d_entry d))).
Proof.
  intros Hwf Hwc H. unfold getOrCreateEntry in H. run_ok. unfold GetRegistryEntryByName in E.
  destruct a as [e|err].
  - apply select_run_ok in E as [E ->]. run_ok. destruct (d_entry d !! _) eqn:Ee; simplify_eq.
    exists e. destruct a. split_and!; try done. by left.
  - destruct (errorIs err ErrNoRows) eqn:Enr; [|by apply fail_run_ok in H].
    apply wrapping_run_ok in H. pose proof E as E'. apply select_run_any in E' as ->.
    apply query_run_ok in H. destruct (d_entry d !! _) eqn:Ee; [done|].
    cbv zeta in H. injection H as <- <-.
    exists {| en_id := d_next d; en_claims := c |}.
    split_and!; try done; [apply lookup_insert_eq|by apply wf_core_insert_entry| |simpl; lia|].
    + destruct Hwc as [? ? ? ?]. by split.
    + right. by split_and!.
Qed.

Lemma insertVersionRow_ok eid name v t de now o n d vid n' d' :
  insertVersionRow eid name v t de now o n d = (Ok vid, n', d') ->
  d_version d !! (eid, v) = None /\ vid = d_next d /\
  d' = set_version (set_next d (S (d_next d)))
         (<[(eid, v) := {| ve_id := d_next d; ve_name := name; ve_title := t; ve_description := de;
                           ve_created := now |}]> (d_version d)).
Proof.
  unfold insertVersionRow. intros H. run_ok. destruct a as [x|err].
  - run_ok. apply query_run_ok in E. destruct (d_version d !! _) eqn:Ev; [done|].
    cbv zeta in E. by injection E as <- <-.
  - destruct (errorIs err ErrPgUnique); run_ok.
Qed.

(** The state between the version insert and the content inserts. *)
Lemma insertServerVersionData_ok server sid mx c now o n d vid n' d' :
  wf_core d -> wf_content d ->
  insertServerVersionData server sid mx c now o n d = (Ok vid, n', d') ->
  exists e r meta, ve_id r = vid /\ ve_name r = sj_Name server /\ ve_title r = sj_Title server /\
    ve_description r = sj_Description server /\
    SerializeServerMeta (sj_Meta server) mx = Ok meta /\
    d_entry d' !! (sid, EntryTypeMCP, sj_Name server) = Some e /\
    wf_core d' /\ wf_content d' /\
    d_version d !! (en_id e, sj_Version server) = None /\ (d_next d <= vid)%nat /\
    d_version d' = <[(en_id e, sj_Version server) := r]> (d_version d) /\ d_latest d' = d_latest d /\
    d_server d' = <[vid := server_row server meta]> (d_server d) /\
    d_source d' = d_source d /\ d_registry d' = d_registry d /\
    d_registry_source d' = d_registry_source d /\
    ((d_entry d !! (sid, EntryTypeMCP, sj_Name server) = Some e /\ d_entry d' = d_entry d /\
      checkClaimConsistency c (en_claims e) = Ok ()) \/
     (d_entry d !! (sid, EntryTypeMCP, sj_Name server) = None /\ en_claims e = c /\
      (d_next d <= en_id e)%nat /\
      d_entry d' = <[(sid, EntryTypeMCP, sj_Name server) := e]> (d_entry d))).
Proof.
  intros Hwf Hwc H. unfold insertServerVersionData in H. run_ok.
  apply getOrCreateEntry_ok in E0 as (e & <- & He & Hwf1 & Hwc1 & Hv1 & Hl1 & Hs1 & Hn1 & Hso & Hre & Hrs & Hcase);
    [|done..].
  apply insertVersionRow_ok in E1 as (Hnone & -> & ->).
  apply query_run_ok in H. simpl in H. destruct (d_server _ !! _) eqn:Es; [done|]. injection H as <- <-.
  eexists e, {| ve_id := _; ve_name := _; ve_title := _; ve_description := _; ve_created := now |}, a.
  split; [reflexivity|]. split; [reflexivity|]. split; [reflexivity|]. split; [reflexivity|].
  simpl. rewrite <-Hv1, <-Hl1, <-Hs1, <-Hso, <-Hre, <-Hrs. split_and!; try done.
  - apply wf_core_content.
    eapply wf_core_insert_version; [exact Hwf1|exact He|exact Hnone|reflexivity|reflexivity].
  - destruct Hwc1 as [W1 W2 W3 W4]. split; simpl.
    + intros vid s Hs. apply lookup_insert_Some in Hs as [[<- _]|[_ Hs]].
      * eexists _, _. split; [apply lookup_insert_eq|done].
      * destruct (W1 _ _ Hs) as (k & r & Hr & Hid). exists k, r. split; [|done].
        rewrite lookup_insert_ne; [done|]. by intros <-; rewrite Hnone in Hr.
    + intros vid x y z p Hp. apply lookup_insert_is_Some'. right. eauto.
    + intros vid x y h Hp. apply lookup_insert_is_Some'. right. eauto.
    + intros vid x y t i Hp. apply lookup_insert_is_Some'. right. eauto.
Qed.

Lemma advanceLatest_ok sid name v vid o n d n' d' :
  advanceLatest sid name v vid o n d = (Ok (), n', d') ->
  d' = set_latest d (latest_after d sid name v vid).
Proof.
  unfold advanceLatest, latest_after, GetLatestEntryVersion. intros H. run_ok.
  assert (Hid : forall d, set_latest d (d_latest d) = d) by by intros [].
  destruct a as [cur|err].
  - apply select_run_ok in E as [E ->]. run_ok.
    destruct (d_latest _ !! _) as [[w wid]|]; simplify_eq/=.
    destruct (IsNewerVersion v cur); run_ok; [|by rewrite Hid].
    apply query_run_ok in E. by simplify_eq.
  - destruct (errorIs err ErrNoRows) eqn:Enr; [|by run_ok].
    apply select_no_rows in E as [E ->]; [|done]. run_ok.
    apply query_run_ok in E0. simplify_eq. by destruct (d_latest _ !! _) as [[w wid]|].
Qed.

Lemma insertServerData_ok s server sid c now o n d n' d' :
  wf_core d -> wf_content d ->
  insertServerData s server sid c now o n d = (Ok (), n', d') ->
  exists e r, published s d d' sid server c e r /\ wf_core d' /\ wf_content d'.
Proof.
  intros Hwf Hwc H. unfold insertServerData in H. run_ok.
  apply insertServerVersionData_ok in E as (e & r & meta & <- & Hrn & Hrt & Hrd & Hm & He & Hwf1 & Hwc1 & Hnone
    & Hge & Hv & Hl & Hs & Hso & Hre & Hrs & Hcase); [|done..].
  destruct a0, a1, a2.
  assert (Hsv : is_Some (d_server d0 !! ve_id r)) by (rewrite Hs, lookup_insert_eq; eauto).
  apply insertServerPackages_ok in E0 as (Hc1 & Hs1 & Hw1); [|done..].
  apply insertServerRemotes_ok in E1 as (Hc2 & Hs2 & Hw2); [|by rewrite Hs1|done].
  apply insertServerIcons_ok in E2 as (Hc3 & Hs3 & Hw3); [|by rewrite Hs2, Hs1|done].
  apply advanceLatest_ok in H as ->.
  assert (Hc : core d3 = core d0) by congruence. unfold core in Hc.
  injection Hc as Hx1 Hx2 Hx3 Hx4 Hx5 Hx6 Hx7.
  assert (Hlat : latest_after d3 sid (sj_Name server) (sj_Version server) (ve_id r) =
                 latest_after d sid (sj_Name server) (sj_Version server) (ve_id r)).
  { unfold latest_after. by rewrite Hx7, Hl. }
  assert (Hwf3 : wf_core d3) by (eapply wf_core_proper; [|exact Hwf1]; unfold core; congruence).
  exists e, r. split; [|split].
  - split; simpl; rewrite ?Hx2, ?Hx3, ?Hx4, ?Hx5, ?Hx6; auto. exists meta. split; [done|]. congruence.
  - rewrite Hlat. assert (Hsame : wf_core (set_latest d3 (d_latest d))).
    { eapply wf_core_proper; [|exact Hwf3]. unfold core. simpl. congruence. }
    assert (Hnew : wf_core (set_latest d3 (<[(sid, sj_Name server) := (sj_Version server, ve_id r)]> (d_latest d)))).
    { rewrite <-Hl, <-Hx7. eapply wf_core_upsert_latest; [done|by rewrite Hx5|].
      rewrite Hx6, Hv. apply lookup_insert_eq. }
    unfold latest_after. by repeat case_match.
  - destruct Hw3 as [? ? ? ?]. by split.
Qed.

(** ** The latest pointer is the highest version *)

(** For an entry: no entry of another type has its name in the source, its
    versions are semantic versions, and the pointer of (source, name) is at a
    version of the entry none of its versions is newer than. *)
Definition latest_ok (d : DB) (sid : uuid) (name : string) (e : EntryRow) : Prop :=
  (forall ty, is_Some (d_entry d !! (sid, ty, name)) -> ty = EntryTypeMCP) /\
  (forall w r, d_version d !! (en_id e, w) = Some r -> is_semver w = true) /\
  exists v r, d_latest d !! (sid, name) = Some (v, ve_id r) /\ d_version d !! (en_id e, v) = Some r /\
    forall w r', d_version d !! (en_id e, w) = Some r' -> IsNewerVersion w v = false.

Context `{!SemverLaws L}.

(** Publishing keeps the other servers' entries as they are. *)
Lemma published_other s d d' sid server c e r sid' name' e' :
  wf_core d -> wf_core d' -> published s d d' sid server c e r ->
  (sid', name') <> (sid, sj_Name server) ->
  d_entry d' !! (sid', EntryTypeMCP, name') = Some e' ->
  d_entry d !! (sid', EntryTypeMCP, name') = Some e' /\
  d_latest d' !! (sid', name') = d_latest d !! (sid', name') /\
  forall w, d_version d' !! (en_id e', w) = d_version d !! (en_id e', w).
Proof.
  intros Hwf Hwf' [Hent Hfr Hrow Hver Hlat Hsrv Hframe] Hne He'.
  assert (Hed : d_entry d !! (sid', EntryTypeMCP, name') = Some e').
  { destruct Hent as [(? & Eq & ?)|(? & ? & ? & Eq)]; rewrite Eq in He'; [done|].
    rewrite lookup_insert_ne in He' by congruence. done. }
  split; [done|]. split.
  - rewrite Hlat. unfold latest_after. repeat case_match; rewrite ?lookup_insert_ne by congruence; done.
  - intros w. rewrite Hver, lookup_insert_ne; [done|]. intros [= Hid <-].
    destruct Hent as [(He & _ & _)|(_ & _ & Hge & _)].
    + pose proof (wf_entry_inj d Hwf _ _ _ _ He Hed Hid). congruence.
    + pose proof (wf_entry_id d Hwf _ _ Hed). lia.
Qed.

Lemma published_new_entry_id s d d' sid server c e r k e' w r' :
  wf_core d -> published s d d' sid server c e r ->
  d_entry d !! (sid, EntryTypeMCP, sj_Name server) = None ->
  e' = e -> k = (en_id e, w) -> d_version d !! k = Some r' -> False.
Proof.
  intros Hwf [Hent _ _ _ _ _ _] Hnone -> -> Hr'.
  destruct Hent as [(? & _)|(_ & _ & Hge & _)]; [congruence|].
  destruct (wf_version_entry d Hwf _ _ _ Hr') as (sid1 & ty1 & e1 & He1 & Hid).
  pose proof (wf_entry_id d Hwf _ _ He1). lia.
Qed.

(** The pointer of every entry that was right is right after a publication, and
    the one of the published entry if the version is semantic and the name is
    no other entry's. *)
Lemma published_latest s d d' sid server c e r sid' name' e' :
  wf_core d -> wf_core d' -> published s d d' sid server c e r ->
  d_entry d' !! (sid', EntryTypeMCP, name') = Some e' ->
  (forall e0, d_entry d !! (sid', EntryTypeMCP, name') = Some e0 -> latest_ok d sid' name' e0) ->
  ((sid', name') = (sid, sj_Name server) ->
     (forall ty, is_Some (d_entry d !! (sid, ty, sj_Name server)) -> ty = EntryTypeMCP) /\ is_semver (sj_Version server) = true) ->
  latest_ok d' sid' name' e'.
Proof.
  intros Hwf Hwf' Hpub He' Hmax Hnew0.
  destruct (decide ((sid', name') = (sid, sj_Name server))) as [[= -> ->]|Hne].
  2:{ destruct (published_other _ _ _ _ _ _ _ _ _ _ _ Hwf Hwf' Hpub Hne He') as (Hed & Hlat & Hver).
      destruct (Hmax _ Hed) as (Hty & Hsv & v & r' & Hl & Hv & Hnew). unfold latest_ok.
      rewrite Hlat. setoid_rewrite Hver. split_and!; [|done|eauto 10].
      intros ty. destruct Hpub as [Hent _ _ _ _ _ _].
      destruct Hent as [(? & -> & ?)|(? & ? & ? & ->)]; [apply Hty|].
      rewrite lookup_insert_ne by congruence. apply Hty. }
  destruct (Hnew0 eq_refl) as [Hapart Hsem].
  pose proof Hpub as [Hent Hfr Hrow Hver Hlat Hsrv Hframe].
  assert (e' = e) as ->.
  { destruct Hent as [(? & Eq & ?)|(? & ? & ? & Eq)]; rewrite Eq in He'; [congruence|].
    rewrite lookup_insert_eq in He'. congruence. }
  assert (Hold : forall w r', d_version d !! (en_id e, w) = Some r' ->
            d_entry d !! (sid, EntryTypeMCP, sj_Name server) = Some e).
  { intros w r' Hr'. destruct (d_entry d !! _) eqn:E.
    - destruct Hent as [(? & _)|(? & _)]; congruence.
    - exfalso. by apply (published_new_entry_id s d d' sid server c e r (en_id e, w) e w r'). }
  split; [|split].
  - intros ty Hty. destruct Hent as [(? & Eq & ?)|(? & ? & ? & Eq)]; rewrite Eq in Hty; [by apply Hapart|].
    destruct (decide (ty = EntryTypeMCP)); [done|]. rewrite lookup_insert_ne in Hty by congruence. by apply Hapart.
  - intros w r'. rewrite Hver. intros [[[= <-] _]|[_ Hr']]%lookup_insert_Some; [done|].
    by eapply (Hmax _ (Hold _ _ Hr')).
  - assert (Hself : IsNewerVersion (sj_Version server) (sj_Version server) = false) by by apply newer_irrefl.
    rewrite Hver. rewrite Hlat. unfold latest_after.
    destruct (d_latest d !! (sid, sj_Name server)) as [[cur cid]|] eqn:El.
    + destruct (wf_latest d Hwf _ _ _ _ El) as (ty & e1 & r1 & He1 & Hr1 & Hid1).
      pose proof (Hapart ty (mk_is_Some _ _ He1)) as ->.
      destruct (Hmax _ He1) as (_ & Hsv & v & r2 & Hl & Hv & Hnew). rewrite El in Hl. simplify_eq.
      assert (e1 = e) as -> by (destruct Hent as [(? & _)|(? & _)]; congruence).
      destruct (IsNewerVersion (sj_Version server) v) eqn:En.
      * exists (sj_Version server), r. rewrite !lookup_insert_eq. split_and!; [done|done|].
        intros w r' [[[= <-] _]|[_ Hr']]%lookup_insert_Some; [done|].
        apply not_true_is_false. intros Hw.
        assert (IsNewerVersion w v = true) as Hwv by (eapply newer_trans; [| | |exact Hw|exact En]; eauto).
        by rewrite (Hnew _ _ Hr') in Hwv.
      * exists v, r1. split; [congruence|]. split.
        { rewrite lookup_insert_ne; [done|]. intros [= Heq]. destruct Hfr as [Hfr _]. congruence. }
        intros w r' [[[= <-] _]|[_ Hr']]%lookup_insert_Some; [done|eauto].
    + exists (sj_Version server), r. rewrite !lookup_insert_eq. split_and!; [done|done|].
      intros w r' [[[= <-] _]|[_ Hr']]%lookup_insert_Some; [done|]. exfalso.
      destruct (Hmax _ (Hold _ _ Hr')) as (_ & _ & v & r2 & Hl & _). congruence.
Qed.

(** ** The effect of deleting *)

Lemma cascade_none d : cascade_versions (fun _ => false) d = d.
Proof.
  destruct d. unfold cascade_versions, set_plugin, set_skill, set_content, set_latest, set_version. simpl.
  f_equal; by apply map_filter_id.
Qed.

Lemma version_ids_elem x rows :
  x ∈ version_ids rows <-> exists v r, (v, r) ∈ rows /\ x = {| vr_id := ve_id r; vr_version := v |}.
Proof.
  unfold version_ids. rewrite list_elem_of_fmap. split.
  - intros ([v r] & -> & ?). eauto.
  - intros (v & r & ? & ->). by exists (v, r).
Qed.

Lemma findHighest_rows rows : rows <> [] ->
  exists v r, (v, r) ∈ rows /\ findHighestVersion (version_ids rows) = (ve_id r, v) /\
    ((forall v r, (v, r) ∈ rows -> is_semver v = true) -> forall w r', (w, r') ∈ rows -> IsNewerVersion w v = false).
Proof.
  intros Hne. destruct rows as [|[v0 r0] rest]; [done|].
  set (x := {| vr_id := ve_id r0; vr_version := v0 |}).
  pose proof (highest_from_in x (version_ids rest)) as Hin.
  change (highest_from x (version_ids rest) ∈ version_ids ((v0, r0) :: rest)) in Hin.
  apply version_ids_elem in Hin as (v & r & Hvr & E). exists v, r. split; [done|]. split.
  - simpl. fold x. by rewrite E.
  - intros Hs w r' Hw.
    assert (Hall : Forall (fun y => is_semver (vr_version y) = true) (x :: version_ids rest)).
    { apply Forall_forall. intros y Hy. change (y ∈ version_ids ((v0, r0) :: rest)) in Hy.
      apply version_ids_elem in Hy as (u & z & Hu & ->). simpl. eauto. }
    pose proof (highest_from_max x (version_ids rest) Hall) as Hmax.
    rewrite E in Hmax. apply (Hmax {| vr_id := ve_id r'; vr_version := w |}).
    change (x :: version_ids rest) with (version_ids ((v0, r0) :: rest)).
    apply version_ids_elem. eauto.
Qed.

Lemma sorted_versions_elem v r eid d :
  (v, r) ∈ merge_sort by_version (entry_versions eid d) <-> d_version d !! (eid, v) = Some r.
Proof. rewrite merge_sort_Permutation. apply elem_of_entry_versions. Qed.

Definition repointed (sid : uuid) (name : string) (eid : uuid) (d d' : DB) : Prop :=
  (is_Some (d_latest d !! (sid, name)) /\ d' = d) \/
  (d_latest d !! (sid, name) = None /\ entry_versions eid d = [] /\ d' = d) \/
  (d_latest d !! (sid, name) = None /\
   exists v r, d_version d !! (eid, v) = Some r /\
     ((forall w r', d_version d !! (eid, w) = Some r' -> is_semver w = true) ->
      forall w r', d_version d !! (eid, w) = Some r' -> IsNewerVersion w v = false) /\
     d' = set_latest d (<[(sid, name) := (v, ve_id r)]> (d_latest d))).

Lemma rePoint_ok sid name eid o n d n' d' :
  wf_core d -> rePointLatestVersionIfNeeded sid name eid o n d = (Ok (), n', d') ->
  repointed sid name eid d d'.
Proof.
  intros Hwf H. unfold rePointLatestVersionIfNeeded, GetLatestEntryVersion in H. run_ok.
  destruct a as [cur|err].
  { apply select_run_ok in E as [E ->]. run_ok. left. split; [|done].
    destruct (d_latest _ !! _); [eauto|done]. }
  destruct (errorIs err ErrNoRows) eqn:Enr; simpl in H; [|by run_ok].
  apply select_no_rows in E as [E ->]; [|done].
  destruct (d_latest d !! (sid, name)) eqn:El; [done|]. unfold ListEntryVersions in H. run_ok. simplify_eq.
  destruct (decide (entry_versions eid d = [])) as [Hnil|Hne].
  { rewrite Hnil in H. simpl in H. run_ok. right; left. done. }
  destruct (findHighest_rows (merge_sort by_version (entry_versions eid d))) as (v & r & Hin & Hf & Hmax).
  { intros Hm. apply Hne. pose proof (merge_sort_Permutation by_version (entry_versions eid d)) as Hp.
    rewrite Hm in Hp. by apply Permutation_nil_l in Hp. }
  apply sorted_versions_elem in Hin. rewrite Hf in H.
  destruct (Nat.eqb_spec (ve_id r) uuid_Nil) as [Hz|_].
  { pose proof (wf_version_id d Hwf _ _ Hin). unfold uuid_Nil in Hz. lia. }
  run_ok. apply query_run_ok in E0. simplify_eq. right; right. split; [done|]. exists v, r.
  split_and!; try done. intros Hs w r' Hw. eapply Hmax; [|by apply sorted_versions_elem].
  intros u x Hu. apply sorted_versions_elem in Hu. eauto.
Qed.

Lemma cleanup_ok eid o n d n' d' :
  cleanupOrphanedEntry eid o n d = (Ok (), n', d') ->
  (entry_versions eid d <> [] /\ d' = d) \/
  (entry_versions eid d = [] /\ d' = set_entry d (filter (fun kv => en_id (snd kv) <> eid) (d_entry d))).
Proof.
  unfold cleanupOrphanedEntry, CountEntryVersions. intros H. run_ok. simplify_eq.
  destruct (entry_versions eid _) as [|x l] eqn:Ev; simpl in H; run_ok; [right|by left].
  split; [done|]. apply query_run_ok in E. cbv zeta in E. rewrite Ev in E. simpl in E.
  rewrite cascade_none in E. by simplify_eq.
Qed.

Lemma lookupAndDelete_ok sid ty name v o n d eid n' d' :
  lookupAndDeleteEntryVersion sid ty name v o n d = (Ok eid, n', d') ->
  exists e r, d_entry d !! (sid, ty, name) = Some e /\ en_id e = eid /\
    d_version d !! (eid, v) = Some r /\ d' = cascade_versions (Nat.eqb (ve_id r)) d.
Proof.
  unfold lookupAndDeleteEntryVersion, GetRegistryEntryByName. intros H. run_ok. destruct a as [e|err].
  - apply select_run_ok in E as [E ->]. run_ok. apply query_run_ok in E0.
    destruct (d_entry _ !! _) eqn:Ee; simplify_eq.
    destruct (d_version _ !! _) as [r|] eqn:Ev; simplify_eq/=; run_ok. eauto 10.
  - destruct (errorIs err ErrNoRows); run_ok.
Qed.

Lemma cascade_version d k0 r :
  wf_core d -> d_version d !! k0 = Some r ->
  d_version (cascade_versions (Nat.eqb (ve_id r)) d) = delete k0 (d_version d).
Proof.
  intros Hwf Hr. simpl. apply map_eq. intros k. apply option_eq. intros x.
  rewrite map_lookup_filter_Some, lookup_delete_Some. simpl. rewrite Nat.eqb_neq. split.
  - intros [Hx Hid]. split; [|done]. intros ->. congruence.
  - intros [Hk Hx]. split; [done|]. intros Hid. apply Hk. by eapply (wf_version_inj d).
Qed.

Lemma cascade_latest d r k w id :
  d_latest (cascade_versions (Nat.eqb (ve_id r)) d) !! k = Some (w, id) <->
  d_latest d !! k = Some (w, id) /\ id <> ve_id r.
Proof. simpl. rewrite map_lookup_filter_Some. simpl. rewrite Nat.eqb_neq. naive_solver. Qed.

Lemma wf_core_drop_entry d eid :
  wf_core d -> entry_versions eid d = [] ->
  wf_core (set_entry d (filter (fun kv => en_id (snd kv) <> eid) (d_entry d))).
Proof.
  intros [H1 H2 H3 H4 H5 H6 H7] Hnil.
  assert (Hno : forall w r, d_version d !! (eid, w) = Some r -> False).
  { intros w r Hr%elem_of_entry_versions. rewrite Hnil in Hr. by apply not_elem_of_nil in Hr. }
  split; simpl; try done.
  - intros k e [He _]%map_lookup_filter_Some. eauto.
  - intros k1 k2 e1 e2 [He1 _]%map_lookup_filter_Some [He2 _]%map_lookup_filter_Some. eauto.
  - intros eid' v r Hr. destruct (H5 _ _ _ Hr) as (sid & ty & e & He & Hid). exists sid, ty, e.
    split; [|done]. apply map_lookup_filter_Some. split; [done|]. simpl. intros E.
    subst eid'. rewrite E in Hr. eauto.
  - intros sid name v vid Hl. destruct (H6 _ _ _ _ Hl) as (ty & e & r & He & Hr & Hid).
    exists ty, e, r. split; [|done]. apply map_lookup_filter_Some. split; [done|]. simpl. intros E.
    rewrite E in Hr. eauto.
Qed.

(** The state after a deletion: the version row and what hangs on it is gone,
    the pointer is right again, and an entry left without versions is gone. *)
Record deleted (ty : EntryType) (d d' : DB) (sid : uuid) (name v : string) (e : EntryRow) (r : VersionRow) : Prop := {
  del_entry : d_entry d !! (sid, ty, name) = Some e;
  del_row : d_version d !! (en_id e, v) = Some r;
  del_version : d_version d' = delete (en_id e, v) (d_version d);
  del_latest : forall k, k <> (sid, name) -> d_latest d' !! k = d_latest d !! k;
  del_entries : forall k, d_entry d' !! k =
    if bool_decide (k = (sid, ty, name) /\ entry_versions (en_id e) d' = []) then None
    else d_entry d !! k;
  del_content : d_server d' = delete (ve_id r) (d_server d);
  del_frame : d_source d' = d_source d /\ d_registry d' = d_registry d /\
              d_registry_source d' = d_registry_source d }.

Section Delete.
Variables (d d2 d' : DB) (sid : uuid) (ty : EntryType) (name v : string) (e : EntryRow) (r : VersionRow).
Let d1 := cascade_versions (Nat.eqb (ve_id r)) d.
Hypothesis Hwf : wf_core d.
Hypothesis He : d_entry d !! (sid, ty, name) = Some e.
Hypothesis Hr : d_version d !! (en_id e, v) = Some r.
Hypothesis Hrep : repointed sid name (en_id e) d1 d2.

Lemma del_wf1 : wf_core d1.
Proof. by apply wf_core_cascade. Qed.

Lemma del_version1 : d_version d1 = delete (en_id e, v) (d_version d).
Proof. by apply cascade_version. Qed.

Lemma del_version2 : d_version d2 = d_version d1.
Proof. by destruct Hrep as [[_ ->]|[(_ & _ & ->)|(_ & w & x & _ & _ & ->)]]. Qed.
Lemma del_entry2 : d_entry d2 = d_entry d.
Proof. by destruct Hrep as [[_ ->]|[(_ & _ & ->)|(_ & w & x & _ & _ & ->)]]. Qed.

Lemma del_wf2 : wf_core d2.
Proof.
  destruct Hrep as [[_ ->]|[(_ & _ & ->)|(_ & w & x & Hx & _ & ->)]]; try apply del_wf1.
  eapply wf_core_upsert_latest; [apply del_wf1|exact He|exact Hx].
Qed.

Hypothesis Hclean : (entry_versions (en_id e) d2 <> [] /\ d' = d2) \/
  (entry_versions (en_id e) d2 = [] /\
   d' = set_entry d2 (filter (fun kv => en_id (snd kv) <> en_id e) (d_entry d2))).

Lemma del_wf' : wf_core d'.
Proof.
  destruct Hclean as [[_ ->]|[Hnil ->]]; [apply del_wf2|]. apply wf_core_drop_entry; [apply del_wf2|done].
Qed.

(** A version other than the deleted one keeps its row and its id. *)
Lemma del_keep k x : d_version d !! k = Some x -> k <> (en_id e, v) ->
  d_version d1 !! k = Some x /\ ve_id x <> ve_id r.
Proof.
  intros Hx Hk. rewrite del_version1, lookup_delete_Some. split; [done|].
  intros Hid. apply Hk. by eapply (wf_version_inj d Hwf).
Qed.

Lemma del_content' : wf_content d -> wf_content d'.
Proof.
  intros Hwc. assert (H1 : wf_content d1) by by apply wf_content_cascade.
  assert (H2 : wf_content d2).
  { destruct Hrep as [[_ ->]|[(_ & _ & ->)|(_ & w & x & _ & _ & ->)]]; try done.
    destruct H1 as [? ? ? ?]. by split. }
  destruct Hclean as [[_ ->]|[_ ->]]; [done|]. destruct H2 as [? ? ? ?]. by split.
Qed.

Lemma del_latest_other sid' name' e' :
  d_entry d !! (sid', EntryTypeMCP, name') = Some e' -> (sid', name') <> (sid, name) ->
  latest_ok d sid' name' e' -> latest_ok d2 sid' name' e'.
Proof.
  intros He' Hne (Hty & Hsv & w & x & Hl & Hx & Hnew).
  assert (Hide : en_id e' <> en_id e).
  { intros Hid. pose proof (wf_entry_inj d Hwf _ _ _ _ He' He Hid). congruence. }
  assert (Hkeep : forall u, (en_id e', u) <> (en_id e, v)) by congruence.
  assert (Hl1 : d_latest d1 !! (sid', name') = Some (w, ve_id x)).
  { apply cascade_latest. split; [done|]. by destruct (del_keep _ _ Hx (Hkeep w)). }
  unfold latest_ok. rewrite del_entry2, del_version2. split_and!; [done| |].
  - intros u y. rewrite del_version1. intros [_ Hy]%lookup_delete_Some. eauto.
  - exists w, x. split_and!.
    + destruct Hrep as [[_ ->]|[(_ & _ & ->)|(_ & w' & x' & _ & _ & ->)]]; try done. simpl.
      rewrite lookup_insert_ne by congruence. done.
    + by apply del_keep.
    + intros u y. rewrite del_version1. intros [_ Hy]%lookup_delete_Some. eauto.
Qed.

Lemma del_latest_self : entry_versions (en_id e) d2 <> [] -> latest_ok d sid name e -> latest_ok d2 sid name e.
Proof.
  intros Hne (Hty & Hsv & w & x & Hl & Hx & Hnew).
  assert (Hsub : forall u y, d_version d1 !! (en_id e, u) = Some y -> d_version d !! (en_id e, u) = Some y).
  { intros u y. rewrite del_version1. by intros [_ ?]%lookup_delete_Some. }
  unfold latest_ok. rewrite del_entry2, del_version2. split_and!; [done|eauto|].
  destruct Hrep as [[[[w1 id1] Hl1] E2]|[(_ & Hnil & E2)|(_ & w1 & x1 & Hx1 & Hmax1 & E2)]].
  - pose proof Hl1 as Hl1'. apply cascade_latest in Hl1' as [Hl1' Hid]. rewrite Hl in Hl1'. injection Hl1' as <- <-.
    exists w, x. rewrite E2. split_and!; [done| |eauto].
    apply del_keep; [done|]. intros [= ->]. congruence.
  - by rewrite E2 in Hne.
  - exists w1, x1. rewrite E2. simpl. rewrite lookup_insert_eq. split_and!; eauto.
Qed.

(** A pointer that was right is right. *)
Lemma del_latest_kept sid' name' e' : ty = EntryTypeMCP ->
  d_entry d' !! (sid', EntryTypeMCP, name') = Some e' -> latest_ok d sid' name' e' -> latest_ok d' sid' name' e'.
Proof.
  intros Hmcp He' Hwas. pose proof He as He0. rewrite Hmcp in He0.
  assert (Hin : d_entry d !! (sid', EntryTypeMCP, name') = Some e').
  { rewrite <-del_entry2. destruct Hclean as [[_ ->]|[_ ->]]; [done|]. simpl in He'.
    by apply map_lookup_filter_Some in He' as [? _]. }
  assert (Hok : latest_ok d2 sid' name' e').
  { destruct (decide ((sid', name') = (sid, name))) as [[= -> ->]|Hne]; [|by apply del_latest_other].
    assert (e' = e) as -> by congruence. apply del_latest_self; [|done].
    destruct Hclean as [[? _]|[_ ->]]; [done|]. simpl in He'.
    by apply map_lookup_filter_Some in He' as [_ ?]. }
  destruct Hclean as [[_ ->]|[_ ->]]; [done|].
  destruct Hok as (Hty & Hsv & Hl). split; [|by split]. simpl. intros ty' [x Hx].
  apply map_lookup_filter_Some in Hx as [Hx _]. apply Hty. eauto.
Qed.

(** There is a pointer as long as there is a version. *)
Lemma del_latest_there : entry_versions (en_id e) d' <> [] -> is_Some (d_latest d' !! (sid, name)).
Proof.
  intros Hne. assert (Hd : d' = d2).
  { destruct Hclean as [[_ ?]|[Hnil E]]; [done|]. exfalso. apply Hne. by rewrite E. }
  rewrite Hd in *. destruct Hrep as [[[x Hx] ->]|[(_ & Hnil & ->)|(_ & w & x & _ & _ & ->)]]; [by exists x|done|].
  cbn. rewrite lookup_insert_eq. by eexists.
Qed.
End Delete.

(** ** The operations *)

Lemma PublishServerVersion_run s ctx opts now o n d src n' d' :
  PublishServerVersion s ctx opts now o n d = (Ok src, n', d') ->
  exists server source claimsJSON n1 n2,
    po_ServerData opts = Some server /\ ServerName.IsValidServerName (sj_Name server) = true /\
    validateClaimsSubset ctx (gate s (po_JWTClaims opts)) (claims_or_empty (po_Claims opts)) = Ok () /\
    (match po_Claims opts with None => claimsJSON = "" | Some c => json_Marshal c = Some claimsJSON end) /\
    managed_sources d = [(src, source)] /\
    validateClaimsVisibleBytes ctx (gate s (po_JWTClaims opts)) (so_claims source) = Ok () /\
    insertServerData s server (so_id source) claimsJSON now o n1 d = (Ok (), n2, d').
Proof.
  intros H. unfold PublishServerVersion in H. destruct (po_ServerData opts) as [server|]; [|by run_ok].
  destruct (ServerName.IsValidServerName (sj_Name server)) eqn:Ev; simpl in H; [|by run_ok]. run_ok.
  apply transaction_ok in H as (n1 & n2 & H). run_ok.
  match goal with H : getManagedSource _ _ _ = _ |- _ => apply getManagedSource_ok in H as [Hm ->] end.
  repeat match goal with x : () |- _ => destruct x end. destruct a1 as [nm source].
  exists server, source, a0. eexists _, _. split_and!; try done.
  destruct (po_Claims opts); [|congruence]. unfold or_err in *. case_match; congruence.
Qed.

(** A publication that fails, for whatever reason (validation, claims, a
    duplicate version, a fault of any database call, the commit), changes
    nothing. *)
Lemma PublishServerVersion_atomic s ctx opts now o n d err n' d' :
  PublishServerVersion s ctx opts now o n d = (Err err, n', d') -> d' = d.
Proof.
  unfold PublishServerVersion, executePublishTransaction. intros H.
  destruct (po_ServerData opts) as [server|]; [|unfold fail in H; congruence].
  destruct (negb _); [unfold fail in H; congruence|]. unfold mbind at 1 2, Q_bind, lift in H.
  destruct (validateClaimsSubset _ _ _); [|congruence].
  destruct (po_Claims opts) as [c|]; [|by apply transaction_atomic in H].
  destruct (or_err _ _); [by apply transaction_atomic in H|congruence].
Qed.


Lemma cascade_server d r :
  d_server (cascade_versions (Nat.eqb (ve_id r)) d) = delete (ve_id r) (d_server d).
Proof.
  simpl. apply map_eq. intros k. apply option_eq. intros x.
  rewrite map_lookup_filter_Some, lookup_delete_Some. simpl. rewrite Nat.eqb_neq. naive_solver.
Qed.

Lemma entry_versions_ext eid d d' : d_version d = d_version d' -> entry_versions eid d = entry_versions eid d'.
Proof. unfold entry_versions. by intros ->. Qed.

Lemma deleted_intro ty d d2 d' sid name v e r :
  wf_core d -> d_entry d !! (sid, ty, name) = Some e -> d_version d !! (en_id e, v) = Some r ->
  let d1 := cascade_versions (Nat.eqb (ve_id r)) d in
  repointed sid name (en_id e) d1 d2 ->
  (entry_versions (en_id e) d2 <> [] /\ d' = d2) \/
  (entry_versions (en_id e) d2 = [] /\
   d' = set_entry d2 (filter (fun kv => en_id (snd kv) <> en_id e) (d_entry d2))) ->
  deleted ty d d' sid name v e r.
Proof.
  intros Hwf He Hr d1 Hrep Hcl.
  assert (Hv2 : d_version d2 = delete (en_id e, v) (d_version d)).
  { rewrite (del_version2 d d2 sid name e r Hrep). by eapply del_version1. }
  assert (He2 : d_entry d2 = d_entry d) by by eapply del_entry2.
  assert (Hv' : d_version d' = d_version d2) by by destruct Hcl as [[_ ->]|[_ ->]].
  split; try done.
  - by rewrite Hv'.
  - intros k Hk. trans (d_latest d1 !! k).
    { destruct Hcl as [[_ ->]|[_ ->]]; simpl;
        destruct Hrep as [[_ ->]|[(_ & _ & ->)|(_ & w & x & _ & _ & ->)]]; try done; simpl;
        by rewrite lookup_insert_ne. }
    destruct k as [sid' name']. apply option_eq. intros [w id]. unfold d1. rewrite cascade_latest.
    split; [by intros [? _]|]. intros Hl. split; [done|]. intros ->. apply Hk.
    destruct (wf_latest d Hwf _ _ _ _ Hl) as (ty' & e1 & r1 & He1 & Hr1 & Hid).
    pose proof (wf_version_inj d Hwf _ _ _ _ Hr1 Hr Hid) as [= Heq _].
    pose proof (wf_entry_inj d Hwf _ _ _ _ He1 He Heq). congruence.
  - intros k. rewrite (entry_versions_ext _ d' d2) by done.
    destruct Hcl as [[Hne ->]|[Hnil ->]].
    + rewrite bool_decide_eq_false_2 by naive_solver. by rewrite He2.
    + simpl. rewrite He2. destruct (decide (k = (sid, ty, name))) as [->|Hk].
      * rewrite bool_decide_eq_true_2 by done. apply map_lookup_filter_None. right. intros x Hx. simpl.
        intros Hneq. congruence.
      * rewrite bool_decide_eq_false_2 by naive_solver. apply option_eq. intros x.
        rewrite map_lookup_filter_Some. simpl. split; [by intros [? _]|]. intros Hx. split; [done|].
        intros Hid. apply Hk. by eapply (wf_entry_inj d Hwf).
  - trans (d_server d1); [|apply cascade_server].
    by destruct Hcl as [[_ ->]|[_ ->]]; simpl;
      destruct Hrep as [[_ ->]|[(_ & _ & ->)|(_ & w & x & _ & _ & ->)]].
  - by destruct Hcl as [[_ ->]|[_ ->]]; simpl;
      destruct Hrep as [[_ ->]|[(_ & _ & ->)|(_ & w & x & _ & _ & ->)]].
Qed.

Lemma deleteGate_ok s ctx sid opts o n d n' d' :
  deleteGate s ctx sid opts o n d = (Ok (), n', d') ->
  d' = d /\
  (do_JWTClaims opts = None \/
   exists e, d_entry d !! (sid, EntryTypeMCP, do_ServerName opts) = Some e /\
     validateClaimsVisibleBytes ctx (gate s (do_JWTClaims opts)) (en_claims e) = Ok ()).
Proof.
  unfold deleteGate, GetRegistryEntryByName. destruct (do_JWTClaims opts) as [jwt|]; intros H; run_ok.
  - destruct a as [e|err]; [|destruct (errorIs err ErrNoRows); by run_ok].
    run_ok. split; [done|]. right. destruct (d_entry _ !! _); simplify_eq. eauto.
  - by split; [|left].
Qed.

(** C6. A successful deletion removes exactly the version, with what hangs on it:
    an entry left without versions is gone and no other entry is, the pointers of
    other names are as before, ids and references stay sound, and a caller with
    claims was allowed to see the entry.  As long as the entry has a version its
    name has a latest pointer, and a pointer that was right is right again: an
    entry (this one, if it stays, or another) whose versions are all semantic,
    whose name no skill or plugin of the source has, and whose pointer was at a
    version none of its versions is newer than, is so after the deletion.  Other
    entries of the database may have any versions. *)
Theorem DeleteServerVersion_correct s ctx opts o n d n' d' :
  wf_core d -> wf_content d -> DeleteServerVersion s ctx opts o n d = (Ok (), n', d') ->
  wf_core d' /\ wf_content d' /\
  exists src source e r,
    managed_sources d = [(src, source)] /\
    deleted EntryTypeMCP d d' (so_id source) (do_ServerName opts) (do_Version opts) e r /\
    (entry_versions (en_id e) d' <> [] -> is_Some (d_latest d' !! (so_id source, do_ServerName opts))) /\
    (do_JWTClaims opts = None \/
     validateClaimsVisibleBytes ctx (gate s (do_JWTClaims opts)) (en_claims e) = Ok ()) /\
    forall sid name e', d_entry d' !! (sid, EntryTypeMCP, name) = Some e' ->
      latest_ok d sid name e' -> latest_ok d' sid name e'.
Proof.
  intros Hwf Hwc H. unfold DeleteServerVersion, executeDeleteTransaction in H.
  apply transaction_ok in H as (n1 & n2 & H). run_ok.
  apply getManagedSource_ok in E as [Hm ->]. destruct a as [nm source]. simpl in *.
  repeat match goal with x : () |- _ => destruct x end.
  apply deleteGate_ok in E0 as [-> Hgate].
  apply lookupAndDelete_ok in E1 as (e & r & He & <- & Hr & ->).
  apply rePoint_ok in E2; [|by apply wf_core_cascade].
  apply cleanup_ok in H. split; [by eapply del_wf'|]. split; [by eapply del_content'|].
  exists nm, source, e, r. split; [done|]. split; [by eapply deleted_intro|]. split; [by eapply del_latest_there|]. split.
  - destruct Hgate as [?|(e' & He' & ?)]; [by left|right]. congruence.
  - intros sid name e'. by eapply del_latest_kept.
Qed.

(** C7. Changing the claims of an entry: a success writes the new claims on
    that entry and touches nothing else, the caller saw the entry under its old
    claims and its own cover the new ones, and (unless the gate is off or the
    caller is a super-admin) the new claims are not empty; a failure writes
    nothing. *)
Theorem UpdateEntryClaims_correct s ctx opts o n d res n' d' :
  UpdateEntryClaims s ctx opts o n d = (res, n', d') ->
  match res with
  | Err _ => d' = d
  | Ok _ =>
      exists src source ty e,
        managed_sources d = [(src, source)] /\ mapEntryType (uo_EntryType opts) = Ok ty /\
        let k := (so_id source, ty, uo_Name opts) in
        d_entry d !! k = Some e /\
        d' = set_entry d (<[k := {| en_id := en_id e; en_claims := SerializeClaims (uo_Claims opts) |}]>
                            (d_entry d)) /\
        validateClaimsVisibleBytes ctx (gate s (uo_JWTClaims opts)) (en_claims e) = Ok () /\
        (gate s (uo_JWTClaims opts) = None \/ IsSuperAdmin ctx = true \/
         exists caller, gate s (uo_JWTClaims opts) = Some caller /\
           claims_or_empty (uo_Claims opts) <> ∅ /\
           claimsContain caller (claims_or_empty (uo_Claims opts)) = true)
  end.
Proof.
  intros H. destruct res as [[]|err].
  - unfold UpdateEntryClaims in H. run_ok. unfold validateClaimsSubset in *.
    apply transaction_ok in H as (n1 & n2 & H). run_ok.
    match goal with H : getManagedSource _ _ _ = _ |- _ => apply getManagedSource_ok in H as [Hm ->] end.
    repeat match goal with x : () |- _ => destruct x end. destruct a2 as [nm source]. cbn [fst snd] in *.
    match goal with H : validateClaimsWith _ _ _ _ = Ok _ |- _ => apply validateClaimsWith_ok in H end.
    run_ok.
    match goal with H : UpdateRegistryEntryClaims _ _ _ _ _ _ _ = _ |- _ => apply query_run_ok in H; rename H into Hu end.
    match goal with H : lookupEntry _ _ _ _ _ _ = _ |- _ => rename H into Hl end.
    unfold lookupEntry, GetRegistryEntryByName in Hl. run_ok.
    match goal with x : result EntryRow |- _ => destruct x as [e|err] end;
      [|destruct (errorIs err ErrNoRows); by run_ok]. run_ok.
    match goal with H : match d_entry d !! _ with _ => _ end = Ok _ |- _ => rename H into He end.
    destruct (d_entry d !! _) as [e'|] eqn:Ee; simplify_eq/=. run_ok.
    repeat match goal with x : () |- _ => destruct x end.
    exists nm, source, a, e. split_and!; try done.
  - unfold UpdateEntryClaims in H. unfold mbind at 1 2 3, Q_bind, lift in H.
    destruct (mapEntryType _); [|congruence].
    destruct (match uo_Claims opts with Some _ => _ | None => _ end); [|congruence].
    destruct (validateClaimsSubset _ _ _); [|congruence]. by apply transaction_atomic in H.
Qed.

End Correct.

(** ** A concrete database

    One managed source, a publisher whose claims cover what it stamps, and the
    publication and deletion of one server version. *)
Module EntriesExample.
#[local] Existing Instance ClaimsJson.codec.
#[local] Existing Instance ClaimsJson.laws.
#[local] Existing Instance MiniSemver.lib.
#[local] Existing Instance MiniSemver.laws.

#[export] Instance mini_codec : ServerCodec :=
  {| kv_Marshal := fun _ => Some "[{}]"; args_Marshal := fun _ => Some "[{}]";
     meta_Marshal := fun m => Some (String.concat "," (fst <$> m)) |}.

#[export] Instance bytewise : Collation := {| coll_le := String.le |}.

Definition d0 : DB :=
  {| d_next := 2; d_source := {[ "internal" :=
       {| so_id := 1; so_creation_type := CreationTypeAPI; so_source_type := SourceTypeManaged;
          so_source_config := ""; so_filter_config := ""; so_sync_schedule := None; so_syncable := false;
          so_claims := default "" (json_Marshal {[ "org" := VString "acme" ]}); so_created_at := 0 |} ]};
     d_registry := ∅; d_registry_source := ∅; d_entry := ∅; d_version := ∅; d_latest := ∅;
     d_server := ∅; d_package := ∅; d_remote := ∅; d_icon := ∅; d_sync := ∅; d_skill := ∅; d_plugin := ∅ |}.

Definition transport : Transport := {| tr_Type := "stdio"; tr_URL := ""; tr_Headers := [] |}.
Definition server : ServerJSON :=
  {| sj_Schema := ""; sj_Name := "io.acme/db"; sj_Description := "d"; sj_Title := "t"; sj_Version := "1.2.0";
     sj_WebsiteURL := ""; sj_Repository := None;
     sj_Packages := [ {| pk_RegistryType := "oci"; pk_RegistryBaseURL := ""; pk_Identifier := "acme/db";
       pk_Version := "1"; pk_FileSHA256 := ""; pk_RunTimeHint := ""; pk_Transport := transport;
       pk_RuntimeArguments := []; pk_PackageArguments := []; pk_EnvironmentVariables := [] |} ];
     sj_Remotes := []; sj_Icons := [ {| ic_Src := "i.png"; ic_MimeType := None; ic_Theme := Some "dark" |} ];
     sj_Meta := None |}.

Definition svc : dbService := {| sv_skipAuthz := false; sv_maxMetaSize := 262144 |}.
Definition caller : claims := {[ "org" := VString "acme"; "sub" := VString "alice" ]}.
Definition ctx : Ctx := {| ctx_claims := Some caller; ctx_roles := [RoleManageEntries]; ctx_holder := false |}.
Definition popts : PublishServerVersionOptions :=
  {| po_ServerData := Some server; po_JWTClaims := Some caller;
     po_Claims := Some {[ "org" := VString "acme" ]} |}.
Definition dopts : DeleteServerVersionOptions :=
  {| do_ServerName := "io.acme/db"; do_Version := "1.2.0"; do_JWTClaims := Some caller |}.

Definition no_fault : Oracle := fun _ => None.
(** The insert of the package, inside the transaction, loses the connection. *)
Definition late_fault : Oracle := fun n => if (n =? 6)%nat then Some (FConn "reset") else None.

Definition run1 := PublishServerVersion svc ctx popts 0 no_fault 0 d0.
Definition d1 : DB := snd run1.

Lemma run1_ok : PublishServerVersion svc ctx popts 0 no_fault 0 d0 = (Ok "internal", snd (fst run1), d1).
Proof. vm_compute. reflexivity. Qed.

Lemma d0_wf : wf_core d0 /\ wf_content d0.
Proof. split; split; simpl; intros; by try rewrite lookup_empty in *; try lia. Qed.

Lemma PublishServerVersion_atomic_witness : snd (PublishServerVersion svc ctx popts 0 late_fault 0 d0) = d0.
Proof.
  apply (PublishServerVersion_atomic svc ctx popts 0 late_fault 0 d0 (EMsg "failed to insert server package")
           (snd (fst (PublishServerVersion svc ctx popts 0 late_fault 0 d0)))).
  vm_compute. reflexivity.
Defined.


Lemma d1_wf : wf_core d1 /\ wf_content d1.
Proof.
  pose proof (PublishServerVersion_run _ _ _ _ _ _ _ _ _ _ run1_ok)
    as (sv & source & cj & n1 & n2 & E & _ & _ & _ & Hm & _ & H).
  pose proof d0_wf as (Hwf & Hwc). injection E as <-.
  apply insertServerData_ok in H as (e & r & Hpub & Hwf' & Hwc'); [exact (conj Hwf' Hwc')|exact Hwf|exact Hwc].
Qed.

Lemma DeleteServerVersion_correct_witness :
  wf_core (snd (DeleteServerVersion svc ctx dopts no_fault 0 d1)).
Proof.
  refine (proj1 (DeleteServerVersion_correct svc ctx dopts no_fault 0 d1
            (snd (fst (DeleteServerVersion svc ctx dopts no_fault 0 d1))) _ (proj1 d1_wf) (proj2 d1_wf) _)).
  vm_compute. reflexivity.
Defined.

Definition uopts : UpdateEntryClaimsOptions :=
  {| uo_EntryType := "server"; uo_Name := "io.acme/db"; uo_Claims := Some {[ "sub" := VString "alice" ]};
     uo_JWTClaims := Some caller |}.

Lemma UpdateEntryClaims_correct_witness :
  exists src source, managed_sources d1 = [(src, source)].
Proof.
  destruct (UpdateEntryClaims_correct svc ctx uopts no_fault 0 d1 (Ok ())
    (snd (fst (UpdateEntryClaims svc ctx uopts no_fault 0 d1)))
    (snd (UpdateEntryClaims svc ctx uopts no_fault 0 d1))) as (src & source & _ & _ & H & _).
  - vm_compute. reflexivity.
  - exists src, source. exact H.
Defined.

End EntriesExample.
