(* ===== verification/Streaming.v ===== *)
(** * Listing servers

    The batch loop of [internal/service/db/impl_mcp.go]: the de-duplicating
    filter, [streamHelpers] and the registry gate ([lookupRegistryIDWithGate] of
    [impl_common.go]), over the rows the ListServers query of
    [database/queries/servers.sql] returns.  The operations built on it are in
    [ServerReads].

    The loop has no bound of its own; it is run with fuel, and more fuel than
    rows is shown to be enough. *)

From stdpp Require Import base list strings gmap sets sorting.
From Stdlib Require Import String ZArith Lia.
From S2P Require Import Prelude GoStrings Cursor Claims Codec Auth ClaimsGate Database.

Local Open Scope string_scope.
Local Open Scope list_scope.

(** [helper]: the columns the loop looks at, and the others of a server. *)
Record ServerColumns := {
  sc_IsLatest : bool; sc_CreatedAt : Z; sc_Description : string; sc_Title : string; sc_row : ServerRow }.
Definition no_columns : ServerColumns :=
  {| sc_IsLatest := false; sc_CreatedAt := 0; sc_Description := ""; sc_Title := "";
     sc_row := {| se_website := ""; se_server_meta := ""; se_repository := None |} |}.
Record helper := {
  h_ID : uuid;
  h_Name : string;
  h_Version : string;
  h_Claims : string;
  h_SourceID : uuid;      (* left zero by [listServersRowToHelper] *)
  h_Position : Z;
  h_columns : ServerColumns }.

(** The cursor of a list: name and version. *)
Abbreviation serverCursor := (string * string)%type.
Definition key (h : helper) : serverCursor := (h_Name h, h_Version h).

(** PostgreSQL's part of the conditions of a listing: the search
    [LOWER(column) LIKE LOWER('%' || search || '%')] of a text in a column, and
    [v.updated_at > t] for a version, whose update time is not kept here. *)
Class SqlConditions := {
  text_matches : string -> string -> bool;
  updated_after : uuid -> Z -> bool }.

Section Query.
Context `{Co : Collation}.

Definition coll_lt (a b : string) : Prop := coll_le a b /\ a <> b.

(** The row comparison [(v.name, v.version) > (cursor_name, cursor_version)]. *)
Definition key_lt (a b : serverCursor) : Prop :=
  coll_lt (fst a) (fst b) \/ (fst a = fst b /\ coll_lt (snd a) (snd b)).
#[export] Instance key_lt_dec a b : Decision (key_lt a b).
Proof. unfold key_lt, coll_lt. apply _. Defined.

(** ORDER BY v.name ASC, v.version ASC, rs.position ASC *)
Definition row_le (a b : helper) : Prop :=
  key_lt (key a) (key b) \/ (key a = key b /\ (h_Position a <= h_Position b)%Z).
#[export] Instance row_le_dec a b : Decision (row_le a b).
Proof. unfold row_le. apply _. Defined.

Lemma key_lt_irrefl a : ~ key_lt a a.
Proof. unfold key_lt, coll_lt. naive_solver. Qed.

Lemma coll_lt_trans a b c : coll_lt a b -> coll_lt b c -> coll_lt a c.
Proof.
  unfold coll_lt. intros [H1 N1] [H2 N2]. split; [by trans b|].
  intros ->. apply N1. by apply (anti_symm coll_le).
Qed.

Lemma key_lt_trans a b c : key_lt a b -> key_lt b c -> key_lt a c.
Proof.
  destruct a as [a1 a2], b as [b1 b2], c as [c1 c2]. unfold key_lt. simpl.
  intros [H1|[-> H1]] [H2|[-> H2]]; eauto using coll_lt_trans.
Qed.

Lemma key_lt_total a b : key_lt a b \/ a = b \/ key_lt b a.
Proof.
  destruct a as [a1 a2], b as [b1 b2]. unfold key_lt, coll_lt. simpl.
  destruct (decide (a1 = b1)) as [->|]; [|destruct (total coll_le a1 b1); auto 10].
  destruct (decide (a2 = b2)) as [->|]; [|destruct (total coll_le a2 b2); auto 10]. auto.
Qed.

#[export] Instance row_le_total : Total row_le.
Proof.
  intros a b. unfold row_le. destruct (key_lt_total (key a) (key b)) as [?|[E|?]]; auto.
  rewrite E. destruct (Z.le_ge_cases (h_Position a) (h_Position b)); auto.
Qed.
#[export] Instance row_le_trans : Transitive row_le.
Proof.
  intros a b c. unfold row_le. intros [H1|[E1 H1]] [H2|[E2 H2]].
  - left. by eapply key_lt_trans.
  - left. by rewrite <-E2.
  - left. by rewrite E1.
  - right. split; [congruence|lia].
Qed.

(** LEFT JOIN latest_entry_version *)
Definition is_latest (vid : uuid) (d : DB) : bool :=
  existsb (fun kv => (snd (snd kv) =? vid)%nat) (map_to_list (d_latest d)).
Definition columns (r : VersionRow) (row : ServerRow) (d : DB) : ServerColumns :=
  {| sc_IsLatest := is_latest (ve_id r) d; sc_CreatedAt := ve_created r; sc_Description := ve_description r;
     sc_Title := ve_title r; sc_row := row |}.

(** Versions of servers joined with their entries, sources and server rows;
    [position_of] is the join that picks the sources and their positions. *)
Definition join_servers (position_of : uuid -> option Z) (d : DB) : list (VersionRow * helper) :=
  map_to_list (d_entry d) ≫= fun '((sid, _, name), e) =>
    match position_of sid with
    | None => []
    | Some position =>
        omap (fun '(v, r) =>
          match d_server d !! ve_id r with
          | None => None
          | Some row => Some (r, {| h_ID := ve_id r; h_Name := name; h_Version := v;
                                    h_Claims := en_claims e; h_SourceID := sid; h_Position := position;
                                    h_columns := columns r row d |})
          end) (entry_versions (en_id e) d)
    end.

(** JOIN registry_source rs ON rs.source_id = e.source_id *)
Definition registry_servers (d : DB) (rid : uuid) : list (VersionRow * helper) :=
  join_servers (fun sid => d_registry_source d !! (rid, sid)) d.

(** ListServers selects no source id. *)
Definition listServersRowToHelper (h : helper) : helper :=
  {| h_ID := h_ID h; h_Name := h_Name h; h_Version := h_Version h; h_Claims := h_Claims h;
     h_SourceID := uuid_Nil; h_Position := h_Position h; h_columns := h_columns h |}.
Definition registry_rows (d : DB) (rid : uuid) : list helper :=
  (fun p => listServersRowToHelper (snd p)) <$> registry_servers d rid.

(** The rows that satisfy the search, version and update-time conditions, in
    order; the conditions are PostgreSQL's, given as a predicate. *)
Definition ordered_rows (where_ : helper -> bool) (d : DB) (rid : uuid) : list helper :=
  merge_sort row_le (List.filter where_ (registry_rows d rid)).

Definition after (cursor : option serverCursor) (h : helper) : bool :=
  match cursor with None => true | Some c => bool_decide (key_lt c (key h)) end.

Lemma filter_after_none rows : List.filter (after None) rows = rows.
Proof. induction rows as [|x l IH]; simpl; congruence. Qed.

(** ListServers: cursor and LIMIT on the ordered rows. *)
Definition ListServersQuery (rows : list helper) (cursor : option serverCursor) (size : nat) : list helper :=
  take size (List.filter (after cursor) rows).

End Query.

(** ** The de-duplicating filter

    [newDeduplicatingFilterWith]; the captured map is the state. *)
Abbreviation seen_map := (gmap string Z).

Definition dedupFilter (seen : seen_map) (h : helper) : bool * seen_map :=
  match seen !! h_Name h with
  | None => (true, <[h_Name h := h_Position h]> seen)
  | Some winPos => (bool_decide (h_Position h = winPos), seen)
  end.

(** One record of the inner loop. *)
Definition step_record (filter_ : RecordFilter helper) (st : seen_map * list helper) (h : helper)
    : result (seen_map * list helper) :=
  let '(seen, accumulated) := st in
  keep <- (match filter_ with None => Ok true | Some f => f h end) ;;
  if (keep : bool) then
    let '(keep, seen') := dedupFilter seen h in
    Ok (seen', if keep then accumulated ++ [h] else accumulated)
  else Ok (seen, accumulated).

Fixpoint process_batch (filter_ : RecordFilter helper) (st : seen_map * list helper) (batch : list helper)
    : result (seen_map * list helper) :=
  match batch with
  | [] => Ok st
  | h :: batch' => st' <- step_record filter_ st h ;; process_batch filter_ st' batch'
  end.

(** Trim to the limit and compute the next-page cursor. *)
Definition finish_page {Cu} (cursor_of : helper -> Cu) (limit : nat) (accumulated : list helper) : list helper * option Cu :=
  if (limit <? List.length accumulated)%nat
  then (take limit accumulated, cursor_of <$> accumulated !! (limit - 1)%nat)
  else (accumulated, None).

(** The queries read what they need of the last row: [cursor_of]. *)
Section Stream.
Context {Cu : Type} (cursor_of : helper -> Cu) (querierFunc : option Cu -> result (list helper)).
Context (filter_ : RecordFilter helper) (limit : nat).

(** The loop of [streamHelpers]; [None] is running out of fuel. *)
Fixpoint stream_loop (fuel : nat) (seen : seen_map) (accumulated : list helper)
    (cursor : option Cu) : option (result (list helper * option Cu)) :=
  match fuel with
  | O => None
  | S fuel' =>
      match querierFunc cursor with
      | Err e => Some (Err e)
      | Ok batch =>
          match process_batch filter_ (seen, accumulated) batch with
          | Err e => Some (Err e)
          | Ok (seen', accumulated') =>
              if (limit + 1 <=? List.length accumulated')%nat || (List.length batch <? limit + 1)%nat
              then Some (Ok (finish_page cursor_of limit accumulated'))
              else
                let cursor' := match last batch with Some r => Some (cursor_of r) | None => cursor end in
                stream_loop fuel' seen' accumulated' cursor'
          end
      end
  end.

Definition streamHelpers (fuel : nat) : option (result (list helper * option Cu)) :=
  stream_loop fuel ∅ [] None.

End Stream.

(** ** Reference

    The records a page should hold: those that pass the filter, one source per
    name, in order. *)
Definition visible {A} (filter_ : RecordFilter A) (h : A) : bool :=
  match filter_ with
  | None => true
  | Some f => match f h with Ok b => b | Err _ => false end
  end.

(** The filters the service builds never meet a record of another type. *)
Definition total_filter {A} (filter_ : RecordFilter A) : Prop :=
  match filter_ with None => True | Some f => forall h, is_ok (f h) = true end.

Fixpoint dedup (seen : seen_map) (l : list helper) : list helper * seen_map :=
  match l with
  | [] => ([], seen)
  | h :: l' =>
      let '(keep, seen') := dedupFilter seen h in
      let '(r, s) := dedup seen' l' in
      (if keep then h :: r else r, s)
  end.

Lemma dedup_app seen l1 l2 :
  dedup seen (l1 ++ l2) =
  let '(r1, s1) := dedup seen l1 in let '(r2, s2) := dedup s1 l2 in (r1 ++ r2, s2).
Proof.
  revert seen. induction l1 as [|h l1 IH]; intros seen; simpl; [by destruct (dedup seen l2)|].
  destruct (dedupFilter seen h) as [keep seen']. rewrite IH.
  destruct (dedup seen' l1) as [r1 s1]. destruct (dedup s1 l2) as [r2 s2]. by destruct keep.
Qed.

Lemma process_batch_spec filter_ seen acc batch :
  total_filter filter_ ->
  process_batch filter_ (seen, acc) batch =
  let '(r, s) := dedup seen (List.filter (visible filter_) batch) in Ok (s, acc ++ r).
Proof.
  intros Ht. revert seen acc. induction batch as [|h batch IH]; intros seen acc.
  { simpl. by rewrite app_nil_r. }
  cbn [process_batch List.filter]. unfold step_record.
  assert (Hv : match filter_ with None => Ok true | Some f => f h end = Ok (visible filter_ h)).
  { destruct filter_ as [f|]; simpl in *; [|done]. specialize (Ht h). by destruct (f h). }
  rewrite Hv. unfold rbind at 2. destruct (visible filter_ h).
  - cbn [dedup]. destruct (dedupFilter seen h) as [keep seen']. unfold rbind. rewrite IH.
    destruct (dedup seen' _) as [r s]. destruct keep; [|done]. by rewrite <-(assoc_L (++)).
  - unfold rbind. by rewrite IH.
Qed.

Lemma dedup_sublist seen l : fst (dedup seen l) `sublist_of` l.
Proof.
  revert seen. induction l as [|h l IH]; intros seen; simpl; [done|].
  destruct (dedupFilter seen h) as [keep seen']. specialize (IH seen').
  destruct (dedup seen' l) as [r s]. simpl in IH. destruct keep; by constructor.
Qed.

Lemma finish_page_length {Cu} (c : helper -> Cu) limit acc : (List.length (fst (finish_page c limit acc)) <= limit)%nat.
Proof.
  unfold finish_page. destruct (Nat.ltb_spec limit (List.length acc)); simpl; [|done].
  rewrite length_take. lia.
Qed.

Lemma finish_page_sub {Cu} (c : helper -> Cu) limit acc h : h ∈ fst (finish_page c limit acc) -> h ∈ acc.
Proof.
  unfold finish_page. case_match; simpl; [|done]. intros Hin.
  rewrite <-(take_drop limit acc). apply elem_of_app. by left.
Qed.

(** A stronger predicate keeps fewer elements. *)
Lemma filter_length_le {A} (p q : A -> bool) l :
  (forall x, p x = true -> q x = true) ->
  (List.length (List.filter p l) <= List.length (List.filter q l))%nat.
Proof.
  intros Hpq. induction l as [|x l IH]; simpl; [done|]. specialize (Hpq x).
  destruct (p x), (q x); simpl; naive_solver lia.
Qed.

Lemma filter_length_lt {A} (p q : A -> bool) l h :
  (forall x, p x = true -> q x = true) -> In h l -> p h = false -> q h = true ->
  (List.length (List.filter p l) < List.length (List.filter q l))%nat.
Proof.
  intros Hpq Hin Hp Hq. induction l as [|x l IH]; simpl in *; [done|].
  pose proof (filter_length_le p q l Hpq). specialize (Hpq x). destruct Hin as [->|Hin].
  - rewrite Hp, Hq. simpl. lia.
  - specialize (IH Hin). destruct (p x), (q x); simpl; naive_solver lia.
Qed.

Lemma filter_length_le_all {A} (p : A -> bool) l : (List.length (List.filter p l) <= List.length l)%nat.
Proof. induction l as [|x l IH]; simpl; [done|]. destruct (p x); simpl; lia. Qed.

Section Correct.
Context `{Co : Collation}.
Context (rows : list helper) (filter_ : RecordFilter helper) (limit : nat).
Hypothesis Htotal : total_filter filter_.

Let querier (cursor : option serverCursor) : result (list helper) :=
  Ok (ListServersQuery rows cursor (limit + 1)).

Lemma filter_after_length c h :
  h ∈ List.filter (after c) rows ->
  (forall x, after (Some (key h)) x = true -> after c x = true) ->
  (List.length (List.filter (after (Some (key h))) rows) < List.length (List.filter (after c) rows))%nat.
Proof.
  intros [Hin Hc]%list_elem_of_In%filter_In Hsub. apply (filter_length_lt _ _ _ h); auto.
  apply bool_decide_eq_false_2, key_lt_irrefl.
Qed.

Lemma last_in_take {A} (l : list A) k x : last (take k l) = Some x -> x ∈ l.
Proof.
  intros H. apply last_Some in H as [l' H]. rewrite <-(take_drop k l), H. set_solver.
Qed.

Lemma stream_loop_sound fuel seen acc c :
  (List.length (List.filter (after c) rows) < fuel)%nat ->
  Forall (fun h => h ∈ rows /\ visible filter_ h = true) acc ->
  exists page, stream_loop key querier filter_ limit fuel seen acc c = Some (Ok page) /\
    (List.length (fst page) <= limit)%nat /\
    Forall (fun h => h ∈ rows /\ visible filter_ h = true) (fst page).
Proof.
  revert seen acc c. induction fuel as [|fuel IH]; intros seen acc c Hf Hacc; [lia|]. simpl.
  set (batch := ListServersQuery rows c (limit + 1)). rewrite process_batch_spec by done.
  destruct (dedup seen (List.filter (visible filter_) batch)) as [r s] eqn:Ed.
  assert (Hb : forall h, h ∈ batch -> h ∈ List.filter (after c) rows).
  { intros h Hh. unfold batch, ListServersQuery in Hh.
    rewrite <-(take_drop (limit + 1) (List.filter (after c) rows)). apply elem_of_app. by left. }
  assert (Hacc' : Forall (fun h => h ∈ rows /\ visible filter_ h = true) (acc ++ r)).
  { apply Forall_app. split; [done|]. apply Forall_forall. intros h Hh.
    assert (Hin : h ∈ List.filter (visible filter_) batch).
    { eapply elem_of_sublist; [|apply (dedup_sublist seen)]. by rewrite Ed. }
    apply list_elem_of_In, filter_In in Hin as [Hin Hv]. split; [|done].
    apply list_elem_of_In, Hb, list_elem_of_In, filter_In in Hin as [? _]. by apply list_elem_of_In. }
  destruct ((limit + 1 <=? _)%nat || _) eqn:Estop.
  - eexists. split; [done|]. split; [apply finish_page_length|]. apply Forall_forall.
    intros h Hh%finish_page_sub. rewrite Forall_forall in Hacc'. eauto.
  - apply orb_false_iff in Estop as [_ Hlen%Nat.ltb_ge].
    destruct (last batch) as [x|] eqn:El.
    + apply IH; [|done]. pose proof (last_in_take _ _ _ El) as Hx.
      assert (Hax : after c x = true).
      { by apply list_elem_of_In, filter_In in Hx as [_ ?]. }
      assert (List.length (List.filter (after (Some (key x))) rows) <
              List.length (List.filter (after c) rows))%nat; [|lia].
      apply filter_after_length; [done|]. intros y. unfold after. destruct c as [c|]; [|done].
      rewrite !bool_decide_eq_true. simpl in Hax. rewrite bool_decide_eq_true in Hax.
      by apply key_lt_trans.
    + apply last_None in El. rewrite El in Hlen. simpl in Hlen. lia.
Qed.

(** *** Exactness when no two rows share a key *)

Definition strict (l : list helper) : Prop := StronglySorted (fun a b => key_lt (key a) (key b)) l.

Lemma after_split l1 x l2 :
  strict (l1 ++ x :: l2) -> List.filter (after (Some (key x))) (l1 ++ x :: l2) = l2.
Proof.
  unfold strict. induction l1 as [|y l1 IH]; simpl; intros H.
  - apply StronglySorted_inv in H as [_ H]. rewrite bool_decide_eq_false_2 by apply key_lt_irrefl.
    induction H as [|z l2 Hz _ IH2]; simpl; [done|]. rewrite bool_decide_eq_true_2 by done. by rewrite IH2.
  - apply StronglySorted_inv in H as [H Hy]. rewrite IH by done.
    rewrite bool_decide_eq_false_2; [done|]. intros Hlt. apply Forall_app in Hy as [_ Hy].
    apply Forall_cons in Hy as [Hy _]. apply (key_lt_irrefl (key x)). by eapply key_lt_trans.
Qed.

(** What remains of the rows at a cursor. *)
Definition rest_at (c : option serverCursor) (R : list helper) : Prop :=
  List.filter (after c) rows = R /\ exists A, rows = A ++ R.

Lemma rest_at_next c R k x :
  strict rows -> rest_at c R -> last (take k R) = Some x -> rest_at (Some (key x)) (drop k R).
Proof.
  intros Hs [HR [A HA]] Hl. apply last_Some in Hl as [B HB].
  assert (E : rows = (A ++ B) ++ x :: drop k R).
  { rewrite HA. rewrite <-(take_drop k R) at 1. rewrite HB. by rewrite <-!(assoc_L (++)). }
  split.
  - rewrite E. apply after_split. by rewrite <-E.
  - exists (A ++ B ++ [x]). rewrite E. by rewrite <-!(assoc_L (++)).
Qed.

Lemma take_app_long {A} k (l1 l2 : list A) : (k <= List.length l1)%nat -> take k (l1 ++ l2) = take k l1.
Proof. intros. apply take_app_le. done. Qed.

Lemma finish_page_app acc r :
  (limit < List.length acc)%nat -> finish_page key limit (acc ++ r) = finish_page key limit acc.
Proof.
  intros Hl. unfold finish_page. rewrite length_app.
  rewrite (proj2 (Nat.ltb_lt _ _) Hl). rewrite (proj2 (Nat.ltb_lt limit (_ + _))) by lia.
  rewrite take_app_long by lia. rewrite lookup_app_l by lia. done.
Qed.

Lemma stream_loop_exact fuel seen acc c R :
  strict rows -> rest_at c R -> (List.length R < fuel)%nat ->
  stream_loop key querier filter_ limit fuel seen acc c =
  Some (Ok (finish_page key limit (acc ++ fst (dedup seen (List.filter (visible filter_) R))))).
Proof.
  intros Hs. revert seen acc c R. induction fuel as [|fuel IH]; intros seen acc c R HR Hf; [lia|].
  cbn [stream_loop]. unfold querier at 1, ListServersQuery. pose proof HR as [HR1 _]. rewrite HR1.
  rewrite process_batch_spec by done.
  assert (Hsplit : List.filter (visible filter_) R =
    List.filter (visible filter_) (take (limit + 1) R) ++ List.filter (visible filter_) (drop (limit + 1) R)).
  { rewrite <-List.filter_app, take_drop. done. }
  rewrite Hsplit, dedup_app.
  destruct (dedup seen (List.filter _ (take _ R))) as [r1 s1].
  destruct (dedup s1 (List.filter _ (drop _ R))) as [r2 s2] eqn:E2. simpl.
  destruct (Nat.leb_spec (limit + 1) (List.length (acc ++ r1))) as [Hlong|Hshort]; simpl.
  { rewrite (assoc_L (++) acc r1 r2), (finish_page_app (acc ++ r1) r2); [done|lia]. }
  rewrite length_take. destruct (Nat.ltb_spec (Nat.min (limit + 1) (List.length R)) (limit + 1)) as [Hend|Hmore].
  - rewrite drop_ge in E2 by lia. simpl in E2. simplify_eq. by rewrite app_nil_r.
  - destruct (last (take (limit + 1) R)) as [x|] eqn:El.
    + rewrite (IH _ _ _ (drop (limit + 1) R)).
      * rewrite E2. simpl. by rewrite (assoc_L (++)).
      * by eapply rest_at_next.
      * rewrite length_drop. lia.
    + apply last_None in El. apply (f_equal List.length) in El. rewrite length_take in El. simpl in El. lia.
Qed.

Lemma rest_at_any c : strict rows -> rest_at c (List.filter (after c) rows).
Proof using Co rows.
  clear Htotal. clear querier limit filter_.
  unfold rest_at, strict. intros Hs. split; [done|]. induction Hs as [|x l Hs IH Hx]; simpl.
  { by exists []. }
  destruct IH as [A HA]. destruct (after c x) eqn:Ex.
  - exists []. simpl. f_equal. clear -Ex Hx Co. symmetry.
    induction Hx as [|y l Hy _ IH]; simpl; [done|]. rewrite IH.
    assert (after c y = true) as ->; [|done]. unfold after in *. destruct c as [c|]; [|done].
    rewrite bool_decide_eq_true in *. by eapply key_lt_trans.
  - exists (x :: A). simpl. by rewrite <-HA.
Qed.
End Correct.

(** ** The claims on the batch loop *)

(** Whatever the rows, the loop ends: with more fuel than rows it
    returns a page of at most [limit] records, all of them rows of the registry
    that pass the claims filter. *)
Lemma streamHelpers_total `{Collation} rows filter_ limit fuel :
  total_filter filter_ -> (List.length rows < fuel)%nat ->
  exists page next,
    streamHelpers key (fun c => Ok (ListServersQuery rows c (limit + 1))) filter_ limit fuel
    = Some (Ok (page, next)) /\
    (List.length page <= limit)%nat /\
    Forall (fun h => h ∈ rows /\ visible filter_ h = true) page.
Proof.
  intros Ht Hf. unfold streamHelpers.
  destruct (stream_loop_sound rows filter_ limit Ht fuel ∅ [] None) as ([page next] & Hp & Hl & Hv).
  - eapply Nat.le_lt_trans; [|exact Hf]. clear. induction rows as [|x l IH]; simpl; lia.
  - constructor.
  - eauto.
Qed.

(** When no two rows share a name and version, the batches are invisible:
    a page is exactly the first [limit] of the visible rows with one source kept
    per name, and there is a next page exactly when there are more. *)
Lemma streamHelpers_exact `{Collation} rows filter_ limit fuel :
  total_filter filter_ -> strict rows -> (List.length rows < fuel)%nat ->
  streamHelpers key (fun c => Ok (ListServersQuery rows c (limit + 1))) filter_ limit fuel
  = Some (Ok (finish_page key limit (fst (dedup ∅ (List.filter (visible filter_) rows))))).
Proof.
  intros Ht Hs Hf. unfold streamHelpers.
  pose proof (filter_after_none rows) as Hall.
  pose proof (rest_at_any rows None Hs) as Hr. rewrite Hall in Hr.
  by apply (stream_loop_exact rows filter_ limit Ht fuel ∅ [] None rows).
Qed.

(** ** Paging *)

Section Pages.
Context `{Co : Collation} `{C : JsonCodec}.

(** [lookupRegistryIDWithGate] *)
Definition lookupRegistryIDWithGate (ctx : Ctx) (name : string) (callerClaims : option claims) : Q uuid :=
  row ← attempt (GetRegistryByName name);
  match row with
  | Err err => if errorIs err ErrNoRows then fail (EWrap ErrRegistryNotFound "%s") else fail err
  | Ok row =>
      _ ← lift (validateClaimsVisibleBytes ctx callerClaims (rg_claims row));
      mret (rg_id row)
  end.

Definition DefaultPageSize : nat := 30.
Definition MaxPageSize : nat := 1000.

(** One page from the rows: the query starts at the request's cursor and
    advances batch by batch. *)
Definition page_from (rows : list helper) (filter_ : RecordFilter helper) (limit fuel : nat)
    (start : option serverCursor) : option (result (list helper * option serverCursor)) :=
  streamHelpers key (fun cursor =>
    Ok (ListServersQuery rows (match cursor with Some c => Some c | None => start end) (limit + 1)))
    filter_ limit fuel.

Definition start_cursor (cursor : string) : result (option serverCursor) :=
  if String.eqb cursor "" then Ok None
  else match DecodeCursor cursor with
       | Ok c => Ok (Some c)
       | Err e => Err (wrapf "invalid cursor format" e)
       end.

(** Following the cursors a client is given. *)
Fixpoint follow (fuel : nat) (rows : list helper) (filter_ : RecordFilter helper) (limit : nat)
    (cursor : string) : option (list helper) :=
  match fuel with
  | O => None
  | S fuel' =>
      match start_cursor cursor with
      | Err _ => None
      | Ok start =>
          match page_from rows filter_ limit (S (List.length rows)) start with
          | Some (Ok (results, None)) => Some results
          | Some (Ok (results, Some c)) =>
              rest ← follow fuel' rows filter_ limit (EncodeCursor (fst c) (snd c)); Some (results ++ rest)
          | _ => None
          end
      end
  end.

Lemma stream_loop_start rows filter_ limit start fuel seen acc :
  (forall c, stream_loop key (fun cursor => Ok (ListServersQuery rows
      (match cursor with Some c => Some c | None => start end) (limit + 1))) filter_ limit fuel seen acc (Some c) =
    stream_loop key (fun c => Ok (ListServersQuery rows c (limit + 1))) filter_ limit fuel seen acc (Some c)) /\
  stream_loop key (fun cursor => Ok (ListServersQuery rows
      (match cursor with Some c => Some c | None => start end) (limit + 1))) filter_ limit fuel seen acc None =
  stream_loop key (fun c => Ok (ListServersQuery rows c (limit + 1))) filter_ limit fuel seen acc start.
Proof.
  revert seen acc. induction fuel as [|fuel IH]; intros seen acc; [done|]. split.
  - intros c. cbn [stream_loop]. destruct (process_batch _ _ _) as [[s a]|]; [|done].
    destruct (_ || _); [done|]. destruct (last _); apply IH.
  - cbn [stream_loop]. destruct (process_batch _ _ _) as [[s a]|]; [|done].
    destruct ((limit + 1 <=? List.length a)%nat || _) eqn:E; [done|]. destruct (last _) eqn:El; [apply IH|].
    apply last_None in El. apply orb_false_iff in E as [_ E]. rewrite El in E.
    apply Nat.ltb_ge in E. simpl in E. lia.
Qed.

(** Every name comes from one source of the registry. *)
Definition one_source (rows : list helper) : Prop :=
  forall a b, a ∈ rows -> b ∈ rows -> h_Name a = h_Name b -> h_Position a = h_Position b.

(** The cursor of a row reads back as its name and version. *)
Definition decodable (rows : list helper) : Prop :=
  forall h, h ∈ rows -> DecodeCursor (EncodeCursor (h_Name h) (h_Version h)) = Ok (h_Name h, h_Version h).

Lemma dedup_one_source seen l :
  one_source l -> (forall h p, h ∈ l -> seen !! h_Name h = Some p -> p = h_Position h) ->
  fst (dedup seen l) = l.
Proof.
  revert seen. induction l as [|h l IH]; intros seen Ho Hs; [done|]. cbn [dedup]. unfold dedupFilter.
  assert (Hl : one_source l) by (intros a b Ha Hb; apply Ho; set_solver).
  destruct (seen !! h_Name h) as [p|] eqn:E.
  - rewrite bool_decide_eq_true_2 by (symmetry; eapply Hs; [set_solver|done]).
    specialize (IH seen Hl). destruct (dedup seen l) as [r s]. simpl in *. rewrite IH; [done|].
    intros x q Hx. apply Hs. set_solver.
  - specialize (IH (<[h_Name h := h_Position h]> seen) Hl).
    destruct (dedup _ l) as [r s]. simpl in *. rewrite IH; [done|].
    intros x q Hx [[E' <-]|[_ Hq]]%lookup_insert_Some; [by apply Ho; set_solver|].
    eapply Hs; [set_solver|done].
Qed.

Lemma one_source_filter p rows : one_source rows -> one_source (List.filter p rows).
Proof.
  intros Ho a b Ha Hb. apply Ho; [apply list_elem_of_In, filter_In in Ha|apply list_elem_of_In, filter_In in Hb];
    apply list_elem_of_In; naive_solver.
Qed.

(** With distinct keys a page is the first rows of those past the cursor that are
    visible, one source kept for a name. *)
Lemma page_from_exact rows filter_ limit fuel start :
  total_filter filter_ -> strict rows -> (List.length rows < fuel)%nat ->
  page_from rows filter_ limit fuel start =
  Some (Ok (finish_page key limit (fst (dedup ∅ (List.filter (visible filter_) (List.filter (after start) rows)))))).
Proof.
  intros Ht Hs Hf. unfold page_from, streamHelpers.
  rewrite (proj2 (stream_loop_start rows filter_ limit start _ ∅ [])).
  apply (stream_loop_exact rows filter_ limit Ht _ ∅ [] start (List.filter (after start) rows)); [done|by apply rest_at_any|].
  eapply Nat.le_lt_trans; [apply filter_length_le_all|done].
Qed.

Lemma page_from_one_source rows filter_ limit start :
  total_filter filter_ -> strict rows -> one_source rows ->
  page_from rows filter_ limit (S (List.length rows)) start =
  Some (Ok (finish_page key limit (List.filter (visible filter_) (List.filter (after start) rows)))).
Proof.
  intros Ht Hs Ho. rewrite page_from_exact by (done || lia).
  rewrite dedup_one_source; [done| |by intros ??? ?%lookup_empty_Some]. by apply one_source_filter, one_source_filter.
Qed.

Lemma EncodeCursor_nonempty n v : EncodeCursor n v <> "".
Proof.
  unfold EncodeCursor. intros E%Base64.EncodeToString_empty. apply (f_equal to_bytes) in E.
  rewrite to_bytes_sep in E. by destruct (to_bytes n).
Qed.

Lemma filter_comm {A} (p q : A -> bool) l : List.filter p (List.filter q l) = List.filter q (List.filter p l).
Proof.
  induction l as [|x l IH]; simpl; [done|].
  destruct (p x) eqn:Ep, (q x) eqn:Eq; simpl; rewrite ?Ep, ?Eq; congruence.
Qed.

Lemma strict_filter p rows : strict rows -> strict (List.filter p rows).
Proof.
  unfold strict. induction 1 as [|x l Hs IH Hx]; simpl; [constructor|].
  destruct (p x); [|done]. constructor; [done|]. apply Forall_forall. intros y Hy.
  apply list_elem_of_In, filter_In in Hy as [Hy _]. rewrite Forall_forall in Hx.
  apply Hx. by apply list_elem_of_In.
Qed.

(** The visible rows of the next page. *)
Lemma next_visible rows p start k x :
  strict rows -> List.filter p (List.filter (after start) rows) !! k = Some x ->
  List.filter p (List.filter (after (Some (key x))) rows) =
  drop (S k) (List.filter p (List.filter (after start) rows)).
Proof.
  intros Hs Hx. destruct (rest_at_any rows start Hs) as [_ [A HA]].
  set (V := List.filter p (List.filter (after start) rows)) in *.
  assert (HV : List.filter p rows = (List.filter p A ++ take k V) ++ x :: drop (S k) V).
  { rewrite <-(assoc_L (++)), (take_drop_middle V k x Hx). rewrite HA at 1. by rewrite List.filter_app. }
  rewrite filter_comm, HV. apply after_split. rewrite <-HV. by apply strict_filter.
Qed.

Lemma follow_from rows filter_ limit fuel cursor start :
  total_filter filter_ -> strict rows -> one_source rows -> decodable rows -> (0 < limit)%nat ->
  start_cursor cursor = Ok start ->
  (List.length (List.filter (visible filter_) (List.filter (after start) rows)) < fuel)%nat ->
  follow fuel rows filter_ limit cursor = Some (List.filter (visible filter_) (List.filter (after start) rows)).
Proof.
  intros Ht Hs Ho Hd Hpos. revert cursor start. induction fuel as [|fuel IH]; intros cursor start Hc Hf; [lia|].
  cbn [follow]. rewrite Hc, page_from_one_source by done.
  set (V := List.filter (visible filter_) (List.filter (after start) rows)) in *. unfold finish_page.
  destruct (Nat.ltb_spec limit (List.length V)) as [Hlt|]; [|done].
  destruct (lookup_lt_is_Some_2 V (limit - 1)) as [x Hx]; [lia|]. rewrite Hx. cbn [fmap option_fmap option_map].
  pose proof (next_visible rows _ start _ x Hs Hx) as Hnext. fold V in Hnext.
  replace (S (limit - 1)) with limit in Hnext by lia.
  assert (Hin : x ∈ rows).
  { apply list_elem_of_lookup_2, list_elem_of_In, filter_In in Hx as [[Hx _]%filter_In _].
    by apply list_elem_of_In. }
  rewrite (IH _ (Some (key x))).
  - rewrite Hnext. cbn. by rewrite take_drop.
  - unfold start_cursor. cbn [key fst snd]. destruct (String.eqb_spec (EncodeCursor (h_Name x) (h_Version x)) "").
    + by apply EncodeCursor_nonempty in e.
    + by rewrite Hd.
  - rewrite Hnext, length_drop. lia.
Qed.

(** C28. Paging is complete: when every name comes from one source, no two
    rows share a key, and names and versions hold no cursor separator, a client
    that follows the cursors receives every row it may see exactly once, in
    order, whatever the page size. *)
Theorem follow_complete rows filter_ limit fuel :
  total_filter filter_ -> strict rows -> one_source rows -> decodable rows -> (0 < limit)%nat ->
  (List.length rows < fuel)%nat ->
  follow fuel rows filter_ limit "" = Some (List.filter (visible filter_) rows).
Proof.
  intros Ht Hs Ho Hd Hpos Hf.
  pose proof (filter_after_none rows) as Hall.
  rewrite (follow_from rows filter_ limit fuel "" None); [by rewrite Hall|done..|].
  rewrite Hall. eapply Nat.le_lt_trans; [apply filter_length_le_all|done].
Qed.

(** The rows the loop works on come out of the query in order. *)
Lemma ordered_rows_sorted where_ d rid : StronglySorted row_le (ordered_rows where_ d rid).
Proof. apply StronglySorted_merge_sort; apply _. Qed.

(** Distinct keys make the order strict. *)
Lemma sorted_strict rows : StronglySorted row_le rows -> NoDup (key <$> rows) -> strict rows.
Proof.
  unfold strict. induction 1 as [|x l Hs IH Hx]; simpl; [constructor|].
  intros [Hn Hd]%NoDup_cons. constructor; [by apply IH|]. rewrite Forall_forall in Hx |- *.
  intros y Hy. destruct (Hx y Hy) as [?|[E _]]; [done|]. exfalso. apply Hn. rewrite E.
  by apply list_elem_of_fmap_2.
Qed.

(** ** The gates of a listing *)

Definition claims_filter (skipAuthz : bool) (ctx : Ctx) (cs : option claims) : RecordFilter helper :=
  if skipAuthz then None else newClaimsFilterWith ctx cs (fun h => Some (h_Claims h)).

Lemma claims_filter_total skipAuthz ctx cs : total_filter (claims_filter skipAuthz ctx cs).
Proof. unfold claims_filter, newClaimsFilterWith. by repeat case_match. Qed.

Lemma lookupGate_ok ctx name cs o n d rid n' d' :
  lookupRegistryIDWithGate ctx name cs o n d = (Ok rid, n', d') ->
  d' = d /\ exists rg, d_registry d !! name = Some rg /\ rg_id rg = rid /\
    validateClaimsVisibleBytes ctx cs (rg_claims rg) = Ok ().
Proof.
  unfold lookupRegistryIDWithGate, GetRegistryByName. intros (row & n1 & d1 & E & H)%bind_run_ok.
  apply attempt_run_ok in E. destruct row as [row|err].
  - apply select_run_ok in E as [E ->]. apply bind_run_ok in H as ([] & n2 & d2 & E2 & H).
    injection E2 as Ev <- <-. injection H as Erid <- <-. split; [done|].
    unfold row_or_none in E. destruct (d_registry d !! name) as [rg|]; [|done]. injection E as ->. eauto.
  - unfold fail in H. by case_match.
Qed.

Lemma lookupGate_err ctx name cs o n d err n' d' :
  lookupRegistryIDWithGate ctx name cs o n d = (Err err, n', d') ->
  d' = d /\ ((forall k, o k = None) -> d_registry d !! name = None \/
    exists rg, d_registry d !! name = Some rg /\ validateClaimsVisibleBytes ctx cs (rg_claims rg) = Err err).
Proof.
  unfold lookupRegistryIDWithGate, GetRegistryByName, mbind, Q_bind, attempt, select, query. intros H.
  destruct (o n) as [f|] eqn:Ef.
  - split; [destruct (errorIs _ _); unfold fail in H; congruence|]. intros Ho. by rewrite Ho in Ef.
  - destruct (d_registry d !! name) as [rg|]; cbn in H.
    + unfold lift in H. destruct (validateClaimsVisibleBytes _ _ _) as [|e] eqn:Ev; [done|]. injection H as <- <- <-. eauto.
    + unfold fail in H. injection H as _ _ ->. by split; [|left].
Qed.

Lemma page_from_sound rows filter_ limit fuel start :
  total_filter filter_ -> (List.length rows < fuel)%nat ->
  exists page, page_from rows filter_ limit fuel start = Some (Ok page) /\
    (List.length (fst page) <= limit)%nat /\
    Forall (fun h => h ∈ rows /\ visible filter_ h = true) (fst page).
Proof.
  intros Ht Hf. unfold page_from, streamHelpers.
  rewrite (proj2 (stream_loop_start rows filter_ limit start fuel ∅ [])).
  apply stream_loop_sound; [done| |constructor].
  eapply Nat.le_lt_trans; [apply filter_length_le_all|done].
Qed.

End Pages.

(** ** Two sources for one name

    Rows of one registry whose first source (position 0) serves [io.acme/db]
    at 2.0.0 and whose second (position 1) serves it at 1.0.0 and 3.0.0. *)
Module StreamingExample.
#[export] Instance bytewise : Collation := {| coll_le := String.le |}.

Definition row (id : nat) (name version : string) (pos : Z) : helper :=
  {| h_ID := id; h_Name := name; h_Version := version; h_Claims := ""; h_SourceID := uuid_Nil; h_Position := pos; h_columns := no_columns |}.

Definition two_sources : list helper :=
  [row 1 "io.acme/db" "1.0.0" 1; row 2 "io.acme/db" "2.0.0" 0; row 3 "io.acme/db" "3.0.0" 1].

(** Sortedness of a concrete list, by computation. *)
Ltac sorted_rows :=
  repeat first [apply SSorted_cons | apply SSorted_nil | apply Forall_cons_2 | apply Forall_nil_2];
  apply (bool_decide_unpack _); by vm_compute.

Lemma two_sources_sorted : StronglySorted row_le two_sources.
Proof. sorted_rows. Qed.

(** The filter keeps the source of the first row it sees, and the query
    orders by version before position: the source with the lower priority wins
    the name as soon as it has the smaller version, on these rows ordered as
    the query orders them. *)
Lemma dedup_lower_priority_wins :
  StronglySorted row_le two_sources /\
  streamHelpers key (fun c => Ok (ListServersQuery two_sources c 31)) None 30 4
  = Some (Ok ([row 1 "io.acme/db" "1.0.0" 1; row 3 "io.acme/db" "3.0.0" 1], None)).
Proof. split; [apply two_sources_sorted|by vm_compute]. Qed.

(** The winner is forgotten between pages, so what a client receives
    depends on the page size: in one page the rows of the second source, in
    pages of one row a row of each. *)
Lemma dedup_page_dependent :
  follow 4 two_sources None 30 "" = Some [row 1 "io.acme/db" "1.0.0" 1; row 3 "io.acme/db" "3.0.0" 1] /\
  follow 4 two_sources None 1 "" =
    Some [row 1 "io.acme/db" "1.0.0" 1; row 2 "io.acme/db" "2.0.0" 0].
Proof. split; by vm_compute. Qed.

(** Two sources serve the same version of [a/x]; the claims hide the first
    one's row, and the row before it. *)
Definition same_key : list helper :=
  [row 1 "a/w" "1.0.0" 0; row 2 "a/x" "1.0.0" 0; row 3 "a/x" "1.0.0" 1].
Definition hide12 : RecordFilter helper := Some (fun h => Ok (negb (h_ID h <=? 2)%nat)).

Lemma same_key_sorted : StronglySorted row_le same_key.
Proof. sorted_rows. Qed.

(** A batch that ends between two sources of the same version loses the
    second one: the cursor set after the hidden row skips its whole key, so the
    page is empty and final although a row is visible. *)
Lemma batch_boundary_drops_visible :
  StronglySorted row_le same_key /\
  List.filter (visible hide12) same_key = [row 3 "a/x" "1.0.0" 1] /\
  streamHelpers key (fun c => Ok (ListServersQuery same_key c 2)) hide12 1 4 = Some (Ok ([], None)).
Proof. split; [apply same_key_sorted|]. split; by vm_compute. Qed.

(** Rows of one source. *)
Definition plain : list helper :=
  [row 1 "a/w" "1.0.0" 0; row 2 "a/x" "1.0.0" 0; row 3 "a/x" "2.0.0" 0; row 4 "b/y" "0.1.0" 0].

Lemma plain_strict : strict plain.
Proof. unfold strict. sorted_rows. Qed.

Lemma streamHelpers_exact_witness :
  streamHelpers key (fun c => Ok (ListServersQuery plain c (2 + 1))) None 2 5
  = Some (Ok (finish_page key 2 (fst (dedup ∅ (List.filter (visible None) plain))))).
Proof. apply (streamHelpers_exact plain None 2 5); [exact I|apply plain_strict|vm_compute; lia]. Defined.

Lemma follow_complete_witness : follow 5 plain None 2 "" = Some plain.
Proof.
  refine (follow_complete plain None 2 5 I plain_strict _ _ _ _).
  - assert (H0 : Forall (fun h => h_Position h = 0%Z) plain) by (repeat constructor).
    rewrite Forall_forall in H0. intros a b Ha Hb _. by rewrite (H0 a Ha), (H0 b Hb).
  - assert (H0 : Forall (fun h => DecodeCursor (EncodeCursor (h_Name h) (h_Version h)) =
                                  Ok (h_Name h, h_Version h)) plain)
      by (repeat constructor; vm_compute; reflexivity).
    rewrite Forall_forall in H0. exact H0.
  - lia.
  - vm_compute. lia.
Defined.

End StreamingExample.
