(* ===== verification/Artifacts.v ===== *)
(** * Skills and plugins

    [internal/service/db/impl_skills.go] and [impl_plugins.go], which mirror each
    other: publishing, deleting, reading and listing versions, with the mapping of
    rows to API values ([internal/service/skill_types.go], [plugin_types.go]).
    What they share is written once over an interface ([ArtifactKind]) with the
    two kinds as its instances; a skill has two columns more.

    Repository, icon and package records are the ones of [Upstream], whose fields
    the service's types repeat.  The JSON of repository, icons and metadata is the interface [ArtifactCodec].
    Upper and lower case are ASCII. *)

From stdpp Require Import base list strings gmap sets sorting.
From Stdlib Require Import String Ascii ZArith NArith Lia.
From S2P Require Import Prelude GoStrings Cursor Versions Claims Codec Auth ClaimsGate Upstream Database Entries Streaming.

Local Open Scope string_scope.
Local Open Scope list_scope.

(** ** Values *)

(** The fields of [service.Skill] and [service.Plugin] that both have; a nil map
    is [None]. *)
Record Artifact := {
  a_ID : uuid;
  a_Namespace : string;
  a_Name : string;
  a_Description : string;
  a_Version : string;
  a_Status : string;
  a_Title : string;
  a_License : string;
  a_Repository : option ArtifactRepository;
  a_Icons : list ArtifactIcon;
  a_Packages : list ArtifactPackage;
  a_Metadata : option claims;
  a_Meta : option claims;
  a_IsLatest : bool;
  a_CreatedAt : Z }.

Record SkillValue := { s_common : Artifact; s_Compatibility : string; s_AllowedTools : list string }.

Class ArtifactCodec := {
  marshal_repository : option ArtifactRepository -> option string;
  marshal_icons : list ArtifactIcon -> option string;
  marshal_map : option claims -> option string;
  parse_repository : string -> option ArtifactRepository;
  parse_icons : string -> option (list ArtifactIcon);
  parse_map : string -> option (option claims) }.

Definition PackageTypeOCI : string := "oci".
Definition PackageTypeGit : string := "git".

(** ** The two kinds *)

(** [X] is the API value, [R] the row of the kind's own table. *)
Class ArtifactKind (X R : Type) := {
  k_entry : EntryType;
  k_common : X -> Artifact;
  k_value : Artifact -> R -> X;          (* the value of a row *)
  k_row : X -> ArtifactRow -> R;         (* the row of a value *)
  k_art : R -> ArtifactRow;
  k_with : R -> ArtifactRow -> R;        (* the row with other shared columns *)
  k_table : DB -> gmap uuid R;
  k_set : DB -> gmap uuid R -> DB }.

(** One kind's table is its own. *)
Class ArtifactKindLaws {X R} (K : ArtifactKind X R) := {
  k_art_row : forall x a, k_art (k_row x a) = a;
  k_art_with : forall r a, k_art (k_with r a) = a;
  k_with_art : forall r, k_with r (k_art r) = r;
  k_with_with : forall r a b, k_with (k_with r a) b = k_with r b;
  k_with_row : forall x a b, k_with (k_row x a) b = k_row x b;
  k_common_value : forall a r, k_common (k_value a r) = a;
  k_table_set : forall d m, k_table (k_set d m) = m;
  k_set_core : forall d m, core (k_set d m) = core d;
  k_set_content : forall d m, (d_server (k_set d m), d_package (k_set d m), d_remote (k_set d m), d_icon (k_set d m),
    d_sync (k_set d m)) = (d_server d, d_package d, d_remote d, d_icon d, d_sync d);
  k_set_set : forall d m m', k_set (k_set d m) m' = k_set d m';
  k_set_table : forall d, k_set d (k_table d) = d;
  k_table_cascade : forall dead d, k_table (cascade_versions dead d) = filter (fun kv => dead (fst kv) = false) (k_table d);
  k_table_entry : forall d x, k_table (set_entry d x) = k_table d;
  k_table_version : forall d x, k_table (set_version d x) = k_table d;
  k_table_latest : forall d x, k_table (set_latest d x) = k_table d;
  k_table_next : forall d x, k_table (set_next d x) = k_table d }.

Definition skill_value (a : Artifact) (r : SkillRow) : SkillValue :=
  {| s_common := a; s_Compatibility := sl_compatibility r; s_AllowedTools := sl_allowed_tools r |}.
Definition skill_row (x : SkillValue) (a : ArtifactRow) : SkillRow :=
  {| sl_row := a; sl_compatibility := s_Compatibility x; sl_allowed_tools := s_AllowedTools x |}.

#[export] Instance SkillKind : ArtifactKind SkillValue SkillRow :=
  {| k_entry := EntryTypeSKILL; k_common := s_common; k_value := skill_value; k_row := skill_row; k_art := sl_row;
     k_with := fun r a => {| sl_row := a; sl_compatibility := sl_compatibility r; sl_allowed_tools := sl_allowed_tools r |};
     k_table := d_skill; k_set := set_skill |}.
#[export] Instance PluginKind : ArtifactKind Artifact ArtifactRow :=
  {| k_entry := EntryTypePLUGIN; k_common := fun x => x; k_value := fun a _ => a; k_row := fun _ a => a; k_art := fun r => r;
     k_with := fun _ a => a; k_table := d_plugin; k_set := set_plugin |}.
#[export] Instance SkillKindLaws : ArtifactKindLaws SkillKind.
Proof. split; try done; by intros []. Qed.
#[export] Instance PluginKindLaws : ArtifactKindLaws PluginKind.
Proof. split; try done. by intros []. Qed.

(** ** Status *)

Definition upper (c : ascii) : ascii :=
  let n := N_of_ascii c in if (97 <=? n)%N && (n <=? 122)%N then ascii_of_N (n - 32) else c.
Definition ToUpper (s : string) : string := of_bytes (upper <$> to_bytes s).
Definition ToLower (s : string) : string := of_bytes (PublicPath.lower <$> to_bytes s).

Definition status_string (st : ArtifactStatus) : string :=
  match st with StatusACTIVE => "ACTIVE" | StatusDEPRECATED => "DEPRECATED" | StatusARCHIVED => "ARCHIVED" end.

(** The cast to the enum [skill_status]. *)
Definition status_enum (s : string) : option ArtifactStatus :=
  if String.eqb s "ACTIVE" then Some StatusACTIVE
  else if String.eqb s "DEPRECATED" then Some StatusDEPRECATED
  else if String.eqb s "ARCHIVED" then Some StatusARCHIVED
  else None.

Definition allow_token (allowed : gset string) (tok : string) : gset string :=
  let t := TrimSpace (ToLower tok) in
  if String.eqb t "active" then {[ "ACTIVE" ]} ∪ allowed
  else if String.eqb t "deprecated" then {[ "DEPRECATED" ]} ∪ allowed
  else if String.eqb t "archived" then {[ "ARCHIVED" ]} ∪ allowed
  else allowed.

Definition parseStatusFilter (statusFilter : string) : gset string :=
  if String.eqb (TrimSpace statusFilter) "" then {[ "ACTIVE" ]}
  else
    let allowed := foldl allow_token ∅ (Split statusFilter ","%char) in
    if bool_decide (allowed = ∅) then {[ "ACTIVE" ]} else allowed.

Definition filterSkillsByStatus (skills : list SkillValue) (statusFilter : string) : list SkillValue :=
  let allowed := parseStatusFilter statusFilter in
  List.filter (fun s => bool_decide (a_Status (s_common s) ∈ allowed)) skills.

(** The columns a package is stored in. *)
Definition oci_row (pkg : ArtifactPackage) : OciRow :=
  {| oc_identifier := pg_Identifier pkg; oc_digest := pg_Digest pkg; oc_media_type := pg_MediaType pkg |}.
Definition git_row (pkg : ArtifactPackage) : GitRow :=
  {| gp_url := pg_URL pkg; gp_ref := pg_Ref pkg; gp_commit := pg_Commit pkg; gp_subfolder := pg_Subfolder pkg |}.

(** [ListSkillsOptions] and [ListPluginsOptions], which has no status. *)
Record ListArtifactOptions := {
  la_RegistryName : string;
  la_Namespace : string;
  la_Name : option string;
  la_Search : option string;
  la_Limit : nat;
  la_Cursor : option string;
  la_Status : string;
  la_Claims : option claims }.

(** ** Queries *)

Section Kind.
Context {X R : Type} {K : ArtifactKind X R}.
Context `{Co : Collation} `{C : JsonCodec} `{AC : ArtifactCodec} `{L : SemverLib}.

(** InsertSkillVersion: the status is cast in the database, NULL is 'ACTIVE'. *)
Definition InsertArtifactVersion (vid : uuid) (status : option string) (row : ArtifactStatus -> R) : Q uuid :=
  query (fun d =>
    match match status with None => Some StatusACTIVE | Some s => status_enum s end with
    | None => Err (EMsg "22P02")
    | Some st =>
        match k_table d !! vid with
        | Some _ => Err unique_violation
        | None => Ok (vid, k_set d (<[vid := row st]> (k_table d)))
        end
    end).

Definition add_oci (p : OciRow) (a : ArtifactRow) : ArtifactRow :=
  {| ar_namespace := ar_namespace a; ar_status := ar_status a; ar_license := ar_license a;
     ar_repository := ar_repository a; ar_icons := ar_icons a; ar_metadata := ar_metadata a;
     ar_extension_meta := ar_extension_meta a; ar_oci := ar_oci a ++ [p]; ar_git := ar_git a |}.
Definition add_git (p : GitRow) (a : ArtifactRow) : ArtifactRow :=
  {| ar_namespace := ar_namespace a; ar_status := ar_status a; ar_license := ar_license a;
     ar_repository := ar_repository a; ar_icons := ar_icons a; ar_metadata := ar_metadata a;
     ar_extension_meta := ar_extension_meta a; ar_oci := ar_oci a; ar_git := ar_git a ++ [p] |}.

(** A package row refers to its skill or plugin. *)
Definition insert_package (vid : uuid) (f : ArtifactRow -> ArtifactRow) : Q () :=
  query (fun d =>
    match k_table d !! vid with
    | None => Err (EWrap ErrPgRestrict "23503")
    | Some r => Ok ((), k_set d (<[vid := k_with r (f (k_art r))]> (k_table d)))
    end).
Definition InsertArtifactOciPackage (vid : uuid) (p : OciRow) : Q () := insert_package vid (add_oci p).
Definition InsertArtifactGitPackage (vid : uuid) (p : GitRow) : Q () := insert_package vid (add_git p).

(** Rows of the join of entries, versions and the kind's table. *)
Record JoinedRow := {
  j_source : uuid;
  j_name : string;
  j_version : string;
  j_vid : uuid;
  j_ver : VersionRow;
  j_row : R;
  j_claims : string;
  j_is_latest : bool;
  j_position : Z }.

Definition joined_rows (sid : uuid) (position : Z) (d : DB) : list JoinedRow :=
  map_to_list (d_entry d) ≫= fun '((s, _, name), e) =>
    if (s =? sid)%nat then
      omap (fun '(v, r) =>
        (fun row => {| j_source := sid; j_name := name; j_version := v; j_vid := ve_id r; j_ver := r; j_row := row;
                       j_claims := en_claims e; j_is_latest := is_latest (ve_id r) d; j_position := position |})
          <$> k_table d !! ve_id r) (entry_versions (en_id e) d)
    else [].

(** GetSkillVersion: by position, then source id. *)
Definition priority_le (a b : JoinedRow) : Prop :=
  (j_position a < j_position b)%Z \/ (j_position a = j_position b /\ (j_source a <= j_source b)%nat).
#[export] Instance priority_le_dec : RelDecision priority_le.
Proof. intros a b. unfold priority_le. apply _. Defined.

Definition source_named (sid : uuid) (nm : string) (d : DB) : bool :=
  match d_source d !! nm with Some s => (so_id s =? sid)%nat | None => false end.

Definition version_matches (version : string) (j : JoinedRow) : bool :=
  String.eqb (j_version j) version || (String.eqb version "latest" && j_is_latest j).

Definition registry_joined (rid : uuid) (d : DB) : list JoinedRow :=
  map_to_list (d_registry_source d) ≫= fun '((r, sid), position) =>
    if (r =? rid)%nat then joined_rows sid position d else [].

Definition GetArtifactVersionQuery (rid : uuid) (name version namespace : string) (sourceName : option string)
    (size : nat) : Q (list JoinedRow) :=
  select (fun d => Ok (take size (merge_sort priority_le (List.filter (fun j =>
    String.eqb (ve_name (j_ver j)) name && version_matches version j &&
    String.eqb (ar_namespace (k_art (j_row j))) namespace &&
    match sourceName with None => true | Some nm => source_named (j_source j) nm d end) (registry_joined rid d))))).

(** GetSkillVersionBySourceName *)
Definition GetArtifactVersionBySourceName (name version sourceName : string) : Q JoinedRow :=
  select (fun d =>
    match d_source d !! sourceName with
    | None => Err no_rows
    | Some s => row_or_none (find (fun j => String.eqb (ve_name (j_ver j)) name && String.eqb (j_version j) version)
                                  (joined_rows (so_id s) 0 d))
    end).

(** The SQL has no ORDER BY; the packages of a version are modelled in the order
    they were inserted in, which is how PostgreSQL returns rows no update moved. *)
Definition ListArtifactOciPackages (ids : list uuid) : Q (list (uuid * OciRow)) :=
  select (fun d => Ok (map_to_list (k_table d) ≫= fun '(id, r) =>
    if bool_decide (id ∈ ids) then (pair id) <$> ar_oci (k_art r) else [])).
Definition ListArtifactGitPackages (ids : list uuid) : Q (list (uuid * GitRow)) :=
  select (fun d => Ok (map_to_list (k_table d) ≫= fun '(id, r) =>
    if bool_decide (id ∈ ids) then (pair id) <$> ar_git (k_art r) else [])).

(** ** Rows as API values *)

Definition toServiceOciPackage (p : OciRow) : ArtifactPackage :=
  {| pg_RegistryType := PackageTypeOCI; pg_Identifier := oc_identifier p; pg_Digest := oc_digest p;
     pg_MediaType := oc_media_type p; pg_URL := ""; pg_Ref := ""; pg_Commit := ""; pg_Subfolder := "" |}.
Definition toServiceGitPackage (p : GitRow) : ArtifactPackage :=
  {| pg_RegistryType := PackageTypeGit; pg_Identifier := ""; pg_Digest := ""; pg_MediaType := "";
     pg_URL := gp_url p; pg_Ref := gp_ref p; pg_Commit := gp_commit p; pg_Subfolder := gp_subfolder p |}.

Definition read_map (data : string) : option claims :=
  if String.eqb data "" then None else default (Some ∅) (parse_map data).

(** [rowToSkill], [rowToPlugin] and the packages set afterwards. *)
Definition rowToArtifact (j : JoinedRow) (packages : list ArtifactPackage) : X :=
  let a := k_art (j_row j) in
  k_value
    {| a_ID := j_vid j; a_Namespace := ar_namespace a; a_Name := j_name j; a_Description := ve_description (j_ver j);
       a_Version := j_version j; a_Status := status_string (ar_status a); a_Title := ve_title (j_ver j);
       a_License := ar_license a;
       a_Repository := if String.eqb (ar_repository a) "" then None else parse_repository (ar_repository a);
       a_Icons := if String.eqb (ar_icons a) "" then [] else default [] (parse_icons (ar_icons a));
       a_Packages := packages; a_Metadata := read_map (ar_metadata a); a_Meta := read_map (ar_extension_meta a);
       a_IsLatest := j_is_latest j; a_CreatedAt := ve_created (j_ver j) |} (j_row j).

(** The packages of one version. *)
Definition version_packages (vid : uuid) : Q (list ArtifactPackage) :=
  ociPackages ← ListArtifactOciPackages [vid];
  gitPackages ← ListArtifactGitPackages [vid];
  mret ((toServiceOciPackage ∘ snd <$> ociPackages) ++ (toServiceGitPackage ∘ snd <$> gitPackages)).

(** ** Publishing *)

(** [makeInsertSkillVersionParams] *)
Definition makeInsertVersionParams (x : X) : result (option string * (ArtifactStatus -> R)) :=
  let a := k_common x in
  let status := if String.eqb (a_Status a) "" then None else Some (ToUpper (a_Status a)) in
  repository <- or_err "json" (marshal_repository (a_Repository a)) ;;
  icons <- or_err "json" (marshal_icons (a_Icons a)) ;;
  metadata <- or_err "json" (marshal_map (a_Metadata a)) ;;
  extensionMeta <- or_err "json" (marshal_map (a_Meta a)) ;;
  Ok (status, fun st => k_row x
    {| ar_namespace := a_Namespace a; ar_status := st; ar_license := a_License a; ar_repository := repository;
       ar_icons := icons; ar_metadata := metadata; ar_extension_meta := extensionMeta; ar_oci := []; ar_git := [] |}).

(** One turn of the loop: a package of another type is passed over. *)
Definition insertPackage (vid : uuid) (pkg : ArtifactPackage) : Q () :=
  if String.eqb (pg_RegistryType pkg) PackageTypeOCI then InsertArtifactOciPackage vid (oci_row pkg)
  else if String.eqb (pg_RegistryType pkg) PackageTypeGit then InsertArtifactGitPackage vid (git_row pkg)
  else mret ().

Definition insertArtifactVersionRow (eid : uuid) (a : Artifact) (now : Z) : Q uuid :=
  r ← attempt (InsertEntryVersion eid (a_Name a) (a_Version a) (a_Title a) (a_Description a) now);
  match r with
  | Ok vid => mret vid
  | Err err => if errorIs err ErrPgUnique then fail (EWrap ErrVersionAlreadyExists "%s %s") else fail err
  end.

Definition executePublishArtifactTransaction (ctx : Ctx) (x : X) (claimsJSON : string) (gateClaims : option claims)
    (now : Z) : Q string :=
  let a := k_common x in
  transaction (
    source ← getManagedSource;
    _ ← lift (validateClaimsVisibleBytes ctx gateClaims (so_claims (snd source)));
    let sid := so_id (snd source) in
    entryID ← getOrCreateEntry sid k_entry (a_Name a) claimsJSON;
    versionID ← insertArtifactVersionRow entryID a now;
    params ← lift (makeInsertVersionParams x);
    _ ← InsertArtifactVersion versionID (fst params) (snd params);
    _ ← for_each_q (insertPackage versionID) (a_Packages a);
    _ ← advanceLatest sid (a_Name a) (a_Version a) versionID;
    mret (fst source)).

Definition fetchVersionBySource (name version sourceName : string) : Q X :=
  r ← attempt (GetArtifactVersionBySourceName name version sourceName);
  match r with
  | Err err => if errorIs err ErrNoRows then fail (EWrap ErrNotFound "%s %s") else fail err
  | Ok row => packages ← version_packages (j_vid row); mret (rowToArtifact row packages)
  end.

Record PublishArtifactOptions := { ao_Claims : option claims; ao_JWTClaims : option claims }.

Definition PublishArtifact (s : dbService) (ctx : Ctx) (x : X) (opts : PublishArtifactOptions) (now : Z) : Q X :=
  let a := k_common x in
  if String.eqb (a_Namespace a) "" || String.eqb (a_Name a) "" || String.eqb (a_Version a) ""
  then fail (EMsg "namespace, name, and version are required")
  else
    let gateClaims := gate s (ao_JWTClaims opts) in
    _ ← lift (validateClaimsSubset ctx gateClaims (claims_or_empty (ao_Claims opts)));
    claimsJSON ← lift (match ao_Claims opts with
                       | None => Ok ""
                       | Some c => or_err "failed to serialize claims" (json_Marshal c)
                       end);
    sourceName ← executePublishArtifactTransaction ctx x claimsJSON gateClaims now;
    wrapping "failed to fetch published skill" (fetchVersionBySource (a_Name a) (a_Version a) sourceName).

(** ** Deleting *)

Record DeleteArtifactOptions := { dao_Name : string; dao_Version : string; dao_JWTClaims : option claims }.

Definition artifactDeleteGate (s : dbService) (ctx : Ctx) (sid : uuid) (opts : DeleteArtifactOptions) : Q () :=
  match dao_JWTClaims opts with
  | None => mret ()
  | Some _ =>
      existing ← attempt (GetRegistryEntryByName sid k_entry (dao_Name opts));
      match existing with
      | Err err => if errorIs err ErrNoRows then fail (EWrap ErrNotFound "%s@%s")
                   else fail (wrapf "failed to look up registry entry" err)
      | Ok e => lift (validateClaimsVisibleBytes ctx (gate s (dao_JWTClaims opts)) (en_claims e))
      end
  end.

Definition DeleteArtifactVersion (s : dbService) (ctx : Ctx) (opts : DeleteArtifactOptions) : Q () :=
  transaction (
    source ← getManagedSource;
    let sid := so_id (snd source) in
    _ ← artifactDeleteGate s ctx sid opts;
    entryID ← lookupAndDeleteEntryVersion sid k_entry (dao_Name opts) (dao_Version opts);
    _ ← rePointLatestVersionIfNeeded sid (dao_Name opts) entryID;
    cleanupOrphanedEntry entryID).

(** ** Reading one version *)

Record GetArtifactOptions := {
  go_RegistryName : string;
  go_Namespace : string;
  go_Name : string;
  go_Version : string;
  go_SourceName : string;
  go_Claims : option claims }.

(** The loop over the rows: the first that passes. *)
Fixpoint first_visible (filter_ : RecordFilter JoinedRow) (rows : list JoinedRow) : result (option JoinedRow) :=
  match rows with
  | [] => Ok None
  | r :: rows' =>
      match filter_ with
      | None => Ok (Some r)
      | Some f => ok <- f r ;; if (ok : bool) then Ok (Some r) else first_visible filter_ rows'
      end
  end.

Definition row_filter (s : dbService) (ctx : Ctx) (cs : option claims) : RecordFilter JoinedRow :=
  if sv_skipAuthz s then None else newClaimsFilterWith ctx cs (fun j => Some (j_claims j)).

Definition GetArtifactVersion (s : dbService) (ctx : Ctx) (opts : GetArtifactOptions) : Q X :=
  if String.eqb (go_RegistryName opts) "" then fail (EMsg "registry name is required")
  else if String.eqb (go_Name opts) "" || String.eqb (go_Version opts) "" then fail (EMsg "name and version are required")
  else if String.eqb (go_Namespace opts) "" then fail (EMsg "namespace is required")
  else
    registryID ← lookupRegistryIDWithGate ctx (go_RegistryName opts) (gate s (go_Claims opts));
    let sourceName := if String.eqb (go_SourceName opts) "" then None else Some (go_SourceName opts) in
    rows ← GetArtifactVersionQuery registryID (go_Name opts) (go_Version opts) (go_Namespace opts) sourceName (MaxPageSize + 1);
    if (List.length rows =? 0)%nat then fail (EWrap ErrNotFound "%s %s")
    else
      found ← lift (first_visible (row_filter s ctx (go_Claims opts)) rows);
      match found with
      | None => fail (EWrap ErrNotFound "%s %s")
      | Some row => packages ← version_packages (j_vid row); mret (rowToArtifact row packages)
      end.

(** ** Listing *)

(** The row of the listing, with the columns [streamSkillRows] looks at. *)
Definition helper_of (j : JoinedRow) : helper :=
  {| h_ID := j_vid j; h_Name := j_name j; h_Version := j_version j; h_Claims := j_claims j; h_SourceID := uuid_Nil;
     h_Position := j_position j; h_columns := no_columns |}.

(** The search of ListSkills; the handlers never ask for an update time. *)
Definition la_where `{SQ : SqlConditions} (opts : ListArtifactOptions) (j : JoinedRow) : bool :=
  (String.eqb (la_Namespace opts) "" || String.eqb (ar_namespace (k_art (j_row j))) (la_Namespace opts)) &&
  match la_Name opts with None => true | Some name => String.eqb (j_name j) name end &&
  match la_Search opts with
  | None => true
  | Some q => text_matches q (j_name j) || text_matches q (ve_title (j_ver j)) || text_matches q (ve_description (j_ver j))
  end.

Definition listed_rows (where_ : JoinedRow -> bool) (rid : uuid) (d : DB) : list JoinedRow :=
  List.filter where_ (registry_joined rid d).
Definition ListArtifactsQuery (where_ : JoinedRow -> bool) (rid : uuid) : Q (list JoinedRow) :=
  select (fun d => Ok (listed_rows where_ rid d)).

(** [fetchSkillPackages]: appended in the order of the two result sets. *)
Definition append_package {P} (m : gmap uuid (list P)) (id : uuid) (p : P) : gmap uuid (list P) :=
  <[id := default [] (m !! id) ++ [p]]> m.
Definition fetchPackages (ids : list uuid) : Q (gmap uuid (list ArtifactPackage)) :=
  ociPackages ← ListArtifactOciPackages ids;
  gitPackages ← ListArtifactGitPackages ids;
  mret (foldl (fun m p => append_package m (fst p) (toServiceGitPackage (snd p)))
          (foldl (fun m p => append_package m (fst p) (toServiceOciPackage (snd p))) ∅ ociPackages) gitPackages).

Definition decode_start (cursor : option string) : result (option serverCursor) :=
  match cursor with
  | None => Ok None
  | Some c => match DecodeCursor c with
              | Ok x => Ok (Some x)
              | Err e => Err (wrapf "invalid cursor" e)
              end
  end.

(** [streamSkillRows], [newDeduplicatingSkillFilter] *)
Definition streamArtifactRows (rows : list JoinedRow) (filter_ : RecordFilter helper) (limit fuel : nat)
    (start : option serverCursor) : option (result (list helper * option serverCursor)) :=
  page_from (merge_sort row_le (helper_of <$> rows)) filter_ limit fuel start.

(** Up to the status filter, which only skills have; [None] is the fuel of the
    loop running out. *)
Definition ListArtifacts `{SQ : SqlConditions} (fuel : nat) (s : dbService) (ctx : Ctx) (opts : ListArtifactOptions)
    : Q (option (list X * string)) :=
  if String.eqb (la_RegistryName opts) "" then fail (EMsg "registry name is required")
  else
    let limit := Nat.min (la_Limit opts) MaxPageSize in
    registryID ← lookupRegistryIDWithGate ctx (la_RegistryName opts) (gate s (la_Claims opts));
    start ← lift (decode_start (la_Cursor opts));
    rows ← ListArtifactsQuery (la_where opts) registryID;
    match streamArtifactRows rows (claims_filter (sv_skipAuthz s) ctx (la_Claims opts)) limit fuel start with
    | None => mret None
    | Some (Err e) => fail e
    | Some (Ok (page, nextCursor)) =>
        packages ← fetchPackages (h_ID <$> page);
        let listRows := omap (fun h => find (fun j => (j_vid j =? h_ID h)%nat) rows) page in
        mret (Some ((fun j => rowToArtifact j (default [] (packages !! j_vid j))) <$> listRows,
                    match nextCursor with Some c => EncodeCursor (fst c) (snd c) | None => "" end))
    end.
End Kind.

(** ** The service's operations *)

Section Services.
Context `{Co : Collation} `{C : JsonCodec} `{AC : ArtifactCodec} `{L : SemverLib}.

Definition PublishSkill : dbService -> Ctx -> SkillValue -> PublishArtifactOptions -> Z -> Q SkillValue := PublishArtifact.
Definition PublishPlugin : dbService -> Ctx -> Artifact -> PublishArtifactOptions -> Z -> Q Artifact := PublishArtifact.
Definition DeleteSkillVersion : dbService -> Ctx -> DeleteArtifactOptions -> Q () := DeleteArtifactVersion (K := SkillKind).
Definition DeletePluginVersion : dbService -> Ctx -> DeleteArtifactOptions -> Q () := DeleteArtifactVersion (K := PluginKind).
Definition GetSkillVersion : dbService -> Ctx -> GetArtifactOptions -> Q SkillValue := GetArtifactVersion.
Definition GetPluginVersion : dbService -> Ctx -> GetArtifactOptions -> Q Artifact := GetArtifactVersion.

Definition ListSkills `{SQ : SqlConditions} (fuel : nat) (s : dbService) (ctx : Ctx) (opts : ListArtifactOptions)
    : Q (option (list SkillValue * string)) :=
  res ← ListArtifacts fuel s ctx opts;
  mret ((fun p => (filterSkillsByStatus (fst p) (la_Status opts), snd p)) <$> res).

(** The plugins' copies of the shared steps. *)
Definition makeInsertPluginVersionParams (x : Artifact) := makeInsertVersionParams (K := PluginKind) x.
Definition executePublishPluginTransaction : Ctx -> Artifact -> string -> option claims -> Z -> Q string :=
  executePublishArtifactTransaction (K := PluginKind).
Definition fetchPluginVersionBySource : string -> string -> string -> Q Artifact := fetchVersionBySource (K := PluginKind).
Definition rowToPlugin : JoinedRow -> list ArtifactPackage -> Artifact := rowToArtifact (K := PluginKind).
Definition fetchPluginPackages : list uuid -> Q (gmap uuid (list ArtifactPackage)) := fetchPackages (K := PluginKind).
Definition streamPluginRows := streamArtifactRows (R := ArtifactRow).
Definition InsertPluginVersion := InsertArtifactVersion (K := PluginKind).
Definition InsertPluginOciPackage := InsertArtifactOciPackage (K := PluginKind).
Definition InsertPluginGitPackage := InsertArtifactGitPackage (K := PluginKind).
Definition GetPluginVersionQuery := GetArtifactVersionQuery (K := PluginKind).
Definition GetPluginVersionBySourceName := GetArtifactVersionBySourceName (K := PluginKind).
Definition ListPluginOciPackages := ListArtifactOciPackages (K := PluginKind).
Definition ListPluginGitPackages := ListArtifactGitPackages (K := PluginKind).
Definition ListPluginsQuery := ListArtifactsQuery (K := PluginKind).

Definition ListPlugins `{SQ : SqlConditions} (fuel : nat) (s : dbService) (ctx : Ctx) (opts : ListArtifactOptions)
    : Q (option (list Artifact * string)) := ListArtifacts fuel s ctx opts.
End Services.

(** ** Publishing *)

(** What the packages become: the OCI ones, then the Git ones, the others not at
    all. *)
Definition oci_rows (l : list ArtifactPackage) : list OciRow :=
  omap (fun p => if String.eqb (pg_RegistryType p) PackageTypeOCI
    then Some (oci_row p) else None) l.
Definition git_rows (l : list ArtifactPackage) : list GitRow :=
  omap (fun p => if String.eqb (pg_RegistryType p) PackageTypeGit
    then Some (git_row p) else None) l.
Definition with_packages (oci : list OciRow) (git : list GitRow) (a : ArtifactRow) : ArtifactRow :=
  {| ar_namespace := ar_namespace a; ar_status := ar_status a; ar_license := ar_license a;
     ar_repository := ar_repository a; ar_icons := ar_icons a; ar_metadata := ar_metadata a;
     ar_extension_meta := ar_extension_meta a; ar_oci := ar_oci a ++ oci; ar_git := ar_git a ++ git |}.

(** The status a version is stored with. *)
Definition stored_status (s : string) : option ArtifactStatus :=
  if String.eqb s "" then Some StatusACTIVE else status_enum (ToUpper s).

Section Correct.
Context {X R : Type} {K : ArtifactKind X R} `{KL : !ArtifactKindLaws K}.
Context `{Co : Collation} `{C : JsonCodec} `{AC : ArtifactCodec} `{L : SemverLib}.

Lemma getOrCreateEntry_run sid ty name c o n d eid n' d' :
  getOrCreateEntry sid ty name c o n d = (Ok eid, n', d') ->
  exists e, en_id e = eid /\
    ((d_entry d !! (sid, ty, name) = Some e /\ d' = d /\ checkClaimConsistency c (en_claims e) = Ok ()) \/
     (d_entry d !! (sid, ty, name) = None /\ e = {| en_id := d_next d; en_claims := c |} /\
      d' = set_entry (set_next d (S (d_next d))) (<[(sid, ty, name) := e]> (d_entry d)))).
Proof.
  intros H. unfold getOrCreateEntry in H. attempt_in H r E. destruct r as [e|err].
  - apply select_run_ok in E as [E ->]. unfold row_or_none in E. case_match; simplify_eq.
    lift_in H u Hc. apply ret_run_ok in H as (-> & _ & ->). exists e. split; [done|]. by left.
  - destruct (errorIs err ErrNoRows) eqn:Enr; [|done]. apply select_no_rows in E as [E ->]; [|done].
    apply wrapping_run_ok, query_run_ok in H. destruct (d_entry d !! _) eqn:Ee; [done|].
    injection H as <- <-. exists {| en_id := d_next d; en_claims := c |}. split; [done|]. by right.
Qed.

Lemma insertArtifactVersionRow_run eid a now o n d vid n' d' :
  insertArtifactVersionRow eid a now o n d = (Ok vid, n', d') ->
  d_version d !! (eid, a_Version a) = None /\ vid = d_next d /\
  d' = set_version (set_next d (S (d_next d)))
         (<[(eid, a_Version a) := {| ve_id := d_next d; ve_name := a_Name a; ve_title := a_Title a;
                                     ve_description := a_Description a; ve_created := now |}]> (d_version d)).
Proof.
  unfold insertArtifactVersionRow. intros H. attempt_in H r E. destruct r as [x|err].
  - apply ret_run_ok in H as (-> & _ & ->). apply query_run_ok in E. destruct (d_version d !! _) eqn:Ev; [done|].
    by injection E as <- <-.
  - by destruct (errorIs err ErrPgUnique).
Qed.

Lemma packages_run vid row l o n d n' d' :
  k_table d !! vid = Some row -> for_each_q (insertPackage vid) l o n d = (Ok (), n', d') ->
  d' = k_set d (<[vid := k_with row (with_packages (oci_rows l) (git_rows l) (k_art row))]> (k_table d)).
Proof.
  assert (Happ : forall a l1 l2 l3 l4, with_packages l3 l4 (with_packages l1 l2 a) = with_packages (l1 ++ l3) (l2 ++ l4) a).
  { intros. unfold with_packages. cbn. by rewrite <-!app_assoc. }
  assert (Hnil : forall a, with_packages [] [] a = a).
  { intros []. unfold with_packages. cbn. by rewrite !app_nil_r. }
  assert (Hstep : forall d f o n n' d', insert_package vid f o n d = (Ok (), n', d') -> forall row, k_table d !! vid = Some row ->
    d' = k_set d (<[vid := k_with row (f (k_art row))]> (k_table d))).
  { intros * E%query_run_ok r Hr. rewrite Hr in E. by injection E as <-. }
  revert n d row. induction l as [|p l IH]; intros n d row Hrow H.
  - cbn in H. apply ret_run_ok in H as (_ & _ & ->). cbn. rewrite Hnil, k_with_art, insert_id by done. by rewrite k_set_table.
  - cbn [for_each_q] in H. bind_in H u E. unfold insertPackage in E. cbn [oci_rows git_rows omap list_omap].
    assert (Hgo : forall f l1 l2, insert_package vid f o n d = (Ok (), n0, d0) ->
      (forall a, f a = with_packages l1 l2 a) ->
      d' = k_set d (<[vid := k_with row (with_packages (l1 ++ oci_rows l) (l2 ++ git_rows l) (k_art row))]> (k_table d))).
    { intros f l1 l2 E' Hf. apply (Hstep _ _ _ _ _ _ E') in Hrow. subst d0.
      apply IH with (row := k_with row (f (k_art row))) in H; [|rewrite k_table_set; apply lookup_insert_eq].
      rewrite H, k_table_set, k_set_set, insert_insert_eq, k_art_with, k_with_with. by rewrite Hf, Happ. }
    destruct (String.eqb_spec (pg_RegistryType p) PackageTypeOCI) as [Ep|_].
    { rewrite Ep. cbn [String.eqb PackageTypeOCI PackageTypeGit]. cbv beta iota.
      apply (Hgo _ [oci_row p] []) in E; [exact E|]. intros []. unfold with_packages, add_oci. cbn. by rewrite app_nil_r. }
    destruct (String.eqb_spec (pg_RegistryType p) PackageTypeGit) as [Ep|_].
    { apply (Hgo _ [] [git_row p]) in E; [exact E|]. intros []. unfold with_packages, add_git. cbn. by rewrite app_nil_r. }
    apply ret_run_ok in E as (_ & _ & ->). by eapply IH.
Qed.

(** The row of a version: what [makeInsertVersionParams] builds, with the
    packages. *)
Definition published_row (x : X) (row : R) : Prop :=
  let a := k_common x in
  exists st repository icons metadata extensionMeta,
    stored_status (a_Status a) = Some st /\
    marshal_repository (a_Repository a) = Some repository /\ marshal_icons (a_Icons a) = Some icons /\
    marshal_map (a_Metadata a) = Some metadata /\ marshal_map (a_Meta a) = Some extensionMeta /\
    row = k_row x {| ar_namespace := a_Namespace a; ar_status := st; ar_license := a_License a;
      ar_repository := repository; ar_icons := icons; ar_metadata := metadata; ar_extension_meta := extensionMeta;
      ar_oci := oci_rows (a_Packages a); ar_git := git_rows (a_Packages a) |}.

(** The database after publishing [x] into the source [sid]. *)
Record artifact_published (x : X) (sid : uuid) (claimsJSON : string) (now : Z) (e : EntryRow) (r : VersionRow) (row : R)
    (d d' : DB) : Prop := {
  pb_entry : d_entry d' !! (sid, k_entry, a_Name (k_common x)) = Some e;
  pb_entries : (d_entry d' = d_entry d /\ checkClaimConsistency claimsJSON (en_claims e) = Ok ()) \/
    (d_entry d !! (sid, k_entry, a_Name (k_common x)) = None /\ en_claims e = claimsJSON /\
     d_entry d' = <[(sid, k_entry, a_Name (k_common x)) := e]> (d_entry d));
  pb_new : d_version d !! (en_id e, a_Version (k_common x)) = None;
  pb_version : d_version d' = <[(en_id e, a_Version (k_common x)) := r]> (d_version d);
  pb_columns : ve_name r = a_Name (k_common x) /\ ve_title r = a_Title (k_common x) /\
    ve_description r = a_Description (k_common x) /\ ve_created r = now;
  pb_fresh : (d_next d <= ve_id r)%nat;
  pb_row : published_row x row;
  pb_table : k_table d' = <[ve_id r := row]> (k_table d);
  pb_latest : d_latest d' = latest_after d sid (a_Name (k_common x)) (a_Version (k_common x)) (ve_id r);
  pb_frame : d_source d' = d_source d /\ d_registry d' = d_registry d /\ d_registry_source d' = d_registry_source d /\
    d_server d' = d_server d /\ d_sync d' = d_sync d;
  pb_wf : wf_core d' }.

Lemma params_run x st f : makeInsertVersionParams x = Ok (st, f) ->
  forall enum, (match st with None => Some StatusACTIVE | Some s => status_enum s end) = Some enum ->
  published_row x (k_with (f enum) (with_packages (oci_rows (a_Packages (k_common x))) (git_rows (a_Packages (k_common x))) (k_art (f enum)))).
Proof.
  unfold makeInsertVersionParams. intros H.
  destruct (marshal_repository _) as [repo|] eqn:E1; [|done]. destruct (marshal_icons _) as [icons|] eqn:E2; [|done].
  destruct (marshal_map (a_Metadata _)) as [md|] eqn:E3; [|done]. destruct (marshal_map (a_Meta _)) as [em|] eqn:E4; [|done].
  cbn in H. injection H as <- <-. intros enum Henum. rewrite k_art_row, k_with_row.
  exists enum, repo, icons, md, em. split_and!; try done. unfold stored_status. by destruct (String.eqb _ _).
Qed.

Lemma core_wf d d' : core d' = core d -> wf_core d -> wf_core d'.
Proof. intros E. by apply wf_core_proper. Qed.

Lemma latest_after_wf d sid ty name e v r d0 :
  wf_core d -> d_entry d !! (sid, ty, name) = Some e -> d_version d !! (en_id e, v) = Some r ->
  d_latest d = d_latest d0 -> wf_core (set_latest d (latest_after d0 sid name v (ve_id r))).
Proof.
  intros Hwf He Hr Hl. assert (Hsame : wf_core (set_latest d (d_latest d0))) by (rewrite <-Hl; by destruct d).
  assert (Hnew : wf_core (set_latest d (<[(sid, name) := (v, ve_id r)]> (d_latest d0))))
    by (rewrite <-Hl; by eapply wf_core_upsert_latest).
  unfold latest_after. by repeat case_match.
Qed.

(** The database once the entry is there. *)
Lemma entry_stage sid name c e d d1 : wf_core d ->
  ((d_entry d !! (sid, k_entry, name) = Some e /\ d1 = d /\ checkClaimConsistency c (en_claims e) = Ok ()) \/
   (d_entry d !! (sid, k_entry, name) = None /\ e = {| en_id := d_next d; en_claims := c |} /\
    d1 = set_entry (set_next d (S (d_next d))) (<[(sid, k_entry, name) := e]> (d_entry d)))) ->
  wf_core d1 /\ d_entry d1 !! (sid, k_entry, name) = Some e /\ d_version d1 = d_version d /\ d_latest d1 = d_latest d /\
  (d_next d <= d_next d1)%nat /\ k_table d1 = k_table d /\
  (d_source d1 = d_source d /\ d_registry d1 = d_registry d /\ d_registry_source d1 = d_registry_source d /\
   d_server d1 = d_server d /\ d_sync d1 = d_sync d) /\
  ((d_entry d1 = d_entry d /\ checkClaimConsistency c (en_claims e) = Ok ()) \/
   (d_entry d !! (sid, k_entry, name) = None /\ en_claims e = c /\ d_entry d1 = <[(sid, k_entry, name) := e]> (d_entry d))).
Proof.
  intros Hwf [(He & -> & Hc)|(He & -> & ->)].
  - split_and!; try done. by left.
  - rewrite k_table_entry, k_table_next. split_and!; try done; cbn; [by apply wf_core_insert_entry|apply lookup_insert_eq|lia|].
    by right.
Qed.

Lemma publish_run ctx x claimsJSON gateClaims now o n d nm n' d' :
  wf_core d -> executePublishArtifactTransaction ctx x claimsJSON gateClaims now o n d = (Ok nm, n', d') ->
  exists src e r row, managed_sources d = [src] /\ nm = fst src /\
    validateClaimsVisibleBytes ctx gateClaims (so_claims (snd src)) = Ok () /\
    artifact_published x (so_id (snd src)) claimsJSON now e r row d d'.
Proof.
  intros Hwf H. apply transaction_ok in H as (n1 & n2 & H). bind_in H src E. apply getManagedSource_ok in E as [Hsrc ->].
  lift_in H u Hgate. bind_in H eid E. apply getOrCreateEntry_run in E as (e & <- & Hent).
  bind_in H vid E. apply insertArtifactVersionRow_run in E as (Hnone & -> & ->). lift_in H params Ep. destruct params as [st f].
  query_in H vid' E. cbn [fst snd] in E. destruct (match st with None => _ | Some s => _ end) as [enum|] eqn:Est; [|done].
  destruct (k_table _ !! _) eqn:Ek; [done|]. injection E as _ <-. bind_in H u E.
  apply packages_run with (row := f enum) in E; [|rewrite k_table_set; apply lookup_insert_eq].
  rewrite k_set_set, k_table_set, insert_insert_eq, k_table_version, k_table_next in E.
  pose proof (params_run x st f Ep enum Est) as Hrow.
  set (row := k_with (f enum) _) in *. bind_in H u El. apply advanceLatest_ok in El. apply ret_run_ok in H as (-> & _ & ->).
  destruct (entry_stage _ _ _ _ _ _ Hwf Hent) as (Hwf1 & He & Hv1 & Hl1 & Hn1 & Hk1 & Hf1 & Hcase).
  set (r := {| ve_id := d_next d0 |}) in E.
  exists src, e, r, row. split; [done|]. split; [done|]. split; [done|].
  pose proof (wf_core_insert_version d0 _ _ _ e _ r Hwf1 He Hnone eq_refl eq_refl) as Hwf2.
  rewrite E in El. clear E. rewrite El. clear El. set (dv := set_version _ _) in *.
  set (m := <[_ := row]> (k_table d0)) in *. pose proof (k_set_core dv m) as Hcore. pose proof (k_set_content dv m) as Hcont.
  set (dk := k_set dv m) in *. unfold core in Hcore. injection Hcore as Hc1 Hc2 Hc3 Hc4 Hc5 Hc6 Hc7.
  injection Hcont as Hs1 _ _ _ Hs5. destruct Hf1 as (F1 & F2 & F3 & F4 & F5).
  assert (Hlat : latest_after dk (so_id (snd src)) (a_Name (k_common x)) (a_Version (k_common x)) (ve_id r) =
                 latest_after d (so_id (snd src)) (a_Name (k_common x)) (a_Version (k_common x)) (ve_id r)).
  { unfold latest_after. rewrite Hc7. cbn. by rewrite Hl1. }
  change (d_next d0) with (ve_id r). rewrite Hlat. split; cbn [set_latest d_entry d_version d_latest d_source d_registry d_registry_source d_server d_sync].
  - by rewrite Hc5.
  - rewrite Hc5. exact Hcase.
  - by rewrite <-Hv1.
  - rewrite Hc6. cbn. by rewrite Hv1.
  - done.
  - cbn. lia.
  - exact Hrow.
  - rewrite k_table_latest. unfold dk. rewrite k_table_set. unfold m. by rewrite Hk1.
  - done.
  - rewrite Hc2, Hc3, Hc4, Hs1, Hs5. by rewrite <-F1, <-F2, <-F3, <-F4, <-F5.
  - eapply latest_after_wf.
    + eapply core_wf; [exact (k_set_core dv m)|exact Hwf2].
    + rewrite Hc5. exact He.
    + rewrite Hc6. cbn. apply lookup_insert_eq.
    + rewrite Hc7. exact Hl1.
Qed.

(** ** Reading back *)

Definition joined_row (d : DB) (sid : uuid) (position : Z) (name v : string) (e : EntryRow) (r : VersionRow) (row : R) : JoinedRow :=
  {| j_source := sid; j_name := name; j_version := v; j_vid := ve_id r; j_ver := r; j_row := row;
     j_claims := en_claims e; j_is_latest := is_latest (ve_id r) d; j_position := position |}.

Lemma joined_rows_elem sid position d j :
  j ∈ joined_rows sid position d <-> exists ty name e v r row,
    d_entry d !! (sid, ty, name) = Some e /\ d_version d !! (en_id e, v) = Some r /\ k_table d !! ve_id r = Some row /\
    j = joined_row d sid position name v e r row.
Proof.
  unfold joined_rows. rewrite list_elem_of_bind. split.
  - intros ([[[s ty] name] e] & Hj & He%elem_of_map_to_list). destruct (Nat.eqb_spec s sid) as [->|]; [|by apply elem_of_nil in Hj].
    apply list_elem_of_omap in Hj as ([v r] & Hr%elem_of_entry_versions & E). apply fmap_Some in E as (row & Hrow & ->).
    by exists ty, name, e, v, r, row.
  - intros (ty & name & e & v & r & row & He & Hr & Hrow & ->). exists ((sid, ty, name), e).
    split; [|by apply elem_of_map_to_list]. rewrite Nat.eqb_refl. apply list_elem_of_omap. exists (v, r).
    split; [by apply elem_of_entry_versions|]. by rewrite Hrow.
Qed.

(** The rows of a kind belong to entries of its type. *)
Definition kind_wf (d : DB) : Prop :=
  forall sid ty name e v r, d_entry d !! (sid, ty, name) = Some e -> d_version d !! (en_id e, v) = Some r ->
  is_Some (k_table d !! ve_id r) -> ty = k_entry.

Lemma kind_wf_published x sid c now e r row d d' :
  wf_core d -> kind_wf d -> artifact_published x sid c now e r row d d' -> kind_wf d'.
Proof.
  intros Hwf Hk [He Hes Hnew Hv _ Hfr _ Ht _ _ Hwf'] sid' ty name e' v r' He' Hr' Hrow.
  destruct (decide ((sid', ty, name) = (sid, k_entry, a_Name (k_common x)))) as [[= _ -> _]|Hne]; [done|].
  assert (He0 : d_entry d !! (sid', ty, name) = Some e').
  { destruct Hes as [[-> _]|(_ & _ & Hes)] in He'; [done|]. rewrite Hes, lookup_insert_ne in He' by congruence. done. }
  rewrite Hv in Hr'. apply lookup_insert_Some in Hr' as [[[= Eid _] _]|[_ Hr']].
  - exfalso. apply Hne. eapply (wf_entry_inj _ Hwf'); [exact He'|exact He|done].
  - eapply (Hk _ _ _ _ _ _ He0 Hr'). rewrite Ht, lookup_insert_ne in Hrow; [done|].
    pose proof (wf_version_id _ Hwf _ _ Hr'). lia.
Qed.

Lemma bind_single {A B} (m : gmap uuid A) (f : A -> list B) vid a : m !! vid = Some a ->
  (map_to_list m ≫= fun '(id, r) => if bool_decide (id ∈ [vid]) then pair id <$> f r else []) = pair vid <$> f a.
Proof.
  intros Hm. pose proof (NoDup_fst_map_to_list m) as Hnd. apply elem_of_map_to_list in Hm. revert Hm Hnd.
  generalize (map_to_list m). clear m. induction l as [|[id r] l IH]; intros Hin Hnd; [by apply elem_of_nil in Hin|].
  cbn in Hnd. apply NoDup_cons in Hnd as [Hni Hnd]. cbn. case_bool_decide as Hid; rewrite list_elem_of_singleton in Hid.
  - subst id. apply elem_of_cons in Hin as [[= ->]|Hin]; [|exfalso; apply Hni, list_elem_of_fmap; by exists (vid, a)].
    replace (l ≫= _) with (@nil (uuid * B)); [by rewrite app_nil_r|]. symmetry. clear IH Hnd.
    induction l as [|[id r'] l IHl]; [done|]. cbn in *. rewrite bool_decide_eq_false_2; [apply IHl|]; set_solver.
  - apply elem_of_cons in Hin as [[= -> ->]|Hin]; [done|]. by apply IH.
Qed.

Definition read_packages (row : R) : list ArtifactPackage :=
  (toServiceOciPackage <$> ar_oci (k_art row)) ++ (toServiceGitPackage <$> ar_git (k_art row)).

Lemma version_packages_run vid row o n d pkgs n' d' :
  k_table d !! vid = Some row -> version_packages vid o n d = (Ok pkgs, n', d') ->
  d' = d /\ pkgs = read_packages row.
Proof.
  intros Hrow H. unfold version_packages in H. select_in H oci E1. select_in H git E2.
  apply ret_run_ok in H as (-> & _ & ->). injection E1 as <-. injection E2 as <-. split; [done|].
  rewrite (bind_single _ (fun r => ar_oci (k_art r)) vid row Hrow).
  rewrite (bind_single _ (fun r => ar_git (k_art r)) vid row Hrow).
  unfold read_packages. by rewrite <-!list_fmap_compose.
Qed.

Lemma version_packages_fine vid row o n d :
  (forall k, o k = None) -> k_table d !! vid = Some row ->
  version_packages vid o n d = (Ok (read_packages row), S (S n), d).
Proof.
  intros Ho Hrow. unfold version_packages.
  eapply bind_fine; [by apply (select_fine o Ho)|]. eapply bind_fine; [by apply (select_fine o Ho)|].
  rewrite (bind_single _ (fun r => ar_oci (k_art r)) vid row Hrow).
  rewrite (bind_single _ (fun r => ar_git (k_art r)) vid row Hrow).
  unfold read_packages. by rewrite <-!list_fmap_compose.
Qed.

(** A version of a kind is in the join once. *)
Lemma joined_find sid position d name v e r row j :
  wf_core d -> kind_wf d -> d_entry d !! (sid, k_entry, name) = Some e -> d_version d !! (en_id e, v) = Some r ->
  k_table d !! ve_id r = Some row -> j ∈ joined_rows sid position d ->
  ve_name (j_ver j) = name -> j_version j = v -> j = joined_row d sid position name v e r row.
Proof.
  intros Hwf Hk He Hr Hrow (ty & nm & e' & v' & r' & row' & He' & Hr' & Hrow' & ->)%joined_rows_elem Hn Hv. cbn in Hn, Hv. subst v'.
  destruct (wf_version_entry _ Hwf _ _ _ Hr') as (s2 & ty2 & e2 & He2 & Hid).
  pose proof (wf_entry_inj _ Hwf _ _ _ _ He2 He' Hid) as [= _ _ Hnm]. rewrite Hn in Hnm. subst nm.
  assert (ty = k_entry) as -> by (eapply Hk; eauto). rewrite He in He'. injection He' as <-.
  rewrite Hr in Hr'. injection Hr' as <-. rewrite Hrow in Hrow'. by injection Hrow' as <-.
Qed.

Lemma version_name d sid ty name e v r : wf_core d -> d_entry d !! (sid, ty, name) = Some e ->
  d_version d !! (en_id e, v) = Some r -> ve_name r = name.
Proof.
  intros Hwf He Hr. destruct (wf_version_entry _ Hwf _ _ _ Hr) as (s2 & ty2 & e2 & He2 & Hid).
  by pose proof (wf_entry_inj _ Hwf _ _ _ _ He2 He Hid) as [= _ _ ->].
Qed.

Section Fetch.
Context (d : DB) (nm name v : string) (s : SourceRow) (e : EntryRow) (r : VersionRow) (row : R).
Hypotheses (Hwf : wf_core d) (Hk : kind_wf d) (Hs : d_source d !! nm = Some s)
  (He : d_entry d !! (so_id s, k_entry, name) = Some e) (Hr : d_version d !! (en_id e, v) = Some r)
  (Hrow : k_table d !! ve_id r = Some row).

Definition fetched : X := rowToArtifact (joined_row d (so_id s) 0 name v e r row) (read_packages row).

Lemma fetch_row :
  match d_source d !! nm with
  | None => Err no_rows
  | Some s => row_or_none (find (fun j => String.eqb (ve_name (j_ver j)) name && String.eqb (j_version j) v)
                                (joined_rows (so_id s) 0 d))
  end = Ok (joined_row d (so_id s) 0 name v e r row).
Proof using All.
  rewrite Hs. destruct (find _ _) as [j|] eqn:Ef; cbn.
  - apply find_some in Ef as [Hin%list_elem_of_In [En%String.eqb_eq Ev%String.eqb_eq]%andb_true_iff].
    by erewrite (joined_find (so_id s) 0 d name v e r row j).
  - assert (Hin : joined_row d (so_id s) 0 name v e r row ∈ joined_rows (so_id s) 0 d)
      by (apply joined_rows_elem; eauto 10).
    apply list_elem_of_In in Hin. pose proof (find_none _ _ Ef _ Hin) as Hf. cbn in Hf.
    rewrite (version_name _ _ _ _ _ _ _ Hwf He Hr), !String.eqb_refl in Hf. done.
Qed.

Lemma fetch_run o n x n' d' : fetchVersionBySource name v nm o n d = (Ok x, n', d') -> d' = d /\ x = fetched.
Proof using All.
  unfold fetchVersionBySource. intros H. attempt_in H res E. destruct res as [j|err].
  - apply select_run_ok in E as [E ->]. rewrite fetch_row in E. injection E as <-. bind_in H pkgs E.
    apply (version_packages_run _ row) in E as [-> ->]; [|done]. by apply ret_run_ok in H as (-> & _ & ->).
  - by destruct (errorIs err ErrNoRows).
Qed.

Lemma fetch_fine o n : (forall k, o k = None) ->
  fetchVersionBySource name v nm o n d = (Ok fetched, S (S (S n)), d).
Proof using All.
  intros Ho. unfold fetchVersionBySource. eapply bind_fine; [apply attempt_fine, (select_fine o Ho), fetch_row|].
  cbv beta iota. eapply bind_fine; [by apply version_packages_fine|]. done.
Qed.
End Fetch.

Lemma reads_fetch name v nm : reads (fetchVersionBySource (X := X) name v nm).
Proof.
  unfold fetchVersionBySource, GetArtifactVersionBySourceName, version_packages, ListArtifactOciPackages, ListArtifactGitPackages.
  apply reads_bind; [apply reads_attempt, reads_select|]. intros [j|err]; [|case_match; apply reads_fail].
  apply reads_bind; [|intros; apply reads_ret].
  apply reads_bind; [apply reads_select|intros]. apply reads_bind; [apply reads_select|intros; apply reads_ret].
Qed.

Lemma managed_lookup d nm s : managed_sources d = [(nm, s)] -> d_source d !! nm = Some s.
Proof.
  intros H. apply elem_of_map_to_list, list_elem_of_In.
  assert (Hin : In (nm, s) (managed_sources d)) by (rewrite H; by left). by apply filter_In in Hin as [? _].
Qed.

Lemma published_fetch x nm s c now e r row d d' : managed_sources d = [(nm, s)] ->
  artifact_published x (so_id s) c now e r row d d' ->
  d_source d' !! nm = Some s /\ d_version d' !! (en_id e, a_Version (k_common x)) = Some r /\ k_table d' !! ve_id r = Some row.
Proof.
  intros Hm%managed_lookup []. destruct pb_frame0 as [Hs _]. rewrite Hs, pb_version0, pb_table0.
  by rewrite !lookup_insert_eq.
Qed.

(** What a publication that got through its gates amounts to. *)
Definition publication (s : dbService) (ctx : Ctx) (x : X) (opts : PublishArtifactOptions) (now : Z) (d d' : DB) (out : X) : Prop :=
  exists nm src claimsJSON e r row,
    managed_sources d = [(nm, src)] /\
    validateClaimsSubset ctx (gate s (ao_JWTClaims opts)) (claims_or_empty (ao_Claims opts)) = Ok () /\
    validateClaimsVisibleBytes ctx (gate s (ao_JWTClaims opts)) (so_claims src) = Ok () /\
    (match ao_Claims opts with None => claimsJSON = "" | Some c => json_Marshal c = Some claimsJSON end) /\
    artifact_published x (so_id src) claimsJSON now e r row d d' /\
    out = fetched d' (a_Name (k_common x)) (a_Version (k_common x)) src e r row.

Lemma PublishArtifact_run s ctx x opts now o n d res n' d' :
  wf_core d -> kind_wf d -> PublishArtifact s ctx x opts now o n d = (res, n', d') ->
  match res with
  | Ok y => publication s ctx x opts now d d' y
  | Err _ => d' = d \/ ((exists y, publication s ctx x opts now d d' y) /\ exists k, o k <> None)
  end.
Proof.
  intros Hwf Hk H. unfold PublishArtifact in H. destruct (_ || _ || _); [unfold fail in H; simplify_eq; by left|].
  unfold mbind at 1, Q_bind, lift at 1 in H. destruct (validateClaimsSubset _ _ _) as [[]|err] eqn:Esub; [|simplify_eq; by left].
  unfold mbind at 1, Q_bind, lift in H.
  destruct (match ao_Claims opts with None => Ok "" | Some c => _ end) as [cj|err] eqn:Ecj; [|simplify_eq; by left].
  unfold mbind, Q_bind in H. destruct (executePublishArtifactTransaction _ _ _ _ _ _ _ _) as [[[nm|err] n1] d1] eqn:Et.
  2:{ simplify_eq. left. by eapply transaction_atomic. }
  apply publish_run in Et as ([nm' src] & e & r & row & Hm & -> & Hvis & Hpub); [|done]. cbn [fst snd] in *.
  destruct (published_fetch _ _ _ _ _ _ _ _ _ _ Hm Hpub) as (Hs' & Hr' & Hrow').
  pose proof (kind_wf_published _ _ _ _ _ _ _ _ _ Hwf Hk Hpub) as Hk'.
  pose proof (pb_wf _ _ _ _ _ _ _ _ _ Hpub) as Hwf'. pose proof (pb_entry _ _ _ _ _ _ _ _ _ Hpub) as He'.
  assert (Hcj : match ao_Claims opts with None => cj = "" | Some c => json_Marshal c = Some cj end).
  { destruct (ao_Claims opts); [|congruence]. unfold or_err in Ecj. case_match; congruence. }
  unfold wrapping in H. destruct (fetchVersionBySource _ _ _ _ _ _) as [[[y|err] n2] d2] eqn:Ef; simplify_eq.
  - eapply fetch_run in Ef as [-> ->]; eauto. by exists nm', src, cj, e, r, row.
  - pose proof (reads_fetch _ _ _ _ _ _ _ _ _ Ef) as ->. right. split.
    + eexists _, nm', src, cj, e, r, row. by split_and!.
    + destruct (o n1) as [|] eqn:E1; [exists n1; by rewrite E1|]. destruct (o (S n1)) as [|] eqn:E2; [exists (S n1); by rewrite E2|].
      destruct (o (S (S n1))) as [|] eqn:E3; [exists (S (S n1)); by rewrite E3|]. exfalso.
      unfold fetchVersionBySource, version_packages, mbind, Q_bind, attempt, GetArtifactVersionBySourceName, ListArtifactOciPackages,
        ListArtifactGitPackages, select, query in Ef. rewrite E1 in Ef. cbv beta iota in Ef.
      erewrite fetch_row in Ef by eauto. rewrite E2 in Ef. cbv beta iota in Ef. rewrite E3 in Ef. done.
Qed.

(** C14. Publishing a skill or plugin.  A success stores exactly the version: the
    claims stamped are covered by the caller's, the managed source is visible to
    it, the entry of the kind is new with those claims or had equal ones, the
    version is new with the columns of the value and its OCI and Git packages,
    the pointer advances if the version is newer, ids and references stay sound,
    and the value returned is what the row reads back as.  A failure leaves the
    database as it was, unless a database fault hits the read after the commit:
    then the version is stored although the caller is told of an error. *)
Theorem PublishArtifact_correct s ctx x opts now o n d res n' d' :
  wf_core d -> kind_wf d -> PublishArtifact s ctx x opts now o n d = (res, n', d') ->
  wf_core d' /\ kind_wf d' /\
  match res with
  | Ok y => publication s ctx x opts now d d' y
  | Err _ => d' = d \/ ((exists y, publication s ctx x opts now d d' y) /\ exists k, o k <> None)
  end.
Proof.
  intros Hwf Hk H. apply PublishArtifact_run in H; [|done..].
  assert (Hpub : forall y, publication s ctx x opts now d d' y -> wf_core d' /\ kind_wf d').
  { intros y (nm & src & cj & e & r & row & _ & _ & _ & _ & Hp & _). split; [by eapply pb_wf|by eapply kind_wf_published]. }
  destruct res as [y|err].
  - destruct (Hpub _ H). by split_and!.
  - destruct H as [->|[[y Hy] Ho]]; [by split_and!; [..|left]|]. destruct (Hpub _ Hy). split_and!; [done..|right; eauto].
Qed.

(** The value read back from a publication. *)
Definition normal_status (s : string) : string := if String.eqb s "" then "ACTIVE" else ToUpper s.
Definition normal_packages (l : list ArtifactPackage) : list ArtifactPackage :=
  (toServiceOciPackage <$> oci_rows l) ++ (toServiceGitPackage <$> git_rows l).

Definition stored_as (a : Artifact) (vid : uuid) (latest : bool) (now : Z) : Artifact :=
  {| a_ID := vid; a_Namespace := a_Namespace a; a_Name := a_Name a; a_Description := a_Description a;
     a_Version := a_Version a; a_Status := normal_status (a_Status a); a_Title := a_Title a; a_License := a_License a;
     a_Repository := Some (default {| ap_URL := ""; ap_Type := "" |} (a_Repository a)); a_Icons := a_Icons a;
     a_Packages := normal_packages (a_Packages a); a_Metadata := a_Metadata a; a_Meta := a_Meta a;
     a_IsLatest := latest; a_CreatedAt := now |}.

Lemma status_stored s st : stored_status s = Some st -> status_string st = normal_status s.
Proof.
  unfold stored_status, normal_status, status_enum. intros H. destruct (String.eqb s ""); [by injection H as <-|].
  destruct (String.eqb_spec (ToUpper s) "ACTIVE") as [->|]; [by injection H as <-|].
  destruct (String.eqb_spec (ToUpper s) "DEPRECATED") as [->|]; [by injection H as <-|].
  by destruct (String.eqb_spec (ToUpper s) "ARCHIVED") as [->|]; [injection H as <-|].
Qed.

(** The flag of a new version: the pointer was moved to it. *)
Lemma is_latest_new d d' sid name v vid : wf_core d -> (d_next d <= vid)%nat ->
  d_latest d' = latest_after d sid name v vid ->
  is_latest vid d' = match d_latest d !! (sid, name) with None => true | Some (cur, _) => IsNewerVersion v cur end.
Proof.
  intros Hwf Hfr Hl. assert (Hold : forall k w id, d_latest d !! k = Some (w, id) -> id <> vid).
  { intros [s1 n1] w id (ty & e & r & _ & Hr & <-)%(wf_latest _ Hwf). pose proof (wf_version_id _ Hwf _ _ Hr). lia. }
  unfold is_latest. rewrite Hl. unfold latest_after.
  assert (Hin : existsb (fun kv => (snd (snd kv) =? vid)%nat) (map_to_list (<[(sid, name) := (v, vid)]> (d_latest d))) = true).
  { apply existsb_exists. exists ((sid, name), (v, vid)). split; [|apply Nat.eqb_refl].
    apply list_elem_of_In, elem_of_map_to_list, lookup_insert_eq. }
  assert (Hout : existsb (fun kv => (snd (snd kv) =? vid)%nat) (map_to_list (d_latest d)) = false).
  { apply not_true_is_false. intros ([k [w id]] & Hk%list_elem_of_In%elem_of_map_to_list & Hid%Nat.eqb_eq)%existsb_exists.
    by eapply Hold. }
  destruct (d_latest d !! (sid, name)) as [[cur id]|]; [|done]. by destruct (IsNewerVersion v cur).
Qed.

Section ReadBack.
(** What [encoding/json] promises: a value that was decoded from a document is
    encoded as one that decodes to it; a nil repository is "null", and "null"
    decodes to an empty one. *)
Class ArtifactCodecLaws : Prop := {
  ac_repository : forall t r s, parse_repository t = Some r -> marshal_repository (Some r) = Some s ->
    s <> "" /\ parse_repository s = Some r;
  ac_null : marshal_repository None = Some "null" /\ parse_repository "null" = Some {| ap_URL := ""; ap_Type := "" |};
  ac_icons : forall t l s, parse_icons t = Some l -> marshal_icons l = Some s -> s <> "" /\ parse_icons s = Some l;
  ac_map : forall t m s, parse_map t = Some m -> marshal_map m = Some s -> s <> "" /\ parse_map s = Some m }.
Context `{ACL : !ArtifactCodecLaws}.

(** The value of a request body. *)
Definition decoded (a : Artifact) : Prop :=
  (forall r, a_Repository a = Some r -> exists t, parse_repository t = Some r) /\
  (exists t, parse_icons t = Some (a_Icons a)) /\
  (exists t, parse_map t = Some (a_Metadata a)) /\ (exists t, parse_map t = Some (a_Meta a)).

Lemma repository_back r s : (forall x, r = Some x -> exists t, parse_repository t = Some x) -> marshal_repository r = Some s ->
  s <> "" /\ parse_repository s = Some (default {| ap_URL := ""; ap_Type := "" |} r).
Proof.
  intros Hd Hm. destruct r as [r|].
  - destruct (Hd r eq_refl) as [t Ht]. by eapply ac_repository.
  - destruct ac_null as [Hn Hp]. rewrite Hn in Hm. injection Hm as <-. done.
Qed.

(** C32. What is published reads back: after a successful publication of a
    decoded request the value returned has the name, namespace, version, title, description, license,
    icons, metadata and extension metadata it was given, the status in upper
    case (ACTIVE if unset), the OCI and then the Git packages (no others), an
    empty repository if none was given, and is marked latest exactly if the name
    had no latest version or an older one. *)
Theorem publish_read_back s ctx (x : X) opts now o n d y n' d' :
  wf_core d -> kind_wf d -> decoded (k_common x) -> PublishArtifact s ctx x opts now o n d = (Ok y, n', d') ->
  exists vid latest, k_common y = stored_as (k_common x) vid latest now /\
    forall nm src, managed_sources d = [(nm, src)] -> latest =
      match d_latest d !! (so_id src, a_Name (k_common x)) with
      | None => true
      | Some (cur, _) => IsNewerVersion (a_Version (k_common x)) cur
      end.
Proof.
  intros Hwf Hk (D1 & [ti D2] & [tm D3] & [te D4]) H.
  apply PublishArtifact_run in H as (nm & src & cj & e & r & row & Hm & _ & _ & _ & Hp & ->); [|done..].
  destruct Hp as [He Hes Hnew Hv (Hc1 & Hc2 & Hc3 & Hc4) Hfr Hrow Ht Hl Hframe Hwf'].
  destruct Hrow as (st & repo & icons & md & em & Hst & [Hr1 Hr2]%repository_back & Hi & Hmm & Hem & ->); [|done].
  destruct (ac_icons _ _ _ D2 Hi) as [Hi1 Hi2]. destruct (ac_map _ _ _ D3 Hmm) as [Hm1 Hm2].
  destruct (ac_map _ _ _ D4 Hem) as [He1 He2].
  exists (ve_id r), (is_latest (ve_id r) d'). split.
  - unfold fetched, rowToArtifact, read_packages, joined_row, normal_packages, read_map. cbn [j_row j_ver j_vid j_name j_version j_is_latest].
    rewrite k_common_value, !k_art_row. cbn [ar_namespace ar_status ar_license ar_repository ar_icons ar_metadata ar_extension_meta ar_oci ar_git].
    rewrite (proj2 (String.eqb_neq _ _) Hr1), (proj2 (String.eqb_neq _ _) Hi1), (proj2 (String.eqb_neq _ _) Hm1),
      (proj2 (String.eqb_neq _ _) He1), Hr2, Hi2, Hm2, He2, Hc2, Hc3, Hc4, (status_stored _ _ Hst). done.
  - intros nm' src' Hm'. rewrite Hm in Hm'. injection Hm' as <- <-. by apply is_latest_new.
Qed.
End ReadBack.

(** ** Deleting *)

Lemma artifactDeleteGate_ok s ctx sid opts o n d n' d' :
  artifactDeleteGate s ctx sid opts o n d = (Ok (), n', d') ->
  d' = d /\
  (dao_JWTClaims opts = None \/
   exists e, d_entry d !! (sid, k_entry, dao_Name opts) = Some e /\
     validateClaimsVisibleBytes ctx (gate s (dao_JWTClaims opts)) (en_claims e) = Ok ()).
Proof.
  unfold artifactDeleteGate, GetRegistryEntryByName. destruct (dao_JWTClaims opts) as [jwt|]; intros H; run_ok.
  - destruct a as [e|err]; [|destruct (errorIs err ErrNoRows); by run_ok].
    run_ok. split; [done|]. right. destruct (d_entry _ !! _); simplify_eq. eauto.
  - by split; [|left].
Qed.

Section Deletion.
Context `{!SemverLaws L}.

Lemma kind_wf_deleted ty d d' sid name v e r : deleted ty d d' sid name v e r ->
  (forall vid, is_Some (k_table d' !! vid) -> is_Some (k_table d !! vid)) -> kind_wf d -> kind_wf d'.
Proof.
  intros Hdel Hsub Hk sid' ty' name' e' v' r' He' Hr' Hrow.
  rewrite (del_entries _ _ _ _ _ _ _ _ Hdel) in He'. case_bool_decide; [done|].
  rewrite (del_version _ _ _ _ _ _ _ _ Hdel) in Hr'. apply lookup_delete_Some in Hr' as [_ Hr'].
  eapply Hk; eauto.
Qed.

Lemma cascade_k_table d vid : k_table (cascade_versions (Nat.eqb vid) d) = delete vid (k_table d).
Proof.
  rewrite k_table_cascade. apply map_eq. intros k. apply option_eq. intros x.
  rewrite map_lookup_filter_Some, lookup_delete_Some. cbn. rewrite Nat.eqb_neq. naive_solver.
Qed.

(** Deleting a version of a skill or plugin: a failure changes nothing; a
    success removes the version with its row and packages, and the entry exactly
    if it has no version left; the pointers of other names stand, ids and
    references stay sound, and a caller with claims was allowed to see the
    entry. *)
Lemma DeleteArtifactVersion_correct s ctx opts o n d res n' d' :
  wf_core d -> kind_wf d -> DeleteArtifactVersion s ctx opts o n d = (res, n', d') ->
  wf_core d' /\ kind_wf d' /\
  match res with
  | Err _ => d' = d
  | Ok _ => exists nm src e r,
      managed_sources d = [(nm, src)] /\
      deleted k_entry d d' (so_id src) (dao_Name opts) (dao_Version opts) e r /\
      k_table d' = delete (ve_id r) (k_table d) /\
      (dao_JWTClaims opts = None \/ validateClaimsVisibleBytes ctx (gate s (dao_JWTClaims opts)) (en_claims e) = Ok ())
  end.
Proof.
  intros Hwf Hk H. destruct res as [[]|err].
  2:{ apply transaction_atomic in H as ->. by split_and!. }
  apply transaction_ok in H as (n1 & n2 & H). bind_in H src E. apply getManagedSource_ok in E as [Hm ->]. destruct src as [nm src].
  cbn [fst snd] in *. bind_in H u E. apply artifactDeleteGate_ok in E as [-> Hgate]. bind_in H eid E.
  apply lookupAndDelete_ok in E as (e & r & He & <- & Hr & ->). bind_in H u E.
  apply rePoint_ok in E; [|by apply wf_core_cascade].
  apply cleanup_ok in H. assert (Hdel : deleted k_entry d d' (so_id src) (dao_Name opts) (dao_Version opts) e r) by by eapply deleted_intro.
  assert (Ht : k_table d' = delete (ve_id r) (k_table d)).
  { rewrite <-cascade_k_table. destruct H as [[_ ->]|[_ ->]]; rewrite ?k_table_entry;
      by destruct E as [[_ ->]|[(_ & _ & ->)|(_ & w & y & _ & _ & ->)]]; rewrite ?k_table_latest. }
  split_and!.
  - by eapply del_wf'.
  - eapply kind_wf_deleted; [exact Hdel| |done]. intros vid. rewrite Ht. intros [x Hx].
    apply lookup_delete_Some in Hx as [_ Hx]. by exists x.
  - exists nm, src, e, r. split_and!; [done..|]. destruct Hgate as [?|(e' & He' & ?)]; [by left|right]. congruence.
Qed.
End Deletion.

(** ** Reading one version *)

Definition matching (rid : uuid) (opts : GetArtifactOptions) (d : DB) (j : JoinedRow (R := R)) : bool :=
  String.eqb (ve_name (j_ver j)) (go_Name opts) && version_matches (go_Version opts) j &&
  String.eqb (ar_namespace (k_art (j_row j))) (go_Namespace opts) &&
  (String.eqb (go_SourceName opts) "" || source_named (j_source j) (go_SourceName opts) d).

#[local] Instance priority_total : Total (priority_le (R := R)).
Proof. intros a b. unfold priority_le. lia. Qed.
#[local] Instance priority_trans : Transitive (priority_le (R := R)).
Proof. intros a b c. unfold priority_le. lia. Qed.

Lemma registry_joined_elem rid d j : j ∈ registry_joined rid d <->
  exists sid position, d_registry_source d !! (rid, sid) = Some position /\ j ∈ joined_rows sid position d.
Proof.
  unfold registry_joined. rewrite list_elem_of_bind. split.
  - intros ([[r sid] position] & Hj & Hl%elem_of_map_to_list). destruct (Nat.eqb_spec r rid) as [->|]; [eauto|by apply elem_of_nil in Hj].
  - intros (sid & position & Hl & Hj). exists ((rid, sid), position). split; [by rewrite Nat.eqb_refl|by apply elem_of_map_to_list].
Qed.

Lemma row_filter_total s ctx cs : total_filter (row_filter (R := R) s ctx cs).
Proof. unfold row_filter, newClaimsFilterWith. by repeat case_match. Qed.

Lemma first_visible_spec filter_ (rows : list (JoinedRow (R := R))) : total_filter filter_ ->
  match first_visible filter_ rows with
  | Ok (Some j) => exists pre suf, rows = pre ++ j :: suf /\ visible filter_ j = true /\ Forall (fun x => visible filter_ x = false) pre
  | Ok None => Forall (fun x => visible filter_ x = false) rows
  | Err _ => False
  end.
Proof.
  intros Ht. induction rows as [|j rows IH]; cbn; [constructor|]. destruct filter_ as [f|]; [|by exists [], rows].
  pose proof (Ht j) as Hj. unfold visible in *. unfold rbind. destruct (f j) as [[]|err] eqn:Ej; [| |done].
  - exists [], rows. by rewrite Ej.
  - destruct (first_visible (Some f) rows) as [[k|]|err]; [|by constructor; [rewrite Ej|]|done].
    destruct IH as (pre & suf & -> & Hk & Hpre). exists (j :: pre), suf. split_and!; [done..|]. constructor; [by rewrite Ej|done].
Qed.

Definition request_blank (opts : GetArtifactOptions) : bool :=
  String.eqb (go_RegistryName opts) "" || (String.eqb (go_Name opts) "" || String.eqb (go_Version opts) "") ||
  String.eqb (go_Namespace opts) "".

Definition candidates (rid : uuid) (opts : GetArtifactOptions) (d : DB) : list JoinedRow :=
  List.filter (matching rid opts d) (registry_joined rid d).

Lemma get_query rid opts o n d r n' d' :
  GetArtifactVersionQuery rid (go_Name opts) (go_Version opts) (go_Namespace opts)
    (if String.eqb (go_SourceName opts) "" then None else Some (go_SourceName opts)) (MaxPageSize + 1) o n d = (r, n', d') ->
  d' = d /\ (r = Ok (take (MaxPageSize + 1) (merge_sort priority_le (candidates rid opts d))) \/
             exists f, o n = Some f /\ r = Err (fault_error f)).
Proof.
  unfold GetArtifactVersionQuery, select, query. destruct (o n) as [f|]; [intros; simplify_eq; by eauto|].
  intros H. injection H as <- <- <-. split; [done|]. left. do 3 f_equal. apply List.filter_ext. intros j. unfold matching.
  by destruct (String.eqb (go_SourceName opts) "").
Qed.

Lemma best_first l pre (j : JoinedRow (R := R)) suf x k (P : JoinedRow -> bool) :
  take k (merge_sort priority_le l) = pre ++ j :: suf -> Forall (fun y => P y = false) pre ->
  x ∈ l -> P x = true -> priority_le j x.
Proof.
  intros Ht Hpre Hx HPx. pose proof (StronglySorted_merge_sort priority_le l) as Hs.
  assert (Hin : x ∈ merge_sort priority_le l) by (by rewrite merge_sort_Permutation).
  rewrite <-(take_drop k (merge_sort priority_le l)), Ht, <-app_assoc in Hs, Hin. cbn in Hs, Hin.
  apply elem_of_app in Hin as [Hin|[->|Hin]%elem_of_cons].
  - rewrite Forall_forall in Hpre. rewrite (Hpre x Hin) in HPx. done.
  - unfold priority_le. right. split; [done|]. reflexivity.
  - apply StronglySorted_app in Hs as (_ & _ & Hs). apply StronglySorted_inv in Hs as [_ Hs].
    apply (proj1 (List.Forall_forall _ _) Hs), list_elem_of_In, Hin.
Qed.

(** The choice among the rows fetched. *)
Lemma pick_run s ctx opts rid o n d res n' d' :
  let rows := take (MaxPageSize + 1) (merge_sort priority_le (candidates rid opts d)) in
  (if (List.length rows =? 0)%nat then fail (EWrap ErrNotFound "%s %s")
   else
     found ← lift (first_visible (row_filter s ctx (go_Claims opts)) rows);
     match found with
     | None => fail (EWrap ErrNotFound "%s %s")
     | Some row => packages ← version_packages (j_vid row); mret (rowToArtifact row packages)
     end) o n d = (res, n', d') ->
  d' = d /\
  match res with
  | Ok x => exists j, j ∈ candidates rid opts d /\ visible (row_filter s ctx (go_Claims opts)) j = true /\
      (forall j', j' ∈ candidates rid opts d -> visible (row_filter s ctx (go_Claims opts)) j' = true -> priority_le j j') /\
      x = rowToArtifact j (read_packages (j_row j))
  | Err err => (forall k, o k = None) -> errorIs err ErrNotFound = true /\
      ((List.length (candidates rid opts d) <= MaxPageSize + 1)%nat ->
       Forall (fun j => visible (row_filter s ctx (go_Claims opts)) j = false) (candidates rid opts d))
  end.
Proof.
  intros rows H. assert (Hall : (List.length (candidates rid opts d) <= MaxPageSize + 1)%nat -> rows ≡ₚ candidates rid opts d).
  { intros Hle. unfold rows. rewrite take_ge; [apply merge_sort_Permutation|]. by rewrite merge_sort_Permutation. }
  destruct (Nat.eqb_spec (List.length rows) 0) as [Hz|_].
  { unfold fail in H. simplify_eq. split; [done|]. intros _. split; [done|]. intros Hle. rewrite <-(Hall Hle).
    apply nil_length_inv in Hz. rewrite Hz. constructor. }
  pose proof (first_visible_spec _ rows (row_filter_total s ctx (go_Claims opts))) as Hfv.
  unfold mbind at 1, Q_bind, lift in H. destruct (first_visible _ rows) as [[j|]|err]; [| |done].
  2:{ unfold fail in H. simplify_eq. split; [done|]. intros _. split; [done|]. intros Hle. by rewrite <-(Hall Hle). }
  destruct Hfv as (pre & suf & Hrows & Hvis & Hpre).
  assert (Hj : j ∈ candidates rid opts d).
  { rewrite <-(merge_sort_Permutation priority_le). assert (Hin : j ∈ rows) by (rewrite Hrows; set_solver).
    apply elem_of_take in Hin as (i & Hi & _). by eapply list_elem_of_lookup_2. }
  pose proof Hj as Hj'. unfold candidates in Hj'. apply list_elem_of_In, filter_In in Hj' as [Hj'%list_elem_of_In _].
  apply registry_joined_elem in Hj' as (sid & position & _ & Hjr).
  apply joined_rows_elem in Hjr as (ty & name & e & v & r & row & _ & _ & Hrow & Ej).
  assert (Hrow' : k_table d !! j_vid j = Some (j_row j)) by (by rewrite Ej). clear Hrow Ej.
  unfold mbind, Q_bind in H. destruct (version_packages _ _ _ _) as [[[pkgs|err] n1] d1] eqn:Ep.
  - apply (version_packages_run _ (j_row j)) in Ep as [-> ->]; [|done]. unfold mret, Q_ret in H. simplify_eq. split; [done|].
    exists j. split_and!; [done..| |done]. intros j' Hc Hv'. eapply best_first; eauto.
  - simplify_eq. split.
    + unfold version_packages, mbind, Q_bind, ListArtifactOciPackages, ListArtifactGitPackages, select, query in Ep.
      by repeat case_match; simplify_eq.
    + intros Ho. rewrite (version_packages_fine _ (j_row j)) in Ep by done. done.
Qed.

(** C15. Reading a version of a skill or plugin returns, of the rows of the
    registry that carry the name, the namespace and the version (or are the
    latest) and that the caller's claims admit, one of the source with the
    smallest position, as its row and packages read; the caller passed the
    registry's claim gate.  On a database without faults an error means a blank
    request, a registry missing or closed to the caller, or not-found, and then,
    up to 1001 candidate rows, none of them was visible.  Nothing is written. *)
Theorem GetArtifactVersion_correct s ctx opts o n d res n' d' :
  GetArtifactVersion s ctx opts o n d = (res, n', d') ->
  d' = d /\
  match res with
  | Ok x => exists rg j,
      d_registry d !! go_RegistryName opts = Some rg /\
      validateClaimsVisibleBytes ctx (gate s (go_Claims opts)) (rg_claims rg) = Ok () /\
      j ∈ candidates (rg_id rg) opts d /\ visible (row_filter s ctx (go_Claims opts)) j = true /\
      (forall j', j' ∈ candidates (rg_id rg) opts d -> visible (row_filter s ctx (go_Claims opts)) j' = true ->
         (j_position j <= j_position j')%Z) /\
      x = rowToArtifact j (read_packages (j_row j))
  | Err err => (forall k, o k = None) ->
      request_blank opts = true \/ d_registry d !! go_RegistryName opts = None \/
      exists rg, d_registry d !! go_RegistryName opts = Some rg /\
        (validateClaimsVisibleBytes ctx (gate s (go_Claims opts)) (rg_claims rg) = Err err \/
         errorIs err ErrNotFound = true /\
         ((List.length (candidates (rg_id rg) opts d) <= MaxPageSize + 1)%nat ->
          Forall (fun j => visible (row_filter s ctx (go_Claims opts)) j = false) (candidates (rg_id rg) opts d)))
  end.
Proof.
  intros H. unfold GetArtifactVersion in H. unfold request_blank.
  destruct (String.eqb (go_RegistryName opts) ""); [unfold fail in H; simplify_eq; split; [done|by left]|].
  destruct (_ || _); [unfold fail in H; simplify_eq; split; [done|by left]|].
  destruct (String.eqb (go_Namespace opts) ""); [unfold fail in H; simplify_eq; split; [done|by left]|].
  unfold mbind at 1, Q_bind in H. destruct (lookupRegistryIDWithGate _ _ _ _ _ _) as [[[rid|err] n1] d1] eqn:El.
  2:{ simplify_eq. apply lookupGate_err in El as [-> Herr]. split; [done|]. intros Ho. right.
      destruct (Herr Ho) as [?|(rg & ? & ?)]; [by left|right; eauto]. }
  apply lookupGate_ok in El as (-> & rg & Hrg & <- & Hgate).
  unfold mbind at 1, Q_bind in H. destruct (GetArtifactVersionQuery _ _ _ _ _ _ _ _ _) as [[r n2] d2] eqn:Eq.
  apply get_query in Eq as [-> [->|(f & Hf & ->)]].
  2:{ simplify_eq. split; [done|]. intros Ho. by rewrite Ho in Hf. }
  apply pick_run in H as [-> H]. split; [done|]. destruct res as [x|err].
  - destruct H as (j & ? & ? & Hbest & ?). exists rg, j. split_and!; try done.
    intros j' Hj' Hv. destruct (Hbest j' Hj' Hv); lia.
  - intros Ho. right; right. exists rg. split; [done|]. right. by apply H.
Qed.

(** ** Listing *)

Lemma registry_joined_vid rid d j1 j2 : wf_core d -> j1 ∈ registry_joined rid d -> j2 ∈ registry_joined rid d ->
  j_vid j1 = j_vid j2 -> j1 = j2.
Proof.
  intros Hwf (s1 & p1 & Hl1 & H1)%registry_joined_elem (s2 & p2 & Hl2 & H2)%registry_joined_elem.
  apply joined_rows_elem in H1 as (ty1 & nm1 & e1 & v1 & r1 & row1 & He1 & Hr1 & Hrow1 & ->).
  apply joined_rows_elem in H2 as (ty2 & nm2 & e2 & v2 & r2 & row2 & He2 & Hr2 & Hrow2 & ->). cbn. intros Hid.
  pose proof (wf_version_inj _ Hwf _ _ _ _ Hr1 Hr2 Hid) as [= Hen ->].
  pose proof (wf_entry_inj _ Hwf _ _ _ _ He1 He2 Hen) as [= -> -> ->]. by simplify_eq.
Qed.

Lemma visible_helper s ctx cs (j : JoinedRow (R := R)) :
  visible (claims_filter (sv_skipAuthz s) ctx cs) (helper_of j) = visible (row_filter s ctx cs) j.
Proof. unfold claims_filter, row_filter, newClaimsFilterWith. by repeat case_match. Qed.

(** Appending the packages of many versions leaves each with its own. *)
Lemma append_packages {P T} (f : P -> T) (l : list (uuid * P)) m id :
  default [] (foldl (fun m p => append_package m (fst p) (f (snd p))) m l !! id) =
  default [] (m !! id) ++ (f ∘ snd <$> List.filter (fun p => (fst p =? id)%nat) l).
Proof.
  revert m. induction l as [|[i p] l IH]; intros m; cbn [foldl List.filter]; [by rewrite app_nil_r|].
  rewrite IH. unfold append_package. cbn. destruct (Nat.eqb_spec i id) as [->|Hne].
  - rewrite lookup_insert_eq. cbn. by rewrite <-app_assoc.
  - by rewrite lookup_insert_ne.
Qed.

Lemma filter_bind {A P} (m : gmap uuid A) (f : A -> list P) (ids : list uuid) id a : m !! id = Some a -> id ∈ ids ->
  List.filter (fun p => (fst p =? id)%nat)
    (map_to_list m ≫= fun '(i, r) => if bool_decide (i ∈ ids) then pair i <$> f r else []) = pair id <$> f a.
Proof.
  intros Hm Hid. rewrite <-(bind_single m f id a Hm). generalize (map_to_list m). induction l as [|[i r] l IH]; [done|].
  cbn. rewrite List.filter_app, IH. f_equal. destruct (decide (i = id)) as [->|Hne].
  - rewrite !bool_decide_eq_true_2 by set_solver. induction (f r) as [|x xs IHx]; [done|]. cbn. by rewrite Nat.eqb_refl, IHx.
  - rewrite (bool_decide_eq_false_2 (i ∈ [id])) by set_solver. case_bool_decide; [|done].
    induction (f r) as [|x xs IHx]; [done|]. cbn. by rewrite (proj2 (Nat.eqb_neq i id) Hne), IHx.
Qed.

Lemma fetchPackages_run ids o n d m n' d' : fetchPackages ids o n d = (Ok m, n', d') ->
  d' = d /\ forall id row, id ∈ ids -> k_table d !! id = Some row -> default [] (m !! id) = read_packages row.
Proof.
  unfold fetchPackages. intros H. select_in H oci E1. select_in H git E2. apply ret_run_ok in H as (-> & _ & ->).
  injection E1 as <-. injection E2 as <-. split; [done|]. intros id row Hid Hrow.
  rewrite (append_packages toServiceGitPackage), (append_packages toServiceOciPackage).
  rewrite (filter_bind _ (fun r => ar_oci (k_art r)) ids id row Hrow Hid).
  rewrite (filter_bind _ (fun r => ar_git (k_art r)) ids id row Hrow Hid).
  rewrite lookup_empty. cbn. unfold read_packages. by rewrite <-!list_fmap_compose.
Qed.

Lemma found_rows rows page : (forall j1 j2, j1 ∈ rows -> j2 ∈ rows -> j_vid j1 = j_vid j2 -> j1 = j2) ->
  Forall (fun h => h ∈ helper_of <$> rows) page ->
  helper_of <$> omap (fun h => find (fun j => (j_vid j =? h_ID h)%nat) rows) page = page /\
  Forall (fun j : JoinedRow (R := R) => j ∈ rows) (omap (fun h => find (fun j => (j_vid j =? h_ID h)%nat) rows) page).
Proof.
  intros Hinj. induction 1 as [|h page Hh Hp [IH1 IH2]]; [done|]. cbn. apply list_elem_of_fmap in Hh as (j & -> & Hj).
  destruct (find _ rows) as [j'|] eqn:Ef.
  - apply find_some in Ef as [Hj'%list_elem_of_In Hid%Nat.eqb_eq]. assert (j' = j) as -> by by apply Hinj.
    cbn. rewrite IH1. split; [done|]. by constructor.
  - apply list_elem_of_In in Hj. pose proof (find_none _ _ Ef _ Hj) as Hf. cbn in Hf. by rewrite Nat.eqb_refl in Hf.
Qed.

(** The rows of a listing in the order of the query. *)
Definition ordered_listing `{SQ : SqlConditions} (opts : ListArtifactOptions) (rid : uuid) (d : DB) : list helper :=
  merge_sort row_le (helper_of <$> listed_rows (la_where opts) rid d).

(** One page of artifacts, before a status filter: the rows [js] are those the
    batch loop stops at, and where no two rows of the listing have the same name
    and version they are the first of those past the cursor that the caller sees,
    one source kept for a name. *)
Record page_of `{SQ : SqlConditions} (fuel : nat) (s : dbService) (ctx : Ctx) (opts : ListArtifactOptions) (d : DB) (rg : RegistryRow)
    (js : list JoinedRow) (page : list X) (next : string) : Prop := {
  pp_gate : d_registry d !! la_RegistryName opts = Some rg /\
    validateClaimsVisibleBytes ctx (gate s (la_Claims opts)) (rg_claims rg) = Ok ();
  pp_rows : Forall (fun j => j ∈ registry_joined (rg_id rg) d /\ la_where opts j = true /\
                             visible (row_filter s ctx (la_Claims opts)) j = true) js;
  pp_page : page = (fun j => rowToArtifact j (read_packages (j_row j))) <$> js;
  pp_size : (List.length page <= Nat.min (la_Limit opts) MaxPageSize)%nat;
  pp_loop : exists start cursor, decode_start (la_Cursor opts) = Ok start /\
    next = match cursor with Some c => EncodeCursor (fst c) (snd c) | None => "" end /\
    let rows := ordered_listing opts (rg_id rg) d in
    let flt := claims_filter (sv_skipAuthz s) ctx (la_Claims opts) in
    let limit := Nat.min (la_Limit opts) MaxPageSize in
    page_from rows flt limit fuel start = Some (Ok (helper_of <$> js, cursor)) /\
    (NoDup (key <$> rows) ->
     let all := fst (dedup ∅ (List.filter (visible flt) (List.filter (after start) rows))) in
     helper_of <$> js = take limit all /\
     cursor = if (limit <? List.length all)%nat then key <$> all !! (limit - 1)%nat else None) }.

Lemma finish_page_take limit (l : list helper) :
  finish_page key limit l = (take limit l, if (limit <? List.length l)%nat then key <$> l !! (limit - 1)%nat else None).
Proof.
  unfold finish_page. destruct (Nat.ltb_spec limit (List.length l)); [done|]. by rewrite take_ge by lia.
Qed.

Lemma ListArtifacts_run `{SQ : SqlConditions} fuel s ctx opts o n d res n' d' :
  wf_core d ->
  (forall rg, d_registry d !! la_RegistryName opts = Some rg ->
     List.length (listed_rows (la_where opts) (rg_id rg) d) < fuel)%nat ->
  ListArtifacts fuel s ctx opts o n d = (Ok res, n', d') ->
  d' = d /\ exists page next rg js, res = Some (page, next) /\ page_of fuel s ctx opts d rg js page next.
Proof.
  intros Hwf Hf H. unfold ListArtifacts in H. destruct (String.eqb _ _); [done|]. bind_in H rid E.
  apply lookupGate_ok in E as (-> & rg & Hrg & <- & Hgate). lift_in H start Est. select_in H rows E. injection E as <-.
  set (rows := listed_rows (la_where opts) (rg_id rg) d) in *.
  destruct (page_from_sound (merge_sort row_le (helper_of <$> rows)) (claims_filter (sv_skipAuthz s) ctx (la_Claims opts))
    (Nat.min (la_Limit opts) MaxPageSize) fuel start) as ([hs next] & Hp & Hl & Hv); [apply claims_filter_total| |].
  { rewrite merge_sort_Permutation, length_fmap. by apply Hf. }
  unfold streamArtifactRows in H. rewrite Hp in H. bind_in H m E. apply fetchPackages_run in E as [-> Hm]. apply ret_run_ok in H as (-> & _ & ->).
  split; [done|]. cbn [fst] in *. destruct (found_rows rows hs) as [Hback Hin].
  { intros j1 j2 H1 H2. unfold rows, listed_rows in H1, H2. apply list_elem_of_In, filter_In in H1 as [H1%list_elem_of_In _].
    apply list_elem_of_In, filter_In in H2 as [H2%list_elem_of_In _]. by eapply registry_joined_vid. }
  { eapply Forall_impl; [exact Hv|]. intros h [Hh _]. by rewrite merge_sort_Permutation in Hh. }
  set (js := omap _ hs) in *. eexists _, _, rg, js. split; [done|].
  assert (Hjs : forall j, j ∈ js -> j ∈ registry_joined (rg_id rg) d /\ la_where opts j = true).
  { intros j Hj. rewrite Forall_forall in Hin. specialize (Hin j Hj). unfold rows, listed_rows in Hin.
    apply list_elem_of_In, filter_In in Hin as [Hin Hw]. by apply list_elem_of_In in Hin. }
  split; [done| | | |].
  - apply Forall_forall. intros j Hj. destruct (Hjs j Hj). split_and!; [done..|]. rewrite <-visible_helper.
    rewrite Forall_forall in Hv. apply Hv. rewrite <-Hback. by apply list_elem_of_fmap_2.
  - apply list_fmap_ext. intros i j Hij. apply list_elem_of_lookup_2 in Hij as Hj. f_equal. apply Hm.
    + rewrite <-Hback, <-list_fmap_compose. apply (list_elem_of_fmap_2 (h_ID ∘ helper_of)), Hj.
    + destruct (Hjs j Hj) as [(sid & position & _ & Hjr)%registry_joined_elem _].
      apply joined_rows_elem in Hjr as (ty & nm & e & v & r & row & _ & _ & Hrow & ->). done.
  - rewrite length_fmap, <-(length_fmap helper_of), Hback. done.
  - exists start, next. rewrite Hback. cbv zeta. split_and!; [done|done|exact Hp|]. intros Hnd.
    pose proof (page_from_exact (ordered_listing opts (rg_id rg) d) (claims_filter (sv_skipAuthz s) ctx (la_Claims opts))
      (Nat.min (la_Limit opts) MaxPageSize) fuel start (claims_filter_total _ _ _)
      (sorted_strict _ (StronglySorted_merge_sort _ _) Hnd)) as He.
    unfold ordered_listing in He at 1. rewrite merge_sort_Permutation, length_fmap in He. specialize (He (Hf rg Hrg)).
    unfold ordered_listing, rows in *. rewrite Hp, finish_page_take in He. by injection He as -> ->.
Qed.
End Correct.

(** ** The status filter *)

Definition status_tokens : list (string * string) := [("active", "ACTIVE"); ("deprecated", "DEPRECATED"); ("archived", "ARCHIVED")].
Definition named (statusFilter st : string) : Prop :=
  TrimSpace statusFilter <> "" /\
  exists tok, tok ∈ Split statusFilter ","%char /\ (TrimSpace (ToLower tok), st) ∈ status_tokens.

Lemma allow_token_elem allowed tok st : st ∈ allow_token allowed tok <->
  st ∈ allowed \/ (TrimSpace (ToLower tok), st) ∈ status_tokens.
Proof.
  unfold allow_token, status_tokens. generalize (TrimSpace (ToLower tok)). intros t. rewrite !elem_of_cons, elem_of_nil.
  destruct (String.eqb_spec t "active") as [->|]; [set_solver|].
  destruct (String.eqb_spec t "deprecated") as [->|]; [set_solver|].
  destruct (String.eqb_spec t "archived") as [->|]; set_solver.
Qed.

Lemma allow_tokens_elem toks allowed st : st ∈ foldl allow_token allowed toks <->
  st ∈ allowed \/ exists tok, tok ∈ toks /\ (TrimSpace (ToLower tok), st) ∈ status_tokens.
Proof.
  revert allowed. induction toks as [|t toks IH]; intros allowed; cbn [foldl].
  - split; [by left|]. intros [?|(tok & Hin & _)]; [done|by apply elem_of_nil in Hin].
  - rewrite IH, allow_token_elem. split.
    + intros [[?|Ht]|(tok & ? & ?)]; [by left|right; exists t; by rewrite elem_of_cons; split; [left|]|].
      right. exists tok. rewrite elem_of_cons. by split; [right|].
    + intros [?|(tok & [->|?]%elem_of_cons & ?)]; [by left; left|by left; right|right; eauto].
Qed.

(** The statuses a filter lets through: the ones its comma-separated list names,
    in any case and with spaces around them, and ACTIVE if it names none. *)
Lemma parseStatusFilter_elem statusFilter st :
  st ∈ parseStatusFilter statusFilter <->
  named statusFilter st \/ (st = "ACTIVE" /\ forall st', ~ named statusFilter st').
Proof.
  unfold parseStatusFilter, named. destruct (String.eqb_spec (TrimSpace statusFilter) "") as [E|Hne].
  - rewrite elem_of_singleton. split; [intros ->; right; split; [done|]; by intros st' [? _]|].
    by intros [[? _]|[? _]].
  - pose proof (allow_tokens_elem (Split statusFilter ","%char) ∅) as Ha. set (allowed := foldl _ _ _) in *. cbv zeta.
    case_bool_decide as Hd.
    + rewrite elem_of_singleton. split.
      * intros ->. right. split; [done|]. intros st' [_ (tok & Ht)]. assert (st' ∈ allowed) by (apply Ha; eauto). set_solver.
      * intros [[_ (tok & Ht)]|[-> _]]; [|done]. assert (st ∈ allowed) by (apply Ha; eauto). set_solver.
    + rewrite Ha. split.
      * intros [Hx|Hx]; [set_solver|by left].
      * intros [[_ Hx]|[-> Hx]]; [by right|]. apply set_choose_L in Hd as [y Hy]. apply Ha in Hy as [Hy|Hy]; [set_solver|].
        exfalso. by apply (Hx y).
Qed.

Section ListingSkills.
Context `{SQ : SqlConditions} `{Co : Collation} `{C : JsonCodec} `{AC : ArtifactCodec} `{L : SemverLib}.

(** C33. Listing skills answers with more fuel than the registry has rows and
    writes nothing; the caller passed the registry's claim gate.  The page is the
    one the batch loop makes of the registry's rows that meet the request, in the
    order of the query and from the decoded cursor on: at most the limit (and at
    most 1000) rows that the caller's claims admit, each with its own packages.
    Where no two of these rows have the same name and version it is exactly the
    first so many of all that are past the cursor and admitted, one source kept for
    a name, and the next cursor is the key of its last row if there are more and
    empty otherwise.  What comes back is the filter of the page, in its order and
    with nothing dropped or repeated, by the status: those whose status the request
    names, or the active ones if it names none. *)
Theorem ListSkills_correct fuel s ctx opts o n d res n' d' :
  wf_core d ->
  (forall rg, d_registry d !! la_RegistryName opts = Some rg ->
     List.length (listed_rows (K := SkillKind) (la_where opts) (rg_id rg) d) < fuel)%nat ->
  ListSkills fuel s ctx opts o n d = (Ok res, n', d') ->
  d' = d /\ exists page next rg js p, page_of (K := SkillKind) fuel s ctx opts d rg js page next /\
    res = Some (List.filter p page, next) /\
    forall sk, p sk = true <-> named (la_Status opts) (a_Status (s_common sk)) \/
      (a_Status (s_common sk) = "ACTIVE" /\ forall st, ~ named (la_Status opts) st).
Proof.
  intros Hwf Hf H. unfold ListSkills in H. bind_in H r E. apply ListArtifacts_run in E as (-> & page & next & rg & js & -> & Hp); [|done..].
  apply ret_run_ok in H as (-> & _ & ->). split; [done|]. cbn. eexists page, next, rg, js, _. split; [done|]. split; [reflexivity|].
  intros sk. cbv beta. by rewrite bool_decide_eq_true, parseStatusFilter_elem.
Qed.
End ListingSkills.

(** ** A concrete catalog *)
Module ArtifactsExample.
Import EntriesExample.
#[local] Existing Instance ClaimsJson.codec.
#[local] Existing Instance ClaimsJson.laws.
#[local] Existing Instance MiniSemver.lib.
#[local] Existing Instance MiniSemver.laws.

(** A codec for Git repositories, no icons and empty maps. *)
#[export] Instance mini_artifacts : ArtifactCodec :=
  {| marshal_repository := fun r => match r with
       | None => Some "null"
       | Some r => if String.eqb (ap_Type r) "" && String.eqb (ap_URL r) "" then Some "null"
                   else if String.eqb (ap_Type r) "git" && negb (String.eqb (ap_URL r) "") && negb (String.eqb (ap_URL r) "null")
                   then Some (ap_URL r) else None
       end;
     marshal_icons := fun l => match l with [] => Some "[]" | _ => None end;
     marshal_map := fun m => match m with None => Some "null" | Some m => if bool_decide (m = ∅) then Some "{}" else None end;
     parse_repository := fun s => if String.eqb s "null" then Some {| ap_URL := ""; ap_Type := "" |}
                                  else Some {| ap_URL := s; ap_Type := "git" |};
     parse_icons := fun s => if String.eqb s "[]" then Some [] else None;
     parse_map := fun s => if String.eqb s "null" then Some None else if String.eqb s "{}" then Some (Some ∅) else None |}.

#[export] Instance mini_artifacts_laws : ArtifactCodecLaws.
Proof.
  split; cbn.
  - intros t [url ty] s _. cbn.
    match goal with |- (if ?b then _ else if ?c then _ else _) = _ -> _ => destruct b eqn:E1; [|destruct c eqn:E2; [|done]] end;
      intros E; injection E as <-.
    + apply andb_true_iff in E1 as [->%String.eqb_eq ->%String.eqb_eq]. done.
    + apply andb_true_iff in E2 as [[->%String.eqb_eq E2]%andb_true_iff ->%negb_true_iff]. apply negb_true_iff in E2.
      split; [by apply String.eqb_neq|done].
  - done.
  - by intros t [] s _ [= <-].
  - intros t [m|] s _; [|by intros [= <-]]. case_bool_decide as Hm; [|done]. subst m. by intros [= <-].
Qed.

Definition base_artifact (version : string) : Artifact :=
  {| a_ID := 0; a_Namespace := "io.acme"; a_Name := "notes"; a_Description := "d"; a_Version := version; a_Status := "";
     a_Title := "Notes"; a_License := "MIT"; a_Repository := None; a_Icons := [];
     a_Packages :=
       [ {| pg_RegistryType := "git"; pg_Identifier := ""; pg_Digest := ""; pg_MediaType := ""; pg_URL := "https://git.acme/n";
            pg_Ref := "main"; pg_Commit := ""; pg_Subfolder := "" |};
         {| pg_RegistryType := "oci"; pg_Identifier := "acme/notes"; pg_Digest := "sha256:0"; pg_MediaType := ""; pg_URL := "";
            pg_Ref := ""; pg_Commit := ""; pg_Subfolder := "" |};
         {| pg_RegistryType := "npm"; pg_Identifier := "notes"; pg_Digest := ""; pg_MediaType := ""; pg_URL := "";
            pg_Ref := ""; pg_Commit := ""; pg_Subfolder := "" |} ];
     a_Metadata := None; a_Meta := None; a_IsLatest := false; a_CreatedAt := 0 |}.
Definition skill : SkillValue := {| s_common := base_artifact "1.0.0"; s_Compatibility := ""; s_AllowedTools := ["read"] |}.
Definition plugin : Artifact := base_artifact "2.0.0".
Definition aopts : PublishArtifactOptions := {| ao_Claims := Some {[ "org" := VString "acme" ]}; ao_JWTClaims := Some caller |}.

(** The managed source of [EntriesExample], served by one registry. *)
Definition c0 : DB :=
  set_next (set_registry_source (set_registry d0
    {[ "main" := {| rg_id := 2; rg_creation_type := CreationTypeAPI; rg_claims := default "" (json_Marshal {[ "org" := VString "acme" ]}) |} ]})
    {[ (2%nat, 1%nat) := 0%Z ]}) 3.

Definition run_skill := PublishSkill svc ctx skill aopts 7 no_fault 0 c0.
Definition c1 : DB := snd run_skill.
Definition published_skill : SkillValue :=
  match fst (fst run_skill) with Ok x => x | Err _ => skill end.
Lemma run_skill_ok : PublishSkill svc ctx skill aopts 7 no_fault 0 c0 = (Ok published_skill, snd (fst run_skill), c1).
Proof. vm_compute. reflexivity. Qed.

Lemma c0_wf : wf_core c0.
Proof. split; simpl; intros; by try rewrite lookup_empty in *; try lia. Qed.
Lemma c0_kind {X R} (K : ArtifactKind X R) : kind_wf (K := K) c0.
Proof. intros sid ty name e v r He. simpl in He. by rewrite lookup_empty in He. Qed.

Lemma PublishArtifact_correct_witness : wf_core c1 /\ kind_wf (K := SkillKind) c1.
Proof.
  destruct (PublishArtifact_correct (K := SkillKind) svc ctx skill aopts 7 no_fault 0 c0 (Ok published_skill) (snd (fst run_skill)) c1
    c0_wf (c0_kind _) run_skill_ok) as (Hwf & Hk & _). by split.
Defined.

Lemma publish_read_back_witness : exists vid, s_common published_skill = stored_as (base_artifact "1.0.0") vid true 7.
Proof.
  destruct (publish_read_back (K := SkillKind) svc ctx skill aopts 7 no_fault 0 c0 published_skill (snd (fst run_skill)) c1
    c0_wf (c0_kind _)) as (vid & latest & Hy & Hl).
  - split; [done|]. split; [by exists "[]"|]. by split; exists "null".
  - exact run_skill_ok.
  - assert (latest = true) as -> by (eapply eq_trans; [eapply Hl; vm_compute; reflexivity|vm_compute; reflexivity]).
    by exists vid.
Defined.

Lemma c1_wf : wf_core c1 /\ kind_wf (K := SkillKind) c1.
Proof.
  destruct (PublishArtifact_run (K := SkillKind) svc ctx skill aopts 7 no_fault 0 c0 (Ok published_skill) (snd (fst run_skill)) c1
    c0_wf (c0_kind _) run_skill_ok) as (nm & src & cj & e & r & row & _ & _ & _ & _ & Hp & _).
  split; [exact (pb_wf _ _ _ _ _ _ _ _ _ Hp)|exact (kind_wf_published _ _ _ _ _ _ _ _ _ c0_wf (c0_kind _) Hp)].
Qed.

Definition del_opts : DeleteArtifactOptions := {| dao_Name := "notes"; dao_Version := "1.0.0"; dao_JWTClaims := Some caller |}.
Lemma DeleteArtifactVersion_correct_witness : wf_core (snd (DeleteSkillVersion svc ctx del_opts no_fault 0 c1)).
Proof.
  refine (proj1 (DeleteArtifactVersion_correct (K := SkillKind) svc ctx del_opts no_fault 0 c1 (Ok tt)
    (snd (fst (DeleteSkillVersion svc ctx del_opts no_fault 0 c1))) _ (proj1 c1_wf) (proj2 c1_wf) _)).
  vm_compute. reflexivity.
Defined.

Definition get_opts (version : string) : GetArtifactOptions :=
  {| go_RegistryName := "main"; go_Namespace := "io.acme"; go_Name := "notes"; go_Version := version; go_SourceName := "";
     go_Claims := Some caller |}.
Lemma GetArtifactVersion_correct_witness : snd (GetSkillVersion svc ctx (get_opts "latest") no_fault 0 c1) = c1.
Proof.
  refine (proj1 (GetArtifactVersion_correct (K := SkillKind) svc ctx (get_opts "latest") no_fault 0 c1
    (fst (fst (GetSkillVersion svc ctx (get_opts "latest") no_fault 0 c1)))
    (snd (fst (GetSkillVersion svc ctx (get_opts "latest") no_fault 0 c1))) _ _)).
  vm_compute. reflexivity.
Defined.

(** Every search matches. *)
#[export] Instance match_all : SqlConditions := {| text_matches := fun _ _ => true; updated_after := fun _ _ => true |}.
Definition list_opts : ListArtifactOptions :=
  {| la_RegistryName := "main"; la_Namespace := ""; la_Name := None; la_Search := None; la_Limit := 10; la_Cursor := None;
     la_Status := "Active"; la_Claims := Some caller |}.
Definition run_list := ListSkills 5 svc ctx list_opts no_fault 0 c1.
Lemma ListSkills_correct_witness : snd run_list = c1 /\ option_map (fun p => List.length (fst p)) (match fst (fst run_list) with Ok r => r | Err _ => None end) = Some 1%nat.
Proof.
  split; [|vm_compute; reflexivity].
  refine (proj1 (ListSkills_correct 5 svc ctx list_opts no_fault 0 c1
    (match fst (fst run_list) with Ok r => r | Err _ => None end) (snd (fst run_list)) _ (proj1 c1_wf) _ _)).
  - intros rg. vm_compute. intros [= <-]. vm_compute. lia.
  - vm_compute. reflexivity.
Defined.

(** The pointer is kept per source and name, whatever the kind: publishing the
    plugin [notes] at 2.0.0 takes it from the skill [notes] at 1.0.0, which then
    has no latest version, while asking for 1.0.0 still finds it. *)
Definition c2 : DB := snd (PublishPlugin svc ctx plugin aopts 8 no_fault 0 c1).
Definition is_error {A} (e : sentinel) (r : result A) : bool := match r with Ok _ => false | Err err => errorIs err e end.
Theorem latest_shared_by_kinds :
  is_ok (fst (fst (GetSkillVersion svc ctx (get_opts "latest") no_fault 0 c1))) = true /\
  is_error ErrNotFound (fst (fst (GetSkillVersion svc ctx (get_opts "latest") no_fault 0 c2))) = true /\
  is_ok (fst (fst (GetSkillVersion svc ctx (get_opts "1.0.0") no_fault 0 c2))) = true.
Proof. by vm_compute. Qed.

(** A package of a type other than "oci" and "git" is accepted and not stored. *)
Theorem unknown_package_dropped :
  (pg_RegistryType <$> a_Packages (s_common skill)) = ["git"; "oci"; "npm"] /\
  (pg_RegistryType <$> a_Packages (s_common published_skill)) = ["oci"; "git"].
Proof. by vm_compute. Qed.

(** The status is checked after the page is cut: a page of one that holds a
    deprecated skill comes back empty, with a cursor to go on. *)
Definition deprecated : SkillValue :=
  {| s_common := {| a_ID := 0; a_Namespace := "io.acme"; a_Name := "abc"; a_Description := ""; a_Version := "1.0.0";
       a_Status := "deprecated"; a_Title := ""; a_License := ""; a_Repository := None; a_Icons := []; a_Packages := [];
       a_Metadata := None; a_Meta := None; a_IsLatest := false; a_CreatedAt := 0 |};
     s_Compatibility := ""; s_AllowedTools := [] |}.
Definition c3 : DB := snd (PublishSkill svc ctx deprecated aopts 9 no_fault 0 c1).
Definition one_opts : ListArtifactOptions :=
  {| la_RegistryName := "main"; la_Namespace := ""; la_Name := None; la_Search := None; la_Limit := 1; la_Cursor := None;
     la_Status := "active"; la_Claims := Some caller |}.
Theorem status_filter_after_paging :
  match fst (fst (ListSkills 5 svc ctx one_opts no_fault 0 c3)) with
  | Ok (Some (page, next)) => page = [] /\ next <> ""
  | _ => False
  end.
Proof. by vm_compute. Qed.
End ArtifactsExample.
