(* ===== verification/Telemetry.v ===== *)
(** * Telemetry

    [internal/telemetry]: the configuration and its validation, the providers
    [New] makes of it, the metrics and tracing middlewares, and the cache in
    front of the query of [internal/app/storage/registry_metrics.go] behind the
    gauges.

    The OpenTelemetry SDK is a parameter: what it makes of a configuration, and
    whether shutting it down fails.  The instruments are modelled by what they
    accumulate per set of labels.  A [float64] is a not-a-number, an infinity or
    a mantissa times a power of two; histograms of durations count their
    observations. *)

From stdpp Require Import base list strings gmap sets sorting relations.
From Stdlib Require Import String Ascii ZArith Lia.
From S2P Require Import Prelude GoStrings Durations Database Artifacts.

Local Open Scope string_scope.
Local Open Scope list_scope.

(** ** Configuration ([config.go]) *)

Inductive float64 := NaN | Inf (negative : bool) | Fin (mantissa exponent : Z).
(** [x <= 0] and [x > 1.0] *)
Definition le_zero (x : float64) : bool :=
  match x with NaN => false | Inf neg => neg | Fin m _ => (m <=? 0)%Z end.
Definition gt_one (x : float64) : bool :=
  match x with
  | NaN => false
  | Inf neg => negb neg
  | Fin m e => if (0 <=? e)%Z then (1 <? m * 2 ^ e)%Z else (2 ^ (- e) <? m)%Z
  end.

Definition DefaultServiceName : string := "thv-registry-api".
Definition DefaultEndpoint : string := "localhost:4318".
Definition DefaultSampling : float64 := Fin 7205759403792794 (-57).
Definition DefaultServiceVersion : string := "unknown".

Record TracingConfig := { tc_Enabled : bool; tc_Sampling : option float64 }.
Record MetricsConfig := { mc_Enabled : bool }.
Record TelemetryConfig := {
  tl_Enabled : bool;
  tl_ServiceName : string;
  tl_ServiceVersion : string;
  tl_Endpoint : string;
  tl_Insecure : bool;
  tl_Tracing : option TracingConfig;
  tl_Metrics : option MetricsConfig }.

Definition GetServiceName (c : TelemetryConfig) : string :=
  if String.eqb (tl_ServiceName c) "" then DefaultServiceName else tl_ServiceName c.
Definition GetServiceVersion (c : TelemetryConfig) : string :=
  if String.eqb (tl_ServiceVersion c) "" then DefaultServiceVersion else tl_ServiceVersion c.
Definition GetEndpoint (c : TelemetryConfig) : string :=
  if String.eqb (tl_Endpoint c) "" then DefaultEndpoint else tl_Endpoint c.
Definition GetInsecure (c : TelemetryConfig) : bool := tl_Insecure c.
Definition GetSampling (c : TracingConfig) : float64 := default DefaultSampling (tc_Sampling c).

Definition Tracing_Validate (c : option TracingConfig) : result () :=
  match c with
  | None => Ok ()
  | Some c =>
      if negb (tc_Enabled c) then Ok ()
      else match tc_Sampling c with
           | None => Ok ()
           | Some sampling =>
               if le_zero sampling || gt_one sampling
               then Err (EMsg "sampling must be greater than 0.0 and at most 1.0, got %f (use enabled: false to disable tracing)")
               else Ok ()
           end
  end.
Definition Metrics_Validate (c : option MetricsConfig) : result () :=
  match c with None => Ok () | Some c => if negb (mc_Enabled c) then Ok () else Ok () end.

(** [errors.Join]: an error when one of them is, the message aside. *)
Definition Join (errs : list (option error)) : result () :=
  match omap id errs with [] => Ok () | e :: _ => Err e end.

Definition Telemetry_Validate (c : option TelemetryConfig) : result () :=
  match c with
  | None => Ok ()
  | Some c =>
      if negb (tl_Enabled c) then Ok ()
      else
        Join [match Tracing_Validate (tl_Tracing c) with Err err => Some (wrapf "tracing: %w" err) | Ok _ => None end;
              match Metrics_Validate (tl_Metrics c) with Err err => Some (wrapf "metrics: %w" err) | Ok _ => None end]
  end.

(** A positive number that is at most one. *)
Definition is_ratio (x : float64) : Prop :=
  match x with Fin m e => (0 < m)%Z /\ (if (0 <=? e)%Z then m * 2 ^ e <= 1 else m <= 2 ^ (- e))%Z | _ => False end.

(** Validation accepts the ratios, and what is not a number. *)
Lemma Telemetry_Validate_iff c : Telemetry_Validate (Some c) = Ok () <->
  (tl_Enabled c = true -> forall t s, tl_Tracing c = Some t -> tc_Enabled t = true -> tc_Sampling t = Some s -> s = NaN \/ is_ratio s).
Proof.
  assert (Hs : forall s, le_zero s || gt_one s = false <-> s = NaN \/ is_ratio s).
  { intros [|[]|m e]; cbn; try naive_solver. rewrite orb_false_iff, Z.leb_gt. case_match; rewrite Z.ltb_ge; naive_solver. }
  unfold Telemetry_Validate. destruct (tl_Enabled c); [|by split].
  assert (Hm : Metrics_Validate (tl_Metrics c) = Ok ()) by (unfold Metrics_Validate; by repeat case_match). rewrite Hm. cbn [negb].
  unfold Tracing_Validate. destruct (tl_Tracing c) as [[en [s|]]|]; cbn; try (by split; [intros; simplify_eq|]); destruct en; cbn; try (by split; [intros; simplify_eq|]).
  destruct (le_zero s || gt_one s) eqn:E; cbn; split; try done.
  - intros H. specialize (H eq_refl _ _ eq_refl eq_refl eq_refl). apply Hs in H. congruence.
  - intros _ _ t' s' [= <-] _ [= <-]. by apply Hs.
Qed.

(** ** Providers ([telemetry.go], [tracer.go], [meter.go]) *)

(** What the SDK does: the resource of a service, the exporters of an endpoint,
    the Prometheus reader, and the two shutdowns. *)
Class Sdk := {
  resource_New : string -> string -> result ();
  otlptracehttp_New : string -> bool -> result ();
  otlpmetrichttp_New : string -> bool -> result ();
  newPrometheusReader : result ();
  tracer_Shutdown : result ();
  meter_Shutdown : result () }.

(** What runs in the background until it is shut down. *)
Inductive Handle := TraceExporter | MetricExporter.
#[export] Instance Handle_eq_dec : EqDecision Handle.
Proof. solve_decision. Defined.
Inductive LifeEvent := Opened (h : Handle) | Closed (h : Handle).
#[export] Instance LifeEvent_eq_dec : EqDecision LifeEvent.
Proof. solve_decision. Defined.

Record providerSettings (B : Type) := {
  pv_serviceName : string; pv_serviceVersion : string; pv_block : option B; pv_endpoint : string; pv_insecure : bool }.
Arguments pv_serviceName {B}. Arguments pv_serviceVersion {B}. Arguments pv_block {B}. Arguments pv_endpoint {B}. Arguments pv_insecure {B}.
Definition tracerProviderConfig : Type := providerSettings TracingConfig.
Definition meterProviderConfig : Type := providerSettings MetricsConfig.

Inductive TracerProvider := NoopTracer | SdkTracer (cfg : tracerProviderConfig) (sampling : float64).
Inductive MeterProvider := NoopMeter | SdkMeter (cfg : meterProviderConfig).

(** The options, which replace single fields. *)
Definition ProviderOption (B : Type) : Type := providerSettings B -> providerSettings B.
Definition WithServiceName {B} (v : string) : ProviderOption B := fun c =>
  {| pv_serviceName := v; pv_serviceVersion := pv_serviceVersion c; pv_block := pv_block c; pv_endpoint := pv_endpoint c; pv_insecure := pv_insecure c |}.
Definition WithServiceVersion {B} (v : string) : ProviderOption B := fun c =>
  {| pv_serviceName := pv_serviceName c; pv_serviceVersion := v; pv_block := pv_block c; pv_endpoint := pv_endpoint c; pv_insecure := pv_insecure c |}.
Definition WithBlock {B} (v : option B) : ProviderOption B := fun c =>
  {| pv_serviceName := pv_serviceName c; pv_serviceVersion := pv_serviceVersion c; pv_block := v; pv_endpoint := pv_endpoint c; pv_insecure := pv_insecure c |}.
Definition WithEndpoint {B} (v : string) : ProviderOption B := fun c =>
  {| pv_serviceName := pv_serviceName c; pv_serviceVersion := pv_serviceVersion c; pv_block := pv_block c; pv_endpoint := v; pv_insecure := pv_insecure c |}.
Definition WithInsecure {B} (v : bool) : ProviderOption B := fun c =>
  {| pv_serviceName := pv_serviceName c; pv_serviceVersion := pv_serviceVersion c; pv_block := pv_block c; pv_endpoint := pv_endpoint c; pv_insecure := v |}.
Definition provider_config {B} (opts : list (ProviderOption B)) : providerSettings B :=
  foldl (fun c opt => opt c)
    {| pv_serviceName := DefaultServiceName; pv_serviceVersion := DefaultServiceVersion; pv_block := None; pv_endpoint := DefaultEndpoint; pv_insecure := false |} opts.

Section Providers.
Context `{S : Sdk}.

Definition NewTracerProvider (opts : list (ProviderOption TracingConfig)) : result TracerProvider * list LifeEvent :=
  let cfg := provider_config opts in
  match pv_block cfg with
  | None => (Ok NoopTracer, [])
  | Some tracing =>
      if negb (tc_Enabled tracing) then (Ok NoopTracer, [])
      else match resource_New (pv_serviceName cfg) (pv_serviceVersion cfg) with
           | Err err => (Err (wrapf "failed to create resource: %w" err), [])
           | Ok _ =>
               match otlptracehttp_New (pv_endpoint cfg) (pv_insecure cfg) with
               | Err err => (Err (wrapf "failed to create OTLP tracing exporter: %w" (wrapf "failed to create OTLP trace exporter: %w" err)), [])
               | Ok _ => (Ok (SdkTracer cfg (GetSampling tracing)), [Opened TraceExporter])
               end
           end
  end.

(** The provider, and whether it has a handler. *)
Definition NewMeterProvider (opts : list (ProviderOption MetricsConfig)) : result (MeterProvider * bool) * list LifeEvent :=
  let cfg := provider_config opts in
  match pv_block cfg with
  | None => (Ok (NoopMeter, false), [])
  | Some metrics =>
      if negb (mc_Enabled metrics) then (Ok (NoopMeter, false), [])
      else match resource_New (pv_serviceName cfg) (pv_serviceVersion cfg) with
           | Err err => (Err (wrapf "failed to create resource: %w" err), [])
           | Ok _ =>
               match otlpmetrichttp_New (pv_endpoint cfg) (pv_insecure cfg) with
               | Err err => (Err (wrapf "failed to create OTLP metrics exporter: %w" (wrapf "failed to create OTLP metric exporter: %w" err)), [])
               | Ok _ =>
                   match newPrometheusReader with
                   | Err err => (Err (wrapf "failed to create Prometheus metrics reader: %w" err), [Opened MetricExporter; Closed MetricExporter])
                   | Ok _ => (Ok (SdkMeter cfg, true), [Opened MetricExporter])
                   end
               end
           end
  end.

Record Telemetry := { te_tracerProvider : TracerProvider; te_meterProvider : MeterProvider; te_metricsHandler : bool }.

Definition newNoOpTelemetry : result Telemetry * list LifeEvent :=
  match NewTracerProvider [] with
  | (Err err, ev) => (Err (wrapf "failed to create no-op tracer provider: %w" err), ev)
  | (Ok tracerProvider, ev) =>
      match NewMeterProvider [] with
      | (Err err, ev') => (Err (wrapf "failed to create no-op meter provider: %w" err), ev ++ ev')
      | (Ok (meterProvider, _), ev') =>
          (Ok {| te_tracerProvider := tracerProvider; te_meterProvider := meterProvider; te_metricsHandler := false |}, ev ++ ev')
      end
  end.

Definition provider_opts {B} (c : TelemetryConfig) (block : option B) : list (ProviderOption B) :=
  [WithServiceName (GetServiceName c); WithServiceVersion (GetServiceVersion c); WithBlock block; WithEndpoint (GetEndpoint c); WithInsecure (GetInsecure c)].

Definition telemetry_New (config : option TelemetryConfig) : result Telemetry * list LifeEvent :=
  match config with
  | None => newNoOpTelemetry
  | Some c =>
      if negb (tl_Enabled c) then newNoOpTelemetry
      else match Telemetry_Validate (Some c) with
           | Err err => (Err (wrapf "invalid telemetry configuration: %w" err), [])
           | Ok _ =>
               match NewTracerProvider (provider_opts c (tl_Tracing c)) with
               | (Err err, ev) => (Err (wrapf "failed to create tracer provider: %w" err), ev)
               | (Ok tracerProvider, ev) =>
                   match NewMeterProvider (provider_opts c (tl_Metrics c)) with
                   | (Err err, ev') =>
                       (Err (wrapf "failed to create meter provider: %w" err),
                        ev ++ ev' ++ match tracerProvider with SdkTracer _ _ => [Closed TraceExporter] | NoopTracer => [] end)
                   | (Ok (meterProvider, metricsHandler), ev') =>
                       (Ok {| te_tracerProvider := tracerProvider; te_meterProvider := meterProvider; te_metricsHandler := metricsHandler |}, ev ++ ev')
                   end
               end
           end
  end.

Definition Shutdown (t : Telemetry) : result () * list LifeEvent :=
  let '(e1, ev1) := match te_tracerProvider t with
    | NoopTracer => (None, [])
    | SdkTracer _ _ => (match tracer_Shutdown with Err err => Some (wrapf "failed to shutdown tracer provider: %w" err) | Ok _ => None end, [Closed TraceExporter])
    end in
  let '(e2, ev2) := match te_meterProvider t with
    | NoopMeter => (None, [])
    | SdkMeter _ => (match meter_Shutdown with Err err => Some (wrapf "failed to shutdown meter provider: %w" err) | Ok _ => None end, [Closed MetricExporter])
    end in
  (Join [e1; e2], ev1 ++ ev2).

(** Nothing is left running: when [New] fails it has closed what it opened, and
    otherwise [Shutdown] does, once each. *)
Definition balanced (ev : list LifeEvent) : Prop :=
  forall h, List.length (List.filter (fun e => bool_decide (e = Opened h)) ev) = List.length (List.filter (fun e => bool_decide (e = Closed h)) ev).

Lemma telemetry_lifecycle config :
  match telemetry_New config with
  | (Err _, ev) => balanced ev
  | (Ok t, ev) => balanced (ev ++ snd (Shutdown t))
  end.
Proof.
  unfold telemetry_New, newNoOpTelemetry, Shutdown, NewTracerProvider, NewMeterProvider.
  repeat (case_match; simplify_eq/=; try discriminate); intros []; reflexivity.
Qed.

(** Telemetry that is off, or has neither block, exports nothing. *)
Lemma disabled_exports_nothing config :
  match config with None => True | Some c => tl_Enabled c = false end ->
  telemetry_New config = (Ok {| te_tracerProvider := NoopTracer; te_meterProvider := NoopMeter; te_metricsHandler := false |}, []).
Proof. destruct config as [c|]; cbn; [intros ->|]; done. Qed.
End Providers.

(** ** Counts of entries ([metrics.go], [app/storage/registry_metrics.go]) *)

Record RegistryMetricCount := { rc_SourceName : string; rc_ServerCount : Z; rc_SkillCount : Z; rc_PluginCount : Z }.
#[export] Instance RegistryMetricCount_eq_dec : EqDecision RegistryMetricCount.
Proof. solve_decision. Defined.

(** [registryMetricCountsQuery]: the entries of each source, by type; the sources
    in the order of their names. *)
Definition entries_of (d : DB) (sid : uuid) (ty : EntryType) : Z :=
  Z.of_nat (List.length (List.filter (fun ke => bool_decide (fst (fst (fst ke)) = sid /\ snd (fst (fst ke)) = ty)) (map_to_list (d_entry d)))).
Definition source_count (d : DB) (src : string * SourceRow) : RegistryMetricCount :=
  {| rc_SourceName := fst src; rc_ServerCount := entries_of d (so_id (snd src)) EntryTypeMCP;
     rc_SkillCount := entries_of d (so_id (snd src)) EntryTypeSKILL; rc_PluginCount := entries_of d (so_id (snd src)) EntryTypePLUGIN |}.
Definition source_name_le `{Collation} (a b : string * SourceRow) : Prop := coll_le (fst a) (fst b).
#[export] Instance source_name_le_dec `{Collation} a b : Decision (source_name_le a b).
Proof. unfold source_name_le. apply _. Defined.
Definition storage_RegistryMetricCounts `{Collation} : Q (list RegistryMetricCount) :=
  wrapping "query registry metric counts: %w" (select (fun d => Ok (source_count d <$> merge_sort source_name_le (map_to_list (d_source d))))).
Definition registryMetricCountsQueryTimeout : Z := 20 * Second.

(** *** The cache *)

Definition RegistryMetricCountsCacheTTL : Z := 30 * Second.
Definition RegistryMetricCountsErrorCacheTTL : Z := 5 * Second.

(** [expiresAt] is [None] for the zero time. *)
Record cachingRegistryMetricReader := {
  ca_expiresAt : option Z;
  ca_counts : list RegistryMetricCount;
  ca_haveCount : bool;
  ca_err : option error;
  ca_degraded : bool }.
Definition newCachingRegistryMetricReader : cachingRegistryMetricReader :=
  {| ca_expiresAt := None; ca_counts := []; ca_haveCount := false; ca_err := None; ca_degraded := false |}.

(** A call: when it got the lock, and, if it reads, what it reads and when the
    read is over. *)
Record Collect := { cl_started : Z; cl_read : result (list RegistryMetricCount); cl_ended : Z }.
Inductive Transition := RefreshFailed (serving_stale_counts : bool) | RefreshRecovered.

Definition noteDegraded (c : cachingRegistryMetricReader) : list Transition :=
  if ca_degraded c then [] else [RefreshFailed (ca_haveCount c)].
Definition noteRecovered (c : cachingRegistryMetricReader) : list Transition :=
  if negb (ca_degraded c) then [] else [RefreshRecovered].

Definition fresh (c : cachingRegistryMetricReader) (started : Z) : bool :=
  match ca_expiresAt c with Some t => (started <? t)%Z | None => false end.

(** The answer, the cache afterwards, and the log lines. *)
Definition cached_RegistryMetricCounts (c : cachingRegistryMetricReader) (call : Collect)
    : result (list RegistryMetricCount) * cachingRegistryMetricReader * list Transition :=
  if fresh c (cl_started call) then (match ca_err c with None => Ok (ca_counts c) | Some err => Err err end, c, [])
  else
    match cl_read call with
    | Err err =>
        let expiresAt := Some (cl_ended call + RegistryMetricCountsErrorCacheTTL)%Z in
        let log := noteDegraded c in
        if ca_haveCount c
        then (Ok (ca_counts c), {| ca_expiresAt := expiresAt; ca_counts := ca_counts c; ca_haveCount := true; ca_err := None; ca_degraded := true |}, log)
        else (Err err, {| ca_expiresAt := expiresAt; ca_counts := ca_counts c; ca_haveCount := false; ca_err := Some err; ca_degraded := true |}, log)
    | Ok counts =>
        (Ok counts, {| ca_expiresAt := Some (cl_started call + RegistryMetricCountsCacheTTL)%Z; ca_counts := counts; ca_haveCount := true; ca_err := None;
                       ca_degraded := false |}, noteRecovered c)
    end.

(** Calls one after the other, as the mutex makes them; [queries] are those that
    read, the latest first. *)
Definition cache_after (calls : list Collect) : cachingRegistryMetricReader :=
  foldl (fun c call => snd (fst (cached_RegistryMetricCounts c call))) newCachingRegistryMetricReader calls.
Definition answer (calls : list Collect) (call : Collect) : result (list RegistryMetricCount) :=
  fst (fst (cached_RegistryMetricCounts (cache_after calls) call)).
Definition queried (calls : list Collect) (call : Collect) : bool := negb (fresh (cache_after calls) (cl_started call)).
Fixpoint queries_from (c : cachingRegistryMetricReader) (qs calls : list Collect) : list Collect :=
  match calls with
  | [] => qs
  | call :: calls => queries_from (snd (fst (cached_RegistryMetricCounts c call))) (if fresh c (cl_started call) then qs else call :: qs) calls
  end.
Definition queries (calls : list Collect) : list Collect := queries_from newCachingRegistryMetricReader [] calls.

(** *** What the cache promises, from the reads alone *)

(** Until when a read counts. *)
Definition deadline (q : Collect) : Z :=
  match cl_read q with Ok _ => (cl_started q + RegistryMetricCountsCacheTTL)%Z | Err _ => (cl_ended q + RegistryMetricCountsErrorCacheTTL)%Z end.
Definition last_good (qs : list Collect) : option (list RegistryMetricCount) :=
  head (omap (fun q => match cl_read q with Ok counts => Some counts | Err _ => None end) qs).
(** The counts of the last read that worked, or the error of the last read. *)
Definition promised (qs : list Collect) : option (result (list RegistryMetricCount)) :=
  match last_good qs with Some counts => Some (Ok counts) | None => cl_read <$> head qs end.

Record cache_of (qs : list Collect) (c : cachingRegistryMetricReader) : Prop := {
  co_expires : ca_expiresAt c = deadline <$> head qs;
  co_good : last_good qs = if ca_haveCount c then Some (ca_counts c) else None;
  co_err : ca_err c = if ca_haveCount c then None else match head qs with Some q => match cl_read q with Err e => Some e | Ok _ => None end | None => None end;
  co_degraded : ca_degraded c = match head qs with Some q => negb (is_ok (cl_read q)) | None => false end }.

Lemma cache_step qs c call : cache_of qs c ->
  cache_of (if fresh c (cl_started call) then qs else call :: qs) (snd (fst (cached_RegistryMetricCounts c call))).
Proof.
  intros [H1 H2 H3 H4]. unfold cached_RegistryMetricCounts. destruct (fresh c (cl_started call)); [by split|].
  destruct (cl_read call) as [counts|err] eqn:E; [|destruct (ca_haveCount c) eqn:Eh]; split; cbn; unfold deadline; rewrite ?E; cbn; try done;
    unfold last_good in *; cbn; by rewrite E.
Qed.

Definition cache_from (c : cachingRegistryMetricReader) (calls : list Collect) : cachingRegistryMetricReader :=
  foldl (fun c call => snd (fst (cached_RegistryMetricCounts c call))) c calls.

Lemma cache_from_queries calls qs c : cache_of qs c -> cache_of (queries_from c qs calls) (cache_from c calls).
Proof. revert qs c. induction calls as [|call calls IH]; intros qs c H; cbn; [done|]. by apply IH, cache_step. Qed.

Lemma cache_after_queries calls : cache_of (queries calls) (cache_after calls).
Proof. by apply cache_from_queries. Qed.

Lemma queries_from_snoc calls call qs c : queries_from c qs (calls ++ [call]) =
  if fresh (cache_from c calls) (cl_started call) then queries_from c qs calls else call :: queries_from c qs calls.
Proof. revert qs c. induction calls as [|x calls IH]; intros qs c; cbn; [done|]. apply IH. Qed.

Lemma queries_snoc calls call : queries (calls ++ [call]) = if queried calls call then call :: queries calls else queries calls.
Proof. unfold queries, queried. rewrite queries_from_snoc. change (cache_from newCachingRegistryMetricReader calls) with (cache_after calls). by destruct (fresh _ _). Qed.

(** C35. The cache in front of the metrics query, for any sequence of calls: a call
    reads the database exactly when the last read no longer counts (thirty
    seconds from the start of one that worked, five from the end of one that
    failed), and its answer is the counts of the last read that worked, the error
    of the last read only if none ever worked. *)
Theorem cache_correct calls call :
  (queried calls call = true <-> forall q, head (queries calls) = Some q -> (deadline q <= cl_started call)%Z) /\
  Some (answer calls call) = promised (queries (calls ++ [call])).
Proof.
  pose proof (cache_after_queries calls) as [H1 H2 H3 H4]. rewrite queries_snoc. unfold queried, answer, fresh, promised, cached_RegistryMetricCounts, fresh. rewrite H1. split.
  - destruct (head (queries calls)) as [q|]; cbn; [|naive_solver]. rewrite negb_true_iff, Z.ltb_ge. naive_solver.
  - destruct (head (queries calls)) as [q|] eqn:Eq; cbn.
    + destruct (cl_started call <? deadline q)%Z; cbn.
      * rewrite H2, H3, Eq. destruct (ca_haveCount (cache_after calls)) eqn:Eh; [done|]. cbn. destruct (cl_read q) as [x|e] eqn:E; [|done].
        exfalso. destruct (queries calls) as [|q' qs]; simplify_eq/=. unfold last_good in H2. cbn in H2. by rewrite E in H2.
      * unfold last_good in *. cbn. destruct (cl_read call) as [x|e] eqn:E; cbn; [done|]. rewrite H2. by destruct (ca_haveCount (cache_after calls)).
    + unfold last_good in *. cbn. destruct (cl_read call) as [x|e] eqn:E; cbn; [done|]. rewrite H2. by destruct (ca_haveCount (cache_after calls)).
Qed.

(** The reads are spaced, so the database is asked at most once in five seconds,
    however often the metrics are collected. *)
Lemma queries_spaced calls : Sorted (fun later earlier => (deadline earlier <= cl_started later)%Z) (queries calls).
Proof.
  induction calls as [|call calls IH] using rev_ind; [constructor|]. rewrite queries_snoc. unfold queried, fresh.
  destruct (cache_after_queries calls) as [-> _ _ _]. destruct (queries calls) as [|q qs]; cbn; [by repeat constructor|].
  destruct (cl_started call <? deadline q)%Z eqn:E; cbn; [done|]. constructor; [done|]. constructor. by apply Z.ltb_ge.
Qed.

Lemma query_rate calls first later : Forall (fun q => cl_started q <= cl_ended q)%Z calls ->
  last (queries calls) = Some first -> head (queries calls) = Some later ->
  (cl_started first + (Z.of_nat (List.length (queries calls)) - 1) * RegistryMetricCountsErrorCacheTTL <= cl_started later)%Z.
Proof.
  intros Hf. pose proof (queries_spaced calls) as Hs.
  assert (Hq : Forall (fun q => cl_started q <= cl_ended q)%Z (queries calls)).
  { clear Hs. induction calls as [|call calls IH] using rev_ind; [constructor|]. apply Forall_app in Hf as [Hf Hc]. apply Forall_cons in Hc as [Hc _].
    rewrite queries_snoc. specialize (IH Hf). destruct (queried calls call); [constructor; [exact Hc|exact IH]|exact IH]. }
  revert first later Hq. generalize dependent (queries calls). intros qs Hs. induction Hs as [|q qs Hs IH Hd]; intros first later Hq Hl Hh; [done|].
  injection Hh as <-. apply Forall_cons in Hq as [Hq0 Hq]. destruct qs as [|q' qs]; [injection Hl as <-; cbn; lia|].
  specialize (IH first q' Hq Hl eq_refl). inversion Hd as [|? ? Hd']; subst. apply Forall_cons in Hq as [Hq' _].
  assert (cl_started q' + RegistryMetricCountsErrorCacheTTL <= deadline q')%Z.
  { unfold deadline, RegistryMetricCountsCacheTTL, RegistryMetricCountsErrorCacheTTL, Second in *. case_match; lia. }
  cbn [List.length] in *. lia.
Qed.

(** A successful read outlives its own duration: the timeout of the query is
    below the time its result counts, so an entry is never written expired. *)
Lemma success_not_expired q : is_ok (cl_read q) = true -> (cl_ended q - cl_started q <= registryMetricCountsQueryTimeout)%Z -> (cl_ended q < deadline q)%Z.
Proof. unfold deadline, registryMetricCountsQueryTimeout, RegistryMetricCountsCacheTTL, Second. destruct (cl_read q); [lia|done]. Qed.

(** ** The metrics middleware ([middleware.go]) *)

(** What the middleware reads of a request: the method, X-Forwarded-Proto,
    whether the connection has TLS, and the pattern chi routed it to. *)
Record MetricRequest := { mq_Method : string; mq_ForwardedProto : string; mq_TLS : bool; mq_RoutePattern : string }.

Definition knownHTTPMethods : gset string :=
  {[ "CONNECT"; "DELETE"; "GET"; "HEAD"; "OPTIONS"; "PATCH"; "POST"; "PUT"; "TRACE" ]}.
Definition httpMethodAttr (method : string) : string := if bool_decide (method ∈ knownHTTPMethods) then method else "_OTHER".

Definition schemeHTTP : string := "http".
Definition schemeHTTPS : string := "https".
Definition requestScheme (r : MetricRequest) : string :=
  let of_connection := if mq_TLS r then schemeHTTPS else schemeHTTP in
  if String.eqb (mq_ForwardedProto r) "" then of_connection
  else
    let forwarded := of_bytes (fst (cut_bytes "," (to_bytes (mq_ForwardedProto r)))) in
    let scheme := ToLower (TrimSpace forwarded) in
    if String.eqb scheme schemeHTTP || String.eqb scheme schemeHTTPS then scheme else of_connection.
Definition getRoutePattern (r : MetricRequest) : string :=
  if negb (String.eqb (mq_RoutePattern r) "") then mq_RoutePattern r else "unknown_route".

Definition errorClassServer : string := "server_error".
Definition errorClassClient : string := "client_error".
Definition errorClassForStatus (status : Z) : string :=
  if (500 <=? status)%Z then errorClassServer else if (400 <=? status)%Z then errorClassClient else "".

(** What the instruments hold: requests in flight by method and scheme; finished
    requests (and as many durations) by method, scheme, route and status; errors
    by type and area. *)
Abbreviation ActiveAttrs := (string * string)%type.
Abbreviation RequestAttrs := (string * string * string * Z)%type.
Record HTTPMetrics := {
  hm_activeRequests : gmap ActiveAttrs Z;
  hm_requestsTotal : gmap RequestAttrs Z;
  hm_errorsTotal : gmap (string * string) Z }.
Definition no_metrics : HTTPMetrics := {| hm_activeRequests := ∅; hm_requestsTotal := ∅; hm_errorsTotal := ∅ |}.

Definition Add {K} `{Countable K} (attrs : K) (delta : Z) (m : gmap K Z) : gmap K Z := <[attrs := (default 0 (m !! attrs) + delta)%Z]> m.
Definition activeAttrs (r : MetricRequest) : ActiveAttrs := (httpMethodAttr (mq_Method r), requestScheme r).
Definition requestAttrs (r : MetricRequest) (status : Z) : RequestAttrs :=
  (httpMethodAttr (mq_Method r), requestScheme r, getRoutePattern r, status).
Definition areaHTTP : string := "http".

(** The middleware before and after it serves the request. *)
Definition serve_begin (r : MetricRequest) (m : HTTPMetrics) : HTTPMetrics :=
  {| hm_activeRequests := Add (activeAttrs r) 1 (hm_activeRequests m); hm_requestsTotal := hm_requestsTotal m; hm_errorsTotal := hm_errorsTotal m |}.
Definition serve_end (r : MetricRequest) (status : Z) (m : HTTPMetrics) : HTTPMetrics :=
  {| hm_activeRequests := Add (activeAttrs r) (-1) (hm_activeRequests m);
     hm_requestsTotal := Add (requestAttrs r status) 1 (hm_requestsTotal m);
     hm_errorsTotal := let errType := errorClassForStatus status in
       if negb (String.eqb errType "") then Add (errType, areaHTTP) 1 (hm_errorsTotal m) else hm_errorsTotal m |}.

(** Requests are served concurrently. *)
Record Serving := { sg_metrics : HTTPMetrics; sg_running : gmap nat MetricRequest; sg_served : list (MetricRequest * Z) }.
Inductive serving_step : Serving -> Serving -> Prop :=
| step_begin s p r : sg_running s !! p = None ->
    serving_step s {| sg_metrics := serve_begin r (sg_metrics s); sg_running := <[p := r]> (sg_running s); sg_served := sg_served s |}
| step_end s p r status : sg_running s !! p = Some r ->
    serving_step s {| sg_metrics := serve_end r status (sg_metrics s); sg_running := delete p (sg_running s);
                      sg_served := (r, status) :: sg_served s |}.

Definition count {A} (P : A -> bool) (l : list A) : Z := Z.of_nat (List.length (List.filter P l)).
Lemma count_cons {A} (P : A -> bool) x l : count P (x :: l) = ((if P x then 1 else 0) + count P l)%Z.
Proof. unfold count. cbn. destruct (P x); cbn [List.length]; lia. Qed.
Lemma count_perm {A} (P : A -> bool) l l' : l ≡ₚ l' -> count P l = count P l'.
Proof. intros H. induction H; rewrite ?count_cons in *; lia. Qed.

Lemma Add_lookup {K} `{Countable K} (a k : K) delta m :
  default 0%Z (Add a delta m !! k) = (default 0 (m !! k) + if bool_decide (a = k) then delta else 0)%Z.
Proof. unfold Add. case_bool_decide as E; [subst; by rewrite lookup_insert_eq|]. rewrite lookup_insert_ne by done. lia. Qed.

Definition value {K} `{Countable K} (m : gmap K Z) (k : K) : Z := default 0%Z (m !! k).
Definition in_flight (s : Serving) (a : ActiveAttrs) : Z := count (fun pr => bool_decide (activeAttrs (snd pr) = a)) (map_to_list (sg_running s)).

(** The gauge counts the requests in flight, the counters those that are over. *)
Record metrics_exact (s : Serving) : Prop := {
  me_active : forall a, value (hm_activeRequests (sg_metrics s)) a = in_flight s a;
  me_requests : forall a, value (hm_requestsTotal (sg_metrics s)) a = count (fun x => bool_decide (requestAttrs (fst x) (snd x) = a)) (sg_served s);
  me_errors : forall ty, ty <> "" -> value (hm_errorsTotal (sg_metrics s)) (ty, areaHTTP) = count (fun x => String.eqb (errorClassForStatus (snd x)) ty) (sg_served s) }.

Lemma serving_exact s s' : serving_step s s' -> metrics_exact s -> metrics_exact s'.
Proof.
  intros [s1 p r Hp|s1 p r status Hp] [H1 H2 H3]; split; cbn [sg_metrics sg_running sg_served serve_begin serve_end hm_activeRequests hm_requestsTotal hm_errorsTotal]; try done.
  - intros a. specialize (H1 a). unfold value, in_flight in *. rewrite Add_lookup, H1. cbn [sg_running]. rewrite (count_perm _ _ _ (map_to_list_insert _ _ _ Hp)), count_cons. cbn [snd].
    case_bool_decide; lia.
  - intros a. specialize (H1 a). unfold value, in_flight in *. rewrite Add_lookup, H1. cbn [sg_running].
    rewrite <-(count_perm _ _ _ (map_to_list_delete _ _ _ Hp)), count_cons. cbn [snd]. case_bool_decide; lia.
  - intros a. specialize (H2 a). unfold value in *. rewrite Add_lookup, H2, count_cons. cbn [fst snd]. lia.
  - intros ty Hty. specialize (H3 ty Hty). unfold value in *. rewrite count_cons. cbn [snd]. destruct (String.eqb_spec (errorClassForStatus status) ty) as [E|E].
    + rewrite E, (proj2 (String.eqb_neq _ _) Hty). cbn [negb]. rewrite Add_lookup, H3, bool_decide_eq_true_2 by done. lia.
    + case_match; [|lia]. rewrite Add_lookup, H3, bool_decide_eq_false_2 by congruence. lia.
Qed.

Definition idle (m : HTTPMetrics) : Serving := {| sg_metrics := m; sg_running := ∅; sg_served := [] |}.

(** However requests overlap, the gauge of requests in flight is theirs, and back
    at zero for every method and scheme when none is left; finished requests are
    counted once each, by status class if it is an error. *)
Lemma metrics_reachable s : rtc serving_step (idle no_metrics) s -> metrics_exact s.
Proof.
  assert (H0 : metrics_exact (idle no_metrics)) by (split; done). intros Hr. revert H0. induction Hr; eauto using serving_exact.
Qed.
Lemma gauge_returns_to_zero s a : rtc serving_step (idle no_metrics) s -> sg_running s = ∅ -> value (hm_activeRequests (sg_metrics s)) a = 0%Z.
Proof. intros Hr He. rewrite (me_active _ (metrics_reachable s Hr)). unfold in_flight. by rewrite He, map_to_list_empty. Qed.

(** A client cannot mint series: the labels it can reach with a method and headers
    of its choice are twenty. *)
Definition all_active_attrs : gset ActiveAttrs :=
  set_bind (fun m => {[ (m, schemeHTTP); (m, schemeHTTPS) ]}) (knownHTTPMethods ∪ {[ "_OTHER" ]}).
Lemma requestScheme_bounded r : requestScheme r = schemeHTTP \/ requestScheme r = schemeHTTPS.
Proof.
  unfold requestScheme. assert (Hc : (if mq_TLS r then schemeHTTPS else schemeHTTP) = schemeHTTP \/ (if mq_TLS r then schemeHTTPS else schemeHTTP) = schemeHTTPS)
    by (destruct (mq_TLS r); auto).
  destruct (String.eqb (mq_ForwardedProto r) ""); [done|]. destruct (_ || _) eqn:E; [|done]. apply orb_true_iff in E as [E%String.eqb_eq|E%String.eqb_eq]; rewrite E; auto.
Qed.
Lemma series_bounded s : rtc serving_step (idle no_metrics) s -> dom (hm_activeRequests (sg_metrics s)) ⊆ all_active_attrs.
Proof.
  assert (Ha : forall r, activeAttrs r ∈ all_active_attrs).
  { intros r. unfold all_active_attrs, activeAttrs. apply elem_of_set_bind. exists (httpMethodAttr (mq_Method r)). split.
    - unfold httpMethodAttr. case_bool_decide; apply elem_of_union; [by left|right]. by apply elem_of_singleton.
    - apply elem_of_union. destruct (requestScheme_bounded r) as [->| ->]; [left|right]; by apply elem_of_singleton. }
  intros Hr. assert (H0 : dom (hm_activeRequests (sg_metrics (idle no_metrics))) ⊆ all_active_attrs) by apply empty_subseteq.
  revert H0. induction Hr as [s|s1 s2 s3 Hs _ IH]; [done|]. intros H0. apply IH. destruct Hs as [s p r Hp|s p r status Hp]; cbn; unfold Add;
    rewrite dom_insert_L; (apply union_subseteq; split; [apply singleton_subseteq_l, Ha|done]).
Qed.

(** ** The tracing middleware ([tracing_middleware.go]) *)

Definition MaxUserAgentLength : nat := 256.
Definition truncateUserAgent (ua : string) : string :=
  if (String.length ua <=? MaxUserAgentLength)%nat then ua else of_bytes (take MaxUserAgentLength (to_bytes ua)).

Inductive SpanStatus := SpanUnset | SpanError | SpanOk.
Record Span := { sn_name : string; sn_method : string; sn_path : string; sn_userAgent : string; sn_route : string; sn_statusCode : Z; sn_status : SpanStatus }.

(** The span of a request when it ends: its first name, by path, is replaced. *)
Definition TracingMiddleware (r : MetricRequest) (path userAgent : string) (statusCode : Z) : Span :=
  {| sn_name := mq_Method r +:+ " " +:+ getRoutePattern r; sn_method := mq_Method r; sn_path := path; sn_userAgent := truncateUserAgent userAgent;
     sn_route := getRoutePattern r; sn_statusCode := statusCode;
     sn_status := if (500 <=? statusCode)%Z then SpanError else if (statusCode <? 400)%Z then SpanOk else SpanUnset |}.

Lemma truncateUserAgent_bounded ua : (String.length (truncateUserAgent ua) <= 256)%nat.
Proof. unfold truncateUserAgent, MaxUserAgentLength. case_match eqn:E; [by apply Nat.leb_le|]. rewrite <-to_bytes_length, to_of_bytes, length_take. lia. Qed.

(** ** Metrics of a sync *)

Definition areaSync : string := "sync".
Record SyncMetrics := { sm_syncDuration : gmap (string * string) Z; sm_errorsTotal : gmap (string * string) Z }.
Definition RecordSyncError (errorType : string) (m : option SyncMetrics) : option SyncMetrics :=
  (fun m => let errorType := if String.eqb errorType "" then "unknown" else errorType in
            {| sm_syncDuration := sm_syncDuration m; sm_errorsTotal := Add (errorType, areaSync) 1 (sm_errorsTotal m) |}) <$> m.
Definition RecordSyncDuration (sourceName : string) (success : bool) (m : option SyncMetrics) : option SyncMetrics :=
  (fun m => let outcome := if success then "success" else "error" in
            {| sm_syncDuration := Add (sourceName, outcome) 1 (sm_syncDuration m); sm_errorsTotal := sm_errorsTotal m |}) <$> m.

(** What the coordinator records of a sync of [source]: the reason, if it failed. *)
Definition record_sync (source : string) (failure : option string) (m : option SyncMetrics) : option SyncMetrics :=
  match failure with
  | Some reason => RecordSyncError reason (RecordSyncDuration source false m)
  | None => RecordSyncDuration source true m
  end.
(** The failures counted by type are the syncs counted as failed. *)
Lemma failures_agree l m reasons : foldl (fun m x => record_sync (fst x) (snd x) m) (Some {| sm_syncDuration := ∅; sm_errorsTotal := ∅ |}) l = Some m ->
  reasons = omap snd l ->
  forall ty, ty <> "" -> ty <> "unknown" -> value (sm_errorsTotal m) (ty, areaSync) = count (String.eqb ty) reasons.
Proof.
  intros H -> ty H1 H2. assert (Hgo : forall l m0 m, foldl (fun m x => record_sync (fst x) (snd x) m) (Some m0) l = Some m ->
    value (sm_errorsTotal m) (ty, areaSync) = (value (sm_errorsTotal m0) (ty, areaSync) + count (String.eqb ty) (omap snd l))%Z).
  { clear H. intros l0. induction l0 as [|[src [reason|]] l0 IH]; intros m0 m1 Hm; cbn [foldl fst snd record_sync RecordSyncError RecordSyncDuration] in Hm; cbn [omap list_omap fst snd].
    - injection Hm as <-. unfold count. cbn. lia.
    - apply IH in Hm. rewrite Hm. cbn [sm_errorsTotal]. unfold value. rewrite Add_lookup, count_cons. destruct (String.eqb_spec reason "") as [->|Hne].
      + rewrite bool_decide_eq_false_2 by congruence. destruct (String.eqb_spec ty ""); [done|lia].
      + destruct (String.eqb_spec ty reason) as [->|Hr]; [rewrite bool_decide_eq_true_2 by done|rewrite bool_decide_eq_false_2 by congruence]; lia.
    - apply IH in Hm. rewrite Hm. cbn [sm_errorsTotal]. lia. }
  rewrite (Hgo _ _ _ H). cbn. unfold value. by rewrite lookup_empty.
Qed.

(** ** Examples *)
Module TelemetryExample.
(** YAML's [.nan] is accepted as a sampling ratio. *)
Definition with_sampling (s : float64) : TelemetryConfig :=
  {| tl_Enabled := true; tl_ServiceName := ""; tl_ServiceVersion := ""; tl_Endpoint := ""; tl_Insecure := false;
     tl_Tracing := Some {| tc_Enabled := true; tc_Sampling := Some s |}; tl_Metrics := None |}.
Lemma sampling_nan :
  Telemetry_Validate (Some (with_sampling NaN)) = Ok () /\ is_ok (Telemetry_Validate (Some (with_sampling (Fin 0 0)))) = false /\
  is_ok (Telemetry_Validate (Some (with_sampling (Fin 3 (-1))))) = false /\ Telemetry_Validate (Some (with_sampling DefaultSampling)) = Ok ().
Proof. split_and!; reflexivity. Qed.

(** A read that fails after twenty seconds, calls a second after it and five
    seconds later; then the counts, kept over the next failure. *)
Definition collect (started ended : Z) (read : result (list RegistryMetricCount)) : Collect :=
  {| cl_started := (started * Second)%Z; cl_read := read; cl_ended := (ended * Second)%Z |}.
Definition one : list RegistryMetricCount := [ {| rc_SourceName := "up"; rc_ServerCount := 2; rc_SkillCount := 0; rc_PluginCount := 0 |} ].
Definition down : result (list RegistryMetricCount) := Err (EMsg "timeout").
Definition history : list Collect := [collect 0 20 down; collect 21 21 (Ok one); collect 25 26 (Ok one); collect 40 41 down; collect 55 75 down].
Lemma history_queries :
  cl_started <$> queries history = [(55 * Second)%Z; (25 * Second)%Z; 0%Z] /\
  answer [collect 0 20 down] (collect 21 21 (Ok one)) = down /\ answer history (collect 76 76 (Ok [])) = Ok one.
Proof. split_and!; reflexivity. Qed.
End TelemetryExample.
