(* ===== verification/ServerReads.v ===== *)
(** * Reading servers

    The read operations of [internal/service/db/impl_mcp.go]: [ListServers],
    [ListServerVersions], [GetServerVersion] and the fetch-back with which
    [PublishServerVersion] ends, with the mapping of rows to the API's values
    ([internal/service/db/types.go], [internal/validators/arguments.go]) and the
    queries of [database/queries/servers.sql] they run.  The batch loop is that
    of [Streaming], here with its calls to the database. *)

From stdpp Require Import base list strings gmap sets sorting.
From Stdlib Require Import String Ascii ZArith Lia.
From S2P Require Import Prelude GoStrings Validators Cursor Versions Claims Codec Auth ClaimsGate.
From S2P Require Import Upstream Database Entries Streaming Artifacts.

Local Open Scope string_scope.
Local Open Scope list_scope.

(** ** Stored forms, read *)

(** [json.Unmarshal] into the types kept in JSONB columns. *)
Class ServerReadCodec := {
  kv_Unmarshal : string -> option (list KeyValueInput);
  args_Unmarshal : string -> option (list Argument);
  names_Unmarshal : string -> option (list string);
  meta_Unmarshal : string -> option (list (string * any)) }.

Record ListServerPackagesRow := {
  pr_ServerID : uuid;
  pr_RegistryType : string;
  pr_PkgIdentifier : string;
  pr_Transport : string;
  pr_row : PackageRow }.

Record McpServerRemote := {
  rr_ServerID : uuid;
  rr_Transport : string;
  rr_TransportUrl : string;
  rr_TransportHeaders : string }.

(** The cursor of GetServerVersion: position and source id. *)
Abbreviation priorityCursor := (Z * uuid)%type.

Section Mapping.
Context `{RC : ServerReadCodec}.

Definition toKeyValueInputs (jsonData : string) : list KeyValueInput :=
  if (len jsonData =? 0)%nat then [] else default [] (kv_Unmarshal jsonData).

(** A bare flag name of an old row. *)
Definition named_argument (name : string) : Argument := {| arg_Name := name; arg_rest := [] |}.

Definition DeserializeArguments (data : string) : list Argument :=
  if (len data =? 0)%nat then []
  else match args_Unmarshal data with
       | Some result => result
       | None =>
           match names_Unmarshal data with
           | None => []
           | Some names => named_argument <$> List.filter (fun name => negb (String.eqb name "")) names
           end
       end.

Definition toPackage (p : ListServerPackagesRow) : Package :=
  let r := pr_row p in
  {| pk_RegistryType := pr_RegistryType p;
     pk_RegistryBaseURL := pa_registry_url r;
     pk_Identifier := pr_PkgIdentifier p;
     pk_Version := pa_version r;
     pk_FileSHA256 := pa_sha256 r;
     pk_RunTimeHint := pa_runtime_hint r;
     pk_Transport := {| tr_Type := pr_Transport p; tr_URL := pa_transport_url r;
                        tr_Headers := toKeyValueInputs (pa_transport_headers r) |};
     pk_RuntimeArguments := DeserializeArguments (pa_runtime_arguments r);
     pk_PackageArguments := DeserializeArguments (pa_package_arguments r);
     pk_EnvironmentVariables := toKeyValueInputs (pa_env_vars r) |}.
Definition toPackages (packages : list ListServerPackagesRow) : list Package := toPackage <$> packages.

Definition toRemote (r : McpServerRemote) : Transport :=
  {| tr_Type := rr_Transport r; tr_URL := rr_TransportUrl r;
     tr_Headers := toKeyValueInputs (rr_TransportHeaders r) |}.
Definition toRemotes (remotes : list McpServerRemote) : list Transport := toRemote <$> remotes.

Definition server_schema : string :=
  "https://static.modelcontextprotocol.io/schemas/2025-12-11/server.schema.json".

Definition helperToServer (h : helper) (packages : list ListServerPackagesRow)
    (remotes : list McpServerRemote) : result ServerJSON :=
  let row := sc_row (h_columns h) in
  meta <- (if (0 <? len (se_server_meta row))%nat
           then or_err "failed to unmarshal server meta" (meta_Unmarshal (se_server_meta row))
           else Ok []) ;;
  Ok {| sj_Schema := server_schema;
        sj_Name := h_Name h;
        sj_Description := sc_Description (h_columns h);
        sj_Title := sc_Title (h_columns h);
        sj_Version := h_Version h;
        sj_WebsiteURL := se_website row;
        sj_Repository := (fun '(url, id, subfolder, type) =>
          {| rp_URL := url; rp_Source := type; rp_ID := id; rp_Subfolder := subfolder |}) <$> se_repository row;
        sj_Packages := toPackages packages;
        sj_Remotes := toRemotes remotes;
        sj_Icons := [];
        sj_Meta := Some {| sm_PublisherProvided := meta |} |}.

(** ** Queries *)

Context `{Co : Collation} `{SQ : SqlConditions}.

(** JOIN mcp_server s ON p.server_id = s.version_id WHERE s.version_id = ANY(...) *)
Definition wanted (ids : list uuid) (d : DB) (vid : uuid) : bool :=
  bool_decide (vid ∈ ids) && bool_decide (is_Some (d_server d !! vid)).

Definition package_row_of (kv : uuid * string * string * string * PackageRow) : ListServerPackagesRow :=
  let '((vid, rtype, ident, transport), row) := kv in
  {| pr_ServerID := vid; pr_RegistryType := rtype; pr_PkgIdentifier := ident; pr_Transport := transport; pr_row := row |}.
Definition remote_row_of (kv : uuid * string * string * string) : McpServerRemote :=
  let '((vid, transport, url), headers) := kv in
  {| rr_ServerID := vid; rr_Transport := transport; rr_TransportUrl := url; rr_TransportHeaders := headers |}.

(** ORDER BY p.pkg_version DESC *)
Definition pkg_le (a b : ListServerPackagesRow) : Prop := coll_le (pa_version (pr_row b)) (pa_version (pr_row a)).
#[export] Instance pkg_le_dec : RelDecision pkg_le.
Proof. intros a b. unfold pkg_le. apply _. Defined.

(** ORDER BY r.transport, r.transport_url *)
Definition remote_le (a b : McpServerRemote) : Prop :=
  coll_lt (rr_Transport a) (rr_Transport b) \/
  (rr_Transport a = rr_Transport b /\ coll_le (rr_TransportUrl a) (rr_TransportUrl b)).
#[export] Instance remote_le_dec : RelDecision remote_le.
Proof. intros a b. unfold remote_le, coll_lt. apply _. Defined.

Definition ListServerPackages (ids : list uuid) : Q (list ListServerPackagesRow) :=
  select (fun d => Ok (merge_sort pkg_le
    (List.filter (fun p => wanted ids d (pr_ServerID p)) (package_row_of <$> map_to_list (d_package d))))).

Definition ListServerRemotes (ids : list uuid) : Q (list McpServerRemote) :=
  select (fun d => Ok (merge_sort remote_le
    (List.filter (fun r => wanted ids d (rr_ServerID r)) (remote_row_of <$> map_to_list (d_remote d))))).

(** The optional conditions of ListServers. *)
Record ListServersParams := {
  lp_Name : option string;
  lp_Search : option string;
  lp_UpdatedSince : option Z;
  lp_Version : option string }.

Definition version_is (version : string) (h : helper) : bool :=
  String.eqb (h_Version h) version || (String.eqb version "latest" && sc_IsLatest (h_columns h)).

Definition list_conditions (p : ListServersParams) (h : helper) : bool :=
  match lp_Name p with None => true | Some name => String.eqb (h_Name h) name end &&
  match lp_Search p with
  | None => true
  | Some q => text_matches q (h_Name h) || text_matches q (sc_Title (h_columns h)) ||
              text_matches q (sc_Description (h_columns h))
  end &&
  match lp_UpdatedSince p with None => true | Some t => updated_after (h_ID h) t end &&
  match lp_Version p with None => true | Some version => version_is version h end.

Definition ListServers_rows (p : ListServersParams) (rid : uuid) (cursor : option serverCursor) (size : nat)
    : Q (list helper) :=
  select (fun d => Ok (ListServersQuery (ordered_rows (list_conditions p) d rid) cursor size)).

(** GetServerVersion: ORDER BY rs.position ASC, rs.source_id ASC *)
Definition priority (h : helper) : priorityCursor := (h_Position h, h_SourceID h).
Definition source_le (a b : helper) : Prop :=
  (h_Position a < h_Position b)%Z \/ (h_Position a = h_Position b /\ (h_SourceID a <= h_SourceID b)%nat).
#[export] Instance source_le_dec : RelDecision source_le.
Proof. intros a b. unfold source_le. apply _. Defined.

(** Both columns must exceed the cursor's. *)
Definition after_source (cursor : option priorityCursor) (h : helper) : bool :=
  match cursor with
  | None => true
  | Some (position, sid) => (position <? h_Position h)%Z && (sid <? h_SourceID h)%nat
  end.

Definition server_candidates (rid : uuid) (name version sourceName : string) (d : DB) : list helper :=
  snd <$> List.filter (fun '(v, h) =>
    String.eqb (ve_name v) name && version_is version h &&
    (String.eqb sourceName "" || source_named (h_SourceID h) sourceName d)) (registry_servers d rid).

(** The row with its source id; the row by source name has none. *)
Definition getServerVersionRowToHelper (h : helper) : helper :=
  {| h_ID := h_ID h; h_Name := h_Name h; h_Version := h_Version h; h_Claims := h_Claims h;
     h_SourceID := h_SourceID h; h_Position := h_Position h; h_columns := h_columns h |}.
Definition getServerVersionBySourceNameRowToHelper (h : helper) : helper := listServersRowToHelper h.

Definition GetServerVersion_rows (rid : uuid) (name version sourceName : string)
    (cursor : option priorityCursor) (size : nat) : Q (list helper) :=
  select (fun d => Ok (take size (List.filter (after_source cursor)
    (merge_sort source_le (server_candidates rid name version sourceName d))))).

(** GetServerVersionBySourceName, one row; its position is 0. *)
Definition GetServerVersionBySourceName (name version sourceName : string) : Q helper :=
  select (fun d =>
    match d_source d !! sourceName with
    | None => Err no_rows
    | Some s =>
        row_or_none ((fun p => getServerVersionBySourceNameRowToHelper (snd p)) <$>
          find (fun p => String.eqb (ve_name (fst p)) name && String.eqb (h_Version (snd p)) version)
            (join_servers (fun sid => if (sid =? so_id s)%nat then Some 0%Z else None) d))
    end).

(** ** The batch loop with its queries *)

Section Stream.
Context {Cu : Type} (cursor_of : helper -> Cu) (querierFunc : option Cu -> Q (list helper)).
Context (filter_ : RecordFilter helper) (limit : nat).

Fixpoint streamHelpers_q (fuel : nat) (seen : seen_map) (accumulated : list helper) (cursor : option Cu)
    : Q (option (list helper * option Cu)) :=
  match fuel with
  | O => mret None
  | S fuel' =>
      batch ← querierFunc cursor;
      st ← lift (process_batch filter_ (seen, accumulated) batch);
      let '(seen', accumulated') := st in
      if (limit + 1 <=? List.length accumulated')%nat || (List.length batch <? limit + 1)%nat
      then mret (Some (finish_page cursor_of limit accumulated'))
      else
        streamHelpers_q fuel' seen' accumulated'
          (match last batch with Some r => Some (cursor_of r) | None => cursor end)
  end.
End Stream.

(** The first error of the slice, or the values. *)
Fixpoint map_result {A B} (f : A -> result B) (l : list A) : result (list B) :=
  match l with
  | [] => Ok []
  | x :: l' => y <- f x ;; ys <- map_result f l' ;; Ok (y :: ys)
  end.

Definition fetchAndMapServers (servers : list helper) : Q (list ServerJSON) :=
  let ids := h_ID <$> servers in
  packages ← ListServerPackages ids;
  let packagesMap := foldl (fun m p => append_package m (pr_ServerID p) p) ∅ packages in
  remotes ← ListServerRemotes ids;
  let remotesMap := foldl (fun m r => append_package m (rr_ServerID r) r) ∅ remotes in
  lift (map_result (fun h =>
    helperToServer h (default [] (packagesMap !! h_ID h)) (default [] (remotesMap !! h_ID h))) servers).

Definition sharedListServersWithCursor {Cu} (fuel : nat) (cursor_of : helper -> Cu)
    (querierFunc : option Cu -> Q (list helper)) (limit : nat) (filter_ : RecordFilter helper)
    : Q (option (list ServerJSON * option Cu)) :=
  read_transaction (
    page ← streamHelpers_q cursor_of querierFunc filter_ limit fuel ∅ [] None;
    match page with
    | None => mret None
    | Some (accumulated, lastCursor) =>
        result ← fetchAndMapServers accumulated;
        mret (Some (result, lastCursor))
    end).

Definition sharedListServers {Cu} (fuel : nat) (cursor_of : helper -> Cu)
    (querierFunc : option Cu -> Q (list helper)) (filter_ : RecordFilter helper) : Q (option (list ServerJSON)) :=
  result ← sharedListServersWithCursor fuel cursor_of querierFunc MaxPageSize filter_;
  mret (fst <$> result).
End Mapping.

(** ** The operations

    [None] is the fuel of the batch loop running out. *)

Record ListServersOptions := {
  lo_RegistryName : string;
  lo_Cursor : string;
  lo_Limit : nat;
  lo_Search : string;
  lo_UpdatedSince : option Z;       (* None is the zero time *)
  lo_Version : string;
  lo_Claims : option claims }.

Record ListServerVersionsOptions := {
  vo_RegistryName : string;
  vo_Name : string;
  vo_Limit : nat;
  vo_Claims : option claims }.

Record GetServerVersionOptions := {
  gso_RegistryName : string;
  gso_SourceName : string;
  gso_Name : string;
  gso_Version : string;
  gso_Claims : option claims }.

Section Service.
Context `{SC : ServerCodec} `{RC : ServerReadCodec} `{C : JsonCodec} `{L : SemverLib} `{Co : Collation} `{SQ : SqlConditions}.

(** [if options.X != "" { params.X = &options.X }] *)
Definition non_empty (s : string) : option string := if String.eqb s "" then None else Some s.

Definition list_params (opts : ListServersOptions) : ListServersParams :=
  {| lp_Name := None; lp_Search := non_empty (lo_Search opts); lp_UpdatedSince := lo_UpdatedSince opts;
     lp_Version := non_empty (lo_Version opts) |}.

Definition ListServers (fuel : nat) (s : dbService) (ctx : Ctx) (opts : ListServersOptions)
    : Q (option (list ServerJSON * string)) :=
  let limit := Nat.min (lo_Limit opts) MaxPageSize in
  if String.eqb (lo_RegistryName opts) "" then fail (EMsg "registry name is required")
  else
    registryID ← lookupRegistryIDWithGate ctx (lo_RegistryName opts) (gate s (lo_Claims opts));
    start ← lift (start_cursor (lo_Cursor opts));
    let querierFunc cursor :=
      ListServers_rows (list_params opts) registryID (match cursor with Some c => Some c | None => start end) (limit + 1) in
    result ← sharedListServersWithCursor fuel key querierFunc limit
               (claims_filter (sv_skipAuthz s) ctx (lo_Claims opts));
    mret ((fun '(servers, lastCursor) =>
      (servers, match lastCursor with Some c => EncodeCursor (fst c) (snd c) | None => "" end)) <$> result).

Definition version_params (opts : ListServerVersionsOptions) : ListServersParams :=
  {| lp_Name := Some (vo_Name opts); lp_Search := None; lp_UpdatedSince := None; lp_Version := None |}.

Definition ListServerVersions (fuel : nat) (s : dbService) (ctx : Ctx) (opts : ListServerVersionsOptions)
    : Q (option (list ServerJSON)) :=
  let limit := Nat.min (vo_Limit opts) MaxPageSize in
  if String.eqb (vo_RegistryName opts) "" then fail (EMsg "registry name is required")
  else
    registryID ← lookupRegistryIDWithGate ctx (vo_RegistryName opts) (gate s (vo_Claims opts));
    sharedListServers fuel key (fun _ => ListServers_rows (version_params opts) registryID None limit)
      (claims_filter (sv_skipAuthz s) ctx (vo_Claims opts)).

Definition GetServerVersion (fuel : nat) (s : dbService) (ctx : Ctx) (opts : GetServerVersionOptions)
    : Q (option ServerJSON) :=
  if String.eqb (gso_RegistryName opts) "" then fail (EMsg "registry name is required")
  else
    registryID ← lookupRegistryIDWithGate ctx (gso_RegistryName opts) (gate s (gso_Claims opts));
    let querierFunc cursor :=
      servers ← GetServerVersion_rows registryID (gso_Name opts) (gso_Version opts) (gso_SourceName opts)
                  cursor (MaxPageSize + 1);
      if (List.length servers =? 0)%nat then fail (EWrap ErrNotFound "%s %s")
      else mret (getServerVersionRowToHelper <$> servers) in
    res ← sharedListServers fuel priority querierFunc (claims_filter (sv_skipAuthz s) ctx (gso_Claims opts));
    match res with
    | None => mret None
    | Some [] => fail (EWrap ErrNotFound "%s %s")
    | Some [server] => mret (Some server)
    | Some _ => fail (EWrap ErrBug "number of servers returned is not 1")
    end.

Definition fetchServerVersionBySource (name version sourceName : string) : Q ServerJSON :=
  row ← attempt (GetServerVersionBySourceName name version sourceName);
  match row with
  | Err err => if errorIs err ErrNoRows then fail (EWrap ErrNotFound "%s %s") else fail err
  | Ok h =>
      packages ← ListServerPackages [h_ID h];
      remotes ← ListServerRemotes [h_ID h];
      lift (helperToServer h packages remotes)
  end.

(** [PublishServerVersion] to its end: the stored version is read back. *)
Definition publishServerVersion (s : dbService) (ctx : Ctx) (opts : PublishServerVersionOptions) (now : Z)
    : Q ServerJSON :=
  sourceName ← PublishServerVersion s ctx opts now;
  match po_ServerData opts with
  | None => fail (EMsg "server data is required")
  | Some server =>
      wrapping "failed to fetch published server"
        (fetchServerVersionBySource (sj_Name server) (sj_Version server) sourceName)
  end.
End Service.

(** ** The loop and its queries *)

#[export] Instance filter_perm {A} (p : A -> bool) : Proper ((≡ₚ) ==> (≡ₚ)) (List.filter p).
Proof.
  intros l1 l2. induction 1 as [|x l1 l2 _ IH|x y l|l1 l2 l3 _ IH1 _ IH2]; cbn; [done| | |by etrans].
  - destruct (p x); by rewrite IH.
  - destruct (p x), (p y); done || constructor.
Qed.

Section Runs.
Context `{RC : ServerReadCodec} `{Co : Collation}.

(** A call that failed because the database did. *)
Definition faulted {A} (o : Oracle) (r : result A) : Prop := (exists e, r = Err e) /\ exists k, o k <> None.

Lemma faulted_intro {A} (o : Oracle) n f e : o n = Some f -> faulted o (@Err A e).
Proof. intros H. split; [eauto|]. exists n. congruence. Qed.
Lemma faulted_err {A B} (o : Oracle) e : faulted o (@Err A e) -> faulted o (@Err B e).
Proof. intros [_ H]. split; [eauto|done]. Qed.

(** A read answers from the database, or fails because of it. *)
Definition answers_q {A} (m : Q A) (d : DB) (a : result A) : Prop :=
  forall o n r n' d', m o n d = (r, n', d') -> d' = d /\ (r = a \/ faulted o r).

Lemma select_answers {A} (f : DB -> result A) d : answers_q (select f) d (f d).
Proof.
  intros o n r n' d' H. unfold select, query in H. destruct (o n) eqn:E.
  - injection H as <- <- <-. split; [done|]. right. by eapply faulted_intro.
  - destruct (f d); injection H as <- <- <-; auto.
Qed.

Lemma bind_answers {A B} (m : Q A) (g : A -> Q B) d a b :
  answers_q m d (Ok a) -> answers_q (g a) d b -> answers_q (m ≫= g) d b.
Proof.
  intros Hm Hg o n r n' d' H. unfold mbind, Q_bind in H. destruct (m o n d) as [[x n1] d1] eqn:E.
  apply Hm in E as [-> E]. destruct E as [->|Hf]; [by apply Hg in H|].
  destruct x as [x|e]; [by destruct Hf as [[? ?] _]|]. injection H as <- <- <-. split; [done|]. right. by eapply faulted_err.
Qed.

Section Loop.
Context {Cu : Type} (cursor_of : helper -> Cu) (querierFunc : option Cu -> Q (list helper)).
Context (q : option Cu -> result (list helper)) (filter_ : RecordFilter helper) (limit : nat) (d : DB).

(** The queries read [q] of this database. *)
Hypothesis Hq : forall c, answers_q (querierFunc c) d (q c).

Definition outcome {A} (r : option (result A)) : result (option A) :=
  match r with None => Ok None | Some (Ok a) => Ok (Some a) | Some (Err e) => Err e end.

Lemma streamHelpers_q_answers fuel seen acc c :
  answers_q (streamHelpers_q cursor_of querierFunc filter_ limit fuel seen acc c) d
    (outcome (stream_loop cursor_of q filter_ limit fuel seen acc c)).
Proof using Hq.
  revert seen acc c. induction fuel as [|fuel IH]; intros seen acc c o n r n' d' H.
  { injection H as <- <- <-. auto. }
  cbn [streamHelpers_q stream_loop] in *. unfold mbind at 1, Q_bind in H.
  destruct (querierFunc c o n d) as [[b n1] d1] eqn:Eb. apply Hq in Eb as [-> Eb].
  destruct Eb as [->|Hf].
  2:{ destruct b as [b|e]; [by destruct Hf as [[? ?] _]|]. injection H as <- <- <-. split; [done|]. right. by eapply faulted_err. }
  destruct (q c) as [batch|err]; [|injection H as <- <- <-; auto].
  unfold mbind at 1, Q_bind, lift in H. destruct (process_batch _ _ _) as [[seen' acc']|err]; [|injection H as <- <- <-; auto].
  destruct (_ || _); [injection H as <- <- <-; auto|]. by apply IH in H.
Qed.
End Loop.

(** *** Packages and remotes of the servers of a page *)

Lemma foldl_append {P} (id_of : P -> uuid) (l : list P) vid :
  default [] (foldl (fun m p => append_package m (id_of p) p) ∅ l !! vid) = List.filter (fun p => (id_of p =? vid)%nat) l.
Proof.
  assert (E : forall m, foldl (fun m p => append_package m (id_of p) p) m l =
              foldl (fun m p => append_package m (fst p) (snd p)) m ((fun p => (id_of p, p)) <$> l)).
  { induction l as [|p l IH]; intros m; [done|]. cbn. by rewrite IH. }
  rewrite E, (append_packages (fun p => p)), lookup_empty. clear E. cbn [default].
  induction l as [|p l IH]; [done|]. cbn in *. destruct (id_of p =? vid)%nat; cbn; [f_equal|]; exact IH.
Qed.

Definition server_packages (vid : uuid) (d : DB) : list ListServerPackagesRow :=
  List.filter (fun p => (pr_ServerID p =? vid)%nat) (package_row_of <$> map_to_list (d_package d)).
Definition server_remotes (vid : uuid) (d : DB) : list McpServerRemote :=
  List.filter (fun r => (rr_ServerID r =? vid)%nat) (remote_row_of <$> map_to_list (d_remote d)).

(** A value of the API for a row: its packages by falling version, its remotes
    by transport and URL. *)
Definition reads_as (d : DB) (h : helper) (r : result ServerJSON) : Prop :=
  exists packages remotes,
    packages ≡ₚ server_packages (h_ID h) d /\ StronglySorted pkg_le packages /\
    remotes ≡ₚ server_remotes (h_ID h) d /\ StronglySorted remote_le remotes /\
    r = helperToServer h packages remotes.

#[local] Instance pkg_total : Total pkg_le.
Proof. intros a b. unfold pkg_le. destruct (total coll_le (pa_version (pr_row a)) (pa_version (pr_row b))); auto. Qed.
#[local] Instance pkg_trans : Transitive pkg_le.
Proof. intros a b c. unfold pkg_le. intros H1 H2. by etrans. Qed.
#[local] Instance remote_total : Total remote_le.
Proof.
  intros a b. unfold remote_le, coll_lt. destruct (decide (rr_Transport a = rr_Transport b)) as [E|E].
  - rewrite E. destruct (total coll_le (rr_TransportUrl a) (rr_TransportUrl b)); auto.
  - destruct (total coll_le (rr_Transport a) (rr_Transport b)); auto 10.
Qed.
#[local] Instance remote_trans : Transitive remote_le.
Proof.
  intros a b c. unfold remote_le. intros [H1|[E1 H1]] [H2|[E2 H2]].
  - left. by eapply coll_lt_trans.
  - left. by rewrite <-E2.
  - left. by rewrite E1.
  - right. split; [congruence|by etrans].
Qed.

Lemma filter_sorted {A} (R : relation A) (p : A -> bool) l : StronglySorted R l -> StronglySorted R (List.filter p l).
Proof.
  induction 1 as [|x l Hs IH Hx]; cbn; [constructor|]. destruct (p x); [|done]. constructor; [done|].
  rewrite Forall_forall in Hx |- *. intros y Hy%list_elem_of_In%filter_In. apply Hx, list_elem_of_In, Hy.
Qed.

(** What is sorted and grouped by server is what each server has, sorted. *)
Lemma grouped_rows {A} (R : relation A) `{!RelDecision R} `{!Total R} `{!Transitive R} (id_of : A -> uuid)
    (l : list A) (w : uuid -> bool) id :
  w id = true ->
  let g := List.filter (fun p => (id_of p =? id)%nat) (merge_sort R (List.filter (fun p => w (id_of p)) l)) in
  g ≡ₚ List.filter (fun p => (id_of p =? id)%nat) l /\ StronglySorted R g.
Proof.
  intros Hw g. split; [|by apply filter_sorted, (StronglySorted_merge_sort R)].
  unfold g. rewrite (merge_sort_Permutation R).
  induction l as [|x l IH]; cbn; [done|]. destruct (Nat.eqb_spec (id_of x) id) as [E|E].
  - rewrite E, Hw. cbn. rewrite (proj2 (Nat.eqb_eq _ _) E). by f_equiv.
  - destruct (w (id_of x)); cbn; [|done]. by rewrite (proj2 (Nat.eqb_neq _ _) E).
Qed.

(** *** Pages *)

Lemma ListServerPackages_answers ids d :
  answers_q (ListServerPackages ids) d (Ok (merge_sort pkg_le
    (List.filter (fun p => wanted ids d (pr_ServerID p)) (package_row_of <$> map_to_list (d_package d))))).
Proof. apply (select_answers (fun d => Ok _)). Qed.
Lemma ListServerRemotes_answers ids d :
  answers_q (ListServerRemotes ids) d (Ok (merge_sort remote_le
    (List.filter (fun r => wanted ids d (rr_ServerID r)) (remote_row_of <$> map_to_list (d_remote d))))).
Proof. apply (select_answers (fun d => Ok _)). Qed.

Lemma wanted_true ids d vid : vid ∈ ids -> is_Some (d_server d !! vid) -> wanted ids d vid = true.
Proof. intros H1 H2. unfold wanted. by rewrite !bool_decide_eq_true_2. Qed.

(** The rows of a page are rows of servers. *)
Definition stored (d : DB) (servers : list helper) : Prop := Forall (fun h => is_Some (d_server d !! h_ID h)) servers.

Lemma fetchAndMapServers_answers servers d : stored d servers ->
  exists f, (forall h, h ∈ servers -> reads_as d h (f h)) /\ answers_q (fetchAndMapServers servers) d (map_result f servers).
Proof.
  intros Hs. eexists. split.
  2:{ eapply bind_answers; [apply ListServerPackages_answers|]. eapply bind_answers; [apply ListServerRemotes_answers|].
      intros o n r n' d' H. injection H as <- <- <-. auto. }
  intros h Hh. cbv beta. rewrite (foldl_append pr_ServerID), (foldl_append rr_ServerID). unfold stored in Hs. rewrite Forall_forall in Hs.
  assert (Hw : wanted (h_ID <$> servers) d (h_ID h) = true) by (apply wanted_true; [by apply list_elem_of_fmap_2|eauto]).
  destruct (grouped_rows pkg_le pr_ServerID (package_row_of <$> map_to_list (d_package d)) _ _ Hw).
  destruct (grouped_rows remote_le rr_ServerID (remote_row_of <$> map_to_list (d_remote d)) _ _ Hw).
  eexists _, _. by split_and!.
Qed.

Lemma read_transaction_answers {A} (body : Q A) d a : answers_q body d a -> answers_q (read_transaction body) d a.
Proof.
  intros Hb o n r n' d' H. unfold read_transaction in H. destruct (o n) eqn:E.
  - injection H as <- <- <-. split; [done|]. right. by eapply faulted_intro.
  - destruct (body o (S n) d) as [[x n1] d1] eqn:Eb. injection H as <- <- <-. split; [done|].
    by apply Hb in Eb as [_ ?].
Qed.

(** A page as the API returns it. *)
Definition mapped {Cu} (f : helper -> result ServerJSON) (page : option (result (list helper * option Cu)))
    : result (option (list ServerJSON * option Cu)) :=
  match page with
  | None => Ok None
  | Some (Err e) => Err e
  | Some (Ok (servers, next)) => js <- map_result f servers ;; Ok (Some (js, next))
  end.

Lemma sharedList_answers {Cu} (cursor_of : helper -> Cu) querierFunc q limit filter_ fuel d :
  (forall c, answers_q (querierFunc c) d (q c)) ->
  let page := stream_loop cursor_of q filter_ limit fuel ∅ [] None in
  (forall servers next, page = Some (Ok (servers, next)) -> stored d servers) ->
  exists f, (forall servers next h, page = Some (Ok (servers, next)) -> h ∈ servers -> reads_as d h (f h)) /\
    answers_q (sharedListServersWithCursor fuel cursor_of querierFunc limit filter_) d (mapped f page).
Proof.
  intros Hq page Hst. pose proof (streamHelpers_q_answers cursor_of querierFunc q filter_ limit d Hq fuel ∅ [] None) as Hs.
  fold page in Hs. destruct page as [[[servers next]|e]|].
  - destruct (fetchAndMapServers_answers servers d (Hst _ _ eq_refl)) as (f & Hf & Ha). exists f.
    split; [intros ? ? h [= <- <-]; apply Hf|]. apply read_transaction_answers. eapply bind_answers; [exact Hs|]. cbn.
    intros o n r n' d' H. unfold mbind, Q_bind in H. destruct (fetchAndMapServers _ _ _ _) as [[x n1] d1] eqn:E.
    apply Ha in E as [-> [->|Hx]].
    + destruct (map_result f servers); injection H as <- <- <-; auto.
    + destruct x as [x|e]; [by destruct Hx as [[? ?] _]|]. injection H as <- <- <-. split; [done|]. right. by eapply faulted_err.
  - exists (fun h => helperToServer h [] []). split; [done|]. apply read_transaction_answers.
    intros o n r n' d' H. unfold mbind at 1, Q_bind in H. destruct (streamHelpers_q _ _ _ _ _ _ _ _ _ _ _) as [[x n1] d1] eqn:E.
    apply Hs in E as [-> [->|Hx]]; cbn in H; [injection H as <- <- <-; auto|].
    destruct x as [x|e']; [by destruct Hx as [[? ?] _]|]. injection H as <- <- <-. split; [done|]. right. by eapply faulted_err.
  - exists (fun h => helperToServer h [] []). split; [done|]. apply read_transaction_answers. eapply bind_answers; [exact Hs|].
    intros o n r n' d' H. injection H as <- <- <-. auto.
Qed.


Lemma map_result_ok {A B} (f : A -> result B) l ys :
  map_result f l = Ok ys -> Forall2 (fun x y => f x = Ok y) l ys.
Proof.
  revert ys. induction l as [|x l IH]; intros ys H; cbn in H; [injection H as <-; constructor|].
  unfold rbind in H. destruct (f x) as [y|] eqn:Ex; [|done]. destruct (map_result f l) as [zs|]; [|done].
  injection H as <-. constructor; auto.
Qed.

Lemma map_result_err {A B} (f : A -> result B) l e : map_result f l = Err e -> exists x, x ∈ l /\ f x = Err e.
Proof.
  induction l as [|x l IH]; intros H; cbn in H; [done|]. unfold rbind in H. destruct (f x) as [y|] eqn:Ex.
  - destruct (map_result f l) as [zs|]; [done|]. injection H as <-. destruct IH as (z & ? & ?); [done|].
    exists z. split; [by apply elem_of_cons; right|done].
  - exists x. split; [apply elem_of_cons; by left|congruence].
Qed.

(** A row whose metadata column does not hold a JSON object. *)
Definition unreadable (h : helper) : Prop :=
  let data := se_server_meta (sc_row (h_columns h)) in data <> "" /\ meta_Unmarshal data = None.

Lemma helperToServer_err h packages remotes e : helperToServer h packages remotes = Err e -> unreadable h.
Proof.
  unfold helperToServer, unreadable, or_err, rbind. destruct (Nat.ltb_spec 0 (len (se_server_meta (sc_row (h_columns h))))); [|done].
  destruct (meta_Unmarshal _); [done|]. intros _. split; [|done]. intros E. rewrite E in *. cbn in *. lia.
Qed.

Lemma map_reads d f page js : (forall h, h ∈ page -> reads_as d h (f h)) -> map_result f page = Ok js ->
  Forall2 (fun h x => reads_as d h (Ok x)) page js.
Proof.
  intros Hf H%map_result_ok. induction H as [|h x page js Hx _ IH]; constructor.
  - rewrite <-Hx. apply Hf, elem_of_cons. by left.
  - apply IH. intros h' Hh'. apply Hf, elem_of_cons. by right.
Qed.

Lemma map_unreadable d f page e : (forall h, h ∈ page -> reads_as d h (f h)) -> map_result f page = Err e ->
  exists h, h ∈ page /\ unreadable h.
Proof.
  intros Hf (h & Hh & He)%map_result_err. exists h. split; [done|]. destruct (Hf h Hh) as (p & r & _ & _ & _ & _ & E).
  rewrite He in E. by eapply helperToServer_err.
Qed.

Section Shared.
Context {Cu : Type} (cursor_of : helper -> Cu) (querierFunc : option Cu -> Q (list helper)).
Context (q : option Cu -> result (list helper)) (filter_ : RecordFilter helper) (limit fuel : nat) (d : DB).
Hypothesis Hq : forall c, answers_q (querierFunc c) d (q c).

(** What becomes of a page the loop made, and of an error of the loop. *)
Lemma shared_page page next o n r n' d' :
  stream_loop cursor_of q filter_ limit fuel ∅ [] None = Some (Ok (page, next)) -> stored d page ->
  sharedListServersWithCursor fuel cursor_of querierFunc limit filter_ o n d = (r, n', d') ->
  d' = d /\ ((exists js, r = Ok (Some (js, next)) /\ Forall2 (fun h x => reads_as d h (Ok x)) page js) \/
             (exists e, r = Err e /\ ((forall k, o k = None) -> exists h, h ∈ page /\ unreadable h))).
Proof using Hq.
  intros Hp Hst H. destruct (sharedList_answers cursor_of querierFunc q limit filter_ fuel d Hq) as (f & Hreads & Hans).
  { intros servers nx E. rewrite Hp in E. by injection E as <- <-. }
  rewrite Hp in Hreads, Hans. pose proof (Hans _ _ _ _ _ H) as [E Hx]. split; [done|]. clear E H. rename Hx into H. cbn in H. unfold rbind in H.
  destruct (map_result f page) as [js|e] eqn:Em.
  - destruct H as [->|[[e ->] [k Hk]]]; [left|right].
    + exists js. split; [done|]. eapply map_reads; [|exact Em]. intros h Hh. by eapply Hreads.
    + exists e. split; [done|]. intros Ho. by rewrite Ho in Hk.
  - right. assert (exists e', r = Err e') as [e' ->] by (destruct H as [->|[? _]]; eauto). exists e'. split; [done|].
    intros _. eapply map_unreadable; [|exact Em]. intros h Hh. by eapply Hreads.
Qed.

Lemma shared_error e o n r n' d' :
  stream_loop cursor_of q filter_ limit fuel ∅ [] None = Some (Err e) ->
  sharedListServersWithCursor fuel cursor_of querierFunc limit filter_ o n d = (r, n', d') ->
  d' = d /\ exists e', r = Err e' /\ ((forall k, o k = None) -> e' = e).
Proof using Hq.
  intros Hp H. destruct (sharedList_answers cursor_of querierFunc q limit filter_ fuel d Hq) as (f & _ & Hans);
    [by rewrite Hp|]. rewrite Hp in Hans. pose proof (Hans _ _ _ _ _ H) as [E Hx]. split; [done|]. destruct Hx as [->|[[e' ->] [k Hk]]]; [eauto|].
  exists e'. split; [done|]. intros Ho. by rewrite Ho in Hk.
Qed.
End Shared.

(** ** Rows of a registry *)

Lemma join_servers_elem position_of d v h : (v, h) ∈ join_servers position_of d <->
  exists sid ty name e w row position,
    position_of sid = Some position /\ d_entry d !! (sid, ty, name) = Some e /\
    d_version d !! (en_id e, w) = Some v /\ d_server d !! ve_id v = Some row /\
    h = {| h_ID := ve_id v; h_Name := name; h_Version := w; h_Claims := en_claims e; h_SourceID := sid;
           h_Position := position; h_columns := columns v row d |}.
Proof.
  unfold join_servers. rewrite list_elem_of_bind. split.
  - intros ([[[sid ty] name] e] & Hj & He%elem_of_map_to_list). destruct (position_of sid) as [position|] eqn:Ep; [|by apply elem_of_nil in Hj].
    apply list_elem_of_omap in Hj as ([w r] & Hr%elem_of_entry_versions & E).
    destruct (d_server d !! ve_id r) as [row|] eqn:Es; [|done]. injection E as <- <-. by exists sid, ty, name, e, w, row, position.
  - intros (sid & ty & name & e & w & row & position & Hp & He & Hv & Hrow & ->). exists ((sid, ty, name), e).
    split; [|by apply elem_of_map_to_list]. rewrite Hp. apply list_elem_of_omap. exists (w, v).
    split; [by apply elem_of_entry_versions|]. by rewrite Hrow.
Qed.

Lemma join_stored position_of d p : p ∈ join_servers position_of d -> is_Some (d_server d !! h_ID (snd p)).
Proof. destruct p as [v h]. intros (? & ? & ? & ? & ? & ? & ? & _ & _ & _ & H & ->)%join_servers_elem. by eexists. Qed.

Lemma ordered_rows_in where_ d rid h :
  h ∈ ordered_rows where_ d rid -> h ∈ registry_rows d rid /\ where_ h = true /\ is_Some (d_server d !! h_ID h).
Proof.
  unfold ordered_rows. rewrite merge_sort_Permutation. intros [Hh Hw]%list_elem_of_In%filter_In. apply list_elem_of_In in Hh.
  split_and!; [done..|]. apply list_elem_of_fmap in Hh as (p & -> & Hp). by apply join_stored in Hp.
Qed.

Lemma visible_rows_stored where_ d rid filter_ page :
  Forall (fun h => h ∈ ordered_rows where_ d rid /\ visible filter_ h = true) page -> stored d page.
Proof. intros H. eapply Forall_impl; [exact H|]. intros h [Hh _]. by apply ordered_rows_in in Hh as (_ & _ & ?). Qed.
End Runs.

(** ** Listing *)

Section Listing.
Context `{RC : ServerReadCodec} `{C : JsonCodec} `{Co : Collation} `{SQ : SqlConditions}.

(** The caller may read the registry. *)
Definition registry_open (s : dbService) (ctx : Ctx) (name : string) (cs : option claims) (d : DB) (rg : RegistryRow) : Prop :=
  d_registry d !! name = Some rg /\ validateClaimsVisibleBytes ctx (gate s cs) (rg_claims rg) = Ok ().

(** Why a read of a registry is refused before its rows are looked at. *)
Definition refused (s : dbService) (ctx : Ctx) (name : string) (cs : option claims) (d : DB) (err : error) : Prop :=
  name = "" \/ d_registry d !! name = None \/
  exists rg, d_registry d !! name = Some rg /\ validateClaimsVisibleBytes ctx (gate s cs) (rg_claims rg) = Err err.

(** The registry gate in front of a read. *)
Lemma gated_read {A} s ctx name cs (body : uuid -> Q A) o n d res n' d' :
  (if String.eqb name "" then fail (EMsg "registry name is required")
   else rid ← lookupRegistryIDWithGate ctx name (gate s cs); body rid) o n d = (res, n', d') ->
  (exists rg n1, registry_open s ctx name cs d rg /\ body (rg_id rg) o n1 d = (res, n', d')) \/
  (d' = d /\ exists err, res = Err err /\ ((forall k, o k = None) -> refused s ctx name cs d err)).
Proof.
  intros H. unfold refused. destruct (String.eqb_spec name "") as [->|_].
  { injection H as <- <- <-. right. split; [done|]. eexists. split; [done|]. by left. }
  unfold mbind, Q_bind in H. destruct (lookupRegistryIDWithGate _ _ _ _ _ _) as [[[rid|err] n1] d1] eqn:El.
  - apply lookupGate_ok in El as (-> & rg & Hrg & <- & Hgate). left. exists rg, n1. by split; [split|].
  - injection H as <- <- <-. apply lookupGate_err in El as [-> Herr]. right. split; [done|]. exists err. split; [done|].
    intros Ho. right. by apply Herr.
Qed.

Lemma ListServers_rows_answers p rid c size d :
  answers_q (ListServers_rows p rid c size) d (Ok (ListServersQuery (ordered_rows (list_conditions p) d rid) c size)).
Proof. apply (select_answers (fun d => Ok _)). Qed.

Definition next_cursor (next : option serverCursor) : string :=
  match next with Some c => EncodeCursor (fst c) (snd c) | None => "" end.

(** C29. Listing servers.  It never changes the database and, with more fuel than
    the registry has matching rows, it answers: the caller passed the registry's
    claim gate, the page is the one the batch loop makes of the matching rows
    from the decoded cursor on, at most the limit (and at most 1000) long, every
    row is one of the registry that meets the conditions and that the caller's
    claims admit, and the servers returned are those rows in that order, each
    with its own packages and remotes.  Without database faults an error means a
    missing or closed registry, a bad cursor, or a row with unreadable
    metadata. *)
Theorem ListServers_correct fuel s ctx opts o n d res n' d' :
  (forall rg, d_registry d !! lo_RegistryName opts = Some rg ->
     List.length (ordered_rows (list_conditions (list_params opts)) d (rg_id rg)) < fuel)%nat ->
  ListServers fuel s ctx opts o n d = (res, n', d') ->
  d' = d /\
  match res with
  | Ok r => exists rg start page next servers,
      registry_open s ctx (lo_RegistryName opts) (lo_Claims opts) d rg /\
      start_cursor (lo_Cursor opts) = Ok start /\
      page_from (ordered_rows (list_conditions (list_params opts)) d (rg_id rg))
        (claims_filter (sv_skipAuthz s) ctx (lo_Claims opts)) (Nat.min (lo_Limit opts) MaxPageSize) fuel start
        = Some (Ok (page, next)) /\
      (List.length page <= Nat.min (lo_Limit opts) MaxPageSize)%nat /\
      Forall (fun h => h ∈ registry_rows d (rg_id rg) /\ list_conditions (list_params opts) h = true /\
                       visible (claims_filter (sv_skipAuthz s) ctx (lo_Claims opts)) h = true) page /\
      r = Some (servers, next_cursor next) /\ Forall2 (fun h x => reads_as d h (Ok x)) page servers
  | Err err => (forall k, o k = None) ->
      refused s ctx (lo_RegistryName opts) (lo_Claims opts) d err \/
      start_cursor (lo_Cursor opts) = Err err \/
      exists rg h, d_registry d !! lo_RegistryName opts = Some rg /\ h ∈ registry_rows d (rg_id rg) /\ unreadable h
  end.
Proof.
  intros Hf H. apply gated_read in H as [(rg & n1 & Hopen & H)|(-> & err & -> & Hr)].
  2:{ split; [done|]. intros Ho. left. by apply Hr. }
  pose proof Hopen as [Hrg _]. unfold mbind at 1, Q_bind, lift in H. destruct (start_cursor _) as [start|err] eqn:Est.
  2:{ injection H as <- <- <-. split; [done|]. auto. }
  set (rows := ordered_rows (list_conditions (list_params opts)) d (rg_id rg)) in *.
  set (limit := Nat.min _ _) in *. set (flt := claims_filter _ _ _) in *.
  destruct (page_from_sound rows flt limit fuel start) as ([page next] & Hp & Hl & Hv);
    [apply claims_filter_total|by apply Hf|].
  unfold mbind, Q_bind in H. destruct (sharedListServersWithCursor _ _ _ _ _ _ _ _) as [[x n2] d2] eqn:Esh.
  destruct (shared_page key _ _ _ _ _ _
    (fun c => ListServers_rows_answers (list_params opts) (rg_id rg) (match c with Some c => Some c | None => start end) (limit + 1) d)
    page next _ _ _ _ _ Hp (visible_rows_stored _ _ _ _ _ Hv) Esh) as (-> & [(js & -> & Hjs)|(e & -> & Hun)]).
  - injection H as <- <- <-. split; [done|]. exists rg, start, page, next, js. split_and!; try done.
    eapply Forall_impl; [exact Hv|]. intros h [Hh Hvis]. by apply ordered_rows_in in Hh as (? & ? & _).
  - injection H as <- <- <-. split; [done|]. intros Ho. destruct (Hun Ho) as (h & Hh & Hu). right; right. exists rg, h.
    split_and!; [done| |done]. rewrite Forall_forall in Hv. destruct (Hv h Hh) as [Hin _]. by apply ordered_rows_in in Hin as [? _].
Qed.

(** The versions of one server: the rows of the name, up to the limit, then the
    claims filter, then one source. *)
Definition version_page (s : dbService) (ctx : Ctx) (opts : ListServerVersionsOptions) (rid : uuid) (d : DB) : list helper :=
  fst (dedup ∅ (List.filter (visible (claims_filter (sv_skipAuthz s) ctx (vo_Claims opts)))
    (take (Nat.min (vo_Limit opts) MaxPageSize) (ordered_rows (list_conditions (version_params opts)) d rid)))).

(** One batch smaller than a page ends the loop. *)
Lemma stream_one_batch {Cu} (cursor_of : helper -> Cu) q filter_ fuel batch :
  total_filter filter_ -> q None = Ok batch -> (List.length batch <= MaxPageSize)%nat ->
  stream_loop cursor_of q filter_ MaxPageSize (S fuel) ∅ [] None =
  Some (Ok (fst (dedup ∅ (List.filter (visible filter_) batch)), None)).
Proof.
  intros Ht Hb Hl. cbn [stream_loop]. rewrite Hb, process_batch_spec by done.
  pose proof (dedup_sublist ∅ (List.filter (visible filter_) batch)) as Hs%sublist_length.
  pose proof (filter_length_le_all (visible filter_) batch).
  destruct (dedup ∅ _) as [r sn]. cbn [fst app] in *. rewrite orb_true_intro; [|right; apply Nat.ltb_lt; lia].
  unfold finish_page. by rewrite (proj2 (Nat.ltb_ge MaxPageSize (List.length r))) by lia.
Qed.

Lemma version_page_in s ctx opts rid d h : h ∈ version_page s ctx opts rid d ->
  h ∈ ordered_rows (list_conditions (version_params opts)) d rid /\ visible (claims_filter (sv_skipAuthz s) ctx (vo_Claims opts)) h = true.
Proof.
  intros Hh. unfold version_page in Hh. eapply elem_of_sublist in Hh; [|apply dedup_sublist].
  apply list_elem_of_In, filter_In in Hh as [Hh Hv]. split; [|done].
  apply list_elem_of_In, elem_of_take in Hh as (i & Hi & _). by eapply list_elem_of_lookup_2.
Qed.

Lemma version_page_stored s ctx opts rid d : stored d (version_page s ctx opts rid d).
Proof. apply Forall_forall. intros h [Hh _]%version_page_in. by apply ordered_rows_in in Hh as (_ & _ & ?). Qed.

(** Listing the versions of a server needs one round of the loop: the answer
    is, in order, what the first rows of the name up to the limit (at most 1000)
    leave after the caller's claims and the choice of one source, each with its
    packages and remotes; the registry is open to the caller and nothing is
    written.  Without database faults an error means a missing or closed
    registry or a row with unreadable metadata. *)
Lemma ListServerVersions_correct fuel s ctx opts o n d res n' d' :
  (0 < fuel)%nat -> ListServerVersions fuel s ctx opts o n d = (res, n', d') ->
  d' = d /\
  match res with
  | Ok r => exists rg servers,
      registry_open s ctx (vo_RegistryName opts) (vo_Claims opts) d rg /\
      r = Some servers /\ Forall2 (fun h x => reads_as d h (Ok x)) (version_page s ctx opts (rg_id rg) d) servers
  | Err err => (forall k, o k = None) ->
      refused s ctx (vo_RegistryName opts) (vo_Claims opts) d err \/
      exists rg h, d_registry d !! vo_RegistryName opts = Some rg /\ h ∈ version_page s ctx opts (rg_id rg) d /\ unreadable h
  end.
Proof.
  intros Hf H. destruct fuel as [|fuel]; [lia|]. apply gated_read in H as [(rg & n1 & Hopen & H)|(-> & err & -> & Hr)].
  2:{ split; [done|]. intros Ho. left. by apply Hr. }
  unfold sharedListServers, mbind, Q_bind in H. destruct (sharedListServersWithCursor _ _ _ _ _ _ _ _) as [[x n2] d2] eqn:Esh.
  assert (Hp : stream_loop key (fun _ => Ok (ListServersQuery (ordered_rows (list_conditions (version_params opts)) d (rg_id rg)) None
      (Nat.min (vo_Limit opts) MaxPageSize))) (claims_filter (sv_skipAuthz s) ctx (vo_Claims opts)) MaxPageSize (S fuel) ∅ [] None
    = Some (Ok (version_page s ctx opts (rg_id rg) d, None))).
  { apply stream_one_batch; [apply claims_filter_total|unfold ListServersQuery; by rewrite filter_after_none|].
    rewrite length_take. lia. }
  destruct (shared_page key _ _ _ _ _ _
    (fun _ => ListServers_rows_answers (version_params opts) (rg_id rg) None (Nat.min (vo_Limit opts) MaxPageSize) d)
    _ _ _ _ _ _ _ Hp (version_page_stored s ctx opts (rg_id rg) d) Esh) as (-> & [(js & -> & Hjs)|(e & -> & Hun)]).
  - injection H as <- <- <-. split; [done|]. by exists rg, js.
  - injection H as <- <- <-. split; [done|]. intros Ho. destruct (Hun Ho) as (h & Hh & Hu). right. exists rg, h.
    by destruct Hopen.
Qed.

End Listing.

(** ** Reading one version *)

#[local] Instance source_total : Total source_le.
Proof. intros a b. unfold source_le. lia. Qed.
#[local] Instance source_trans : Transitive source_le.
Proof. intros a b c. unfold source_le. lia. Qed.

(** Among rows of one name the filter keeps the first source's. *)
Lemma dedup_one_name name p l : Forall (fun h => h_Name h = name) l ->
  fst (dedup {[ name := p ]} l) = List.filter (fun h => (h_Position h =? p)%Z) l.
Proof.
  induction 1 as [|h l Hn _ IH]; [done|]. cbn. unfold dedupFilter. rewrite Hn, lookup_singleton_eq.
  destruct (dedup {[ name := p ]} l) as [r sn]. cbn in *. rewrite IH.
  destruct (Z.eqb_spec (h_Position h) p); [rewrite bool_decide_eq_true_2|rewrite bool_decide_eq_false_2]; done.
Qed.

Lemma dedup_first name h l : Forall (fun h => h_Name h = name) (h :: l) ->
  fst (dedup ∅ (h :: l)) = List.filter (fun x => (h_Position x =? h_Position h)%Z) (h :: l).
Proof.
  intros [Hn Hl]%Forall_cons. cbn. unfold dedupFilter. rewrite lookup_empty, Hn, insert_empty, Z.eqb_refl.
  pose proof (dedup_one_name name (h_Position h) l Hl) as E. destruct (dedup _ l) as [r sn]. cbn in *. by rewrite E.
Qed.

Lemma filter_filter {A} (p q : A -> bool) l : List.filter p (List.filter q l) = List.filter (fun x => q x && p x) l.
Proof.
  induction l as [|x l IH]; [done|]. cbn. destruct (q x); cbn; [|exact IH]. destruct (p x); by rewrite IH.
Qed.

(** The page of the candidates of one name: the visible ones of the least
    position, if any is visible. *)
Lemma least_visible (vis : helper -> bool) name cands : Forall (fun h => h_Name h = name) cands ->
  match fst (dedup ∅ (List.filter vis (merge_sort source_le cands))) with
  | [] => forall h, h ∈ cands -> vis h = false
  | h :: page => h ∈ cands /\ vis h = true /\ (forall x, x ∈ cands -> vis x = true -> (h_Position h <= h_Position x)%Z) /\
      h :: page ≡ₚ List.filter (fun x => vis x && (h_Position x =? h_Position h)%Z) cands
  end.
Proof.
  intros Hn. set (l := List.filter vis (merge_sort source_le cands)).
  assert (Hl : forall x, x ∈ l <-> x ∈ cands /\ vis x = true).
  { intros x. unfold l. by rewrite list_elem_of_In, filter_In, <-list_elem_of_In, (merge_sort_Permutation source_le). }
  assert (Hs : StronglySorted source_le l) by (by apply filter_sorted, (StronglySorted_merge_sort source_le)).
  destruct l as [|h l'] eqn:El.
  { cbn. intros h Hh. apply not_true_is_false. intros Hv. by apply (not_elem_of_nil h), Hl. }
  assert (Hln : Forall (fun h => h_Name h = name) (h :: l')).
  { apply Forall_forall. intros x [Hx _]%Hl. rewrite Forall_forall in Hn. by apply Hn. }
  rewrite (dedup_first name) by done. cbn. rewrite Z.eqb_refl.
  destruct (proj1 (Hl h)) as [Hin Hvis]; [apply elem_of_cons; by left|]. split_and!; [done..| |].
  - intros x Hx Hv. destruct (proj1 (elem_of_cons l' x h)) as [->|Hx']; [by apply Hl|done|].
    apply StronglySorted_inv in Hs as [_ Hs]. pose proof (proj1 (List.Forall_forall _ _) Hs x (proj1 (list_elem_of_In _ _) Hx')).
    unfold source_le in *. lia.
  - rewrite <-(filter_filter (fun x => (h_Position x =? h_Position h)%Z) vis), <-(merge_sort_Permutation source_le cands).
    fold l. rewrite El. cbn. by rewrite Z.eqb_refl.
Qed.


Section Reading.
Context `{RC : ServerReadCodec} `{C : JsonCodec} `{Co : Collation}.

Definition request_candidates (opts : GetServerVersionOptions) (rid : uuid) (d : DB) : list helper :=
  server_candidates rid (gso_Name opts) (gso_Version opts) (gso_SourceName opts) d.

Lemma candidates_in opts rid d h : wf_core d -> h ∈ request_candidates opts rid d ->
  h_Name h = gso_Name opts /\ is_Some (d_server d !! h_ID h).
Proof.
  intros Hwf ([v h'] & -> & Hh)%list_elem_of_fmap. apply list_elem_of_In, filter_In in Hh as [Hh%list_elem_of_In Hm].
  split; [|by apply join_stored in Hh]. apply join_servers_elem in Hh as (sid & ty & name & e & w & row & p & _ & He & Hv & _ & ->).
  apply andb_true_iff in Hm as [[Hm%String.eqb_eq _]%andb_true_iff _]. cbn. by rewrite <-(version_name _ _ _ _ _ _ _ Hwf He Hv).
Qed.

Lemma row_copied (l : list helper) : getServerVersionRowToHelper <$> l = l.
Proof. induction l as [|[] l IH]; cbn; [done|by rewrite IH]. Qed.

(** The answer of the query at the start of the loop. *)
Definition first_batch (opts : GetServerVersionOptions) (rid : uuid) (d : DB) (cursor : option priorityCursor) : result (list helper) :=
  let servers := take (MaxPageSize + 1) (List.filter (after_source cursor) (merge_sort source_le (request_candidates opts rid d))) in
  if (List.length servers =? 0)%nat then Err (EWrap ErrNotFound "%s %s") else Ok servers.

Lemma first_batch_answers opts rid d c :
  answers_q (servers ← GetServerVersion_rows rid (gso_Name opts) (gso_Version opts) (gso_SourceName opts) c (MaxPageSize + 1);
             if (List.length servers =? 0)%nat then fail (EWrap ErrNotFound "%s %s")
             else mret (getServerVersionRowToHelper <$> servers)) d
    (first_batch opts rid d c).
Proof.
  eapply bind_answers; [apply (select_answers (fun d => Ok _))|]. intros o n r n' d' H. unfold first_batch, request_candidates.
  rewrite row_copied in H.
  destruct (_ =? 0)%nat; injection H as <- <- <-; auto.
Qed.

(** The loop on fewer candidates than a page holds. *)
Lemma get_page opts rid d flt fuel : total_filter flt -> (List.length (request_candidates opts rid d) <= MaxPageSize)%nat ->
  stream_loop priority (first_batch opts rid d) flt MaxPageSize (S fuel) ∅ [] None =
  if decide (request_candidates opts rid d = []) then Some (Err (EWrap ErrNotFound "%s %s"))
  else Some (Ok (fst (dedup ∅ (List.filter (visible flt) (merge_sort source_le (request_candidates opts rid d)))), None)).
Proof.
  intros Ht Hl. set (cands := request_candidates opts rid d) in *.
  assert (Hb : take (MaxPageSize + 1) (List.filter (after_source None) (merge_sort source_le cands)) = merge_sort source_le cands).
  { rewrite (List.forallb_filter_id (after_source None)) by (by apply forallb_forall). apply take_ge.
    rewrite (merge_sort_Permutation source_le). lia. }
  destruct (decide (cands = [])) as [Ec|Ec].
  - cbn [stream_loop]. unfold first_batch. fold cands. by rewrite Hb, Ec.
  - apply stream_one_batch; [done| |by rewrite (merge_sort_Permutation source_le)].
    unfold first_batch. fold cands. rewrite Hb. destruct (Nat.eqb_spec (List.length (merge_sort source_le cands)) 0) as [E|]; [|done].
    rewrite (merge_sort_Permutation source_le) in E. by apply nil_length_inv in E.
Qed.

(** C30. Reading one version of a server, from a registry with at most 1000
    candidate rows: the server returned is the row of the name and version (or
    the latest) that the caller's claims admit and whose source has the least
    position, the only one there, with its packages and remotes, from a registry
    open to the caller.  Nothing is written.  Without database faults an error
    means a missing or closed registry, not-found with no candidate visible, the
    internal error with two visible rows at the least position, or unreadable
    metadata of a visible row. *)
Theorem GetServerVersion_correct fuel s ctx opts o n d res n' d' :
  (0 < fuel)%nat -> wf_core d ->
  (forall rg, d_registry d !! gso_RegistryName opts = Some rg ->
     List.length (request_candidates opts (rg_id rg) d) <= MaxPageSize)%nat ->
  GetServerVersion fuel s ctx opts o n d = (res, n', d') ->
  let vis := visible (claims_filter (sv_skipAuthz s) ctx (gso_Claims opts)) in
  d' = d /\
  match res with
  | Ok r => exists rg h x,
      registry_open s ctx (gso_RegistryName opts) (gso_Claims opts) d rg /\ r = Some x /\
      h ∈ request_candidates opts (rg_id rg) d /\ vis h = true /\
      (forall h', h' ∈ request_candidates opts (rg_id rg) d -> vis h' = true -> h' = h \/ (h_Position h < h_Position h')%Z) /\
      reads_as d h (Ok x)
  | Err err => (forall k, o k = None) ->
      refused s ctx (gso_RegistryName opts) (gso_Claims opts) d err \/
      exists rg, d_registry d !! gso_RegistryName opts = Some rg /\
        (errorIs err ErrNotFound = true /\ (forall h, h ∈ request_candidates opts (rg_id rg) d -> vis h = false) \/
         errorIs err ErrBug = true /\
           (exists p, 2 <= List.length (List.filter (fun h => vis h && (h_Position h =? p)%Z) (request_candidates opts (rg_id rg) d)))%nat \/
         exists h, h ∈ request_candidates opts (rg_id rg) d /\ vis h = true /\ unreadable h)
  end.
Proof.
  intros Hf Hwf Hsize H vis. destruct fuel as [|fuel]; [lia|]. apply gated_read in H as [(rg & n1 & Hopen & H)|(-> & err & -> & Hr)].
  2:{ split; [done|]. intros Ho. left. by apply Hr. }
  pose proof Hopen as [Hrg _]. specialize (Hsize rg Hrg). set (flt := claims_filter _ _ _) in *.
  pose proof (get_page opts (rg_id rg) d flt fuel (claims_filter_total _ _ _) Hsize) as Hp.
  pose proof (least_visible vis (gso_Name opts) (request_candidates opts (rg_id rg) d)) as Hleast.
  set (cands := request_candidates opts (rg_id rg) d) in *. fold vis in Hp.
  unfold sharedListServers, mbind at 1 2, Q_bind in H. destruct (sharedListServersWithCursor _ _ _ _ _ _ _ _) as [[x n2] d2] eqn:Esh.
  destruct (decide (cands = [])) as [Ec|Ec].
  { destruct (shared_error priority _ _ _ _ _ _ (first_batch_answers opts (rg_id rg) d) _ _ _ _ _ _ Hp Esh) as (-> & e & -> & He).
    injection H as <- <- <-. split; [done|]. intros Ho. right. exists rg. split; [done|]. left. rewrite (He Ho).
    split; [done|]. fold cands; rewrite Ec. by intros h ?%not_elem_of_nil. }
  set (page := fst (dedup ∅ _)) in *.
  assert (Hpage : forall h, h ∈ page -> h ∈ cands /\ vis h = true).
  { intros h Hh. eapply elem_of_sublist in Hh; [|apply dedup_sublist]. apply list_elem_of_In, filter_In in Hh as [Hh Hv].
    split; [|done]. by apply list_elem_of_In in Hh; rewrite (merge_sort_Permutation source_le) in Hh. }
  assert (Hst : stored d page).
  { apply Forall_forall. intros h [Hh _]%Hpage. by eapply candidates_in. }
  destruct (shared_page priority _ _ _ _ _ _ (first_batch_answers opts (rg_id rg) d) _ _ _ _ _ _ _ Hp Hst Esh)
    as (-> & [(js & -> & Hjs)|(e & -> & Hun)]).
  2:{ injection H as <- <- <-. split; [done|]. intros Ho. destruct (Hun Ho) as (h & Hh & Hu). right. exists rg. split; [done|].
      right; right. exists h. by destruct (Hpage h Hh). }
  destruct page as [|h page'].
  - apply Forall2_nil_inv_l in Hjs as ->. injection H as <- <- <-. split; [done|]. intros Ho. right. exists rg. split; [done|].
    left. split; [done|]. apply Hleast. apply Forall_forall. intros h Hh. by eapply candidates_in.
  - apply Forall2_cons_inv_l in Hjs as (x & js' & Hx & Hjs & ->).
    destruct Hleast as (Hin & Hv & Hmin & Hperm); [apply Forall_forall; intros y Hy; by eapply candidates_in|].
    destruct page' as [|h2 page'].
    + apply Forall2_nil_inv_l in Hjs as ->. injection H as <- <- <-. split; [done|]. exists rg, h, x. split_and!; try done.
      intros h' Hh' Hv'. destruct (Z.eq_dec (h_Position h') (h_Position h)) as [E|E]; [|right; pose proof (Hmin h' Hh' Hv'); lia].
      left. apply list_elem_of_singleton. rewrite Hperm. apply list_elem_of_In, filter_In. rewrite <-list_elem_of_In.
      split; [done|]. by rewrite Hv', E, Z.eqb_refl.
    + apply Forall2_cons_inv_l in Hjs as (x2 & js2 & _ & _ & ->). injection H as <- <- <-. split; [done|]. intros Ho. right.
      exists rg. split; [done|]. right; left. split; [done|]. exists (h_Position h). fold cands. rewrite <-Hperm. cbn. lia.
Qed.
End Reading.


(** ** What is published reads back *)

Section Content.
Context `{SC : ServerCodec} `{C : JsonCodec} `{L : SemverLib}.

(** The row a package or a remote is stored as. *)
Definition stored_package (vid : uuid) (pkg : Package) (row : ListServerPackagesRow) : Prop :=
  exists env headers rargs pargs,
    serializeKeyValueInputs (pk_EnvironmentVariables pkg) = Ok env /\
    serializeKeyValueInputs (tr_Headers (pk_Transport pkg)) = Ok headers /\
    SerializeArguments (pk_RuntimeArguments pkg) = Ok rargs /\
    SerializeArguments (pk_PackageArguments pkg) = Ok pargs /\
    row = {| pr_ServerID := vid; pr_RegistryType := pk_RegistryType pkg; pr_PkgIdentifier := pk_Identifier pkg;
             pr_Transport := tr_Type (pk_Transport pkg);
             pr_row := {| pa_registry_url := pk_RegistryBaseURL pkg; pa_version := pk_Version pkg;
                          pa_runtime_hint := pk_RunTimeHint pkg; pa_runtime_arguments := rargs;
                          pa_package_arguments := pargs; pa_env_vars := env; pa_sha256 := pk_FileSHA256 pkg;
                          pa_transport_url := tr_URL (pk_Transport pkg); pa_transport_headers := headers |} |}.
Definition stored_remote (vid : uuid) (t : Transport) (row : McpServerRemote) : Prop :=
  exists headers, serializeKeyValueInputs (tr_Headers t) = Ok headers /\
    row = {| rr_ServerID := vid; rr_Transport := tr_Type t; rr_TransportUrl := tr_URL t; rr_TransportHeaders := headers |}.

Lemma server_packages_insert vid a b c row d m : d_package d !! (vid, a, b, c) = None ->
  d_package m = <[(vid, a, b, c) := row]> (d_package d) ->
  server_packages vid m ≡ₚ package_row_of ((vid, a, b, c), row) :: server_packages vid d.
Proof.
  intros Hn Hm. unfold server_packages. rewrite Hm, map_to_list_insert by done. cbn. by rewrite Nat.eqb_refl.
Qed.
Lemma server_remotes_insert vid a b h d m : d_remote d !! (vid, a, b) = None ->
  d_remote m = <[(vid, a, b) := h]> (d_remote d) ->
  server_remotes vid m ≡ₚ remote_row_of ((vid, a, b), h) :: server_remotes vid d.
Proof.
  intros Hn Hm. unfold server_remotes. rewrite Hm, map_to_list_insert by done. cbn. by rewrite Nat.eqb_refl.
Qed.

Lemma insertServerPackages_rows vid l o n d n' d' : insertServerPackages vid l o n d = (Ok (), n', d') ->
  d_remote d' = d_remote d /\
  exists rows, Forall2 (stored_package vid) l rows /\ server_packages vid d' ≡ₚ rows ++ server_packages vid d.
Proof.
  unfold insertServerPackages. revert n d. induction l as [|pkg l IH]; intros n d H; cbn [for_each_q] in H.
  { run_ok. split; [done|]. exists []. by split; [constructor|]. }
  bind_in H u E. lift_in E env Eenv. lift_in E hdr Ehdr. lift_in E ra Era. lift_in E pa Epa.
  apply wrapping_run_ok, query_run_ok in E. destruct (d_package d !! _) eqn:Ek; [done|]. injection E as <-.
  apply IH in H as (Hr & rows & Hrows & Hp). split; [by rewrite Hr|].
  assert (Hst : exists row, stored_package vid pkg row /\ server_packages vid d' ≡ₚ rows ++ row :: server_packages vid d).
  { eexists. split; [by exists env, hdr, ra, pa|]. rewrite Hp. f_equiv.
    by rewrite server_packages_insert by (exact Ek || reflexivity). }
  destruct Hst as (row & Hrow & Hst). exists (row :: rows). split; [by constructor|]. rewrite Hst.
  by rewrite <-(Permutation_middle rows).
Qed.

Lemma insertServerRemotes_rows vid l o n d n' d' : insertServerRemotes vid l o n d = (Ok (), n', d') ->
  d_package d' = d_package d /\
  exists rows, Forall2 (stored_remote vid) l rows /\ server_remotes vid d' ≡ₚ rows ++ server_remotes vid d.
Proof.
  unfold insertServerRemotes. revert n d. induction l as [|t l IH]; intros n d H; cbn [for_each_q] in H.
  { run_ok. split; [done|]. exists []. by split; [constructor|]. }
  bind_in H u E. lift_in E hdr Ehdr.
  apply wrapping_run_ok, query_run_ok in E. destruct (d_remote d !! _) eqn:Ek; [done|]. injection E as <-.
  apply IH in H as (Hr & rows & Hrows & Hp). split; [by rewrite Hr|].
  assert (Hst : exists row, stored_remote vid t row /\ server_remotes vid d' ≡ₚ rows ++ row :: server_remotes vid d).
  { eexists. split; [by exists hdr|]. rewrite Hp. f_equiv.
    by rewrite server_remotes_insert by (exact Ek || reflexivity). }
  destruct Hst as (row & Hrow & Hst). exists (row :: rows). split; [by constructor|]. rewrite Hst.
  by rewrite <-(Permutation_middle rows).
Qed.


Lemma version_data_keeps server sid mx c now o n d vid n' d' :
  insertServerVersionData server sid mx c now o n d = (Ok vid, n', d') ->
  d_package d' = d_package d /\ d_remote d' = d_remote d.
Proof.
  intros H. unfold insertServerVersionData in H. lift_in H meta Em. bind_in H eid Ee. bind_in H v Ev.
  apply insertVersionRow_ok in Ev as (_ & -> & ->). apply wrapping_run_ok, query_run_ok in H. cbn in H.
  destruct (d_server _ !! _); [done|]. injection H as _ <-. cbn.
  unfold getOrCreateEntry in Ee. attempt_in Ee found Ex. destruct found as [e|err].
  - apply select_run_ok in Ex as [_ ->]. by run_ok.
  - apply select_run_any in Ex as ->. destruct (errorIs err ErrNoRows); [|by run_ok].
    apply wrapping_run_ok, query_run_ok in Ee. cbv zeta in Ee; case_match; [done|]; by injection Ee as _ <-.
Qed.

Lemma insertServerIcons_keeps vid l o n d n' d' : insertServerIcons vid l o n d = (Ok (), n', d') ->
  d_package d' = d_package d /\ d_remote d' = d_remote d.
Proof.
  intros H. eapply (for_each_q_inv (fun m => d_package m = d_package d /\ d_remote m = d_remote d)) in H; [done| |done].
  intros x o1 n1 d1 n2 d2 H1 HP. apply wrapping_run_ok, query_run_ok in H1. by case_match; simplify_eq.
Qed.

(** No row of the content tables has an id that is still to come. *)
Lemma fresh_content d vid : wf_core d -> wf_content d -> (d_next d <= vid)%nat ->
  d_server d !! vid = None /\ server_packages vid d = [] /\ server_remotes vid d = [].
Proof.
  intros Hwf Hwc Hv. assert (Hs : forall x, d_server d !! vid = Some x -> False).
  { intros x (k & r & Hr & <-)%(wfc_server _ Hwc). pose proof (wf_version_id _ Hwf _ _ Hr). lia. }
  split; [destruct (d_server d !! vid) as [x|]; [by destruct (Hs x)|done]|].
  split; apply elem_of_nil_inv; intros x [Hx He%Nat.eqb_eq]%list_elem_of_In%filter_In;
    apply list_elem_of_In, list_elem_of_fmap in Hx as (kv & -> & Hk).
  - destruct kv as [[[[w a] b] c] p]. apply elem_of_map_to_list in Hk. cbn in He. subst.
    destruct (wfc_package _ Hwc _ _ _ _ _ Hk). eauto.
  - destruct kv as [[[w a] b] p]. apply elem_of_map_to_list in Hk. cbn in He. subst.
    destruct (wfc_remote _ Hwc _ _ _ _ Hk). eauto.
Qed.

Lemma server_packages_proper vid d d' : d_package d' = d_package d -> server_packages vid d' = server_packages vid d.
Proof. unfold server_packages. by intros ->. Qed.
Lemma server_remotes_proper vid d d' : d_remote d' = d_remote d -> server_remotes vid d' = server_remotes vid d.
Proof. unfold server_remotes. by intros ->. Qed.

(** The packages and remotes of a published version. *)
Lemma insertServerData_content s server sid c now o n d n' d' :
  wf_core d -> wf_content d -> insertServerData s server sid c now o n d = (Ok (), n', d') ->
  exists vid rows rems, (d_next d <= vid)%nat /\ is_Some (d_server d' !! vid) /\
    Forall2 (stored_package vid) (sj_Packages server) rows /\ server_packages vid d' ≡ₚ rows /\
    Forall2 (stored_remote vid) (sj_Remotes server) rems /\ server_remotes vid d' ≡ₚ rems.
Proof.
  intros Hwf Hwc H. unfold insertServerData in H. bind_in H vid Ev. bind_in H u Ep. bind_in H u Er. bind_in H u Ei.
  pose proof (version_data_keeps _ _ _ _ _ _ _ _ _ _ _ Ev) as [Kp Kr].
  apply insertServerVersionData_ok in Ev as (e & r & meta & <- & _ & _ & _ & _ & _ & Hwf1 & Hwc1 & _ & Hge & _ & _ & Hs & _); [|done..].
  destruct (fresh_content d (ve_id r) Hwf Hwc Hge) as (_ & Fp & Fr).
  assert (Hsv : is_Some (d_server d0 !! ve_id r)) by (rewrite Hs, lookup_insert_eq; eauto).
  pose proof (insertServerPackages_rows _ _ _ _ _ _ _ Ep) as (Pr & rows & Hrows & Hp).
  pose proof (insertServerRemotes_rows _ _ _ _ _ _ _ Er) as (Rp & rems & Hrems & Hr).
  pose proof (insertServerIcons_keeps _ _ _ _ _ _ _ Ei) as [Ip Ir].
  apply insertServerPackages_ok in Ep as (_ & Hs1 & Hw1); [|done..].
  apply insertServerRemotes_ok in Er as (_ & Hs2 & Hw2); [|by rewrite Hs1|done].
  apply insertServerIcons_ok in Ei as (_ & Hs3 & _); [|by rewrite Hs2, Hs1|done].
  apply advanceLatest_ok in H as ->. exists (ve_id r), rows, rems. split_and!; try done.
  - cbn. by rewrite Hs3, Hs2, Hs1.
  - rewrite (server_packages_proper _ d1) by (cbn; congruence). rewrite Hp.
    rewrite (server_packages_proper _ d), Fp by done. by rewrite app_nil_r.
  - rewrite (server_remotes_proper _ d2) by (cbn; congruence). rewrite Hr.
    rewrite (server_remotes_proper _ d), Fr by congruence. by rewrite app_nil_r.
Qed.
End Content.


Section ReadBack.
Context `{SC : ServerCodec} `{RC : ServerReadCodec} `{C : JsonCodec} `{L : SemverLib} `{Co : Collation}.

(** What [encoding/json] promises: what was decoded from a document is encoded
    as one that decodes to it, an object's members in any order. *)
Class ServerCodecLaws : Prop := {
  kv_back : forall t l s, kv_Unmarshal t = Some l -> kv_Marshal l = Some s -> s <> "" /\ kv_Unmarshal s = Some l;
  args_back : forall t l s, args_Unmarshal t = Some l -> args_Marshal l = Some s -> s <> "" /\ args_Unmarshal s = Some l;
  meta_back : forall t m s, meta_Unmarshal t = Some m -> meta_Marshal m = Some s ->
    s <> "" /\ exists m', meta_Unmarshal s = Some m' /\ m' ≡ₚ m;
  no_kv : kv_Unmarshal "[]" = Some [];
  no_args : args_Unmarshal "[]" = Some [] }.
Context `{SCL : !ServerCodecLaws}.

(** A server that came in a request body. *)
Definition kv_decoded (l : list KeyValueInput) : Prop := exists t, kv_Unmarshal t = Some l.
Definition args_decoded (l : list Argument) : Prop := exists t, args_Unmarshal t = Some l.
Definition package_decoded (p : Package) : Prop :=
  kv_decoded (pk_EnvironmentVariables p) /\ kv_decoded (tr_Headers (pk_Transport p)) /\
  args_decoded (pk_RuntimeArguments p) /\ args_decoded (pk_PackageArguments p).
Definition server_decoded (server : ServerJSON) : Prop :=
  Forall package_decoded (sj_Packages server) /\ Forall (fun t => kv_decoded (tr_Headers t)) (sj_Remotes server) /\
  forall m, sj_Meta server = Some m -> exists t, meta_Unmarshal t = Some (sm_PublisherProvided m).

Lemma len_pos s : s <> "" -> (len s =? 0)%nat = false.
Proof. by destruct s. Qed.

Lemma kv_round l s : kv_decoded l -> serializeKeyValueInputs l = Ok s -> toKeyValueInputs s = l.
Proof.
  intros [t Ht] H. unfold serializeKeyValueInputs, or_err in H. unfold toKeyValueInputs.
  destruct (Nat.eqb_spec (List.length l) 0) as [E|_]; [injection H as <-; cbn; rewrite no_kv; by apply nil_length_inv in E|].
  destruct (kv_Marshal l) as [x|] eqn:Em; [|done]. injection H as <-. destruct (kv_back t l x Ht Em) as [Hne Hu].
  by rewrite (len_pos _ Hne), Hu.
Qed.

Lemma args_round l s : args_decoded l -> SerializeArguments l = Ok s -> DeserializeArguments s = l.
Proof.
  intros [t Ht] H. unfold SerializeArguments, or_err in H. unfold DeserializeArguments.
  destruct (Nat.eqb_spec (List.length l) 0) as [E|_]; [injection H as <-; cbn; rewrite no_args; by apply nil_length_inv in E|].
  destruct (args_Marshal l) as [x|] eqn:Em; [|done]. injection H as <-. destruct (args_back t l x Ht Em) as [Hne Hu].
  by rewrite (len_pos _ Hne), Hu.
Qed.

Lemma packages_round vid l rows : Forall package_decoded l -> Forall2 (stored_package vid) l rows -> toPackages rows = l.
Proof.
  intros Hd H. induction H as [|p row l rows (env & hd & ra & pa & E1 & E2 & E3 & E4 & ->) _ IH]; [done|].
  apply Forall_cons in Hd as [(D1 & D2 & D3 & D4) Hd]. cbn. f_equal; [|by apply IH]. unfold toPackage. cbn.
  rewrite (kv_round _ _ D1 E1), (kv_round _ _ D2 E2), (args_round _ _ D3 E3), (args_round _ _ D4 E4).
  by destruct p as [? ? ? ? ? ? [] ? ? ?].
Qed.

Lemma remotes_round vid l rows : Forall (fun t => kv_decoded (tr_Headers t)) l -> Forall2 (stored_remote vid) l rows ->
  toRemotes rows = l.
Proof.
  intros Hd H. induction H as [|t row l rows (hd & E & ->) _ IH]; [done|]. apply Forall_cons in Hd as [D Hd]. cbn.
  f_equal; [|by apply IH]. unfold toRemote. cbn. rewrite (kv_round _ _ D E). by destruct t.
Qed.

(** Rows of servers belong to entries of servers. *)
Definition server_wf (d : DB) : Prop :=
  forall sid ty name e v r, d_entry d !! (sid, ty, name) = Some e -> d_version d !! (en_id e, v) = Some r ->
  is_Some (d_server d !! ve_id r) -> ty = EntryTypeMCP.

Definition stored_helper (d : DB) (name v : string) (e : EntryRow) (r : VersionRow) (row : ServerRow) : helper :=
  {| h_ID := ve_id r; h_Name := name; h_Version := v; h_Claims := en_claims e; h_SourceID := uuid_Nil;
     h_Position := 0%Z; h_columns := columns r row d |}.

(** The fetch-back finds the version. *)
Lemma server_row_found d nm s name v e r row :
  wf_core d -> server_wf d -> d_source d !! nm = Some s -> d_entry d !! (so_id s, EntryTypeMCP, name) = Some e ->
  d_version d !! (en_id e, v) = Some r -> d_server d !! ve_id r = Some row ->
  answers_q (GetServerVersionBySourceName name v nm) d (Ok (stored_helper d name v e r row)).
Proof.
  intros Hwf Hk Hs He Hr Hrow. unfold GetServerVersionBySourceName.
  set (f := fun d : DB => match d_source d !! nm with None => _ | Some s => _ end).
  replace (Ok (stored_helper d name v e r row)) with (f d); [apply select_answers|]. unfold f. rewrite Hs.
  set (pos := fun sid : uuid => if (sid =? so_id s)%nat then Some 0%Z else None).
  set (P := fun p : VersionRow * helper => String.eqb (ve_name (fst p)) name && String.eqb (h_Version (snd p)) v).
  assert (Hone : forall p, p ∈ join_servers pos d -> P p = true -> getServerVersionBySourceNameRowToHelper (snd p) = stored_helper d name v e r row).
  { intros [r' h] (sid & ty & nm' & e' & w & row' & p & Hp & He' & Hr' & Hrow' & ->)%join_servers_elem HP.
    apply andb_true_iff in HP as [Hn%String.eqb_eq Hv%String.eqb_eq]. cbn in Hn, Hv. subst w.
    unfold pos in Hp. destruct (Nat.eqb_spec sid (so_id s)) as [->|]; [|done]. injection Hp as <-.
    assert (ty = EntryTypeMCP) as -> by (eapply Hk; eauto).
    rewrite (version_name _ _ _ _ _ _ _ Hwf He' Hr') in Hn. subst nm'. rewrite He in He'. injection He' as <-.
    rewrite Hr in Hr'. injection Hr' as <-. rewrite Hrow in Hrow'. by injection Hrow' as <-. }
  destruct (find P (join_servers pos d)) as [p|] eqn:Ef; cbn.
  - apply find_some in Ef as [Hin HP]. f_equal. apply Hone; [by apply list_elem_of_In|done].
  - assert (Hin : (r, {| h_ID := ve_id r; h_Name := name; h_Version := v; h_Claims := en_claims e; h_SourceID := so_id s;
             h_Position := 0%Z; h_columns := columns r row d |}) ∈ join_servers pos d).
    { apply join_servers_elem. exists (so_id s), EntryTypeMCP, name, e, v, row, 0%Z. split_and!; try done.
      unfold pos. by rewrite Nat.eqb_refl. }
    apply list_elem_of_In in Hin. pose proof (find_none _ _ Ef _ Hin) as Hf. unfold P in Hf. cbn in Hf.
    by rewrite (version_name _ _ _ _ _ _ _ Hwf He Hr), !String.eqb_refl in Hf.
Qed.


Lemma server_wf_published s d d' sid server c e r :
  wf_core d -> wf_core d' -> server_wf d -> published s d d' sid server c e r ->
  d_entry d' !! (sid, EntryTypeMCP, sj_Name server) = Some e -> server_wf d'.
Proof.
  intros Hwf Hwf' Hk [Hes [_ Hfr] _ Hv _ (meta & _ & Hs) _] He sid' ty name e' v r' He' Hr' Hrow.
  destruct (decide ((sid', ty, name) = (sid, EntryTypeMCP, sj_Name server))) as [[= _ -> _]|Hne]; [done|].
  assert (He0 : d_entry d !! (sid', ty, name) = Some e').
  { destruct Hes as [(_ & Hes & _)|(_ & _ & _ & Hes)]; rewrite Hes in He'; [done|]. by rewrite lookup_insert_ne in He' by congruence. }
  rewrite Hv in Hr'. apply lookup_insert_Some in Hr' as [[[= Eid _] _]|[_ Hr']].
  - exfalso. apply Hne. eapply (wf_entry_inj _ Hwf'); [exact He'|exact He|done].
  - eapply (Hk _ _ _ _ _ _ He0 Hr'). rewrite Hs, lookup_insert_ne in Hrow; [done|].
    pose proof (wf_version_id _ Hwf _ _ Hr'). lia.
Qed.

(** The value a published server reads back as: the icons are not returned, the
    packages, remotes and metadata come in another order. *)
Record read_back (server y : ServerJSON) : Prop := {
  rb_schema : sj_Schema y = server_schema;
  rb_same : sj_Name y = sj_Name server /\ sj_Version y = sj_Version server /\ sj_Title y = sj_Title server /\
    sj_Description y = sj_Description server /\ sj_WebsiteURL y = sj_WebsiteURL server /\
    sj_Repository y = sj_Repository server;
  rb_packages : sj_Packages y ≡ₚ sj_Packages server;
  rb_remotes : sj_Remotes y ≡ₚ sj_Remotes server;
  rb_icons : sj_Icons y = [];
  rb_meta : exists m, sj_Meta y = Some m /\
    sm_PublisherProvided m ≡ₚ match sj_Meta server with None => [] | Some m => sm_PublisherProvided m end }.

Lemma meta_round server mx meta : server_decoded server -> SerializeServerMeta (sj_Meta server) mx = Ok meta ->
  exists m, (if (0 <? len meta)%nat then or_err "failed to unmarshal server meta" (meta_Unmarshal meta) else Ok []) = Ok m /\
    m ≡ₚ match sj_Meta server with None => [] | Some m => sm_PublisherProvided m end.
Proof.
  intros (_ & _ & Hm) H. unfold SerializeServerMeta in H. destruct (sj_Meta server) as [mt|]; [|injection H as <-; by exists []].
  destruct (Hm mt eq_refl) as [t Ht]. destruct (Nat.eqb_spec (List.length (sm_PublisherProvided mt)) 0) as [E|_].
  { injection H as <-. apply nil_length_inv in E. exists []. by rewrite E. }
  unfold or_err, rbind in H. destruct (meta_Marshal (sm_PublisherProvided mt)) as [x|] eqn:Em; [|done]. destruct (_ <? _)%Z; [done|].
  injection H as <-. destruct (meta_back _ _ _ Ht Em) as (Hne & m & Hu & Hp). exists m. split; [|done].
  destruct x; [done|]. cbn [len String.length Nat.ltb Nat.leb]. by rewrite Hu.
Qed.

Lemma helperToServer_back d server mx meta e r packages remotes rows rems :
  server_decoded server -> SerializeServerMeta (sj_Meta server) mx = Ok meta ->
  ve_title r = sj_Title server -> ve_description r = sj_Description server ->
  Forall2 (stored_package (ve_id r)) (sj_Packages server) rows -> packages ≡ₚ rows ->
  Forall2 (stored_remote (ve_id r)) (sj_Remotes server) rems -> remotes ≡ₚ rems ->
  exists y, helperToServer (stored_helper d (sj_Name server) (sj_Version server) e r (server_row server meta)) packages remotes = Ok y /\
    read_back server y.
Proof.
  intros Hd Hm Ht Hde Hp Pp Hr Pr. pose proof Hd as (D1 & D2 & _). destruct (meta_round _ _ _ Hd Hm) as (m & Em & Pm).
  unfold helperToServer. cbn [stored_helper h_columns columns sc_row server_row se_server_meta]. rewrite Em. cbn [rbind].
  eexists. split; [reflexivity|]. split; cbn; try done.
  - split_and!; try done. by destruct (sj_Repository server) as [[]|].
  - unfold toPackages. rewrite Pp. fold (toPackages rows). by rewrite (packages_round _ _ _ D1 Hp).
  - unfold toRemotes. rewrite Pr. fold (toRemotes rems). by rewrite (remotes_round _ _ _ D2 Hr).
  - by eexists.
Qed.


Lemma wanted_one vid d {A} (id_of : A -> uuid) l : is_Some (d_server d !! vid) ->
  List.filter (fun p => wanted [vid] d (id_of p)) l = List.filter (fun p => (id_of p =? vid)%nat) l.
Proof.
  intros Hs. apply List.filter_ext. intros p. unfold wanted. destruct (Nat.eqb_spec (id_of p) vid) as [->|Hne].
  - by rewrite !bool_decide_eq_true_2 by (done || by apply list_elem_of_singleton).
  - rewrite bool_decide_eq_false_2; [done|]. by rewrite list_elem_of_singleton.
Qed.

Lemma fetch_answers d nm s name v e r row :
  wf_core d -> server_wf d -> d_source d !! nm = Some s -> d_entry d !! (so_id s, EntryTypeMCP, name) = Some e ->
  d_version d !! (en_id e, v) = Some r -> d_server d !! ve_id r = Some row ->
  exists packages remotes, packages ≡ₚ server_packages (ve_id r) d /\ remotes ≡ₚ server_remotes (ve_id r) d /\
    answers_q (fetchServerVersionBySource name v nm) d (helperToServer (stored_helper d name v e r row) packages remotes).
Proof.
  intros Hwf Hk Hs He Hr Hrow. pose proof (server_row_found d nm s name v e r row Hwf Hk Hs He Hr Hrow) as Hf.
  exists (merge_sort pkg_le (server_packages (ve_id r) d)), (merge_sort remote_le (server_remotes (ve_id r) d)).
  split; [apply merge_sort_Permutation|]. split; [apply merge_sort_Permutation|].
  intros o n res n' d' H. unfold fetchServerVersionBySource in H. unfold mbind at 1, Q_bind, attempt in H.
  destruct (GetServerVersionBySourceName _ _ _ _ _ _) as [[x n1] d1] eqn:E. apply Hf in E as [-> [->|Hx]].
  - assert (Hsv : is_Some (d_server d !! ve_id r)) by eauto.
    revert o n1 res n' d' H. eapply bind_answers; [apply ListServerPackages_answers|].
    eapply bind_answers; [apply ListServerRemotes_answers|]. cbn [stored_helper h_ID].
    rewrite (wanted_one (ve_id r) d pr_ServerID), (wanted_one (ve_id r) d rr_ServerID) by done.
    intros o n1 res n' d' H. injection H as <- <- <-. auto.
  - destruct x as [x|err]; [by destruct Hx as [[? ?] _]|]. destruct (errorIs err ErrNoRows); injection H as <- <- <-;
      (split; [done|]); right; destruct Hx; split; eauto.
Qed.

(** What a publication amounts to. *)
Definition publication_of (s : dbService) (ctx : Ctx) (opts : PublishServerVersionOptions) (server : ServerJSON) (d d' : DB) : Prop :=
  exists nm source claimsJSON e r, managed_sources d = [(nm, source)] /\
    published s d d' (so_id source) server claimsJSON e r /\
    validateClaimsSubset ctx (gate s (po_JWTClaims opts)) (claims_or_empty (po_Claims opts)) = Ok () /\
    validateClaimsVisibleBytes ctx (gate s (po_JWTClaims opts)) (so_claims source) = Ok ().

(** After the transaction the version is there to be fetched. *)
Lemma committed_fetch s server source c now o n d n' d' nm :
  wf_core d -> wf_content d -> server_wf d -> server_decoded server -> managed_sources d = [(nm, source)] ->
  insertServerData s server (so_id source) c now o n d = (Ok (), n', d') ->
  (exists e r, published s d d' (so_id source) server c e r) /\ wf_core d' /\ wf_content d' /\ server_wf d' /\
  exists y, read_back server y /\ answers_q (fetchServerVersionBySource (sj_Name server) (sj_Version server) nm) d' (Ok y).
Proof.
  intros Hwf Hwc Hk Hd Hm H.
  destruct (insertServerData_content _ _ _ _ _ _ _ _ _ _ Hwf Hwc H) as (vid & rows & rems & Hge & Hsv & Hrows & Pp & Hrems & Pr).
  apply insertServerData_ok in H as (e & r & Hpub & Hwf' & Hwc'); [|done..]. pose proof Hpub as [Hes [_ Hfr] (_ & Ht & Hde) Hv _ (meta & Hme & Hs) Hframe].
  assert (He : d_entry d' !! (so_id source, EntryTypeMCP, sj_Name server) = Some e).
  { destruct Hes as [(? & -> & _)|(_ & _ & _ & ->)]; [done|apply lookup_insert_eq]. }
  assert (vid = ve_id r) as ->.
  { destruct (fresh_content d vid Hwf Hwc Hge) as (Hnone & _). destruct (decide (vid = ve_id r)) as [|Hne]; [done|].
    rewrite Hs, lookup_insert_ne, Hnone in Hsv by congruence. by destruct Hsv. }
  pose proof (server_wf_published _ _ _ _ _ _ _ _ Hwf Hwf' Hk Hpub He) as Hk'. split_and!; try done; [eauto|].
  destruct (fetch_answers d' nm source (sj_Name server) (sj_Version server) e r (server_row server meta))
    as (packages & remotes & P1 & P2 & Ha); [done..| |done| | |].
  - destruct Hframe as [-> _]. by apply managed_lookup.
  - rewrite Hv. apply lookup_insert_eq.
  - rewrite Hs. apply lookup_insert_eq.
  - destruct (helperToServer_back d' server (sv_maxMetaSize s) meta e r packages remotes rows rems) as (y & Hy & Hb); try done; [by rewrite P1|by rewrite P2|].
    exists y. split; [done|]. by rewrite <-Hy.
Qed.

(** C31. What is published reads back.  A successful publication of a decoded
    request stores exactly that version and returns a server with the schema of
    the API, the name, version, title, description, website and repository
    given, the packages, remotes and metadata given up to order, and no icons.
    A failure leaves the database as it was, unless a database fault hits the
    read after the commit: then the version is stored although the caller is
    told of an error.  Ids, references and the owners of rows stay sound. *)
Theorem publish_server_read_back s ctx opts now o n d res n' d' server :
  wf_core d -> wf_content d -> server_wf d -> po_ServerData opts = Some server -> server_decoded server ->
  publishServerVersion s ctx opts now o n d = (res, n', d') ->
  wf_core d' /\ wf_content d' /\ server_wf d' /\
  match res with
  | Ok y => publication_of s ctx opts server d d' /\ read_back server y
  | Err _ => d' = d \/ (publication_of s ctx opts server d d' /\ exists k, o k <> None)
  end.
Proof.
  intros Hwf Hwc Hk Hsd Hd H. unfold publishServerVersion, mbind, Q_bind in H.
  destruct (PublishServerVersion _ _ _ _ _ _ _) as [[[nm|err] n1] d1] eqn:E.
  2:{ injection H as <- <- <-. apply PublishServerVersion_atomic in E as ->. by split_and!; [..|left]. }
  apply PublishServerVersion_run in E as (sv & source & cj & n2 & n3 & E & _ & Hsub & _ & Hm & Hvis & Hins).
  rewrite Hsd in E, H. injection E as <-.
  destruct (committed_fetch _ _ _ _ _ _ _ _ _ _ nm Hwf Hwc Hk Hd Hm Hins) as ((e & r & Hpub) & Hwf' & Hwc' & Hk' & y & Hb & Ha).
  assert (Hp : publication_of s ctx opts server d d1) by (by exists nm, source, cj, e, r).
  unfold wrapping in H. destruct (fetchServerVersionBySource _ _ _ _ _ _) as [[x n4] d4] eqn:Ef.
  apply Ha in Ef as [-> [->|[[err ->] Ho]]]; injection H as <- <- <-; split_and!; try done. by right.
Qed.
End ReadBack.


(** ** A concrete registry

    Two sources serve [a/data] 1.0.0; the first one's is for the data team. *)
Module ServerReadsExample.
#[local] Existing Instance ClaimsJson.codec.
#[local] Existing Instance MiniSemver.lib.
#[local] Existing Instance EntriesExample.bytewise.
#[local] Existing Instance ArtifactsExample.match_all.

(** A codec for slices of at most one named element and one-member objects. *)
Definition one_name (s : string) : option (option string) :=
  match s with
  | String "["%char (String "]"%char EmptyString) => Some None
  | String "["%char n => Some (Some n)
  | _ => None
  end.
#[export] Instance mini_codec : ServerCodec :=
  {| kv_Marshal := fun l => match l with
       | [k] => Some (String "["%char (kv_Name k))
       | _ => None end;
     args_Marshal := fun l => match l with
       | [a] => Some (String "["%char (arg_Name a))
       | _ => None end;
     meta_Marshal := fun m => match m with [(k, _)] => Some k | _ => None end |}.
#[export] Instance mini_read_codec : ServerReadCodec :=
  {| kv_Unmarshal := fun s => (fun o => match o with None => [] | Some n => [{| kv_Name := n; kv_Value := ""; kv_rest := [] |}] end) <$> one_name s;
     args_Unmarshal := fun s => (fun o => match o with None => [] | Some n => [named_argument n] end) <$> one_name s;
     names_Unmarshal := fun s => if String.eqb s "--a,," then Some ["--a"; ""; ""] else None;
     meta_Unmarshal := fun s => if String.eqb s "" then None else Some [(s, VString "x")] |}.

Lemma one_name_back t n : one_name t = Some (Some n) -> one_name (String "["%char n) = Some (Some n).
Proof. destruct t as [|c t]; [done|]. cbn. repeat case_match; simplify_eq; done. Qed.

#[export] Instance mini_laws : ServerCodecLaws.
Proof.
  split; [| | |reflexivity..].
  - intros t l s Ht Hs. cbn in *. destruct (one_name t) as [[n|]|] eqn:E; simplify_eq/=. split; [done|].
    apply one_name_back in E. cbn in E. by rewrite E.
  - intros t l s Ht Hs. cbn in *. destruct (one_name t) as [[n|]|] eqn:E; simplify_eq/=. split; [done|].
    apply one_name_back in E. cbn in E. by rewrite E.
  - intros t m s Ht Hs. cbn in *. destruct (String.eqb_spec t ""); simplify_eq/=. split; [done|].
    exists [(s, VString "x")]. split; [|done]. by destruct s.
Qed.

(** Old rows: the flag names are recovered, malformed data is dropped. *)
Example old_arguments : DeserializeArguments "--a,," = [named_argument "--a"] /\ DeserializeArguments "?" = [].
Proof. vm_compute. done. Qed.

Definition team (t : string) : claims := {[ "team" := VString t ]}.
Definition ver (id : nat) (name : string) : VersionRow :=
  {| ve_id := id; ve_name := name; ve_title := ""; ve_description := ""; ve_created := 0 |}.
Definition srv : ServerRow := {| se_website := ""; se_server_meta := ""; se_repository := None |}.
Definition pkg (v : string) : PackageRow :=
  {| pa_registry_url := ""; pa_version := v; pa_runtime_hint := ""; pa_runtime_arguments := "[]"; pa_package_arguments := "[--port";
     pa_env_vars := "[TOKEN"; pa_sha256 := ""; pa_transport_url := ""; pa_transport_headers := "" |}.

Definition listed : DB :=
  {| d_next := 12; d_source := ∅;
     d_registry := {[ "main" := {| rg_id := 1; rg_creation_type := CreationTypeAPI;
                              rg_claims := SerializeClaims (Some (team "eng")) |} ]};
     d_registry_source := {[ (1, 2) := 0%Z; (1, 3) := 1%Z ]};
     d_entry := {[ (2, EntryTypeMCP, "a/open") := {| en_id := 4; en_claims := SerializeClaims (Some (team "eng")) |};
                   (2, EntryTypeMCP, "a/data") := {| en_id := 5; en_claims := SerializeClaims (Some (team "data")) |};
                   (3, EntryTypeMCP, "a/data") := {| en_id := 6; en_claims := SerializeClaims (Some (team "eng")) |} ]};
     d_version := {[ (4, "1.0.0") := ver 7 "a/open"; (5, "1.0.0") := ver 8 "a/data"; (6, "1.0.0") := ver 9 "a/data" ]};
     d_latest := {[ (3, "a/data") := ("1.0.0", 9) ]}; d_server := {[ 7 := srv; 8 := srv; 9 := srv ]};
     d_package := {[ (9, "oci", "acme/db", "stdio") := pkg "1"; (9, "npm", "db", "stdio") := pkg "2"; (7, "oci", "o", "stdio") := pkg "3" ]};
     d_remote := {[ (9, "sse", "https://a") := "[X-Key" ]}; d_icon := ∅; d_sync := ∅; d_skill := ∅; d_plugin := ∅ |}.

Definition svc : dbService := {| sv_skipAuthz := false; sv_maxMetaSize := 262144 |}.
Definition eng_ctx : Ctx := {| ctx_claims := Some (team "eng"); ctx_roles := []; ctx_holder := false |}.
Definition no_fault : Oracle := fun _ => None.
Definition list_opts : ListServersOptions :=
  {| lo_RegistryName := "main"; lo_Cursor := ""; lo_Limit := 30; lo_Search := ""; lo_UpdatedSince := None; lo_Version := "";
     lo_Claims := Some (team "eng") |}.
Definition get_opts : GetServerVersionOptions :=
  {| gso_RegistryName := "main"; gso_SourceName := ""; gso_Name := "a/data"; gso_Version := "latest"; gso_Claims := Some (team "eng") |}.
Definition versions_opts : ListServerVersionsOptions :=
  {| vo_RegistryName := "main"; vo_Name := "a/data"; vo_Limit := 30; vo_Claims := Some (team "eng") |}.

Example got : exists y, fst (fst (GetServerVersion 1 svc eng_ctx get_opts no_fault 0 listed)) = Ok (Some y) /\
  pk_Version <$> sj_Packages y = ["2"; "1"] /\ tr_URL <$> sj_Remotes y = ["https://a"] /\
  (kv_Name <$> (sj_Packages y ≫= pk_EnvironmentVariables)) = ["TOKEN"; "TOKEN"].
Proof. eexists. split; [vm_compute; reflexivity|]. vm_compute. done. Qed.

Ltac decide_it := refine (bool_decide_unpack _ _); vm_compute; exact I.

Lemma listed_wf : wf_core listed.
Proof.
  split.
  - change (map_Forall (fun _ e => 0 < en_id e < 12)%nat (d_entry listed)). decide_it.
  - assert (Hc : map_Forall (fun k1 e1 => map_Forall (fun k2 e2 => en_id e1 = en_id e2 -> k1 = k2) (d_entry listed)) (d_entry listed))
      by decide_it.
    intros k1 k2 e1 e2 H1. exact (Hc k1 e1 H1 k2 e2).
  - change (map_Forall (fun _ r => 0 < ve_id r < 12)%nat (d_version listed)). decide_it.
  - assert (Hc : map_Forall (fun k1 e1 => map_Forall (fun k2 e2 => ve_id e1 = ve_id e2 -> k1 = k2) (d_version listed)) (d_version listed))
      by decide_it.
    intros k1 k2 e1 e2 H1. exact (Hc k1 e1 H1 k2 e2).
  - intros eid v r H.
    assert (Hc : map_Forall (fun k r => Exists (fun x => snd (fst x) = ve_name r /\ en_id (snd x) = fst k) (map_to_list (d_entry listed)))
                   (d_version listed)) by decide_it.
    apply Hc, Exists_exists in H as ([[[sid ty] nm] e] & He%elem_of_map_to_list & Hnm & Hid). cbn in Hnm, Hid. subst nm. eauto.
  - intros sid name v vid H. cbn [d_latest listed] in H. apply lookup_singleton_Some in H as [[= <- <-] [= <- <-]].
    by exists EntryTypeMCP, {| en_id := 6; en_claims := SerializeClaims (Some (team "eng")) |}, (ver 9 "a/data").
  - cbn. lia.
Qed.

(** The engineering caller sees the open server of the first source and the
    second source's [a/data]. *)
Lemma ListServers_correct_witness :
  snd (ListServers 5 svc eng_ctx list_opts no_fault 0 listed) = listed /\
  exists page servers, sj_Name <$> servers = ["a/data"; "a/open"] /\ Forall2 (fun h x => reads_as listed h (Ok x)) page servers.
Proof.
  assert (Hval : match fst (fst (ListServers 5 svc eng_ctx list_opts no_fault 0 listed)) with
    | Ok (Some (l, _)) => sj_Name <$> l | _ => [] end = ["a/data"; "a/open"]) by (vm_compute; reflexivity).
  destruct (ListServers 5 svc eng_ctx list_opts no_fault 0 listed) as [[res n'] d'] eqn:Hrun.
  pose proof (ListServers_correct 5 svc eng_ctx list_opts no_fault 0 listed res n' d'
    ltac:(intros rg Hrg; vm_compute in Hrg; injection Hrg as <-; vm_compute; lia) Hrun) as [-> H].
  split; [reflexivity|]. cbn [fst] in Hval. destruct res as [r|err]; [|discriminate Hval].
  destruct H as (rg & start & page & next & servers & _ & _ & _ & _ & _ & -> & Hreads).
  exists page, servers. split; [exact Hval|exact Hreads].
Defined.

Lemma ListServerVersions_correct_witness :
  snd (ListServerVersions 1 svc eng_ctx versions_opts no_fault 0 listed) = listed /\
  exists servers, sj_Version <$> servers = ["1.0.0"] /\
    Forall2 (fun h x => reads_as listed h (Ok x)) (version_page svc eng_ctx versions_opts 1 listed) servers.
Proof.
  assert (Hval : match fst (fst (ListServerVersions 1 svc eng_ctx versions_opts no_fault 0 listed)) with
    | Ok (Some l) => sj_Version <$> l | _ => [] end = ["1.0.0"]) by (vm_compute; reflexivity).
  destruct (ListServerVersions 1 svc eng_ctx versions_opts no_fault 0 listed) as [[res n'] d'] eqn:Hrun.
  pose proof (ListServerVersions_correct 1 svc eng_ctx versions_opts no_fault 0 listed res n' d' (le_n 1) Hrun) as [-> H].
  split; [reflexivity|]. cbn [fst] in Hval. destruct res as [r|err]; [|discriminate Hval].
  destruct H as (rg & servers & [Hrg _] & -> & Hreads). assert (Hid : rg_id rg = 1) by (vm_compute in Hrg; by injection Hrg as <-).
  rewrite Hid in Hreads. exists servers. split; [exact Hval|exact Hreads].
Defined.

Lemma GetServerVersion_correct_witness : exists h x, h_Position h = 1%Z /\ reads_as listed h (Ok x) /\
  fst (fst (GetServerVersion 1 svc eng_ctx get_opts no_fault 0 listed)) = Ok (Some x).
Proof.
  assert (Hok : is_ok (fst (fst (GetServerVersion 1 svc eng_ctx get_opts no_fault 0 listed))) = true) by (vm_compute; reflexivity).
  destruct (GetServerVersion 1 svc eng_ctx get_opts no_fault 0 listed) as [[res n'] d'] eqn:Hrun.
  pose proof (GetServerVersion_correct 1 svc eng_ctx get_opts no_fault 0 listed res n' d' (le_n 1) listed_wf
    ltac:(intros rg Hrg; vm_compute in Hrg; injection Hrg as <-; vm_compute; lia) Hrun) as [_ H].
  destruct res as [r|err]; [|discriminate Hok]. destruct H as (rg & h & x & [Hrg _] & -> & Hin & _ & _ & Hreads).
  assert (Hid : rg_id rg = 1) by (vm_compute in Hrg; by injection Hrg as <-). rewrite Hid in Hin.
  exists h, x. split; [|split; [exact Hreads|reflexivity]].
  assert (Hall : Forall (fun h => h_Position h = 1%Z) (request_candidates get_opts 1 listed)) by (vm_compute; repeat constructor).
  rewrite Forall_forall in Hall. exact (Hall h Hin).
Defined.

(** The batch cursor asks for a larger position and a larger source id: a source
    of lower priority that was created earlier is passed over. *)
Lemma cursor_needs_both : exists a b : helper, source_le a b /\ priority a <> priority b /\ after_source (Some (priority a)) b = false.
Proof.
  exists {| h_ID := 1; h_Name := "a"; h_Version := "1"; h_Claims := ""; h_SourceID := 5; h_Position := 0; h_columns := no_columns |},
         {| h_ID := 2; h_Name := "a"; h_Version := "1"; h_Claims := ""; h_SourceID := 3; h_Position := 1; h_columns := no_columns |}.
  split; [left; cbn; lia|]. by split.
Qed.

(** A server with a header, a variable, an argument and metadata. *)
Definition named_kv (n : string) : KeyValueInput := {| kv_Name := n; kv_Value := ""; kv_rest := [] |}.
Definition full_server : ServerJSON :=
  {| sj_Schema := "s"; sj_Name := "io.acme/db"; sj_Description := "d"; sj_Title := "t"; sj_Version := "1.2.0"; sj_WebsiteURL := "w";
     sj_Repository := Some {| rp_URL := "u"; rp_Source := "github"; rp_ID := "7"; rp_Subfolder := "" |};
     sj_Packages := [ {| pk_RegistryType := "oci"; pk_RegistryBaseURL := ""; pk_Identifier := "acme/db";
       pk_Version := "1"; pk_FileSHA256 := ""; pk_RunTimeHint := ""; pk_Transport := EntriesExample.transport;
       pk_RuntimeArguments := []; pk_PackageArguments := [named_argument "--port"]; pk_EnvironmentVariables := [named_kv "TOKEN"] |} ];
     sj_Remotes := [ {| tr_Type := "sse"; tr_URL := "https://a"; tr_Headers := [named_kv "X-Key"] |} ];
     sj_Icons := [ {| ic_Src := "i.png"; ic_MimeType := None; ic_Theme := Some "dark" |} ];
     sj_Meta := Some {| sm_PublisherProvided := [("k", VString "x")] |} |}.
Definition full_opts : PublishServerVersionOptions :=
  {| po_ServerData := Some full_server; po_JWTClaims := Some EntriesExample.caller; po_Claims := Some {[ "org" := VString "acme" ]} |}.

Lemma publish_server_read_back_witness : exists y n' d',
  publishServerVersion svc EntriesExample.ctx full_opts 0 no_fault 0 EntriesExample.d0 = (Ok y, n', d') /\ read_back full_server y.
Proof.
  assert (Hok : is_ok (fst (fst (publishServerVersion svc EntriesExample.ctx full_opts 0 no_fault 0 EntriesExample.d0))) = true)
    by (vm_compute; reflexivity).
  destruct (publishServerVersion svc EntriesExample.ctx full_opts 0 no_fault 0 EntriesExample.d0) as [[res n'] d'] eqn:Hrun.
  destruct res as [y|err]; [|discriminate Hok]. exists y, n', d'. split; [reflexivity|].
  refine (proj2 (proj2 (proj2 (proj2 (publish_server_read_back svc EntriesExample.ctx full_opts 0 no_fault 0 EntriesExample.d0 (Ok y) n' d' full_server
    (proj1 EntriesExample.d0_wf) (proj2 EntriesExample.d0_wf) _ eq_refl _ Hrun))))).
  - intros sid ty name e v r He. cbn in He. by rewrite lookup_empty in He.
  - split; [|split].
    + constructor; [|constructor]. split; [by exists "[TOKEN"|]. split; [by exists "[]"|]. split; [by exists "[]"|by exists "[--port"].
    + constructor; [by exists "[X-Key"|constructor].
    + intros m [= <-]. by exists "k".
Defined.
End ServerReadsExample.
