(* ===== verification/Options.v ===== *)
(** * Service options

    [internal/service/options.go] and its companions: an option is a function
    that sets one field of an operation's options.  The interfaces the type
    switches test for are classes, the setters of the option types their
    instances, so the "invalid option type" branch is ruled out by typing. *)

From stdpp Require Import base list strings gmap.
From Stdlib Require Import String ZArith Lia.
From S2P Require Import Prelude GoStrings Claims Auth Upstream Database Entries Streaming Artifacts ServerReads.

Local Open Scope string_scope.
Local Open Scope list_scope.

(** [type Option func(T any) error] *)
Definition Option_ (T : Type) : Type := T -> result T.

(** [for _, opt := range opts { if err := opt(options); err != nil ... } }] *)
Fixpoint apply_options {T} (opts : list (Option_ T)) (options : T) : result T :=
  match opts with
  | [] => Ok options
  | opt :: opts' => options' <- opt options ;; apply_options opts' options'
  end.

Class NameOption (T : Type) := setName : string -> T -> T.
Class VersionOption (T : Type) := setVersion : string -> T -> T.
Class CursorOption (T : Type) := setCursor : string -> T -> T.
Class LimitOption (T : Type) := setLimit : nat -> T -> T.
Class SearchOption (T : Type) := setSearch : string -> T -> T.
Class StatusOption (T : Type) := setStatus : string -> T -> T.
Class UpdatedSinceOption (T : Type) := setUpdatedSince : Z -> T -> T.
Class NamespaceOption (T : Type) := setNamespace : string -> T -> T.
Class RegistryNameOption (T : Type) := setRegistryName : string -> T -> T.
Class ServerDataOption (T : Type) := setServerData : ServerJSON -> T -> T.
Class ClaimsOption (T : Type) := setClaims : claims -> T -> T.
Class JWTClaimsOption (T : Type) := setJWTClaims : claims -> T -> T.
Class EntryTypeOption (T : Type) := setEntryType : string -> T -> result T.

(** [if v == "" { return fmt.Errorf(...) }] *)
Definition required (msg v : string) {T} (set : string -> T -> T) : Option_ T := fun o =>
  if String.eqb v "" then Err (EMsg msg) else Ok (set v o).

Section Options.
Context {T : Type}.

Definition WithCursor `{CursorOption T} (cursor : string) : Option_ T := required "invalid cursor: %s" cursor setCursor.
Definition WithSearch `{SearchOption T} (search : string) : Option_ T := required "invalid search: %s" search setSearch.
Definition WithStatus `{StatusOption T} (status : string) : Option_ T := fun o => Ok (setStatus status o).
(** The zero time is refused. *)
Definition WithUpdatedSince `{UpdatedSinceOption T} (IsZero : Z -> bool) (updatedSince : Z) : Option_ T := fun o =>
  if IsZero updatedSince then Err (EMsg "invalid updated since: %s") else Ok (setUpdatedSince updatedSince o).
Definition WithRegistryName `{RegistryNameOption T} (registryName : string) : Option_ T :=
  required "invalid registry name: %s" registryName setRegistryName.
Definition WithNamespace `{NamespaceOption T} (namespace : string) : Option_ T :=
  required "invalid namespace: %s" namespace setNamespace.
Definition WithVersion `{VersionOption T} (version : string) : Option_ T := required "invalid version: %s" version setVersion.
Definition WithName `{NameOption T} (name : string) : Option_ T := required "invalid name: %s" name setName.
Definition WithLimit `{LimitOption T} (limit : Z) : Option_ T := fun o =>
  if (limit <=? 0)%Z then Err (EMsg "invalid limit: %d") else Ok (setLimit (Z.to_nat limit) o).
Definition WithClaims `{ClaimsOption T} (cs : claims) : Option_ T := fun o => Ok (setClaims cs o).
Definition WithJWTClaims `{JWTClaimsOption T} (cs : claims) : Option_ T := fun o => Ok (setJWTClaims cs o).
Definition WithEntryType `{EntryTypeOption T} (entryType : string) : Option_ T := setEntryType entryType.
Definition WithServerData `{ServerDataOption T} (serverData : option ServerJSON) : Option_ T := fun o =>
  match serverData with
  | None => Err (EMsg "server data is required")
  | Some server => Ok (setServerData server o)
  end.
End Options.

(** ** [options_mcp.go] *)

(** The fields of a listing one by one. *)
Definition list_servers_with (registry cursor : string) (limit : nat) (search : string)
    (updated : option Z) (version : string) (cs : option claims) : ListServersOptions :=
  {| lo_RegistryName := registry; lo_Cursor := cursor; lo_Limit := limit; lo_Search := search;
     lo_UpdatedSince := updated; lo_Version := version; lo_Claims := cs |}.
#[export] Instance ListServers_registry : RegistryNameOption ListServersOptions := fun v o =>
  list_servers_with v (lo_Cursor o) (lo_Limit o) (lo_Search o) (lo_UpdatedSince o) (lo_Version o) (lo_Claims o).
#[export] Instance ListServers_cursor : CursorOption ListServersOptions := fun v o =>
  list_servers_with (lo_RegistryName o) v (lo_Limit o) (lo_Search o) (lo_UpdatedSince o) (lo_Version o) (lo_Claims o).
#[export] Instance ListServers_limit : LimitOption ListServersOptions := fun v o =>
  list_servers_with (lo_RegistryName o) (lo_Cursor o) v (lo_Search o) (lo_UpdatedSince o) (lo_Version o) (lo_Claims o).
#[export] Instance ListServers_search : SearchOption ListServersOptions := fun v o =>
  list_servers_with (lo_RegistryName o) (lo_Cursor o) (lo_Limit o) v (lo_UpdatedSince o) (lo_Version o) (lo_Claims o).
#[export] Instance ListServers_updated : UpdatedSinceOption ListServersOptions := fun v o =>
  list_servers_with (lo_RegistryName o) (lo_Cursor o) (lo_Limit o) (lo_Search o) (Some v) (lo_Version o) (lo_Claims o).
#[export] Instance ListServers_version : VersionOption ListServersOptions := fun v o =>
  list_servers_with (lo_RegistryName o) (lo_Cursor o) (lo_Limit o) (lo_Search o) (lo_UpdatedSince o) v (lo_Claims o).
#[export] Instance ListServers_claims : ClaimsOption ListServersOptions := fun v o =>
  list_servers_with (lo_RegistryName o) (lo_Cursor o) (lo_Limit o) (lo_Search o) (lo_UpdatedSince o) (lo_Version o) (Some v).

#[export] Instance ListServerVersions_registry : RegistryNameOption ListServerVersionsOptions := fun v o =>
  {| vo_RegistryName := v; vo_Name := vo_Name o; vo_Limit := vo_Limit o; vo_Claims := vo_Claims o |}.
#[export] Instance ListServerVersions_name : NameOption ListServerVersionsOptions := fun v o =>
  {| vo_RegistryName := vo_RegistryName o; vo_Name := v; vo_Limit := vo_Limit o; vo_Claims := vo_Claims o |}.
#[export] Instance ListServerVersions_limit : LimitOption ListServerVersionsOptions := fun v o =>
  {| vo_RegistryName := vo_RegistryName o; vo_Name := vo_Name o; vo_Limit := v; vo_Claims := vo_Claims o |}.
#[export] Instance ListServerVersions_claims : ClaimsOption ListServerVersionsOptions := fun v o =>
  {| vo_RegistryName := vo_RegistryName o; vo_Name := vo_Name o; vo_Limit := vo_Limit o; vo_Claims := Some v |}.

Definition get_server_with (registry source name version : string) (cs : option claims) : GetServerVersionOptions :=
  {| gso_RegistryName := registry; gso_SourceName := source; gso_Name := name; gso_Version := version; gso_Claims := cs |}.
#[export] Instance GetServerVersion_registry : RegistryNameOption GetServerVersionOptions := fun v o =>
  get_server_with v (gso_SourceName o) (gso_Name o) (gso_Version o) (gso_Claims o).
#[export] Instance GetServerVersion_name : NameOption GetServerVersionOptions := fun v o =>
  get_server_with (gso_RegistryName o) (gso_SourceName o) v (gso_Version o) (gso_Claims o).
#[export] Instance GetServerVersion_version : VersionOption GetServerVersionOptions := fun v o =>
  get_server_with (gso_RegistryName o) (gso_SourceName o) (gso_Name o) v (gso_Claims o).
#[export] Instance GetServerVersion_claims : ClaimsOption GetServerVersionOptions := fun v o =>
  get_server_with (gso_RegistryName o) (gso_SourceName o) (gso_Name o) (gso_Version o) (Some v).

#[export] Instance PublishServer_data : ServerDataOption PublishServerVersionOptions := fun v o =>
  {| po_ServerData := Some v; po_JWTClaims := po_JWTClaims o; po_Claims := po_Claims o |}.
#[export] Instance PublishServer_claims : ClaimsOption PublishServerVersionOptions := fun v o =>
  {| po_ServerData := po_ServerData o; po_JWTClaims := po_JWTClaims o; po_Claims := Some v |}.
#[export] Instance PublishServer_jwt : JWTClaimsOption PublishServerVersionOptions := fun v o =>
  {| po_ServerData := po_ServerData o; po_JWTClaims := Some v; po_Claims := po_Claims o |}.

#[export] Instance DeleteServer_name : NameOption DeleteServerVersionOptions := fun v o =>
  {| do_ServerName := v; do_Version := do_Version o; do_JWTClaims := do_JWTClaims o |}.
#[export] Instance DeleteServer_version : VersionOption DeleteServerVersionOptions := fun v o =>
  {| do_ServerName := do_ServerName o; do_Version := v; do_JWTClaims := do_JWTClaims o |}.
#[export] Instance DeleteServer_jwt : JWTClaimsOption DeleteServerVersionOptions := fun v o =>
  {| do_ServerName := do_ServerName o; do_Version := do_Version o; do_JWTClaims := Some v |}.

(** ** [options_skills.go], [options_plugins.go] *)

#[export] Instance PublishArtifact_claims : ClaimsOption PublishArtifactOptions := fun v o =>
  {| ao_Claims := Some v; ao_JWTClaims := ao_JWTClaims o |}.
#[export] Instance PublishArtifact_jwt : JWTClaimsOption PublishArtifactOptions := fun v o =>
  {| ao_Claims := ao_Claims o; ao_JWTClaims := Some v |}.

#[export] Instance DeleteArtifact_name : NameOption DeleteArtifactOptions := fun v o =>
  {| dao_Name := v; dao_Version := dao_Version o; dao_JWTClaims := dao_JWTClaims o |}.
#[export] Instance DeleteArtifact_version : VersionOption DeleteArtifactOptions := fun v o =>
  {| dao_Name := dao_Name o; dao_Version := v; dao_JWTClaims := dao_JWTClaims o |}.
#[export] Instance DeleteArtifact_jwt : JWTClaimsOption DeleteArtifactOptions := fun v o =>
  {| dao_Name := dao_Name o; dao_Version := dao_Version o; dao_JWTClaims := Some v |}.

Definition list_artifacts_with (registry namespace : string) (name search : option string) (limit : nat)
    (cursor : option string) (status : string) (cs : option claims) : ListArtifactOptions :=
  {| la_RegistryName := registry; la_Namespace := namespace; la_Name := name; la_Search := search; la_Limit := limit;
     la_Cursor := cursor; la_Status := status; la_Claims := cs |}.
#[export] Instance ListArtifact_registry : RegistryNameOption ListArtifactOptions := fun v o =>
  list_artifacts_with v (la_Namespace o) (la_Name o) (la_Search o) (la_Limit o) (la_Cursor o) (la_Status o) (la_Claims o).
#[export] Instance ListArtifact_namespace : NamespaceOption ListArtifactOptions := fun v o =>
  list_artifacts_with (la_RegistryName o) v (la_Name o) (la_Search o) (la_Limit o) (la_Cursor o) (la_Status o) (la_Claims o).
#[export] Instance ListArtifact_name : NameOption ListArtifactOptions := fun v o =>
  list_artifacts_with (la_RegistryName o) (la_Namespace o) (Some v) (la_Search o) (la_Limit o) (la_Cursor o) (la_Status o) (la_Claims o).
#[export] Instance ListArtifact_search : SearchOption ListArtifactOptions := fun v o =>
  list_artifacts_with (la_RegistryName o) (la_Namespace o) (la_Name o) (Some v) (la_Limit o) (la_Cursor o) (la_Status o) (la_Claims o).
#[export] Instance ListArtifact_limit : LimitOption ListArtifactOptions := fun v o =>
  list_artifacts_with (la_RegistryName o) (la_Namespace o) (la_Name o) (la_Search o) v (la_Cursor o) (la_Status o) (la_Claims o).
#[export] Instance ListArtifact_cursor : CursorOption ListArtifactOptions := fun v o =>
  list_artifacts_with (la_RegistryName o) (la_Namespace o) (la_Name o) (la_Search o) (la_Limit o) (Some v) (la_Status o) (la_Claims o).
#[export] Instance ListArtifact_status : StatusOption ListArtifactOptions := fun v o =>
  list_artifacts_with (la_RegistryName o) (la_Namespace o) (la_Name o) (la_Search o) (la_Limit o) (la_Cursor o) v (la_Claims o).
#[export] Instance ListArtifact_claims : ClaimsOption ListArtifactOptions := fun v o =>
  list_artifacts_with (la_RegistryName o) (la_Namespace o) (la_Name o) (la_Search o) (la_Limit o) (la_Cursor o) (la_Status o) (Some v).

Definition get_artifact_with (registry namespace name version source : string) (cs : option claims) : GetArtifactOptions :=
  {| go_RegistryName := registry; go_Namespace := namespace; go_Name := name; go_Version := version;
     go_SourceName := source; go_Claims := cs |}.
#[export] Instance GetArtifact_registry : RegistryNameOption GetArtifactOptions := fun v o =>
  get_artifact_with v (go_Namespace o) (go_Name o) (go_Version o) (go_SourceName o) (go_Claims o).
#[export] Instance GetArtifact_namespace : NamespaceOption GetArtifactOptions := fun v o =>
  get_artifact_with (go_RegistryName o) v (go_Name o) (go_Version o) (go_SourceName o) (go_Claims o).
#[export] Instance GetArtifact_name : NameOption GetArtifactOptions := fun v o =>
  get_artifact_with (go_RegistryName o) (go_Namespace o) v (go_Version o) (go_SourceName o) (go_Claims o).
#[export] Instance GetArtifact_version : VersionOption GetArtifactOptions := fun v o =>
  get_artifact_with (go_RegistryName o) (go_Namespace o) (go_Name o) v (go_SourceName o) (go_Claims o).
#[export] Instance GetArtifact_claims : ClaimsOption GetArtifactOptions := fun v o =>
  get_artifact_with (go_RegistryName o) (go_Namespace o) (go_Name o) (go_Version o) (go_SourceName o) (Some v).

(** ** [options_entries.go] *)

Record GetEntryClaimsOptions := { geo_EntryType : string; geo_Name : string; geo_JWTClaims : option claims }.

(** The switch of both setters. *)
Definition known_entry_type {T} (entryType : string) (set : T) : result T :=
  if String.eqb entryType "server" || String.eqb entryType "skill" || String.eqb entryType "plugin"
  then Ok set else Err (EWrap ErrInvalidEntryType "must be %q, %q, or %q").

#[export] Instance UpdateEntryClaims_type : EntryTypeOption UpdateEntryClaimsOptions := fun v o =>
  known_entry_type v {| uo_EntryType := v; uo_Name := uo_Name o; uo_Claims := uo_Claims o; uo_JWTClaims := uo_JWTClaims o |}.
#[export] Instance UpdateEntryClaims_name : NameOption UpdateEntryClaimsOptions := fun v o =>
  {| uo_EntryType := uo_EntryType o; uo_Name := v; uo_Claims := uo_Claims o; uo_JWTClaims := uo_JWTClaims o |}.
#[export] Instance UpdateEntryClaims_claims : ClaimsOption UpdateEntryClaimsOptions := fun v o =>
  {| uo_EntryType := uo_EntryType o; uo_Name := uo_Name o; uo_Claims := Some v; uo_JWTClaims := uo_JWTClaims o |}.
#[export] Instance UpdateEntryClaims_jwt : JWTClaimsOption UpdateEntryClaimsOptions := fun v o =>
  {| uo_EntryType := uo_EntryType o; uo_Name := uo_Name o; uo_Claims := uo_Claims o; uo_JWTClaims := Some v |}.

#[export] Instance GetEntryClaims_type : EntryTypeOption GetEntryClaimsOptions := fun v o =>
  known_entry_type v {| geo_EntryType := v; geo_Name := geo_Name o; geo_JWTClaims := geo_JWTClaims o |}.
#[export] Instance GetEntryClaims_name : NameOption GetEntryClaimsOptions := fun v o =>
  {| geo_EntryType := geo_EntryType o; geo_Name := v; geo_JWTClaims := geo_JWTClaims o |}.
#[export] Instance GetEntryClaims_jwt : JWTClaimsOption GetEntryClaimsOptions := fun v o =>
  {| geo_EntryType := geo_EntryType o; geo_Name := geo_Name o; geo_JWTClaims := Some v |}.
