(* ===== verification/Sync.v ===== *)
(** * Synchronisation

    [internal/sync/manager.go] (whether a source needs a sync, and the sync
    itself), [detectors.go], [coordinator/coordinator.go] (one tick of a
    replica), the job queue and status updates of [state/db.go] on the queries
    of [database/queries/sync.sql], and [internal/status/types.go].

    Replicas share the database.  [Cluster] is their joint state and [step]
    what one of them does: claim a job, run it, report its status, crash, or
    let time pass.  Times are nanoseconds of one clock.

    Parameters: the source handlers, which fetch over the network
    ([SourceHandlers]); the hash of a filter configuration (SHA-256 of its
    JSON); the JSON decoder of stored source configurations; the writer that
    stores fetched entries ([SyncWriter], an interface: it may change every
    table but [source] and [registry_sync]). *)

From stdpp Require Import base list strings gmap sets sorting relations.
From Stdlib Require Import String ZArith Lia.
From S2P Require Import Prelude ConfigTypes Durations Upstream Filtering Database.

Local Open Scope string_scope.
Local Open Scope list_scope.

(** ** Status *)

Inductive SyncPhase := SyncPhaseSyncing | SyncPhaseComplete | SyncPhaseFailed.
#[export] Instance SyncPhase_eq_dec : EqDecision SyncPhase.
Proof. solve_decision. Defined.

Record SyncStatus := {
  ss_Phase : SyncPhase;
  ss_Message : string;
  ss_LastAttempt : option Z;
  ss_AttemptCount : Z;
  ss_LastSyncTime : option Z;
  ss_LastSyncHash : string;
  ss_LastAppliedFilterHash : string;
  ss_ServerCount : Z;
  ss_SkillCount : Z;
  ss_PluginCount : Z;
  ss_SyncSchedule : string }.

Definition dbSyncStatusToPhase (s : SyncState) : SyncPhase :=
  match s with
  | SyncStatusINPROGRESS => SyncPhaseSyncing
  | SyncStatusCOMPLETED => SyncPhaseComplete
  | SyncStatusFAILED => SyncPhaseFailed
  end.

Definition syncPhaseToDBStatus (p : SyncPhase) : SyncState :=
  match p with
  | SyncPhaseSyncing => SyncStatusINPROGRESS
  | SyncPhaseComplete => SyncStatusCOMPLETED
  | SyncPhaseFailed => SyncStatusFAILED
  end.

(** [intervalToString]; a NULL interval is [None]. *)
Definition intervalToString (interval : option Z) : string :=
  match interval with None => "" | Some d => Duration.String d end.

(** [dbSyncRowByLastUpdateToStatus] and its twin [dbSyncRowToStatus] for the
    list of all rows; [dbSyncToStatus] is the same without the schedule. *)
Definition dbSyncRowByLastUpdateToStatus (row : SyncRow) (schedule : option Z) : SyncStatus :=
  {| ss_Phase := dbSyncStatusToPhase (sy_status row);
     ss_Message := default "" (sy_error_msg row);
     ss_LastAttempt := sy_started_at row;
     ss_AttemptCount := sy_attempt_count row;
     ss_LastSyncTime := sy_ended_at row;
     ss_LastSyncHash := default "" (sy_last_sync_hash row);
     ss_LastAppliedFilterHash := default "" (sy_filter_hash row);
     ss_ServerCount := sy_server_count row;
     ss_SkillCount := sy_skill_count row;
     ss_PluginCount := sy_plugin_count row;
     ss_SyncSchedule := intervalToString schedule |}.

Definition dbSyncToStatus (row : SyncRow) : SyncStatus := dbSyncRowByLastUpdateToStatus row None.

(** An empty string is stored as NULL. *)
Definition null_if_empty (s : string) : option string := if String.eqb s "" then None else Some s.

(** The row [UpdateSyncStatus] writes. *)
Definition status_row (st : SyncStatus) : SyncRow :=
  {| sy_status := syncPhaseToDBStatus (ss_Phase st);
     sy_error_msg := null_if_empty (ss_Message st);
     sy_started_at := ss_LastAttempt st;
     sy_ended_at := ss_LastSyncTime st;
     sy_attempt_count := ss_AttemptCount st;
     sy_last_sync_hash := null_if_empty (ss_LastSyncHash st);
     sy_filter_hash := null_if_empty (ss_LastAppliedFilterHash st);
     sy_server_count := ss_ServerCount st;
     sy_skill_count := ss_SkillCount st;
     sy_plugin_count := ss_PluginCount st |}.

(** ** Reasons, in the order of the constants *)

Inductive Reason :=
| ReasonRegistryNotReady | ReasonFilterChanged | ReasonSourceDataChanged
| ReasonErrorCheckingChanges | ReasonManualWithChanges
| ReasonAlreadyInProgress | ReasonManualNoChanges | ReasonErrorParsingInterval
| ReasonErrorCheckingSyncNeed | ReasonUpToDateWithPolicy | ReasonUpToDateNoPolicy.
#[export] Instance Reason_eq_dec : EqDecision Reason.
Proof. solve_decision. Defined.

Definition reason_index (r : Reason) : nat :=
  match r with
  | ReasonRegistryNotReady => 0 | ReasonFilterChanged => 1 | ReasonSourceDataChanged => 2
  | ReasonErrorCheckingChanges => 3 | ReasonManualWithChanges => 4 | ReasonAlreadyInProgress => 5
  | ReasonManualNoChanges => 6 | ReasonErrorParsingInterval => 7 | ReasonErrorCheckingSyncNeed => 8
  | ReasonUpToDateWithPolicy => 9 | ReasonUpToDateNoPolicy => 10
  end%nat.

(** [Reason.ShouldSync] *)
Definition reason_ShouldSync (r : Reason) : bool :=
  (reason_index r <=? reason_index ReasonManualWithChanges)%nat.

Definition orphanedSyncGracePeriod : Z := Hour.

(** ** What the code calls *)

Record FetchResult := {
  fr_Registry : UpstreamRegistry;
  fr_Hash : string;
  fr_ServerCount : Z;
  fr_SkillCount : Z;
  fr_PluginCount : Z }.

(** [sources.RegistryHandlerFactory] and the handler it creates, at one moment. *)
Record SourceHandlers := {
  CreateHandler : SourceConfig -> result ();
  Validate : SourceConfig -> result ();
  FetchRegistry : SourceConfig -> result FetchResult }.

(** Hex of the SHA-256 of a filter's JSON. *)
Class FilterHash := { filter_hash : option FilterConfig -> string }.

(** [json.Unmarshal] of the stored blocks. *)
Class ConfigCodec := {
  parse_git : string -> option GitConfig;
  parse_api : string -> option APIConfig;
  parse_file : string -> option FileConfig;
  parse_managed : string -> option ManagedConfig;
  parse_kubernetes : string -> option KubernetesConfig;
  parse_filter : string -> option FilterConfig }.

(** [writer.SyncWriter] *)
Class SyncWriter := {
  Store : string -> UpstreamRegistry -> Q ();
  Store_frame : forall name reg o n d r n' d',
    Store name reg o n d = (r, n', d') -> d_source d' = d_source d /\ d_sync d' = d_sync d }.

(** ** Change detection *)

Definition IsDataChanged (h : SourceHandlers) (regCfg : SourceConfig) (st : SyncStatus)
    : result (bool * FetchResult) :=
  let lastSyncHash := ss_LastSyncHash st in
  CreateHandler h regCfg ;;;
  fetchResult <- FetchRegistry h regCfg ;;
  if String.eqb lastSyncHash "" then Ok (true, fetchResult)
  else Ok (negb (String.eqb (fr_Hash fetchResult) lastSyncHash), fetchResult).

(** [IsIntervalSyncNeeded]: whether, and when next. *)
Definition IsIntervalSyncNeeded (now : Z) (st : SyncStatus) : result (bool * option Z) :=
  if String.eqb (ss_SyncSchedule st) "" then Ok (false, None)
  else
    interval <- Duration.ParseDuration (ss_SyncSchedule st) ;;
    match ss_LastAttempt st with
    | None => Ok (true, Some (now + interval)%Z)
    | Some lastSyncTime =>
        let nextSyncTime := (lastSyncTime + interval)%Z in
        if (nextSyncTime <=? now)%Z then Ok (true, Some (now + interval)%Z)
        else Ok (false, Some nextSyncTime)
    end.

Definition isOrphanedInProgressSync (now : Z) (st : SyncStatus) : bool :=
  match ss_LastAttempt st with
  | Some t => negb (now - t <=? orphanedSyncGracePeriod)%Z
  | None => true
  end.

Definition isSyncNeededForState (st : SyncStatus) : bool :=
  if bool_decide (ss_Phase st = SyncPhaseFailed) then true
  else if bool_decide (ss_Phase st <> SyncPhaseComplete) then true
  else false.

Section Manager.
Context `{NF : NameFilter} `{TF : TagFilter} `{FH : FilterHash} `{CC : ConfigCodec} `{SW : SyncWriter}.

Definition isFilterChanged (regCfg : SourceConfig) (st : SyncStatus) : bool :=
  let lastHash := ss_LastAppliedFilterHash st in
  if String.eqb lastHash "" then false
  else negb (String.eqb (filter_hash (src_Filter regCfg)) lastHash).

Definition ShouldSync (h : SourceHandlers) (now : Z) (regCfg : SourceConfig) (st : SyncStatus)
    (manualSyncRequested : bool) : Reason * option FetchResult :=
  if bool_decide (ss_Phase st = SyncPhaseSyncing) && negb (isOrphanedInProgressSync now st)
  then (ReasonAlreadyInProgress, None)
  else
    let syncNeededForState := isSyncNeededForState st in
    let filterChanged := isFilterChanged regCfg st in
    match IsIntervalSyncNeeded now st with
    | Err _ => (ReasonErrorCheckingSyncNeed, None)
    | Ok (checkIntervalElapsed, _) =>
        if syncNeededForState || manualSyncRequested || filterChanged || checkIntervalElapsed then
          match IsDataChanged h regCfg st with
          | Err _ => (ReasonErrorCheckingChanges, None)
          | Ok (true, fetchResult) =>
              (if syncNeededForState then ReasonRegistryNotReady
               else if manualSyncRequested then ReasonManualWithChanges
               else if filterChanged then ReasonFilterChanged
               else ReasonSourceDataChanged, Some fetchResult)
          | Ok (false, fetchResult) =>
              if filterChanged then (ReasonFilterChanged, Some fetchResult)
              else if manualSyncRequested then (ReasonManualNoChanges, None)
              else (ReasonUpToDateNoPolicy, None)
          end
        else (ReasonUpToDateNoPolicy, None)
    end.

(** ** The sync itself *)

Record Result := {
  re_Hash : string;
  re_ServerCount : Z;
  re_SkillCount : Z;
  re_PluginCount : Z }.

(** [Error]: the condition reason, and the message without the cause. *)
Inductive ConditionReason :=
| HandlerCreationFailed | ValidationFailed | FetchFailed | StorageFailed.
Record Error := { er_Message : string; er_Reason : ConditionReason }.

Definition applyFilteringIfConfigured (regCfg : SourceConfig) (fetchResult : FetchResult) : FetchResult :=
  match src_Filter regCfg with
  | None => fetchResult
  | Some filter =>
      let filtered := ApplyFilters (fr_Registry fetchResult) (Some filter) in
      {| fr_Registry := filtered; fr_Hash := fr_Hash fetchResult;
         fr_ServerCount := Z.of_nat (List.length (ur_Servers filtered));
         fr_SkillCount := Z.of_nat (List.length (ur_Skills filtered));
         fr_PluginCount := Z.of_nat (List.length (ur_Plugins filtered)) |}
  end.

Definition fetchAndProcessRegistryData (h : SourceHandlers) (regCfg : SourceConfig)
    (prefetched : option FetchResult) : FetchResult + Error :=
  match prefetched with
  | Some fetchResult => inl (applyFilteringIfConfigured regCfg fetchResult)
  | None =>
      match CreateHandler h regCfg with
      | Err _ => inr {| er_Message := "Failed to create registry handler"; er_Reason := HandlerCreationFailed |}
      | Ok _ =>
          match Validate h regCfg with
          | Err _ => inr {| er_Message := "Registry validation failed"; er_Reason := ValidationFailed |}
          | Ok _ =>
              match FetchRegistry h regCfg with
              | Err _ => inr {| er_Message := "Fetch failed"; er_Reason := FetchFailed |}
              | Ok result => inl (applyFilteringIfConfigured regCfg result)
              end
          end
      end
  end.

Definition storeRegistryData (regCfg : SourceConfig) (fetchResult : FetchResult) : Q (option Error) :=
  r ← attempt (Store (src_Name regCfg) (fr_Registry fetchResult));
  match r with
  | Err _ => mret (Some {| er_Message := "Storage failed"; er_Reason := StorageFailed |})
  | Ok _ => mret None
  end.

(** [PerformSync]: never fails as a query, its error is a value. *)
Definition PerformSync (h : SourceHandlers) (regCfg : SourceConfig) (prefetched : option FetchResult)
    : Q (Result + Error) :=
  match fetchAndProcessRegistryData h regCfg prefetched with
  | inr err => mret (inr err)
  | inl fetchResult =>
      e ← storeRegistryData regCfg fetchResult;
      match e with
      | Some err => mret (inr err)
      | None =>
          mret (inl {| re_Hash := fr_Hash fetchResult; re_ServerCount := fr_ServerCount fetchResult;
                       re_SkillCount := fr_SkillCount fetchResult; re_PluginCount := fr_PluginCount fetchResult |})
      end
  end.

(** ** The job queue *)

(** ORDER BY rs.ended_at ASC NULLS FIRST, s.name ASC *)
Definition nulls_first_lt (a b : option Z) : Prop :=
  match a, b with
  | None, Some _ => True
  | Some x, Some y => (x < y)%Z
  | _, None => False
  end.
#[export] Instance nulls_first_lt_dec a b : Decision (nulls_first_lt a b).
Proof. destruct a, b; simpl; apply _. Defined.

Context `{Co : Collation}.

Abbreviation QueueRow := (string * (SourceRow * SyncRow))%type.
Definition queue_le (a b : QueueRow) : Prop :=
  nulls_first_lt (sy_ended_at (snd (snd a))) (sy_ended_at (snd (snd b))) \/
  (sy_ended_at (snd (snd a)) = sy_ended_at (snd (snd b)) /\ coll_le (fst a) (fst b)).
#[export] Instance queue_le_dec a b : Decision (queue_le a b).
Proof. unfold queue_le. apply _. Defined.

(** registry_sync joined with source *)
Definition sync_rows (d : DB) : list QueueRow :=
  omap (fun '(name, s) => (fun r => (name, (s, r))) <$> d_sync d !! so_id s) (map_to_list (d_source d)).

(** syncable, never ended or ended a schedule ago (NULL schedule: never) *)
Definition due (now : Z) (q : QueueRow) : bool :=
  let '(_, (s, r)) := q in
  so_syncable s &&
  match sy_ended_at r with
  | None => true
  | Some t => match so_sync_schedule s with Some i => (t + i <=? now)%Z | None => false end
  end.

(** [ListSourceSyncsByLastUpdate]: FOR UPDATE SKIP LOCKED LIMIT 1; [locked] are
    the sources whose rows other transactions hold. *)
Definition ListSourceSyncsByLastUpdate (now : Z) (locked : gset string) : Q (list QueueRow) :=
  select (fun d => Ok (take 1 (List.filter (fun q => negb (bool_decide (fst q ∈ locked)))
    (merge_sort queue_le (List.filter (due now) (sync_rows d)))))).

Definition UpdateSourceSyncStatusByName (name : string) (st : SyncState) (started : option Z) : Q () :=
  query (fun d =>
    Ok ((), match d_source d !! name with
            | None => d
            | Some s =>
                match d_sync d !! so_id s with
                | None => d
                | Some r =>
                    set_sync d (<[so_id s := {| sy_status := st; sy_error_msg := sy_error_msg r;
                      sy_started_at := started; sy_ended_at := sy_ended_at r;
                      sy_attempt_count := sy_attempt_count r; sy_last_sync_hash := sy_last_sync_hash r;
                      sy_filter_hash := sy_filter_hash r; sy_server_count := sy_server_count r;
                      sy_skill_count := sy_skill_count r; sy_plugin_count := sy_plugin_count r |}]> (d_sync d))
                end
            end)).

(** [UpsertSourceSyncByName]: an unknown name makes source_id NULL. *)
Definition UpsertSourceSyncByName (name : string) (row : SyncRow) : Q () :=
  query (fun d =>
    match d_source d !! name with
    | None => Err (EMsg "23502")
    | Some s => Ok ((), set_sync d (<[so_id s := row]> (d_sync d)))
    end).

Definition UpdateSyncStatus (name : string) (st : SyncStatus) : Q () :=
  UpsertSourceSyncByName name (status_row st).

(** [GetSyncStatus] *)
Definition GetSyncStatus (name : string) : Q SyncStatus :=
  r ← attempt (select (fun d => row_or_none (s ← d_source d !! name; d_sync d !! so_id s)));
  match r with
  | Ok row => mret (dbSyncToStatus row)
  | Err err => if errorIs err ErrNoRows then fail (EWrap ErrRegistryNotFound "registry not found") else fail err
  end.

Definition no_blocks (name : string) (policy : option SyncPolicyConfig) (filter : option FilterConfig)
    : SourceConfig :=
  {| src_Name := name; src_Git := None; src_API := None; src_File := None; src_Managed := None;
     src_Kubernetes := None; src_SyncPolicy := policy; src_Filter := filter; src_Claims := None |}.

Definition parseSourceConfig (c : SourceConfig) (ty : SourceType) (json : string) : option SourceConfig :=
  let set git api file managed k8s :=
    {| src_Name := src_Name c; src_Git := git; src_API := api; src_File := file; src_Managed := managed;
       src_Kubernetes := k8s; src_SyncPolicy := src_SyncPolicy c; src_Filter := src_Filter c;
       src_Claims := src_Claims c |} in
  match ty with
  | SourceTypeGit => (fun x => set (Some x) None None None None) <$> parse_git json
  | SourceTypeAPI => (fun x => set None (Some x) None None None) <$> parse_api json
  | SourceTypeFile => (fun x => set None None (Some x) None None) <$> parse_file json
  | SourceTypeManaged => (fun x => set None None None (Some x) None) <$> parse_managed json
  | SourceTypeKubernetes => (fun x => set None None None None (Some x)) <$> parse_kubernetes json
  | SourceTypeNone => Some c
  end.

Definition loadSourceConfigFromDB (name : string) : Q SourceConfig :=
  src ← wrapping "failed to get source %s" (GetSourceByName name);
  let policy := match so_sync_schedule src with
                | Some i => if (0 <? i)%Z then Some {| sp_Interval := Duration.String i |} else None
                | None => None
                end in
  let filter := if String.eqb (so_filter_config src) "" then None else parse_filter (so_filter_config src) in
  let c := no_blocks name policy filter in
  if String.eqb (so_source_config src) "" then mret c
  else match parseSourceConfig c (so_source_type src) (so_source_config src) with
       | Some c => mret c
       | None => fail (EMsg "failed to parse source config for source %s")
       end.

(** [GetNextSyncJob]; the predicate's captured result comes back with the job. *)
Section Job.
Context {P : Type} (configs : gmap string SourceConfig) (now : Z) (locked : gset string).
Context (predicate : SourceConfig -> SyncStatus -> option P).

Fixpoint next_job (sources : list QueueRow) : Q (option (SourceConfig * P)) :=
  match sources with
  | [] => mret None
  | (name, (s, row)) :: rest =>
      let st := dbSyncRowByLastUpdateToStatus row (so_sync_schedule s) in
      cfg ← match configs !! name with
            | Some c => mret (Some c)
            | None =>
                r ← attempt (loadSourceConfigFromDB name);
                match r with Ok c => mret (Some c) | Err _ => mret None end
            end;
      match (cfg : option SourceConfig) with
      | None => next_job rest
      | Some srcCfg =>
          if IsNonSyncedSource srcCfg then next_job rest
          else match predicate srcCfg st with
               | None => next_job rest
               | Some p =>
                   _ ← wrapping "failed to update source status"
                         (UpdateSourceSyncStatusByName name SyncStatusINPROGRESS (Some now));
                   mret (Some (srcCfg, p))
               end
      end
  end.

Definition GetNextSyncJob : Q (option (SourceConfig * P)) :=
  transaction (
    sources ← wrapping "failed to list sources" (ListSourceSyncsByLastUpdate now locked);
    next_job sources).
End Job.

(** ** The coordinator *)

(** The predicate of [processNextSyncJob] with the prefetched data it keeps. *)
Definition sync_predicate (h : SourceHandlers) (now : Z) (regCfg : SourceConfig) (st : SyncStatus)
    : option (option FetchResult) :=
  let '(reason, fetchResult) := ShouldSync h now regCfg st false in
  if reason_ShouldSync reason then Some fetchResult else None.

(** The status [performRegistrySync] reports. *)
Definition final_status (now : Z) (outcome : Result + Error) : SyncStatus :=
  match outcome with
  | inr err =>
      {| ss_Phase := SyncPhaseFailed; ss_Message := er_Message err; ss_LastAttempt := None;
         ss_AttemptCount := 0; ss_LastSyncTime := Some now; ss_LastSyncHash := "";
         ss_LastAppliedFilterHash := ""; ss_ServerCount := 0; ss_SkillCount := 0; ss_PluginCount := 0;
         ss_SyncSchedule := "" |}
  | inl result =>
      {| ss_Phase := SyncPhaseComplete; ss_Message := "Sync completed successfully"; ss_LastAttempt := None;
         ss_AttemptCount := 0; ss_LastSyncTime := Some now; ss_LastSyncHash := re_Hash result;
         ss_LastAppliedFilterHash := ""; ss_ServerCount := re_ServerCount result;
         ss_SkillCount := re_SkillCount result; ss_PluginCount := re_PluginCount result;
         ss_SyncSchedule := "" |}
  end.

(** [performRegistrySync]: an error of the status update is logged. *)
Definition performRegistrySync (h : SourceHandlers) (now : Z) (regCfg : SourceConfig)
    (prefetched : option FetchResult) : Q () :=
  outcome ← PerformSync h regCfg prefetched;
  _ ← attempt (UpdateSyncStatus (src_Name regCfg) (final_status now outcome));
  mret ().

(** [processNextSyncJob]: [now] at the claim, [later] when the job is done. *)
Definition processNextSyncJob (configs : gmap string SourceConfig) (h : SourceHandlers)
    (locked : gset string) (now later : Z) : Q () :=
  job ← attempt (GetNextSyncJob configs now locked (sync_predicate h now));
  match job with
  | Err _ | Ok None => mret ()
  | Ok (Some (regCfg, prefetched)) => performRegistrySync h later regCfg prefetched
  end.

(** ** When a sync is due *)

(** In terms of the code's own tests. *)
Lemma ShouldSync_table h now cfg st manual :
  let filterChanged := isFilterChanged cfg st in
  (reason_ShouldSync (fst (ShouldSync h now cfg st manual)) = true <->
   (ss_Phase st = SyncPhaseSyncing -> isOrphanedInProgressSync now st = true) /\
   exists elapsed next, IsIntervalSyncNeeded now st = Ok (elapsed, next) /\
     (ss_Phase st <> SyncPhaseComplete \/ manual = true \/ filterChanged = true \/ elapsed = true) /\
     (filterChanged = true \/ forall fr, IsDataChanged h cfg st <> Ok (false, fr))) /\
  (forall fr, snd (ShouldSync h now cfg st manual) = Some fr <->
     reason_ShouldSync (fst (ShouldSync h now cfg st manual)) = true /\ exists b, IsDataChanged h cfg st = Ok (b, fr)).
Proof.
  intros filterChanged. unfold ShouldSync. fold filterChanged.
  assert (Hneed : isSyncNeededForState st = true <-> ss_Phase st <> SyncPhaseComplete).
  { unfold isSyncNeededForState. destruct (ss_Phase st); vm_compute; split; try done; intros H; by destruct H. }
  case_bool_decide as Hp; cbn [andb].
  1: destruct (isOrphanedInProgressSync now st) eqn:Ho; cbn [negb];
       [|split; [split; [done|by intros [? _]; naive_solver]|intros ?; cbn; split; [done|by intros [? _]]]].
  all: destruct (IsIntervalSyncNeeded now st) as [[elapsed next]|];
    [|split; [split; [done|by intros (_ & ? & ? & ? & _)]|intros ?; cbn; split; [done|by intros [? _]]]].
  all: destruct (isSyncNeededForState st) eqn:En; destruct manual, filterChanged, elapsed; cbn [orb];
    destruct (IsDataChanged h cfg st) as [[[] fr]|] eqn:Ed; (split; [|naive_solver]); cbn [fst snd]; naive_solver.
Qed.

(** *** The conditions of a sync *)

(** A sync is in progress, for at most an hour. *)
Definition busy (now : Z) (st : SyncStatus) : Prop :=
  ss_Phase st = SyncPhaseSyncing /\ exists t, ss_LastAttempt st = Some t /\ (now - t <= 3600 * 1000000000)%Z.
(** There is no schedule, or it is a duration. *)
Definition schedule_parses (st : SyncStatus) : Prop :=
  ss_SyncSchedule st = "" \/ exists i, Duration.ParseDuration (ss_SyncSchedule st) = Ok i.
(** There is a schedule, and that time has passed since the last attempt. *)
Definition interval_elapsed (now : Z) (st : SyncStatus) : Prop :=
  exists i, ss_SyncSchedule st <> "" /\ Duration.ParseDuration (ss_SyncSchedule st) = Ok i /\
    forall t, ss_LastAttempt st = Some t -> (t + i <= now)%Z.
(** A filter was recorded, and it is not the one configured. *)
Definition other_filter (cfg : SourceConfig) (st : SyncStatus) : Prop :=
  ss_LastAppliedFilterHash st <> "" /\ filter_hash (src_Filter cfg) <> ss_LastAppliedFilterHash st.
(** The source answers, with the data of the last sync. *)
Definition unchanged (h : SourceHandlers) (cfg : SourceConfig) (st : SyncStatus) : Prop :=
  exists fr, CreateHandler h cfg = Ok () /\ FetchRegistry h cfg = Ok fr /\
    ss_LastSyncHash st <> "" /\ fr_Hash fr = ss_LastSyncHash st.

Lemma orphaned_iff now st : (ss_Phase st = SyncPhaseSyncing -> isOrphanedInProgressSync now st = true) <-> ~ busy now st.
Proof.
  unfold isOrphanedInProgressSync, busy. change orphanedSyncGracePeriod with (3600 * 1000000000)%Z.
  destruct (ss_LastAttempt st) as [t|]; [|split; [by intros _ (_ & ? & ? & _)|done]].
  rewrite negb_true_iff, Z.leb_gt. split.
  - intros H [Hp (? & [= <-] & Hle)]. specialize (H Hp). lia.
  - intros H Hp. destruct (Z.le_gt_cases (now - t) (3600 * 1000000000)) as [Hle|]; [|done]. exfalso. apply H. eauto.
Qed.

Lemma interval_iff now st : (exists b next, IsIntervalSyncNeeded now st = Ok (b, next)) <-> schedule_parses st.
Proof.
  unfold IsIntervalSyncNeeded, schedule_parses. destruct (String.eqb_spec (ss_SyncSchedule st) ""); [naive_solver|].
  destruct (Duration.ParseDuration (ss_SyncSchedule st)) as [i|]; unfold rbind; cbn; [|naive_solver].
  split; [intros _; right; by exists i|]. intros _. destruct (ss_LastAttempt st) as [t|]; [destruct (t + i <=? now)%Z|]; by eexists _, _.
Qed.
Lemma elapsed_iff now st b next : IsIntervalSyncNeeded now st = Ok (b, next) -> b = true <-> interval_elapsed now st.
Proof.
  unfold IsIntervalSyncNeeded, interval_elapsed. destruct (String.eqb_spec (ss_SyncSchedule st) ""); [naive_solver|].
  destruct (Duration.ParseDuration (ss_SyncSchedule st)) as [i|]; unfold rbind; cbn; [|done].
  destruct (ss_LastAttempt st) as [t|]; [destruct (Z.leb_spec (t + i) now)|]; intros [= <- _].
  - split; [|done]. intros _. exists i. split_and!; try done. by intros ? [= <-].
  - split; [done|]. intros (? & _ & [= <-] & Ht). specialize (Ht t eq_refl). lia.
  - split; [|done]. intros _. exists i. by split_and!.
Qed.

Lemma filter_changed_iff cfg st : isFilterChanged cfg st = true <-> other_filter cfg st.
Proof.
  unfold isFilterChanged, other_filter. destruct (String.eqb_spec (ss_LastAppliedFilterHash st) ""); [naive_solver|].
  rewrite negb_true_iff, String.eqb_neq. naive_solver.
Qed.
Lemma unchanged_iff h cfg st : (forall fr, IsDataChanged h cfg st <> Ok (false, fr)) <-> ~ unchanged h cfg st.
Proof.
  unfold IsDataChanged, unchanged. destruct (CreateHandler h cfg) as [[]|]; unfold rbind; cbn; [|naive_solver].
  destruct (FetchRegistry h cfg) as [fr|]; cbn; [|naive_solver].
  destruct (String.eqb_spec (ss_LastSyncHash st) ""); [naive_solver|].
  destruct (String.eqb_spec (fr_Hash fr) (ss_LastSyncHash st)); cbn; naive_solver.
Qed.
Lemma looked_iff h cfg st fr : (exists b, IsDataChanged h cfg st = Ok (b, fr)) <-> CreateHandler h cfg = Ok () /\ FetchRegistry h cfg = Ok fr.
Proof.
  unfold IsDataChanged. destruct (CreateHandler h cfg) as [[]|]; unfold rbind; cbn; [|naive_solver].
  destruct (FetchRegistry h cfg) as [x|]; cbn; [|naive_solver]. destruct (String.eqb _ ""); naive_solver.
Qed.

(** C39. The decision table.  A source is synchronised exactly when no sync of it
    has been in progress for at most an hour; its schedule, if it has one, is a
    duration; something calls for a look (its phase is not complete, a manual
    request, a recorded filter other than the configured one, or the schedule's
    time passed since the last attempt or there was none); and the look does not
    find the data of the last sync (it finds other data, there is no hash to
    compare with, or the handler or the fetch fails), unless the filter is
    another one.  The data fetched for the decision are handed on exactly when the
    decision is to synchronise and the fetch succeeded. *)
Theorem ShouldSync_iff h now cfg st manual :
  (reason_ShouldSync (fst (ShouldSync h now cfg st manual)) = true <->
   ~ busy now st /\ schedule_parses st /\
   (ss_Phase st <> SyncPhaseComplete \/ manual = true \/ other_filter cfg st \/ interval_elapsed now st) /\
   (other_filter cfg st \/ ~ unchanged h cfg st)) /\
  (forall fr, snd (ShouldSync h now cfg st manual) = Some fr <->
     reason_ShouldSync (fst (ShouldSync h now cfg st manual)) = true /\
     CreateHandler h cfg = Ok () /\ FetchRegistry h cfg = Ok fr).
Proof.
  destruct (ShouldSync_table h now cfg st manual) as [Ht Hf]. split.
  - rewrite Ht, orphaned_iff. setoid_rewrite filter_changed_iff. setoid_rewrite unchanged_iff. rewrite <-(interval_iff now). split.
    + intros (Hb & e & nx & He & Hc & Hu). split_and!; [done|eauto| |done].
      destruct Hc as [|[|[|He1]]]; [tauto..|]. apply (elapsed_iff _ _ _ _ He) in He1. tauto.
    + intros (Hb & (e & nx & He) & Hc & Hu). split; [done|]. exists e, nx. split_and!; [done| |done].
      destruct Hc as [|[|[|He1]]]; [tauto..|]. apply (elapsed_iff _ _ _ _ He) in He1. tauto.
  - intros fr. by rewrite Hf, looked_iff.
Qed.

(** A sync that started within the grace period is left alone. *)
Lemma ShouldSync_fresh h now cfg st manual t :
  ss_Phase st = SyncPhaseSyncing -> ss_LastAttempt st = Some t -> (now - t <= orphanedSyncGracePeriod)%Z ->
  ShouldSync h now cfg st manual = (ReasonAlreadyInProgress, None).
Proof.
  intros Hp Ht Hle. unfold ShouldSync, isOrphanedInProgressSync. rewrite Hp, Ht.
  rewrite (proj2 (Z.leb_le _ _) Hle). done.
Qed.

(** ** The queue *)

Lemma elem_of_sync_rows d name s r :
  (name, (s, r)) ∈ sync_rows d <-> d_source d !! name = Some s /\ d_sync d !! so_id s = Some r.
Proof.
  unfold sync_rows. rewrite list_elem_of_omap. split.
  - intros ([name' s'] & Hin%elem_of_map_to_list & E). apply fmap_Some in E as (r' & ? & ?). by simplify_eq.
  - intros [Hs Hr]. exists (name, s). split; [by apply elem_of_map_to_list|]. simpl. by rewrite Hr.
Qed.

Lemma loadSourceConfigFromDB_reads name : reads (loadSourceConfigFromDB name).
Proof.
  unfold loadSourceConfigFromDB, GetSourceByName. apply reads_bind; [auto with registry|].
  intros src. repeat case_match; auto with registry.
Qed.

Lemma loadSourceConfigFromDB_name name o n d c n' d' :
  loadSourceConfigFromDB name o n d = (Ok c, n', d') -> src_Name c = name.
Proof.
  unfold loadSourceConfigFromDB. intros H. run_ok.
  destruct (String.eqb (so_source_config a) ""); [by run_ok|].
  destruct (parseSourceConfig _ _ _) as [c'|] eqn:Ep; run_ok.
  unfold parseSourceConfig in Ep. case_match; try apply fmap_Some in Ep as (x & _ & ->); by simplify_eq.
Qed.

(** A claimed row. *)
Definition claimed (row : SyncRow) (now : Z) : SyncRow :=
  {| sy_status := SyncStatusINPROGRESS; sy_error_msg := sy_error_msg row; sy_started_at := Some now;
     sy_ended_at := sy_ended_at row; sy_attempt_count := sy_attempt_count row;
     sy_last_sync_hash := sy_last_sync_hash row; sy_filter_hash := sy_filter_hash row;
     sy_server_count := sy_server_count row; sy_skill_count := sy_skill_count row;
     sy_plugin_count := sy_plugin_count row |}.

Definition configs_named (configs : gmap string SourceConfig) : Prop :=
  forall name c, configs !! name = Some c -> src_Name c = name.

(** The configuration a job of [name] has: that of the file, or the one kept in
    the database. *)
Definition config_of (configs : gmap string SourceConfig) (d : DB) (name : string) (cfg : SourceConfig) : Prop :=
  match configs !! name with
  | Some c => cfg = c
  | None => exists o n n', loadSourceConfigFromDB name o n d = (Ok cfg, n', d)
  end.

Lemma config_of_sources configs d d' name cfg : d_source d' = d_source d -> config_of configs d name cfg -> config_of configs d' name cfg.
Proof.
  unfold config_of. intros E. case_match; [done|]. intros (o & n & n' & Hl). exists o, n, n'. revert Hl.
  unfold loadSourceConfigFromDB, wrapping, GetSourceByName, select, query, mbind, Q_bind, mret, Q_ret, fail. rewrite E.
  destruct (o n); [done|]. destruct (d_source d !! name) as [s|]; [|done]. cbn. case_match; [intros; by simplify_eq|].
  destruct (parseSourceConfig _ _ _); intros; by simplify_eq.
Qed.

Section JobCorrect.
Context {P : Type} (configs : gmap string SourceConfig) (now : Z) (locked : gset string).
Context (predicate : SourceConfig -> SyncStatus -> option P).
Hypothesis Hnamed : configs_named configs.

Lemma next_job_ok sources o n d res n' d' :
  Forall (fun q => d_source d !! fst q = Some (fst (snd q)) /\
                   d_sync d !! so_id (fst (snd q)) = Some (snd (snd q))) sources ->
  next_job configs now predicate sources o n d = (Ok res, n', d') ->
  match res with
  | None => d' = d
  | Some (cfg, p) =>
      exists name s row, (name, (s, row)) ∈ sources /\ src_Name cfg = name /\ config_of configs d name cfg /\ IsNonSyncedSource cfg = false /\
        predicate cfg (dbSyncRowByLastUpdateToStatus row (so_sync_schedule s)) = Some p /\
        d_source d !! name = Some s /\ d_sync d !! so_id s = Some row /\
        d' = set_sync d (<[so_id s := claimed row now]> (d_sync d))
  end.
Proof.
  intros HF. revert n. induction HF as [|[name [s row]] sources [Hs Hr] HF IH]; intros n H; cbn [next_job] in H.
  { run_ok. by subst. }
  cbn [fst snd] in Hs, Hr. apply bind_run_ok in H as (cfg & n1 & d1 & E & H).
  assert (Hc : d1 = d /\ forall c, cfg = Some c -> src_Name c = name /\ config_of configs d name c).
  { destruct (configs !! name) as [c|] eqn:Ec.
    - run_ok. split; [done|]. intros c' [= <-]. split; [by apply Hnamed|]. unfold config_of. by rewrite Ec.
    - apply bind_run_ok in E as (r & n2 & d2 & E & E2). apply attempt_run_ok in E.
      pose proof (loadSourceConfigFromDB_reads name _ _ _ _ _ _ E) as ->.
      destruct r as [c|err]; run_ok; subst; split; try done.
      intros c' [= <-]. split; [by eapply loadSourceConfigFromDB_name|]. unfold config_of. rewrite Ec. eauto. }
  destruct Hc as [-> Hname].
  assert (Hrest : next_job configs now predicate sources o n1 d = (Ok res, n', d') ->
    match res with
    | None => d' = d
    | Some (cfg, p) =>
        exists name0 s0 row0, (name0, (s0, row0)) ∈ (name, (s, row)) :: sources /\ src_Name cfg = name0 /\
          config_of configs d name0 cfg /\ IsNonSyncedSource cfg = false /\
          predicate cfg (dbSyncRowByLastUpdateToStatus row0 (so_sync_schedule s0)) = Some p /\
          d_source d !! name0 = Some s0 /\ d_sync d !! so_id s0 = Some row0 /\
          d' = set_sync d (<[so_id s0 := claimed row0 now]> (d_sync d))
    end).
  { intros Hn. specialize (IH _ Hn). destruct res as [[cfg' p]|]; [|done].
    destruct IH as (name0 & s0 & row0 & Hin & ?). exists name0, s0, row0. split; [set_solver|done]. }
  destruct cfg as [srcCfg|]; [|by apply Hrest]. destruct (IsNonSyncedSource srcCfg) eqn:En; [by apply Hrest|].
  destruct (predicate srcCfg _) as [p|] eqn:Ep; [|by apply Hrest].
  apply bind_run_ok in H as ([] & n2 & d2 & E2 & H). run_ok.
  apply query_run_ok in E2. rewrite Hs, Hr in E2. injection E2 as <-.
  exists name, s, row. split_and!; try done; [set_solver|by apply Hname..].
Qed.

(** Claiming a job: it is a due, unlocked source whose predicate holds, and its
    row alone changes, to in-progress since now; otherwise nothing changes. *)
Lemma GetNextSyncJob_run o n d res n' d' :
  GetNextSyncJob configs now locked predicate o n d = (res, n', d') ->
  match res with
  | Ok (Some (cfg, p)) =>
      exists s row, d_source d !! src_Name cfg = Some s /\ d_sync d !! so_id s = Some row /\
        due now (src_Name cfg, (s, row)) = true /\ (src_Name cfg ∉ locked) /\
        config_of configs d (src_Name cfg) cfg /\ IsNonSyncedSource cfg = false /\
        predicate cfg (dbSyncRowByLastUpdateToStatus row (so_sync_schedule s)) = Some p /\
        d' = set_sync d (<[so_id s := claimed row now]> (d_sync d))
  | _ => d' = d
  end.
Proof.
  unfold GetNextSyncJob. intros H. destruct res as [res|e]; [|by apply transaction_atomic in H].
  apply transaction_ok in H as (n1 & n2 & H). apply bind_run_ok in H as (sources & n3 & d1 & E & H).
  apply wrapping_run_ok, select_run_ok in E as [E ->]. injection E as E.
  assert (Hq : forall q, q ∈ sources -> q ∈ sync_rows d /\ due now q = true /\ fst q ∉ locked).
  { intros q Hin. rewrite <-E in Hin. eapply elem_of_sublist in Hin; [|apply sublist_take].
    apply list_elem_of_In, filter_In in Hin as [Hin Hl].
    apply list_elem_of_In in Hin. rewrite merge_sort_Permutation in Hin.
    apply list_elem_of_In, filter_In in Hin as [Hin Hd].
    split_and!; [by apply list_elem_of_In|done|]. by apply negb_true_iff, bool_decide_eq_false in Hl. }
  apply next_job_ok in H.
  2:{ apply Forall_forall. intros [name [s row]] Hin. destruct (Hq _ Hin) as [Hr _].
      by apply elem_of_sync_rows in Hr. }
  destruct res as [[cfg p]|]; [|done].
  destruct H as (name & s & row & Hin & <- & ? & ? & ? & ? & ? & ?). destruct (Hq _ Hin) as (_ & ? & ?).
  by exists s, row.
Qed.
End JobCorrect.

(** ** Replicas

    Each replica runs [processNextSyncJob] on its own ticker; what one tick
    does to the shared database is split where others can interleave. *)

Record Job := {
  j_cfg : SourceConfig;
  j_prefetched : option FetchResult;
  j_started : Z;
  j_outcome : option (Result + Error) }.

Record Cluster := { c_now : Z; c_db : DB; c_jobs : gmap nat Job }.

Section Cluster.
(** [upstream] are the handlers a replica may have: what the network serves. *)
Context (configs : gmap string SourceConfig) (upstream : SourceHandlers -> Prop).

Inductive step : Cluster -> Cluster -> Prop :=
| step_time c t :          (* no sync runs longer than the grace period *)
    (c_now c <= t)%Z ->
    (forall p j, c_jobs c !! p = Some j -> t - j_started j <= orphanedSyncGracePeriod)%Z ->
    step c {| c_now := t; c_db := c_db c; c_jobs := c_jobs c |}
| step_claim c p h locked o n cfg pre n' d' :
    c_jobs c !! p = None -> upstream h ->
    GetNextSyncJob configs (c_now c) locked (sync_predicate h (c_now c)) o n (c_db c)
      = (Ok (Some (cfg, pre)), n', d') ->
    step c {| c_now := c_now c; c_db := d';
              c_jobs := <[p := {| j_cfg := cfg; j_prefetched := pre; j_started := c_now c;
                                  j_outcome := None |}]> (c_jobs c) |}
| step_idle c p h locked o n r n' d' :       (* no job, or an error that is logged *)
    c_jobs c !! p = None -> upstream h ->
    GetNextSyncJob configs (c_now c) locked (sync_predicate h (c_now c)) o n (c_db c) = (r, n', d') ->
    (forall job, r <> Ok (Some job)) ->
    step c {| c_now := c_now c; c_db := d'; c_jobs := c_jobs c |}
| step_perform c p j h o n outcome n' d' :
    c_jobs c !! p = Some j -> j_outcome j = None -> upstream h ->
    PerformSync h (j_cfg j) (j_prefetched j) o n (c_db c) = (Ok outcome, n', d') ->
    step c {| c_now := c_now c; c_db := d';
              c_jobs := <[p := {| j_cfg := j_cfg j; j_prefetched := j_prefetched j; j_started := j_started j;
                                  j_outcome := Some outcome |}]> (c_jobs c) |}
| step_report c p j outcome o n r n' d' :
    c_jobs c !! p = Some j -> j_outcome j = Some outcome ->
    UpdateSyncStatus (src_Name (j_cfg j)) (final_status (c_now c) outcome) o n (c_db c) = (r, n', d') ->
    step c {| c_now := c_now c; c_db := d'; c_jobs := delete p (c_jobs c) |}
| step_crash c p :
    step c {| c_now := c_now c; c_db := c_db c; c_jobs := delete p (c_jobs c) |}.

(** The row of a source is in progress since [t]. *)
Definition in_progress (d : DB) (name : string) (t : Z) : Prop :=
  exists s row, d_source d !! name = Some s /\ d_sync d !! so_id s = Some row /\
    sy_status row = SyncStatusINPROGRESS /\ sy_started_at row = Some t.

Definition ids_unique (d : DB) : Prop :=
  forall n1 n2 s1 s2, d_source d !! n1 = Some s1 -> d_source d !! n2 = Some s2 -> so_id s1 = so_id s2 -> n1 = n2.

(** What the rows look like: the hash of a filter is never stored, and a failed
    row has no data hash, so that its next fetch counts as new data. *)
Definition rows_wf (d : DB) : Prop :=
  forall id row, d_sync d !! id = Some row ->
    sy_filter_hash row = None /\ (sy_status row = SyncStatusFAILED -> sy_last_sync_hash row = None).

Record sync_inv (c : Cluster) : Prop := {
  inv_ids : ids_unique (c_db c);
  inv_rows : rows_wf (c_db c);
  inv_jobs : forall p j, c_jobs c !! p = Some j ->
    in_progress (c_db c) (src_Name (j_cfg j)) (j_started j) /\
    (c_now c - j_started j <= orphanedSyncGracePeriod)%Z;
  inv_exclusive : forall p q j k, c_jobs c !! p = Some j -> c_jobs c !! q = Some k ->
    src_Name (j_cfg j) = src_Name (j_cfg k) -> p = q }.

(** Writing the row of one source leaves the others in progress. *)
Lemma in_progress_other d name s row name' t :
  ids_unique d -> d_source d !! name = Some s -> name' <> name -> in_progress d name' t ->
  in_progress (set_sync d (<[so_id s := row]> (d_sync d))) name' t.
Proof.
  intros Hu Hs Hne (s' & row' & Hs' & Hr & ?). exists s', row'. split; [done|]. split; [|done]. simpl.
  rewrite lookup_insert_ne; [done|]. intros E. apply Hne. eauto.
Qed.

Lemma rows_wf_insert d id row :
  rows_wf d -> sy_filter_hash row = None ->
  (sy_status row = SyncStatusFAILED -> sy_last_sync_hash row = None) ->
  rows_wf (set_sync d (<[id := row]> (d_sync d))).
Proof.
  intros Hwf H1 H2 id' row' Hr. cbn [d_sync set_sync] in Hr.
  apply lookup_insert_Some in Hr as [[_ <-]|[_ Hr]]; [done|]. by eapply Hwf.
Qed.

Lemma final_status_row now outcome :
  let row := status_row (final_status now outcome) in
  sy_filter_hash row = None /\ (sy_status row = SyncStatusFAILED -> sy_last_sync_hash row = None) /\
  sy_ended_at row = Some now /\ sy_started_at row = None /\ sy_status row <> SyncStatusINPROGRESS.
Proof. by destruct outcome. Qed.

Lemma PerformSync_frame h cfg pre o n d r n' d' :
  PerformSync h cfg pre o n d = (r, n', d') -> d_source d' = d_source d /\ d_sync d' = d_sync d.
Proof.
  unfold PerformSync, storeRegistryData, attempt, mbind, Q_bind, mret, Q_ret. intros H.
  destruct (fetchAndProcessRegistryData _ _ _); [|by simplify_eq].
  destruct (Store _ _ o n d) as [[x n1] d1] eqn:E. apply Store_frame in E.
  repeat case_match; simplify_eq; done.
Qed.

Lemma UpdateSyncStatus_run name st o n d r n' d' :
  UpdateSyncStatus name st o n d = (r, n', d') ->
  d' = d \/ exists s, d_source d !! name = Some s /\ d' = set_sync d (<[so_id s := status_row st]> (d_sync d)).
Proof.
  unfold UpdateSyncStatus, UpsertSourceSyncByName, query. intros H.
  repeat case_match; simplify_eq; eauto.
Qed.

(** A row in progress within the grace period is not claimed. *)
Lemma in_progress_refused h now cfg d name t s row :
  in_progress d name t -> (now - t <= orphanedSyncGracePeriod)%Z ->
  d_source d !! name = Some s -> d_sync d !! so_id s = Some row ->
  sync_predicate h now cfg (dbSyncRowByLastUpdateToStatus row (so_sync_schedule s)) = None.
Proof.
  intros (s' & row' & Hs' & Hr' & Hst & Ht) Hle Hs Hr. simplify_eq.
  unfold sync_predicate. rewrite (ShouldSync_fresh _ _ _ _ _ t); [done| |done|done].
  simpl. by rewrite Hst.
Qed.

Lemma step_inv c c' : configs_named configs -> step c c' -> sync_inv c -> sync_inv c'.
Proof.
  intros Hn Hstep [Hids Hrows Hjobs Hex]. destruct Hstep as
    [c t Ht Hgrace|c p h locked o n cfg pre n' d' Hp _ H|c p h locked o n r n' d' Hp _ H Hr
    |c p j h o n outcome n' d' Hp Ho _ H|c p j outcome o n r n' d' Hp Ho H|c p].
  - constructor; try done. intros q k Hq. split; [by eapply Hjobs|]. by eapply Hgrace.
  - apply GetNextSyncJob_run in H; [|done]. destruct H as (s & row & Hs & Hrow & _ & _ & _ & _ & Hpred & ->).
    assert (Hfree : forall q k, c_jobs c !! q = Some k -> src_Name (j_cfg k) <> src_Name cfg).
    { intros q k Hq E. destruct (Hjobs q k Hq) as [Hi Hg]. rewrite E in Hi.
      by rewrite (in_progress_refused h _ cfg _ _ _ s row Hi Hg Hs Hrow) in Hpred. }
    constructor; cbn [c_db c_jobs c_now].
    + done.
    + destruct (Hrows _ _ Hrow). by apply rows_wf_insert.
    + intros q k [[<- <-]|[Hne Hq]]%lookup_insert_Some; cbn [j_cfg j_started].
      * split; [|unfold orphanedSyncGracePeriod, Hour, Minute, Second; lia].
        exists s, (claimed row (c_now c)). split; [done|]. split; [apply lookup_insert_eq|done].
      * split; [|by eapply Hjobs]. apply in_progress_other with (src_Name cfg); try done; [by eapply Hfree|].
        by eapply Hjobs.
    + intros q q' k k' [[<- <-]|[_ Hq]]%lookup_insert_Some [[<- <-]|[_ Hq']]%lookup_insert_Some E;
        [done|by destruct (Hfree _ _ Hq')|by destruct (Hfree _ _ Hq)|by eapply Hex].
  - apply GetNextSyncJob_run in H; [|done].
    destruct r as [[[??]|]|]; [by destruct (Hr (s, o0))|subst d'; by constructor..].
  - apply PerformSync_frame in H as [Hsrc Hsync].
    assert (Hip : forall name t, in_progress d' name t <-> in_progress (c_db c) name t).
    { intros name t. unfold in_progress. by rewrite Hsrc, Hsync. }
    constructor; cbn [c_db c_jobs c_now].
    + unfold ids_unique. by rewrite Hsrc.
    + unfold rows_wf. by rewrite Hsync.
    + intros q k [[<- <-]|[_ Hq]]%lookup_insert_Some; cbn [j_cfg j_started]; rewrite Hip; by eapply Hjobs.
    + intros q q' k k' [[<- <-]|[_ Hq]]%lookup_insert_Some [[<- <-]|[_ Hq']]%lookup_insert_Some E;
        cbn [j_cfg] in E; by eapply Hex.
  - assert (Hd : forall q k, delete p (c_jobs c) !! q = Some k -> c_jobs c !! q = Some k /\
                   src_Name (j_cfg k) <> src_Name (j_cfg j)).
    { intros q k [Hne Hq]%lookup_delete_Some. split; [done|]. intros E. apply Hne. by eapply Hex. }
    apply UpdateSyncStatus_run in H as [->|(s & Hs & ->)]; constructor; cbn [c_db c_jobs c_now]; try done.
    + intros q k [Hq _]%Hd. by eapply Hjobs.
    + intros q q' k k' [Hq _]%Hd [Hq' _]%Hd. by apply Hex.
    + destruct (final_status_row (c_now c) outcome) as (? & ? & _). by apply rows_wf_insert.
    + intros q k [Hq Hne]%Hd. split; [|by eapply Hjobs].
      apply in_progress_other with (src_Name (j_cfg j)); try done. by eapply Hjobs.
    + intros q q' k k' [Hq _]%Hd [Hq' _]%Hd. by apply Hex.
  - constructor; cbn [c_db c_jobs c_now]; try done.
    + intros q k [_ Hq]%lookup_delete_Some. by eapply Hjobs.
    + intros q q' k k' [_ Hq]%lookup_delete_Some [_ Hq']%lookup_delete_Some. by apply Hex.
Qed.

Lemma reachable_inv c c' : configs_named configs -> rtc step c c' -> sync_inv c -> sync_inv c'.
Proof. intros Hn. induction 1; eauto using step_inv. Qed.

(** A cluster that has just started. *)
Definition started (c : Cluster) : Prop := c_jobs c = ∅ /\ ids_unique (c_db c) /\ rows_wf (c_db c).

Lemma started_inv c : started c -> sync_inv c.
Proof. intros (Hj & ? & ?). constructor; try done; rewrite Hj; intros *; by rewrite lookup_empty. Qed.

(** C26. No source is synchronised twice at once: however the replicas
    interleave, crash and lose their connections, as long as no sync runs
    longer than the hour of grace two running jobs never work on the same
    source, and each job's row says in progress since the job began. *)
Theorem sync_exclusive c c' p q j k :
  configs_named configs -> started c -> rtc step c c' ->
  c_jobs c' !! p = Some j -> c_jobs c' !! q = Some k ->
  in_progress (c_db c') (src_Name (j_cfg j)) (j_started j) /\
  (src_Name (j_cfg j) = src_Name (j_cfg k) -> p = q /\ j = k).
Proof.
  intros Hn Hs Hr Hp Hq. destruct (reachable_inv c c' Hn Hr (started_inv c Hs)) as [_ _ Hjobs Hex].
  split; [by eapply Hjobs|]. intros E. assert (p = q) as -> by by eapply Hex. split; [done|]. congruence.
Qed.

(** A failed source recovers: in every reachable state a due source whose
    last sync failed, and whose handler can fetch it again, is claimed by a
    replica that looks at its row, whatever the data is. *)
Lemma failed_source_retried c c' h cfg s row fr :
  configs_named configs -> started c -> rtc step c c' ->
  d_source (c_db c') !! src_Name cfg = Some s -> d_sync (c_db c') !! so_id s = Some row ->
  sy_status row = SyncStatusFAILED ->
  (forall i, so_sync_schedule s = Some i -> exists k, i = k * Second /\ 0 <= k /\ i < 2 ^ 63)%Z ->
  CreateHandler h cfg = Ok () -> FetchRegistry h cfg = Ok fr ->
  sync_predicate h (c_now c') cfg (dbSyncRowByLastUpdateToStatus row (so_sync_schedule s)) = Some (Some fr).
Proof.
  intros Hn Hs Hr Hsrc Hrow Hst Hsch Hc Hf.
  destruct (reachable_inv c c' Hn Hr (started_inv c Hs)) as [_ Hrows _ _].
  destruct (Hrows _ _ Hrow) as [Hfh Hh]. specialize (Hh Hst).
  set (st := dbSyncRowByLastUpdateToStatus row (so_sync_schedule s)).
  assert (Hphase : ss_Phase st = SyncPhaseFailed) by (simpl; by rewrite Hst).
  assert (Hhash : ss_LastSyncHash st = "") by (simpl; by rewrite Hh).
  assert (Hint : exists b t, IsIntervalSyncNeeded (c_now c') st = Ok (b, t)).
  { unfold IsIntervalSyncNeeded. case_match; [eauto|].
    assert (Hp : exists i, Duration.ParseDuration (ss_SyncSchedule st) = Ok i).
    { simpl. destruct (so_sync_schedule s) as [i|] eqn:Ei; [|done].
      destruct (Hsch i eq_refl) as (k & -> & ? & ?). exists (k * Second)%Z.
      apply Duration.ParseDuration_String; lia. }
    destruct Hp as [i ->]. unfold rbind. repeat case_match; eauto. }
  destruct Hint as (b & t & Hint).
  unfold sync_predicate, ShouldSync. rewrite Hphase, Hint. cbn [andb bool_decide].
  assert (Hneed : isSyncNeededForState st = true) by (unfold isSyncNeededForState; by rewrite Hphase).
  rewrite Hneed. cbn [orb]. unfold IsDataChanged. rewrite Hc, Hf, Hhash. done.
Qed.

(** A filter change is never noticed: no status update stores the hash of
    the filter that was applied, so in every reachable state the comparison
    with it is skipped, whatever the configuration's filter is now. *)
Lemma filter_change_unnoticed c c' h now cfg s row manual :
  configs_named configs -> started c -> rtc step c c' ->
  d_sync (c_db c') !! so_id s = Some row ->
  let st := dbSyncRowByLastUpdateToStatus row (so_sync_schedule s) in
  isFilterChanged cfg st = false /\
  fst (ShouldSync h now cfg st manual) <> ReasonFilterChanged.
Proof.
  intros Hn Hs Hr Hrow st. destruct (reachable_inv c c' Hn Hr (started_inv c Hs)) as [_ Hrows _ _].
  destruct (Hrows _ _ Hrow) as [Hfh _].
  assert (E : isFilterChanged cfg st = false) by (unfold isFilterChanged, st; simpl; by rewrite Hfh).
  split; [done|]. unfold ShouldSync. rewrite E. repeat case_match; simpl; done.
Qed.
End Cluster.


(** ** Reporting *)

Lemma null_if_empty_default s : default "" (null_if_empty s) = s.
Proof. unfold null_if_empty. by destruct (String.eqb_spec s ""). Qed.

(** A status comes back from its row as it went in (its schedule apart, which
    lives with the source). *)
Lemma status_row_roundtrip st : ss_SyncSchedule st = "" -> dbSyncToStatus (status_row st) = st.
Proof.
  destruct st. cbn. intros ->. unfold dbSyncToStatus, dbSyncRowByLastUpdateToStatus, status_row. cbn.
  rewrite !null_if_empty_default. f_equal. by destruct ss_Phase0.
Qed.

Lemma PerformSync_total h cfg pre o n d :
  exists outcome n' d', PerformSync h cfg pre o n d = (Ok outcome, n', d').
Proof.
  unfold PerformSync, storeRegistryData, attempt, mbind, Q_bind, mret, Q_ret.
  destruct (fetchAndProcessRegistryData _ _ _); [|eauto].
  destruct (Store _ _ o n d) as [[[] ?] ?]; eauto.
Qed.

(** Every finished sync leaves a terminal status: when the status update
    reaches the database, the source's status afterwards is the outcome of the
    sync, completed with the hash and counts of what was fetched or failed with
    its message, ended now, and reading it back gives exactly that status. *)
Lemma performRegistrySync_reports h now cfg pre o n d s :
  (forall k, o k = None) -> d_source d !! src_Name cfg = Some s ->
  exists outcome n' d1 n1 d',
    PerformSync h cfg pre o n d = (Ok outcome, n1, d1) /\
    performRegistrySync h now cfg pre o n d = (Ok (), n', d') /\
    d' = set_sync d1 (<[so_id s := status_row (final_status now outcome)]> (d_sync d)) /\
    fst (fst (GetSyncStatus (src_Name cfg) o n' d')) = Ok (final_status now outcome).
Proof.
  intros Ho Hs. destruct (PerformSync_total h cfg pre o n d) as (outcome & n1 & d1 & H).
  pose proof (PerformSync_frame _ _ _ _ _ _ _ _ _ H) as [Hsrc Hsync].
  exists outcome, (S n1), d1, n1, (set_sync d1 (<[so_id s := status_row (final_status now outcome)]> (d_sync d))).
  split; [done|]. split.
  - unfold performRegistrySync, mbind at 1, Q_bind. rewrite H.
    unfold attempt, mbind, Q_bind, UpdateSyncStatus, UpsertSourceSyncByName, query, mret, Q_ret.
    by rewrite Ho, Hsrc, Hs, Hsync.
  - split; [done|]. unfold GetSyncStatus, attempt, mbind at 1, Q_bind, select, query. rewrite Ho.
    cbn [d_source set_sync d_sync]. rewrite Hsrc, Hs. cbn [mbind option_bind so_id].
    rewrite lookup_insert_eq. cbn. rewrite status_row_roundtrip; [done|by destruct outcome].
Qed.

(** ** The head of the queue *)

#[export] Instance queue_le_total : Total queue_le.
Proof.
  intros [n1 [s1 r1]] [n2 [s2 r2]]. unfold queue_le. cbn.
  destruct (total coll_le n1 n2); destruct (sy_ended_at r1) as [x|], (sy_ended_at r2) as [y|]; cbn; auto;
    destruct (Z.lt_trichotomy x y) as [?|[->|?]]; auto.
Qed.
#[export] Instance queue_le_trans : Transitive queue_le.
Proof.
  intros [n1 [s1 r1]] [n2 [s2 r2]] [n3 [s3 r3]]. unfold queue_le. cbn.
  destruct (sy_ended_at r1) as [x|], (sy_ended_at r2) as [y|], (sy_ended_at r3) as [z|]; cbn;
    intros [H1|[E1 H1]] [H2|[E2 H2]]; simplify_eq; auto; try done; try (left; lia);
    right; (split; [done|]); by etrans.
Qed.

(** The row every query returns as long as it is due: strictly first. *)
Definition first_in_queue (d : DB) (q : QueueRow) : Prop :=
  q ∈ sync_rows d /\ forall q', q' ∈ sync_rows d -> q' = q \/ ~ queue_le q' q.

Lemma first_listed d now q o n :
  first_in_queue d q -> due now q = true -> o n = None ->
  ListSourceSyncsByLastUpdate now ∅ o n d = (Ok [q], S n, d).
Proof.
  intros [Hin Hmin] Hdue Ho. unfold ListSourceSyncsByLastUpdate, select, query. rewrite Ho.
  do 3 f_equal. set (l := List.filter (due now) (sync_rows d)).
  assert (Hf : forall m : list QueueRow, List.filter (fun q0 => negb (bool_decide (fst q0 ∈ (∅ : gset string)))) m = m).
  { induction m as [|x m IHm]; [done|]. cbn [List.filter]. rewrite bool_decide_false by set_solver.
    cbn [negb]. by rewrite IHm. }
  rewrite Hf. pose proof (StronglySorted_merge_sort queue_le l) as Hsort.
  pose proof (merge_sort_Permutation queue_le l) as Hperm.
  assert (Hql : q ∈ merge_sort queue_le l).
  { rewrite Hperm. apply list_elem_of_In, filter_In. split; [by apply list_elem_of_In|done]. }
  destruct (merge_sort queue_le l) as [|x rest]; [by apply not_elem_of_nil in Hql|]. cbn [take].
  assert (Hx : x ∈ sync_rows d).
  { assert (x ∈ l) as Hxl by (rewrite <-Hperm; set_solver).
    apply list_elem_of_In, filter_In in Hxl as [? _]. by apply list_elem_of_In. }
  destruct (Hmin x Hx) as [->|Hn]; [done|]. exfalso. apply Hn.
  apply StronglySorted_inv in Hsort as [_ Hall]. apply elem_of_cons in Hql as [->|Hql]; [by destruct (total queue_le x x)|].
  rewrite Forall_forall in Hall. by apply Hall.
Qed.

(** Unchanged data is refused, whatever the state of the row. *)
Lemma unchanged_refused h now cfg row schedule fr :
  sy_filter_hash row = None -> CreateHandler h cfg = Ok () -> FetchRegistry h cfg = Ok fr ->
  sy_last_sync_hash row = Some (fr_Hash fr) -> fr_Hash fr <> "" ->
  sync_predicate h now cfg (dbSyncRowByLastUpdateToStatus row schedule) = None.
Proof.
  intros Hfh Hc Hf Hh Hne. set (st := dbSyncRowByLastUpdateToStatus row schedule).
  assert (E1 : isFilterChanged cfg st = false) by (unfold isFilterChanged, st; simpl; by rewrite Hfh).
  assert (E2 : IsDataChanged h cfg st = Ok (false, fr)).
  { unfold IsDataChanged, st. simpl. rewrite Hc, Hf, Hh. simpl. unfold rbind.
    destruct (String.eqb_spec (fr_Hash fr) ""); [done|]. by rewrite String.eqb_refl. }
  unfold sync_predicate, ShouldSync. rewrite E1, E2. repeat case_match; simplify_eq; done.
Qed.

(** The source at the head of the queue starves the others when its data
    has not changed: it is looked at on every tick, nothing is claimed and
    nothing is written, so it stays first, completed or orphaned alike, and no
    other source is considered however long it has been due. *)
Lemma unchanged_head_starves configs d name s row cfg now later h fr o n :
  first_in_queue d (name, (s, row)) -> due now (name, (s, row)) = true -> (now <= later)%Z ->
  configs !! name = Some cfg -> sy_filter_hash row = None ->
  CreateHandler h cfg = Ok () -> FetchRegistry h cfg = Ok fr ->
  sy_last_sync_hash row = Some (fr_Hash fr) -> fr_Hash fr <> "" -> (forall k, o k = None) ->
  exists n', GetNextSyncJob configs later ∅ (sync_predicate h later) o n d = (Ok None, n', d).
Proof.
  intros Hfirst Hdue Hle Hcfg Hfh Hc Hf Hh Hne Ho.
  assert (Hdue' : due later (name, (s, row)) = true).
  { unfold due in *. apply andb_true_iff in Hdue as [-> Hdue]. simpl. repeat case_match; try done.
    apply Z.leb_le in Hdue. apply Z.leb_le. lia. }
  exists (S (S (S n))). unfold GetNextSyncJob, transaction, transaction_gen, mbind at 1, Q_bind, wrapping. rewrite Ho.
  rewrite (first_listed d later _ o _ Hfirst Hdue' (Ho _)). cbn [next_job]. rewrite Hcfg.
  unfold mbind, Q_bind, mret, Q_ret.
  rewrite (unchanged_refused h later cfg row _ fr) by done.
  destruct (IsNonSyncedSource cfg); by rewrite Ho.
Qed.
End Manager.

(** ** Two sources and two replicas *)
Module SyncExample.
#[export] Instance all_names : NameFilter := {| name_ShouldInclude := fun _ _ _ => (true, "") |}.
#[export] Instance all_tags : TagFilter := {| tag_ShouldInclude := fun _ _ _ => (true, "") |}.
#[export] Instance hash : FilterHash := {| filter_hash := fun _ => "f" |}.
#[export] Instance codec : ConfigCodec :=
  {| parse_git := fun _ => None; parse_api := fun _ => None; parse_file := fun _ => None;
     parse_managed := fun _ => None; parse_kubernetes := fun _ => None; parse_filter := fun _ => None |}.
#[export] Instance bytewise : Collation := {| coll_le := String.le |}.

Lemma keep_frame (name : string) (reg : UpstreamRegistry) (o : Oracle) n d r n' d' :
  (mret () : Q ()) o n d = (r, n', d') -> d_source d' = d_source d /\ d_sync d' = d_sync d.
Proof. intros H. by injection H as _ _ <-. Qed.
#[export] Instance writer : SyncWriter := {| Store := fun _ _ => mret (); Store_frame := keep_frame |}.

Definition git_cfg (name : string) : SourceConfig :=
  {| src_Name := name;
     src_Git := Some {| git_Repository := "https://git.example/r"; git_Branch := ""; git_Tag := "";
                        git_Commit := ""; git_Path := ""; git_Auth := None |};
     src_API := None; src_File := None; src_Managed := None; src_Kubernetes := None;
     src_SyncPolicy := Some {| sp_Interval := "30m" |}; src_Filter := None; src_Claims := None |}.
Definition configs : gmap string SourceConfig := {[ "a" := git_cfg "a"; "b" := git_cfg "b" ]}.

Definition half_hour : Z := (30 * Minute)%Z.
Definition source (id : nat) : SourceRow :=
  {| so_id := id; so_creation_type := CreationTypeCONFIG; so_source_type := SourceTypeGit;
     so_source_config := "{}"; so_filter_config := ""; so_sync_schedule := Some half_hour;
     so_syncable := true; so_claims := ""; so_created_at := 0 |}.
Definition sync_row (st : SyncState) (ended : option Z) (hash : option string) : SyncRow :=
  {| sy_status := st; sy_error_msg := None; sy_started_at := None; sy_ended_at := ended;
     sy_attempt_count := 0; sy_last_sync_hash := hash; sy_filter_hash := None; sy_server_count := 0;
     sy_skill_count := 0; sy_plugin_count := 0 |}.

(** [a] completed at time zero with data [h1]; [b] completed a minute later. *)
Definition d0 : DB :=
  {| d_next := 3; d_source := {[ "a" := source 1; "b" := source 2 ]}; d_registry := ∅;
     d_registry_source := ∅; d_entry := ∅; d_version := ∅; d_latest := ∅; d_server := ∅;
     d_package := ∅; d_remote := ∅; d_icon := ∅;
     d_sync := {[ 1%nat := sync_row SyncStatusCOMPLETED (Some 0%Z) (Some "h1");
                  2%nat := sync_row SyncStatusCOMPLETED (Some Minute) (Some "h1") ]}; d_skill := ∅; d_plugin := ∅ |}.

Definition empty_registry : UpstreamRegistry :=
  {| ur_Schema := ""; ur_Version := ""; ur_LastUpdated := ""; ur_Servers := []; ur_Skills := []; ur_Plugins := [] |}.
Definition fetched (h : string) : FetchResult :=
  {| fr_Registry := empty_registry; fr_Hash := h; fr_ServerCount := 0; fr_SkillCount := 0; fr_PluginCount := 0 |}.
(** Every source serves the data with this hash. *)
Definition serving (h : string) : SourceHandlers :=
  {| CreateHandler := fun _ => Ok (); Validate := fun _ => Ok (); FetchRegistry := fun _ => Ok (fetched h) |}.
Definition fine : Oracle := fun _ => None.

Lemma configs_ok : configs_named configs.
Proof.
  intros name c. unfold configs. intros [[<- <-]|[_ H]]%lookup_insert_Some; [done|].
  by apply lookup_singleton_Some in H as [<- <-].
Qed.

Lemma d0_sources name s : d_source d0 !! name = Some s -> (name, s) = ("a", source 1) \/ (name, s) = ("b", source 2).
Proof.
  cbn [d_source d0]. intros [[<- <-]|[_ H]]%lookup_insert_Some; [by left|]. apply lookup_singleton_Some in H as [<- <-]. by right.
Qed.

(** Any answer of the network. *)
Definition any : SourceHandlers -> Prop := fun _ => True.
Definition c0 (now : Z) : Cluster := {| c_now := now; c_db := d0; c_jobs := ∅ |}.

Lemma c0_started now : started (c0 now).
Proof.
  split; [done|]. split.
  - intros n1 n2 s1 s2 [[= -> ->]|[= -> ->]]%d0_sources [[= -> ->]|[= -> ->]]%d0_sources; done.
  - intros id row. cbn [d_sync d0 c_db c0]. intros [[<- <-]|[_ H]]%lookup_insert_Some; [done|]. by apply lookup_singleton_Some in H as [<- <-].
Qed.

(** Replica 0 claims [a]; replica 1, which found [a] locked, claims [b]. *)
Definition run1 := GetNextSyncJob configs (2 * Hour) ∅ (sync_predicate (serving "h2") (2 * Hour)) fine 0 d0.
Definition run2 := GetNextSyncJob configs (2 * Hour) {[ "a" ]} (sync_predicate (serving "h2") (2 * Hour)) fine 0 (snd run1).
Definition job (name : string) : Job :=
  {| j_cfg := git_cfg name; j_prefetched := Some (fetched "h2"); j_started := (2 * Hour)%Z; j_outcome := None |}.
Definition c2 : Cluster := {| c_now := (2 * Hour)%Z; c_db := snd run2; c_jobs := {[ 1%nat := job "b"; 0%nat := job "a" ]} |}.

Lemma c2_reachable : rtc (step configs any) (c0 (2 * Hour)) c2.
Proof.
  eapply rtc_l; [|eapply rtc_l; [|apply rtc_refl]].
  - apply (step_claim configs any (c0 (2 * Hour)) 0 (serving "h2") ∅ fine 0 (git_cfg "a") (Some (fetched "h2"))
             (snd (fst run1)) (snd run1)); [done|done|]. vm_compute. reflexivity.
  - refine (step_claim configs any _ 1 (serving "h2") {[ "a" ]} fine 0 (git_cfg "b") (Some (fetched "h2"))
             (snd (fst run2)) (snd run2) _ I _); [by vm_compute|]. vm_compute. reflexivity.
Qed.

Lemma sync_exclusive_witness :
  in_progress (c_db c2) "a" (2 * Hour) /\ ("a" = "b" -> 0%nat = 1%nat /\ job "a" = job "b").
Proof.
  apply (sync_exclusive configs any (c0 (2 * Hour)) c2 0 1 (job "a") (job "b") configs_ok (c0_started _) c2_reachable);
    vm_compute; reflexivity.
Defined.

Lemma filter_change_unnoticed_witness :
  isFilterChanged (git_cfg "a") (dbSyncRowByLastUpdateToStatus
    (claimed (sync_row SyncStatusCOMPLETED (Some 0%Z) (Some "h1")) (2 * Hour)) (Some half_hour)) = false.
Proof.
  refine (proj1 (filter_change_unnoticed configs any (c0 (2 * Hour)) c2 (serving "h1") 0 (git_cfg "a") (source 1)
    (claimed (sync_row SyncStatusCOMPLETED (Some 0%Z) (Some "h1")) (2 * Hour)) false
    configs_ok (c0_started _) c2_reachable _)). vm_compute. reflexivity.
Defined.

(** [a] fails: its fetch goes wrong and the failure is reported. *)
Definition broken : SourceHandlers :=
  {| CreateHandler := fun _ => Ok (); Validate := fun _ => Ok ();
     FetchRegistry := fun _ => Err (EMsg "connection refused") |}.
Definition run3 := GetNextSyncJob configs (2 * Hour) ∅ (sync_predicate broken (2 * Hour)) fine 0 d0.
Definition failure : Result + Error := inr {| er_Message := "Fetch failed"; er_Reason := FetchFailed |}.
Definition run4 := UpdateSyncStatus "a" (final_status (2 * Hour) failure) fine 0 (snd run3).
Definition failing (outcome : option (Result + Error)) : Job :=
  {| j_cfg := git_cfg "a"; j_prefetched := None; j_started := (2 * Hour)%Z; j_outcome := outcome |}.
Definition c3 (outcome : option (Result + Error)) : Cluster :=
  {| c_now := (2 * Hour)%Z; c_db := snd run3; c_jobs := {[ 0%nat := failing outcome ]} |}.
Definition c4 : Cluster :=
  {| c_now := (2 * Hour)%Z; c_db := snd run4; c_jobs := delete 0%nat {[ 0%nat := failing (Some failure) ]} |}.

Lemma c4_reachable : rtc (step configs any) (c0 (2 * Hour)) c4.
Proof.
  apply rtc_l with (c3 None); [|apply rtc_l with (c3 (Some failure)); [|apply rtc_once]].
  - apply (step_claim configs any (c0 (2 * Hour)) 0 broken ∅ fine 0 (git_cfg "a") None
             (snd (fst run3)) (snd run3)); [done|done|]. vm_compute. reflexivity.
  - apply (step_perform configs any (c3 None) 0 (failing None) broken fine 0 failure 0%nat (snd run3));
      try exact I; vm_compute; reflexivity.
  - apply (step_report configs any (c3 (Some failure)) 0 (failing (Some failure)) failure fine 0
             (fst (fst run4)) (snd (fst run4)) (snd run4)); vm_compute; reflexivity.
Qed.

Definition failed_row : SyncRow := status_row (final_status (2 * Hour) failure).

Lemma failed_source_retried_witness :
  sync_predicate (serving "h1") (2 * Hour) (git_cfg "a")
    (dbSyncRowByLastUpdateToStatus failed_row (Some half_hour)) = Some (Some (fetched "h1")).
Proof.
  refine (failed_source_retried configs any (c0 (2 * Hour)) c4 (serving "h1") (git_cfg "a") (source 1) failed_row
    (fetched "h1") configs_ok (c0_started _) c4_reachable _ _ eq_refl _ eq_refl eq_refl).
  - vm_compute. reflexivity.
  - vm_compute. reflexivity.
  - intros i [= <-]. exists 1800%Z. unfold half_hour, Minute, Second. lia.
Defined.

Lemma performRegistrySync_reports_witness :
  exists outcome n' d', performRegistrySync (serving "h2") 5 (git_cfg "a") None fine 0 d0 = (Ok (), n', d') /\
    fst (fst (GetSyncStatus "a" fine n' d')) = Ok (final_status 5 outcome).
Proof.
  destruct (performRegistrySync_reports (serving "h2") 5 (git_cfg "a") None fine 0 d0 (source 1))
    as (outcome & n' & d1 & n1 & d' & _ & H1 & _ & H2); [done|vm_compute; reflexivity|].
  exists outcome, n', d'. split; [exact H1|exact H2].
Defined.

(** A day later [a] still serves what it served: nothing is claimed, and [b],
    due for as long, is not looked at. *)
Lemma d0_first : first_in_queue d0 ("a", (source 1, sync_row SyncStatusCOMPLETED (Some 0%Z) (Some "h1"))).
Proof.
  split; [apply elem_of_sync_rows; split; vm_compute; reflexivity|].
  intros [name [s row]] [Hs Hr]%elem_of_sync_rows.
  destruct (d0_sources name s Hs) as [[= -> ->]|[= -> ->]]; vm_compute in Hr; injection Hr as <-; [by left|right].
  intros [H|[H _]]; vm_compute in H; done.
Qed.

Lemma unchanged_head_starves_witness :
  due (24 * Hour) ("b", (source 2, sync_row SyncStatusCOMPLETED (Some Minute) (Some "h1"))) = true /\
  exists n', GetNextSyncJob configs (24 * Hour) ∅ (sync_predicate (serving "h1") (24 * Hour)) fine 0 d0 = (Ok None, n', d0).
Proof.
  split; [vm_compute; reflexivity|].
  apply (unchanged_head_starves configs d0 "a" (source 1) (sync_row SyncStatusCOMPLETED (Some 0%Z) (Some "h1"))
    (git_cfg "a") half_hour (24 * Hour) (serving "h1") (fetched "h1") fine 0 d0_first); try reflexivity; try done.
Defined.
End SyncExample.
