(* ===== verification/Writer.v ===== *)
(** * The sync writer

    [internal/sync/writer/db.go]: storing what was fetched from a source.  Rows
    are copied into temporary tables and upserted from there, in one
    transaction: servers with their packages, remotes and icons, then skills,
    then plugins; versions that are no longer upstream are deleted, and the
    latest pointers set.

    The temporary tables ([internal/db/sqlc/temp_tables.sql.go]) live as long as
    the transaction; the writer runs in the monad [W], the query monad with
    their contents as a state.  Go's [uuid.NewV7] takes the next fresh id; it is
    taken not to fail.  A result set without an order comes in the order of
    [map_to_list]. *)

From stdpp Require Import base list strings gmap sets sorting.
From Stdlib Require Import String Ascii ZArith Lia.
From S2P Require Import Prelude GoStrings Versions Claims Upstream Database Entries Artifacts Sync.

Local Open Scope string_scope.
Local Open Scope list_scope.

(** ** Temporary tables *)

Record TempEntry := { te_id : uuid; te_source : uuid; te_type : EntryType; te_name : string; te_claims : string }.
Record TempVersion := {
  tv_id : uuid; tv_entry : uuid; tv_name : string; tv_version : string; tv_title : string; tv_description : string;
  tv_created : Z }.
Abbreviation PackageKey := (uuid * string * string * string)%type.   (* server, registry type, identifier, transport *)
Abbreviation RemoteKey := (uuid * string * string)%type.             (* server, transport, url *)
Abbreviation IconKey := (uuid * string * string * IconTheme)%type.   (* server, uri, MIME type, theme *)

(** [None]: there is no such table. *)
Record Temp := {
  t_entry : option (list TempEntry);
  t_version : option (list TempVersion);
  t_server : option (list (uuid * ServerRow));
  t_package : option (list (PackageKey * PackageRow));
  t_remote : option (list (RemoteKey * string));
  t_icon : option (list IconKey) }.

Definition no_temp : Temp :=
  {| t_entry := None; t_version := None; t_server := None; t_package := None; t_remote := None; t_icon := None |}.

(** A table of the session. *)
Record TempTable (R : Type) := { tt_get : Temp -> option (list R); tt_put : option (list R) -> Temp -> Temp }.
Arguments tt_get {R}.
Arguments tt_put {R}.

Definition temp_registry_entry : TempTable TempEntry :=
  {| tt_get := t_entry; tt_put := fun x t => {| t_entry := x; t_version := t_version t; t_server := t_server t;
       t_package := t_package t; t_remote := t_remote t; t_icon := t_icon t |} |}.
Definition temp_entry_version : TempTable TempVersion :=
  {| tt_get := t_version; tt_put := fun x t => {| t_entry := t_entry t; t_version := x; t_server := t_server t;
       t_package := t_package t; t_remote := t_remote t; t_icon := t_icon t |} |}.
Definition temp_mcp_server : TempTable (uuid * ServerRow) :=
  {| tt_get := t_server; tt_put := fun x t => {| t_entry := t_entry t; t_version := t_version t; t_server := x;
       t_package := t_package t; t_remote := t_remote t; t_icon := t_icon t |} |}.
Definition temp_mcp_server_package : TempTable (PackageKey * PackageRow) :=
  {| tt_get := t_package; tt_put := fun x t => {| t_entry := t_entry t; t_version := t_version t; t_server := t_server t;
       t_package := x; t_remote := t_remote t; t_icon := t_icon t |} |}.
Definition temp_mcp_server_remote : TempTable (RemoteKey * string) :=
  {| tt_get := t_remote; tt_put := fun x t => {| t_entry := t_entry t; t_version := t_version t; t_server := t_server t;
       t_package := t_package t; t_remote := x; t_icon := t_icon t |} |}.
Definition temp_mcp_server_icon : TempTable IconKey :=
  {| tt_get := t_icon; tt_put := fun x t => {| t_entry := t_entry t; t_version := t_version t; t_server := t_server t;
       t_package := t_package t; t_remote := t_remote t; t_icon := x |} |}.

(** ** The monad *)

Definition W (A : Type) : Type := Temp -> Q (A * Temp).
#[export] Instance W_ret : MRet W := fun A a t => mret (a, t).
#[export] Instance W_bind : MBind W := fun A B f m t => m t ≫= fun '(a, t') => f a t'.

Definition wfail {A} (e : error) : W A := fun t => fail e.
Definition run_q {A} (q : Q A) : W A := fun t => a ← q; mret (a, t).
Definition wwrap {A} (msg : string) (m : W A) : W A := fun t => wrapping msg (m t).
Definition on_temp {A} (f : Temp -> DB -> result (A * Temp * DB)) : W A := fun t => query (fun d => f t d).

(** CREATE TEMP TABLE ... ON COMMIT DROP *)
Definition create_temp {R} (T : TempTable R) : W () :=
  on_temp (fun t d => match tt_get T t with
                      | Some _ => Err (EMsg "42P07")
                      | None => Ok ((), tt_put T (Some []) t, d)
                      end).
Definition copy_from {R} (T : TempTable R) (rows : list R) : W nat :=
  on_temp (fun t d => match tt_get T t with
                      | None => Err (EMsg "42P01")
                      | Some l => Ok (List.length rows, tt_put T (Some (l ++ rows)) t, d)
                      end).
(** DROP TABLE IF EXISTS *)
Definition drop_temp {R} (T : TempTable R) : W () := on_temp (fun t d => Ok ((), tt_put T None t, d)).
(** A statement that reads the table. *)
Definition from_temp {R A} (T : TempTable R) (f : list R -> DB -> result (A * DB)) : W A :=
  on_temp (fun t d => match tt_get T t with
                      | None => Err (EMsg "42P01")
                      | Some l => match f l d with Ok (a, d') => Ok (a, t, d') | Err e => Err e end
                      end).

(** INSERT ... SELECT ... ON CONFLICT (key) DO UPDATE: a command that meets a key
    twice is an error (21000). *)
Definition upsert {K V R} `{Countable K} (key : R -> K) (row : R -> option V -> V) (rows : list R) (m : gmap K V) : gmap K V :=
  foldl (fun m r => <[key r := row r (m !! key r)]> m) m rows.
Definition upsert_all {K V R} `{Countable K} (key : R -> K) (row : R -> option V -> V) (rows : list R) (m : gmap K V)
    : result (gmap K V) :=
  if decide (NoDup (key <$> rows)) then Ok (upsert key row rows m) else Err (EMsg "21000").

(** A reference to a row that is missing. *)
Definition foreign_key : error := EWrap ErrPgRestrict "23503".
Definition references {R} (ok : R -> bool) (rows : list R) : result () :=
  if forallb ok rows then Ok () else Err foreign_key.

(** ** Statements *)

Definition CreateTempRegistryEntryTable : W () := create_temp temp_registry_entry.
Definition CreateTempEntryVersionTable : W () := create_temp temp_entry_version.
Definition CreateTempServerTable : W () := create_temp temp_mcp_server.
Definition CreateTempPackageTable : W () := create_temp temp_mcp_server_package.
Definition CreateTempRemoteTable : W () := create_temp temp_mcp_server_remote.
Definition CreateTempIconTable : W () := create_temp temp_mcp_server_icon.
Definition DropTempRegistryEntryTable : W () := drop_temp temp_registry_entry.
Definition DropTempEntryVersionTable : W () := drop_temp temp_entry_version.

Definition te_key (r : TempEntry) : uuid * EntryType * string := (te_source r, te_type r, te_name r).
Definition te_row (r : TempEntry) (old : option EntryRow) : EntryRow :=
  {| en_id := match old with Some e => en_id e | None => te_id r end; en_claims := te_claims r |}.
Definition UpsertRegistryEntriesFromTemp : W (list (uuid * string)) :=
  from_temp temp_registry_entry (fun rows d =>
    m <- upsert_all te_key te_row rows (d_entry d) ;;
    Ok ((fun r => (match m !! te_key r with Some e => en_id e | None => uuid_Nil end, te_name r)) <$> rows, set_entry d m)).

Definition tv_key (r : TempVersion) : uuid * string := (tv_entry r, tv_version r).
Definition tv_row (r : TempVersion) (old : option VersionRow) : VersionRow :=
  {| ve_id := match old with Some v => ve_id v | None => tv_id r end; ve_name := tv_name r; ve_title := tv_title r;
     ve_description := tv_description r; ve_created := match old with Some v => ve_created v | None => tv_created r end |}.
Definition entry_exists (eid : uuid) (d : DB) : bool :=
  existsb (fun kv => (en_id (snd kv) =? eid)%nat) (map_to_list (d_entry d)).
Definition version_exists (vid : uuid) (d : DB) : bool :=
  existsb (fun kv => (ve_id (snd kv) =? vid)%nat) (map_to_list (d_version d)).
Definition UpsertEntryVersionsFromTemp : W (list (uuid * uuid * string)) :=
  from_temp temp_entry_version (fun rows d =>
    m <- upsert_all tv_key tv_row rows (d_version d) ;;
    references (fun r => entry_exists (tv_entry r) d) rows ;;;
    Ok ((fun r => (match m !! tv_key r with Some v => ve_id v | None => uuid_Nil end, tv_entry r, tv_version r)) <$> rows,
        set_version d m)).

Definition UpsertServersFromTemp : W () :=
  from_temp temp_mcp_server (fun rows d =>
    m <- upsert_all fst (fun r _ => snd r) rows (d_server d) ;;
    references (fun r => version_exists (fst r) d) rows ;;;
    Ok ((), set_content d m (d_package d) (d_remote d) (d_icon d))).

Definition server_exists (vid : uuid) (d : DB) : bool := bool_decide (is_Some (d_server d !! vid)).
Definition pk_server (k : PackageKey) : uuid := fst (fst (fst k)).
Definition UpsertPackagesFromTemp : W () :=
  from_temp temp_mcp_server_package (fun rows d =>
    m <- upsert_all fst (fun r _ => snd r) rows (d_package d) ;;
    references (fun r => server_exists (pk_server (fst r)) d) rows ;;;
    Ok ((), set_content d (d_server d) m (d_remote d) (d_icon d))).
(** The rows compare by server, identifier and transport: not by registry type. *)
Definition pk_short (k : PackageKey) : uuid * string * string := let '(s, _, i, t) := k in (s, i, t).
Definition DeleteOrphanedPackages (serverIds : list uuid) : W () :=
  from_temp temp_mcp_server_package (fun rows d =>
    Ok ((), set_content d (d_server d)
      (filter (fun kv => ~ (pk_server (fst kv) ∈ serverIds /\ pk_short (fst kv) ∉ ((pk_short ∘ fst) <$> rows))) (d_package d))
      (d_remote d) (d_icon d))).

Definition rm_server (k : RemoteKey) : uuid := fst (fst k).
Definition UpsertRemotesFromTemp : W () :=
  from_temp temp_mcp_server_remote (fun rows d =>
    m <- upsert_all fst (fun r _ => snd r) rows (d_remote d) ;;
    references (fun r => server_exists (rm_server (fst r)) d) rows ;;;
    Ok ((), set_content d (d_server d) (d_package d) m (d_icon d))).
Definition DeleteOrphanedRemotes (serverIds : list uuid) : W () :=
  from_temp temp_mcp_server_remote (fun rows d =>
    Ok ((), set_content d (d_server d) (d_package d)
      (filter (fun kv => ~ (rm_server (fst kv) ∈ serverIds /\ fst kv ∉ (fst <$> rows))) (d_remote d)) (d_icon d))).

(** DO NOTHING on conflict *)
Definition ic_server (k : IconKey) : uuid := fst (fst (fst k)).
Definition UpsertIconsFromTemp : W () :=
  from_temp temp_mcp_server_icon (fun rows d =>
    references (fun r => server_exists (ic_server r) d) rows ;;;
    Ok ((), set_content d (d_server d) (d_package d) (d_remote d) (foldl (fun m k => <[k := ()]> m) (d_icon d) rows))).
Definition DeleteOrphanedIcons (serverIds : list uuid) : W () :=
  from_temp temp_mcp_server_icon (fun rows d =>
    Ok ((), set_content d (d_server d) (d_package d) (d_remote d)
      (filter (fun kv => ~ (ic_server (fst kv) ∈ serverIds /\ fst kv ∉ rows)) (d_icon d)))).

Definition DeleteServerPackagesByServerId (vid : uuid) : Q () :=
  query (fun d => Ok ((), set_content d (d_server d) (filter (fun kv => pk_server (fst kv) <> vid) (d_package d)) (d_remote d) (d_icon d))).
Definition DeleteServerRemotesByServerId (vid : uuid) : Q () :=
  query (fun d => Ok ((), set_content d (d_server d) (d_package d) (filter (fun kv => rm_server (fst kv) <> vid) (d_remote d)) (d_icon d))).
Definition DeleteServerIconsByServerId (vid : uuid) : Q () :=
  query (fun d => Ok ((), set_content d (d_server d) (d_package d) (d_remote d) (filter (fun kv => ic_server (fst kv) <> vid) (d_icon d)))).

(** Versions of a set of entries. *)
Definition version_ids_of (entries : gset uuid) (d : DB) : gset uuid :=
  list_to_set (omap (fun '(k, r) => if decide (fst k ∈ entries) then Some (ve_id r) else None) (map_to_list (d_version d))).
(** DELETE FROM registry_entry WHERE id IN (...), with what hangs on it. *)
Definition delete_entries (entries : gset uuid) (d : DB) : DB :=
  let dead := version_ids_of entries d in
  set_entry (cascade_versions (fun id => bool_decide (id ∈ dead)) d)
    (filter (fun kv => en_id (snd kv) ∉ entries) (d_entry d)).
(** Entries of a source with a version in a table. *)
Definition entries_with (present : uuid -> bool) (sid : uuid) (d : DB) : gset uuid :=
  list_to_set (omap (fun '((s, _, _), e) =>
    if (s =? sid)%nat && existsb (fun vr => present (ve_id (snd vr))) (entry_versions (en_id e) d)
    then Some (en_id e) else None) (map_to_list (d_entry d))).

Definition DeleteServersByRegistry (sid : uuid) : Q () :=
  query (fun d => Ok ((), delete_entries (entries_with (fun vid => server_exists vid d) sid d) d)).
Definition DeleteSkillsByRegistry (sid : uuid) : Q () :=
  query (fun d => Ok ((), delete_entries (entries_with (fun vid => bool_decide (is_Some (d_skill d !! vid))) sid d) d)).
Definition DeletePluginsByRegistry (sid : uuid) : Q () :=
  query (fun d => Ok ((), delete_entries (entries_with (fun vid => bool_decide (is_Some (d_plugin d !! vid))) sid d) d)).

Definition typed_version_ids (sid : uuid) (ty : EntryType) (d : DB) : gset uuid :=
  list_to_set (map_to_list (d_entry d) ≫= fun '((s, t, _), e) =>
    if (s =? sid)%nat && bool_decide (t = ty) then (fun vr => ve_id (snd vr)) <$> entry_versions (en_id e) d else []).
(** Only versions: an entry left without any stays. *)
Definition DeleteOrphanedEntryVersions (sid : uuid) (ty : EntryType) (keepIds : list uuid) : Q () :=
  query (fun d =>
    let dead := typed_version_ids sid ty d ∖ list_to_set keepIds in
    Ok ((), cascade_versions (fun id => bool_decide (id ∈ dead)) d)).

Definition server_ids (sid : uuid) (d : DB) : list (uuid * string * string) :=
  map_to_list (d_entry d) ≫= fun '((s, _, name), e) =>
    if (s =? sid)%nat then
      omap (fun '(v, r) => if server_exists (ve_id r) d then Some (ve_id r, name, v) else None) (entry_versions (en_id e) d)
    else [].
Definition GetServerIDsByRegistryNameVersion (sid : uuid) : Q (list (uuid * string * string)) :=
  select (fun d => Ok (server_ids sid d)).

(** ** Entries and versions *)

(** [uuid.NewV7] *)
Definition NewV7 : Q uuid := fun o n d => (Ok (d_next d), n, set_next d (S (d_next d))).

(** The rows for [temp_registry_entry]: one per name, in order. *)
Fixpoint entry_rows (sid : uuid) (ty : EntryType) (claims_of : string -> string) (seen : gset string) (names : list string)
    : Q (list TempEntry) :=
  match names with
  | [] => mret []
  | name :: names' =>
      if decide (name ∈ seen) then entry_rows sid ty claims_of seen names'
      else
        entryID ← NewV7;
        rows ← entry_rows sid ty claims_of ({[ name ]} ∪ seen) names';
        mret ({| te_id := entryID; te_source := sid; te_type := ty; te_name := name; te_claims := claims_of name |} :: rows)
  end.

Definition copyAndUpsertEntries (entryRows : list TempEntry) : W (gmap string uuid) :=
  _ ← wwrap "failed to create temp registry entry table" CreateTempRegistryEntryTable;
  entryCopyCount ← wwrap "failed to copy entries to temp table" (copy_from temp_registry_entry entryRows);
  if negb (entryCopyCount =? List.length entryRows)%nat then wfail (EMsg "copy count mismatch: expected %d, got %d")
  else
    copiedRows ← wwrap "failed to upsert registry entries from temp table" UpsertRegistryEntriesFromTemp;
    mret (foldl (fun m row => <[snd row := fst row]> m) ∅ copiedRows).

Definition sqlCopyEntries (registryID : uuid) (servers : list ServerJSON) (claims : string) (perEntryClaims : gmap string string)
    : W (gmap string uuid) :=
  entryRows ← run_q (entry_rows registryID EntryTypeMCP (fun name => default claims (perEntryClaims !! name)) ∅ (sj_Name <$> servers));
  copyAndUpsertEntries entryRows.

(** The columns of a version: name, version, title, description. *)
Definition VersionColumns : Type := string * string * string * string.
Fixpoint version_rows (entryMap : gmap string uuid) (now : Z) (items : list VersionColumns) : Q (list TempVersion) :=
  match items with
  | [] => mret []
  | (name, version, title, description) :: items' =>
      match entryMap !! name with
      | None => fail (EMsg "entry ID not found for %s")
      | Some entryID =>
          versionID ← NewV7;
          rows ← version_rows entryMap now items';
          mret ({| tv_id := versionID; tv_entry := entryID; tv_name := name; tv_version := version; tv_title := title;
                   tv_description := description; tv_created := now |} :: rows)
      end
  end.

Definition copyAndUpsertEntryVersions (versionRows : list TempVersion) : W (list (uuid * uuid * string)) :=
  _ ← wwrap "failed to create temp entry version table" CreateTempEntryVersionTable;
  copyCount ← wwrap "failed to copy entry versions to temp table" (copy_from temp_entry_version versionRows);
  if negb (copyCount =? List.length versionRows)%nat then wfail (EMsg "copy count mismatch: expected %d, got %d")
  else wwrap "failed to upsert entry versions from temp table" UpsertEntryVersionsFromTemp.

(** entry_id -> name *)
Definition entryIDToName (entryMap : gmap string uuid) : gmap uuid string :=
  list_to_map ((fun '(name, id) => (id, name)) <$> map_to_list entryMap).

Definition serverKey (name version : string) : string := name +:+ "@" +:+ version.
Definition key_of (server : ServerJSON) : string := serverKey (sj_Name server) (sj_Version server).
Definition server_columns (s : ServerJSON) : VersionColumns := (sj_Name s, sj_Version s, sj_Title s, sj_Description s).

Definition version_map (keyOf : string -> string -> string) (entryMap : gmap string uuid) (copiedRows : list (uuid * uuid * string))
    : gmap string uuid :=
  foldl (fun m row => <[keyOf (default "" (entryIDToName entryMap !! snd (fst row))) (snd row) := fst (fst row)]> m) ∅ copiedRows.

Definition sqlCopyEntryVersions (entryMap : gmap string uuid) (servers : list ServerJSON) (now : Z) : W (gmap string uuid) :=
  versionRows ← run_q (version_rows entryMap now (server_columns <$> servers));
  copiedRows ← copyAndUpsertEntryVersions versionRows;
  mret (version_map serverKey entryMap copiedRows).

(** ** Servers *)

Section Servers.
Context `{SC : ServerCodec} `{L : SemverLib}.

(** The rows for [temp_mcp_server]. *)
Fixpoint server_rows (servers : list ServerJSON) (entryIDMap : gmap string uuid) (maxMetaSize : Z)
    : result (list (uuid * ServerRow)) :=
  match servers with
  | [] => Ok []
  | server :: servers' =>
      match SerializeServerMeta (sj_Meta server) maxMetaSize with
      | Err e => Err (wrapf "failed to serialize metadata for server %s" e)
      | Ok serverMeta =>
          rows <- server_rows servers' entryIDMap maxMetaSize ;;
          Ok ((default uuid_Nil (entryIDMap !! key_of server), server_row server serverMeta) :: rows)
      end
  end.

Definition sqlCopyServers (servers : list ServerJSON) (entryIDMap : gmap string uuid) (maxMetaSize : Z) : W () :=
  _ ← wwrap "failed to create temp server table" CreateTempServerTable;
  mcpRows ← run_q (lift (server_rows servers entryIDMap maxMetaSize));
  copyCount ← wwrap "failed to copy servers to temp table" (copy_from temp_mcp_server mcpRows);
  if negb (copyCount =? List.length servers)%nat then wfail (EMsg "copy count mismatch: expected %d, got %d")
  else wwrap "failed to upsert servers from temp table" UpsertServersFromTemp.

(** The ids of the servers of the input, read back. *)
Definition server_id_map (servers : list ServerJSON) (dbServers : list (uuid * string * string)) : gmap string uuid :=
  let expectedKeys : gset string := list_to_set (key_of <$> servers) in
  foldl (fun m row =>
    let key := serverKey (snd (fst row)) (snd row) in
    if decide (key ∈ expectedKeys) then <[key := fst (fst row)]> m else m) ∅ dbServers.

Definition storeSyncInTempTables (maxMetaSize now : Z) (registryID : uuid) (servers : list ServerJSON) (claims : string)
    (perEntryClaims : gmap string string) : W (gmap string uuid) :=
  if (List.length servers =? 0)%nat then mret ∅
  else
    entryMap ← wwrap "failed to copy entries" (sqlCopyEntries registryID servers claims perEntryClaims);
    versionMap ← wwrap "failed to copy entry versions" (sqlCopyEntryVersions entryMap servers now);
    _ ← wwrap "failed to copy servers" (sqlCopyServers servers versionMap maxMetaSize);
    dbServers ← wwrap "failed to query server IDs" (run_q (GetServerIDsByRegistryNameVersion registryID));
    mret (server_id_map servers dbServers).

Definition deleteOrphanedEntries (registryID : uuid) (entryType : EntryType) (keepIDs : list uuid) : W () :=
  if (List.length keepIDs =? 0)%nat then
    match entryType with
    | EntryTypeMCP => run_q (DeleteServersByRegistry registryID)
    | EntryTypeSKILL => run_q (DeleteSkillsByRegistry registryID)
    | EntryTypePLUGIN => run_q (DeletePluginsByRegistry registryID)
    end
  else run_q (DeleteOrphanedEntryVersions registryID entryType keepIDs).

Definition collectValues (m : gmap string uuid) : list uuid := snd <$> map_to_list m.

Definition dropEntryTempTables : W () :=
  _ ← wwrap "failed to drop temp registry entry table" DropTempRegistryEntryTable;
  wwrap "failed to drop temp entry version table" DropTempEntryVersionTable.

(** *** Packages, remotes, icons *)

(** The loop all three share: the rows of each server, and the ids met. *)
Fixpoint related_rows {R} (rows_of : uuid -> ServerJSON -> result (list R)) (serverIDMap : gmap string uuid)
    (servers : list ServerJSON) : result (list R * gset uuid) :=
  match servers with
  | [] => Ok ([], ∅)
  | server :: servers' =>
      match serverIDMap !! key_of server with
      | None => Err (EMsg "server ID not found for %s@%s")
      | Some serverID =>
          rows <- rows_of serverID server ;;
          rest <- related_rows rows_of serverIDMap servers' ;;
          Ok (rows ++ fst rest, {[ serverID ]} ∪ snd rest)
      end
  end.

Definition writer_serializeKeyValueInputs (kvInputs : list KeyValueInput) : string :=
  if (List.length kvInputs =? 0)%nat then "[]" else default "[]" (kv_Marshal kvInputs).

Definition package_key (serverID : uuid) (pkg : Package) : PackageKey :=
  (serverID, pk_RegistryType pkg, pk_Identifier pkg, tr_Type (pk_Transport pkg)).
Definition package_row (serverID : uuid) (pkg : Package) : result (PackageKey * PackageRow) :=
  match SerializeArguments (pk_RuntimeArguments pkg), SerializeArguments (pk_PackageArguments pkg) with
  | Err e, _ => Err (wrapf "failed to serialize runtime arguments for %s" e)
  | _, Err e => Err (wrapf "failed to serialize package arguments for %s" e)
  | Ok runtimeArgsJSON, Ok packageArgsJSON =>
      Ok (package_key serverID pkg,
        {| pa_registry_url := pk_RegistryBaseURL pkg; pa_version := pk_Version pkg; pa_runtime_hint := pk_RunTimeHint pkg;
           pa_runtime_arguments := runtimeArgsJSON; pa_package_arguments := packageArgsJSON;
           pa_env_vars := writer_serializeKeyValueInputs (pk_EnvironmentVariables pkg); pa_sha256 := pk_FileSHA256 pkg;
           pa_transport_url := tr_URL (pk_Transport pkg);
           pa_transport_headers := writer_serializeKeyValueInputs (tr_Headers (pk_Transport pkg)) |})
  end.
Fixpoint map_result {A B} (f : A -> result B) (l : list A) : result (list B) :=
  match l with
  | [] => Ok []
  | x :: l' => y <- f x ;; ys <- map_result f l' ;; Ok (y :: ys)
  end.

Inductive DataType := DataPackage | DataRemote | DataIcon.
Definition deleteOrphansWithEmptyTemp (serverIDs : gset uuid) (dataType : DataType) : Q () :=
  for_each_q (fun serverID =>
    match dataType with
    | DataPackage => DeleteServerPackagesByServerId serverID
    | DataRemote => DeleteServerRemotesByServerId serverID
    | DataIcon => DeleteServerIconsByServerId serverID
    end) (elements serverIDs).

Definition bulkInsertPackages (serverIDMap : gmap string uuid) (servers : list ServerJSON) : W () :=
  collected ← run_q (lift (related_rows (fun id s => map_result (package_row id) (sj_Packages s)) serverIDMap servers));
  let '(packageRows, serverIDs) := collected in
  if (List.length packageRows =? 0)%nat then run_q (deleteOrphansWithEmptyTemp serverIDs DataPackage)
  else
    _ ← wwrap "failed to create temp package table" CreateTempPackageTable;
    _ ← wwrap "failed to copy packages" (copy_from temp_mcp_server_package packageRows);
    _ ← wwrap "failed to upsert packages" UpsertPackagesFromTemp;
    wwrap "failed to delete orphaned packages" (DeleteOrphanedPackages (elements serverIDs)).

(** A remote met before is passed over. *)
Definition remote_row (serverID : uuid) (remote : Transport) : RemoteKey * string :=
  ((serverID, tr_Type remote, tr_URL remote), writer_serializeKeyValueInputs (tr_Headers remote)).
Fixpoint unseen {K V} `{Countable K} (seen : gset K) (rows : list (K * V)) : list (K * V) :=
  match rows with
  | [] => []
  | r :: rows' => if decide (fst r ∈ seen) then unseen seen rows' else r :: unseen ({[ fst r ]} ∪ seen) rows'
  end.

Definition bulkInsertRemotes (serverIDMap : gmap string uuid) (servers : list ServerJSON) : W () :=
  collected ← run_q (lift (related_rows (fun id s => Ok (remote_row id <$> sj_Remotes s)) serverIDMap servers));
  let '(allRows, serverIDs) := collected in
  let remoteRows := unseen ∅ allRows in
  if (List.length remoteRows =? 0)%nat then run_q (deleteOrphansWithEmptyTemp serverIDs DataRemote)
  else
    _ ← wwrap "failed to create temp remote table" CreateTempRemoteTable;
    _ ← wwrap "failed to copy remotes" (copy_from temp_mcp_server_remote remoteRows);
    _ ← wwrap "failed to upsert remotes" UpsertRemotesFromTemp;
    wwrap "failed to delete orphaned remotes" (DeleteOrphanedRemotes (elements serverIDs)).

Definition icon_row (serverID : uuid) (icon : Icon) : IconKey :=
  (serverID, ic_Src icon, default "" (ic_MimeType icon), icon_theme icon).
Definition bulkInsertIcons (serverIDMap : gmap string uuid) (servers : list ServerJSON) : W () :=
  collected ← run_q (lift (related_rows (fun id s => Ok (icon_row id <$> sj_Icons s)) serverIDMap servers));
  let '(iconRows, serverIDs) := collected in
  if (List.length iconRows =? 0)%nat then run_q (deleteOrphansWithEmptyTemp serverIDs DataIcon)
  else
    _ ← wwrap "failed to create temp icon table" CreateTempIconTable;
    _ ← wwrap "failed to copy icons" (copy_from temp_mcp_server_icon iconRows);
    _ ← wwrap "failed to upsert icons" UpsertIconsFromTemp;
    wwrap "failed to delete orphaned icons" (DeleteOrphanedIcons (elements serverIDs)).

Definition insertRelatedData (serverIDMap : gmap string uuid) (servers : list ServerJSON) : W () :=
  _ ← wwrap "failed to bulk insert packages" (bulkInsertPackages serverIDMap servers);
  _ ← wwrap "failed to bulk insert remotes" (bulkInsertRemotes serverIDMap servers);
  wwrap "failed to bulk insert icons" (bulkInsertIcons serverIDMap servers).

(** *** Latest pointers *)

(** One turn of the loop that finds the latest version of each name. *)
Definition latest_step (m : gmap string (string * uuid)) (x : string * string * uuid) : gmap string (string * uuid) :=
  let '(name, version, id) := x in
  match m !! name with
  | None => <[name := (version, id)]> m
  | Some (existing, _) => if IsNewerVersion version existing then <[name := (version, id)]> m else m
  end.
Definition latest_versions (l : list (string * string * uuid)) : gmap string (string * uuid) := foldl latest_step ∅ l.
Definition upsert_latest (registryID : uuid) (latestVersions : gmap string (string * uuid)) : Q () :=
  for_each_q (fun '(name, (version, id)) =>
    _ ← wrapping "failed to upsert latest version for %s" (UpsertLatestVersion registryID name version id); mret ())
    (map_to_list latestVersions).

Definition updateLatestVersions (registryID : uuid) (serverIDMap : gmap string uuid) (servers : list ServerJSON) : Q () :=
  upsert_latest registryID (latest_versions
    ((fun s => (sj_Name s, sj_Version s, default uuid_Nil (serverIDMap !! key_of s))) <$> servers)).
End Servers.

(** ** Skills and plugins

    The two mirrored halves, once over an interface. *)

Class UpstreamKind (U X R : Type) {K : ArtifactKind X R} := {
  u_item : U -> Item;
  u_row : U -> ArtifactRow -> R;
  u_delete : uuid -> Q () }.      (* DeleteSkillsByRegistry, DeletePluginsByRegistry *)

#[export] Instance UpstreamSkill : UpstreamKind Skill SkillValue SkillRow :=
  {| u_item := sk_item; u_delete := DeleteSkillsByRegistry;
     u_row := fun s a => {| sl_row := a; sl_compatibility := sk_Compatibility s; sl_allowed_tools := sk_AllowedTools s |} |}.
#[export] Instance UpstreamPlugin : UpstreamKind Plugin Artifact ArtifactRow :=
  {| u_item := pl_item; u_delete := DeletePluginsByRegistry; u_row := fun _ a => a |}.

Section Kinds.
Context {U X R : Type} {K : ArtifactKind X R} {UK : UpstreamKind U X R}.
Context `{AC : ArtifactCodec} `{L : SemverLib}.

Definition skillKey (namespace name version : string) : string := namespace +:+ "/" +:+ name +:+ "@" +:+ version.
Definition item_key (i : Item) : string := skillKey (it_Namespace i) (it_Name i) (it_Version i).
Definition item_columns (i : Item) : VersionColumns := (it_Name i, it_Version i, it_Title i, it_Description i).

(** [marshalJSONOrNil] of a pointer; a nil slice or map is "null". *)
Definition marshalRepositoryOrNil (r : option ArtifactRepository) : result string :=
  match r with
  | None => Ok ""
  | Some _ => or_err "failed to marshal repository for skill %s" (marshal_repository r)
  end.

(** UpsertSkillVersionForSync: on conflict the namespace stays, and a status that
    is not given too. *)
Definition UpsertArtifactVersionForSync (versionID : uuid) (u : U) (status : option string)
    (repository icons metadata extensionMeta : string) : Q uuid :=
  query (fun d =>
    match (match status with None => Some None | Some s => Some <$> status_enum s end) with
    | None => Err (EMsg "22P02")
    | Some st =>
        if negb (version_exists versionID d) then Err foreign_key
        else
          let i := u_item u in
          let old := k_art <$> k_table d !! versionID in
          let row := u_row u
            {| ar_namespace := match old with Some a => ar_namespace a | None => it_Namespace i end;
               ar_status := match st, old with Some st, _ => st | None, Some a => ar_status a | None, None => StatusACTIVE end;
               ar_license := it_License i; ar_repository := repository; ar_icons := icons; ar_metadata := metadata;
               ar_extension_meta := extensionMeta; ar_oci := match old with Some a => ar_oci a | None => [] end;
               ar_git := match old with Some a => ar_git a | None => [] end |} in
          Ok (versionID, k_set d (<[versionID := row]> (k_table d)))
    end).

Definition upsertSingleVersion (u : U) (versionID : uuid) : Q uuid :=
  let i := u_item u in
  repoJSON ← lift (marshalRepositoryOrNil (it_Repository i));
  iconsJSON ← lift (or_err "failed to marshal icons for skill %s" (marshal_icons (it_Icons i)));
  metadataJSON ← lift (or_err "failed to marshal metadata for skill %s" (marshal_map (it_Metadata i)));
  extMetaJSON ← lift (or_err "failed to marshal extension meta for skill %s" (marshal_map (it_Meta i)));
  let status := if String.eqb (it_Status i) "" then None else Some (ToUpper (it_Status i)) in
  wrapping "failed to upsert skill version for %s"
    (UpsertArtifactVersionForSync versionID u status repoJSON iconsJSON metadataJSON extMetaJSON).

(** DeleteSkillOciPackagesBySkillId, DeleteSkillGitPackagesBySkillId *)
Definition update_art (vid : uuid) (f : ArtifactRow -> ArtifactRow) : Q () :=
  query (fun d => Ok ((), k_set d (alter (fun r => k_with r (f (k_art r))) vid (k_table d)))).
Definition clear_oci (a : ArtifactRow) : ArtifactRow :=
  {| ar_namespace := ar_namespace a; ar_status := ar_status a; ar_license := ar_license a; ar_repository := ar_repository a;
     ar_icons := ar_icons a; ar_metadata := ar_metadata a; ar_extension_meta := ar_extension_meta a; ar_oci := []; ar_git := ar_git a |}.
Definition clear_git (a : ArtifactRow) : ArtifactRow :=
  {| ar_namespace := ar_namespace a; ar_status := ar_status a; ar_license := ar_license a; ar_repository := ar_repository a;
     ar_icons := ar_icons a; ar_metadata := ar_metadata a; ar_extension_meta := ar_extension_meta a; ar_oci := ar_oci a; ar_git := [] |}.
Definition DeleteOciPackages (vid : uuid) : Q () := update_art vid clear_oci.
Definition DeleteGitPackages (vid : uuid) : Q () := update_art vid clear_git.

Definition replacePackages (u : U) (versionID : uuid) : Q () :=
  _ ← wrapping "failed to delete OCI packages for skill %s" (DeleteOciPackages versionID);
  _ ← wrapping "failed to delete Git packages for skill %s" (DeleteGitPackages versionID);
  for_each_q (insertPackage versionID) (it_Packages (u_item u)).

Fixpoint upsertVersionsAndPackages (versionMap : gmap string uuid) (us : list U) : Q (list uuid) :=
  match us with
  | [] => mret []
  | u :: us' =>
      match versionMap !! item_key (u_item u) with
      | None => fail (EMsg "version ID not found for skill %s")
      | Some versionID =>
          id ← upsertSingleVersion u versionID;
          _ ← replacePackages u id;
          keepIDs ← upsertVersionsAndPackages versionMap us';
          mret (id :: keepIDs)
      end
  end.

(** The key of a copied row: its namespace is looked up by name and version. *)
Definition namespaces (us : list U) : gmap (string * string) string :=
  foldl (fun m u => <[(it_Name (u_item u), it_Version (u_item u)) := it_Namespace (u_item u)]> m) ∅ us.
Definition kind_key (us : list U) (name version : string) : string :=
  skillKey (default "" (namespaces us !! (name, version))) name version.

Definition updateLatestKindVersions (registryID : uuid) (us : list U) (versionMap : gmap string uuid) : Q () :=
  upsert_latest registryID (latest_versions
    ((fun u => (it_Name (u_item u), it_Version (u_item u), default uuid_Nil (versionMap !! item_key (u_item u)))) <$> us)).

(** [storeSkills], [storePlugins] *)
Definition storeKind (registryID : uuid) (us : list U) (claims : string) (now : Z) : W () :=
  if (List.length us =? 0)%nat then run_q (u_delete registryID)
  else
    entryRows ← run_q (entry_rows registryID k_entry (fun _ => claims) ∅ ((fun u => it_Name (u_item u)) <$> us));
    entryMap ← wwrap "failed to copy skill entries" (copyAndUpsertEntries entryRows);
    versionRows ← run_q (version_rows entryMap now ((fun u => item_columns (u_item u)) <$> us));
    copiedRows ← wwrap "failed to copy skill entry versions" (copyAndUpsertEntryVersions versionRows);
    let versionMap := version_map (kind_key us) entryMap copiedRows in
    keepIDs ← run_q (upsertVersionsAndPackages versionMap us);
    _ ← wwrap "failed to delete orphaned skills" (deleteOrphanedEntries registryID k_entry keepIDs);
    run_q (updateLatestKindVersions registryID us versionMap).
End Kinds.

(** ** [Store] *)

Section Store.
Context `{SC : ServerCodec} `{AC : ArtifactCodec} `{L : SemverLib}.

Record dbSyncWriter := { dw_maxMetaSize : Z }.

(** The half of the plugins. *)
Definition pluginKey : string -> string -> string -> string := skillKey.
Definition UpsertPluginVersionForSync := UpsertArtifactVersionForSync (U := Plugin).
Definition DeletePluginOciPackagesByPluginId := DeleteOciPackages (X := Artifact).
Definition DeletePluginGitPackagesByPluginId := DeleteGitPackages (X := Artifact).
Definition upsertSinglePluginVersion := upsertSingleVersion (U := Plugin).
Definition replacePluginPackages := replacePackages (U := Plugin).
Definition upsertPluginVersionsAndPackages := upsertVersionsAndPackages (U := Plugin).
Definition updateLatestPluginVersions := updateLatestKindVersions (U := Plugin).

Definition storeSkills (registryID : uuid) (skills : list Skill) (claims : string) (now : Z) : W () := storeKind registryID skills claims now.
Definition storePlugins (registryID : uuid) (plugins : list Plugin) (claims : string) (now : Z) : W () := storeKind registryID plugins claims now.

Definition store_body (w : dbSyncWriter) (registryName : string) (reg : UpstreamRegistry) (perEntryClaims : gmap string string)
    (now : Z) : W () :=
  found ← run_q (attempt (GetSourceByName registryName));
  match found with
  | Err err => if errorIs err ErrNoRows then wfail (EMsg "registry not found: %s") else wfail (wrapf "failed to get registry" err)
  | Ok registry =>
      let sid := so_id registry in
      serverIDMap ← wwrap "failed to upsert servers"
        (storeSyncInTempTables (dw_maxMetaSize w) now sid (ur_Servers reg) (so_claims registry) perEntryClaims);
      _ ← dropEntryTempTables;
      _ ← wwrap "failed to delete orphaned servers" (deleteOrphanedEntries sid EntryTypeMCP (collectValues serverIDMap));
      _ ← wwrap "failed to insert related data" (insertRelatedData serverIDMap (ur_Servers reg));
      _ ← wwrap "failed to update latest versions" (run_q (updateLatestVersions sid serverIDMap (ur_Servers reg)));
      _ ← wwrap "failed to store skills" (storeSkills sid (ur_Skills reg) (so_claims registry) now);
      wwrap "failed to store plugins" (storePlugins sid (ur_Plugins reg) (so_claims registry) now)
  end.

(** A store option sets the claims of single entries. *)
Definition db_Store (w : dbSyncWriter) (registryName : string) (reg : option UpstreamRegistry) (perEntryClaims : gmap string string)
    (now : Z) : Q () :=
  match reg with
  | None => fail (EMsg "registry data is required")
  | Some reg => transaction (r ← store_body w registryName reg perEntryClaims now no_temp; mret (fst r))
  end.
End Store.

(** ** Runs *)

Lemma wbind_run {A B} (m : W A) (f : A -> W B) t o n d b t' n' d' :
  (m ≫= f) t o n d = (Ok (b, t'), n', d') ->
  exists a t1 n1 d1, m t o n d = (Ok (a, t1), n1, d1) /\ f a t1 o n1 d1 = (Ok (b, t'), n', d').
Proof.
  unfold mbind, W_bind. intros ([a t1] & n1 & d1 & E & H)%bind_run_ok. by exists a, t1, n1, d1.
Qed.
Lemma wret_run {A} (a b : A) t o n d t' n' d' : mret (M := W) a t o n d = (Ok (b, t'), n', d') -> b = a /\ t' = t /\ d' = d.
Proof. unfold mret, W_ret. intros (E & _ & ->)%ret_run_ok. by simplify_eq. Qed.
Lemma wfail_run {A} e t o n d (x : A * Temp) n' d' : wfail e t o n d = (Ok x, n', d') -> False.
Proof. apply fail_run_ok. Qed.
Lemma wwrap_run {A} msg (m : W A) t o n d x n' d' : wwrap msg m t o n d = (Ok x, n', d') -> m t o n d = (Ok x, n', d').
Proof. apply wrapping_run_ok. Qed.
Lemma run_q_run {A} (q : Q A) t o n d a t' n' d' :
  run_q q t o n d = (Ok (a, t'), n', d') -> t' = t /\ q o n d = (Ok a, n', d').
Proof.
  unfold run_q. intros (x & n1 & d1 & E & H)%bind_run_ok. apply ret_run_ok in H as (H & -> & ->). by simplify_eq.
Qed.
Lemma create_run {R} (T : TempTable R) t o n d x n' d' :
  create_temp T t o n d = (Ok x, n', d') -> tt_get T t = None /\ snd x = tt_put T (Some []) t /\ d' = d.
Proof. intros H%query_run_ok. destruct (tt_get T t); by simplify_eq. Qed.
Lemma copy_run {R} (T : TempTable R) rows t o n d x n' d' :
  copy_from T rows t o n d = (Ok x, n', d') ->
  exists l, tt_get T t = Some l /\ x = (List.length rows, tt_put T (Some (l ++ rows)) t) /\ d' = d.
Proof. intros H%query_run_ok. destruct (tt_get T t) as [l|]; simplify_eq. by exists l. Qed.
Lemma from_run {R A} (T : TempTable R) (f : list R -> DB -> result (A * DB)) t o n d a t' n' d' :
  from_temp T f t o n d = (Ok (a, t'), n', d') -> exists l, tt_get T t = Some l /\ f l d = Ok (a, d') /\ t' = t.
Proof.
  intros H%query_run_ok. destruct (tt_get T t) as [l|]; [|done]. destruct (f l d) as [[b d1]|] eqn:Ef; simplify_eq. by exists l.
Qed.
Lemma drop_run {R} (T : TempTable R) t o n d x n' d' :
  drop_temp T t o n d = (Ok x, n', d') -> snd x = tt_put T None t /\ d' = d.
Proof. intros H%query_run_ok. by simplify_eq. Qed.

Ltac wbind_in H a E :=
  let t := fresh "t" in let n := fresh "n" in let d := fresh "d" in
  apply wbind_run in H as (a & t & n & d & E & H); repeat apply wwrap_run in E;
  match type of a with unit => destruct a | _ => idtac end.
Ltac wq_in H a E := wbind_in H a E; apply run_q_run in E as [-> E].

Lemma copyAndUpsertEntries_run rows t o n d entryMap t' n' d' :
  copyAndUpsertEntries rows t o n d = (Ok (entryMap, t'), n', d') ->
  t_entry t = None /\ t' = tt_put temp_registry_entry (Some rows) t /\
  exists m, upsert_all te_key te_row rows (d_entry d) = Ok m /\ d' = set_entry d m /\
    entryMap = foldl (fun m row => <[snd row := fst row]> m) ∅
      ((fun r => (match m !! te_key r with Some e => en_id e | None => uuid_Nil end, te_name r)) <$> rows).
Proof.
  intros H. unfold copyAndUpsertEntries in H. wbind_in H u E. apply create_run in E as (Ht & Et & ->). cbn in Et. subst t0.
  wbind_in H k E. apply copy_run in E as (l & El & Ex & ->). cbn in El. injection El as <-. injection Ex as -> ->.
  rewrite Nat.eqb_refl in H. cbn [negb] in H. wbind_in H copied E. apply from_run in E as (l & El & E & ->). cbn in El. injection El as <-.
  destruct (upsert_all te_key te_row rows (d_entry d)) as [m|] eqn:Em; [|done]. cbn in E. injection E as <- <-.
  apply wret_run in H as (-> & -> & ->). split; [done|]. split; [done|]. by exists m.
Qed.

Lemma copyAndUpsertEntryVersions_run rows t o n d copied t' n' d' :
  copyAndUpsertEntryVersions rows t o n d = (Ok (copied, t'), n', d') ->
  t_version t = None /\ t' = tt_put temp_entry_version (Some rows) t /\
  exists m, upsert_all tv_key tv_row rows (d_version d) = Ok m /\ d' = set_version d m /\
    Forall (fun r => entry_exists (tv_entry r) d = true) rows /\
    copied = (fun r => (match m !! tv_key r with Some v => ve_id v | None => uuid_Nil end, tv_entry r, tv_version r)) <$> rows.
Proof.
  intros H. unfold copyAndUpsertEntryVersions in H. wbind_in H u E. apply create_run in E as (Ht & Et & ->). cbn in Et. subst t0.
  wbind_in H k E. apply copy_run in E as (l & El & Ex & ->). cbn in El. injection El as <-. injection Ex as -> ->.
  rewrite Nat.eqb_refl in H. cbn [negb] in H. apply wwrap_run in H. apply from_run in H as (l & El & E & ->). cbn in El. injection El as <-.
  destruct (upsert_all tv_key tv_row rows (d_version d)) as [m|] eqn:Em; [|done]. unfold rbind, references in E.
  destruct (forallb _ rows) eqn:Ef; [|done]. injection E as <- <-. split; [done|]. split; [done|]. exists m. split_and!; try done.
  apply Forall_forall. intros r Hr. rewrite forallb_forall in Ef. by apply Ef, list_elem_of_In.
Qed.

(** ** A registry with skills and plugins cannot be stored *)

Section Both.
Context `{SC : ServerCodec} `{AC : ArtifactCodec} `{L : SemverLib}.

Lemma deleteOrphaned_temp sid ty keep t o n d x n' d' :
  deleteOrphanedEntries sid ty keep t o n d = (Ok x, n', d') -> snd x = t.
Proof.
  unfold deleteOrphanedEntries. intros H. destruct x as [[] t']. cbn.
  destruct (_ =? 0)%nat; [destruct ty|]; by apply run_q_run in H as [-> _].
Qed.

Lemma storeKind_temp {U X R} {K : ArtifactKind X R} {UK : UpstreamKind U X R} sid (us : list U) c now t o n d x n' d' :
  us <> [] -> storeKind sid us c now t o n d = (Ok x, n', d') -> t_entry t = None /\ t_entry (snd x) <> None.
Proof.
  intros Hne H. destruct x as [[] t']. unfold storeKind in H. destruct us as [|u us]; [done|]. cbn [List.length Nat.eqb] in H.
  wq_in H rows E. wbind_in H em E2. apply copyAndUpsertEntries_run in E2 as (Ht & -> & _). wq_in H vr E3.
  wbind_in H cp E4. apply copyAndUpsertEntryVersions_run in E4 as (_ & -> & _). wq_in H ks E5.
  wbind_in H w E6. apply deleteOrphaned_temp in E6. cbn in E6. subst. apply run_q_run in H as [-> _]. done.
Qed.

(** C19. A registry that has both skills and plugins is never stored: the second
    of the two finds the temporary tables of the first still there, and the
    whole sync fails, each time. *)
Theorem Store_both_kinds_fails w name reg claims now o n d :
  ur_Skills reg <> [] -> ur_Plugins reg <> [] ->
  exists err n', db_Store w name (Some reg) claims now o n d = (Err err, n', d).
Proof.
  intros Hs Hp. destruct (db_Store w name (Some reg) claims now o n d) as [[[[]|err] n'] d'] eqn:H.
  2:{ pose proof (transaction_atomic _ _ _ _ _ _ _ H) as ->. by exists err, n'. }
  exfalso. apply transaction_ok in H as (n1 & n2 & H). apply bind_run_ok in H as ([[] t] & n3 & d3 & H & _).
  unfold store_body in H. wq_in H found E. destruct found as [src|err]; [|case_match; by apply wfail_run in H].
  wbind_in H sm E1. wbind_in H u E2. wbind_in H u' E3. wbind_in H u2 E4. wbind_in H u3 E5. wbind_in H u4 E6.
  apply wwrap_run in H. destruct (ur_Skills reg) as [|s ss] eqn:Es; [done|]. destruct (ur_Plugins reg) as [|p ps] eqn:Epl; [done|].
  apply storeKind_temp in E6 as [_ E6]; [|done]. apply storeKind_temp in H as [H _]; [|done]. done.
Qed.
End Both.

(** ** What a sync leaves alone *)

Definition same_admin (d d' : DB) : Prop :=
  d_source d' = d_source d /\ d_registry d' = d_registry d /\ d_registry_source d' = d_registry_source d /\ d_sync d' = d_sync d.
#[export] Instance same_admin_po : PreOrder same_admin.
Proof. split; [done|]. intros d1 d2 d3 (E1 & E2 & E3 & E4) (F1 & F2 & F3 & F4). unfold same_admin. by rewrite F1, F2, F3, F4. Qed.

Definition keeps_q {A} (q : Q A) : Prop := forall o n d a n' d', q o n d = (Ok a, n', d') -> same_admin d d'.
Definition keeps_w {A} (m : W A) : Prop := forall t o n d x n' d', m t o n d = (Ok x, n', d') -> same_admin d d'.

Create HintDb frame discriminated.

Lemma keeps_bind {A B} (m : Q A) (f : A -> Q B) : keeps_q m -> (forall a, keeps_q (f a)) -> keeps_q (m ≫= f).
Proof. intros Hm Hf o n d b n' d' (a & n1 & d1 & E & H)%bind_run_ok. etrans; [by eapply Hm|by eapply Hf]. Qed.
Lemma keeps_wbind {A B} (m : W A) (f : A -> W B) : keeps_w m -> (forall a, keeps_w (f a)) -> keeps_w (m ≫= f).
Proof. intros Hm Hf t o n d [b t'] n' d' (a & t1 & n1 & d1 & E & H)%wbind_run. etrans; [by eapply Hm|by eapply Hf]. Qed.
Lemma keeps_ret {A} (a : A) : keeps_q (mret a).
Proof. by intros o n d b n' d' (_ & _ & ->)%ret_run_ok. Qed.
Lemma keeps_wret {A} (a : A) : keeps_w (mret a).
Proof. by intros t o n d [b t'] n' d' (_ & _ & ->)%wret_run. Qed.
Lemma keeps_wfail {A} e : keeps_w (wfail (A := A) e).
Proof. by intros t o n d x n' d' ?%wfail_run. Qed.
Lemma keeps_fail {A} e : keeps_q (fail (A := A) e).
Proof. by intros o n d x n' d' ?%fail_run_ok. Qed.
Lemma keeps_lift {A} (r : result A) : keeps_q (lift r).
Proof. by intros o n d a n' d' (_ & _ & ->)%lift_run_ok. Qed.
Lemma keeps_wrapping {A} msg (m : Q A) : keeps_q m -> keeps_q (wrapping msg m).
Proof. intros Hm o n d a n' d' H%wrapping_run_ok. by eapply Hm. Qed.
Lemma keeps_wwrap {A} msg (m : W A) : keeps_w m -> keeps_w (wwrap msg m).
Proof. intros Hm t o n d a n' d' H%wwrap_run. by eapply Hm. Qed.
Lemma keeps_run_q {A} (q : Q A) : keeps_q q -> keeps_w (run_q q).
Proof. intros Hq t o n d [a t'] n' d' [_ H]%run_q_run. by eapply Hq. Qed.
Lemma keeps_attempt_select {A} (f : DB -> result A) : keeps_q (attempt (select f)).
Proof. intros o n d r n' d' E%attempt_run_ok. by rewrite (reads_select f _ _ _ _ _ _ E). Qed.
Lemma keeps_select {A} (f : DB -> result A) : keeps_q (select f).
Proof. by intros o n d r n' d' [_ ->]%select_run_ok. Qed.
Lemma keeps_query {A} (f : DB -> result (A * DB)) : (forall d a d', f d = Ok (a, d') -> same_admin d d') -> keeps_q (query f).
Proof. intros Hf o n d a n' d' H%query_run_ok. by eapply Hf. Qed.
Lemma keeps_create {R} (T : TempTable R) : keeps_w (create_temp T).
Proof. by intros t o n d x n' d' (_ & _ & ->)%create_run. Qed.
Lemma keeps_copy {R} (T : TempTable R) rows : keeps_w (copy_from T rows).
Proof. by intros t o n d x n' d' (l & _ & _ & ->)%copy_run. Qed.
Lemma keeps_drop {R} (T : TempTable R) : keeps_w (drop_temp T).
Proof. by intros t o n d x n' d' [_ ->]%drop_run. Qed.
Lemma keeps_from {R A} (T : TempTable R) (f : list R -> DB -> result (A * DB)) :
  (forall l d a d', f l d = Ok (a, d') -> same_admin d d') -> keeps_w (from_temp T f).
Proof. intros Hf t o n d [a t'] n' d' (l & _ & H & _)%from_run. by eapply Hf. Qed.
Lemma keeps_for_each {A} (f : A -> Q ()) l : (forall x, keeps_q (f x)) -> keeps_q (for_each_q f l).
Proof. intros Hf. induction l as [|x l IH]; [apply keeps_ret|]. apply keeps_bind; [apply Hf|by intros]. Qed.
Lemma keeps_NewV7 : keeps_q NewV7.
Proof. intros o n d a n' d' H. unfold NewV7 in H. by simplify_eq. Qed.
Lemma keeps_set {X R} {K : ArtifactKind X R} `{!ArtifactKindLaws K} d m : same_admin d (k_set d m).
Proof.
  pose proof (k_set_core d m) as Hc. pose proof (k_set_content d m) as Hd. unfold core in Hc.
  injection Hc as _ H1 H2 H3 _ _ _. injection Hd as _ _ _ _ H4. by split_and!.
Qed.

#[export] Hint Resolve keeps_bind keeps_wbind keeps_ret keeps_wret keeps_wfail keeps_fail keeps_lift keeps_wrapping keeps_wwrap
  keeps_run_q keeps_select keeps_create keeps_copy keeps_drop keeps_for_each keeps_NewV7 : frame.

(** The statements proper. *)
Ltac one_statement :=
  first [apply keeps_query | apply keeps_from]; intros; unfold upsert_all, references, rbind in *; repeat case_match; simplify_eq;
  try done; try (apply keeps_set).
Ltac keep :=
  repeat first
    [ progress intros
    | apply keeps_wbind | apply keeps_bind | apply keeps_wwrap | apply keeps_wrapping | apply keeps_run_q
    | solve [eauto with frame] | apply keeps_for_each | case_match ].

Section Frame.
Context `{SC : ServerCodec} `{AC : ArtifactCodec} `{L : SemverLib}.

Lemma keeps_entry_rows sid ty f seen names : keeps_q (entry_rows sid ty f seen names).
Proof. revert seen. induction names as [|x l IH]; intros seen; cbn; [apply keeps_ret|]. case_decide; [apply IH|]. keep. Qed.
Lemma keeps_version_rows em now items : keeps_q (version_rows em now items).
Proof. induction items as [|[[[? ?] ?] ?] l IH]; cbn; keep. Qed.
Lemma keeps_copyEntries rows : keeps_w (copyAndUpsertEntries rows).
Proof. unfold copyAndUpsertEntries. keep. one_statement. Qed.
Lemma keeps_copyVersions rows : keeps_w (copyAndUpsertEntryVersions rows).
Proof. unfold copyAndUpsertEntryVersions. keep. one_statement. Qed.
Lemma keeps_orphans sid ty keep_ids : keeps_w (deleteOrphanedEntries sid ty keep_ids).
Proof. unfold deleteOrphanedEntries. keep; one_statement. Qed.
Lemma keeps_latest sid m : keeps_q (upsert_latest sid m).
Proof. unfold upsert_latest. keep. one_statement. Qed.
#[local] Hint Resolve keeps_entry_rows keeps_version_rows keeps_copyEntries keeps_copyVersions keeps_orphans keeps_latest : frame.

Lemma keeps_servers mx now sid servers c pc : keeps_w (storeSyncInTempTables mx now sid servers c pc).
Proof. unfold storeSyncInTempTables, sqlCopyEntries, sqlCopyEntryVersions, sqlCopyServers. keep; try one_statement. Qed.
Lemma keeps_empty_temp ids ty : keeps_q (deleteOrphansWithEmptyTemp ids ty).
Proof. unfold deleteOrphansWithEmptyTemp. keep; one_statement. Qed.
#[local] Hint Resolve keeps_empty_temp : frame.
Lemma keeps_related m servers : keeps_w (insertRelatedData m servers).
Proof. unfold insertRelatedData, bulkInsertPackages, bulkInsertRemotes, bulkInsertIcons. keep; one_statement. Qed.

Lemma keeps_kind {U X R} {K : ArtifactKind X R} `{!ArtifactKindLaws K} {UK : UpstreamKind U X R} sid (us : list U) c now :
  keeps_q (u_delete sid) -> keeps_w (storeKind sid us c now).
Proof.
  intros Hd. assert (Hup : forall vm l, keeps_q (upsertVersionsAndPackages (U := U) vm l)).
  { intros vm l. induction l as [|x l IH]; cbn; [apply keeps_ret|]. case_match; [|apply keeps_fail].
    apply keeps_bind; [|intros]. { unfold upsertSingleVersion. keep; one_statement. }
    apply keeps_bind; [|keep]. unfold replacePackages. keep; try one_statement. unfold insertPackage. keep; one_statement. }
  unfold storeKind, updateLatestKindVersions. keep; first [exact Hd | apply Hup | one_statement].
Qed.

Lemma db_Store_same w name reg pc now o n d r n' d' : db_Store w name reg pc now o n d = (r, n', d') -> same_admin d d'.
Proof.
  destruct reg as [reg|]; [|intros H; unfold db_Store, fail in H; by simplify_eq]. intros H. destruct r as [[]|err].
  2:{ apply transaction_atomic in H as ->. done. }
  apply transaction_ok in H as (n1 & n2 & H). apply bind_run_ok in H as (x & n3 & d3 & H & E). apply ret_run_ok in E as (_ & _ & ->).
  revert H. generalize no_temp. intros t H. revert H. apply (fun Hk : keeps_w (store_body w name reg pc now) => Hk t o n1 d x n3 d3).
  unfold store_body. apply keeps_wbind; [apply keeps_run_q, keeps_attempt_select|]. intros [src|err]; [|case_match; apply keeps_wfail].
  apply keeps_wbind; [apply keeps_wwrap, keeps_servers|intros]. apply keeps_wbind; [unfold dropEntryTempTables; keep|intros].
  apply keeps_wbind; [keep|intros]. apply keeps_wbind; [apply keeps_wwrap, keeps_related|intros].
  apply keeps_wbind; [unfold updateLatestVersions; keep|intros].
  apply keeps_wbind; [|intros]; apply keeps_wwrap, keeps_kind; apply keeps_query; intros; by simplify_eq.
Qed.

(** The writer of the program is a [SyncWriter], as the sync manager takes one. *)
#[export] Instance dbWriter (w : dbSyncWriter) (now : Z) : SyncWriter :=
  {| Store := fun name reg => db_Store w name (Some reg) ∅ now;
     Store_frame := fun name reg o n d r n' d' H => match db_Store_same _ _ _ _ _ _ _ _ _ _ _ H with conj E (conj _ (conj _ F)) => conj E F end |}.
End Frame.

(** ** Upserts *)

Section Upsert.
Context {K V R : Type} `{Countable K} (key : R -> K) (row : R -> option V -> V).

Lemma upsert_out rows m k : k ∉ (key <$> rows) -> upsert key row rows m !! k = m !! k.
Proof.
  revert m. induction rows as [|r rows IH]; intros m Hk; [done|]. cbn in *. apply not_elem_of_cons in Hk as [Hne Hk].
  unfold upsert in *. cbn. rewrite IH by done. by rewrite lookup_insert_ne.
Qed.
Lemma upsert_in rows m r : NoDup (key <$> rows) -> r ∈ rows -> upsert key row rows m !! key r = Some (row r (m !! key r)).
Proof.
  revert m. induction rows as [|x rows IH]; intros m Hnd Hr; [by apply elem_of_nil in Hr|]. cbn in Hnd.
  apply NoDup_cons in Hnd as [Hx Hnd]. change (upsert key row (x :: rows) m) with (upsert key row rows (<[key x := row x (m !! key x)]> m)).
  apply elem_of_cons in Hr as [->|Hr].
  - rewrite upsert_out by done. by rewrite lookup_insert_eq.
  - rewrite IH by done. rewrite lookup_insert_ne; [done|]. intros E. apply Hx. rewrite E. by apply list_elem_of_fmap_2.
Qed.
Lemma upsert_some rows m k v : NoDup (key <$> rows) -> upsert key row rows m !! k = Some v ->
  (exists r, r ∈ rows /\ k = key r /\ v = row r (m !! k)) \/ (k ∉ (key <$> rows) /\ m !! k = Some v).
Proof.
  intros Hnd Hv. destruct (decide (k ∈ (key <$> rows))) as [Hin|Hout].
  - left. apply list_elem_of_fmap in Hin as (r & -> & Hr). exists r. rewrite upsert_in in Hv by done. by injection Hv as <-.
  - right. by rewrite upsert_out in Hv.
Qed.
Lemma upsert_all_ok rows m m' : upsert_all key row rows m = Ok m' -> NoDup (key <$> rows) /\ m' = upsert key row rows m.
Proof. unfold upsert_all. intros. case_decide; by simplify_eq. Qed.
End Upsert.

(** A map built by insertion, keys with one value each. *)
Lemma fold_insert_in {K V R} `{Countable K} (key : R -> K) (val : R -> V) (rows : list R) (m : gmap K V) r :
  (forall r', r' ∈ rows -> key r' = key r -> val r' = val r) -> r ∈ rows ->
  foldl (fun m r => <[key r := val r]> m) m rows !! key r = Some (val r).
Proof.
  assert (Hout : forall (rows : list R) (m : gmap K V), (forall r', r' ∈ rows -> key r' = key r -> val r' = val r) -> m !! key r = Some (val r) ->
    foldl (fun m r => <[key r := val r]> m) m rows !! key r = Some (val r)).
  { clear. induction rows as [|x l IH]; intros m0 Hu Hm; [done|]. cbn. apply IH; [set_solver|].
    destruct (decide (key x = key r)) as [E|Hne]; [|by rewrite lookup_insert_ne].
    rewrite E, lookup_insert_eq. f_equal. apply Hu; [set_solver|done]. }
  revert m. induction rows as [|x l IH]; intros m Hu Hr; [by apply elem_of_nil in Hr|]. cbn. apply elem_of_cons in Hr as [<-|Hr].
  - apply Hout; [intros; apply Hu; set_solver|]. apply lookup_insert_eq.
  - apply IH; [intros; apply Hu; set_solver|done].
Qed.
Lemma fold_insert_some {K V R} `{Countable K} (key : R -> K) (val : R -> V) (rows : list R) (m : gmap K V) k v :
  foldl (fun m r => <[key r := val r]> m) m rows !! k = Some v ->
  (exists r, r ∈ rows /\ key r = k /\ val r = v) \/ m !! k = Some v.
Proof.
  revert m. induction rows as [|x l IH]; intros m Hv; [by right|]. cbn in Hv. apply IH in Hv as [(r & Hr & Hk & Hv)|Hv].
  - left. exists r. set_solver.
  - apply lookup_insert_Some in Hv as [[<- <-]|[_ Hv]]; [left; exists x; set_solver|by right].
Qed.

(** ** The entries of one type *)

Lemma entry_rows_run sid ty f names o : forall seen n d rows n' d',
  entry_rows sid ty f seen names o n d = (Ok rows, n', d') ->
  d' = set_next d (d_next d + List.length rows) /\ te_id <$> rows = seq (d_next d) (List.length rows) /\
  NoDup (te_name <$> rows) /\ (forall name, name ∈ (te_name <$> rows) <-> name ∈ names /\ name ∉ seen) /\
  Forall (fun r => te_source r = sid /\ te_type r = ty /\ te_claims r = f (te_name r)) rows.
Proof.
  induction names as [|name names IH]; intros seen n d rows n' d' H; cbn [entry_rows] in H.
  - apply ret_run_ok in H as (-> & _ & ->). cbn. rewrite Nat.add_0_r. split; [by destruct d|].
    split; [done|]. split; [constructor|]. split; [|constructor]. intros x. rewrite !elem_of_nil. tauto.
  - destruct (decide (name ∈ seen)) as [Hs|Hs].
    + apply IH in H as (-> & Hid & Hnd & Hin & Hall). split_and!; try done. intros x. rewrite Hin, elem_of_cons. naive_solver.
    + bind_in H eid E. unfold NewV7 in E. injection E as <- <- <-. bind_in H rest E. apply ret_run_ok in H as (-> & _ & ->).
      apply IH in E as (-> & Hid & Hnd & Hin & Hall). cbn [List.length]. split_and!.
      * cbn. rewrite Nat.add_succ_r. by destruct d.
      * rewrite fmap_cons, Hid. done.
      * rewrite fmap_cons. constructor; [|done]. intros [_ Hx]%Hin. apply Hx, elem_of_union_l, elem_of_singleton. done.
      * intros x. rewrite fmap_cons, elem_of_cons, Hin, elem_of_cons, not_elem_of_union, not_elem_of_singleton. cbn.
        destruct (decide (x = name)) as [->|]; tauto.
      * by constructor.
Qed.

Record entries_done (sid : uuid) (ty : EntryType) (f : string -> string) (names : list string) (d d1 : DB)
    (entryMap : gmap string uuid) : Prop := {
  ed_next : (d_next d <= d_next d1)%nat;
  ed_frame : d1 = set_entry (set_next d (d_next d1)) (d_entry d1);
  ed_in : forall name, name ∈ names -> exists e, d_entry d1 !! (sid, ty, name) = Some e /\ en_claims e = f name /\
    entryMap !! name = Some (en_id e);
  ed_map : forall name id, entryMap !! name = Some id -> name ∈ names;
  ed_out : forall k, (forall name, name ∈ names -> k <> (sid, ty, name)) -> d_entry d1 !! k = d_entry d !! k;
  ed_old : forall k e, d_entry d !! k = Some e -> exists e', d_entry d1 !! k = Some e' /\ en_id e' = en_id e;
  ed_new : forall k e, d_entry d1 !! k = Some e -> d_entry d !! k = None -> (d_next d <= en_id e < d_next d1)%nat;
  ed_inj : forall k1 k2 e1 e2, d_entry d1 !! k1 = Some e1 -> d_entry d1 !! k2 = Some e2 -> d_entry d !! k1 = None ->
    d_entry d !! k2 = None -> en_id e1 = en_id e2 -> k1 = k2 }.

Lemma entries_run sid ty f names rows t o n d n1 d1 em t' n' d' :
  entry_rows sid ty f ∅ names o n d = (Ok rows, n1, d1) ->
  copyAndUpsertEntries rows t o n1 d1 = (Ok (em, t'), n', d') ->
  entries_done sid ty f names d d' em /\ t' = tt_put temp_registry_entry (Some rows) t.
Proof.
  intros (-> & Hid & Hnd & Hin & Hall)%entry_rows_run (_ & -> & m & [Hk ->]%upsert_all_ok & -> & ->)%copyAndUpsertEntries_run.
  split; [|done]. rewrite Forall_forall in Hall. set (m1 := upsert te_key te_row rows (d_entry (set_next d _))) in *.
  assert (Hkey : forall r, r ∈ rows -> te_key r = (sid, ty, te_name r)).
  { intros r Hr. unfold te_key. destruct (Hall r Hr) as (-> & -> & _). done. }
  assert (Hm1 : forall r, r ∈ rows -> m1 !! (sid, ty, te_name r) = Some (te_row r (d_entry d !! (sid, ty, te_name r)))).
  { intros r Hr. rewrite <-(Hkey r Hr). by apply upsert_in. }
  assert (Hcase : forall k e, m1 !! k = Some e ->
    (exists r, r ∈ rows /\ k = (sid, ty, te_name r) /\ e = te_row r (d_entry d !! k)) \/ d_entry d !! k = Some e).
  { intros k e [(r & Hr & -> & ->)|[_ He]]%upsert_some; [|by right|done]. left. exists r. rewrite (Hkey r Hr). done. }
  assert (Hname : forall name, name ∈ names -> exists r, r ∈ rows /\ te_name r = name).
  { intros name Hn. assert (Hx : name ∈ te_name <$> rows) by (apply Hin; by split; [|apply not_elem_of_empty]).
    apply list_elem_of_fmap in Hx as (r & -> & Hr). eauto. }
  assert (Hrange : forall r, r ∈ rows -> (d_next d <= te_id r < d_next d + List.length rows)%nat).
  { intros r Hr. apply (list_elem_of_fmap_2 te_id) in Hr. rewrite Hid in Hr. apply elem_of_seq in Hr. lia. }
  split; cbn [set_entry set_next d_next d_entry].
  - lia.
  - done.
  - intros name (r & Hr & <-)%Hname. exists (te_row r (d_entry d !! (sid, ty, te_name r))). split; [by apply Hm1|].
    split; [by apply Hall|]. set (rows' := _ <$> rows).
    assert (Hr' : (en_id (te_row r (d_entry d !! (sid, ty, te_name r))), te_name r) ∈ rows').
    { apply list_elem_of_fmap. exists r. by rewrite (Hkey r Hr), (Hm1 r Hr). }
    apply (fold_insert_in snd fst rows' ∅ _) in Hr'; [exact Hr'|]. intros x Hx E.
    apply list_elem_of_fmap in Hx as (r2 & -> & Hr2). cbn in E. rewrite (Hkey r2 Hr2), E, (Hm1 r Hr). done.
  - intros name id [(x & Hx & <- & _)|Hx]%fold_insert_some; [|by rewrite lookup_empty in Hx].
    apply list_elem_of_fmap in Hx as (r & -> & Hr). cbn. by apply Hin, list_elem_of_fmap_2.
  - intros k Hno. apply upsert_out. intros (r & -> & Hr)%list_elem_of_fmap. apply (Hno (te_name r)); [|by apply Hkey].
    by apply Hin, list_elem_of_fmap_2.
  - intros k e He. destruct (decide (k ∈ (te_key <$> rows))) as [(r & -> & Hr)%list_elem_of_fmap|Hout].
    + exists (te_row r (Some e)). rewrite <-He. split; [by apply upsert_in|]. by rewrite He.
    + exists e. split; [|done]. unfold m1. rewrite upsert_out by done. exact He.
  - intros k e [(r & Hr & -> & ->)|He]%Hcase Hnone; [|congruence]. rewrite Hnone. cbn. by apply Hrange.
  - intros k1 k2 e1 e2 [(r1 & Hr1 & -> & ->)|He1]%Hcase [(r2 & Hr2 & -> & ->)|He2]%Hcase N1 N2; try congruence.
    rewrite N1, N2. cbn. intros E. enough (r1 = r2) as -> by done.
    assert (Hnd2 : NoDup (te_id <$> rows)) by (rewrite Hid; apply NoDup_seq).
    apply list_elem_of_lookup in Hr1 as [i Hi]. apply list_elem_of_lookup in Hr2 as [j Hj].
    assert (i = j) as ->; [|congruence]. eapply (NoDup_lookup _ _ _ (te_id r1) Hnd2); rewrite list_lookup_fmap.
    + by rewrite Hi.
    + rewrite Hj. cbn. congruence.
Qed.

Lemma entries_wf sid ty f names d d1 em : entries_done sid ty f names d d1 em -> wf_core d -> wf_core d1.
Proof.
  intros [Hn Hfr Hin Hmap Hout Hold Hnew Hinj] [W1 W2 W3 W4 W5 W6 W7].
  assert (Hv : d_version d1 = d_version d) by (by rewrite Hfr). assert (Hl : d_latest d1 = d_latest d) by (by rewrite Hfr).
  assert (Hid : forall k e, d_entry d1 !! k = Some e ->
    (exists e0, d_entry d !! k = Some e0 /\ en_id e0 = en_id e) \/ (d_entry d !! k = None /\ (d_next d <= en_id e < d_next d1)%nat)).
  { intros k e He. destruct (d_entry d !! k) as [e0|] eqn:E0; [|right; by eauto].
    destruct (Hold _ _ E0) as (e' & He' & Hi). left. exists e0. split; [done|]. congruence. }
  split; rewrite ?Hv, ?Hl.
  - intros k e [(e0 & H0 & <-)|[_ ?]]%Hid; [|lia]. apply W1 in H0. lia.
  - intros k1 k2 e1 e2 H1 H2 E. destruct (Hid _ _ H1) as [(a & Ha & Ea)|[N1 R1]], (Hid _ _ H2) as [(b & Hb & Eb)|[N2 R2]].
    + eapply W2; [exact Ha|exact Hb|congruence].
    + apply W1 in Ha. lia.
    + apply W1 in Hb. lia.
    + eapply Hinj; eauto.
  - intros k r Hr. apply W3 in Hr. lia.
  - done.
  - intros eid v r Hr. destruct (W5 _ _ _ Hr) as (s & t & e & He & <-). destruct (Hold _ _ He) as (e' & He' & <-). eauto.
  - intros s nm v vid Hx. destruct (W6 _ _ _ _ Hx) as (t & e & r & He & Hr & <-). destruct (Hold _ _ He) as (e' & He' & Hi).
    exists t, e', r. by rewrite Hi.
  - lia.
Qed.

(** ** The versions of one type *)

Definition row_of (em : gmap string uuid) (now : Z) (r : TempVersion) (c : VersionColumns) : Prop :=
  let '(name, v, title, description) := c in
  em !! name = Some (tv_entry r) /\ tv_name r = name /\ tv_version r = v /\ tv_title r = title /\
  tv_description r = description /\ tv_created r = now.

Lemma version_rows_run em now items o : forall n d rows n' d',
  version_rows em now items o n d = (Ok rows, n', d') ->
  d' = set_next d (d_next d + List.length rows) /\ tv_id <$> rows = seq (d_next d) (List.length rows) /\
  Forall2 (row_of em now) rows items.
Proof.
  induction items as [|[[[name v] title] de] items IH]; intros n d rows n' d' H; cbn [version_rows] in H.
  - apply ret_run_ok in H as (-> & _ & ->). cbn. rewrite Nat.add_0_r. split; [by destruct d|]. by split.
  - destruct (em !! name) as [eid|] eqn:Em; [|by apply fail_run_ok in H]. bind_in H vid E. unfold NewV7 in E. injection E as <- <- <-.
    bind_in H rest E. apply ret_run_ok in H as (-> & _ & ->). apply IH in E as (-> & Hid & Hall). cbn [List.length]. split_and!.
    + cbn. rewrite Nat.add_succ_r. by destruct d.
    + rewrite fmap_cons, Hid. done.
    + by constructor.
Qed.

(** Entries of the map are entries of the source and the type. *)
Definition entry_map_ok (sid : uuid) (ty : EntryType) (d : DB) (em : gmap string uuid) : Prop :=
  forall name id, em !! name = Some id -> exists e, d_entry d !! (sid, ty, name) = Some e /\ en_id e = id.

Definition pair_of (c : VersionColumns) : string * string := (fst (fst (fst c)), snd (fst (fst c))).
Record versions_done (sid : uuid) (ty : EntryType) (items : list VersionColumns) (d d2 : DB) (copied : list (uuid * uuid * string)) : Prop := {
  vd_next : (d_next d <= d_next d2)%nat;
  vd_nodup : NoDup (pair_of <$> items);
  vd_frame : d2 = set_version (set_next d (d_next d2)) (d_version d2);
  vd_in : forall name v title de, (name, v, title, de) ∈ items -> exists e r, d_entry d !! (sid, ty, name) = Some e /\
    d_version d2 !! (en_id e, v) = Some r /\ ve_name r = name /\ ve_title r = title /\ ve_description r = de /\
    (ve_id r, en_id e, v) ∈ copied;
  vd_copied : forall id eid v, (id, eid, v) ∈ copied -> exists name title de e r, (name, v, title, de) ∈ items /\
    d_entry d !! (sid, ty, name) = Some e /\ en_id e = eid /\ d_version d2 !! (eid, v) = Some r /\ ve_id r = id;
  vd_case : forall eid v r, d_version d2 !! (eid, v) = Some r -> d_version d !! (eid, v) = Some r \/
    exists name title de e, (name, v, title, de) ∈ items /\ d_entry d !! (sid, ty, name) = Some e /\ en_id e = eid /\ ve_name r = name;
  vd_old : forall k r, d_version d !! k = Some r -> exists r', d_version d2 !! k = Some r' /\ ve_id r' = ve_id r;
  vd_new : forall k r, d_version d2 !! k = Some r -> d_version d !! k = None -> (d_next d <= ve_id r < d_next d2)%nat;
  vd_inj : forall k1 k2 r1 r2, d_version d2 !! k1 = Some r1 -> d_version d2 !! k2 = Some r2 -> d_version d !! k1 = None ->
    d_version d !! k2 = None -> ve_id r1 = ve_id r2 -> k1 = k2 }.

Lemma versions_run sid ty em now items rows t o n d n1 d1 copied t' n' d' :
  entry_map_ok sid ty d em -> version_rows em now items o n d = (Ok rows, n1, d1) ->
  copyAndUpsertEntryVersions rows t o n1 d1 = (Ok (copied, t'), n', d') ->
  versions_done sid ty items d d' copied /\ t' = tt_put temp_entry_version (Some rows) t.
Proof.
  intros Hem (-> & Hid & Hall)%version_rows_run (_ & -> & m & [Hk ->]%upsert_all_ok & -> & _ & ->)%copyAndUpsertEntryVersions_run.
  split; [|done]. set (m2 := upsert tv_key tv_row rows (d_version (set_next d _))) in *.
  assert (Hm2 : forall r, r ∈ rows -> m2 !! tv_key r = Some (tv_row r (d_version d !! tv_key r))).
  { intros r Hr. by apply upsert_in. }
  assert (Hcase : forall k x, m2 !! k = Some x ->
    (exists r, r ∈ rows /\ k = tv_key r /\ x = tv_row r (d_version d !! k)) \/ d_version d !! k = Some x).
  { intros k x [(r & Hr & -> & ->)|[_ He]]%upsert_some; [|by right|done]. left. by exists r. }
  assert (Hitem : forall c, c ∈ items -> exists r, r ∈ rows /\ row_of em now r c).
  { intros c Hc. apply list_elem_of_lookup in Hc as [i Hi]. destruct (Forall2_lookup_r _ _ _ _ _ Hall Hi) as (r & Hr & Hrow).
    exists r. split; [by eapply list_elem_of_lookup_2|done]. }
  assert (Hrow : forall r, r ∈ rows -> exists c, c ∈ items /\ row_of em now r c).
  { intros r Hr. apply list_elem_of_lookup in Hr as [i Hi]. destruct (Forall2_lookup_l _ _ _ _ _ Hall Hi) as (c & Hc & Hrow).
    exists c. split; [by eapply list_elem_of_lookup_2|done]. }
  assert (Hrange : forall r, r ∈ rows -> (d_next d <= tv_id r < d_next d + List.length rows)%nat).
  { intros r Hr. apply (list_elem_of_fmap_2 tv_id) in Hr. rewrite Hid in Hr. apply elem_of_seq in Hr. lia. }
  split; cbn [set_version set_next d_next d_version d_entry].
  - lia.
  - apply (NoDup_fmap_1 (fun p => (default uuid_Nil (em !! fst p), snd p))). rewrite <-list_fmap_compose.
    enough (E : tv_key <$> rows = ((fun p => (default uuid_Nil (em !! fst p), snd p)) ∘ pair_of) <$> items) by (by rewrite <-E).
    clear -Hall. induction Hall as [|r [[[name v] title] de] l l' (H1 & _ & <- & _) _ IH]; [done|]. rewrite !fmap_cons, IH. cbn. by rewrite H1.
  - done.
  - intros name v title de Hc. destruct (Hitem _ Hc) as (r & Hr & E1 & E2 & E3 & E4 & E5 & E6). destruct (Hem _ _ E1) as (e & He & Hie).
    exists e, (tv_row r (d_version d !! tv_key r)). pose proof (Hm2 r Hr) as Hm. unfold tv_key in Hm at 1. rewrite E3, <-Hie in Hm.
    split_and!; try done. apply list_elem_of_fmap. exists r. by rewrite (Hm2 r Hr), E3, Hie.
  - intros vid eid v (r & E & Hr)%list_elem_of_fmap. injection E as -> -> ->. destruct (Hrow r Hr) as ([[[name v] title] de] & Hc & E1 & E2 & E3 & _).
    destruct (Hem _ _ E1) as (e & He & Hie). exists name, title, de, e, (tv_row r (d_version d !! tv_key r)). rewrite E3. split_and!; try done.
    + rewrite <-E3. exact (Hm2 r Hr).
    + by rewrite (Hm2 r Hr).
  - intros eid v x [(r & Hr & E & ->)|Hx]%Hcase; [|by left]. right. injection E as -> ->.
    destruct (Hrow r Hr) as ([[[name v] title] de] & Hc & E1 & E2 & E3 & _). destruct (Hem _ _ E1) as (e & He & Hie).
    exists name, title, de, e. by rewrite E3.
  - intros k x Hx. destruct (decide (k ∈ (tv_key <$> rows))) as [(r & -> & Hr)%list_elem_of_fmap|Hout].
    + exists (tv_row r (Some x)). rewrite <-Hx. split; [by apply Hm2|]. by rewrite Hx.
    + exists x. split; [|done]. unfold m2. rewrite upsert_out by done. exact Hx.
  - intros k x [(r & Hr & -> & ->)|Hx]%Hcase Hnone; [|congruence]. rewrite Hnone. cbn. by apply Hrange.
  - intros k1 k2 x1 x2 [(r1 & Hr1 & -> & ->)|He1]%Hcase [(r2 & Hr2 & -> & ->)|He2]%Hcase N1 N2; try congruence.
    rewrite N1, N2. cbn. intros E. enough (r1 = r2) as -> by done.
    assert (Hnd2 : NoDup (tv_id <$> rows)) by (rewrite Hid; apply NoDup_seq).
    apply list_elem_of_lookup in Hr1 as [i Hi]. apply list_elem_of_lookup in Hr2 as [j Hj].
    assert (i = j) as ->; [|congruence]. eapply (NoDup_lookup _ _ _ (tv_id r1) Hnd2); rewrite list_lookup_fmap.
    + by rewrite Hi.
    + rewrite Hj. cbn. congruence.
Qed.

Lemma versions_wf sid ty items d d2 copied : versions_done sid ty items d d2 copied -> wf_core d -> wf_core d2.
Proof.
  intros [Hn _ Hfr Hin Hcp Hout Hold Hnew Hinj] [W1 W2 W3 W4 W5 W6 W7].
  assert (He : d_entry d2 = d_entry d) by (by rewrite Hfr). assert (Hl : d_latest d2 = d_latest d) by (by rewrite Hfr).
  assert (Hid : forall k r, d_version d2 !! k = Some r ->
    (exists r0, d_version d !! k = Some r0 /\ ve_id r0 = ve_id r) \/ (d_version d !! k = None /\ (d_next d <= ve_id r < d_next d2)%nat)).
  { intros k r Hr. destruct (d_version d !! k) as [r0|] eqn:E0; [|right; by eauto].
    destruct (Hold _ _ E0) as (r' & Hr' & Hi). left. exists r0. split; [done|]. congruence. }
  split; rewrite ?He, ?Hl.
  - intros k e H1%W1. lia.
  - done.
  - intros k r [(r0 & H0 & <-)|[_ ?]]%Hid; [|lia]. apply W3 in H0. lia.
  - intros k1 k2 r1 r2 H1 H2 E. destruct (Hid _ _ H1) as [(a & Ha & Ea)|[N1 R1]], (Hid _ _ H2) as [(b & Hb & Eb)|[N2 R2]].
    + eapply W4; [exact Ha|exact Hb|congruence].
    + apply W3 in Ha. lia.
    + apply W3 in Hb. lia.
    + eapply Hinj; eauto.
  - intros eid v r [Hr|(name & title & de & e & _ & H1 & H2 & <-)]%Hout; eauto.
  - intros s nm v vid Hx. destruct (W6 _ _ _ _ Hx) as (t & e & r & H1 & Hr & <-). destruct (Hold _ _ Hr) as (r' & Hr' & Hi). eauto 10.
  - lia.
Qed.

(** ** The maps from keys to ids *)

Lemma entryIDToName_in (em : gmap string uuid) name id : (forall a b x, em !! a = Some x -> em !! b = Some x -> a = b) ->
  em !! name = Some id -> entryIDToName em !! id = Some name.
Proof.
  intros Hinj Hn. apply elem_of_list_to_map_1.
  - assert (E : ((fun '(name, id) => (id, name)) <$> map_to_list em).*1 = snd <$> map_to_list em).
    { rewrite <-list_fmap_compose. apply list_fmap_ext. by intros i [a b] _. }
    rewrite E. apply NoDup_fmap_2_strong; [|apply NoDup_map_to_list]. intros [a x] [b y] Ha%elem_of_map_to_list Hb%elem_of_map_to_list. cbn.
    intros ->. by rewrite (Hinj a b y).
  - apply list_elem_of_fmap. exists (name, id). split; [done|]. by apply elem_of_map_to_list.
Qed.

Lemma entry_map_inj sid ty d em : wf_core d -> entry_map_ok sid ty d em ->
  forall a b x, em !! a = Some x -> em !! b = Some x -> a = b.
Proof.
  intros Hwf Hem a b x (e1 & H1 & E1)%Hem (e2 & H2 & E2)%Hem. subst x. symmetry in E2.
  by pose proof (wf_entry_inj _ Hwf _ _ _ _ H1 H2 E2) as [= ->].
Qed.

Lemma version_map_in keyOf sid ty items d d2 copied em name v title de e r :
  versions_done sid ty items d d2 copied -> wf_core d -> entry_map_ok sid ty d em ->
  (forall n1 v1 t1 x1, (n1, v1, t1, x1) ∈ items -> is_Some (em !! n1)) ->
  (forall n1 v1 t1 x1, (n1, v1, t1, x1) ∈ items -> keyOf n1 v1 = keyOf name v -> n1 = name /\ v1 = v) ->
  (name, v, title, de) ∈ items -> d_entry d !! (sid, ty, name) = Some e -> d_version d2 !! (en_id e, v) = Some r ->
  version_map keyOf em copied !! keyOf name v = Some (ve_id r).
Proof.
  intros Hd Hwf Hem Hdom Hinj Hc He Hr.
  assert (Hback : forall n1 v1 t1 x1 e1, (n1, v1, t1, x1) ∈ items -> d_entry d !! (sid, ty, n1) = Some e1 ->
    entryIDToName em !! en_id e1 = Some n1).
  { intros n1 v1 t1 x1 e1 H1 H2. destruct (Hdom _ _ _ _ H1) as [y Hy]. destruct (Hem _ _ Hy) as (e' & He' & <-).
    rewrite H2 in He'. injection He' as <-. eapply entryIDToName_in; [by eapply entry_map_inj|done]. }
  destruct (vd_in _ _ _ _ _ _ Hd _ _ _ _ Hc) as (e' & r' & He' & Hr' & _ & _ & _ & Hin). rewrite He in He'. injection He' as <-.
  rewrite Hr in Hr'. injection Hr' as <-. pose proof (Hback _ _ _ _ _ Hc He) as Hb.
  pose proof (fold_insert_in (fun row : uuid * uuid * string => keyOf (default "" (entryIDToName em !! snd (fst row))) (snd row))
    (fun row => fst (fst row)) copied ∅ (ve_id r, en_id e, v)) as Hfold. cbn in Hfold. rewrite Hb in Hfold. cbn in Hfold.
  apply Hfold; [|done]. intros [[id1 eid1] v1] H1 E. cbn in *.
  destruct (vd_copied _ _ _ _ _ _ Hd _ _ _ H1) as (n1 & t1 & x1 & e1 & r1 & Hc1 & He1 & <- & Hr1 & <-).
  rewrite (Hback _ _ _ _ _ Hc1 He1) in E. cbn in E. destruct (Hinj _ _ _ _ Hc1 E) as [-> ->]. congruence.
Qed.

(** *** Keys of servers *)

Definition no_at (name : string) : Prop := "@"%char ∉ to_bytes name.

Lemma serverKey_inj n1 v1 n2 v2 : no_at n1 -> no_at n2 -> serverKey n1 v1 = serverKey n2 v2 -> n1 = n2 /\ v1 = v2.
Proof.
  unfold no_at, serverKey. intros H1 H2 E. apply (f_equal to_bytes) in E. rewrite !to_bytes_app in E. change (to_bytes "@") with ["@"%char] in E.
  assert (Hgo : forall a b x y, "@"%char ∉ a -> "@"%char ∉ b -> a ++ ["@"%char] ++ x = b ++ ["@"%char] ++ y -> a = b /\ x = y).
  { clear. induction a as [|c a IH]; intros [|c' b] x y Ha Hb E; cbn in *.
    - by injection E.
    - injection E as <- _. exfalso. apply Hb. by left.
    - injection E as -> _. exfalso. apply Ha. by left.
    - injection E as -> E. apply not_elem_of_cons in Ha as [_ Ha]. apply not_elem_of_cons in Hb as [_ Hb].
      by destruct (IH b x y Ha Hb E) as [-> ->]. }
  destruct (Hgo _ _ _ _ H1 H2 E) as [En Ev]. apply (f_equal of_bytes) in En, Ev. by rewrite !of_to_bytes in En, Ev.
Qed.

Lemma server_id_map_fold servers l : server_id_map servers l =
  foldl (fun m row => <[serverKey (snd (fst row)) (snd row) := fst (fst row)]> m) ∅
    (filter (fun row => serverKey (snd (fst row)) (snd row) ∈ key_of <$> servers) l).
Proof.
  unfold server_id_map. cbv zeta. generalize (∅ : gmap string uuid). induction l as [|r l IH]; intros m; [done|]. cbn [foldl].
  rewrite filter_cons. destruct (decide (serverKey (snd (fst r)) (snd r) ∈ key_of <$> servers)) as [Hin|Hout].
  - rewrite decide_True by (by apply elem_of_list_to_set). cbn [foldl]. apply IH.
  - rewrite decide_False by (by rewrite elem_of_list_to_set). apply IH.
Qed.

(** ** What a stage does not touch *)

(** The content rows of a version. *)
Definition same_content (id : uuid) (d d' : DB) : Prop :=
  d_server d' !! id = d_server d !! id /\
  (forall k, pk_server k = id -> d_package d' !! k = d_package d !! k) /\
  (forall k, rm_server k = id -> d_remote d' !! k = d_remote d !! k) /\
  (forall k, ic_server k = id -> d_icon d' !! k = d_icon d !! k) /\
  d_skill d' !! id = d_skill d !! id /\ d_plugin d' !! id = d_plugin d !! id.
#[export] Instance same_content_po id : PreOrder (same_content id).
Proof.
  split; [intros d; by split_and!|]. intros d1 d2 d3 (A1 & A2 & A3 & A4 & A5 & A6) (B1 & B2 & B3 & B4 & B5 & B6).
  split_and!; [by rewrite B1|intros k Hk; by rewrite B2, A2|intros k Hk; by rewrite B3, A3|intros k Hk; by rewrite B4, A4|by rewrite B5|by rewrite B6].
Qed.

(** The entries that satisfy [P] keep their rows, versions and contents; a pointer
    stays when all the entries of its name do. *)
Record untouched (P : uuid * EntryType * string -> Prop) (d d' : DB) : Prop := {
  un_entry : forall k, P k -> d_entry d' !! k = d_entry d !! k;
  un_version : forall k e v, P k -> d_entry d !! k = Some e -> d_version d' !! (en_id e, v) = d_version d !! (en_id e, v);
  un_content : forall k e v r, P k -> d_entry d !! k = Some e -> d_version d !! (en_id e, v) = Some r -> same_content (ve_id r) d d';
  un_latest : forall s name, (forall t, P (s, t, name)) -> d_latest d' !! (s, name) = d_latest d !! (s, name) }.

Lemma untouched_refl P d : untouched P d d.
Proof. by split. Qed.
Lemma untouched_trans P d1 d2 d3 : untouched P d1 d2 -> untouched P d2 d3 -> untouched P d1 d3.
Proof.
  intros [A1 A2 A3 A4] [B1 B2 B3 B4]. split; [|..|intros s name Hp; by rewrite B4, A4].
  - intros k Hk. by rewrite B1, A1.
  - intros k e v Hk He. rewrite <-(A2 k e v Hk He). apply (B2 k); [done|]. by rewrite A1.
  - intros k e v r Hk He Hr. etrans; [by eapply A3|]. eapply (B3 k); [done|by rewrite A1|]. by rewrite (A2 k e v Hk He).
Qed.
Lemma untouched_weaken (P P' : _ -> Prop) d d' : (forall k, P' k -> P k) -> untouched P d d' -> untouched P' d d'.
Proof. intros Hw [A1 A2 A3 A4]. split; eauto. Qed.
(** Fresh ids do not matter. *)
Lemma untouched_same P d d' : d_entry d' = d_entry d -> d_version d' = d_version d -> d_server d' = d_server d ->
  d_package d' = d_package d -> d_remote d' = d_remote d -> d_icon d' = d_icon d -> d_skill d' = d_skill d -> d_plugin d' = d_plugin d ->
  (forall s name, (forall t, P (s, t, name)) -> d_latest d' !! (s, name) = d_latest d !! (s, name)) -> untouched P d d'.
Proof. intros E1 E2 E3 E4 E5 E6 E7 E8 E9. split; [by rewrite E1|by rewrite E2| |done]. intros. unfold same_content. by rewrite E3, E4, E5, E6, E7, E8. Qed.

(** The entries outside a type of a source. *)
Definition outside (sid : uuid) (ty : EntryType) (k : uuid * EntryType * string) : Prop := fst k <> (sid, ty).

Lemma entries_untouched sid ty f names d d1 em : entries_done sid ty f names d d1 em -> untouched (outside sid ty) d d1.
Proof.
  intros [Hn Hfr Hin Hmap Hout Hold Hnew Hinj]. split.
  - intros k Hk. apply Hout. intros name _ ->. by apply Hk.
  - intros k e v _ _. by rewrite Hfr.
  - intros k e v r _ _ _. rewrite Hfr. by split_and!.
  - intros s name _. by rewrite Hfr.
Qed.

Lemma versions_untouched sid ty items d d2 copied : wf_core d -> versions_done sid ty items d d2 copied -> untouched (outside sid ty) d d2.
Proof.
  intros Hwf [Hn _ Hfr Hin Hcp Hcase Hold Hnew Hinj]. split.
  - intros k _. by rewrite Hfr.
  - intros k e v Hk He. assert (Hno : forall r, d_version d2 !! (en_id e, v) = Some r -> d_version d !! (en_id e, v) = Some r).
    { intros r [?|(name & title & de & e' & _ & He' & Hid & _)]%Hcase; [done|]. exfalso. apply Hk.
      by rewrite (wf_entry_inj _ Hwf _ _ _ _ He He' (eq_sym Hid)). }
    destruct (d_version d2 !! (en_id e, v)) as [r|] eqn:E2; [by rewrite (Hno r)|].
    destruct (d_version d !! (en_id e, v)) as [r|] eqn:E1; [|done]. destruct (Hold _ _ E1) as (r' & Hr' & _). congruence.
  - intros k e v r _ _ _. rewrite Hfr. by split_and!.
  - intros s name _. by rewrite Hfr.
Qed.

(** ** Cascades *)

Lemma cascade_version_iff dead d k r :
  d_version (cascade_versions dead d) !! k = Some r <-> d_version d !! k = Some r /\ dead (ve_id r) = false.
Proof. cbn. by rewrite map_lookup_filter_Some. Qed.

Lemma filter_same {K A} `{Countable K} (P : K * A -> Prop) `{!forall x, Decision (P x)} (m : gmap K A) k :
  (forall x, P (k, x)) -> filter P m !! k = m !! k.
Proof.
  intros Hp. destruct (m !! k) as [x|] eqn:E; [by apply map_lookup_filter_Some|]. apply map_lookup_filter_None. by left.
Qed.

Lemma cascade_content dead d id : dead id = false -> same_content id d (cascade_versions dead d).
Proof.
  intros Hd. split_and!; cbn.
  - by apply filter_same.
  - intros k Hk. apply filter_same. intros x. cbn. unfold pk_server in Hk. by rewrite Hk.
  - intros k Hk. apply filter_same. intros x. cbn. unfold rm_server in Hk. by rewrite Hk.
  - intros k Hk. apply filter_same. intros x. cbn. unfold ic_server in Hk. by rewrite Hk.
  - by apply filter_same.
  - by apply filter_same.
Qed.

Lemma cascade_keeps_pointer (P : _ -> Prop) dead d s name : wf_core d ->
  (forall k e v r, P k -> d_entry d !! k = Some e -> d_version d !! (en_id e, v) = Some r -> dead (ve_id r) = false) ->
  (forall t, P (s, t, name)) -> d_latest (cascade_versions dead d) !! (s, name) = d_latest d !! (s, name).
Proof.
  intros Hwf Hd Hp. apply option_eq. intros [v vid]. cbn. rewrite map_lookup_filter_Some. split; [by intros [? _]|]. intros Hl. split; [done|].
  destruct (wf_latest _ Hwf _ _ _ _ Hl) as (t & e & r & He & Hr & <-). cbn. eauto.
Qed.
Lemma cascade_untouched (P : _ -> Prop) dead d : wf_core d ->
  (forall k e v r, P k -> d_entry d !! k = Some e -> d_version d !! (en_id e, v) = Some r -> dead (ve_id r) = false) ->
  untouched P d (cascade_versions dead d).
Proof.
  intros Hwf Hd. split; [done|..|intros; by apply (cascade_keeps_pointer P)].
  - intros k e v Hk He. apply option_eq. intros r. rewrite cascade_version_iff. split; [by intros [? _]|]. eauto.
  - intros k e v r Hk He Hr. apply cascade_content. eauto.
Qed.

Lemma typed_version_ids_spec sid ty d id : id ∈ typed_version_ids sid ty d <->
  exists name e v r, d_entry d !! (sid, ty, name) = Some e /\ d_version d !! (en_id e, v) = Some r /\ ve_id r = id.
Proof.
  unfold typed_version_ids. rewrite elem_of_list_to_set, list_elem_of_bind. split.
  - intros ([[[s t] name] e] & Hin & He%elem_of_map_to_list). destruct (Nat.eqb_spec s sid) as [->|]; cbn in Hin; [|by apply elem_of_nil in Hin].
    case_bool_decide as Ht; [|by apply elem_of_nil in Hin]. subst t. apply list_elem_of_fmap in Hin as ([v r] & -> & Hr%elem_of_entry_versions). eauto 10.
  - intros (name & e & v & r & He & Hr & <-). exists ((sid, ty, name), e). split; [|by apply elem_of_map_to_list].
    rewrite Nat.eqb_refl, bool_decide_eq_true_2 by done. cbn. apply list_elem_of_fmap. exists (v, r). by rewrite elem_of_entry_versions.
Qed.

(** Two versions of one id. *)
Lemma same_version d sid1 ty1 n1 e1 v1 r1 sid2 ty2 n2 e2 v2 r2 : wf_core d ->
  d_entry d !! (sid1, ty1, n1) = Some e1 -> d_version d !! (en_id e1, v1) = Some r1 ->
  d_entry d !! (sid2, ty2, n2) = Some e2 -> d_version d !! (en_id e2, v2) = Some r2 -> ve_id r1 = ve_id r2 ->
  (sid1, ty1, n1, v1) = (sid2, ty2, n2, v2).
Proof.
  intros Hwf H1 R1 H2 R2 E. pose proof (wf_version_inj _ Hwf _ _ _ _ R1 R2 E) as [= Hid ->].
  by pose proof (wf_entry_inj _ Hwf _ _ _ _ H1 H2 Hid) as [= -> -> ->].
Qed.

(** ** Deleting entries *)

Lemma version_ids_of_spec G d id : id ∈ version_ids_of G d <-> exists eid v r, eid ∈ G /\ d_version d !! (eid, v) = Some r /\ ve_id r = id.
Proof.
  unfold version_ids_of. rewrite elem_of_list_to_set, list_elem_of_omap. split.
  - intros ([[eid v] r] & Hr%elem_of_map_to_list & E). case_decide; simplify_eq. eauto 10.
  - intros (eid & v & r & Hg & Hr & <-). exists ((eid, v), r). split; [by apply elem_of_map_to_list|]. by rewrite decide_True.
Qed.

Lemma dead_version G d eid v r : wf_core d -> d_version d !! (eid, v) = Some r ->
  bool_decide (ve_id r ∈ version_ids_of G d) = bool_decide (eid ∈ G).
Proof.
  intros Hwf Hr. apply bool_decide_ext. rewrite version_ids_of_spec. split; [|eauto 10].
  intros (eid' & v' & r' & Hg & Hr' & E). by pose proof (wf_version_inj _ Hwf _ _ _ _ Hr' Hr E) as [= -> ->].
Qed.

Lemma delete_entries_version G d eid v r : wf_core d ->
  d_version (delete_entries G d) !! (eid, v) = Some r <-> d_version d !! (eid, v) = Some r /\ eid ∉ G.
Proof.
  intros Hwf. change (d_version (delete_entries G d)) with (d_version (cascade_versions (fun id => bool_decide (id ∈ version_ids_of G d)) d)).
  rewrite cascade_version_iff. split; intros [Hr Hd]; (split; [done|]).
  - rewrite (dead_version G d eid v r Hwf Hr) in Hd. by apply bool_decide_eq_false in Hd.
  - rewrite (dead_version G d eid v r Hwf Hr). by apply bool_decide_eq_false_2.
Qed.
Lemma delete_entries_entry G d k e : d_entry (delete_entries G d) !! k = Some e <-> d_entry d !! k = Some e /\ en_id e ∉ G.
Proof. unfold delete_entries. cbn. by rewrite map_lookup_filter_Some. Qed.

Lemma delete_entries_wf G d : wf_core d -> wf_core (delete_entries G d).
Proof.
  intros Hwf. pose proof (wf_core_cascade (fun id => bool_decide (id ∈ version_ids_of G d)) d Hwf) as [W1 W2 W3 W4 W5 W6 W7].
  set (c := cascade_versions _ d) in *.
  assert (Hev : forall eid v r, d_version c !! (eid, v) = Some r -> eid ∉ G).
  { intros eid v r Hr. apply (proj1 (delete_entries_version G d eid v r Hwf) Hr). }
  split.
  - intros k e [He _]%delete_entries_entry. by apply W1 in He.
  - intros k1 k2 e1 e2 [H1 _]%delete_entries_entry [H2 _]%delete_entries_entry. by apply W2.
  - done.
  - done.
  - intros eid v r Hr. destruct (W5 _ _ _ Hr) as (s & t & e & He & <-). exists s, t, e. split; [|done].
    apply delete_entries_entry. split; [exact He|]. by eapply Hev.
  - intros s nm v vid Hl. destruct (W6 _ _ _ _ Hl) as (t & e & r & He & Hr & <-). exists t, e, r. split; [|done].
    apply delete_entries_entry. split; [exact He|]. by eapply Hev.
  - done.
Qed.

Lemma delete_entries_untouched (P : _ -> Prop) G d : wf_core d ->
  (forall k e, P k -> d_entry d !! k = Some e -> en_id e ∉ G) -> untouched P d (delete_entries G d).
Proof.
  intros Hwf Hg. split.
  4:{ intros s name Hp. apply (cascade_keeps_pointer P); [done| |done]. intros k e v r Hk He Hr. rewrite (dead_version G d _ _ _ Hwf Hr).
      apply bool_decide_eq_false_2. eauto. }
  - intros k Hk. apply option_eq. intros e. rewrite delete_entries_entry. split; [by intros [? _]|]. eauto.
  - intros k e v Hk He. apply option_eq. intros r. rewrite delete_entries_version by done. split; [by intros [? _]|]. eauto.
  - intros k e v r Hk He Hr. pose proof (cascade_content (fun id => bool_decide (id ∈ version_ids_of G d)) d (ve_id r)) as Hc.
    apply Hc. rewrite (dead_version G d _ _ _ Hwf Hr). apply bool_decide_eq_false_2. eauto.
Qed.

Lemma entries_with_spec p sid d eid : eid ∈ entries_with p sid d <->
  exists ty name e v r, d_entry d !! (sid, ty, name) = Some e /\ en_id e = eid /\ d_version d !! (eid, v) = Some r /\ p (ve_id r) = true.
Proof.
  unfold entries_with. rewrite elem_of_list_to_set, list_elem_of_omap. split.
  - intros ([[[s ty] name] e] & He%elem_of_map_to_list & E). destruct (Nat.eqb_spec s sid) as [->|]; [|done]. cbn in E.
    destruct (existsb _ _) eqn:Ex; [|done]. injection E as <-. apply existsb_exists in Ex as ([v r] & Hr%list_elem_of_In%elem_of_entry_versions & Hp).
    eauto 10.
  - intros (ty & name & e & v & r & He & <- & Hr & Hp). exists ((sid, ty, name), e). split; [by apply elem_of_map_to_list|].
    rewrite Nat.eqb_refl. cbn. rewrite (proj2 (existsb_exists _ _)); [done|]. exists (v, r). split; [|done].
    by apply list_elem_of_In, elem_of_entry_versions.
Qed.

(** ** Contents by type *)

Definition present (ty : EntryType) (d : DB) (vid : uuid) : bool :=
  match ty with
  | EntryTypeMCP => server_exists vid d
  | EntryTypeSKILL => bool_decide (is_Some (d_skill d !! vid))
  | EntryTypePLUGIN => bool_decide (is_Some (d_plugin d !! vid))
  end.

(** Each version has its row in the table of its entry's type, and in no other. *)
Definition content_wf (d : DB) : Prop :=
  forall sid ty name e v r, d_entry d !! (sid, ty, name) = Some e -> d_version d !! (en_id e, v) = Some r ->
  forall ty', present ty' d (ve_id r) = bool_decide (ty' = ty).

Definition delete_typed (ty : EntryType) (sid : uuid) (d : DB) : DB := delete_entries (entries_with (present ty d) sid d) d.

Lemma delete_typed_untouched ty sid d : wf_core d -> content_wf d -> untouched (outside sid ty) d (delete_typed ty sid d).
Proof.
  intros Hwf Hc. apply delete_entries_untouched; [done|]. intros [[s t] nm] e Hk He (ty' & name & e' & v & r & He' & Hid & Hr & Hp)%entries_with_spec.
  rewrite <-Hid in Hr. rewrite (Hc _ _ _ _ _ _ He' Hr) in Hp. apply bool_decide_eq_true in Hp. subst ty'.
  apply Hk. cbn. by pose proof (wf_entry_inj _ Hwf _ _ _ _ He He' (eq_sym Hid)) as [= -> -> ->].
Qed.

Lemma delete_typed_empty ty sid d name e v r : wf_core d -> content_wf d ->
  d_entry (delete_typed ty sid d) !! (sid, ty, name) = Some e -> d_version (delete_typed ty sid d) !! (en_id e, v) = Some r -> False.
Proof.
  intros Hwf Hc [He Hn]%delete_entries_entry [Hr _]%delete_entries_version; [|done]. apply Hn, entries_with_spec.
  exists ty, name, e, v, r. split_and!; try done. rewrite (Hc _ _ _ _ _ _ He Hr). by apply bool_decide_eq_true_2.
Qed.

Lemma present_cascade ty dead d id : dead id = false -> present ty (cascade_versions dead d) id = present ty d id.
Proof.
  intros Hd. unfold present, server_exists. destruct ty; apply bool_decide_ext; cbn; by rewrite filter_same.
Qed.
Lemma content_wf_cascade dead d : content_wf d -> content_wf (cascade_versions dead d).
Proof.
  intros Hc sid ty name e v r He [Hr Hd]%cascade_version_iff ty'. rewrite present_cascade by done. by eapply Hc.
Qed.
Lemma content_wf_typed ty sid d : wf_core d -> content_wf d -> content_wf (delete_typed ty sid d).
Proof.
  intros Hwf Hc sid' ty' name e v r [He _]%delete_entries_entry Hr. pose proof Hr as [Hr0 _]%delete_entries_version; [|done].
  intros ty2. pose proof (content_wf_cascade (fun id => bool_decide (id ∈ version_ids_of (entries_with (present ty d) sid d) d)) d Hc) as H2.
  exact (H2 sid' ty' name e v r He Hr ty2).
Qed.
