(* ===== verification/WriterCorrect.v ===== *)
(** * Correctness of the sync writer

    What a [Store] that succeeds leaves in the database: for each of the three
    types, exactly the versions that are upstream, with their contents, and
    nothing changed of the other sources. *)

From stdpp Require Import base list strings gmap sets sorting.
From Stdlib Require Import String Ascii ZArith Lia.
From S2P Require Import Prelude GoStrings Versions Claims Upstream Database Entries Artifacts Sync Writer.

Local Open Scope string_scope.
Local Open Scope list_scope.

(** ** The invariant *)

(** Contents hang on versions. *)
Definition content_fk (d : DB) : Prop :=
  forall ty id, present ty d id = true -> exists k r, d_version d !! k = Some r /\ ve_id r = id.
Record sane (d : DB) : Prop := { sane_core : wf_core d; sane_typed : content_wf d; sane_fk : content_fk d }.

(** A version of a source. *)
Definition holds (d : DB) (sid : uuid) (ty : EntryType) (name v : string) (e : EntryRow) (r : VersionRow) : Prop :=
  d_entry d !! (sid, ty, name) = Some e /\ d_version d !! (en_id e, v) = Some r.
(** The versions of a type are these. *)
Definition exactly (d : DB) (sid : uuid) (ty : EntryType) (items : list (string * string)) : Prop :=
  forall name v, (exists e r, holds d sid ty name v e r) <-> (name, v) ∈ items.

Lemma holds_untouched P d d' sid ty name v e r : untouched P d d' -> P (sid, ty, name) ->
  holds d' sid ty name v e r <-> holds d sid ty name v e r.
Proof.
  intros [A1 A2 _ _] Hp. unfold holds. rewrite (A1 _ Hp). split; intros [He Hr]; (split; [done|]).
  - by rewrite (A2 _ _ v Hp He) in Hr.
  - by rewrite (A2 _ _ v Hp He).
Qed.
Lemma exactly_untouched P d d' sid ty items : untouched P d d' -> (forall name, P (sid, ty, name)) ->
  exactly d sid ty items -> exactly d' sid ty items.
Proof. intros Hu Hp He name v. rewrite <-(He name v). setoid_rewrite (holds_untouched P d d'); done. Qed.

Lemma sane_cascade dead d : sane d -> sane (cascade_versions dead d).
Proof.
  intros [Hw Hc Hf]. split; [by apply wf_core_cascade|by apply content_wf_cascade|]. intros ty id Hp.
  assert (dead id = false /\ present ty d id = true) as [Hd Hp0].
  { unfold present, server_exists in *. destruct ty; apply bool_decide_eq_true in Hp as [x Hx]; cbn in Hx;
      apply map_lookup_filter_Some in Hx as [Hx Hd]; cbn in Hd; (split; [done|]); apply bool_decide_eq_true_2; eauto. }
  destruct (Hf _ _ Hp0) as (k & r & Hr & <-). exists k, r. by rewrite cascade_version_iff.
Qed.
Lemma sane_delete_typed ty sid d : sane d -> sane (delete_typed ty sid d).
Proof.
  intros Hs. split; [apply delete_entries_wf, Hs|apply content_wf_typed; apply Hs|]. intros ty' id Hp.
  pose proof (sane_cascade (fun id => bool_decide (id ∈ version_ids_of (entries_with (present ty d) sid d) d)) d Hs) as [_ _ Hf].
  exact (Hf ty' id Hp).
Qed.
Lemma delete_typed_exactly ty sid d : sane d -> exactly (delete_typed ty sid d) sid ty [].
Proof.
  intros [Hw Hc _] name v. split; [|intros H; by apply elem_of_nil in H]. intros (e & r & He & Hr). exfalso. by eapply delete_typed_empty.
Qed.

(** ** Entries, versions and contents put in *)

Definition item_id (d : DB) (sid : uuid) (ty : EntryType) (items : list VersionColumns) (id : uuid) : Prop :=
  exists name v title de e r, (name, v, title, de) ∈ items /\ holds d sid ty name v e r /\ ve_id r = id.

Section Fill.
Context (sid : uuid) (ty : EntryType) (f : string -> string) (names : list string) (items : list VersionColumns).
Context (d d1 d2 : DB) (em : gmap string uuid) (copied : list (uuid * uuid * string)).
Hypothesis Hsane : sane d.
Hypothesis He : entries_done sid ty f names d d1 em.
Hypothesis Hv : versions_done sid ty items d1 d2 copied.

Lemma fill_wf1 : wf_core d1.
Proof. eapply entries_wf; [exact He|apply Hsane]. Qed.
Lemma fill_wf : wf_core d2.
Proof. eapply versions_wf; [exact Hv|apply fill_wf1]. Qed.
Lemma fill_untouched : untouched (outside sid ty) d d2.
Proof. eapply untouched_trans; [by eapply entries_untouched|]. eapply versions_untouched; [apply fill_wf1|done]. Qed.
Lemma fill_tables : forall ty' id, present ty' d2 id = present ty' d id.
Proof. intros ty' id. rewrite (vd_frame _ _ _ _ _ _ Hv), (ed_frame _ _ _ _ _ _ _ He). by destruct ty'. Qed.

Lemma fill_case s t name v e r : holds d2 s t name v e r ->
  (s = sid /\ t = ty /\ exists title de, (name, v, title, de) ∈ items) \/
  exists e0 r0, holds d s t name v e0 r0 /\ en_id e0 = en_id e /\ ve_id r0 = ve_id r.
Proof.
  intros [Ee Er]. pose proof fill_wf1 as Hw1. rewrite (vd_frame _ _ _ _ _ _ Hv) in Ee. cbn in Ee.
  destruct (vd_case _ _ _ _ _ _ Hv _ _ _ Er) as [Hold|(n1 & t1 & x1 & e1 & Hi & He1 & Hid & _)].
  - right. rewrite (ed_frame _ _ _ _ _ _ _ He) in Hold. cbn in Hold. destruct (wf_version_entry d (sane_core _ Hsane) _ _ _ Hold) as (s0 & t0 & e0 & He0 & Hid).
    destruct (ed_old _ _ _ _ _ _ _ He _ _ He0) as (e1 & He1 & Hid1).
    pose proof (wf_entry_inj _ Hw1 _ _ _ _ Ee He1 (eq_trans (eq_sym Hid) (eq_sym Hid1))) as [= -> -> ->].
    exists e0, r. split; [|done]. split; [done|]. by rewrite Hid.
  - left. pose proof (wf_entry_inj _ Hw1 _ _ _ _ Ee He1 (eq_sym Hid)) as [= -> -> ->]. eauto.
Qed.

(** A version put in is of no other type. *)
Lemma fill_other name v e r ty' : holds d2 sid ty name v e r -> ty' <> ty -> present ty' d2 (ve_id r) = false.
Proof.
  intros Hh Hne. rewrite fill_tables. pose proof fill_wf as Hw2.
  destruct (present ty' d (ve_id r)) eqn:Hp; [|done]. exfalso. pose proof Hh as [Ee Er].
  destruct (sane_fk _ Hsane _ _ Hp) as ([eid w] & r0 & Hr0 & Hid).
  assert (Hr1 : d_version d1 !! (eid, w) = Some r0) by (by rewrite (ed_frame _ _ _ _ _ _ _ He)).
  destruct (vd_old _ _ _ _ _ _ Hv _ _ Hr1) as (r2 & Hr2 & Hid2).
  pose proof (wf_version_inj _ Hw2 _ _ _ _ Er Hr2) as E. rewrite Hid2, Hid in E. specialize (E eq_refl). injection E as <- <-.
  destruct (wf_version_entry d (sane_core _ Hsane) _ _ _ Hr0) as (s0 & t0 & e0 & He0 & Hide).
  destruct (ed_old _ _ _ _ _ _ _ He _ _ He0) as (e1 & He1 & Hid1). rewrite (vd_frame _ _ _ _ _ _ Hv) in Ee. cbn in Ee.
  pose proof (wf_entry_inj _ fill_wf1 _ _ _ _ Ee He1 (eq_trans (eq_sym Hide) (eq_sym Hid1))) as [= <- <- _].
  rewrite <-Hide in Hr0. pose proof (sane_typed _ Hsane _ _ _ _ _ _ He0 Hr0 ty') as Hc. rewrite Hid, Hp in Hc.
  symmetry in Hc. by apply bool_decide_eq_true in Hc.
Qed.

Lemma fill_sane d3 : core d3 = core d2 ->
  (forall ty' id, present ty' d3 id = true <-> present ty' d2 id = true \/ (ty' = ty /\ item_id d2 sid ty items id)) -> sane d3.
Proof.
  intros Hcore Hp. pose proof fill_wf as Hw2. assert (Hw3 : wf_core d3) by (by eapply wf_core_proper).
  assert (E1 : d_entry d3 = d_entry d2) by (unfold core in Hcore; congruence).
  assert (E2 : d_version d3 = d_version d2) by (unfold core in Hcore; congruence). split; [done| |].
  - intros s t name e v r Ee Er ty'. rewrite E1 in Ee. rewrite E2 in Er. assert (Hh : holds d2 s t name v e r) by done.
    apply bool_eq_iff. rewrite Hp, bool_decide_eq_true.
    destruct (fill_case _ _ _ _ _ _ Hh) as [(-> & -> & title & de & Hi)|(e0 & r0 & Hh0 & Hide & Hidr)].
    + split; [|intros ->; right; split; [done|]; by exists name, v, title, de, e, r].
      intros [Hq|[-> _]]; [|done]. destruct (decide (ty' = ty)) as [->|Hne]; [done|]. by rewrite (fill_other _ _ _ _ _ Hh Hne) in Hq.
    + rewrite fill_tables, <-Hidr. destruct Hh0 as [Ee0 Er0]. rewrite (sane_typed _ Hsane _ _ _ _ _ _ Ee0 Er0 ty'), bool_decide_eq_true.
      split; [|by left]. intros [?|[-> (n1 & v1 & t1 & x1 & e1 & r1 & Hi & [He1 Hr1] & Hid1)]]; [done|].
      rewrite Hidr in Hid1. by pose proof (same_version _ _ _ _ _ _ _ _ _ _ _ _ _ Hw2 He1 Hr1 Ee Er Hid1) as [= _ -> _ _].
  - intros ty' id Hq. rewrite Hp in Hq. destruct Hq as [Hq|[_ (n1 & v1 & t1 & x1 & e1 & r1 & _ & [_ Hr1] & Hid1)]]; [|rewrite E2; eauto].
    rewrite fill_tables in Hq. destruct (sane_fk _ Hsane _ _ Hq) as (k & r & Hr & <-).
    assert (Hr1 : d_version d1 !! k = Some r) by (by rewrite (ed_frame _ _ _ _ _ _ _ He)).
    destruct (vd_old _ _ _ _ _ _ Hv _ _ Hr1) as (r2 & Hr2 & Hid2). exists k, r2. by rewrite E2.
Qed.
End Fill.

(** ** Orphans *)

Definition orphans (sid : uuid) (ty : EntryType) (keep : list uuid) (d : DB) : DB :=
  cascade_versions (fun id => bool_decide (id ∈ typed_version_ids sid ty d ∖ list_to_set keep)) d.

Lemma deleteOrphaned_run sid ty keep t o n d u t' n' d' :
  deleteOrphanedEntries sid ty keep t o n d = (Ok (u, t'), n', d') ->
  t' = t /\ d' = match keep with [] => delete_typed ty sid d | _ => orphans sid ty keep d end.
Proof.
  unfold deleteOrphanedEntries, delete_typed. intros H. destruct keep as [|k keep]; cbn [List.length Nat.eqb] in H; [destruct ty|];
    apply run_q_run in H as [-> E%query_run_ok]; (split; [done|]); by injection E as _ <-.
Qed.

Lemma elem_of_pairs name v (items : list VersionColumns) :
  (name, v) ∈ pair_of <$> items <-> exists title de, (name, v, title, de) ∈ items.
Proof.
  rewrite list_elem_of_fmap. split.
  - intros ([[[a b] title] de] & E & Hi). cbn in E. injection E as -> ->. eauto.
  - intros (title & de & Hi). by exists (name, v, title, de).
Qed.

Section Orphans.
Context (sid : uuid) (ty : EntryType) (items : list VersionColumns) (keep : list uuid) (d : DB).
Hypothesis Hsane : sane d.
Hypothesis Hkeep : forall id, id ∈ keep <-> item_id d sid ty items id.
Hypothesis Hall : forall name v title de, (name, v, title, de) ∈ items -> exists e r, holds d sid ty name v e r.

Lemma orphans_alive s t name v e r : holds d s t name v e r -> (s, t) <> (sid, ty) \/ (name, v) ∈ pair_of <$> items ->
  bool_decide (ve_id r ∈ typed_version_ids sid ty d ∖ list_to_set keep) = false.
Proof.
  intros [He Hr] Hor. apply bool_decide_eq_false. rewrite elem_of_difference, typed_version_ids_spec, elem_of_list_to_set.
  intros [(n1 & e1 & v1 & r1 & He1 & Hr1 & Hid) Hk].
  pose proof (same_version _ _ _ _ _ _ _ _ _ _ _ _ _ (sane_core _ Hsane) He1 Hr1 He Hr Hid) as [= <- <- <- <-].
  destruct Hor as [Hne|(title & de & Hi)%elem_of_pairs]; [done|]. apply Hk, Hkeep. by exists n1, v1, title, de, e, r.
Qed.
Lemma orphans_untouched : untouched (outside sid ty) d (orphans sid ty keep d).
Proof.
  apply cascade_untouched; [apply Hsane|]. intros [[s t] name] e v r Hk He Hr. eapply (orphans_alive s t name v e r); [done|]. by left.
Qed.
Lemma orphans_holds name v e r :
  holds (orphans sid ty keep d) sid ty name v e r <-> holds d sid ty name v e r /\ (name, v) ∈ pair_of <$> items.
Proof.
  unfold holds at 1. change (d_entry (orphans sid ty keep d)) with (d_entry d). unfold orphans. rewrite cascade_version_iff. split.
  - intros (He & Hr & Hd). assert (Hh : holds d sid ty name v e r) by done. split; [done|]. apply bool_decide_eq_false in Hd.
    destruct (decide (ve_id r ∈ keep)) as [(n1 & v1 & t1 & x1 & e1 & r1 & Hi & [He1 Hr1] & Hid)%Hkeep|Hk].
    + pose proof (same_version _ _ _ _ _ _ _ _ _ _ _ _ _ (sane_core _ Hsane) He1 Hr1 He Hr Hid) as [= -> ->]. apply elem_of_pairs. eauto.
    + exfalso. apply Hd, elem_of_difference. split; [|by rewrite elem_of_list_to_set]. apply typed_version_ids_spec. eauto 10.
  - intros [[He Hr] Hi]. split_and!; try done. eapply (orphans_alive sid ty name v e r); [done|by right].
Qed.
Lemma orphans_exactly : exactly (orphans sid ty keep d) sid ty (pair_of <$> items).
Proof.
  intros name v. setoid_rewrite orphans_holds. split; [by intros (e & r & _ & Hi)|].
  intros Hi. pose proof Hi as (title & de & Hc)%elem_of_pairs. destruct (Hall _ _ _ _ Hc) as (e & r & Hh). eauto.
Qed.
Lemma orphans_content name v e r : holds d sid ty name v e r -> (name, v) ∈ pair_of <$> items ->
  same_content (ve_id r) d (orphans sid ty keep d).
Proof. intros Hh Hi. apply cascade_content. eapply orphans_alive; [exact Hh|by right]. Qed.
End Orphans.

(** ** Latest pointers *)

Section Latest.
Context `{L : SemverLib} `{!SemverLaws L}.

(** The versions of a name are semantic. *)
Definition semver_items (name : string) (l : list (string * string * uuid)) : Prop := forall v id, (name, v, id) ∈ l -> is_semver v = true.

Lemma latest_versions_spec l name : semver_items name l ->
  match latest_versions l !! name with
  | None => forall v id, (name, v, id) ∉ l
  | Some (v, id) => (name, v, id) ∈ l /\ forall v' id', (name, v', id') ∈ l -> IsNewerVersion v' v = false
  end.
Proof.
  induction l as [|[[n1 v1] id1] l IH] using rev_ind; intros Hs; [cbn; rewrite lookup_empty; intros v id; apply not_elem_of_nil|].
  assert (Hl : semver_items name l) by (intros v id Hx; apply (Hs v id), elem_of_app; by left).
  specialize (IH Hl). unfold latest_versions in *. rewrite foldl_snoc. set (m := foldl latest_step ∅ l) in *.
  assert (Hin : forall x, x ∈ l ++ [(n1, v1, id1)] <-> x ∈ l \/ x = (n1, v1, id1)) by (intros x; by rewrite elem_of_app, list_elem_of_singleton).
  cbn [latest_step]. destruct (decide (n1 = name)) as [->|Hne].
  - assert (H1 : is_semver v1 = true) by (apply (Hs v1 id1), elem_of_app; right; by apply list_elem_of_singleton).
    destruct (m !! name) as [[v0 id0]|] eqn:E.
    + destruct IH as [H0 Hmax]. pose proof (Hl _ _ H0) as Hs0. destruct (IsNewerVersion v1 v0) eqn:Hn.
      * rewrite lookup_insert_eq. setoid_rewrite Hin. split; [by right|]. intros v' id' [Hv|[= -> _]]; [|by apply newer_irrefl].
        apply not_true_is_false. intros Hv1. pose proof (Hl _ _ Hv) as Hsv.
        pose proof (newer_trans _ _ _ Hsv H1 Hs0 Hv1 Hn) as Ht. by rewrite (Hmax _ _ Hv) in Ht.
      * rewrite E. setoid_rewrite Hin. split; [by left|]. intros v' id' [Hv|[= -> _]]; [by eapply Hmax|done].
    + rewrite lookup_insert_eq. setoid_rewrite Hin. split; [by right|]. intros v' id' [Hv|[= -> _]]; [by apply IH in Hv|by apply newer_irrefl].
  - assert (Em : (match m !! n1 with
                  | Some (existing, _) => if IsNewerVersion v1 existing then <[n1 := (v1, id1)]> m else m
                  | None => <[n1 := (v1, id1)]> m end) !! name = m !! name).
    { repeat case_match; by rewrite ?lookup_insert_ne. }
    rewrite Em. destruct (m !! name) as [[v0 id0]|].
    + destruct IH as [H0 Hmax]. setoid_rewrite Hin. split; [by left|]. intros v' id' [Hv|[= -> _ _]]; [by eapply Hmax|done].
    + setoid_rewrite Hin. intros v id [Hv|[= -> _ _]]; [by apply IH in Hv|done].
Qed.
End Latest.

Lemma latest_versions_in `{L : SemverLib} l name v id : latest_versions l !! name = Some (v, id) -> (name, v, id) ∈ l.
Proof.
  induction l as [|[[n1 v1] id1] l IH] using rev_ind; [done|]. unfold latest_versions in *. rewrite foldl_snoc, elem_of_app, list_elem_of_singleton.
  cbn [latest_step]. repeat case_match; try (by left; apply IH).
  all: intros [[<- [= -> ->]]|[_ Hx]]%lookup_insert_Some; [by right|left; by apply IH].
Qed.

Lemma upsert_latest_run sid m o n d u n' d' : upsert_latest sid m o n d = (Ok u, n', d') ->
  d' = set_latest d (d_latest d') /\
  (forall name x, m !! name = Some x -> d_latest d' !! (sid, name) = Some x) /\
  (forall k, (forall name, is_Some (m !! name) -> k <> (sid, name)) -> d_latest d' !! k = d_latest d !! k).
Proof.
  unfold upsert_latest.
  assert (Hgo : forall l n d u n' d', NoDup l.*1 -> for_each_q (fun '(name, (version, id)) =>
      _ ← wrapping "failed to upsert latest version for %s" (UpsertLatestVersion sid name version id); mret ()) l o n d = (Ok u, n', d') ->
    d' = set_latest d (d_latest d') /\ (forall name x, (name, x) ∈ l -> d_latest d' !! (sid, name) = Some x) /\
    (forall k, (forall name, name ∈ l.*1 -> k <> (sid, name)) -> d_latest d' !! k = d_latest d !! k)).
  { clear. induction l as [|[name [v id]] l IH]; intros n d u n' d' Hnd H; cbn [for_each_q] in H.
    - apply ret_run_ok in H as (_ & _ & ->). split; [by destruct d|]. split; [|done]. intros name x Hx. by apply elem_of_nil in Hx.
    - bind_in H y E. bind_in E z E0. apply ret_run_ok in E as (_ & _ & ->). apply query_run_ok in E0. injection E0 as _ <-.
      cbn in Hnd. apply NoDup_cons in Hnd as [Hni Hnd]. apply IH in H as (H1 & H2 & H3); [|done]. split_and!.
      + rewrite H1. done.
      + intros nm x [[= -> ->]|Hx]%elem_of_cons; [|by apply H2]. rewrite H3; [cbn; apply lookup_insert_eq|].
        intros nm' Hn' [= <-]. done.
      + intros k Hk. cbn in Hk. rewrite H3; [cbn; rewrite lookup_insert_ne; [done|]; intros <-; eapply (Hk name); [by left|done]|].
        intros nm' Hn'. apply Hk. by right. }
  intros H. apply Hgo in H as (H1 & H2 & H3); [|apply NoDup_fst_map_to_list]. split; [done|]. split.
  - intros name x Hx. apply H2. by apply elem_of_map_to_list.
  - intros k Hk. apply H3. intros name Hn. apply Hk. apply list_elem_of_fmap in Hn as ([nm x] & -> & Hx%elem_of_map_to_list). eauto.
Qed.

(** Pointers of versions that are there. *)
Lemma upsert_latest_sane sid ty m o n d u n' d' : upsert_latest sid m o n d = (Ok u, n', d') ->
  (forall name v id, m !! name = Some (v, id) -> exists e r, holds d sid ty name v e r /\ ve_id r = id) -> sane d ->
  sane d' /\ untouched (outside sid ty) d d'.
Proof.
  intros (E & H1 & H2)%upsert_latest_run Hm [[W1 W2 W3 W4 W5 W6 W7] Hc Hf]. rewrite E in *. cbn in *. split.
  2:{ apply untouched_same; try done. intros s name Hp. apply H2. intros name' _ [= -> <-]. by apply (Hp ty). }
  split; [|exact Hc|exact Hf]. split; try done. cbn. intros s name v vid Hl.
  destruct (decide (s = sid /\ is_Some (m !! name))) as [[-> [[v0 id0] Hx]]|Hno].
  - rewrite (H1 _ _ Hx) in Hl. injection Hl as -> ->. destruct (Hm _ _ _ Hx) as (e & r & [He Hr] & Hid). eauto 10.
  - apply W6. rewrite <-H2; [done|]. intros name' Hs [= -> ->]. by apply Hno.
Qed.

(** The pointer of a name: one of the versions that are upstream, and none of
    them is newer. *)
Definition points_to_newest `{L : SemverLib} (d : DB) (sid : uuid) (ty : EntryType) (items : list (string * string)) (name : string) : Prop :=
  exists v e r, d_latest d !! (sid, name) = Some (v, ve_id r) /\ holds d sid ty name v e r /\
  forall v', (name, v') ∈ items -> IsNewerVersion v' v = false.

Lemma newest_pointer `{L : SemverLib} `{!SemverLaws L} sid ty l items o n d u n' d' name v :
  upsert_latest sid (latest_versions l) o n d = (Ok u, n', d') -> semver_items name l ->
  (forall name v id, (name, v, id) ∈ l -> exists e r, holds d sid ty name v e r /\ ve_id r = id) ->
  (forall name v, (name, v) ∈ items -> exists id, (name, v, id) ∈ l) -> (name, v) ∈ items -> points_to_newest d' sid ty items name.
Proof.
  intros (Ed & Hset & _)%upsert_latest_run Hsl Hl Hitems Hin. pose proof (latest_versions_spec l name Hsl) as Hspec.
  destruct (latest_versions l !! name) as [[w id]|] eqn:Elat.
  - destruct Hspec as [Hw Hmax]. destruct (Hl _ _ _ Hw) as (e & r & Hh & <-). exists w, e, r. split; [by apply Hset|].
    split; [unfold holds; by rewrite Ed|]. intros v' (id' & Hv')%Hitems. by eapply Hmax.
  - destruct (Hitems _ _ Hin) as (id & Hid). by apply Hspec in Hid.
Qed.

(** ** Servers *)

Section Servers.
Context `{SC : ServerCodec}.

Lemma server_rows_spec servers vm mx rows : server_rows servers vm mx = Ok rows ->
  Forall2 (fun r s => fst r = default uuid_Nil (vm !! key_of s) /\
    exists meta, SerializeServerMeta (sj_Meta s) mx = Ok meta /\ snd r = server_row s meta) rows servers.
Proof.
  revert rows. induction servers as [|s servers IH]; intros rows H; cbn in H; [by injection H as <-|].
  destruct (SerializeServerMeta (sj_Meta s) mx) as [meta|] eqn:Em; [|done].
  destruct (server_rows servers vm mx) as [rest|]; [|done]. cbn in H. injection H as <-. constructor; [|by apply IH]. cbn. eauto.
Qed.

Lemma server_rows_ids servers vm mx rows : server_rows servers vm mx = Ok rows ->
  fst <$> rows = (fun s => default uuid_Nil (vm !! key_of s)) <$> servers.
Proof. intros H%server_rows_spec. induction H as [|r s l l' [E _] _ IH]; [done|]. cbn. by rewrite E, IH. Qed.

Lemma sqlCopyServers_run servers vm mx t o n d u t' n' d' : sqlCopyServers servers vm mx t o n d = (Ok (u, t'), n', d') ->
  exists rows, server_rows servers vm mx = Ok rows /\ NoDup (fst <$> rows) /\ t' = tt_put temp_mcp_server (Some rows) t /\
  d' = set_content d (upsert fst (fun r _ => snd r) rows (d_server d)) (d_package d) (d_remote d) (d_icon d).
Proof.
  intros H. unfold sqlCopyServers in H. wbind_in H x E. apply create_run in E as (Ht & Et & ->). cbn in Et. subst t0.
  wq_in H rows E. apply lift_run_ok in E as (E & -> & ->). exists rows. split; [done|].
  wbind_in H k E2. apply copy_run in E2 as (l & El & Ex & ->). cbn in El. injection El as <-. injection Ex as -> ->.
  destruct (negb _); [by apply wfail_run in H|]. apply wwrap_run in H. apply from_run in H as (l & El & H & ->). cbn in El. injection El as <-.
  destruct (upsert_all _ _ _ _) as [m|] eqn:Em; [|done]. apply upsert_all_ok in Em as [Hnd ->]. unfold rbind, references in H.
  destruct (forallb _ rows); [|done]. by injection H as _ <-.
Qed.

Lemma server_ids_spec sid d id name v : (id, name, v) ∈ server_ids sid d <->
  exists ty e r, holds d sid ty name v e r /\ ve_id r = id /\ server_exists id d = true.
Proof.
  unfold server_ids. rewrite list_elem_of_bind. split.
  - intros ([[[s t] nm] e] & Hin & He%elem_of_map_to_list). destruct (Nat.eqb_spec s sid) as [->|]; [|by apply elem_of_nil in Hin].
    apply list_elem_of_omap in Hin as ([w r] & Hr%elem_of_entry_versions & E). destruct (server_exists (ve_id r) d) eqn:Ex; [|done].
    injection E as <- <- <-. by exists t, e, r.
  - intros (t & e & r & [He Hr] & <- & Hx). exists ((sid, t, name), e). split; [|by apply elem_of_map_to_list].
    rewrite Nat.eqb_refl. apply list_elem_of_omap. exists (v, r). rewrite Hx. split; [by apply elem_of_entry_versions|done].
Qed.

(** A server as it is stored. *)
Definition server_here (mx : Z) (f : string -> string) (d : DB) (sid : uuid) (s : ServerJSON) (e : EntryRow) (r : VersionRow) : Prop :=
  holds d sid EntryTypeMCP (sj_Name s) (sj_Version s) e r /\ en_claims e = f (sj_Name s) /\ ve_title r = sj_Title s /\
  ve_description r = sj_Description s /\
  exists meta, SerializeServerMeta (sj_Meta s) mx = Ok meta /\ d_server d !! ve_id r = Some (server_row s meta).

(** Names of the source's servers. *)
Definition plain_names (d : DB) (sid : uuid) : Prop := forall name e, d_entry d !! (sid, EntryTypeMCP, name) = Some e -> no_at name.

(** Ids survive. *)
Definition keeps_ids (d d' : DB) (sid : uuid) (ty : EntryType) (items : list (string * string)) : Prop :=
  forall name v e r, (name, v) ∈ items -> holds d sid ty name v e r ->
  exists e' r', holds d' sid ty name v e' r' /\ en_id e' = en_id e /\ ve_id r' = ve_id r.

Lemma fill_keeps_ids sid ty f names items d d1 d2 em copied its :
  entries_done sid ty f names d d1 em -> versions_done sid ty items d1 d2 copied -> keeps_ids d d2 sid ty its.
Proof.
  intros He Hv name v e r _ [Ee Er]. destruct (ed_old _ _ _ _ _ _ _ He _ _ Ee) as (e1 & He1 & Hid).
  assert (Hr1 : d_version d1 !! (en_id e, v) = Some r) by (by rewrite (ed_frame _ _ _ _ _ _ _ He)).
  destruct (vd_old _ _ _ _ _ _ Hv _ _ Hr1) as (r2 & Hr2 & Hid2). exists e1, r2. split_and!; try done.
  rewrite (vd_frame _ _ _ _ _ _ Hv). split; [done|]. by rewrite Hid.
Qed.

Lemma server_columns_in name v title de (servers : list ServerJSON) : (name, v, title, de) ∈ server_columns <$> servers <->
  exists s, s ∈ servers /\ sj_Name s = name /\ sj_Version s = v /\ sj_Title s = title /\ sj_Description s = de.
Proof.
  rewrite list_elem_of_fmap. split.
  - intros (s & E & Hs). injection E as -> -> -> ->. by exists s.
  - intros (s & Hs & <- & <- & <- & <-). by exists s.
Qed.

Lemma NoDup_key_inj (servers : list ServerJSON) s s' : NoDup (key_of <$> servers) -> s ∈ servers -> s' ∈ servers -> key_of s = key_of s' -> s = s'.
Proof.
  intros Hnd [i Hi]%list_elem_of_lookup [j Hj]%list_elem_of_lookup E. assert (i = j) as ->; [|congruence].
  eapply (NoDup_lookup _ _ _ (key_of s) Hnd); rewrite list_lookup_fmap; [by rewrite Hi|rewrite Hj; cbn; by rewrite E].
Qed.
End Servers.

Lemma entries_map_ok sid ty f names d d1 em : entries_done sid ty f names d d1 em -> entry_map_ok sid ty d1 em.
Proof.
  intros He name id Hm. destruct (ed_in _ _ _ _ _ _ _ He name (ed_map _ _ _ _ _ _ _ He _ _ Hm)) as (e & Hx & _ & Hem).
  rewrite Hm in Hem. injection Hem as ->. eauto.
Qed.

Section ServerStage.
Context `{SC : ServerCodec}.
Context (mx now : Z) (sid : uuid) (servers : list ServerJSON) (claims : string) (pc : gmap string string).
Let f (name : string) : string := default claims (pc !! name).

Lemma storeSync_run t o n d m t' n' d3 : servers <> [] ->
  storeSyncInTempTables mx now sid servers claims pc t o n d = (Ok (m, t'), n', d3) ->
  exists d1 d2 em copied rows, entries_done sid EntryTypeMCP f (sj_Name <$> servers) d d1 em /\
    versions_done sid EntryTypeMCP (server_columns <$> servers) d1 d2 copied /\
    server_rows servers (version_map serverKey em copied) mx = Ok rows /\ NoDup (fst <$> rows) /\
    d3 = set_content d2 (upsert fst (fun r _ => snd r) rows (d_server d2)) (d_package d2) (d_remote d2) (d_icon d2) /\
    m = server_id_map servers (server_ids sid d3).
Proof.
  intros Hne H. unfold storeSyncInTempTables in H. destruct (List.length servers =? 0)%nat eqn:E0; [by destruct servers|].
  wbind_in H em E1. unfold sqlCopyEntries in E1. wq_in E1 erows E2. destruct (entries_run _ _ _ _ _ _ _ _ _ _ _ _ _ _ _ E2 E1) as [He ->].
  wbind_in H vm E3. unfold sqlCopyEntryVersions in E3. wq_in E3 vrows E4. wbind_in E3 copied E5.
  destruct (versions_run _ _ _ _ _ _ _ _ _ _ _ _ _ _ _ _ (entries_map_ok _ _ _ _ _ _ _ He) E4 E5) as [Hv ->].
  apply wret_run in E3 as (-> & -> & ->). wbind_in H u E6. apply sqlCopyServers_run in E6 as (rows & Hr & Hnd & -> & ->).
  wq_in H dbs E7. apply select_run_ok in E7 as (E7 & ->). injection E7 as <-. apply wret_run in H as (-> & -> & ->). eauto 12.
Qed.

Context (d d1 d2 d3 : DB) (em : gmap string uuid) (copied : list (uuid * uuid * string)) (rows : list (uuid * ServerRow)).
Hypothesis Hsane : sane d.
Hypothesis He : entries_done sid EntryTypeMCP f (sj_Name <$> servers) d d1 em.
Hypothesis Hv : versions_done sid EntryTypeMCP (server_columns <$> servers) d1 d2 copied.
Hypothesis Hrows : server_rows servers (version_map serverKey em copied) mx = Ok rows.
Hypothesis Hnd : NoDup (fst <$> rows).
Hypothesis Hd3 : d3 = set_content d2 (upsert fst (fun r _ => snd r) rows (d_server d2)) (d_package d2) (d_remote d2) (d_icon d2).
Hypothesis Hat : forall s, s ∈ servers -> no_at (sj_Name s).
Hypothesis Hplain : plain_names d sid.

Lemma stage_key s s' : s ∈ servers -> s' ∈ servers -> key_of s = key_of s' -> sj_Name s = sj_Name s' /\ sj_Version s = sj_Version s'.
Proof. intros Hs Hs' E. apply serverKey_inj; auto. Qed.

Lemma stage_version s : s ∈ servers -> exists e r, holds d2 sid EntryTypeMCP (sj_Name s) (sj_Version s) e r /\
  en_claims e = f (sj_Name s) /\ ve_title r = sj_Title s /\ ve_description r = sj_Description s /\
  version_map serverKey em copied !! key_of s = Some (ve_id r).
Proof.
  intros Hs. assert (Hi : (sj_Name s, sj_Version s, sj_Title s, sj_Description s) ∈ server_columns <$> servers) by (by apply (list_elem_of_fmap_2 server_columns)).
  destruct (vd_in _ _ _ _ _ _ Hv _ _ _ _ Hi) as (e & r & Ee & Er & _ & Ht & Hde & _). exists e, r.
  destruct (ed_in _ _ _ _ _ _ _ He (sj_Name s)) as (e' & Ee' & Hcl & Hem); [by apply (list_elem_of_fmap_2 sj_Name)|].
  rewrite Ee in Ee'. injection Ee' as <-. split_and!; try done.
  - split; [|done]. by rewrite (vd_frame _ _ _ _ _ _ Hv).
  - eapply (version_map_in serverKey _ _ _ _ _ _ _ _ _ _ _ _ _ Hv (fill_wf1 _ _ _ _ _ _ _ Hsane He) (entries_map_ok _ _ _ _ _ _ _ He)).
    + intros n1 v1 t1 x1 (s1 & Hs1 & <- & _)%server_columns_in. destruct (ed_in _ _ _ _ _ _ _ He (sj_Name s1)) as (e1 & _ & _ & H1); [|eauto].
      by apply (list_elem_of_fmap_2 sj_Name).
    + intros n1 v1 t1 x1 (s1 & Hs1 & <- & <- & _)%server_columns_in E. by apply stage_key.
    + exact Hi.
    + exact Ee.
    + exact Er.
Qed.

Lemma stage_ids : fst <$> rows = (fun s => default uuid_Nil (version_map serverKey em copied !! key_of s)) <$> servers.
Proof. eapply server_rows_ids, Hrows. Qed.
Lemma stage_nodup : NoDup (key_of <$> servers).
Proof.
  pose proof Hnd as H. rewrite stage_ids in H. apply (NoDup_fmap_1 (fun k => default uuid_Nil (version_map serverKey em copied !! k))).
  by rewrite <-list_fmap_compose.
Qed.

Lemma stage_item id : item_id d2 sid EntryTypeMCP (server_columns <$> servers) id <-> id ∈ (fst <$> rows).
Proof.
  rewrite stage_ids, list_elem_of_fmap. split.
  - intros (name & v & title & de & e & r & (s & Hs & <- & <- & _)%server_columns_in & [Ee Er] & <-). exists s. split; [|done].
    destruct (stage_version s Hs) as (e' & r' & [Ee' Er'] & _ & _ & _ & ->). rewrite Ee in Ee'. injection Ee' as <-. rewrite Er in Er'. by injection Er' as <-.
  - intros (s & -> & Hs). destruct (stage_version s Hs) as (e & r & Hh & _ & _ & _ & ->).
    exists (sj_Name s), (sj_Version s), (sj_Title s), (sj_Description s), e, r. split_and!; try done. apply server_columns_in. by exists s.
Qed.

Lemma stage_sane : sane d3.
Proof.
  eapply (fill_sane sid EntryTypeMCP f _ _ d d1 d2 em copied Hsane He Hv); [by rewrite Hd3|]. intros ty' id. rewrite stage_item. rewrite Hd3.
  destruct ty'; cbn [present set_content d_skill d_plugin]; [|split; [by left|by intros [?|[? _]]]..].
  unfold server_exists. cbn [set_content d_server]. rewrite !bool_decide_eq_true. split.
  - intros [x [(r & Hr & -> & _)|[_ Hx]]%upsert_some]; [| |done]; [right|left; eauto]. split; [done|]. by apply list_elem_of_fmap_2.
  - intros [[x Hx]|[_ Hid]].
    + destruct (decide (id ∈ (fst <$> rows))) as [(r & -> & Hr)%list_elem_of_fmap|Hout].
      * rewrite upsert_in by done. eauto.
      * rewrite upsert_out by done. eauto.
    + apply list_elem_of_fmap in Hid as (r & -> & Hr). rewrite upsert_in by done. eauto.
Qed.

Lemma stage_untouched : untouched (outside sid EntryTypeMCP) d d3.
Proof.
  eapply untouched_trans; [exact (fill_untouched _ _ _ _ _ _ _ _ _ _ Hsane He Hv)|]. rewrite Hd3. split; [done|done| |done].
  intros [[s t] name] e v r Hk Ee Er. split_and!; try done. cbn. apply upsert_out. intros (n1 & v1 & t1 & x1 & e1 & r1 & _ & [He1 Hr1] & Hid)%stage_item.
  pose proof (same_version _ _ _ _ _ _ _ _ _ _ _ _ _ (fill_wf _ _ _ _ _ _ _ _ _ _ Hsane He Hv) He1 Hr1 Ee Er Hid) as [= <- <- _ _]. by apply Hk.
Qed.

Lemma stage_server s : s ∈ servers -> exists e r, server_here mx f d3 sid s e r /\
  version_map serverKey em copied !! key_of s = Some (ve_id r).
Proof.
  intros Hs. destruct (stage_version s Hs) as (e & r & Hh & H1 & H2 & H3 & H4). exists e, r. split; [|done]. split_and!; try done.
  - by rewrite Hd3.
  - pose proof Hs as [i Hi]%list_elem_of_lookup. destruct (Forall2_lookup_r _ _ _ _ _ (server_rows_spec _ _ _ _ Hrows) Hi) as (x & Hx & E & meta & Hm & Hx2).
    exists meta. split; [done|]. rewrite H4 in E. cbn in E. rewrite Hd3. cbn. rewrite <-E, <-Hx2. apply (upsert_in fst (fun r _ => snd r)); [done|].
    by eapply list_elem_of_lookup_2.
Qed.

(** Names of the source after the stage. *)
Lemma stage_plain name e : d_entry d3 !! (sid, EntryTypeMCP, name) = Some e -> no_at name.
Proof.
  rewrite Hd3. cbn. rewrite (vd_frame _ _ _ _ _ _ Hv). cbn. intros Ee. destruct (decide (name ∈ (sj_Name <$> servers))) as [(s & -> & Hs)%list_elem_of_fmap|Hout]; [by apply Hat|].
  rewrite (ed_out _ _ _ _ _ _ _ He) in Ee; [by eapply Hplain|]. by intros name' Hn [= <-].
Qed.

Lemma stage_map_in s e r : s ∈ servers -> holds d3 sid EntryTypeMCP (sj_Name s) (sj_Version s) e r ->
  server_id_map servers (server_ids sid d3) !! key_of s = Some (ve_id r).
Proof.
  intros Hs Hh. rewrite server_id_map_fold. set (l := filter _ _).
  apply (fold_insert_in (fun row : uuid * string * string => serverKey (snd (fst row)) (snd row)) (fun row => fst (fst row)) l ∅ (ve_id r, sj_Name s, sj_Version s)).
  - intros [[id name] v] [_ (ty & e' & r' & Hh' & <- & Hx)%server_ids_spec]%list_elem_of_filter E. cbn in *.
    pose proof Hh' as [Ee' Er']. pose proof (sane_typed _ stage_sane _ _ _ _ _ _ Ee' Er' EntryTypeMCP) as Ht. cbn in Ht. rewrite Hx in Ht.
    symmetry in Ht. apply bool_decide_eq_true in Ht. subst ty.
    apply serverKey_inj in E as [-> ->]; [|by eapply stage_plain|by apply Hat]. destruct Hh as [Ee Er]. rewrite Ee in Ee'. injection Ee' as <-. congruence.
  - apply list_elem_of_filter. cbn. split; [by apply (list_elem_of_fmap_2 key_of)|]. apply server_ids_spec. exists EntryTypeMCP, e, r. split_and!; try done.
    destruct (stage_server s Hs) as (e' & r' & ([Ee' Er'] & _ & _ & _ & meta & _ & Hm) & _). destruct Hh as [Ee Er]. rewrite Ee in Ee'. injection Ee' as <-.
    rewrite Er in Er'. injection Er' as <-. apply bool_decide_eq_true. eauto.
Qed.

Lemma stage_keep id : id ∈ collectValues (server_id_map servers (server_ids sid d3)) <-> item_id d3 sid EntryTypeMCP (server_columns <$> servers) id.
Proof.
  unfold collectValues. rewrite list_elem_of_fmap. split.
  - intros ([k x] & -> & Hk%elem_of_map_to_list). cbn. rewrite server_id_map_fold in Hk.
    apply (fold_insert_some (fun row : uuid * string * string => serverKey (snd (fst row)) (snd row)) (fun row => fst (fst row))) in Hk as [([[id name] v] & Hin & _ & <-)|Hk]; [|by rewrite lookup_empty in Hk].
    apply list_elem_of_filter in Hin as [Hk (ty & e & r & Hh & <- & Hx)%server_ids_spec]. cbn in *. pose proof Hh as [Ee Er].
    pose proof (sane_typed _ stage_sane _ _ _ _ _ _ Ee Er EntryTypeMCP) as Ht. cbn in Ht. rewrite Hx in Ht. symmetry in Ht. apply bool_decide_eq_true in Ht. subst ty.
    apply list_elem_of_fmap in Hk as (s & E & Hs). apply serverKey_inj in E as [-> ->]; [|by eapply stage_plain|by apply Hat].
    exists (sj_Name s), (sj_Version s), (sj_Title s), (sj_Description s), e, r. split_and!; try done. apply server_columns_in. by exists s.
  - intros (name & v & title & de & e & r & (s & Hs & <- & <- & _)%server_columns_in & Hh & <-). exists (key_of s, ve_id r). split; [done|].
    apply elem_of_map_to_list. by apply (stage_map_in s e r).
Qed.

Lemma stage_keeps_ids its : keeps_ids d d3 sid EntryTypeMCP its.
Proof. rewrite Hd3. exact (fill_keeps_ids _ _ _ _ _ _ _ _ _ _ its He Hv). Qed.
End ServerStage.

(** ** Packages, remotes and icons *)

(** The rows one server owns are the rows made from it. *)
Section Related.
Context {R : Type} (owner : R -> uuid) (rows_of : uuid -> ServerJSON -> result (list R)) (m : gmap string uuid).
Hypothesis Howner : forall id s rs r, rows_of id s = Ok rs -> r ∈ rs -> owner r = id.

Lemma related_ids servers rows ids : related_rows rows_of m servers = Ok (rows, ids) ->
  (forall id, id ∈ ids <-> exists s, s ∈ servers /\ m !! key_of s = Some id) /\ (forall r, r ∈ rows -> owner r ∈ ids).
Proof.
  revert rows ids. induction servers as [|s servers IH]; intros rows ids H; cbn in H.
  - injection H as <- <-. split; [|intros r Hr; by apply elem_of_nil in Hr]. intros id. split; [by intros Hx%elem_of_empty|].
    intros (s & Hs & _). by apply elem_of_nil in Hs.
  - destruct (m !! key_of s) as [sid|] eqn:Em; [|done]. destruct (rows_of sid s) as [rs|] eqn:Er; [|done]. cbn in H.
    destruct (related_rows rows_of m servers) as [[rest ids']|] eqn:Erest; [|done]. cbn in H. injection H as <- <-.
    destruct (IH _ _ eq_refl) as [H1 H2]. split.
    + intros id. rewrite elem_of_union, elem_of_singleton, H1. split.
      * intros [->|(s' & Hs' & E)]; [exists s; split; [by left|done]|exists s'; split; [by right|done]].
      * intros (s' & [->|Hs']%elem_of_cons & E); [left; congruence|right; eauto].
    + intros r [Hr|Hr]%elem_of_app; apply elem_of_union; [left; apply elem_of_singleton; by eapply Howner|right; by apply H2].
Qed.

Lemma related_own servers rows ids s id : related_rows rows_of m servers = Ok (rows, ids) -> NoDup (key_of <$> servers) ->
  (forall s s' x, s ∈ servers -> s' ∈ servers -> m !! key_of s = Some x -> m !! key_of s' = Some x -> key_of s = key_of s') ->
  s ∈ servers -> m !! key_of s = Some id -> exists rs, rows_of id s = Ok rs /\ filter (fun r => owner r = id) rows = rs.
Proof.
  revert rows ids. induction servers as [|s0 servers IH]; intros rows ids H Hnd Hinj Hs Hid; [by apply elem_of_nil in Hs|].
  cbn in H. destruct (m !! key_of s0) as [id0|] eqn:Em; [|done]. destruct (rows_of id0 s0) as [rs0|] eqn:Er; [|done]. cbn in H.
  destruct (related_rows rows_of m servers) as [[rest ids']|] eqn:Erest; [|done]. cbn in H. injection H as <- <-.
  cbn in Hnd. apply NoDup_cons in Hnd as [Hni Hnd]. rewrite filter_app.
  assert (Hall : forall r, r ∈ rs0 -> owner r = id0) by (intros r Hr; by eapply Howner).
  assert (Hf0 : id0 = id -> filter (fun r => owner r = id) rs0 = rs0).
  { intros ->. clear -Hall. induction rs0 as [|r l IH]; [done|]. rewrite filter_cons_True by (apply Hall; by left). f_equal. apply IH. intros r' Hr'. apply Hall. by right. }
  assert (Hf1 : forall l, (forall r, r ∈ l -> owner r <> id) -> filter (fun r => owner r = id) l = []).
  { clear. intros l Hl. induction l as [|r l IH]; [done|]. rewrite filter_cons_False by (apply Hl; by left). apply IH. intros r' Hr'. apply Hl. by right. }
  destruct (decide (key_of s0 = key_of s)) as [E|Hne].
  - rewrite E, Hid in Em. injection Em as <-. exists rs0. assert (s = s0) as ->.
    { apply elem_of_cons in Hs as [->|Hs]; [done|]. exfalso. apply Hni. rewrite E. by apply list_elem_of_fmap_2. }
    split; [done|]. rewrite Hf0 by done. rewrite Hf1; [by rewrite app_nil_r|]. intros r Hr Ho.
    destruct (related_ids _ _ _ Erest) as [H1 H2]. specialize (H2 r Hr). rewrite Ho in H2. apply H1 in H2 as (s' & Hs' & Em').
    apply Hni. rewrite (Hinj s0 s' id); [by apply list_elem_of_fmap_2|by left|by right|done|done].
  - apply elem_of_cons in Hs as [->|Hs]; [done|]. destruct (IH _ _ eq_refl Hnd) as (rs & Hrs & Hfr); [|done|done|].
    { intros a b x Ha Hb. apply Hinj; by right. }
    exists rs. split; [done|]. rewrite Hf1; [done|]. intros r Hr%Hall Ho. apply Hne. eapply (Hinj s0 s id0); [by left|by right|done|congruence].
Qed.
End Related.

(** One of the three tables. *)
Class Related (K V : Type) `{Countable K} := {
  rt_get : DB -> gmap K V; rt_put : DB -> gmap K V -> DB; rt_owner : K -> uuid;
  rt_get_put : forall d m, rt_get (rt_put d m) = m;
  rt_put_put : forall d m m', rt_put (rt_put d m) m' = rt_put d m';
  rt_put_get : forall d, rt_put d (rt_get d) = d;
  rt_core : forall d m, core (rt_put d m) = core d;
  rt_server : forall d m, d_server (rt_put d m) = d_server d;
  rt_present : forall d m ty id, present ty (rt_put d m) id = present ty d id;
  rt_content : forall d m id, (forall k, rt_owner k = id -> m !! k = rt_get d !! k) -> same_content id d (rt_put d m) }.

#[export] Program Instance RelatedPackage : Related PackageKey PackageRow :=
  {| rt_get := d_package; rt_put := fun d m => set_content d (d_server d) m (d_remote d) (d_icon d); rt_owner := pk_server |}.
Next Obligation. done. Qed.
Next Obligation. done. Qed.
Next Obligation. by intros []. Qed.
Next Obligation. done. Qed.
Next Obligation. done. Qed.
Next Obligation. by intros d m [] id. Qed.
Next Obligation. intros d m id Hk. by split_and!. Qed.
#[export] Program Instance RelatedRemote : Related RemoteKey string :=
  {| rt_get := d_remote; rt_put := fun d m => set_content d (d_server d) (d_package d) m (d_icon d); rt_owner := rm_server |}.
Next Obligation. done. Qed.
Next Obligation. done. Qed.
Next Obligation. by intros []. Qed.
Next Obligation. done. Qed.
Next Obligation. done. Qed.
Next Obligation. by intros d m [] id. Qed.
Next Obligation. intros d m id Hk. by split_and!. Qed.
#[export] Program Instance RelatedIcon : Related IconKey () :=
  {| rt_get := d_icon; rt_put := fun d m => set_content d (d_server d) (d_package d) (d_remote d) m; rt_owner := ic_server |}.
Next Obligation. done. Qed.
Next Obligation. done. Qed.
Next Obligation. by intros []. Qed.
Next Obligation. done. Qed.
Next Obligation. done. Qed.
Next Obligation. by intros d m [] id. Qed.
Next Obligation. intros d m id Hk. by split_and!. Qed.

(** Only rows of these servers change, and they end as [Good] says. *)
Definition replaced {K V} `{Related K V} (ids : gset uuid) (Good : K -> option V -> Prop) (d d' : DB) : Prop :=
  d' = rt_put d (rt_get d') /\ (forall k, rt_owner k ∉ ids -> rt_get d' !! k = rt_get d !! k) /\
  (forall k, rt_owner k ∈ ids -> Good k (rt_get d' !! k)).

Lemma delete_each {K V} `{Related K V} (stmt : uuid -> Q ()) ids o n d u n' d' :
  (forall id, stmt id = query (fun d => Ok ((), rt_put d (filter (fun kv => rt_owner (fst kv) <> id) (rt_get d))))) ->
  for_each_q stmt (elements ids) o n d = (Ok u, n', d') -> replaced ids (fun _ x => x = None) d d'.
Proof.
  intros Hs. assert (Hgo : forall l n d u n' d', for_each_q stmt l o n d = (Ok u, n', d') -> d' = rt_put d (rt_get d') /\
    forall k, rt_get d' !! k = if decide (rt_owner k ∈ l) then None else rt_get d !! k).
  { clear -Hs. induction l as [|id l IH]; intros n d u n' d' H'; cbn [for_each_q] in H'.
    - apply ret_run_ok in H' as (_ & _ & ->). split; [by rewrite rt_put_get|]. intros k. rewrite decide_False; [done|]. apply not_elem_of_nil.
    - bind_in H' y E. rewrite Hs in E. apply query_run_ok in E. injection E as <-. apply IH in H' as [H1 H2]. split.
      + rewrite H1 at 1. by rewrite rt_put_put.
      + intros k. rewrite H2, rt_get_put. destruct (decide (rt_owner k ∈ l)) as [Hin|Hout].
        * rewrite decide_True; [done|by right].
        * destruct (decide (rt_owner k = id)) as [E|Hne].
          -- rewrite decide_True by (apply elem_of_cons; by left). apply map_lookup_filter_None. right. intros x _ Hx. by apply Hx.
          -- rewrite decide_False by (intros [|]%elem_of_cons; done). by apply filter_same. }
  intros Hrun. apply Hgo in Hrun as [H1 H2]. split; [done|]. split; intros k Hk; rewrite H2.
  - by rewrite decide_False by (by rewrite elem_of_elements).
  - by rewrite decide_True by (by rewrite elem_of_elements).
Qed.

Definition first_row {K V} `{EqDecision K} (k : K) (rows : list (K * V)) : option V := snd <$> head (filter (fun r => fst r = k) rows).

Lemma first_row_cons {K V} `{EqDecision K} (k : K) (r : K * V) rows :
  first_row k (r :: rows) = if decide (fst r = k) then Some (snd r) else first_row k rows.
Proof. unfold first_row. rewrite filter_cons. by case_decide. Qed.
Lemma first_row_None {K V} `{EqDecision K} (k : K) (rows : list (K * V)) : k ∉ (fst <$> rows) -> first_row k rows = None.
Proof.
  induction rows as [|r rows IH]; [done|]. cbn. intros [Hne Hk]%not_elem_of_cons. rewrite first_row_cons, decide_False by done. by apply IH.
Qed.
Lemma first_row_nodup {K V} `{EqDecision K} (k : K) (v : V) (rows : list (K * V)) : NoDup (fst <$> rows) -> (k, v) ∈ rows -> first_row k rows = Some v.
Proof.
  induction rows as [|r rows IH]; intros Hnd Hin; [by apply elem_of_nil in Hin|]. cbn in Hnd. apply NoDup_cons in Hnd as [Hni Hnd].
  rewrite first_row_cons. apply elem_of_cons in Hin as [<-|Hin]; [by rewrite decide_True|].
  rewrite decide_False; [by apply IH|]. intros E. apply Hni. rewrite E. by apply (list_elem_of_fmap_2 fst) in Hin.
Qed.
Lemma first_row_owner {K V} `{EqDecision K} (owner : K -> uuid) (k : K) (rows : list (K * V)) :
  first_row k rows = first_row k (filter (fun r => owner (fst r) = owner k) rows).
Proof.
  induction rows as [|r rows IH]; [done|]. rewrite first_row_cons, filter_cons. destruct (decide (fst r = k)) as [<-|Hne].
  - rewrite decide_True by done. by rewrite first_row_cons, decide_True.
  - case_decide; [by rewrite first_row_cons, decide_False|done].
Qed.
Lemma unseen_first {K V} `{Countable K} (k : K) (rows : list (K * V)) : forall seen,
  first_row k (unseen seen rows) = if decide (k ∈ seen) then None else first_row k rows.
Proof.
  induction rows as [|r rows IH]; intros seen; [by case_decide|]. cbn [unseen]. rewrite (first_row_cons k r rows). destruct (decide (fst r ∈ seen)) as [Hr|Hr].
  - rewrite IH. case_decide as Hk; [done|]. rewrite decide_False; [done|]. intros E. by rewrite E in Hr.
  - rewrite first_row_cons, IH. destruct (decide (fst r = k)) as [<-|Hne]; [by rewrite decide_False|].
    destruct (decide (k ∈ seen)) as [Hk|Hk]; [rewrite decide_True; [done|]|rewrite decide_False; [done|]]; rewrite elem_of_union, elem_of_singleton; naive_solver.
Qed.
Lemma unseen_in {K V} `{Countable K} (r : K * V) (rows : list (K * V)) : forall seen, r ∈ unseen seen rows -> r ∈ rows.
Proof.
  induction rows as [|x rows IH]; intros seen; [done|]. cbn. case_decide; [intros Hr; right; by eapply IH|].
  intros [->|Hr]%elem_of_cons; [by left|right; by eapply IH].
Qed.

Lemma replaced_upsert {K V} `{Related K V} ids (rows : list (K * V)) (Keep : K -> Prop) `{!forall k, Decision (Keep k)}
    (P : K * V -> Prop) `{!forall kv, Decision (P kv)} d :
  NoDup (fst <$> rows) -> (forall r, r ∈ rows -> rt_owner (fst r) ∈ ids) -> (forall k, k ∈ (fst <$> rows) -> Keep k) ->
  (forall kv, P kv <-> ~ (rt_owner (fst kv) ∈ elements ids /\ ~ Keep (fst kv))) ->
  replaced ids (fun k x => x = first_row k rows \/ (k ∉ (fst <$> rows) /\ Keep k)) d
    (rt_put d (filter P (upsert fst (fun r _ => snd r) rows (rt_get d)))).
Proof.
  intros Hnd Ho Hk HP. split; [by rewrite rt_get_put|]. rewrite rt_get_put. split; intros k Hin.
  - rewrite filter_same by (intros x; apply HP; intros [Hx _]; by rewrite elem_of_elements in Hx).
    apply upsert_out. intros (r & -> & Hr)%list_elem_of_fmap. by apply Hin, Ho.
  - destruct (decide (k ∈ (fst <$> rows))) as [Hk2|Hout].
    + left. rewrite filter_same by (intros x; apply HP; intros [_ Hx]; by apply Hx, Hk). apply list_elem_of_fmap in Hk2 as ([k' v] & -> & Hr). cbn.
      rewrite (first_row_nodup _ v) by done. by apply (upsert_in fst (fun r _ => snd r) rows (rt_get d) (k', v)).
    + destruct (decide (Keep k)) as [Hkeep|Hno]; [by right|]. left. rewrite first_row_None by done. apply map_lookup_filter_None.
      right. intros x _ Hx%HP. apply Hx. by rewrite elem_of_elements.
Qed.

Lemma replaced_weaken {K V} `{Related K V} ids (G G' : K -> option V -> Prop) d d' :
  (forall k x, rt_owner k ∈ ids -> G k x -> G' k x) -> replaced ids G d d' -> replaced ids G' d d'.
Proof. intros Hw (H1 & H2 & H3). split_and!; auto. Qed.

Section Bulk.
Context `{SC : ServerCodec}.

Lemma map_result_spec {A B} (g : A -> result B) l ys : map_result g l = Ok ys -> Forall2 (fun x y => g x = Ok y) l ys.
Proof.
  revert ys. induction l as [|x l IH]; intros ys H; cbn in H; [by injection H as <-|].
  destruct (g x) as [y|] eqn:Ex; [|done]. cbn in H. destruct (map_result g l) as [zs|]; [|done]. cbn in H. injection H as <-. constructor; [done|by apply IH].
Qed.
Lemma package_row_key id pkg k row : package_row id pkg = Ok (k, row) -> k = package_key id pkg.
Proof. unfold package_row. intros. by repeat case_match; simplify_eq. Qed.

Definition package_rows (id : uuid) (s : ServerJSON) : result (list (PackageKey * PackageRow)) := map_result (package_row id) (sj_Packages s).
Lemma package_owner id s rs r : package_rows id s = Ok rs -> r ∈ rs -> pk_server (fst r) = id.
Proof.
  intros H%map_result_spec [i Hi]%list_elem_of_lookup. destruct (Forall2_lookup_r _ _ _ _ _ H Hi) as (p & _ & Hp). destruct r as [k row].
  by apply package_row_key in Hp as ->.
Qed.

(** Put into a temporary table, upserted and trimmed, or deleted when there are
    none. *)
Definition package_good (rows : list (PackageKey * PackageRow)) (k : PackageKey) (x : option PackageRow) : Prop :=
  x = first_row k rows \/ (k ∉ (fst <$> rows) /\ pk_short k ∈ ((pk_short ∘ fst) <$> rows)).

Lemma bulkInsertPackages_run m servers t o n d u t' n' d' : bulkInsertPackages m servers t o n d = (Ok (u, t'), n', d') ->
  exists rows ids, related_rows package_rows m servers = Ok (rows, ids) /\ NoDup (fst <$> rows) /\ replaced ids (package_good rows) d d'.
Proof.
  intros H. unfold bulkInsertPackages in H. wq_in H c E. apply lift_run_ok in E as (E & -> & ->). destruct c as [rows ids]. exists rows, ids. split; [done|].
  destruct rows as [|r0 rows0]; cbn [List.length Nat.eqb] in H.
  - apply run_q_run in H as [_ H]. split; [constructor|]. eapply replaced_weaken; [|by eapply (delete_each DeleteServerPackagesByServerId)]. intros k x _ ->. by left.
  - set (rows := r0 :: rows0) in *. wbind_in H x1 E1. apply create_run in E1 as (_ & Et & ->). cbn in Et. subst t0.
    wbind_in H x2 E2. apply copy_run in E2 as (l & El & Ex & ->). cbn in El. injection El as <-. injection Ex as -> ->.
    wbind_in H x3 E3. apply from_run in E3 as (l & El & E3 & ->). cbn in El. injection El as <-.
    destruct (upsert_all _ _ _ _) as [m'|] eqn:Em; [|done]. apply upsert_all_ok in Em as [Hnd ->]. unfold rbind, references in E3.
    destruct (forallb _ rows); [|done]. injection E3 as <-. apply wwrap_run in H. apply from_run in H as (l & El & H & ->). cbn in El. injection El as <-.
    injection H as _ <-. split; [done|]. eapply replaced_weaken; [intros k x _ Hx; exact Hx|].
    eapply (replaced_upsert (H0 := RelatedPackage) ids rows (fun k => pk_short k ∈ ((pk_short ∘ fst) <$> rows)) _ d); [done| | |done].
    + apply (proj2 (related_ids (pk_server ∘ fst) package_rows m package_owner _ _ _ E)).
    + intros k (r & -> & Hr)%list_elem_of_fmap. by apply (list_elem_of_fmap_2 (pk_short ∘ fst)).
Qed.

Definition remote_rows (id : uuid) (s : ServerJSON) : result (list (RemoteKey * string)) := Ok (remote_row id <$> sj_Remotes s).
Lemma remote_owner id s rs r : remote_rows id s = Ok rs -> r ∈ rs -> rm_server (fst r) = id.
Proof. intros [= <-] (x & -> & _)%list_elem_of_fmap. done. Qed.

Lemma bulkInsertRemotes_run m servers t o n d u t' n' d' : bulkInsertRemotes m servers t o n d = (Ok (u, t'), n', d') ->
  exists rows ids, related_rows remote_rows m servers = Ok (rows, ids) /\ replaced ids (fun k x => x = first_row k rows) d d'.
Proof.
  intros H. unfold bulkInsertRemotes in H. wq_in H c E. apply lift_run_ok in E as (E & -> & ->). destruct c as [all ids]. exists all, ids. split; [done|].
  assert (Hfirst : forall k, first_row k (unseen ∅ all) = first_row k all).
  { intros k. rewrite unseen_first, decide_False; [done|apply not_elem_of_empty]. }
  destruct (unseen ∅ all) as [|r0 rows0] eqn:Eu; cbn [List.length Nat.eqb] in H.
  - apply run_q_run in H as [_ H]. eapply replaced_weaken; [|by eapply (delete_each DeleteServerRemotesByServerId)]. intros k x _ ->. by rewrite <-Hfirst.
  - set (rows := r0 :: rows0) in *. wbind_in H x1 E1. apply create_run in E1 as (_ & Et & ->). cbn in Et. subst t0.
    wbind_in H x2 E2. apply copy_run in E2 as (l & El & Ex & ->). cbn in El. injection El as <-. injection Ex as -> ->.
    wbind_in H x3 E3. apply from_run in E3 as (l & El & E3 & ->). cbn in El. injection El as <-.
    destruct (upsert_all _ _ _ _) as [m'|] eqn:Em; [|done]. apply upsert_all_ok in Em as [Hnd ->]. unfold rbind, references in E3.
    destruct (forallb _ rows); [|done]. injection E3 as <-. apply wwrap_run in H. apply from_run in H as (l & El & H & ->). cbn in El. injection El as <-.
    injection H as _ <-. eapply replaced_weaken; [|eapply (replaced_upsert (H0 := RelatedRemote) ids rows (fun k => k ∈ (fst <$> rows)) _ d); [done| |done|done]].
    + intros k x _ [->|[Hn Hk]]; [by apply Hfirst|done].
    + intros r Hr. apply (proj2 (related_ids (rm_server ∘ fst) remote_rows m remote_owner _ _ _ E)). rewrite <-Eu in Hr. by eapply unseen_in.
Qed.

Definition icon_rows (id : uuid) (s : ServerJSON) : result (list IconKey) := Ok (icon_row id <$> sj_Icons s).
Lemma icon_owner id s rs r : icon_rows id s = Ok rs -> r ∈ rs -> ic_server r = id.
Proof. intros [= <-] (x & -> & _)%list_elem_of_fmap. done. Qed.

Lemma fold_unit (rows : list IconKey) (mm : gmap IconKey ()) k :
  is_Some (foldl (fun m k => <[k := ()]> m) mm rows !! k) <-> k ∈ rows \/ is_Some (mm !! k).
Proof.
  revert mm. induction rows as [|r rows IH]; intros mm; cbn; [rewrite elem_of_nil; tauto|]. rewrite IH, elem_of_cons.
  destruct (decide (r = k)) as [->|Hne].
  - rewrite lookup_insert_eq. split; [intros _; left; by left|]. intros _. right. by eexists.
  - rewrite lookup_insert_ne by done. split; [intros [?|?]; auto|]. intros [[->|?]|?]; [done|by left|by right].
Qed.

Lemma bulkInsertIcons_run m servers t o n d u t' n' d' : bulkInsertIcons m servers t o n d = (Ok (u, t'), n', d') ->
  exists rows ids, related_rows icon_rows m servers = Ok (rows, ids) /\ replaced ids (fun k x => is_Some x <-> k ∈ rows) d d'.
Proof.
  intros H. unfold bulkInsertIcons in H. wq_in H c E. apply lift_run_ok in E as (E & -> & ->). destruct c as [rows ids]. exists rows, ids. split; [done|].
  destruct rows as [|r0 rows0]; cbn [List.length Nat.eqb] in H.
  - apply run_q_run in H as [_ H]. eapply replaced_weaken; [|by eapply (delete_each DeleteServerIconsByServerId)]. intros k x _ ->. rewrite elem_of_nil. by split; [intros []|].
  - set (rows := r0 :: rows0) in *. wbind_in H x1 E1. apply create_run in E1 as (_ & Et & ->). cbn in Et. subst t0.
    wbind_in H x2 E2. apply copy_run in E2 as (l & El & Ex & ->). cbn in El. injection El as <-. injection Ex as -> ->.
    wbind_in H x3 E3. apply from_run in E3 as (l & El & E3 & ->). cbn in El. injection El as <-. unfold rbind, references in E3.
    destruct (forallb _ rows); [|done]. injection E3 as <-. apply wwrap_run in H. apply from_run in H as (l & El & H & ->). cbn in El. injection El as <-.
    injection H as _ <-. pose proof (proj2 (related_ids ic_server icon_rows m icon_owner _ _ _ E)) as Ho. split; [done|]. cbn. split; intros k Hk.
    + rewrite filter_same by (intros x [Hx _]; by rewrite elem_of_elements in Hx). apply option_eq. intros [].
      pose proof (fold_unit rows (d_icon d) k) as Hf. split; intros Hx.
      * destruct (proj1 Hf (ex_intro _ () Hx)) as [Hr|[[] Hd]]; [|done]. exfalso. by apply Hk, Ho.
      * by destruct (proj2 Hf (or_intror (ex_intro _ () Hx))) as [[] Hy].
    + split.
      * intros [[] [Hx Hn]%map_lookup_filter_Some]. destruct (decide (k ∈ rows)) as [|Hout]; [done|]. exfalso. apply Hn. cbn. by rewrite elem_of_elements.
      * intros Hr. rewrite filter_same by (intros x [_ Hx]; by apply Hx). apply (proj2 (fold_unit rows (d_icon d) k)). by left.
Qed.
End Bulk.

(** ** Contents *)

Lemma sane_same d d' : core d' = core d -> (forall ty id, present ty d' id = present ty d id) -> sane d -> sane d'.
Proof.
  intros Hcore Hp [Hw Hc Hf]. assert (E1 : d_entry d' = d_entry d) by (unfold core in Hcore; congruence).
  assert (E2 : d_version d' = d_version d) by (unfold core in Hcore; congruence). split.
  - by eapply wf_core_proper.
  - intros s t name e v r Ee Er ty'. rewrite Hp. rewrite E1 in Ee. rewrite E2 in Er. by eapply Hc.
  - intros ty id. rewrite Hp, E2. apply Hf.
Qed.

(** Only contents of these versions change. *)
Record contents_only (ids : uuid -> Prop) (d d' : DB) : Prop := {
  co_core : core d' = core d;
  co_server : d_server d' = d_server d;
  co_present : forall ty id, present ty d' id = present ty d id;
  co_content : forall id, ~ ids id -> same_content id d d' }.

Lemma contents_only_trans ids d1 d2 d3 : contents_only ids d1 d2 -> contents_only ids d2 d3 -> contents_only ids d1 d3.
Proof.
  intros [A1 A2 A3 A4] [B1 B2 B3 B4]. split; [by rewrite B1|by rewrite B2|intros; by rewrite B3|]. intros id Hid. etrans; [by apply A4|by apply B4].
Qed.
Lemma replaced_only {K V} `{Related K V} ids G d d' : replaced ids G d d' -> contents_only (fun id => id ∈ ids) d d'.
Proof.
  intros (E & Hout & _). rewrite E. split; [apply rt_core|apply rt_server|apply rt_present|]. intros id Hid. apply rt_content.
  intros k <-. by apply Hout.
Qed.
Lemma contents_only_weaken (P P' : uuid -> Prop) d d' : (forall id, P id -> P' id) -> contents_only P d d' -> contents_only P' d d'.
Proof. intros Hw [A1 A2 A3 A4]. split; eauto. Qed.

Section Contents.
Context `{SC : ServerCodec}.

Record contents_of (d : DB) (id : uuid) (s : ServerJSON) : Prop := {
  c_packages : exists rows, package_rows id s = Ok rows /\ NoDup (fst <$> rows) /\ forall k, pk_server k = id -> package_good rows k (d_package d !! k);
  c_remotes : forall k, rm_server k = id -> d_remote d !! k = first_row k (remote_row id <$> sj_Remotes s);
  c_icons : forall k, ic_server k = id -> is_Some (d_icon d !! k) <-> k ∈ (icon_row id <$> sj_Icons s) }.

Lemma contents_of_same d d' id s : same_content id d d' -> contents_of d id s -> contents_of d' id s.
Proof.
  intros (_ & H1 & H2 & H3 & _) [(rows & Hr & Hnd & Hp) Hm Hi]. split.
  - exists rows. split_and!; try done. intros k Hk. rewrite H1 by done. by apply Hp.
  - intros k Hk. rewrite H2 by done. by apply Hm.
  - intros k Hk. rewrite H3 by done. by apply Hi.
Qed.

(** A server of an untouched key stays as it is stored. *)
Lemma server_untouched P mx f d d' sid s : untouched P d d' -> P (sid, EntryTypeMCP, sj_Name s) ->
  (exists e r, server_here mx f d sid s e r /\ contents_of d (ve_id r) s) ->
  exists e r, server_here mx f d' sid s e r /\ contents_of d' (ve_id r) s.
Proof.
  intros Hu Hk (e & r & (Hh & H1 & H2 & H3 & meta & H4 & H5) & Hc). exists e, r. pose proof Hh as [Ha Hb].
  pose proof (un_content _ _ _ Hu _ e (sj_Version s) r Hk Ha Hb) as Hsc.
  split; [|by eapply contents_of_same]. split; [by apply (holds_untouched _ _ _ _ _ _ _ _ _ Hu)|]. split_and!; try done.
  exists meta. split; [done|]. rewrite <-H5. apply Hsc.
Qed.

Lemma filter_nodup {A B} (g : A -> B) (P : A -> Prop) `{!forall x, Decision (P x)} (l : list A) : NoDup (g <$> l) -> NoDup (g <$> filter P l).
Proof.
  induction l as [|x l IH]; [done|]. rewrite fmap_cons. intros [Hni Hnd]%NoDup_cons. rewrite filter_cons.
  case_decide; [|by apply IH]. rewrite fmap_cons. constructor; [|by apply IH].
  intros (y & E & Hy)%list_elem_of_fmap. apply Hni. rewrite E. apply list_elem_of_filter in Hy as [_ Hy]. by apply list_elem_of_fmap_2.
Qed.

(** The rows of a package table that matter to a server are its own. *)
Lemma package_good_own rows id k x : pk_server k = id -> package_good rows k x ->
  package_good (filter (fun r => pk_server (fst r) = id) rows) k x.
Proof.
  intros Hk [->|[Hn Hin]].
  - left. rewrite (first_row_owner pk_server). by rewrite Hk.
  - right. split.
    + intros (r & -> & [_ Hr]%list_elem_of_filter)%list_elem_of_fmap. apply Hn. by apply list_elem_of_fmap_2.
    + apply list_elem_of_fmap in Hin as (r & E & Hr). apply list_elem_of_fmap. exists r. split; [done|]. apply list_elem_of_filter. split; [|done].
      destruct k as [[[a b] c] d0], r as [[[[a' b'] c'] d'] row]. cbn in *. congruence.
Qed.

Lemma insertRelatedData_run m servers t o n d u t' n' d' : insertRelatedData m servers t o n d = (Ok (u, t'), n', d') ->
  NoDup (key_of <$> servers) ->
  (forall s s' x, s ∈ servers -> s' ∈ servers -> m !! key_of s = Some x -> m !! key_of s' = Some x -> key_of s = key_of s') ->
  contents_only (fun id => exists s, s ∈ servers /\ m !! key_of s = Some id) d d' /\
  forall s id, s ∈ servers -> m !! key_of s = Some id -> contents_of d' id s.
Proof.
  intros H Hnd Hinj. unfold insertRelatedData in H.
  wbind_in H x1 E1. apply bulkInsertPackages_run in E1 as (prows & pids & Ep & Hpnd & Rp).
  wbind_in H x2 E2. apply bulkInsertRemotes_run in E2 as (rrows & rids & Er & Rr).
  apply wwrap_run, bulkInsertIcons_run in H as (irows & iids & Ei & Ri).
  destruct (related_ids (pk_server ∘ fst) package_rows m package_owner _ _ _ Ep) as [Ip _].
  destruct (related_ids (rm_server ∘ fst) remote_rows m remote_owner _ _ _ Er) as [Ir _].
  destruct (related_ids ic_server icon_rows m icon_owner _ _ _ Ei) as [Ii _]. split.
  - eapply contents_only_trans; [|eapply contents_only_trans].
    + exact (contents_only_weaken _ _ _ _ (fun id => proj1 (Ip id)) (replaced_only _ _ _ _ Rp)).
    + exact (contents_only_weaken _ _ _ _ (fun id => proj1 (Ir id)) (replaced_only _ _ _ _ Rr)).
    + exact (contents_only_weaken _ _ _ _ (fun id => proj1 (Ii id)) (replaced_only _ _ _ _ Ri)).
  - intros s id Hs Hid. destruct (related_own (pk_server ∘ fst) package_rows m package_owner _ _ _ s id Ep Hnd Hinj Hs Hid) as (ps & Hps & Fp).
    destruct (related_own (rm_server ∘ fst) remote_rows m remote_owner _ _ _ s id Er Hnd Hinj Hs Hid) as (rs & Hrs & Fr).
    destruct (related_own ic_server icon_rows m icon_owner _ _ _ s id Ei Hnd Hinj Hs Hid) as (ics & His & Fi).
    destruct Rp as (Dp & _ & Gp), Rr as (Dr & _ & Gr), Ri as (Di & _ & Gi). injection Hrs as <-. injection His as <-. split.
    + exists ps. split; [done|]. rewrite <-Fp. split; [by apply filter_nodup|]. intros k Hk. rewrite Di. cbn. rewrite Dr. cbn. apply package_good_own; [done|].
      apply Gp. cbn. rewrite Hk. apply Ip. eauto.
    + intros k Hk. rewrite Di. cbn. rewrite Gr by (cbn; rewrite Hk; apply Ir; eauto). rewrite (first_row_owner rm_server), <-Fr. by rewrite Hk.
    + intros k Hk. rewrite Gi by (cbn; rewrite Hk; apply Ii; eauto). rewrite <-Fi, list_elem_of_filter. by split; [intros|intros [_ ?]].
Qed.
End Contents.

(** No entry of the source is of a name that is neither upstream nor was there. *)
Definition names_from (d d' : DB) (sid : uuid) (ty : EntryType) (names : list string) : Prop :=
  forall name e, d_entry d' !! (sid, ty, name) = Some e -> name ∈ names \/ is_Some (d_entry d !! (sid, ty, name)).

(** ** The servers of a sync *)

Definition server_pairs (servers : list ServerJSON) : list (string * string) := (fun s => (sj_Name s, sj_Version s)) <$> servers.
Lemma server_pairs_columns servers : pair_of <$> (server_columns <$> servers) = server_pairs servers.
Proof. unfold server_pairs. rewrite <-list_fmap_compose. by apply list_fmap_ext. Qed.

Section ServerPhase.
Context `{SC : ServerCodec} `{L : SemverLib} `{!SemverLaws L}.

Record servers_stored (mx : Z) (f : string -> string) (sid : uuid) (servers : list ServerJSON) (d d' : DB) : Prop := {
  ss_sane : sane d';
  ss_untouched : untouched (outside sid EntryTypeMCP) d d';
  ss_exact : exactly d' sid EntryTypeMCP (server_pairs servers);
  ss_server : forall s, s ∈ servers -> exists e r, server_here mx f d' sid s e r /\ contents_of d' (ve_id r) s;
  ss_ids : keeps_ids d d' sid EntryTypeMCP (server_pairs servers);
  ss_latest : forall s, s ∈ servers -> (forall s', s' ∈ servers -> sj_Name s' = sj_Name s -> is_semver (sj_Version s') = true) ->
    points_to_newest d' sid EntryTypeMCP (server_pairs servers) (sj_Name s);
  ss_names : names_from d d' sid EntryTypeMCP (sj_Name <$> servers) }.

Lemma contents_only_holds P d d' sid ty name v e r : contents_only P d d' -> holds d' sid ty name v e r <-> holds d sid ty name v e r.
Proof. intros [Hc _ _ _]. unfold core in Hc. unfold holds. assert (d_entry d' = d_entry d /\ d_version d' = d_version d) as [-> ->] by (split; congruence). done. Qed.

(** What related data and pointers leave of a stored server. *)
Lemma server_here_same mx f d d' sid s e r : d_entry d' = d_entry d -> d_version d' = d_version d ->
  d_server d' !! ve_id r = d_server d !! ve_id r -> server_here mx f d sid s e r -> server_here mx f d' sid s e r.
Proof. unfold server_here, holds. by intros -> -> ->. Qed.

Lemma contents_only_untouched (P : _ -> Prop) ids d d' : contents_only ids d d' ->
  (forall k e v r, P k -> d_entry d !! k = Some e -> d_version d !! (en_id e, v) = Some r -> ~ ids (ve_id r)) -> untouched P d d'.
Proof.
  intros [Hc _ _ Hs] Hp. unfold core in Hc. split.
  - intros k _. congruence.
  - intros k e v _ _. congruence.
  - intros k e v r Hk Ee Er. apply Hs. by eapply Hp.
  - intros s name _. congruence.
Qed.


(** Before the related data. *)
Record servers_kept (mx : Z) (f : string -> string) (sid : uuid) (servers : list ServerJSON) (m : gmap string uuid) (d d' : DB) : Prop := {
  sp_sane : sane d';
  sp_untouched : untouched (outside sid EntryTypeMCP) d d';
  sp_exact : exactly d' sid EntryTypeMCP (server_pairs servers);
  sp_nodup : NoDup (key_of <$> servers);
  sp_server : forall s, s ∈ servers -> exists e r, server_here mx f d' sid s e r /\ m !! key_of s = Some (ve_id r);
  sp_ids : keeps_ids d d' sid EntryTypeMCP (server_pairs servers);
  sp_names : names_from d d' sid EntryTypeMCP (sj_Name <$> servers) }.

Lemma servers_kept_run mx now sid servers claims pc t o n d m t1 n1 d1 t1' n1' u t2 n2 d2 :
  sane d -> plain_names d sid -> (forall s, s ∈ servers -> no_at (sj_Name s)) ->
  storeSyncInTempTables mx now sid servers claims pc t o n d = (Ok (m, t1), n1, d1) ->
  deleteOrphanedEntries sid EntryTypeMCP (collectValues m) t1' o n1' d1 = (Ok (u, t2), n2, d2) ->
  servers_kept mx (fun name => default claims (pc !! name)) sid servers m d d2.
Proof.
  intros Hsane Hplain Hat E1 [_ E2]%deleteOrphaned_run. assert (servers = [] \/ servers <> []) as [->|Hne] by (destruct servers; [by left|by right]).
  - unfold storeSyncInTempTables in E1. cbn [List.length Nat.eqb] in E1. apply wret_run in E1 as (-> & -> & ->). change (collectValues ∅) with (snd <$> map_to_list (∅ : gmap string uuid)) in E2.
    rewrite map_to_list_empty in E2. cbn in E2. subst d2. split.
    + by apply sane_delete_typed.
    + apply delete_typed_untouched; apply Hsane.
    + by apply delete_typed_exactly.
    + constructor.
    + intros s Hin. by apply elem_of_nil in Hin.
    + intros name v e r Hin. by apply elem_of_nil in Hin.
    + intros name e He. right. unfold delete_typed, delete_entries in He. cbn in He. by apply map_lookup_filter_Some in He as [? _].
  - destruct (storeSync_run _ _ _ _ _ _ _ _ _ _ _ _ _ _ Hne E1) as (da & db & em & copied & rows & He & Hv & Hrows & Hnd & Hd1 & ->).
    pose proof (stage_sane _ _ _ _ _ _ _ _ _ _ _ _ Hsane He Hv Hrows Hnd Hd1 Hat) as Hs1.
    pose proof (stage_keep _ _ _ _ _ _ _ _ _ _ _ _ Hsane He Hv Hrows Hnd Hd1 Hat Hplain) as Hkeep.
    pose proof (stage_server _ _ _ _ _ _ _ _ _ _ _ _ Hsane He Hv Hrows Hnd Hd1 Hat) as Hserver.
    pose proof (stage_map_in _ _ _ _ _ _ _ _ _ _ _ _ Hsane He Hv Hrows Hnd Hd1 Hat Hplain) as Hmap.
    assert (Hall : forall name v title de, (name, v, title, de) ∈ server_columns <$> servers -> exists e r, holds d1 sid EntryTypeMCP name v e r).
    { intros name v title de (s & Hs & <- & <- & _)%server_columns_in. destruct (Hserver s Hs) as (e & r & [Hh _] & _). eauto. }
    set (keep := collectValues _) in *.
    assert (E2' : d2 = orphans sid EntryTypeMCP keep d1).
    { destruct keep as [|k0 keep0] eqn:Ek; [|done]. exfalso. destruct servers as [|s ss]; [done|].
      destruct (Hserver s) as (e & r & [Hh _] & _); [by left|]. assert (Hin : ve_id r ∈ []); [|by apply elem_of_nil in Hin].
      apply Hkeep. exists (sj_Name s), (sj_Version s), (sj_Title s), (sj_Description s), e, r. split_and!; try done. by left. }
    clear E2. subst d2. split.
    + by apply sane_cascade.
    + eapply untouched_trans; [by eapply stage_untouched|]. by eapply orphans_untouched.
    + rewrite <-server_pairs_columns. by eapply orphans_exactly.
    + by eapply stage_nodup.
    + intros s Hs. destruct (Hserver s Hs) as (e & r & Hh & _). exists e, r. pose proof Hh as [Hh0 _].
      assert (Hp : (sj_Name s, sj_Version s) ∈ pair_of <$> (server_columns <$> servers)).
      { rewrite server_pairs_columns. by apply (list_elem_of_fmap_2 (fun s => (sj_Name s, sj_Version s))). }
      split; [|by apply (Hmap s e r)]. destruct Hh as (_ & H1 & H2 & H3 & meta & H4 & H5). split_and!; try done.
      * by apply (orphans_holds sid EntryTypeMCP (server_columns <$> servers) keep d1 Hs1 Hkeep).
      * exists meta. split; [done|]. rewrite <-H5. by apply (orphans_content sid EntryTypeMCP (server_columns <$> servers) keep d1 Hs1 Hkeep _ _ _ _ Hh0 Hp).
    + intros name v e r Hp Hh. destruct (stage_keeps_ids _ _ _ _ _ _ _ _ _ _ _ He Hv Hd1 (server_pairs servers) name v e r Hp Hh) as (e' & r' & Hh' & Hid).
      exists e', r'. split; [|done]. apply (orphans_holds sid EntryTypeMCP (server_columns <$> servers) keep d1 Hs1 Hkeep). by rewrite server_pairs_columns.
    + intros name e Hn. change (d_entry d1 !! (sid, EntryTypeMCP, name) = Some e) in Hn. rewrite Hd1, (vd_frame _ _ _ _ _ _ Hv) in Hn. cbn in Hn.
      destruct (decide (name ∈ sj_Name <$> servers)) as [|Hni]; [by left|right]. rewrite (ed_out _ _ _ _ _ _ _ He) in Hn; [done|].
      intros name' Hin [= ->]. done.
Qed.

Lemma server_here_inj mx f d sid s s' e e' r r' : sane d -> server_here mx f d sid s e r -> server_here mx f d sid s' e' r' ->
  ve_id r = ve_id r' -> key_of s = key_of s'.
Proof.
  intros Hs [[H1 H2] _] [[H3 H4] _] E. pose proof (same_version _ _ _ _ _ _ _ _ _ _ _ _ _ (sane_core _ Hs) H1 H2 H3 H4 E) as [= E1 E2].
  unfold key_of. by rewrite E1, E2.
Qed.

Lemma servers_stored_run mx f sid servers m t o n d0 d u t1 n1 d1 u' n2 d2 :
  servers_kept mx f sid servers m d0 d ->
  insertRelatedData m servers t o n d = (Ok (u, t1), n1, d1) ->
  updateLatestVersions sid m servers o n1 d1 = (Ok u', n2, d2) ->
  servers_stored mx f sid servers d0 d2.
Proof.
  intros [Hsane Hunt Hex Hnd Hsrv Hids Hnames] E1 E2.
  apply insertRelatedData_run in E1 as [Hco Hct]; [|done|].
  2:{ intros s s' x Hs Hs' Hm Hm'. destruct (Hsrv s Hs) as (e & r & Hh & Hx), (Hsrv s' Hs') as (e' & r' & Hh' & Hx'). eapply server_here_inj; eauto. congruence. }
  pose proof (sane_same _ _ (co_core _ _ _ Hco) (co_present _ _ _ Hco) Hsane) as Hs1.
  assert (Ee : d_entry d1 = d_entry d /\ d_version d1 = d_version d).
  { pose proof (co_core _ _ _ Hco) as Hc. unfold core in Hc. split; congruence. }
  assert (Hh1 : forall s, s ∈ servers -> exists e r, server_here mx f d1 sid s e r /\ contents_of d1 (ve_id r) s /\ m !! key_of s = Some (ve_id r)).
  { intros s Hs. destruct (Hsrv s Hs) as (e & r & Hh & Hm). exists e, r. split_and!; [|by apply Hct|done].
    eapply server_here_same; [apply Ee|apply Ee|by rewrite (co_server _ _ _ Hco)|done]. }
  unfold updateLatestVersions in E2. set (l := _ <$> servers) in E2.
  assert (Hl : forall name v id, (name, v, id) ∈ l -> exists s e r, s ∈ servers /\ sj_Name s = name /\ sj_Version s = v /\ server_here mx f d1 sid s e r /\ ve_id r = id).
  { intros name v id (s & E & Hs)%list_elem_of_fmap. injection E as -> -> ->. destruct (Hh1 s Hs) as (e & r & Hh & _ & ->). by exists s, e, r. }
  pose proof (upsert_latest_run _ _ _ _ _ _ _ _ E2) as (Ed & Hset & _).
  destruct (upsert_latest_sane sid EntryTypeMCP _ _ _ _ _ _ _ E2) as [Hs2 Hu2]; [|done|].
  { intros name v id (s & e & r & Hs & <- & <- & [Hh _] & <-)%latest_versions_in%Hl. eauto. }
  assert (E2e : d_entry d2 = d_entry d1 /\ d_version d2 = d_version d1 /\ d_server d2 = d_server d1) by (by rewrite Ed).
  assert (Hun : untouched (outside sid EntryTypeMCP) d d2).
  { eapply untouched_trans; [|exact Hu2]. eapply contents_only_untouched; [exact Hco|]. intros [[s t0] name] e v r Hk Hee Her (sv & Hs & Hm).
    destruct (Hsrv sv Hs) as (e' & r' & [[He' Hr'] _] & Hx). rewrite Hm in Hx. injection Hx as Hx.
    pose proof (same_version _ _ _ _ _ _ _ _ _ _ _ _ _ (sane_core _ Hsane) Hee Her He' Hr' Hx) as [= -> -> _ _]. by apply Hk. }
  split.
  - done.
  - by eapply untouched_trans.
  - intros name v. rewrite <-(Hex name v). unfold holds. destruct E2e as (-> & -> & _), Ee as [-> ->]. done.
  - intros s Hs. destruct (Hh1 s Hs) as (e & r & Hh & Hc & _). exists e, r. split.
    + eapply server_here_same; [apply E2e|apply E2e| |done]. destruct E2e as (_ & _ & ->). done.
    + eapply contents_of_same; [|exact Hc]. rewrite Ed. by split_and!.
  - intros name v e r Hp Hh. destruct (Hids _ _ _ _ Hp Hh) as (e' & r' & Hh' & Hid). exists e', r'. split; [|done].
    unfold holds. destruct E2e as (-> & -> & _), Ee as [-> ->]. done.
  - intros s Hs Hsem. eapply (newest_pointer sid EntryTypeMCP l); [exact E2| | | |].
    + intros v id (s' & e & r & Hs' & En & <- & _)%Hl. by apply Hsem.
    + intros name v id (s' & e & r & _ & <- & <- & [Hh _] & <-)%Hl. eauto.
    + intros name v (s' & [= -> ->] & Hs')%list_elem_of_fmap. destruct (Hh1 s' Hs') as (e & r & _ & _ & Hm). exists (ve_id r).
      apply list_elem_of_fmap. exists s'. by rewrite Hm.
    + by apply (list_elem_of_fmap_2 (fun s => (sj_Name s, sj_Version s))).
  - intros name e. unfold names_from in Hnames. destruct E2e as (-> & _), Ee as [-> _]. apply Hnames.
Qed.
End ServerPhase.
