(* ===== verification/WriterKinds.v ===== *)
(** * Correctness of the sync writer: skills, plugins, and the whole store

    The stage of one kind, over the interface of the two kinds, and [Store] as
    the composition of the three stages. *)

From stdpp Require Import base list strings gmap sets sorting.
From Stdlib Require Import String Ascii ZArith Lia.
From S2P Require Import Prelude GoStrings Versions Claims Upstream Database Entries Artifacts Sync Writer WriterCorrect.

Local Open Scope string_scope.
Local Open Scope list_scope.

(** ** The laws of an upstream kind *)

Class UpstreamKindLaws {U X R} {K : ArtifactKind X R} (UK : UpstreamKind U X R) : Prop := {
  u_delete_typed : forall sid, u_delete sid = query (fun d => Ok ((), delete_typed k_entry sid d));
  u_art : forall u a, k_art (u_row u a) = a;
  u_with : forall u a b, k_with (u_row u a) b = u_row u b;
  k_present : forall d id, present k_entry d id = bool_decide (is_Some (k_table d !! id));
  k_present_other : forall d m ty id, ty <> k_entry -> present ty (k_set d m) id = present ty d id;
  k_same_content : forall d m id, m !! id = k_table d !! id -> same_content id d (k_set d m);
  k_content_table : forall d d' id, same_content id d d' -> k_table d' !! id = k_table d !! id }.

#[export] Instance UpstreamSkillLaws : UpstreamKindLaws UpstreamSkill.
Proof.
  split; try done.
  - by intros d m [] id.
  - by intros d d' id (_ & _ & _ & _ & E & _).
Qed.
#[export] Instance UpstreamPluginLaws : UpstreamKindLaws UpstreamPlugin.
Proof.
  split; try done.
  - by intros d m [] id.
  - by intros d d' id (_ & _ & _ & _ & _ & E).
Qed.

(** ** Versions and packages of a kind *)

Section KindRows.
Context {U X R : Type} {K : ArtifactKind X R} {UK : UpstreamKind U X R} `{!ArtifactKindLaws K} `{!UpstreamKindLaws UK}.
Context `{AC : ArtifactCodec}.

(** The row of a value: its namespace and, where none is given, its status are
    those of the row before. *)
Definition kind_row (u : U) (old : option R) (row : R) : Prop :=
  let i := u_item u in
  exists st repository icons metadata extensionMeta,
    (if String.eqb (it_Status i) "" then st = match old with Some r => ar_status (k_art r) | None => StatusACTIVE end
     else status_enum (ToUpper (it_Status i)) = Some st) /\
    marshalRepositoryOrNil (it_Repository i) = Ok repository /\ marshal_icons (it_Icons i) = Some icons /\
    marshal_map (it_Metadata i) = Some metadata /\ marshal_map (it_Meta i) = Some extensionMeta /\
    row = u_row u {| ar_namespace := match old with Some r => ar_namespace (k_art r) | None => it_Namespace i end;
      ar_status := st; ar_license := it_License i; ar_repository := repository; ar_icons := icons; ar_metadata := metadata;
      ar_extension_meta := extensionMeta; ar_oci := oci_rows (it_Packages i); ar_git := git_rows (it_Packages i) |}.

Lemma update_art_run vid g o n d row n' d' : k_table d !! vid = Some row -> update_art vid g o n d = (Ok (), n', d') ->
  d' = k_set d (<[vid := k_with row (g (k_art row))]> (k_table d)).
Proof.
  intros Hr H%query_run_ok. injection H as <-. f_equal. apply map_eq. intros id. destruct (decide (id = vid)) as [->|Hne].
  - by rewrite lookup_alter_eq, Hr, lookup_insert_eq.
  - by rewrite lookup_alter_ne, lookup_insert_ne.
Qed.

Lemma upsert_one_run u vid o n d id n1 d1 n2 d2 :
  upsertSingleVersion u vid o n d = (Ok id, n1, d1) -> replacePackages u id o n1 d1 = (Ok (), n2, d2) ->
  id = vid /\ exists row, kind_row u (k_table d !! vid) row /\ d2 = k_set d (<[vid := row]> (k_table d)).
Proof.
  intros H1 H2. unfold upsertSingleVersion in H1. lift_in H1 repo Erepo. lift_in H1 icons Eic. lift_in H1 md Emd. lift_in H1 em Eem.
  apply wrapping_run_ok, query_run_ok in H1. unfold or_err in *. destruct (marshal_icons _) eqn:E1; [|done]. destruct (marshal_map (it_Metadata _)) eqn:E2; [|done].
  destruct (marshal_map (it_Meta _)) eqn:E3; [|done]. simplify_eq.
  destruct (match (if String.eqb (it_Status (u_item u)) "" then None else Some (ToUpper (it_Status (u_item u)))) with
            | Some s => Some <$> status_enum s | None => Some None end) as [st|] eqn:Est; [|done].
  destruct (negb (version_exists vid d)); [done|]. injection H1 as <- <-. split; [done|].
  set (a := {| ar_namespace := _ |}) in H2. set (da := k_set d _) in H2.
  assert (Ha : k_table da !! vid = Some (u_row u a)) by (unfold da; rewrite k_table_set; apply lookup_insert_eq).
  unfold replacePackages in H2. bind_in H2 y1 E4. apply (update_art_run _ _ _ _ _ _ _ _ Ha) in E4.
  rewrite u_art, u_with in E4.
  assert (Hb : k_table d0 !! vid = Some (u_row u (clear_oci a))) by (rewrite E4, k_table_set; apply lookup_insert_eq).
  bind_in H2 y2 E5. apply (update_art_run _ _ _ _ _ _ _ _ Hb) in E5. rewrite u_art, u_with in E5.
  assert (Hc : k_table d1 !! vid = Some (u_row u (clear_git (clear_oci a)))) by (rewrite E5, k_table_set; apply lookup_insert_eq).
  apply (packages_run _ _ _ _ _ _ _ _ Hc) in H2. rewrite u_art, u_with in H2.
  eexists. split; [|rewrite H2, E5, E4; unfold da; by rewrite !k_table_set, !k_set_set, !insert_insert_eq].
  exists (ar_status a), repo, icons, md, em. split_and!; try done.
  - destruct (String.eqb (it_Status (u_item u)) ""); cbn in Est.
    + injection Est as <-. cbn. by destruct (k_table d !! vid).
    + destruct (status_enum _); [|done]. cbn in Est. by injection Est as <-.
  - unfold with_packages, a. cbn. by destruct (k_table d !! vid).
Qed.

Lemma upsertVersions_ids vm us o : forall n d keep n' d', upsertVersionsAndPackages (U := U) vm us o n d = (Ok keep, n', d') ->
  Forall2 (fun u id => vm !! item_key (u_item u) = Some id) us keep.
Proof.
  induction us as [|u us IH]; intros n d keep n' d' H; cbn [upsertVersionsAndPackages] in H; [by apply ret_run_ok in H as (-> & _ & _)|].
  destruct (vm !! item_key (u_item u)) as [vid|] eqn:Ev; [|by apply fail_run_ok in H]. bind_in H x E1. bind_in H y E2. bind_in H ks E3.
  apply ret_run_ok in H as (-> & _ & _). destruct (upsert_one_run _ _ _ _ _ _ _ _ _ _ E1 E2) as (-> & _). constructor; [done|by eapply IH].
Qed.
Lemma upsertVersions_run vm us o : forall n d keep n' d', upsertVersionsAndPackages (U := U) vm us o n d = (Ok keep, n', d') -> NoDup keep ->
  exists m, d' = k_set d m /\ (forall id, id ∉ keep -> m !! id = k_table d !! id) /\
  (forall u id, u ∈ us -> vm !! item_key (u_item u) = Some id -> exists row, kind_row u (k_table d !! id) row /\ m !! id = Some row).
Proof.
  induction us as [|u us IH]; intros n d keep n' d' H Hnd; cbn [upsertVersionsAndPackages] in H.
  - apply ret_run_ok in H as (-> & _ & ->). exists (k_table d). rewrite k_set_table. split_and!; try done.
    intros u id Hu. by apply elem_of_nil in Hu.
  - destruct (vm !! item_key (u_item u)) as [vid|] eqn:Ev; [|by apply fail_run_ok in H]. bind_in H x E1. bind_in H y E2. bind_in H ks E3.
    apply ret_run_ok in H as (-> & _ & ->). destruct (upsert_one_run _ _ _ _ _ _ _ _ _ _ E1 E2) as (-> & row & Hrow & ->).
    apply NoDup_cons in Hnd as [Hni Hnd]. pose proof (upsertVersions_ids _ _ _ _ _ _ _ _ E3) as Hf. destruct (IH _ _ _ _ _ E3 Hnd) as (m & -> & Hout & Hin).
    exists m. rewrite k_set_set. split; [done|]. rewrite k_table_set in *. split.
    + intros id [Hne Hid]%not_elem_of_cons. rewrite Hout by done. by rewrite lookup_insert_ne.
    + intros u' id Hu Hid.
      assert (Hcase : (u' = u /\ id = vid) \/ (u' ∈ us /\ id <> vid)).
      { apply elem_of_cons in Hu as [->|Hu]; [left; split; [done|congruence]|]. destruct (decide (id = vid)) as [->|Hne]; [|by right].
        exfalso. apply Hni. apply list_elem_of_lookup in Hu as [i Hi]. destruct (Forall2_lookup_l _ _ _ _ _ Hf Hi) as (x & Hx & Ex).
        rewrite Hid in Ex. injection Ex as <-. by eapply list_elem_of_lookup_2. }
      destruct Hcase as [[-> ->]|[Hu' Hne]].
      * exists row. split; [done|]. rewrite Hout by done. apply lookup_insert_eq.
      * destruct (Hin u' id Hu' Hid) as (row' & Hr' & Hm). rewrite lookup_insert_ne in Hr' by done. eauto.
Qed.

Lemma namespaces_in us u : NoDup ((fun u : U => (it_Name (u_item u), it_Version (u_item u))) <$> us) -> u ∈ us ->
  kind_key us (it_Name (u_item u)) (it_Version (u_item u)) = item_key (u_item u).
Proof.
  intros Hnd Hu. unfold kind_key, namespaces, item_key.
  rewrite (fold_insert_in (fun u : U => (it_Name (u_item u), it_Version (u_item u))) (fun u => it_Namespace (u_item u)) us ∅ u); [done| |done].
  intros u' [i Hi]%list_elem_of_lookup E. apply list_elem_of_lookup in Hu as [j Hj]. assert (i = j) as ->; [|congruence].
  eapply (NoDup_lookup _ _ _ (it_Name (u_item u), it_Version (u_item u)) Hnd); rewrite list_lookup_fmap; [rewrite Hi; cbn; by rewrite E|by rewrite Hj].
Qed.
End KindRows.

(** ** The stage of a kind *)

Section KindStage.
Context {U X R : Type} {K : ArtifactKind X R} {UK : UpstreamKind U X R} `{!ArtifactKindLaws K} `{!UpstreamKindLaws UK}.
Context `{AC : ArtifactCodec} `{L : SemverLib} `{!SemverLaws L}.

Definition kind_pairs (us : list U) : list (string * string) := (fun u => (it_Name (u_item u), it_Version (u_item u))) <$> us.
(** The keys of the map from names and versions to ids tell them apart. *)
Definition distinct_keys (us : list U) : Prop := forall u u', u ∈ us -> u' ∈ us -> item_key (u_item u) = item_key (u_item u') ->
  it_Name (u_item u) = it_Name (u_item u') /\ it_Version (u_item u) = it_Version (u_item u').

(** A value as it is stored, over what was there before. *)
Definition value_here (claims : string) (d0 d : DB) (sid : uuid) (u : U) (e : EntryRow) (r : VersionRow) : Prop :=
  holds d sid k_entry (it_Name (u_item u)) (it_Version (u_item u)) e r /\ en_claims e = claims /\
  ve_title r = it_Title (u_item u) /\ ve_description r = it_Description (u_item u) /\
  exists row, k_table d !! ve_id r = Some row /\ kind_row u (k_table d0 !! ve_id r) row.

Record kind_stored (claims : string) (sid : uuid) (us : list U) (d d' : DB) : Prop := {
  kd_sane : sane d';
  kd_untouched : untouched (outside sid k_entry) d d';
  kd_exact : exactly d' sid k_entry (kind_pairs us);
  kd_value : forall u, u ∈ us -> exists e r, value_here claims d d' sid u e r;
  kd_ids : keeps_ids d d' sid k_entry (kind_pairs us);
  kd_latest : forall u, u ∈ us ->
    (forall u', u' ∈ us -> it_Name (u_item u') = it_Name (u_item u) -> is_semver (it_Version (u_item u')) = true) -> points_to_newest d' sid k_entry (kind_pairs us) (it_Name (u_item u));
  kd_pointer : forall t name v e r, t <> k_entry -> name ∉ (kind_pairs us).*1 -> holds d sid t name v e r ->
    d_latest d !! (sid, name) = Some (v, ve_id r) -> d_latest d' !! (sid, name) = Some (v, ve_id r) }.

Lemma kind_columns_pairs (us : list U) : pair_of <$> ((fun u => item_columns (u_item u)) <$> us) = kind_pairs us.
Proof. unfold kind_pairs. rewrite <-list_fmap_compose. by apply list_fmap_ext. Qed.

(** A pointer at a version that stays, stays. *)
Lemma cascade_pointer dead d s name v vid : d_latest d !! (s, name) = Some (v, vid) -> dead vid = false ->
  d_latest (cascade_versions dead d) !! (s, name) = Some (v, vid).
Proof. intros Hl Hd. cbn. by apply map_lookup_filter_Some. Qed.

Lemma no_values claims sid d : sane d -> kind_stored claims sid [] d (delete_typed k_entry sid d).
Proof.
  intros Hs. split.
  - by apply sane_delete_typed.
  - apply delete_typed_untouched; apply Hs.
  - by apply delete_typed_exactly.
  - intros u Hin. by apply elem_of_nil in Hin.
  - intros name v e r Hin. by apply elem_of_nil in Hin.
  - intros u Hin. by apply elem_of_nil in Hin.
  - intros t name v e r Hne _ [He Hr] Hl. apply cascade_pointer; [done|]. rewrite (dead_version _ _ _ _ _ (sane_core _ Hs) Hr).
    apply bool_decide_eq_false. intros (ty' & nm & e' & v' & r' & He' & Hid & Hr' & Hp)%entries_with_spec. rewrite <-Hid in Hr'.
    rewrite (sane_typed _ Hs _ _ _ _ _ _ He' Hr') in Hp. apply bool_decide_eq_true in Hp. subst ty'.
    by pose proof (wf_entry_inj _ (sane_core _ Hs) _ _ _ _ He He' (eq_sym Hid)) as [= -> ->].
Qed.

Section Stage.
Context (sid : uuid) (us : list U) (claims : string) (now : Z).
Let names := (fun u : U => it_Name (u_item u)) <$> us.
Let items := (fun u : U => item_columns (u_item u)) <$> us.

Context (d d1 d2 : DB) (em : gmap string uuid) (copied : list (uuid * uuid * string)).
Hypothesis Hsane : sane d.
Hypothesis Hkeys : distinct_keys us.
Hypothesis He : entries_done sid k_entry (fun _ => claims) names d d1 em.
Hypothesis Hv : versions_done sid k_entry items d1 d2 copied.
Let vm := version_map (kind_key us) em copied.

Lemma kitems_in name v title de : (name, v, title, de) ∈ items <->
  exists u, u ∈ us /\ it_Name (u_item u) = name /\ it_Version (u_item u) = v /\ it_Title (u_item u) = title /\ it_Description (u_item u) = de.
Proof.
  unfold items. rewrite list_elem_of_fmap. split.
  - intros (u & E & Hu). injection E as -> -> -> ->. by exists u.
  - intros (u & Hu & <- & <- & <- & <-). by exists u.
Qed.
Lemma kstage_nodup : NoDup (kind_pairs us).
Proof. rewrite <-kind_columns_pairs. apply (vd_nodup _ _ _ _ _ _ Hv). Qed.

Lemma kstage_version u : u ∈ us -> exists e r, holds d2 sid k_entry (it_Name (u_item u)) (it_Version (u_item u)) e r /\
  en_claims e = claims /\ ve_title r = it_Title (u_item u) /\ ve_description r = it_Description (u_item u) /\
  vm !! item_key (u_item u) = Some (ve_id r).
Proof.
  intros Hu. assert (Hi : (it_Name (u_item u), it_Version (u_item u), it_Title (u_item u), it_Description (u_item u)) ∈ items).
  { apply kitems_in. by exists u. }
  destruct (vd_in _ _ _ _ _ _ Hv _ _ _ _ Hi) as (e & r & Ee & Er & _ & Ht & Hde & _). exists e, r.
  destruct (ed_in _ _ _ _ _ _ _ He (it_Name (u_item u))) as (e' & Ee' & Hcl & Hem); [by apply (list_elem_of_fmap_2 (fun u => it_Name (u_item u)))|].
  rewrite Ee in Ee'. injection Ee' as <-. split; [|split_and!; try done].
  - split; [|done]. by rewrite (vd_frame _ _ _ _ _ _ Hv).
  - rewrite <-(namespaces_in us u kstage_nodup Hu).
    eapply (version_map_in (kind_key us) _ _ _ _ _ _ _ _ _ _ _ _ _ Hv (fill_wf1 _ _ _ _ _ _ _ Hsane He) (entries_map_ok _ _ _ _ _ _ _ He)).
    + intros n1 v1 t1 x1 (u1 & Hu1 & <- & _)%kitems_in. destruct (ed_in _ _ _ _ _ _ _ He (it_Name (u_item u1))) as (e1 & _ & _ & H1); [|eauto].
      by apply (list_elem_of_fmap_2 (fun u => it_Name (u_item u))).
    + intros n1 v1 t1 x1 (u1 & Hu1 & <- & <- & _)%kitems_in. rewrite !namespaces_in by (done || apply kstage_nodup). by apply Hkeys.
    + exact Hi.
    + exact Ee.
    + exact Er.
Qed.

Lemma kstage_keep keep : Forall2 (fun u id => vm !! item_key (u_item u) = Some id) us keep ->
  forall id, id ∈ keep <-> item_id d2 sid k_entry items id.
Proof.
  intros Hf id. split.
  - intros [i Hi]%list_elem_of_lookup. destruct (Forall2_lookup_r _ _ _ _ _ Hf Hi) as (u & Hu%list_elem_of_lookup_2 & Ev).
    destruct (kstage_version u Hu) as (e & r & Hh & _ & _ & _ & Hx). rewrite Hx in Ev. injection Ev as <-.
    exists (it_Name (u_item u)), (it_Version (u_item u)), (it_Title (u_item u)), (it_Description (u_item u)), e, r. split; [|done]. apply kitems_in. by exists u.
  - intros (name & v & title & de & e & r & (u & Hu & <- & <- & _)%kitems_in & [Ee Er] & <-).
    destruct (kstage_version u Hu) as (e' & r' & [Ee' Er'] & _ & _ & _ & Hx). rewrite Ee in Ee'. injection Ee' as <-. rewrite Er in Er'. injection Er' as <-.
    apply list_elem_of_lookup in Hu as [i Hi]. destruct (Forall2_lookup_l _ _ _ _ _ Hf Hi) as (id & Hid & E). rewrite Hx in E. injection E as <-.
    by eapply list_elem_of_lookup_2.
Qed.
Lemma kstage_keep_nodup keep : Forall2 (fun u id => vm !! item_key (u_item u) = Some id) us keep -> NoDup keep.
Proof.
  intros Hf. apply NoDup_alt. intros i j id Hi Hj. destruct (Forall2_lookup_r _ _ _ _ _ Hf Hi) as (u & Hu & Eu).
  destruct (Forall2_lookup_r _ _ _ _ _ Hf Hj) as (u' & Hu' & Eu').
  destruct (kstage_version u) as (e & r & [H1 H2] & _ & _ & _ & Hx); [by eapply list_elem_of_lookup_2|].
  destruct (kstage_version u') as (e' & r' & [H3 H4] & _ & _ & _ & Hx'); [by eapply list_elem_of_lookup_2|].
  assert (E : ve_id r = ve_id r') by congruence.
  pose proof (same_version _ _ _ _ _ _ _ _ _ _ _ _ _ (fill_wf _ _ _ _ _ _ _ _ _ _ Hsane He Hv) H1 H2 H3 H4 E) as [= En Ev].
  eapply (NoDup_lookup (kind_pairs us) _ _ (it_Name (u_item u), it_Version (u_item u)) kstage_nodup); unfold kind_pairs; rewrite list_lookup_fmap.
  - by rewrite Hu.
  - rewrite Hu'. cbn. by rewrite En, Ev.
Qed.

Context (m : gmap uuid R) (keep : list uuid).
Hypothesis Hkeep : Forall2 (fun u id => vm !! item_key (u_item u) = Some id) us keep.
Hypothesis Hout : forall id, id ∉ keep -> m !! id = k_table d2 !! id.
Hypothesis Hin : forall u id, u ∈ us -> vm !! item_key (u_item u) = Some id -> exists row, kind_row u (k_table d2 !! id) row /\ m !! id = Some row.
Let d3 := k_set d2 m.

Lemma kstage_core : d_entry d3 = d_entry d2 /\ d_version d3 = d_version d2 /\ d_latest d3 = d_latest d2.
Proof. pose proof (k_set_core d2 m) as E. unfold core in E. unfold d3. split_and!; congruence. Qed.
Lemma kstage_table id : k_table d2 !! id = k_table d !! id.
Proof. rewrite (vd_frame _ _ _ _ _ _ Hv), (ed_frame _ _ _ _ _ _ _ He). by rewrite k_table_version, k_table_next, k_table_entry, k_table_next. Qed.

Lemma kstage_sane : sane d3.
Proof.
  eapply (fill_sane sid k_entry (fun _ => claims) names items d d1 d2 em copied Hsane He Hv); [apply k_set_core|]. intros ty' id.
  destruct (decide (ty' = k_entry)) as [->|Hne]; [|unfold d3; rewrite k_present_other by done; split; [by left|by intros [?|[? _]]]].
  rewrite !k_present, !bool_decide_eq_true. unfold d3. rewrite k_table_set, <-(kstage_keep keep Hkeep). split.
  - intros [row Hr]. destruct (decide (id ∈ keep)) as [|Hn]; [by right|]. left. rewrite <-Hout by done. eauto.
  - assert (Hk : id ∈ keep -> is_Some (m !! id)).
    { intros [i Hi]%list_elem_of_lookup. destruct (Forall2_lookup_r _ _ _ _ _ Hkeep Hi) as (u & Hu%list_elem_of_lookup_2 & Ev).
      destruct (Hin u id Hu Ev) as (row & _ & Hm). eauto. }
    intros [Hs|[_ Hid]]; [|by apply Hk]. destruct (decide (id ∈ keep)) as [Hid|Hn]; [by apply Hk|]. by rewrite Hout.
Qed.
Lemma kstage_untouched : untouched (outside sid k_entry) d d3.
Proof.
  destruct kstage_core as (E1 & E2 & E3). eapply untouched_trans; [exact (fill_untouched _ _ _ _ _ _ _ _ _ _ Hsane He Hv)|]. split; rewrite ?E1, ?E2, ?E3; try done.
  intros [[s t] name] e v r Hk Ee Er. apply k_same_content. apply Hout. rewrite (kstage_keep keep Hkeep).
  intros (n1 & v1 & t1 & x1 & e1 & r1 & _ & [He1 Hr1] & Hid).
  pose proof (same_version _ _ _ _ _ _ _ _ _ _ _ _ _ (fill_wf _ _ _ _ _ _ _ _ _ _ Hsane He Hv) He1 Hr1 Ee Er Hid) as [= <- <- _ _]. by apply Hk.
Qed.
Lemma kstage_value u : u ∈ us -> exists e r, value_here claims d d3 sid u e r /\ vm !! item_key (u_item u) = Some (ve_id r).
Proof.
  intros Hu. destruct (kstage_version u Hu) as (e & r & Hh & H1 & H2 & H3 & H4). exists e, r. split; [|done]. destruct kstage_core as (E1 & E2 & _).
  destruct (Hin u _ Hu H4) as (row & Hrow & Hm). rewrite kstage_table in Hrow. split; [unfold holds; by rewrite E1, E2|]. split_and!; try done.
  exists row. split; [|done]. unfold d3. by rewrite k_table_set.
Qed.
Lemma kstage_item id : item_id d3 sid k_entry items id <-> item_id d2 sid k_entry items id.
Proof. unfold item_id, holds. destruct kstage_core as (-> & -> & _). done. Qed.
End Stage.

Lemma storeKind_steps sid (us : list U) claims now t o n d u t' n' d' : us <> [] -> storeKind sid us claims now t o n d = (Ok (u, t'), n', d') ->
  exists d1 d2 d3 em copied kept n2 n3 n4, let vm := version_map (kind_key us) em copied in
    entries_done sid k_entry (fun _ => claims) ((fun u => it_Name (u_item u)) <$> us) d d1 em /\
    versions_done sid k_entry ((fun u => item_columns (u_item u)) <$> us) d1 d2 copied /\
    upsertVersionsAndPackages vm us o n2 d2 = (Ok kept, n3, d3) /\
    updateLatestKindVersions sid us vm o n4 (orphans sid k_entry kept d3) = (Ok u, n', d').
Proof.
  intros Hne H. unfold storeKind in H. destruct (List.length us =? 0)%nat eqn:E0; [by destruct us|].
  wq_in H erows E1. wbind_in H em E2. destruct (entries_run _ _ _ _ _ _ _ _ _ _ _ _ _ _ _ E1 E2) as [He ->].
  wq_in H vrows E3. wbind_in H copied E4. destruct (versions_run _ _ _ _ _ _ _ _ _ _ _ _ _ _ _ _ (entries_map_ok _ _ _ _ _ _ _ He) E3 E4) as [Hv ->].
  wq_in H kept E5. wbind_in H u0 E6. apply deleteOrphaned_run in E6 as [-> E6]. apply run_q_run in H as [-> H].
  pose proof (upsertVersions_ids _ _ _ _ _ _ _ _ E5) as Hf. destruct kept as [|k ks]; [destruct us; [done|inversion Hf]|]. rewrite E6 in H. eauto 20.
Qed.

Lemma storeKind_correct sid (us : list U) claims now t o n d u t' n' d' : sane d -> distinct_keys us ->
  storeKind sid us claims now t o n d = (Ok (u, t'), n', d') -> kind_stored claims sid us d d'.
Proof.
  intros Hsane Hkeys H. assert (us = [] \/ us <> []) as [->|Hne] by (destruct us; [by left|by right]).
  { unfold storeKind in H. cbn [List.length Nat.eqb] in H. apply run_q_run in H as [_ H]. rewrite u_delete_typed in H. apply query_run_ok in H.
    injection H as _ <-. by apply no_values. }
  destruct (storeKind_steps _ _ _ _ _ _ _ _ _ _ _ _ Hne H) as (d1 & d2 & d3 & em & copied & kept & n2 & n3 & n4 & He & Hv & E5 & E6). clear H.
  pose proof (upsertVersions_ids _ _ _ _ _ _ _ _ E5) as Hf.
  destruct (upsertVersions_run _ _ _ _ _ _ _ _ E5 (kstage_keep_nodup _ _ _ _ _ _ _ _ Hsane Hkeys He Hv _ Hf)) as (m & -> & Hout & Hin).
  pose proof (kstage_sane _ _ _ _ _ _ _ _ Hsane Hkeys He Hv _ _ Hf Hout Hin) as Hs3.
  pose proof (kstage_untouched _ _ _ _ _ _ _ _ Hsane Hkeys He Hv _ _ Hf Hout) as Hu3.
  pose proof (kstage_value _ _ _ _ _ _ _ _ Hsane Hkeys He Hv _ Hin) as Hval.
  destruct (kstage_core d2 m) as (C1 & C2 & C3). set (d3 := k_set d2 m) in *. set (items := (fun u => item_columns (u_item u)) <$> us) in *.
  assert (Hkeep : forall id, id ∈ kept <-> item_id d3 sid k_entry items id).
  { intros id. rewrite (kstage_keep _ _ _ _ _ _ _ _ Hsane Hkeys He Hv _ Hf). symmetry. exact (kstage_item sid us d2 m id). }
  assert (Hall : forall name v title de, (name, v, title, de) ∈ items -> exists e r, holds d3 sid k_entry name v e r).
  { intros name v title de (x & Hx & <- & <- & _)%kitems_in. destruct (Hval x Hx) as (e & r & [Hh _] & _). eauto. }
  assert (Hpair : forall x, x ∈ us -> (it_Name (u_item x), it_Version (u_item x)) ∈ pair_of <$> items).
  { intros x Hx. unfold items. rewrite kind_columns_pairs. by apply (list_elem_of_fmap_2 (fun u => (it_Name (u_item u), it_Version (u_item u)))). }
  set (d4 := orphans sid k_entry kept d3) in *. pose proof (sane_cascade _ _ Hs3 : sane d4) as Hs4.
  assert (Hval4 : forall x, x ∈ us -> exists e r, value_here claims d d4 sid x e r /\
    version_map (kind_key us) em copied !! item_key (u_item x) = Some (ve_id r)).
  { intros x Hx. destruct (Hval x Hx) as (e & r & (Hh & H1 & H2 & H3 & row & H4 & H5) & Hm). exists e, r. split; [|done].
    split; [by apply (orphans_holds sid k_entry items kept d3 Hs3 Hkeep); auto|]. split_and!; try done. exists row. split; [|done]. rewrite <-H4.
    apply k_content_table. eapply (orphans_content sid k_entry items kept d3 Hs3 Hkeep); [exact Hh|by apply Hpair]. }
  unfold updateLatestKindVersions in E6. set (l := _ <$> us) in E6.
  assert (Hl : forall name v id, (name, v, id) ∈ l -> exists x e r, x ∈ us /\ it_Name (u_item x) = name /\ it_Version (u_item x) = v /\
    value_here claims d d4 sid x e r /\ ve_id r = id).
  { intros name v id (x & E & Hx)%list_elem_of_fmap. injection E as -> -> ->. destruct (Hval4 x Hx) as (e & r & Hh & ->). by exists x, e, r. }
  pose proof (upsert_latest_run _ _ _ _ _ _ _ _ E6) as (Ed & Hset & Hkept).
  destruct (upsert_latest_sane sid k_entry _ _ _ _ _ _ _ E6) as [Hs5 Hu5]; [|done|].
  { intros name v id (x & e & r & Hx & <- & <- & [Hh _] & <-)%latest_versions_in%Hl. eauto. }
  split.
  - done.
  - eapply untouched_trans; [exact Hu3|]. eapply untouched_trans; [by eapply orphans_untouched|exact Hu5].
  - unfold exactly, holds. rewrite Ed. cbn. pose proof (orphans_exactly sid k_entry items kept d3 Hs3 Hkeep Hall) as Hx. unfold items in Hx.
    rewrite kind_columns_pairs in Hx. exact Hx.
  - intros x Hx. destruct (Hval4 x Hx) as (e & r & Hh & _). exists e, r. unfold value_here, holds. rewrite Ed. rewrite k_table_latest. exact Hh.
  - intros name v e r Hp Hh. destruct (fill_keeps_ids _ _ _ _ _ _ _ _ _ _ (kind_pairs us) He Hv name v e r Hp Hh) as (e' & r' & Hh' & Hid). exists e', r'. split; [|done].
    unfold holds. rewrite Ed. cbn. apply (orphans_holds sid k_entry items kept d3 Hs3 Hkeep). unfold items. rewrite kind_columns_pairs. split; [|done].
    unfold holds. by rewrite C1, C2.
  - intros x Hx Hsem. eapply (newest_pointer sid k_entry l); [exact E6| | | |].
    + intros v id (x' & e & r & Hx' & En & <- & _)%Hl. by apply Hsem.
    + intros name v id (x' & e & r & _ & <- & <- & [Hh _] & <-)%Hl. eauto.
    + intros name v (x' & [= -> ->] & Hx')%list_elem_of_fmap. destruct (Hval4 x' Hx') as (e & r & _ & Hm). exists (ve_id r).
      apply list_elem_of_fmap. exists x'. by rewrite Hm.
    + by apply (list_elem_of_fmap_2 (fun u => (it_Name (u_item u), it_Version (u_item u)))).
  - intros ty name v e r Hne' Hnn Hh Hlat.
    assert (Hh3 : holds d3 sid ty name v e r) by (eapply (holds_untouched _ _ _ _ _ _ _ _ _ Hu3); [intros [= E]; done|done]).
    rewrite Hkept.
    + apply cascade_pointer; [rewrite C3, (vd_frame _ _ _ _ _ _ Hv), (ed_frame _ _ _ _ _ _ _ He); exact Hlat|].
      eapply (orphans_alive sid k_entry items kept d3 Hs3 Hkeep); [exact Hh3|]. left. by intros [= E].
    + intros name' [[v0 id0] (x & e0 & r0 & Hx & <- & _)%latest_versions_in%Hl] [= ->]. apply Hnn. unfold kind_pairs. rewrite <-list_fmap_compose.
      by apply (list_elem_of_fmap_2 (fst ∘ (fun u => (it_Name (u_item u), it_Version (u_item u))))).
Qed.
End KindStage.

(** ** The whole store *)

(** The rows of a kind, over a stage of another type. *)
Lemma table_untouched {U X R} {K : ArtifactKind X R} {UK : UpstreamKind U X R} `{!UpstreamKindLaws UK} sid ty d d' id :
  untouched (outside sid ty) d d' -> ty <> k_entry -> sane d -> sane d' -> k_table d' !! id = k_table d !! id.
Proof.
  intros Hu Hne Hs Hs'.
  assert (Hgo : forall a, sane a -> (a = d \/ a = d') -> is_Some (k_table a !! id) -> k_table d' !! id = k_table d !! id).
  { intros a Ha Hor Hsome. assert (Hp : present k_entry a id = true) by (rewrite k_present; by apply bool_decide_eq_true_2). clear Hsome. rename Hp into Hsome.
    destruct (sane_fk _ Ha _ _ Hsome) as ([eid v] & r & Hr & Hid). destruct (wf_version_entry _ (sane_core _ Ha) _ _ _ Hr) as (s & t & e & He & <-).
    pose proof (sane_typed _ Ha _ _ _ _ _ _ He Hr k_entry) as Ht. rewrite Hid, Hsome in Ht. symmetry in Ht. apply bool_decide_eq_true in Ht. subst t.
    assert (Ho : outside sid ty (s, k_entry, ve_name r)) by (intros [= _ E]; by symmetry in E).
    assert (Hh : holds d s k_entry (ve_name r) v e r).
    { destruct Hor as [->| ->]; [done|]. by apply (holds_untouched _ _ _ _ _ _ _ _ _ Hu Ho). }
    destruct Hh as [H1 H2]. rewrite <-Hid. apply k_content_table. by eapply (un_content _ _ _ Hu). }
  destruct (decide (is_Some (k_table d !! id))) as [H1|H1]; [by apply (Hgo d); [|left|]|].
  destruct (decide (is_Some (k_table d' !! id))) as [H2|H2]; [by apply (Hgo d'); [|right|]|].
  apply eq_None_not_Some in H1, H2. congruence.
Qed.

Lemma value_here_untouched {U X R} {K : ArtifactKind X R} {UK : UpstreamKind U X R} `{!UpstreamKindLaws UK} `{AC : ArtifactCodec}
    (P : _ -> Prop) claims d0 d d' sid (u : U) e r :
  untouched P d d' -> P (sid, k_entry, it_Name (u_item u)) -> value_here claims d0 d sid u e r -> value_here claims d0 d' sid u e r.
Proof.
  intros Hu Hp (Hh & H1 & H2 & H3 & row & H4 & H5). split; [by apply (holds_untouched _ _ _ _ _ _ _ _ _ Hu Hp)|]. split_and!; try done.
  exists row. split; [|done]. rewrite <-H4. apply k_content_table. destruct Hh as [Ha Hb]. by eapply (un_content _ _ _ Hu).
Qed.
Lemma points_untouched `{L : SemverLib} (P : _ -> Prop) d d' sid ty items name : untouched P d d' -> P (sid, ty, name) ->
  (forall v e r, holds d sid ty name v e r -> d_latest d !! (sid, name) = Some (v, ve_id r) -> d_latest d' !! (sid, name) = Some (v, ve_id r)) ->
  points_to_newest d sid ty items name -> points_to_newest d' sid ty items name.
Proof.
  intros Hu Hp Hl (v & e & r & H1 & H2 & H3). exists v, e, r. split; [by eapply Hl|]. split; [|done]. by apply (holds_untouched _ _ _ _ _ _ _ _ _ Hu Hp).
Qed.
Lemma keeps_ids_untouched_l (P : _ -> Prop) d0 d d' sid ty items : untouched P d0 d -> (forall name, P (sid, ty, name)) ->
  keeps_ids d d' sid ty items -> keeps_ids d0 d' sid ty items.
Proof. intros Hu Hp Hk name v e r Hi Hh. apply Hk; [done|]. by apply (holds_untouched _ _ _ _ _ _ _ _ _ Hu (Hp name)). Qed.
Lemma keeps_ids_untouched_r (P : _ -> Prop) d d' d2 sid ty items : untouched P d' d2 -> (forall name, P (sid, ty, name)) ->
  keeps_ids d d' sid ty items -> keeps_ids d d2 sid ty items.
Proof.
  intros Hu Hp Hk name v e r Hi Hh. destruct (Hk _ _ _ _ Hi Hh) as (e' & r' & Hh' & Hid). exists e', r'. split; [|done].
  by apply (holds_untouched _ _ _ _ _ _ _ _ _ Hu (Hp name)).
Qed.

Section StoreCorrect.
Context `{SC : ServerCodec} `{AC : ArtifactCodec} `{L : SemverLib} `{!SemverLaws L}.

(** The database after a registry was stored for the source [src]: its servers,
    skills and plugins are the upstream ones, and the other sources are as they
    were. *)
Record registry_stored (mx : Z) (src : SourceRow) (reg : UpstreamRegistry) (pc : gmap string string) (d d' : DB) : Prop := {
  rs_sane : sane d';
  rs_others : untouched (fun k => fst (fst k) <> so_id src) d d';
  rs_exact : exactly d' (so_id src) EntryTypeMCP (server_pairs (ur_Servers reg)) /\
    exactly d' (so_id src) EntryTypeSKILL (kind_pairs (ur_Skills reg)) /\ exactly d' (so_id src) EntryTypePLUGIN (kind_pairs (ur_Plugins reg));
  rs_servers : forall s, s ∈ ur_Servers reg -> exists e r,
    server_here mx (fun name => default (so_claims src) (pc !! name)) d' (so_id src) s e r /\ contents_of d' (ve_id r) s;
  rs_skills : forall u, u ∈ ur_Skills reg -> exists e r, value_here (so_claims src) d d' (so_id src) u e r;
  rs_plugins : forall u, u ∈ ur_Plugins reg -> exists e r, value_here (so_claims src) d d' (so_id src) u e r;
  rs_ids : keeps_ids d d' (so_id src) EntryTypeMCP (server_pairs (ur_Servers reg)) /\
    keeps_ids d d' (so_id src) EntryTypeSKILL (kind_pairs (ur_Skills reg)) /\ keeps_ids d d' (so_id src) EntryTypePLUGIN (kind_pairs (ur_Plugins reg));
  rs_latest : forall s, s ∈ ur_Servers reg ->
    (forall s', s' ∈ ur_Servers reg -> sj_Name s' = sj_Name s -> is_semver (sj_Version s') = true) ->
    sj_Name s ∉ (kind_pairs (ur_Skills reg)).*1 -> sj_Name s ∉ (kind_pairs (ur_Plugins reg)).*1 ->
    points_to_newest d' (so_id src) EntryTypeMCP (server_pairs (ur_Servers reg)) (sj_Name s);
  rs_names : names_from d d' (so_id src) EntryTypeMCP (sj_Name <$> ur_Servers reg) }.

Lemma registry_stored_compose mx src reg pc d d1 d2 d' :
  sane d -> servers_stored mx (fun name => default (so_claims src) (pc !! name)) (so_id src) (ur_Servers reg) d d1 ->
  kind_stored (so_claims src) (so_id src) (ur_Skills reg) d1 d2 -> kind_stored (so_claims src) (so_id src) (ur_Plugins reg) d2 d' ->
  registry_stored mx src reg pc d d'.
Proof.
  intros Hs [A1 A2 A3 A4 A5 A6 A7] [B1 B2 B3 B4 B5 B6 B7] [C1 C2 C3 C4 C5 C6 C7]. cbn [k_entry SkillKind PluginKind] in *. set (sid := so_id src) in *.
  assert (T1 : forall id, d_skill d1 !! id = d_skill d !! id) by (intros id; by apply (table_untouched (UK := UpstreamSkill) sid EntryTypeMCP d d1 id A2)).
  assert (T2 : forall id, d_plugin d2 !! id = d_plugin d !! id).
  { intros id. transitivity (d_plugin d1 !! id); [by apply (table_untouched (UK := UpstreamPlugin) sid EntryTypeSKILL d1 d2 id B2)|by apply (table_untouched (UK := UpstreamPlugin) sid EntryTypeMCP d d1 id A2)]. }
  assert (Hw : forall ty k, fst (fst k) <> sid -> outside sid ty k) by (intros ty [[s t] nm] Hne [= E _]; done).
  assert (Ho : forall t ty name, t <> ty -> outside sid ty (sid, t, name)) by (intros t ty name Hne [= E]; done).
  split.
  - done.
  - eapply untouched_trans; [|eapply untouched_trans]; eapply untouched_weaken; [apply Hw|exact A2|apply Hw|exact B2|apply Hw|exact C2].
  - split_and!; [|by eapply exactly_untouched; [exact C2|intros; by apply Ho|exact B3]|done].
    eapply exactly_untouched; [exact C2|intros; by apply Ho|]. eapply exactly_untouched; [exact B2|intros; by apply Ho|done].
  - intros s Hin. assert (Hu : untouched (fun k => fst (fst k) = sid /\ snd (fst k) = EntryTypeMCP) d1 d').
    { eapply untouched_trans; eapply untouched_weaken; [|exact B2| |exact C2]; intros [[s' t'] nm] [E1 E2]; cbn in *; subst; by apply Ho. }
    eapply server_untouched; [exact Hu|done|by apply A4].
  - intros u Hin. destruct (B4 u Hin) as (e & r & Hval). exists e, r. eapply (value_here_untouched _ _ _ _ _ _ _ _ _ C2); [by apply Ho|].
    destruct Hval as (Hh & H1 & H2 & H3 & row & H4 & H5). split_and!; try apply Hh; try done. exists row. split; [done|].
    cbn [k_table SkillKind] in *. by rewrite <-T1.
  - intros u Hin. destruct (C4 u Hin) as (e & r & Hh & H1 & H2 & H3 & row & H4 & H5). exists e, r. split_and!; try apply Hh; try done. exists row. split; [done|].
    cbn [k_table PluginKind] in *. by rewrite <-T2.
  - split_and!.
    + eapply keeps_ids_untouched_r; [exact C2|intros; by apply Ho|]. eapply keeps_ids_untouched_r; [exact B2|intros; by apply Ho|done].
    + eapply keeps_ids_untouched_r; [exact C2|intros; by apply Ho|]. eapply keeps_ids_untouched_l; [exact A2|intros; by apply Ho|done].
    + eapply keeps_ids_untouched_l; [exact A2|intros; by apply Ho|]. eapply keeps_ids_untouched_l; [exact B2|intros; by apply Ho|done].
  - intros s Hin Hsem Hn1 Hn2. eapply points_untouched; [exact C2|by apply Ho|intros; by eapply (C7 EntryTypeMCP)|].
    eapply points_untouched; [exact B2|by apply Ho|intros; by eapply (B7 EntryTypeMCP)|]. by apply A6.
  - intros name e. rewrite (un_entry _ _ _ C2), (un_entry _ _ _ B2) by (by apply Ho). apply A7.
Qed.

(** What the transaction of a sync does. *)
Lemma store_body_stored w name reg pc now t o n d x n' d' :
  sane d -> (forall s, s ∈ ur_Servers reg -> no_at (sj_Name s)) ->
  (forall src, d_source d !! name = Some src -> plain_names d (so_id src)) ->
  distinct_keys (ur_Skills reg) -> distinct_keys (ur_Plugins reg) ->
  store_body w name reg pc now t o n d = (Ok x, n', d') ->
  exists src, d_source d !! name = Some src /\ registry_stored (dw_maxMetaSize w) src reg pc d d'.
Proof.
  intros Hs Hat Hplain Hk1 Hk2 H. destruct x as [[] t'].
  unfold store_body in H. wq_in H found E. destruct found as [src|err]; [|case_match; by apply wfail_run in H].
  apply attempt_run_ok in E. apply select_run_ok in E as [E ->]. unfold row_or_none in E. destruct (d_source d !! name) as [src'|] eqn:Esrc; [|done].
  injection E as ->. exists src. split; [done|]. wbind_in H sm E1. wbind_in H u E2.
  assert (d1 = d0) as ->.
  { unfold dropEntryTempTables in E2. wbind_in E2 v E3. apply drop_run in E3 as [_ ->]. apply wwrap_run, drop_run in E2 as [_ ->]. done. }
  wbind_in H u' E3. wbind_in H u2 E4. wbind_in H u3 E5. apply run_q_run in E5 as [-> E5]. wbind_in H u4 E6. apply wwrap_run in H.
  pose proof (servers_kept_run _ _ _ _ _ _ _ _ _ _ _ _ _ _ _ _ _ _ _ _ Hs (Hplain _ eq_refl) Hat E1 E3) as Hkept.
  pose proof (servers_stored_run _ _ _ _ _ _ _ _ _ _ _ _ _ _ _ _ _ Hkept E4 E5) as Hst.
  pose proof (storeKind_correct _ _ _ _ _ _ _ _ _ _ _ _ (ss_sane _ _ _ _ _ _ Hst) Hk1 E6) as Hsk.
  pose proof (storeKind_correct _ _ _ _ _ _ _ _ _ _ _ _ (kd_sane _ _ _ _ _ Hsk) Hk2 H) as Hpl.
  by eapply registry_stored_compose.
Qed.
(** A stored registry, when the transaction commits. *)
Lemma db_Store_stored w name reg pc now o n d n' d' :
  sane d -> (forall s, s ∈ ur_Servers reg -> no_at (sj_Name s)) ->
  (forall src, d_source d !! name = Some src -> plain_names d (so_id src)) ->
  distinct_keys (ur_Skills reg) -> distinct_keys (ur_Plugins reg) ->
  db_Store w name (Some reg) pc now o n d = (Ok (), n', d') ->
  exists src, d_source d !! name = Some src /\ registry_stored (dw_maxMetaSize w) src reg pc d d'.
Proof.
  intros Hs Hat Hplain Hk1 Hk2 H. apply transaction_ok in H as (n1 & n2 & H).
  apply bind_run_ok in H as (x & n3 & d3 & H & E). apply ret_run_ok in E as (_ & _ & ->). by eapply store_body_stored.
Qed.

(** C17. Storing a registry for a source, if it succeeds, leaves exactly the
    upstream servers, skills and plugins in the source: each with its entry (the
    claims given for its name, or else the source's), version row, server row,
    remotes and icons, or kind row; versions that were there keep their ids; the
    invariant of the database holds, and the entries, versions, contents and
    pointers of the other sources, and the sources and registries themselves, are
    unchanged.  The latest pointer of a server name whose upstream versions are all
    semantic and that no upstream skill or plugin has is at a version none of the
    upstream ones is newer than.  The packages of a server are the upstream ones,
    except that an old package may stay that has server, identifier and transport
    of an upstream one but another registry type.  Assumed of the data: no server
    name, upstream or stored in the source, has an '@', and upstream skills
    (plugins) with the same key "name@version" have the same name and version; the
    writer identifies versions by that key.  (A registry with both skills and
    plugins is never stored, see C19.) *)
Theorem Store_correct w name reg pc now o n d n' d' :
  sane d -> (forall s, s ∈ ur_Servers reg -> no_at (sj_Name s)) ->
  (forall src, d_source d !! name = Some src -> plain_names d (so_id src)) ->
  distinct_keys (ur_Skills reg) -> distinct_keys (ur_Plugins reg) ->
  db_Store w name (Some reg) pc now o n d = (Ok (), n', d') ->
  same_admin d d' /\ exists src, d_source d !! name = Some src /\ registry_stored (dw_maxMetaSize w) src reg pc d d'.
Proof. intros. split; [by eapply db_Store_same|]. by eapply db_Store_stored. Qed.
End StoreCorrect.

(** ** A concrete sync

    Two syncs of the source of [EntriesExample]: a server and a skill, then the
    server in another version with its package in another registry. *)
Module WriterExample.
Import EntriesExample ArtifactsExample.
#[local] Existing Instance MiniSemver.lib.
#[local] Existing Instance MiniSemver.laws.

Definition package (ty : string) : Package :=
  {| pk_RegistryType := ty; pk_RegistryBaseURL := ""; pk_Identifier := "acme/db"; pk_Version := "1"; pk_FileSHA256 := "";
     pk_RunTimeHint := ""; pk_Transport := transport; pk_RuntimeArguments := []; pk_PackageArguments := []; pk_EnvironmentVariables := [] |}.
Definition upstream (version ty : string) : ServerJSON :=
  {| sj_Schema := ""; sj_Name := "io.acme/db"; sj_Description := "d"; sj_Title := "t"; sj_Version := version; sj_WebsiteURL := "";
     sj_Repository := None; sj_Packages := [package ty];
     sj_Remotes := [ {| tr_Type := "sse"; tr_URL := "https://db.acme"; tr_Headers := [] |}; {| tr_Type := "sse"; tr_URL := "https://db.acme"; tr_Headers := [] |} ];
     sj_Icons := []; sj_Meta := None |}.
Definition item : Item :=
  {| it_Namespace := "io.acme"; it_Name := "notes"; it_Version := "1.0.0"; it_Title := "Notes"; it_Description := "d"; it_Status := "";
     it_License := "MIT"; it_Repository := None; it_Icons := []; it_Packages := a_Packages (base_artifact "1.0.0"); it_Metadata := None; it_Meta := None |}.
Definition one_skill : Skill := {| sk_item := item; sk_Compatibility := ""; sk_AllowedTools := [] |}.
Definition registry (servers : list ServerJSON) (skills : list Skill) (plugins : list Plugin) : UpstreamRegistry :=
  {| ur_Schema := ""; ur_Version := "1"; ur_LastUpdated := ""; ur_Servers := servers; ur_Skills := skills; ur_Plugins := plugins |}.
Definition writer : dbSyncWriter := {| dw_maxMetaSize := 262144 |}.

Definition reg1 := registry [upstream "1.2.0" "oci"; upstream "1.10.0" "oci"] [one_skill] [].
Definition reg2 := registry [upstream "1.10.0" "npm"] [] [ {| pl_item := item |} ].
Definition claims1 : gmap string string := {[ "io.acme/db" := "own" ]}.
Definition sync1 := db_Store writer "internal" (Some reg1) claims1 5 no_fault 0 d0.
Definition w1 : DB := snd sync1.
Definition sync2 := db_Store writer "internal" (Some reg2) ∅ 6 no_fault 0 w1.
Definition w2 : DB := snd sync2.
Lemma sync1_ok : db_Store writer "internal" (Some reg1) claims1 5 no_fault 0 d0 = (Ok (), snd (fst sync1), w1).
Proof. vm_compute. reflexivity. Qed.
Lemma sync2_ok : db_Store writer "internal" (Some reg2) ∅ 6 no_fault 0 w1 = (Ok (), snd (fst sync2), w2).
Proof. vm_compute. reflexivity. Qed.

Lemma d0_sane : sane d0.
Proof.
  split.
  - split; simpl; intros; by try rewrite lookup_empty in *; try lia.
  - intros sid ty name e v r H. simpl in H. by rewrite lookup_empty in H.
  - intros [] id H; cbn in H; apply bool_decide_eq_true in H as [x Hx]; cbn in Hx; by rewrite lookup_empty in Hx.
Qed.
Lemma one_key {U X R} {K : ArtifactKind X R} {UK : UpstreamKind U X R} (u : U) : distinct_keys [u].
Proof. intros a b ->%list_elem_of_singleton ->%list_elem_of_singleton. done. Qed.
Lemma no_key {U X R} {K : ArtifactKind X R} {UK : UpstreamKind U X R} : distinct_keys ([] : list U).
Proof. intros a b Ha. by apply elem_of_nil in Ha. Qed.
Lemma upstream_at (l : list (string * string)) s : s ∈ ((fun v => upstream (fst v) (snd v)) <$> l) -> no_at (sj_Name s).
Proof. intros (v & -> & _)%list_elem_of_fmap. unfold no_at. cbn. apply (bool_decide_eq_true_1 ("@"%char ∉ _)). reflexivity. Qed.
Lemma w1_plain : plain_names w1 1.
Proof.
  assert (H : map_Forall (fun k _ => "@"%char ∉ to_bytes (snd k)) (d_entry w1)) by (refine (bool_decide_eq_true_1 _ _); vm_compute; reflexivity).
  intros name e He. exact (H _ _ He).
Qed.

Lemma Store_correct_witness :
  (exists src, registry_stored 262144 src reg1 claims1 d0 w1) /\ exactly w2 1 EntryTypeMCP [("io.acme/db", "1.10.0")] /\ exactly w2 1 EntryTypeSKILL [].
Proof.
  destruct (Store_correct writer "internal" reg1 claims1 5 no_fault 0 d0 (snd (fst sync1)) w1 d0_sane) as [_ (src & Es & H1)].
  - intros s Hs. apply (upstream_at [("1.2.0", "oci"); ("1.10.0", "oci")]). exact Hs.
  - intros src _ name e He. cbn in He. by rewrite lookup_empty in He.
  - apply one_key.
  - apply no_key.
  - exact sync1_ok.
  - split; [by exists src|].
    destruct (Store_correct writer "internal" reg2 ∅ 6 no_fault 0 w1 (snd (fst sync2)) w2 (rs_sane _ _ _ _ _ _ H1)) as [_ (src2 & Es2 & H2)].
    + intros s Hs. apply (upstream_at [("1.10.0", "npm")]). exact Hs.
    + intros src2 Es2. assert (E : so_id <$> d_source w1 !! "internal" = Some 1%nat) by (vm_compute; reflexivity).
      rewrite Es2 in E. injection E as ->. exact w1_plain.
    + apply no_key.
    + apply one_key.
    + exact sync2_ok.
    + assert (E : so_id <$> d_source w1 !! "internal" = Some 1%nat) by (vm_compute; reflexivity). rewrite Es2 in E. injection E as E.
      destruct (rs_exact _ _ _ _ _ _ H2) as (Ha & Hb & _). rewrite E in Ha, Hb. by split.
Defined.

Lemma Store_both_kinds_fails_witness :
  exists err n', db_Store writer "internal" (Some (registry [] [one_skill] [ {| pl_item := item |} ])) ∅ 5 no_fault 0 d0 = (Err err, n', d0).
Proof. apply (Store_both_kinds_fails writer "internal" (registry [] [one_skill] [ {| pl_item := item |} ]) ∅ 5 no_fault 0 d0); discriminate. Defined.

(** The package that is no longer upstream stays, since only its registry type
    differs from one that is. *)
Lemma stale_package_kept :
  (fun '(_, ty, name, _, _) => (ty, name)) <$> (map_to_list (d_package w2)) = [("npm", "acme/db"); ("oci", "acme/db")] \/
  (fun '(_, ty, name, _, _) => (ty, name)) <$> (map_to_list (d_package w2)) = [("oci", "acme/db"); ("npm", "acme/db")].
Proof. vm_compute. auto. Qed.
(** The entry of a skill whose only version is gone is deleted when no skill is
    left upstream, and kept when another one is. *)
Definition other_skill : Skill :=
  {| sk_item := {| it_Namespace := "io.acme"; it_Name := "other"; it_Version := "1.0.0"; it_Title := ""; it_Description := ""; it_Status := "";
       it_License := ""; it_Repository := None; it_Icons := []; it_Packages := []; it_Metadata := None; it_Meta := None |};
     sk_Compatibility := ""; sk_AllowedTools := [] |}.
Lemma empty_entry_kept :
  d_entry w2 !! (1%nat, EntryTypeSKILL, "notes") = None /\
  is_Some (d_entry (snd (db_Store writer "internal" (Some (registry [] [other_skill] [])) ∅ 6 no_fault 0 w1)) !! (1%nat, EntryTypeSKILL, "notes")).
Proof. split; vm_compute; eauto. Qed.
End WriterExample.
