(* ===== verification/Initialize.v ===== *)
(** * Configuration into the database

    [Initialize] of [internal/sync/state/db.go], run when a replica starts: the
    configured sources and registries are written to the database in one
    transaction, entries take over their source's claims, sources without a
    sync status get one, and rows of an older configuration are removed.

    The JSON of source blocks and filters is a parameter ([ConfigMarshal]). *)

From stdpp Require Import base list strings gmap sets.
From Stdlib Require Import String ZArith Lia.
From S2P Require Import Prelude Claims Codec ConfigTypes Durations Database Sync.

Local Open Scope string_scope.
Local Open Scope list_scope.

(** [json.Marshal] of the blocks; [None] is its error. *)
Class ConfigMarshal := {
  marshal_git : GitConfig -> option string;
  marshal_api : APIConfig -> option string;
  marshal_file : FileConfig -> option string;
  marshal_managed : ManagedConfig -> option string;
  marshal_kubernetes : KubernetesConfig -> option string;
  marshal_filter : FilterConfig -> option string }.

(** ** Queries *)

Definition GetAPISourcesByNames (names : list string) : Q (list (string * SourceRow)) :=
  select (fun d => Ok (List.filter (fun kv => bool_decide (fst kv ∈ names) &&
    bool_decide (so_creation_type (snd kv) = CreationTypeAPI)) (map_to_list (d_source d)))).

(** The rows of an upsert: a name, and the row under a given id and time of
    creation. *)
Abbreviation SourceUpsert := (string * (uuid -> Z -> SourceRow))%type.

(** INSERT ... ON CONFLICT (name) DO UPDATE ... WHERE creation_type = 'CONFIG'
    RETURNING id, name: an API source of the name is left alone and not
    returned.  The id and the time of creation of an existing row stay. *)
Fixpoint bulk_upsert (now : Z) (rows : list SourceUpsert) (d : DB) : list (uuid * string) * DB :=
  match rows with
  | [] => ([], d)
  | (name, mk) :: rows' =>
      match d_source d !! name with
      | None =>
          let id := d_next d in
          let d := set_next d (S id) in
          let '(r, d') := bulk_upsert now rows' (set_source d (<[name := mk id now]> (d_source d))) in
          ((id, name) :: r, d')
      | Some s =>
          if decide (so_creation_type s = CreationTypeCONFIG) then
            let '(r, d') := bulk_upsert now rows' (set_source d (<[name := mk (so_id s) (so_created_at s)]> (d_source d))) in
            ((so_id s, name) :: r, d')
          else bulk_upsert now rows' d
      end
  end.

(** A command that would touch a row twice is an error (21000). *)
Definition BulkUpsertConfigSources (now : Z) (rows : list SourceUpsert) : Q (list (uuid * string)) :=
  query (fun d => if decide (NoDup (fst <$> rows)) then Ok (bulk_upsert now rows d) else Err (EMsg "21000")).

Definition PropagateSourceClaimsToEntries (claims : string) (sid : uuid) : Q () :=
  query (fun d => Ok ((), set_entry d (map_imap (fun k e =>
    Some (if (fst (fst k) =? sid)%nat then {| en_id := en_id e; en_claims := claims |} else e)) (d_entry d)))).

Definition UpsertRegistry (name claims : string) (creation : CreationType) : Q RegistryRow :=
  query (fun d =>
    match d_registry d !! name with
    | Some r =>
        let r := {| rg_id := rg_id r; rg_creation_type := rg_creation_type r; rg_claims := claims |} in
        Ok (r, set_registry d (<[name := r]> (d_registry d)))
    | None =>
        let r := {| rg_id := d_next d; rg_creation_type := creation; rg_claims := claims |} in
        let d := set_next d (S (d_next d)) in
        Ok (r, set_registry d (<[name := r]> (d_registry d)))
    end).

Definition UnlinkAllRegistrySources (rid : uuid) : Q () :=
  query (fun d => Ok ((), set_registry_source d (filter (fun kv => fst (fst kv) <> rid) (d_registry_source d)))).

Definition LinkRegistrySource (rid sid : uuid) (position : Z) : Q () :=
  query (fun d => Ok ((), set_registry_source d (<[(rid, sid) := position]> (d_registry_source d)))).

(** The insert leaves started_at to its default, the current time. *)
Definition initial_row (now : Z) (st : SyncState) (msg : string) : SyncRow :=
  {| sy_status := st; sy_error_msg := Some msg; sy_started_at := Some now; sy_ended_at := None;
     sy_attempt_count := 0; sy_last_sync_hash := None; sy_filter_hash := None; sy_server_count := 0;
     sy_skill_count := 0; sy_plugin_count := 0 |}.

(** ON CONFLICT (source_id) DO NOTHING *)
Definition init_syncs (now : Z) (rows : list (uuid * (SyncState * string))) (m : gmap uuid SyncRow) : gmap uuid SyncRow :=
  foldl (fun m '(sid, (st, msg)) =>
    match m !! sid with Some _ => m | None => <[sid := initial_row now st msg]> m end) m rows.

Definition BulkInitializeSourceSyncs (now : Z) (rows : list (uuid * (SyncState * string))) : Q () :=
  query (fun d => Ok ((), set_sync d (init_syncs now rows (d_sync d)))).

Definition DeleteConfigRegistriesNotInList (keep : list string) : Q () :=
  query (fun d =>
    let dead kv := rg_creation_type (snd kv) = CreationTypeCONFIG /\ fst kv ∉ keep in
    let ids : gset uuid := list_to_set ((fun kv => rg_id (snd kv)) <$>
      List.filter (fun kv => bool_decide (dead kv)) (map_to_list (d_registry d))) in
    Ok ((), set_registry_source (set_registry d (filter (fun kv => ~ dead kv) (d_registry d)))
              (filter (fun kv => fst (fst kv) ∉ ids) (d_registry_source d)))).

(** Removing sources: RESTRICT while a registry links one of them, otherwise
    CASCADE to sync status, entries with their versions, and latest pointers. *)
Definition cascade_sources (dead : gset uuid) (d : DB) : DB :=
  let entries := filter (fun kv => fst (fst (fst kv)) ∈ dead) (d_entry d) in
  let eids : gset uuid := list_to_set ((fun kv => en_id (snd kv)) <$> map_to_list entries) in
  let vids : gset uuid := list_to_set ((fun kv => ve_id (snd kv)) <$>
    List.filter (fun kv => bool_decide (fst (fst kv) ∈ eids)) (map_to_list (d_version d))) in
  let d1 := cascade_versions (fun id => bool_decide (id ∈ vids)) d in
  let d2 := set_latest d1 (filter (fun kv => fst (fst kv) ∉ dead) (d_latest d1)) in
  let d3 := set_entry d2 (filter (fun kv => fst (fst (fst kv)) ∉ dead) (d_entry d2)) in
  let d4 := set_sync d3 (filter (fun kv => fst kv ∉ dead) (d_sync d3)) in
  set_source d4 (filter (fun kv => so_id (snd kv) ∉ dead) (d_source d4)).

Definition stale_sources (keep : list uuid) (d : DB) : gset uuid :=
  list_to_set ((fun kv => so_id (snd kv)) <$>
    List.filter (fun kv => bool_decide (so_creation_type (snd kv) = CreationTypeCONFIG) &&
                           bool_decide (so_id (snd kv) ∉ keep)) (map_to_list (d_source d))).

Definition DeleteConfigSourcesNotInList (keep : list uuid) : Q () :=
  query (fun d =>
    let dead := stale_sources keep d in
    if existsb (fun kv => bool_decide (snd (fst kv) ∈ dead)) (map_to_list (d_registry_source d))
    then Err (EWrap ErrPgRestrict "23503")
    else Ok ((), cascade_sources dead d)).

(** [pool.Begin], the body, [Commit]: like [transaction], the driver's errors
    returned as they are. *)
Definition transaction_plain {A} : Q A -> Q A := transaction_gen (fun e => e) (fun e => e).

(** ** Initialize *)

Section Initialize.
Context `{CM : ConfigMarshal} `{C : JsonCodec}.

Definition serializeSourceConfig (src : SourceConfig) : string :=
  match src_Git src, src_API src, src_File src, src_Managed src, src_Kubernetes src with
  | Some x, _, _, _, _ => default "" (marshal_git x)
  | None, Some x, _, _, _ => default "" (marshal_api x)
  | None, None, Some x, _, _ => default "" (marshal_file x)
  | None, None, None, Some x, _ => default "" (marshal_managed x)
  | None, None, None, None, Some x => default "" (marshal_kubernetes x)
  | None, None, None, None, None => ""
  end.

Definition serializeFilterConfig (f : option FilterConfig) : string :=
  match f with None => "" | Some f => default "" (marshal_filter f) end.

Definition getSyncScheduleIntervalFromConfig (src : SourceConfig) : Interval.Interval :=
  if IsNonSyncedSource src then Interval.NewNullInterval
  else match src_SyncPolicy src with
       | None => Interval.NewNullInterval
       | Some p =>
           if String.eqb (sp_Interval p) "" then Interval.NewNullInterval
           else match Interval.ParseDuration (sp_Interval p) with
                | Ok i => i
                | Err _ => Interval.NewNullInterval
                end
       end.

(** An interval as its column gives it back. *)
Definition stored_interval (i : Interval.Interval) : option Z :=
  match Interval.Value i with
  | Interval.SrcInterval v => Some (Interval.iv_Duration (Interval.from_pg v))
  | _ => None
  end.

(** One row of [buildBulkUpsertParams]. *)
Definition config_row (src : SourceConfig) (id : uuid) (created : Z) : SourceRow :=
  {| so_id := id; so_creation_type := CreationTypeCONFIG; so_source_type := GetType src;
     so_source_config := serializeSourceConfig src; so_filter_config := serializeFilterConfig (src_Filter src);
     so_sync_schedule := stored_interval (getSyncScheduleIntervalFromConfig src);
     so_syncable := negb (IsNonSyncedSource src); so_claims := SerializeClaims (src_Claims src); so_created_at := created |}.

Definition buildBulkUpsertParams (l : list SourceConfig) : list SourceUpsert :=
  (fun src => (src_Name src, config_row src)) <$> l.

Definition checkForAPIRegistryConflicts (names : list string) : Q () :=
  apiSources ← wrapping "failed to check for API sources" (GetAPISourcesByNames names);
  if (0 <? List.length apiSources)%nat then fail (EMsg "cannot overwrite API-created sources: %v") else mret ().

Definition checkManagedSourceLimit (l : list SourceConfig) : Q () :=
  if existsb (fun src => bool_decide (GetType src = SourceTypeManaged)) l then
    managedSources ← wrapping "failed to check managed source limit" GetManagedSources;
    if existsb (fun kv => bool_decide (so_creation_type (snd kv) = CreationTypeAPI)) managedSources
    then fail (EMsg "cannot load config with a managed source: an API-created managed source %q already exists")
    else mret ()
  else mret ().

Definition propagateSourceClaimsToEntries (l : list SourceConfig) (ids : gmap string uuid) : Q () :=
  for_each_q (fun src =>
    match ids !! src_Name src with
    | None => mret ()
    | Some sourceID =>
        wrapping "failed to propagate claims for source %s"
          (PropagateSourceClaimsToEntries (SerializeClaims (src_Claims src)) sourceID)
    end) l.

(** The inner loop, with its position. *)
Fixpoint link_sources (ids : gmap string uuid) (rid : uuid) (position : nat) (l : list string) : Q () :=
  match l with
  | [] => mret ()
  | sourceName :: l' =>
      match ids !! sourceName with
      | None => fail (EMsg "registry %s references unknown source %s")
      | Some sourceID =>
          _ ← wrapping "failed to link registry %s to source %s"
                (LinkRegistrySource rid sourceID (Z.of_nat position));
          link_sources ids rid (S position) l'
      end
  end.

Definition upsertRegistryRowsAndLinks (l : list RegistryConfig) (ids : gmap string uuid) : Q () :=
  for_each_q (fun reg =>
    registryRow ← wrapping "failed to upsert registry %s"
      (UpsertRegistry (reg_Name reg) (SerializeClaims (reg_Claims reg)) CreationTypeCONFIG);
    _ ← wrapping "failed to unlink sources for registry %s" (UnlinkAllRegistrySources (rg_id registryRow));
    link_sources ids (rg_id registryRow) 0 (reg_Sources reg)) l.

(** The text of a source type. *)
Definition SourceType_string (t : SourceType) : string :=
  match t with
  | SourceTypeGit => "git" | SourceTypeAPI => "api" | SourceTypeFile => "file"
  | SourceTypeManaged => "managed" | SourceTypeKubernetes => "kubernetes" | SourceTypeNone => ""
  end.

Definition getInitialSyncStatus (isNonSynced : bool) (srcType : SourceType) : SyncState * string :=
  if isNonSynced then (SyncStatusCOMPLETED, "Non-synced source (type: " +:+ SourceType_string srcType +:+ ")")
  else (SyncStatusFAILED, "No previous sync status found").

(** One row of the loop; a name that is missing from the Go map gives the zero
    id. *)
Definition initial_of (ids : gmap string uuid) (src : SourceConfig) : uuid * (SyncState * string) :=
  (default uuid_Nil (ids !! src_Name src), getInitialSyncStatus (IsNonSyncedSource src) (GetType src)).

Definition initializeSyncStatuses (now : Z) (l : list SourceConfig) (ids : gmap string uuid) : Q () :=
  BulkInitializeSourceSyncs now (initial_of ids <$> l).

Definition cleanupOrphanedConfigEntries (registries : list RegistryConfig) (upsertedIDs : list uuid) : Q () :=
  _ ← wrapping "failed to delete orphaned registry rows"
        (DeleteConfigRegistriesNotInList (reg_Name <$> registries));
  DeleteConfigSourcesNotInList upsertedIDs.

(** The cache of source configurations the job queue uses. *)
Definition sourceConfigsMap (cfg : Config) : gmap string SourceConfig :=
  foldl (fun m src => <[src_Name src := src]> m) ∅ (cfg_Sources cfg).

Definition Initialize (now : Z) (cfg : Config) : Q () :=
  let sourceConfigs := cfg_Sources cfg in
  transaction_plain (
    if (List.length sourceConfigs =? 0)%nat then
      _ ← DeleteConfigRegistriesNotInList [];
      DeleteConfigSourcesNotInList []
    else
      let names := src_Name <$> sourceConfigs in
      _ ← checkForAPIRegistryConflicts names;
      _ ← checkManagedSourceLimit sourceConfigs;
      upserted ← BulkUpsertConfigSources now (buildBulkUpsertParams sourceConfigs);
      if negb (List.length upserted =? List.length names)%nat
      then fail (EMsg "expected to upsert %d sources but only %d were returned")
      else
        let ids : gmap string uuid := foldl (fun m iv => <[snd iv := fst iv]> m) ∅ upserted in
        _ ← propagateSourceClaimsToEntries sourceConfigs ids;
        _ ← upsertRegistryRowsAndLinks (cfg_Registries cfg) ids;
        _ ← initializeSyncStatuses now sourceConfigs ids;
        cleanupOrphanedConfigEntries (cfg_Registries cfg) (fst <$> upserted)).

End Initialize.

(** ** What each stage does *)

(** Ids are handed out once. *)
Record wf_ids (d : DB) : Prop := {
  wi_source : ids_unique d;
  wi_source_fresh : forall name s, d_source d !! name = Some s -> (so_id s < d_next d)%nat;
  wi_registry : forall n1 n2 r1 r2, d_registry d !! n1 = Some r1 -> d_registry d !! n2 = Some r2 ->
    rg_id r1 = rg_id r2 -> n1 = n2;
  wi_registry_fresh : forall name r, d_registry d !! name = Some r -> (rg_id r < d_next d)%nat }.

(** Tables a stage leaves alone. *)
Definition same_entries (d d' : DB) : Prop := d_entry d' = d_entry d /\ d_sync d' = d_sync d.
Definition same_sources (d d' : DB) : Prop := d_source d' = d_source d.
Definition same_registries (d d' : DB) : Prop :=
  d_registry d' = d_registry d /\ d_registry_source d' = d_registry_source d.

Lemma for_each_q_cons {A} (f : A -> Q ()) x l o n d n' d' :
  for_each_q f (x :: l) o n d = (Ok (), n', d') ->
  exists n1 d1, f x o n d = (Ok (), n1, d1) /\ for_each_q f l o n1 d1 = (Ok (), n', d').
Proof. cbn [for_each_q]. intros ([] & n1 & d1 & ? & ?)%bind_run_ok. eauto. Qed.

(** *** Sources *)

Definition upsertable (d : DB) (row : SourceUpsert) : Prop :=
  (forall id c, so_id (snd row id c) = id) /\
  forall s, d_source d !! fst row = Some s -> so_creation_type s = CreationTypeCONFIG.

(** Writing one row keeps ids apart. *)
Lemma wf_ids_update d name row s :
  wf_ids d -> so_id row = so_id s -> d_source d !! name = Some s ->
  wf_ids (set_source d (<[name := row]> (d_source d))).
Proof.
  intros [H1 H2 H3 H4] Hmk Hs. constructor; cbn; try done.
  - intros n1 n2 s1 s2. cbn. intros [[<- <-]|[? Hs1]]%lookup_insert_Some [[<- <-]|[? Hs2]]%lookup_insert_Some;
      rewrite ?Hmk; [done|by apply H1|by apply H1|by apply H1].
  - intros n1 s1 [[<- <-]|[? Hs1]]%lookup_insert_Some; rewrite ?Hmk; eauto.
Qed.

Lemma wf_ids_insert d name row :
  wf_ids d -> so_id row = d_next d ->
  wf_ids (set_source (set_next d (S (d_next d))) (<[name := row]> (d_source d))).
Proof.
  intros [H1 H2 H3 H4] Hmk. constructor; cbn; try done.
  - intros n1 n2 s1 s2. cbn. intros [[<- <-]|[? Hs1]]%lookup_insert_Some [[<- <-]|[? Hs2]]%lookup_insert_Some E;
      rewrite ?Hmk in E; [done| | |by eapply H1].
    + apply H2 in Hs2. lia.
    + apply H2 in Hs1. lia.
  - intros n1 s1 [[<- <-]|[? Hs1%H2]]%lookup_insert_Some; rewrite ?Hmk; lia.
  - intros n1 r1 Hr%H4. lia.
Qed.

(** The time of creation a row ends up with. *)
Definition created_of (now : Z) (d : DB) (name : string) : Z :=
  match d_source d !! name with Some s => so_created_at s | None => now end.

Record upserted (now : Z) (rows : list SourceUpsert) (d : DB) (ups : list (uuid * string)) (d' : DB) : Prop := {
  up_names : snd <$> ups = fst <$> rows;
  up_wf : wf_ids d';
  up_same : same_entries d d' /\ same_registries d d';
  up_rest : forall name, name ∉ fst <$> rows -> d_source d' !! name = d_source d !! name;
  up_row : forall name mk, (name, mk) ∈ rows -> exists id, (id, name) ∈ ups /\
    d_source d' !! name = Some (mk id (created_of now d name)) /\
    forall s, d_source d !! name = Some s -> so_id s = id }.

(** One row, then the others. *)
Lemma upserted_cons now name mk rows d id ups d' d1 :
  name ∉ fst <$> rows ->
  d_source d1 = <[name := mk id (created_of now d name)]> (d_source d) -> same_entries d d1 -> same_registries d d1 ->
  (forall s, d_source d !! name = Some s -> so_id s = id) ->
  upserted now rows d1 ups d' -> upserted now ((name, mk) :: rows) d ((id, name) :: ups) d'.
Proof.
  intros Hni Hs1 [He1 He2] [Hr1 Hr2] Hold [Hn Hwf [[He3 He4] [Hr3 Hr4]] Hrest Hrow].
  constructor; cbn [fmap list_fmap fst snd].
  - by rewrite Hn.
  - done.
  - unfold same_entries, same_registries. split; split; congruence.
  - intros name' [Hne Hni']%not_elem_of_cons. rewrite Hrest by done. by rewrite Hs1, lookup_insert_ne.
  - intros name' mk' [[= -> ->]|Hin]%elem_of_cons.
    + exists id. split; [set_solver|]. split; [|done]. rewrite Hrest by done. rewrite Hs1. apply lookup_insert_eq.
    + destruct (Hrow name' mk' Hin) as (id' & Hin' & Hs' & Hold'). exists id'. split; [set_solver|].
      assert (Hne : name <> name').
      { intros ->. apply Hni. by apply (list_elem_of_fmap_2 fst _ (name', mk')). }
      unfold created_of in Hs' |- *. rewrite Hs1, lookup_insert_ne in Hs' by done.
      split; [done|]. intros s Hs. apply Hold'. by rewrite Hs1, lookup_insert_ne.
Qed.

Lemma bulk_upsert_spec now rows d ups d' :
  wf_ids d -> NoDup (fst <$> rows) -> Forall (upsertable d) rows ->
  bulk_upsert now rows d = (ups, d') -> upserted now rows d ups d'.
Proof.
  revert d ups d'. induction rows as [|[name mk] rows IH]; intros d ups d' Hwf Hnd Hf H; cbn [bulk_upsert] in H.
  { injection H as <- <-. constructor; try done. by intros name mk ?%not_elem_of_nil. }
  cbn in Hnd. apply NoDup_cons in Hnd as [Hni Hnd]. apply Forall_cons in Hf as [[Hmk Hcfg] Hf].
  assert (Hf' : forall d1 x, d_source d1 = <[name := x]> (d_source d) -> Forall (upsertable d1) rows).
  { intros d1 x E. rewrite Forall_forall in Hf |- *. intros [n m] Hin. destruct (Hf _ Hin) as [? Hc].
    split; [done|]. rewrite E. cbn. rewrite lookup_insert_ne; [done|].
    intros ->. apply Hni. by apply (list_elem_of_fmap_2 fst _ (n, m)). }
  destruct (d_source d !! name) as [s|] eqn:Es.
  - rewrite decide_True in H by by apply Hcfg.
    destruct (bulk_upsert now rows _) as [ups' d1] eqn:E. injection H as <- <-.
    eapply (upserted_cons _ _ _ _ _ _ _ _ (set_source d (<[name := mk (so_id s) (so_created_at s)]> (d_source d)))); try done.
    + cbn. unfold created_of. by rewrite Es.
    + intros s'. rewrite Es. by intros [= ->].
    + apply IH; [eapply wf_ids_update; [done|apply Hmk|done]|done|by eapply Hf'|done].
  - destruct (bulk_upsert now rows _) as [ups' d1] eqn:E. injection H as <- <-.
    eapply (upserted_cons _ _ _ _ _ _ _ _ (set_source (set_next d (S (d_next d))) (<[name := mk (d_next d) now]> (d_source d)))); try done.
    + cbn. unfold created_of. by rewrite Es.
    + intros s'. by rewrite Es.
    + apply IH; [apply wf_ids_insert; [done|apply Hmk]|done|by eapply Hf'|done].
Qed.

(** The map from names to ids. *)
Definition ids_of (ups : list (uuid * string)) : gmap string uuid :=
  foldl (fun m iv => <[snd iv := fst iv]> m) ∅ ups.

Lemma ids_of_from ups m name id :
  NoDup (snd <$> ups) ->
  foldl (fun m iv => <[snd iv := fst iv]> m) m ups !! name = Some id <->
  (id, name) ∈ ups \/ (name ∉ snd <$> ups /\ (m : gmap string uuid) !! name = Some id).
Proof.
  revert m. induction ups as [|[i n] ups IH]; intros m Hnd; cbn [foldl fmap list_fmap fst snd].
  { split; [by right; split; [apply not_elem_of_nil|]|]. by intros [?%not_elem_of_nil|[_ ?]]. }
  cbn in Hnd. apply NoDup_cons in Hnd as [Hni Hnd]. rewrite (IH _ Hnd), elem_of_cons, not_elem_of_cons.
  destruct (decide (n = name)) as [->|Hne].
  - rewrite lookup_insert_eq. split.
    + intros [Hin|[_ [= ->]]]; [|by left; left]. destruct Hni. by apply (list_elem_of_fmap_2 snd _ (id, name)).
    + intros [[[= ->]|Hin]|[[??] _]]; [by right|by left|done].
  - rewrite lookup_insert_ne by done. naive_solver.
Qed.

Lemma ids_of_spec ups name id :
  NoDup (snd <$> ups) -> ids_of ups !! name = Some id <-> (id, name) ∈ ups.
Proof. intros Hnd. unfold ids_of. rewrite ids_of_from by done. rewrite lookup_empty. naive_solver. Qed.

Section Stages.
Context `{CM : ConfigMarshal} `{C : JsonCodec}.
Context (now : Z).

(** The row a configured source ends up with. *)
Definition stored (d : DB) (src : SourceConfig) (id : uuid) : SourceRow :=
  config_row src id (created_of now d (src_Name src)).

(** *** Entry claims *)

Definition reclaim (c : string) (e : EntryRow) : EntryRow := {| en_id := en_id e; en_claims := c |}.

Definition inj_ids (ids : gmap string uuid) : Prop :=
  forall n1 n2 id, ids !! n1 = Some id -> ids !! n2 = Some id -> n1 = n2.

Record propagated (l : list SourceConfig) (ids : gmap string uuid) (d d' : DB) : Prop := {
  pr_same : same_sources d d' /\ same_registries d d' /\ d_sync d' = d_sync d /\ d_next d' = d_next d;
  pr_other : forall sid ty n, (forall src, src ∈ l -> ids !! src_Name src <> Some sid) ->
    d_entry d' !! (sid, ty, n) = d_entry d !! (sid, ty, n);
  pr_source : forall src sid ty n, src ∈ l -> ids !! src_Name src = Some sid ->
    d_entry d' !! (sid, ty, n) = reclaim (SerializeClaims (src_Claims src)) <$> d_entry d !! (sid, ty, n) }.

Lemma propagate_one claims sid o n d n' d' :
  PropagateSourceClaimsToEntries claims sid o n d = (Ok (), n', d') ->
  exists m, d' = set_entry d m /\
    forall sid' ty name, m !! (sid', ty, name) =
      if decide (sid' = sid) then reclaim claims <$> d_entry d !! (sid', ty, name) else d_entry d !! (sid', ty, name).
Proof.
  intros H%query_run_ok. injection H as <-. eexists. split; [done|]. intros sid' ty name.
  rewrite map_lookup_imap. cbn [fst]. destruct (d_entry d !! _) as [e|]; cbn; [|by case_decide].
  destruct (Nat.eqb_spec sid' sid); by case_decide.
Qed.

Lemma propagate_spec l ids o n d n' d' :
  NoDup (src_Name <$> l) -> inj_ids ids ->
  propagateSourceClaimsToEntries l ids o n d = (Ok (), n', d') -> propagated l ids d d'.
Proof.
  intros Hnd Hinj. unfold propagateSourceClaimsToEntries. revert n d.
  induction l as [|src l IH]; intros n d H.
  { cbn in H. injection H as <- <-. constructor; [done|done|]. by intros * ?%not_elem_of_nil. }
  cbn in Hnd. apply NoDup_cons in Hnd as [Hni Hnd]. apply for_each_q_cons in H as (n1 & d1 & E & H).
  destruct (IH Hnd _ _ H) as [(Hs & [Hr1 Hr2] & Hy & Hn) Hother Hsource].
  assert (Hdiff : forall src', src' ∈ l -> src_Name src' <> src_Name src).
  { intros src' Hin Heq. apply Hni. rewrite <-Heq. by apply list_elem_of_fmap_2. }
  destruct (ids !! src_Name src) as [id|] eqn:Eid.
  - apply wrapping_run_ok, propagate_one in E as (m & -> & Hm). cbn in Hs, Hr1, Hr2, Hy, Hn, Hother, Hsource.
    constructor.
    + done.
    + intros sid ty name Hne. rewrite Hother by (intros; apply Hne; set_solver). rewrite Hm.
      rewrite decide_False; [done|]. intros ->. eapply Hne; [|exact Eid]. set_solver.
    + intros src' sid ty name [->|Hin]%elem_of_cons Hsid.
      * rewrite Eid in Hsid. injection Hsid as <-. rewrite Hother, Hm, decide_True; [done|done|].
        intros src' Hin Hs'. by apply (Hdiff src' Hin), (Hinj _ _ id).
      * rewrite (Hsource src' sid) by done. rewrite Hm, decide_False; [done|].
        intros ->. by apply (Hdiff src' Hin), (Hinj _ _ id).
  - injection E as <- <-. constructor; [done| |].
    + intros sid ty name Hne. apply Hother. intros; apply Hne; set_solver.
    + intros src' sid ty name [->|Hin]%elem_of_cons Hsid; [congruence|by apply Hsource].
Qed.

(** *** Registries *)

(** The last place of a name: a registry may name a source twice, and a later
    link takes the place of an earlier one. *)
Definition last_at (l : list string) (k : nat) (name : string) : Prop :=
  l !! k = Some name /\ forall j, (k < j)%nat -> l !! j <> Some name.

Record linked (ids : gmap string uuid) (r : RegistryConfig) (d d' : DB) : Prop := {
  li_row : exists rg, d_registry d' !! reg_Name r = Some rg /\ rg_claims rg = SerializeClaims (reg_Claims r) /\
    match d_registry d !! reg_Name r with
    | Some old => rg_id rg = rg_id old /\ rg_creation_type rg = rg_creation_type old
    | None => rg_creation_type rg = CreationTypeCONFIG
    end /\
    forall sid pos, d_registry_source d' !! (rg_id rg, sid) = Some pos <->
      exists k name, last_at (reg_Sources r) k name /\ ids !! name = Some sid /\ pos = Z.of_nat k }.

Lemma link_sources_spec ids rid l k o n d n' d' :
  inj_ids ids ->
  link_sources ids rid k l o n d = (Ok (), n', d') ->
  exists m, d' = set_registry_source d m /\
    (forall rid' sid, rid' <> rid -> m !! (rid', sid) = d_registry_source d !! (rid', sid)) /\
    forall sid pos, m !! (rid, sid) = Some pos <->
      (exists j name, last_at l j name /\ ids !! name = Some sid /\ pos = Z.of_nat (k + j)) \/
      ((forall name, name ∈ l -> ids !! name <> Some sid) /\ d_registry_source d !! (rid, sid) = Some pos).
Proof.
  intros Hinj. revert k n d. induction l as [|name l IH]; intros k n d H; cbn [link_sources] in H.
  { injection H as <- <-. exists (d_registry_source d). split; [by destruct d|]. split; [done|].
    intros sid pos. split; [|by intros [(j & ? & [? _] & _)|[_ ?]]]. intros Hp. right. split; [|done].
    by intros ? ?%not_elem_of_nil. }
  destruct (ids !! name) as [id|] eqn:Eid; [|done].
  apply bind_run_ok in H as ([] & n1 & d1 & E & H). apply wrapping_run_ok, query_run_ok in E. injection E as <-.
  apply IH in H as (m & -> & Hrest & Hm). exists m. split; [done|]. cbn in Hrest, Hm. split.
  { intros rid' sid Hne. rewrite Hrest by done. rewrite lookup_insert_ne; [done|congruence]. }
  intros sid pos. rewrite Hm. split.
  - intros [(j & nm & [Hj Hlast] & Hid & ->)|[Hno Hp]].
    + left. exists (S j), nm. split; [|split; [done|f_equal; lia]]. split; [done|].
      intros [|i] Hi; [lia|]. apply Hlast. lia.
    + apply lookup_insert_Some in Hp as [[[= ->] <-]|[Hne Hp]].
      * left. exists 0%nat, name. split; [|split; [done|f_equal; lia]]. split; [done|].
        intros [|i] Hi; [lia|]. intros Hn. by apply (Hno name); [eapply list_elem_of_lookup_2|].
      * right. split; [|done]. intros nm [->|Hin]%elem_of_cons; [|by apply Hno]. congruence.
  - intros [([|j] & nm & [Hj Hlast] & Hid & ->)|[Hno Hp]]; cbn in *.
    + injection Hj as <-. simplify_eq. right. split.
      * intros nm [i Hin]%list_elem_of_lookup Hnm. rewrite (Hinj _ _ _ Hnm Eid) in Hin. by apply (Hlast (S i)); [lia|].
      * rewrite lookup_insert_eq. f_equal. lia.
    + left. exists j, nm. split; [|split; [done|f_equal; lia]]. split; [done|]. intros i Hi. apply (Hlast (S i)). lia.
    + right. split; [intros; apply Hno; set_solver|]. rewrite lookup_insert_ne; [done|].
      intros [= ->]. eapply Hno; [|exact Eid]. set_solver.
Qed.

(** What a registry outside the configuration keeps. *)
Definition registry_kept (name : string) (d d' : DB) : Prop :=
  d_registry d' !! name = d_registry d !! name /\
  forall rg sid, d_registry d !! name = Some rg ->
    d_registry_source d' !! (rg_id rg, sid) = d_registry_source d !! (rg_id rg, sid).

(** Every link belongs to a registry (a foreign key). *)
Definition links_owned (d : DB) : Prop :=
  forall rid sid pos, d_registry_source d !! (rid, sid) = Some pos ->
    exists name rg, d_registry d !! name = Some rg /\ rg_id rg = rid.

Record registries_step (regs : list RegistryConfig) (ids : gmap string uuid) (d d' : DB) : Prop := {
  rs_wf : wf_ids d';
  rs_same : same_sources d d' /\ same_entries d d';
  rs_in : forall r, r ∈ regs -> linked ids r d d';
  rs_out : forall name, name ∉ reg_Name <$> regs -> registry_kept name d d';
  rs_owned : links_owned d -> links_owned d' }.

(** The row of one registry. *)
Lemma UpsertRegistry_spec name claims o n d rg n' d' :
  wf_ids d -> UpsertRegistry name claims CreationTypeCONFIG o n d = (Ok rg, n', d') ->
  wf_ids d' /\ same_sources d d' /\ same_entries d d' /\ d_registry_source d' = d_registry_source d /\
  d_registry d' = <[name := rg]> (d_registry d) /\ rg_claims rg = claims /\
  match d_registry d !! name with
  | Some old => rg_id rg = rg_id old /\ rg_creation_type rg = rg_creation_type old
  | None => rg_id rg = d_next d /\ rg_creation_type rg = CreationTypeCONFIG
  end.
Proof.
  intros [H1 H2 H3 H4] H%query_run_ok. destruct (d_registry d !! name) as [old|] eqn:Eo; injection H as <- <-.
  - split; [|done]. constructor; cbn; try done.
    + intros n1 n2 r1 r2. intros [[<- <-]|[? Hr1]]%lookup_insert_Some [[<- <-]|[? Hr2]]%lookup_insert_Some; cbn; eauto.
    + intros n1 r1 [[<- <-]|[? Hr1]]%lookup_insert_Some; cbn; eauto.
  - split; [|done]. constructor; cbn; try done.
    + intros n1 s1 Hs%H2. lia.
    + intros n1 n2 r1 r2. intros [[<- <-]|[? Hr1]]%lookup_insert_Some [[<- <-]|[? Hr2]]%lookup_insert_Some; cbn; eauto;
        intros E; exfalso; [apply H4 in Hr2|apply H4 in Hr1]; lia.
    + intros n1 r1 [[<- <-]|[? Hr1%H4]]%lookup_insert_Some; cbn; lia.
Qed.

Lemma registry_one r ids o n d n' d' :
  wf_ids d -> inj_ids ids ->
  upsertRegistryRowsAndLinks [r] ids o n d = (Ok (), n', d') -> registries_step [r] ids d d'.
Proof.
  intros Hwf Hinj H. unfold upsertRegistryRowsAndLinks in H.
  apply for_each_q_cons in H as (n1 & d1 & H & E). cbn in E. injection E as <- <-.
  apply bind_run_ok in H as (rg & n2 & d2 & E & H). apply wrapping_run_ok in E.
  destruct (UpsertRegistry_spec _ _ _ _ _ _ _ _ Hwf E) as (Hwf2 & Hs2 & [He2 Hy2] & Hl2 & Hr2 & Hc & Hid).
  apply bind_run_ok in H as ([] & n3 & d3 & E3 & H). apply wrapping_run_ok, query_run_ok in E3. injection E3 as <-.
  apply link_sources_spec in H as (m & -> & Hrest & Hm); [|done]. cbn in Hrest, Hm.
  constructor; unfold same_sources, same_entries; cbn.
  - destruct Hwf2. by constructor.
  - done.
  - intros r' [->|?%not_elem_of_nil]%elem_of_cons; [|done]. constructor. exists rg. cbn.
    rewrite Hr2, lookup_insert_eq. split; [done|]. split; [done|].
    split; [destruct (d_registry d !! reg_Name r); naive_solver|].
    intros sid pos. rewrite Hm. split; [|by left].
    intros [?|[_ Hp]]; [done|]. apply map_lookup_filter_Some in Hp as [_ Hp]. done.
  - intros name Hname. assert (Hne : name <> reg_Name r) by set_solver. split; cbn.
    + by rewrite Hr2, lookup_insert_ne.
    + intros rg0 sid Hrg0. assert (Hids : rg_id rg0 <> rg_id rg).
      { intros Eid. apply Hne. destruct Hwf2 as [_ _ Hu _]. apply (Hu _ _ rg0 rg); [| |done].
        - by rewrite Hr2, lookup_insert_ne.
        - by rewrite Hr2, lookup_insert_eq. }
      rewrite Hrest by done. rewrite map_lookup_filter, Hl2.
      destruct (d_registry_source d !! _); cbn; [|done]. by rewrite option_guard_True.
  - intros Hown rid sid pos Hp. cbn in Hp |- *. rewrite Hr2.
    destruct (decide (rid = rg_id rg)) as [->|Hrid]; [exists (reg_Name r), rg; by rewrite lookup_insert_eq|].
    rewrite Hrest in Hp by done. apply map_lookup_filter_Some in Hp as [Hp _]. rewrite Hl2 in Hp.
    destruct (Hown _ _ _ Hp) as (name & rg0 & Hrg0 & <-). exists name, rg0. split; [|done].
    rewrite lookup_insert_ne; [done|]. intros <-. rewrite Hrg0 in Hid. by destruct Hid as [Hid _].
Qed.

Lemma registries_spec regs ids o n d n' d' :
  wf_ids d -> inj_ids ids -> NoDup (reg_Name <$> regs) ->
  upsertRegistryRowsAndLinks regs ids o n d = (Ok (), n', d') -> registries_step regs ids d d'.
Proof.
  intros Hwf Hinj. revert n d Hwf. induction regs as [|r regs IH]; intros n d Hwf Hnd H.
  { cbn in H. injection H as <- <-. constructor; [done|done|by intros ? ?%not_elem_of_nil|done|done]. }
  cbn in Hnd. apply NoDup_cons in Hnd as [Hni Hnd].
  unfold upsertRegistryRowsAndLinks in H. apply for_each_q_cons in H as (n1 & d1 & E & H).
  assert (E1 : upsertRegistryRowsAndLinks [r] ids o n d = (Ok (), n1, d1)).
  { unfold upsertRegistryRowsAndLinks. cbn [for_each_q]. apply bind_run_ok. by exists tt, n1, d1. }
  destruct (registry_one r ids o n d n1 d1 Hwf Hinj E1) as [Hwf1 [Hss1 [He1 Hy1]] Hin1 Hout1 Hown1].
  destruct (IH n1 d1 Hwf1 Hnd H) as [Hwf2 [Hss2 [He2 Hy2]] Hin2 Hout2 Hown2].
  unfold same_sources in *. constructor.
  - done.
  - unfold same_entries. split_and!; congruence.
  - intros r' [->|Hin]%elem_of_cons.
    + destruct (Hin1 r) as [(rg & Hrg & Hc & Hold & Hl)]; [set_solver|]. destruct (Hout2 _ Hni) as [Hk Hlk].
      constructor. exists rg. rewrite Hk. split; [done|]. split; [done|]. split; [done|].
      intros sid pos. by rewrite (Hlk rg sid Hrg).
    + destruct (Hin2 r' Hin) as [(rg & Hrg & Hc & Hold & Hl)]. constructor. exists rg. split; [done|].
      split; [done|]. split; [|done]. destruct (Hout1 (reg_Name r')) as [Hk _]; [|by rewrite <-Hk].
      intros Heq%list_elem_of_singleton. apply Hni. rewrite <-Heq. by apply list_elem_of_fmap_2.
  - intros name [Hne Hni']%not_elem_of_cons. destruct (Hout1 name) as [Hk1 Hl1]; [set_solver|].
    destruct (Hout2 name Hni') as [Hk2 Hl2]. split; [by rewrite Hk2|].
    intros rg sid Hrg. rewrite (Hl2 rg) by by rewrite Hk1. by apply Hl1.
  - auto.
Qed.

(** *** Sync status *)

Lemma init_syncs_spec rows m :
  NoDup (fst <$> rows) ->
  (forall sid, sid ∉ fst <$> rows -> init_syncs now rows m !! sid = m !! sid) /\
  (forall sid st msg, (sid, (st, msg)) ∈ rows ->
     init_syncs now rows m !! sid = Some (default (initial_row now st msg) (m !! sid))).
Proof.
  unfold init_syncs. revert m. induction rows as [|[sid0 [st0 msg0]] rows IH]; intros m Hnd; cbn [foldl].
  { split; [done|]. by intros * ?%not_elem_of_nil. }
  cbn in Hnd. apply NoDup_cons in Hnd as [Hni Hnd].
  set (m0 := match m !! sid0 with Some _ => m | None => _ end). destruct (IH m0 Hnd) as [Hout Hin].
  assert (H0 : m0 !! sid0 = Some (default (initial_row now st0 msg0) (m !! sid0))).
  { subst m0. destruct (m !! sid0) eqn:E; [by rewrite E|]. apply lookup_insert_eq. }
  assert (Hne : forall sid, sid <> sid0 -> m0 !! sid = m !! sid).
  { intros sid Hs. subst m0. destruct (m !! sid0); [done|]. by apply lookup_insert_ne. }
  split.
  - intros sid [Hs Hs']%not_elem_of_cons. rewrite Hout by done. by apply Hne.
  - intros sid st msg [[= -> -> ->]|Hr]%elem_of_cons; [by rewrite Hout|].
    rewrite (Hin _ _ _ Hr). rewrite Hne; [done|]. intros ->. apply Hni.
    by apply (list_elem_of_fmap_2 fst _ (sid0, (st, msg))).
Qed.

(** *** Clean-up *)

Lemma delete_registries_spec keep o n d n' d' :
  wf_ids d -> DeleteConfigRegistriesNotInList keep o n d = (Ok (), n', d') ->
  wf_ids d' /\ same_sources d d' /\ same_entries d d' /\
  (forall name rg, d_registry d' !! name = Some rg <->
     d_registry d !! name = Some rg /\ (rg_creation_type rg = CreationTypeAPI \/ name ∈ keep)) /\
  (forall name rg sid, d_registry d' !! name = Some rg ->
     d_registry_source d' !! (rg_id rg, sid) = d_registry_source d !! (rg_id rg, sid)).
Proof.
  intros Hwf H%query_run_ok. injection H as <-. pose proof Hwf as [H1 H2 H3 H4].
  set (dead := fun kv : string * RegistryRow => rg_creation_type kv.2 = CreationTypeCONFIG /\ kv.1 ∉ keep).
  assert (Hrow : forall name rg,
    filter (fun kv => ~ dead kv) (d_registry d) !! name = Some rg <->
    d_registry d !! name = Some rg /\ (rg_creation_type rg = CreationTypeAPI \/ name ∈ keep)).
  { intros name rg. rewrite map_lookup_filter_Some. unfold dead. cbn.
    destruct (decide (name ∈ keep)), (rg_creation_type rg); naive_solver. }
  split; [|split; [done|split; [done|split]]].
  - constructor; cbn; try done.
    + intros n1 n2 r1 r2 [Hr1 _]%Hrow [Hr2 _]%Hrow. eauto.
    + intros name rg [Hr _]%Hrow. eauto.
  - intros name rg. apply Hrow.
  - intros name rg sid [Hrg Hk]%Hrow. cbn. rewrite map_lookup_filter.
    destruct (d_registry_source d !! _); cbn; [|done]. rewrite option_guard_True; [done|].
    intros (kv & E & Hin)%elem_of_list_to_set%list_elem_of_fmap. destruct kv as [name' rg'].
    apply list_elem_of_In, filter_In in Hin as [Hin Hd]. apply list_elem_of_In, elem_of_map_to_list in Hin.
    apply bool_decide_eq_true in Hd as [Hc Hn]. cbn in *.
    assert (name = name') as <- by (eapply H3; [exact Hrg|exact Hin|done]). simplify_eq.
    destruct Hk as [Hk|?]; [congruence|done].
Qed.

Lemma stale_spec keep d name s :
  ids_unique d -> d_source d !! name = Some s ->
  so_id s ∈ stale_sources keep d <-> so_creation_type s = CreationTypeCONFIG /\ so_id s ∉ keep.
Proof.
  intros Hu Hs. unfold stale_sources. rewrite elem_of_list_to_set, list_elem_of_fmap. split.
  - intros ([name' s'] & E & Hin). apply list_elem_of_In, filter_In in Hin as [Hin Hd].
    apply list_elem_of_In, elem_of_map_to_list in Hin.
    apply andb_true_iff in Hd as [Hc%bool_decide_eq_true Hk%bool_decide_eq_true]. cbn in *.
    assert (name = name') as <- by (eapply Hu; [exact Hs|exact Hin|done]). by simplify_eq.
  - intros [Hc Hk]. exists (name, s). split; [done|]. apply list_elem_of_In, filter_In. split.
    + by apply list_elem_of_In, elem_of_map_to_list.
    + apply andb_true_iff. split; by apply bool_decide_eq_true.
Qed.

Lemma stale_in keep d sid :
  sid ∈ stale_sources keep d -> exists name s, d_source d !! name = Some s /\ so_id s = sid /\
    so_creation_type s = CreationTypeCONFIG /\ sid ∉ keep.
Proof.
  unfold stale_sources. intros ([name s] & -> & Hin)%elem_of_list_to_set%list_elem_of_fmap.
  apply list_elem_of_In, filter_In in Hin as [Hin [Hc%bool_decide_eq_true Hk%bool_decide_eq_true]%andb_true_iff].
  apply list_elem_of_In, elem_of_map_to_list in Hin. by exists name, s.
Qed.

Lemma delete_registries_owned keep o n d n' d' :
  DeleteConfigRegistriesNotInList keep o n d = (Ok (), n', d') -> links_owned d -> links_owned d'.
Proof.
  intros H%query_run_ok Hown. injection H as <-. intros rid sid pos Hp. cbn in Hp |- *.
  apply map_lookup_filter_Some in Hp as [Hp Hk]. destruct (Hown _ _ _ Hp) as (name & rg & Hrg & <-).
  exists name, rg. split; [|done]. apply map_lookup_filter_Some. split; [done|]. intros Hdead. apply Hk. cbn.
  apply elem_of_list_to_set, list_elem_of_fmap. exists (name, rg). split; [done|].
  apply list_elem_of_In, filter_In. split; [by apply list_elem_of_In, elem_of_map_to_list|].
  by apply bool_decide_eq_true.
Qed.

(** The RESTRICT of the foreign key. *)
Definition restricted (keep : list uuid) (d : DB) : bool :=
  existsb (fun kv => bool_decide (snd (fst kv) ∈ stale_sources keep d)) (map_to_list (d_registry_source d)).

Lemma restricted_false keep d :
  restricted keep d = false <->
  forall rid sid pos, d_registry_source d !! (rid, sid) = Some pos -> sid ∉ stale_sources keep d.
Proof.
  unfold restricted. rewrite <-not_true_iff_false, existsb_exists. split.
  - intros H rid sid pos Hp Hin. apply H. exists ((rid, sid), pos).
    split; [by apply list_elem_of_In, elem_of_map_to_list|by apply bool_decide_eq_true].
  - intros H ([[rid sid] pos] & Hp & Hs%bool_decide_eq_true).
    apply list_elem_of_In, elem_of_map_to_list in Hp. by apply (H rid sid pos).
Qed.

Lemma delete_sources_spec keep o n d n' d' :
  wf_ids d -> DeleteConfigSourcesNotInList keep o n d = (Ok (), n', d') ->
  same_registries d d' /\
  (forall name s, d_source d' !! name = Some s <->
     d_source d !! name = Some s /\ (so_creation_type s = CreationTypeAPI \/ so_id s ∈ keep)) /\
  (forall sid ty name, d_entry d' !! (sid, ty, name) =
     if decide (sid ∈ stale_sources keep d) then None else d_entry d !! (sid, ty, name)) /\
  (forall sid, d_sync d' !! sid = if decide (sid ∈ stale_sources keep d) then None else d_sync d !! sid).
Proof.
  intros [Hu _ _ _] H%query_run_ok. cbv zeta in H. destruct (existsb _ _); [done|]. injection H as <-.
  split; [done|]. split; [|split].
  - intros name s. cbn. rewrite map_lookup_filter_Some. cbn. split.
    + intros [Hs Hk]. split; [done|]. rewrite (stale_spec keep d name s Hu Hs) in Hk.
      destruct (decide (so_id s ∈ keep)); [by right|left]. destruct (so_creation_type s); [done|naive_solver].
    + intros [Hs Hk]. split; [done|]. rewrite (stale_spec keep d name s Hu Hs).
      intros [Hc Hn]. destruct Hk; [congruence|done].
  - intros sid ty name. cbn. rewrite map_lookup_filter. destruct (d_entry d !! _); cbn; [|by case_decide].
    case_decide; [by rewrite option_guard_False by tauto|by rewrite option_guard_True].
  - intros sid. cbn. rewrite map_lookup_filter. destruct (d_sync d !! _); cbn; [|by case_decide].
    case_decide; [by rewrite option_guard_False by tauto|by rewrite option_guard_True].
Qed.

(** ** The whole *)

(** What validation gives. *)
Record init_ready (cfg : Config) : Prop := {
  ir_sources : cfg_Sources cfg <> [];
  ir_names : NoDup (src_Name <$> cfg_Sources cfg);
  ir_registries : NoDup (reg_Name <$> cfg_Registries cfg);
  ir_links : Forall (fun r => forall name, name ∈ reg_Sources r -> name ∈ src_Name <$> cfg_Sources cfg) (cfg_Registries cfg) }.

Definition initial_sync (src : SourceConfig) : SyncRow :=
  let '(st, msg) := getInitialSyncStatus (IsNonSyncedSource src) (GetType src) in initial_row now st msg.

Record initialized (cfg : Config) (d d' : DB) : Prop := {
  in_source : forall src, src ∈ cfg_Sources cfg -> exists id,
    d_source d' !! src_Name src = Some (stored d src id) /\
    (forall s, d_source d !! src_Name src = Some s -> so_id s = id) /\
    (forall ty n, d_entry d' !! (id, ty, n) =
       reclaim (SerializeClaims (src_Claims src)) <$> d_entry d !! (id, ty, n)) /\
    d_sync d' !! id = Some (default (initial_sync src) (d_sync d !! id));
  in_other : forall name s, name ∉ src_Name <$> cfg_Sources cfg ->
    (d_source d' !! name = Some s <-> d_source d !! name = Some s /\ so_creation_type s = CreationTypeAPI) /\
    (d_source d' !! name = Some s ->
       d_sync d' !! so_id s = d_sync d !! so_id s /\
       forall ty n, d_entry d' !! (so_id s, ty, n) = d_entry d !! (so_id s, ty, n));
  in_registry : forall r, r ∈ cfg_Registries cfg -> exists rg,
    d_registry d' !! reg_Name r = Some rg /\ rg_claims rg = SerializeClaims (reg_Claims r) /\
    (forall old, d_registry d !! reg_Name r = Some old ->
       rg_id rg = rg_id old /\ rg_creation_type rg = rg_creation_type old) /\
    (forall sid pos, d_registry_source d' !! (rg_id rg, sid) = Some pos <->
       exists k name s, last_at (reg_Sources r) k name /\ d_source d' !! name = Some s /\
         so_id s = sid /\ pos = Z.of_nat k);
  in_registry_other : forall name rg, name ∉ reg_Name <$> cfg_Registries cfg ->
    (d_registry d' !! name = Some rg <-> d_registry d !! name = Some rg /\ rg_creation_type rg = CreationTypeAPI) /\
    (d_registry d' !! name = Some rg -> forall sid,
       d_registry_source d' !! (rg_id rg, sid) = d_registry_source d !! (rg_id rg, sid)) }.

(** The ids the upsert returned, read back from the source table. *)
Lemma upserted_ids l d ups d1 :
  NoDup (src_Name <$> l) -> upserted now (buildBulkUpsertParams l) d ups d1 ->
  inj_ids (ids_of ups) /\
  (forall name id, ids_of ups !! name = Some id <->
     exists src, src ∈ l /\ src_Name src = name /\ d_source d1 !! name = Some (stored d src id)) /\
  (forall src, src ∈ l -> exists id, ids_of ups !! src_Name src = Some id /\ id ∈ fst <$> ups /\
     d_source d1 !! src_Name src = Some (stored d src id) /\
     forall s, d_source d !! src_Name src = Some s -> so_id s = id).
Proof.
  intros Hnd [Hn [Hu _ _ _] _ _ Hrow].
  assert (En : snd <$> ups = src_Name <$> l).
  { rewrite Hn. unfold buildBulkUpsertParams. rewrite <-list_fmap_compose. done. }
  assert (Hnd' : NoDup (snd <$> ups)) by by rewrite En.
  assert (Hsrc : forall src, src ∈ l -> exists id, ids_of ups !! src_Name src = Some id /\ id ∈ fst <$> ups /\
     d_source d1 !! src_Name src = Some (stored d src id) /\
     forall s, d_source d !! src_Name src = Some s -> so_id s = id).
  { intros src Hin. destruct (Hrow (src_Name src) (config_row src)) as (id & Hid & Hs & Hold).
    { unfold buildBulkUpsertParams. by apply (list_elem_of_fmap_2 (fun src => (src_Name src, config_row src))). }
    exists id. split; [by apply ids_of_spec|]. split; [by apply (list_elem_of_fmap_2 fst _ (id, src_Name src))|done]. }
  assert (Hiff : forall name id, ids_of ups !! name = Some id <->
     exists src, src ∈ l /\ src_Name src = name /\ d_source d1 !! name = Some (stored d src id)).
  { intros name id. split.
    - intros Hid. pose proof Hid as Hin%(ids_of_spec _ _ _ Hnd').
      assert (Hname : name ∈ src_Name <$> l) by (rewrite <-En; by apply (list_elem_of_fmap_2 snd _ (id, name))).
      apply list_elem_of_fmap in Hname as (src & -> & Hsl). destruct (Hsrc src Hsl) as (id' & Hid' & _ & Hs & _).
      exists src. split; [done|]. split; [done|]. congruence.
    - intros (src & Hsl & <- & Hs). destruct (Hsrc src Hsl) as (id' & Hid' & _ & Hs' & _).
      rewrite Hs' in Hs. injection Hs as ->. done. }
  assert (Hinj : inj_ids (ids_of ups)).
  { intros n1 n2 id (s1 & _ & _ & H1)%Hiff (s2 & _ & _ & H2)%Hiff. by eapply Hu. }
  done.
Qed.

(** Configurations with distinct names are told apart by their names. *)
Lemma src_by_name l a b :
  NoDup (src_Name <$> l) -> a ∈ l -> b ∈ l -> src_Name a = src_Name b -> a = b.
Proof.
  intros Hnd [i Hi]%list_elem_of_lookup [j Hj]%list_elem_of_lookup E.
  assert (i = j) as ->; [|congruence].
  eapply NoDup_lookup; [exact Hnd| |]; rewrite list_lookup_fmap.
  - by rewrite Hi.
  - by rewrite Hj, E.
Qed.

Lemma sync_rows_nodup l ids :
  NoDup (src_Name <$> l) -> inj_ids ids -> (forall src, src ∈ l -> is_Some (ids !! src_Name src)) ->
  NoDup (fst <$> (initial_of ids <$> l)).
Proof.
  intros Hnd Hinj Hall. rewrite <-list_fmap_compose. apply NoDup_fmap_2_strong.
  - intros a b Ha Hb. cbn. destruct (Hall a Ha) as [ia Ea], (Hall b Hb) as [ib Eb]. rewrite Ea, Eb. cbn.
    intros ->. eapply src_by_name; [exact Hnd|done|done|]. by eapply Hinj.
  - by eapply NoDup_fmap_1.
Qed.

(** What the checks look for: API sources under configured names, and an API
    source that is managed beside a configured one. *)
Definition no_conflict (names : list string) (d : DB) : Prop :=
  forall name s, name ∈ names -> d_source d !! name = Some s -> so_creation_type s = CreationTypeCONFIG.
Definition has_managed (l : list SourceConfig) : bool :=
  existsb (fun src => bool_decide (GetType src = SourceTypeManaged)) l.
Definition no_managed_conflict (l : list SourceConfig) (d : DB) : Prop :=
  has_managed l = true -> forall name s, d_source d !! name = Some s ->
  so_source_type s = SourceTypeManaged -> so_creation_type s = CreationTypeCONFIG.

Definition api_sources (names : list string) (d : DB) : list (string * SourceRow) :=
  List.filter (fun kv => bool_decide (fst kv ∈ names) &&
    bool_decide (so_creation_type (snd kv) = CreationTypeAPI)) (map_to_list (d_source d)).

Lemma api_sources_none names d :
  (0 <? List.length (api_sources names d))%nat = false <-> no_conflict names d.
Proof.
  rewrite Nat.ltb_ge. unfold no_conflict. split.
  - intros Hlen name s Hn Hs. destruct (so_creation_type s) eqn:Ec; [exfalso|done].
    assert (Hin : In (name, s) (api_sources names d)).
    { apply filter_In. split; [by apply list_elem_of_In, elem_of_map_to_list|]. cbn.
      rewrite !bool_decide_true; done. }
    destruct (api_sources names d); [done|]. simpl in Hlen. lia.
  - intros H. destruct (api_sources names d) as [|[name s] l] eqn:E; [done|exfalso].
    assert (Hin : In (name, s) (api_sources names d)) by (rewrite E; by left).
    apply filter_In in Hin as [Hin [Hn%bool_decide_eq_true Hc%bool_decide_eq_true]%andb_true_iff]. cbn in *.
    apply list_elem_of_In, elem_of_map_to_list in Hin. rewrite (H name s) in Hc by done. done.
Qed.

Lemma managed_conflict_none d :
  existsb (fun kv => bool_decide (so_creation_type (snd kv) = CreationTypeAPI)) (managed_sources d) = false <->
  forall name s, d_source d !! name = Some s -> so_source_type s = SourceTypeManaged ->
    so_creation_type s = CreationTypeCONFIG.
Proof.
  rewrite <-not_true_iff_false, existsb_exists. split.
  - intros H name s Hs Ht. destruct (so_creation_type s) eqn:Ec; [exfalso|done]. apply H. exists (name, s). split.
    + apply filter_In. split; [by apply list_elem_of_In, elem_of_map_to_list|]. by apply bool_decide_eq_true.
    + by apply bool_decide_eq_true.
  - intros H ([name s] & Hin & Hc%bool_decide_eq_true). apply filter_In in Hin as [Hin Ht%bool_decide_eq_true].
    apply list_elem_of_In, elem_of_map_to_list in Hin. cbn in Hc. rewrite (H name s) in Hc by done. done.
Qed.

(** The checks read, and pass only without a conflict. *)
Lemma checks_ok names l o n d n' d' :
  (checkForAPIRegistryConflicts names ≫= fun _ => checkManagedSourceLimit l) o n d = (Ok (), n', d') ->
  d' = d /\ no_conflict names d /\ no_managed_conflict l d.
Proof.
  intros ([] & n1 & d1 & E & H)%bind_run_ok. unfold checkForAPIRegistryConflicts in E.
  apply bind_run_ok in E as (api & n2 & d2 & E & E2). apply wrapping_run_ok, select_run_ok in E as [E ->].
  injection E as <-. fold (api_sources names d) in E2. destruct (0 <? _)%nat eqn:Ea; [done|].
  injection E2 as <- <-. apply api_sources_none in Ea.
  unfold checkManagedSourceLimit in H. fold (has_managed l) in H. unfold no_managed_conflict.
  destruct (has_managed l); [|injection H as <- <-; by split_and!].
  apply bind_run_ok in H as (ms & n3 & d3 & E & H). apply wrapping_run_ok, select_run_ok in E as [E ->].
  injection E as <-. destruct (existsb _ _) eqn:Em; [done|]. injection H as <- <-.
  by rewrite managed_conflict_none in Em.
Qed.

Lemma transaction_plain_atomic {A} (body : Q A) o n d e n' d' :
  transaction_plain body o n d = (Err e, n', d') -> d' = d.
Proof. apply transaction_gen_atomic. Qed.

Lemma transaction_plain_ok {A} (body : Q A) o n d a n' d' :
  transaction_plain body o n d = (Ok a, n', d') -> exists n1 n2, body o n1 d = (Ok a, n2, d').
Proof. apply transaction_gen_ok. Qed.

(** The stages of a successful run. *)
Record stages (cfg : Config) (d : DB) (ups : list (uuid * string)) (d1 d2 d3 d4 d5 d' : DB) : Prop := {
  sg_upserted : upserted now (buildBulkUpsertParams (cfg_Sources cfg)) d ups d1;
  sg_propagated : propagated (cfg_Sources cfg) (ids_of ups) d1 d2;
  sg_registries : registries_step (cfg_Registries cfg) (ids_of ups) d2 d3;
  sg_sync : d4 = set_sync d3 (init_syncs now (initial_of (ids_of ups) <$> cfg_Sources cfg) (d_sync d3));
  sg_wf4 : wf_ids d4;
  sg_unregistered : exists o n n', DeleteConfigRegistriesNotInList (reg_Name <$> cfg_Registries cfg) o n d4
              = (Ok (), n', d5);
  sg_removed : exists o n n', DeleteConfigSourcesNotInList (fst <$> ups) o n d5 = (Ok (), n', d') }.

Lemma propagated_wf l ids d d' : wf_ids d -> propagated l ids d d' -> wf_ids d'.
Proof.
  intros [H1 H2 H3 H4] [(Hs & [Hr _] & _ & Hn) _ _]. unfold same_sources in Hs.
  constructor; unfold ids_unique; rewrite ?Hs, ?Hr, ?Hn; done.
Qed.

Lemma Initialize_stages cfg o n d n' d' :
  init_ready cfg -> wf_ids d -> Initialize now cfg o n d = (Ok (), n', d') ->
  no_conflict (src_Name <$> cfg_Sources cfg) d /\ no_managed_conflict (cfg_Sources cfg) d /\
  exists ups d1 d2 d3 d4 d5, stages cfg d ups d1 d2 d3 d4 d5 d'.
Proof.
  intros [Hne Hnd Hndr Hl] Hwf H. unfold Initialize in H. apply transaction_plain_ok in H as (n1 & n2 & H).
  destruct (Nat.eqb_spec (List.length (cfg_Sources cfg)) 0) as [E0|_]; [by destruct (cfg_Sources cfg)|].
  apply bind_run_ok in H as ([] & m1 & e1 & E1 & H). apply bind_run_ok in H as ([] & m2 & e2 & E2 & H).
  assert (Hc : e2 = d /\ no_conflict (src_Name <$> cfg_Sources cfg) d /\ no_managed_conflict (cfg_Sources cfg) d).
  { eapply (checks_ok (src_Name <$> cfg_Sources cfg) (cfg_Sources cfg) o n1 d m2). apply bind_run_ok. by exists tt, m1, e1. }
  destruct Hc as (-> & Hcfg & Hman). split; [done|]. split; [done|]. apply bind_run_ok in H as (ups & m3 & d1 & E3 & H).
  apply query_run_ok in E3. rewrite decide_True in E3.
  2:{ unfold buildBulkUpsertParams. by rewrite <-list_fmap_compose. }
  injection E3 as E3. apply bulk_upsert_spec in E3; [|done| |].
  2:{ unfold buildBulkUpsertParams. by rewrite <-list_fmap_compose. }
  2:{ unfold buildBulkUpsertParams. apply Forall_fmap, Forall_forall. intros src Hin. split; [done|].
      intros s. apply Hcfg. change (src_Name src ∈ src_Name <$> cfg_Sources cfg). by apply list_elem_of_fmap_2. }
  destruct (negb _); [done|]. fold (ids_of ups) in H.
  apply bind_run_ok in H as ([] & m4 & d2 & E4 & H). apply bind_run_ok in H as ([] & m5 & d3 & E5 & H).
  apply bind_run_ok in H as ([] & m6 & d4 & E6 & H). apply bind_run_ok in H as ([] & m7 & d5 & E7 & H).
  destruct (upserted_ids _ _ _ _ Hnd E3) as (Hinj & _).
  apply propagate_spec in E4; [|done|done].
  assert (Hwf2 : wf_ids d2) by (eapply propagated_wf; [apply E3|done]).
  apply registries_spec in E5; [|done|done|done].
  apply query_run_ok in E6. injection E6 as <-. apply wrapping_run_ok in E7.
  exists ups, d1, d2, d3, (set_sync d3 (init_syncs now (initial_of (ids_of ups) <$> cfg_Sources cfg) (d_sync d3))), d5.
  constructor; eauto. destruct (rs_wf _ _ _ _ E5). by constructor.
Qed.

(** A source outside the configuration is none of the upserted ones. *)
Lemma unconfigured_id l d ups d1 name s :
  NoDup (src_Name <$> l) -> upserted now (buildBulkUpsertParams l) d ups d1 ->
  name ∉ src_Name <$> l -> d_source d1 !! name = Some s ->
  so_id s ∉ fst <$> ups /\ forall n id, ids_of ups !! n = Some id -> so_id s <> id.
Proof.
  intros Hnd Hup Hni Hs. destruct (upserted_ids _ _ _ _ Hnd Hup) as (Hinj & Hiff & Hsrc).
  assert (Hid : forall n id, ids_of ups !! n = Some id -> so_id s <> id).
  { intros n id (src & Hin & <- & Hs1)%Hiff E. apply Hni.
    rewrite (wi_source _ (up_wf _ _ _ _ _ Hup) name (src_Name src) s _ Hs Hs1) by done. by apply list_elem_of_fmap_2. }
  split; [|done]. intros Hin. apply list_elem_of_fmap in Hin as ([i n] & E & Hin). eapply Hid; [|exact E].
  apply ids_of_spec; [|exact Hin]. rewrite (up_names _ _ _ _ _ Hup). unfold buildBulkUpsertParams.
  by rewrite <-list_fmap_compose.
Qed.

(** No registry that stays and is not configured links a source that goes. *)
Definition no_stale_links (cfg : Config) (d : DB) : Prop :=
  forall rname rg name s pos, rname ∉ reg_Name <$> cfg_Registries cfg ->
    d_registry d !! rname = Some rg -> rg_creation_type rg = CreationTypeAPI ->
    d_source d !! name = Some s -> so_creation_type s = CreationTypeCONFIG ->
    name ∉ src_Name <$> cfg_Sources cfg -> d_registry_source d !! (rg_id rg, so_id s) <> Some pos.

Section Prepared.
Context (cfg : Config) (d : DB) (ups : list (uuid * string)) (d1 d2 d3 d4 d5 : DB) (o : Oracle) (n n' : nat).
Hypothesis Hready : init_ready cfg.
Hypothesis Hup : upserted now (buildBulkUpsertParams (cfg_Sources cfg)) d ups d1.
Hypothesis Hpr : propagated (cfg_Sources cfg) (ids_of ups) d1 d2.
Hypothesis Hrs : registries_step (cfg_Registries cfg) (ids_of ups) d2 d3.
Hypothesis Hsy : exists m, d4 = set_sync d3 m.
Hypothesis Hwf4 : wf_ids d4.
Hypothesis Hun : DeleteConfigRegistriesNotInList (reg_Name <$> cfg_Registries cfg) o n d4 = (Ok (), n', d5).

(** Sources outside the configuration are still there. *)
Lemma prepared_source name : name ∉ src_Name <$> cfg_Sources cfg -> d_source d5 !! name = d_source d !! name.
Proof using Hup Hpr Hrs Hsy Hwf4 Hun.
  intros Hni. destruct (delete_registries_spec _ _ _ _ _ _ Hwf4 Hun) as (_ & Hs5 & _).
  destruct Hpr as [(Hs2 & _) _ _], Hrs as [_ [Hs3 _] _ _ _], Hsy as [m ->].
  unfold same_sources in *. rewrite Hs5. cbn. rewrite Hs3, Hs2. apply (up_rest _ _ _ _ _ Hup).
  unfold buildBulkUpsertParams. by rewrite <-list_fmap_compose.
Qed.

(** Registries outside the configuration that stay, with their links. *)
Lemma prepared_registry name rg : name ∉ reg_Name <$> cfg_Registries cfg ->
  (d_registry d5 !! name = Some rg <-> d_registry d !! name = Some rg /\ rg_creation_type rg = CreationTypeAPI) /\
  (d_registry d5 !! name = Some rg -> forall sid,
     d_registry_source d5 !! (rg_id rg, sid) = d_registry_source d !! (rg_id rg, sid)).
Proof using Hup Hpr Hrs Hsy Hwf4 Hun.
  intros Hni. destruct (delete_registries_spec _ _ _ _ _ _ Hwf4 Hun) as (Hwf5 & _ & _ & Hrow5 & Hlink5).
  destruct Hup as [_ _ [_ [Hr1 Hl1]] _ _], Hpr as [(_ & [Hr2 Hl2] & _) _ _], Hrs as [_ _ _ Hout _], Hsy as [m ->].
  destruct (Hout name Hni) as [Hk Hlk]. cbn in Hrow5, Hlink5. split.
  - rewrite Hrow5, Hk, Hr2, Hr1. naive_solver.
  - intros Hrg sid. rewrite (Hlink5 _ _ sid Hrg). apply Hrow5 in Hrg as [Hrg _].
    rewrite (Hlk rg sid) by by rewrite <-Hk. by rewrite Hl2, Hl1.
Qed.

(** Configured registries, with their links. *)
Lemma prepared_linked r rg : r ∈ cfg_Registries cfg -> d_registry d5 !! reg_Name r = Some rg ->
  forall sid pos, d_registry_source d5 !! (rg_id rg, sid) = Some pos ->
  exists name, ids_of ups !! name = Some sid.
Proof using Hrs Hsy Hwf4 Hun.
  intros Hin Hrg sid pos. destruct (delete_registries_spec _ _ _ _ _ _ Hwf4 Hun) as (_ & _ & _ & Hrow5 & Hlink5).
  rewrite (Hlink5 _ _ sid Hrg). apply Hrow5 in Hrg as [Hrg _]. destruct Hsy as [m ->]. cbn in *.
  destruct (rs_in _ _ _ _ Hrs r Hin) as [(rg' & Hrg' & _ & _ & Hl)].
  rewrite Hrg in Hrg'. injection Hrg' as <-. intros (k & name & _ & Hid & _)%Hl. eauto.
Qed.

Lemma restricted_iff : links_owned d -> restricted (fst <$> ups) d5 = false <-> no_stale_links cfg d.
Proof using All.
  intros Hown. pose proof (ir_names _ Hready) as Hnd.
  destruct (delete_registries_spec _ _ _ _ _ _ Hwf4 Hun) as (Hwf5 & Hs5 & _).
  rewrite restricted_false. split.
  - intros H rname rg name s pos Hr Hrg Ht Hs Hc Hni Hp.
    assert (Hrg5 : d_registry d5 !! rname = Some rg) by by apply prepared_registry.
    rewrite <-(proj2 (prepared_registry _ _ Hr) Hrg5) in Hp. apply H in Hp. apply Hp.
    rewrite <-prepared_source in Hs by done. rewrite (stale_spec _ _ name s); [|apply Hwf5|done].
    split; [done|]. destruct Hpr as [(Hs2 & _) _ _], Hrs as [_ [Hs3 _] _ _ _], Hsy as [m E4].
    unfold same_sources in *. rewrite Hs5, E4 in Hs. cbn in Hs. rewrite Hs3, Hs2 in Hs.
    by apply (unconfigured_id _ _ _ _ _ _ Hnd Hup Hni Hs).
  - intros H rid sid pos Hp Hst. apply stale_in in Hst as (name & s & Hs & <- & Hc & Hk).
    assert (Hfst : forall nm, ids_of ups !! nm <> Some (so_id s)).
    { intros nm Hid. destruct (upserted_ids _ _ _ _ Hnd Hup) as (_ & Hiff & Hsrc).
      apply Hiff in Hid as (src & Hin & <- & Hs1). destruct (Hsrc src Hin) as (id & _ & Hf & Hs1' & _).
      rewrite Hs1 in Hs1'. apply Hk. by injection Hs1' as ->. }
    assert (Hown5 : links_owned d5).
    { eapply delete_registries_owned; [exact Hun|]. destruct Hsy as [m ->]. apply (rs_owned _ _ _ _ Hrs).
      destruct Hpr as [(_ & [Hr2 Hl2] & _) _ _], Hup as [_ _ [_ [Hr1 Hl1]] _ _].
      intros r i q. rewrite Hl2, Hl1, Hr2, Hr1. apply Hown. }
    destruct (Hown5 _ _ _ Hp) as (rname & rg & Hrg & <-).
    destruct (decide (rname ∈ reg_Name <$> cfg_Registries cfg)) as [Hr|Hr].
    + apply list_elem_of_fmap in Hr as (r & -> & Hr).
      destruct (prepared_linked r rg Hr Hrg _ _ Hp) as [nm Hnm]. by eapply Hfst.
    + rewrite (proj2 (prepared_registry _ _ Hr) Hrg) in Hp. apply prepared_registry in Hrg as [Hrg Ht]; [|done].
      assert (Hni : name ∉ src_Name <$> cfg_Sources cfg).
      { intros (src & -> & Hin)%list_elem_of_fmap.
        destruct (upserted_ids _ _ _ _ Hnd Hup) as (_ & _ & Hsrc). destruct (Hsrc src Hin) as (id & Hid & _ & Hs1 & _).
        destruct Hpr as [(Hs2 & _) _ _], Hrs as [_ [Hs3 _] _ _ _], Hsy as [m E4].
        unfold same_sources in *. rewrite Hs5, E4 in Hs. cbn in Hs. rewrite Hs3, Hs2, Hs1 in Hs.
        injection Hs as <-. by apply (Hfst (src_Name src)). }
      rewrite prepared_source in Hs by done. by apply (H rname rg name s pos).
Qed.
End Prepared.

Section Assemble.
Context (cfg : Config) (d : DB) (ups : list (uuid * string)) (d1 d2 d3 d4 d5 d' : DB).
Hypothesis Hready : init_ready cfg.
Hypothesis Hst : stages cfg d ups d1 d2 d3 d4 d5 d'.

(** What happens to the source table after the upsert. *)
Lemma sources_end name s :
  d_source d' !! name = Some s <->
  d_source d1 !! name = Some s /\ (so_creation_type s = CreationTypeAPI \/ so_id s ∈ fst <$> ups).
Proof using All.
  destruct Hst as [_ [(Hs2 & _) _ _] [_ [Hs3 _] _ _ _] -> Hwf4 (o5 & n5 & n5' & H5) (o6 & n6 & n6' & H6)].
  destruct (delete_registries_spec _ _ _ _ _ _ Hwf4 H5) as (Hwf5 & Hs5 & _).
  destruct (delete_sources_spec _ _ _ _ _ _ Hwf5 H6) as (_ & Hs6 & _).
  unfold same_sources in *. cbn in Hs5. rewrite Hs6, Hs5, Hs3, Hs2. done.
Qed.

(** A source that is kept keeps its entries and its sync status. *)
Lemma kept_end name s :
  d_source d' !! name = Some s ->
  (forall ty n, d_entry d' !! (so_id s, ty, n) = d_entry d2 !! (so_id s, ty, n)) /\
  d_sync d' !! so_id s = d_sync d4 !! so_id s.
Proof using All.
  intros Hs. destruct Hst as [_ [(Hs2 & _) _ _] [_ [Hs3 [He3 _]] _ _ _] E4 Hwf4 (o5 & n5 & n5' & H5) (o6 & n6 & n6' & H6)].
  destruct (delete_registries_spec _ _ _ _ _ _ Hwf4 H5) as (Hwf5 & Hs5 & [He5 Hy5] & _).
  destruct (delete_sources_spec _ _ _ _ _ _ Hwf5 H6) as (_ & Hs6 & He6 & Hy6).
  apply Hs6 in Hs as [Hs Hk].
  assert (Hstale : so_id s ∉ stale_sources (fst <$> ups) d5).
  { rewrite (stale_spec _ _ name s); [|apply Hwf5|done]. intros [Hc Hn]. destruct Hk; [congruence|done]. }
  split.
  - intros ty n. rewrite He6, decide_False by done. rewrite He5, E4. cbn. by rewrite He3.
  - rewrite Hy6, decide_False by done. by rewrite Hy5.
Qed.

Lemma source_done src : src ∈ cfg_Sources cfg -> exists id,
  d_source d' !! src_Name src = Some (stored d src id) /\
  (forall s, d_source d !! src_Name src = Some s -> so_id s = id) /\
  (forall ty n, d_entry d' !! (id, ty, n) = reclaim (SerializeClaims (src_Claims src)) <$> d_entry d !! (id, ty, n)) /\
  d_sync d' !! id = Some (default (initial_sync src) (d_sync d !! id)).
Proof using All.
  intros Hin. pose proof (ir_names _ Hready) as Hnd.
  pose proof (upserted_ids _ _ _ _ Hnd (sg_upserted _ _ _ _ _ _ _ _ _ Hst)) as (Hinj & Hiff & Hsrc).
  destruct (Hsrc src Hin) as (id & Hid & Hfst & Hs1 & Hold). exists id.
  assert (Hs' : d_source d' !! src_Name src = Some (stored d src id)) by (apply sources_end; auto).
  split; [done|]. split; [done|]. destruct (kept_end _ _ Hs') as [He Hy]. cbn in He, Hy.
  destruct Hst as [[_ _ [[He1 Hy1] _] _ _] [(_ & _ & Hy2 & _) _ Hp] [_ [_ [_ Hy3]] _ _ _] E4 _ _ _]. split.
  - intros ty n. rewrite He, (Hp src id) by done. by rewrite He1.
  - rewrite Hy, E4. cbn. destruct (init_syncs_spec
      (initial_of (ids_of ups) <$> cfg_Sources cfg)
      (d_sync d3)) as [_ Hi].
    { apply sync_rows_nodup; [done|done|]. intros src' Hin'. destruct (Hsrc src' Hin') as (? & ? & _). eauto. }
    unfold initial_sync. destruct (getInitialSyncStatus (IsNonSyncedSource src) (GetType src)) as [st msg] eqn:Eg.
    rewrite (Hi id st msg).
    + by rewrite Hy3, Hy2, Hy1.
    + apply list_elem_of_fmap. exists src. unfold initial_of. rewrite Hid, Eg. done.
Qed.

Lemma other_done name s : name ∉ src_Name <$> cfg_Sources cfg ->
  (d_source d' !! name = Some s <-> d_source d !! name = Some s /\ so_creation_type s = CreationTypeAPI) /\
  (d_source d' !! name = Some s ->
     d_sync d' !! so_id s = d_sync d !! so_id s /\
     forall ty n, d_entry d' !! (so_id s, ty, n) = d_entry d !! (so_id s, ty, n)).
Proof using All.
  intros Hni. pose proof (ir_names _ Hready) as Hnd.
  pose proof (upserted_ids _ _ _ _ Hnd (sg_upserted _ _ _ _ _ _ _ _ _ Hst)) as (Hinj & Hiff & Hsrc).
  destruct (sg_upserted _ _ _ _ _ _ _ _ _ Hst) as [Hn Hwf1 [[He1 Hy1] _] Hrest Hrow].
  assert (E1 : d_source d1 !! name = d_source d !! name).
  { apply Hrest. unfold buildBulkUpsertParams. by rewrite <-list_fmap_compose. }
  assert (Hid : forall s0, d_source d1 !! name = Some s0 ->
    so_id s0 ∉ fst <$> ups /\ forall n id, ids_of ups !! n = Some id -> so_id s0 <> id)
    by (intros s0; by eapply unconfigured_id; [| apply Hst|]).
  split.
  - rewrite sources_end, <-E1. split; [|naive_solver]. intros [Hs [?|Hk]]; [done|]. by apply Hid in Hs as [? _].
  - intros Hs'. destruct (kept_end _ _ Hs') as [He Hy]. apply sources_end in Hs' as [Hs1 _].
    destruct Hst as [_ [(_ & _ & Hy2 & _) Hp _] [_ [_ [_ Hy3]] _ _ _] E4 _ _ _]. split.
    + rewrite Hy, E4. cbn. destruct (init_syncs_spec
        (initial_of (ids_of ups) <$> cfg_Sources cfg)
        (d_sync d3)) as [Hi _].
      { apply sync_rows_nodup; [done|done|]. intros src' Hin'. destruct (Hsrc src' Hin') as (? & ? & _). eauto. }
      rewrite Hi; [by rewrite Hy3, Hy2, Hy1|].
      rewrite <-list_fmap_compose. intros (src & E & Hin)%list_elem_of_fmap. cbn in E.
      destruct (Hsrc src Hin) as (id & Hidn & _). rewrite Hidn in E. by apply (proj2 (Hid s Hs1) _ _ Hidn).
    + intros ty n. rewrite He, Hp; [by rewrite He1|]. intros src Hin Hn2. by apply (proj2 (Hid s Hs1) _ _ Hn2).
Qed.

Lemma registry_done r : r ∈ cfg_Registries cfg -> exists rg,
  d_registry d' !! reg_Name r = Some rg /\ rg_claims rg = SerializeClaims (reg_Claims r) /\
  (forall old, d_registry d !! reg_Name r = Some old ->
     rg_id rg = rg_id old /\ rg_creation_type rg = rg_creation_type old) /\
  (forall sid pos, d_registry_source d' !! (rg_id rg, sid) = Some pos <->
     exists k name s, last_at (reg_Sources r) k name /\ d_source d' !! name = Some s /\
       so_id s = sid /\ pos = Z.of_nat k).
Proof using All.
  intros Hin. pose proof (ir_names _ Hready) as Hnd.
  pose proof (upserted_ids _ _ _ _ Hnd (sg_upserted _ _ _ _ _ _ _ _ _ Hst)) as (Hinj & Hiff & Hsrc).
  pose proof (ir_links _ Hready) as Hl. rewrite Forall_forall in Hl. pose proof (Hl r Hin) as Hnames.
  pose proof sources_end as Hend.
  destruct Hst as [[_ _ [_ [Hr1 _]] _ _] [(_ & [Hr2 _] & _) _ _] [_ _ Hreg _ _] E4 Hwf4 (o5 & n5 & n5' & H5) (o6 & n6 & n6' & H6)].
  destruct (Hreg r Hin) as [(rg & Hrg & Hc & Hold & Hlinks)].
  destruct (delete_registries_spec _ _ _ _ _ _ Hwf4 H5) as (Hwf5 & _ & _ & Hrow5 & Hlink5).
  destruct (delete_sources_spec _ _ _ _ _ _ Hwf5 H6) as ([Hr6 Hl6] & _).
  assert (Hrg5 : d_registry d5 !! reg_Name r = Some rg).
  { apply Hrow5. rewrite E4. split; [done|]. right. by apply list_elem_of_fmap_2. }
  exists rg. rewrite Hr6, Hl6. split; [done|]. split; [done|]. split.
  - intros old Ho. rewrite Hr2, Hr1, Ho in Hold. done.
  - intros sid pos. rewrite (Hlink5 _ _ sid Hrg5), E4. cbn. rewrite Hlinks. split.
    + intros (k & name & Hk & Hid & ->). apply Hiff in Hid as (src & Hsl & <- & Hs1).
      exists k, (src_Name src), (stored d src sid). split; [done|]. split; [|done].
      apply Hend. split; [done|]. right. destruct (Hsrc src Hsl) as (id & _ & Hf & Hs2 & _).
      rewrite Hs2 in Hs1. by injection Hs1 as ->.
    + intros (k & name & s & Hk & Hs & <- & ->). exists k, name. split; [done|]. split; [|done].
      apply Hiff. assert (Hn : name ∈ reg_Sources r) by (destruct Hk; by eapply list_elem_of_lookup_2).
      apply Hnames, list_elem_of_fmap in Hn as (src & -> & Hsl).
      destruct (Hsrc src Hsl) as (id & Hid & _ & Hs2 & _). apply Hend in Hs as [Hs _].
      exists src. split; [done|]. split; [done|]. rewrite Hs2 in Hs. injection Hs as <-. exact Hs2.
Qed.

Lemma registry_other_done name rg : name ∉ reg_Name <$> cfg_Registries cfg ->
  (d_registry d' !! name = Some rg <-> d_registry d !! name = Some rg /\ rg_creation_type rg = CreationTypeAPI) /\
  (d_registry d' !! name = Some rg -> forall sid,
     d_registry_source d' !! (rg_id rg, sid) = d_registry_source d !! (rg_id rg, sid)).
Proof using Hst.
  intros Hni. destruct Hst as [Hup Hpr Hrs E4 Hwf4 (o5 & n5 & n5' & H5) (o6 & n6 & n6' & H6)].
  destruct (delete_registries_spec _ _ _ _ _ _ Hwf4 H5) as (Hwf5 & _).
  destruct (delete_sources_spec _ _ _ _ _ _ Hwf5 H6) as ([Hr6 Hl6] & _). rewrite Hr6, Hl6.
  eapply prepared_registry; eauto.
Qed.
End Assemble.

(** *** Progress *)

(** When start-up can go through. *)
Record init_possible (cfg : Config) (d : DB) : Prop := {
  ip_names : no_conflict (src_Name <$> cfg_Sources cfg) d;
  ip_managed : no_managed_conflict (cfg_Sources cfg) d;
  ip_links : no_stale_links cfg d }.

Section Progress.
Context (o : Oracle).
Hypothesis Ho : forall k, o k = None.

Lemma propagate_succeeds l ids : succeeds o (propagateSourceClaimsToEntries l ids).
Proof using Ho.
  apply for_each_succeeds. intros src _. destruct (ids !! src_Name src); [|apply ret_succeeds].
  apply wrapping_succeeds, (query_succeeds o Ho (fun d => ((), _))).
Qed.

Lemma link_succeeds ids rid l k : (forall name, name ∈ l -> is_Some (ids !! name)) -> succeeds o (link_sources ids rid k l).
Proof using Ho.
  revert k. induction l as [|name l IH]; intros k H; cbn [link_sources]; [apply ret_succeeds|].
  destruct (H name) as [id ->]; [set_solver|]. apply bind_succeeds.
  - apply wrapping_succeeds, (query_succeeds o Ho (fun d => ((), _))).
  - intros _. apply IH. set_solver.
Qed.

Lemma registries_succeed regs ids :
  (forall r name, r ∈ regs -> name ∈ reg_Sources r -> is_Some (ids !! name)) ->
  succeeds o (upsertRegistryRowsAndLinks regs ids).
Proof using Ho.
  intros H. apply for_each_succeeds. intros r Hr. apply bind_succeeds; [|intros rg; apply bind_succeeds].
  - apply wrapping_succeeds. intros n d. unfold UpsertRegistry.
    destruct (d_registry d !! reg_Name r) eqn:E; eexists _, (S n), _; apply (query_fine o Ho); by rewrite E.
  - apply wrapping_succeeds, (query_succeeds o Ho (fun d => ((), _))).
  - intros _. apply link_succeeds. eauto.
Qed.

Lemma checks_pass names l n d :
  no_conflict names d -> no_managed_conflict l d ->
  exists m1 m2, checkForAPIRegistryConflicts names o n d = (Ok (), m1, d) /\ checkManagedSourceLimit l o m1 d = (Ok (), m2, d).
Proof using Ho.
  intros Hc Hm. apply api_sources_none in Hc. exists (S n). unfold checkForAPIRegistryConflicts, checkManagedSourceLimit.
  fold (has_managed l). unfold mbind, Q_bind, wrapping, GetAPISourcesByNames, GetManagedSources, select, query.
  rewrite !Ho. cbn [fst snd]. fold (api_sources names d). rewrite Hc.
  destruct (has_managed l) eqn:E; [|by exists (S n)]. exists (S (S n)). split; [done|].
  rewrite ?Ho. cbv beta iota. by rewrite (proj2 (managed_conflict_none d) (Hm E)).
Qed.

Lemma Initialize_runs cfg n d :
  init_ready cfg -> wf_ids d -> links_owned d -> init_possible cfg d ->
  exists n' d', Initialize now cfg o n d = (Ok (), n', d').
Proof using Ho.
  intros Hready Hwf Hown [Hc Hm Hl]. pose proof Hready as [Hne Hnd Hndr Hlk].
  destruct (checks_pass _ _ (S n) d Hc Hm) as (m1 & m2 & E1 & E2).
  destruct (bulk_upsert now (buildBulkUpsertParams (cfg_Sources cfg)) d) as [ups d1] eqn:E3.
  assert (Hnames : NoDup (fst <$> buildBulkUpsertParams (cfg_Sources cfg))).
  { unfold buildBulkUpsertParams. by rewrite <-list_fmap_compose. }
  apply bulk_upsert_spec in E3 as Hup; [|done|done|].
  2:{ unfold buildBulkUpsertParams. apply Forall_fmap, Forall_forall. intros src Hin. split; [done|].
      intros s. apply Hc. change (src_Name src ∈ src_Name <$> cfg_Sources cfg). by apply list_elem_of_fmap_2. }
  destruct (upserted_ids _ _ _ _ Hnd Hup) as (Hinj & _ & Hsrc).
  destruct (propagate_succeeds (cfg_Sources cfg) (ids_of ups) (S m2) d1) as ([] & m4 & d2 & E4).
  assert (Hids : forall r name, r ∈ cfg_Registries cfg -> name ∈ reg_Sources r -> is_Some (ids_of ups !! name)).
  { intros r name Hr Hn. rewrite Forall_forall in Hlk. apply (Hlk r Hr), list_elem_of_fmap in Hn as (src & -> & Hin).
    destruct (Hsrc src Hin) as (id & Hid & _). eauto. }
  destruct (registries_succeed _ _ Hids m4 d2) as ([] & m5 & d3 & E5).
  apply propagate_spec in E4 as Hpr; [|done|done].
  apply registries_spec in E5 as Hrs; [|eapply propagated_wf; [apply Hup|done]|done|done].
  set (d4 := set_sync d3 (init_syncs now (initial_of (ids_of ups) <$> cfg_Sources cfg) (d_sync d3))).
  assert (Hwf4 : wf_ids d4) by (destruct (rs_wf _ _ _ _ Hrs); by constructor).
  destruct (query_succeeds o Ho (fun d => _) (S m5) d4 : exists a n' d',
    DeleteConfigRegistriesNotInList (reg_Name <$> cfg_Registries cfg) o (S m5) d4 = (Ok a, n', d'))
    as ([] & m6 & d5 & E6).
  assert (Hr : restricted (fst <$> ups) d5 = false) by (eapply restricted_iff; eauto; by eexists).
  exists (S (S m6)), (cascade_sources (stale_sources (fst <$> ups) d5) d5). apply transaction_gen_fine; [done|].
  destruct (Nat.eqb_spec (List.length (cfg_Sources cfg)) 0) as [E0|_]; [by destruct (cfg_Sources cfg)|].
  apply bind_run_ok. exists tt, m1, d. split; [done|]. apply bind_run_ok. exists tt, m2, d. split; [done|].
  apply bind_run_ok. exists ups, (S m2), d1. split; [apply (query_fine o Ho); by rewrite decide_True, E3|].
  rewrite <-(length_fmap snd ups), (up_names _ _ _ _ _ Hup). unfold buildBulkUpsertParams at 1.
  rewrite !length_fmap, Nat.eqb_refl. cbn [negb]. fold (ids_of ups).
  apply bind_run_ok. exists tt, m4, d2. split; [done|]. apply bind_run_ok. exists tt, m5, d3. split; [done|].
  apply bind_run_ok. exists tt, (S m5), d4. split; [by apply (query_fine o Ho)|].
  apply bind_run_ok. exists tt, m6, d5. split; [unfold wrapping; by rewrite E6|].
  apply (query_fine o Ho). cbv beta zeta. fold (restricted (fst <$> ups) d5). by rewrite Hr.
Qed.
End Progress.

Lemma Initialize_needs cfg o n d n' d' :
  init_ready cfg -> wf_ids d -> links_owned d -> Initialize now cfg o n d = (Ok (), n', d') -> init_possible cfg d.
Proof.
  intros Hready Hwf Hown H. destruct (Initialize_stages _ _ _ _ _ _ Hready Hwf H)
    as (Hc & Hm & ups & d1 & d2 & d3 & d4 & d5 & [Hup Hpr Hrs E4 Hwf4 (o5 & n5 & n5' & H5) (o6 & n6 & n6' & H6)]).
  constructor; [done|done|]. eapply restricted_iff; eauto.
  apply query_run_ok in H6. cbv zeta in H6. fold (restricted (fst <$> ups) d5) in H6. by destruct (restricted _ _).
Qed.

Lemma removed_wf keep o n d n' d' :
  wf_ids d -> links_owned d -> DeleteConfigSourcesNotInList keep o n d = (Ok (), n', d') -> wf_ids d' /\ links_owned d'.
Proof.
  intros Hwf Hown H. pose proof H as Hq. apply query_run_ok in Hq. cbv zeta in Hq. destruct (existsb _ _); [done|].
  injection Hq as <-. apply delete_sources_spec in H as (_ & Hs & _); [|done]. destruct Hwf as [H1 H2 H3 H4].
  split; [|exact Hown]. split; [| |exact H3|exact H4].
  - intros n1 n2 s1 s2 [Hs1 _]%Hs [Hs2 _]%Hs. by apply H1.
  - intros name s [Hs1 _]%Hs. by apply (H2 name).
Qed.

(** A successful start-up, with the ids it leaves. *)
Lemma Initialize_done cfg o n d n' d' :
  init_ready cfg -> wf_ids d -> links_owned d -> Initialize now cfg o n d = (Ok (), n', d') ->
  initialized cfg d d' /\ wf_ids d' /\ links_owned d'.
Proof.
  intros Hready Hwf Hown H. destruct (Initialize_stages _ _ _ _ _ _ Hready Hwf H) as (_ & _ & ups & d1 & d2 & d3 & d4 & d5 & Hst).
  split; [constructor; intros|].
  - by eapply source_done.
  - by eapply other_done.
  - by eapply registry_done.
  - by eapply registry_other_done.
  - destruct Hst as [Hup [(_ & [Hr Hl] & _) _ _] Hrs -> Hwf4 (o5 & n5 & n5' & H5) (o6 & n6 & n6' & H6)].
    destruct (up_same _ _ _ _ _ Hup) as [_ [Hr1 Hl1]].
    assert (Hown3 : links_owned d3).
    { apply (rs_owned _ _ _ _ Hrs). unfold links_owned. by rewrite Hr, Hl, Hr1, Hl1. }
    pose proof (delete_registries_spec _ _ _ _ _ _ Hwf4 H5) as (Hwf5 & _).
    eapply removed_wf; [exact Hwf5|by eapply delete_registries_owned|exact H6].
Qed.

(** C16. Start-up with a configuration that has sources, with names of their own,
    registries with names of their own, and registries that name configured
    sources only (what validation gives), makes the database match it: afterwards
    every configured source has its row (with the id it had, if it had one), its
    entries carry its claims and it has a sync status, an old one untouched, a new
    one started at that time; every configured registry links exactly its sources,
    each at the last place it is named; sources and registries of an older
    configuration are gone; what the API created under other names is unchanged.
    A start-up that fails changes nothing; and while the database works it
    succeeds exactly when no API source has a configured name, no API source is
    managed beside a configured managed one, and no API registry links a source
    that is to go.  The ids of the database are taken to be unique and its links to
    belong to registries, as its keys make them. *)
Theorem Initialize_correct cfg o n d res n' d' :
  init_ready cfg -> wf_ids d -> links_owned d -> Initialize now cfg o n d = (res, n', d') ->
  match res with
  | Ok _ => initialized cfg d d'
  | Err _ => d' = d
  end /\
  ((forall k, o k = None) -> res = Ok () <-> init_possible cfg d).
Proof.
  intros Hready Hwf Hown H. split.
  - destruct res as [[]|e]; [by eapply Initialize_done|by apply transaction_plain_atomic in H].
  - intros Ho. split; [intros ->; by eapply Initialize_needs|].
    intros Hp. destruct (Initialize_runs o Ho cfg n d Hready Hwf Hown Hp) as (n1 & d1 & E). congruence.
Qed.

(** The cache of configurations is keyed by their names: what the job queue
    relies on. *)
Lemma sourceConfigsMap_named cfg : configs_named (sourceConfigsMap cfg).
Proof.
  unfold sourceConfigsMap, configs_named.
  assert (Hgen : forall l (m : gmap string SourceConfig), (forall name c, m !! name = Some c -> src_Name c = name) ->
    forall name c, foldl (fun m src => <[src_Name src := src]> m) m l !! name = Some c -> src_Name c = name).
  { induction l as [|src l IH]; intros m Hm; [done|]. cbn [foldl]. apply IH.
    intros name c [[<- <-]|[_ H]]%lookup_insert_Some; [done|by apply Hm]. }
  apply Hgen. intros name c. by rewrite lookup_empty.
Qed.

(** Start-up overwrites what it did not write.  An entry that exists under
    a configured source, whatever its type, loses its own claims for those of
    the source: claims given on publishing or in a CRD annotation do not survive
    a restart.  A registry created through the API under a configured name gets
    the configured claims and links, and stays an API registry. *)
Lemma Initialize_overwrites cfg o n d n' d' :
  init_ready cfg -> wf_ids d -> Initialize now cfg o n d = (Ok (), n', d') ->
  (forall src s ty name e, src ∈ cfg_Sources cfg -> d_source d !! src_Name src = Some s ->
     d_entry d !! (so_id s, ty, name) = Some e ->
     d_entry d' !! (so_id s, ty, name) =
       Some {| en_id := en_id e; en_claims := SerializeClaims (src_Claims src) |}) /\
  (forall r old, r ∈ cfg_Registries cfg -> d_registry d !! reg_Name r = Some old ->
     rg_creation_type old = CreationTypeAPI ->
     d_registry d' !! reg_Name r = Some {| rg_id := rg_id old; rg_creation_type := CreationTypeAPI;
                                           rg_claims := SerializeClaims (reg_Claims r) |}).
Proof.
  intros Hready Hwf H.
  destruct (Initialize_stages _ _ _ _ _ _ Hready Hwf H) as (_ & _ & ups & d1 & d2 & d3 & d4 & d5 & Hst). split.
  - intros src s ty name e Hin Hs He.
    edestruct source_done as (id & _ & Hid & Hent & _); [done|done|exact Hin|].
    rewrite (Hid s Hs), Hent, <-(Hid s Hs), He. done.
  - intros r old Hin Ho Ht.
    edestruct registry_done as (rg & Hrg & Hc & Hold & _); [done|done|exact Hin|].
    destruct (Hold old Ho) as [Hi Hct]. rewrite Hrg. destruct rg as [i t c]. cbn in *. congruence.
Qed.
End Stages.

(** A second start: one managed source with a published entry that has claims
    of its own, a source of an older configuration, and an API registry whose
    name the configuration now uses. *)
Module InitializeExample.
#[local] Existing Instance ClaimsJson.codec.

#[export] Instance marshal : ConfigMarshal :=
  {| marshal_git := fun _ => Some "{}"; marshal_api := fun _ => Some "{}"; marshal_file := fun _ => Some "{}";
     marshal_managed := fun _ => Some "{}"; marshal_kubernetes := fun _ => Some "{}";
     marshal_filter := fun _ => Some "{}" |}.

Definition acme : claims := {[ "org" := VString "acme" ]}.
Definition team : claims := {[ "org" := VString "acme"; "team" := VString "data" ]}.

Definition managed : SourceConfig :=
  {| src_Name := "internal"; src_Git := None; src_API := None; src_File := None; src_Managed := Some Build_ManagedConfig;
     src_Kubernetes := None; src_SyncPolicy := None; src_Filter := None; src_Claims := Some acme |}.
Definition git : SourceConfig :=
  {| src_Name := "community";
     src_Git := Some {| git_Repository := "https://git.example/r"; git_Branch := ""; git_Tag := "";
                        git_Commit := ""; git_Path := ""; git_Auth := None |};
     src_API := None; src_File := None; src_Managed := None; src_Kubernetes := None;
     src_SyncPolicy := Some {| sp_Interval := "30m" |}; src_Filter := None; src_Claims := None |}.
Definition all : RegistryConfig :=
  {| reg_Name := "all"; reg_Claims := Some acme; reg_Sources := ["internal"; "community"] |}.
Definition cfg : Config :=
  {| cfg_Sources := [managed; git]; cfg_Registries := [all]; cfg_Database := None; cfg_Auth := None;
     cfg_Audit := None; cfg_insecureAllowHTTP := false; cfg_compressResponse := false;
     cfg_WatchNamespace := ""; cfg_LeaderElectionID := "" |}.

Definition row (id : uuid) (t : SourceType) : SourceRow :=
  {| so_id := id; so_creation_type := CreationTypeCONFIG; so_source_type := t; so_source_config := "{}";
     so_filter_config := ""; so_sync_schedule := None; so_syncable := false; so_claims := SerializeClaims (Some acme); so_created_at := 0 |}.
Definition published : EntryRow := {| en_id := 4; en_claims := SerializeClaims (Some team) |}.
Definition api_registry : RegistryRow :=
  {| rg_id := 3; rg_creation_type := CreationTypeAPI; rg_claims := SerializeClaims (Some team) |}.
Definition d0 : DB :=
  {| d_next := 5; d_source := {[ "internal" := row 1 SourceTypeManaged; "retired" := row 2 SourceTypeFile ]};
     d_registry := {[ "all" := api_registry ]}; d_registry_source := {[ (3, 1)%nat := 0%Z ]};
     d_entry := {[ (1%nat, EntryTypeMCP, "io.acme/db") := published ]};
     d_version := ∅; d_latest := ∅; d_server := ∅; d_package := ∅; d_remote := ∅; d_icon := ∅;
     d_sync := {[ 1%nat := initial_row 0 SyncStatusCOMPLETED "" ]}; d_skill := ∅; d_plugin := ∅ |}.

Definition no_fault : Oracle := fun _ => None.
Definition after : DB := snd (Initialize 7 cfg no_fault 0 d0).

Lemma cfg_ready : init_ready cfg.
Proof.
  constructor; [done|by apply (bool_decide_unpack _); vm_compute..|].
  apply Forall_singleton.
  intros name Hin. cbn in *. set_solver.
Qed.

Lemma old_sources name s : d_source d0 !! name = Some s ->
  (name = "internal" /\ so_id s = 1%nat) \/ (name = "retired" /\ so_id s = 2%nat).
Proof.
  cbn. intros [[<- <-]|[_ H]]%lookup_insert_Some; [by left|].
  apply lookup_singleton_Some in H as [<- <-]. by right.
Qed.

Lemma d0_ids : wf_ids d0.
Proof.
  constructor.
  - intros n1 n2 s1 s2 H1%old_sources H2%old_sources E. naive_solver congruence.
  - intros name s H%old_sources. cbn. lia.
  - intros n1 n2 r1 r2. cbn [d0 d_registry]. intros [<- _]%lookup_singleton_Some [<- _]%lookup_singleton_Some _. done.
  - intros name r. cbn [d0 d_registry]. intros [<- <-]%lookup_singleton_Some. cbn. lia.
Qed.

Lemma d0_owned : links_owned d0.
Proof.
  intros rid sid pos H. cbn [d0 d_registry_source] in H. apply lookup_singleton_Some in H as [[= <- _] _].
  exists "all", api_registry. by vm_compute.
Qed.

Lemma Initialize_correct_witness : initialized 7 cfg d0 after /\ init_possible cfg d0.
Proof.
  destruct (Initialize_correct 7 cfg no_fault 0 d0 (Ok ()) (snd (fst (Initialize 7 cfg no_fault 0 d0))) after
    cfg_ready d0_ids d0_owned) as [H1 H2]; [vm_compute; reflexivity|].
  split; [exact H1|apply H2; done].
Defined.

Lemma Initialize_overwrites_witness :
  d_entry after !! (1%nat, EntryTypeMCP, "io.acme/db") =
    Some {| en_id := 4; en_claims := SerializeClaims (Some acme) |} /\
  SerializeClaims (Some acme) <> en_claims published.
Proof.
  split; [|vm_compute; congruence].
  refine (proj1 (Initialize_overwrites 7 cfg no_fault 0 d0 (snd (fst (Initialize 7 cfg no_fault 0 d0))) after cfg_ready d0_ids _)
    managed (row 1 SourceTypeManaged) EntryTypeMCP "io.acme/db" published _ _ _); vm_compute; try reflexivity.
  left.
Defined.
End InitializeExample.
