(* ===== verification/Sources.v ===== *)
(** * Source administration

    [internal/service/db/impl_source.go]: creating, updating, deleting, reading
    and listing sources through the API, the processing of inline data, and the
    request type with its validation ([internal/service/source_types.go],
    [validation.go]); the registry-data validator of
    [internal/sources/types.go]; the handlers of [internal/api/v1/sources.go].

    The JSON of source blocks is the interface [ConfigMarshal] / [ConfigCodec],
    the JSON schema and decoder of registry data is [RegistryParser]. *)

From stdpp Require Import base list strings gmap sets sorting.
From Stdlib Require Import String ZArith Lia.
From S2P Require Import Prelude GoStrings Validators Claims Codec ConfigTypes Durations Config Auth ClaimsGate.
From S2P Require Import Upstream Database Entries Streaming Sync Initialize.

Local Open Scope string_scope.
Local Open Scope list_scope.

(** ** The request *)

Record SourceCreateRequest := {
  sr_Git : option GitConfig;
  sr_API : option APIConfig;
  sr_File : option FileConfig;
  sr_Managed : option ManagedConfig;
  sr_Kubernetes : option KubernetesConfig;
  sr_SyncPolicy : option SyncPolicyConfig;
  sr_Filter : option FilterConfig;
  sr_Claims : option claims }.

Definition GetSourceType (r : SourceCreateRequest) : SourceType :=
  match sr_Git r, sr_API r, sr_File r, sr_Managed r, sr_Kubernetes r with
  | Some _, _, _, _, _ => SourceTypeGit
  | None, Some _, _, _, _ => SourceTypeAPI
  | None, None, Some _, _, _ => SourceTypeFile
  | None, None, None, Some _, _ => SourceTypeManaged
  | None, None, None, None, Some _ => SourceTypeKubernetes
  | None, None, None, None, None => SourceTypeNone
  end.

Definition one_if {A} (o : option A) : nat := match o with Some _ => 1%nat | None => 0%nat end.

Definition CountSourceTypes (r : SourceCreateRequest) : nat :=
  (one_if (sr_Git r) + one_if (sr_API r) + one_if (sr_File r) + one_if (sr_Managed r) +
   one_if (sr_Kubernetes r))%nat.

Definition IsInlineData (r : SourceCreateRequest) : bool :=
  match sr_File r with Some f => negb (String.eqb (file_Data f) "") | None => false end.

Definition IsNonSyncedType (r : SourceCreateRequest) : bool :=
  let sourceType := GetSourceType r in
  if bool_decide (sourceType = SourceTypeManaged) || bool_decide (sourceType = SourceTypeKubernetes) then true
  else if IsInlineData r then true
  else false.

(** ** Registry data *)

(** [toolhivetypes.ValidateUpstreamRegistryBytes], then [json.Unmarshal]; [None]
    is the error of either. *)
Class RegistryParser := { parse_registry : string -> option UpstreamRegistry }.

Section Validate.
Context `{Fs : FileSystem} `{RP : RegistryParser}.

Definition server_fields (server : ServerJSON) : result () :=
  if String.eqb (sj_Name server) "" then Err (EMsg "server at index %d: name is required")
  else if String.eqb (sj_Description server) "" then Err (EMsg "server at index %d (%s): description is required")
  else Ok ().

Definition validateUpstreamFormatAndParse (data : string) : result UpstreamRegistry :=
  match parse_registry data with
  | None => Err (EMsg "failed to parse upstream registry format")
  | Some reg =>
      if (List.length (ur_Servers reg) =? 0)%nat
      then Err (EMsg "upstream registry must contain at least one server")
      else for_each server_fields (ur_Servers reg) ;;; Ok reg
  end.

Definition ValidateData (data : string) : result UpstreamRegistry :=
  if String.eqb data "" then Err (EMsg "data cannot be empty") else validateUpstreamFormatAndParse data.

Definition ValidateInlineDataBasic (data : string) : result () :=
  if String.eqb data "" then Err (EMsg "data cannot be empty") else ValidateData data ;;; Ok ().

(** ** Validation of a request *)

Definition count_set (l : list string) : nat := List.length (List.filter (fun s => negb (String.eqb s "")) l).

Definition validateGitConfig (cfg : option GitConfig) : result () :=
  match cfg with
  | None => Err (EMsg "git config is required")
  | Some cfg =>
      if String.eqb (git_Repository cfg) "" then Err (EMsg "git.repository is required")
      else if (1 <? count_set [git_Branch cfg; git_Tag cfg; git_Commit cfg])%nat
      then Err (EMsg "git.branch, git.tag, and git.commit are mutually exclusive")
      else match git_Auth cfg with Some a => GitAuth_Validate (Some a) | None => Ok () end
  end.

Definition validateAPIConfig (cfg : option APIConfig) : result () :=
  match cfg with
  | None => Err (EMsg "api config is required")
  | Some cfg =>
      if String.eqb (api_Endpoint cfg) "" then Err (EMsg "api.endpoint is required")
      else ValidateAPITimeout (api_Timeout cfg)
  end.

Definition validateFileConfig (cfg : option FileConfig) : result () :=
  match cfg with
  | None => Err (EMsg "file config is required")
  | Some cfg =>
      let sourceCount := count_set [file_Path cfg; file_URL cfg; file_Data cfg] in
      if (sourceCount =? 0)%nat then Err (EMsg "file.path, file.url, or file.data is required")
      else if (1 <? sourceCount)%nat then Err (EMsg "file.path, file.url, and file.data are mutually exclusive")
      else
        (if negb (String.eqb (file_Timeout cfg) "") then
           if String.eqb (file_URL cfg) ""
           then Err (EMsg "file.timeout is only applicable when file.url is specified")
           else Duration.ParseDuration (file_Timeout cfg) ;;; Ok ()
         else Ok ()) ;;;
        (if negb (String.eqb (file_Data cfg) "") then ValidateInlineDataBasic (file_Data cfg) else Ok ())
  end.

Definition validateSourceSpecific (req : SourceCreateRequest) : result () :=
  match GetSourceType req with
  | SourceTypeGit => validateGitConfig (sr_Git req)
  | SourceTypeAPI => validateAPIConfig (sr_API req)
  | SourceTypeFile => validateFileConfig (sr_File req)
  | SourceTypeManaged => Ok ()
  | SourceTypeKubernetes => Ok ()
  | SourceTypeNone => Err (EMsg "unknown source type")
  end.

Definition ValidateSourceConfig (req : SourceCreateRequest) : result () :=
  let sourceCount := CountSourceTypes req in
  if (sourceCount =? 0)%nat then Err (EMsg "one of git, api, file, managed, or kubernetes must be specified")
  else if (1 <? sourceCount)%nat then Err (EMsg "only one source type may be specified")
  else
    (if negb (IsNonSyncedType req) then
       match sr_SyncPolicy req with
       | None => Err (EMsg "syncPolicy.interval is required for %s registries")
       | Some p =>
           if String.eqb (sp_Interval p) "" then Err (EMsg "syncPolicy.interval is required for %s registries")
           else Duration.ParseDuration (sp_Interval p) ;;; Ok ()
       end
     else Ok ()) ;;;
    validateSourceSpecific req.
End Validate.

(** ** Queries *)

Definition InsertSource (name : string) (row : uuid -> SourceRow) : Q SourceRow :=
  query (fun d =>
    match d_source d !! name with
    | Some _ => Err unique_violation
    | None =>
        let id := d_next d in
        let d := set_next d (S id) in
        Ok (row id, set_source d (<[name := row id]> (d_source d)))
    end).

(** UPDATE source SET ... WHERE name = $1 RETURNING *: the id, the creation type
    and the time of creation stay. *)
Definition UpdateSourceRow (name : string) (row : uuid -> CreationType -> Z -> SourceRow) : Q SourceRow :=
  query (fun d =>
    match d_source d !! name with
    | None => Err no_rows
    | Some s =>
        let s' := row (so_id s) (so_creation_type s) (so_created_at s) in
        Ok (s', set_source d (<[name := s']> (d_source d)))
    end).

Definition registry_links (sid : uuid) (d : DB) : list ((uuid * uuid) * Z) :=
  List.filter (fun kv => (snd (fst kv) =? sid)%nat) (map_to_list (d_registry_source d)).

Definition CountRegistriesBySourceID (sid : uuid) : Q nat :=
  select (fun d => Ok (List.length (registry_links sid d))).

(** DELETE FROM source WHERE name = $1, under the foreign key of the links. *)
Definition DeleteSourceRow (name : string) : Q nat :=
  query (fun d =>
    match d_source d !! name with
    | None => Ok (0%nat, d)
    | Some s =>
        if (0 <? List.length (registry_links (so_id s) d))%nat then Err (EWrap ErrPgRestrict "23503")
        else Ok (1%nat, cascade_sources {[ so_id s ]} d)
    end).

Definition GetSourceSyncByName (name : string) : Q SyncRow :=
  select (fun d => row_or_none (s ← d_source d !! name; d_sync d !! so_id s)).

(** *** ListSources: a page of sources

    With no cursor the rows come by (created_at, name) ascending; with one, the
    first two sort keys are NULL and the rows come descending. *)
Section SourceOrder.
Context `{Co : Collation}.

Definition created_le (a b : string * SourceRow) : Prop :=
  (so_created_at (snd a) < so_created_at (snd b))%Z \/
  (so_created_at (snd a) = so_created_at (snd b) /\ coll_le (fst a) (fst b)).
Definition created_ge (a b : string * SourceRow) : Prop := created_le b a.
#[export] Instance created_le_dec : RelDecision created_le.
Proof. intros a b. unfold created_le. apply _. Defined.
#[export] Instance created_ge_dec : RelDecision created_ge.
Proof. intros a b. unfold created_ge. apply _. Defined.

Definition source_page (next : option Z) (size : nat) (d : DB) : list (string * SourceRow) :=
  match next with
  | None => take size (merge_sort created_le (map_to_list (d_source d)))
  | Some t => take size (merge_sort created_ge
                (List.filter (fun r => t <? so_created_at (snd r))%Z (map_to_list (d_source d))))
  end.

Definition ListSourcesQuery (next : option Z) (size : nat) : Q (list (string * SourceRow)) :=
  select (fun d => Ok (source_page next size d)).

(** ** The service *)

Context `{C : JsonCodec} `{CM : ConfigMarshal} `{CC : ConfigCodec}.

Definition serializeSourceConfigFromRequest (req : SourceCreateRequest) : result string :=
  let data :=
    match sr_Git req, sr_API req, sr_File req, sr_Managed req, sr_Kubernetes req with
    | Some x, _, _, _, _ => marshal_git x
    | None, Some x, _, _, _ => marshal_api x
    | None, None, Some x, _, _ => marshal_file x
    | None, None, None, Some x, _ => marshal_managed x
    | None, None, None, None, Some x => marshal_kubernetes x
    | None, None, None, None, None => Some ""
    end in
  or_err "failed to serialize source config" data.

Definition serializeFilterConfigFromRequest (filter : option FilterConfig) : result string :=
  match filter with
  | None => Ok ""
  | Some f => or_err "failed to serialize filter config" (marshal_filter f)
  end.

Definition parseSyncScheduleFromRequest (req : SourceCreateRequest) : Interval.Interval :=
  match sr_SyncPolicy req with
  | None => Interval.NewNullInterval
  | Some p =>
      if String.eqb (sp_Interval p) "" then Interval.NewNullInterval
      else match Interval.ParseDuration (sp_Interval p) with
           | Ok i => i
           | Err _ => Interval.NewNullInterval
           end
  end.

(** The columns both writes take from the request. *)
Definition request_row (req : SourceCreateRequest) (sourceConfig filterConfig : string)
    (id : uuid) (creation : CreationType) (created : Z) : SourceRow :=
  {| so_id := id; so_creation_type := creation; so_source_type := GetSourceType req;
     so_source_config := sourceConfig; so_filter_config := filterConfig;
     so_sync_schedule := stored_interval (parseSyncScheduleFromRequest req);
     so_syncable := negb (IsNonSyncedType req); so_claims := SerializeClaims (sr_Claims req);
     so_created_at := created |}.

(** A source as the API returns it. *)
Inductive SourceBlock :=
| BlockGit (c : GitConfig) | BlockAPI (c : APIConfig) | BlockFile (c : FileConfig)
| BlockManaged (c : ManagedConfig) | BlockKubernetes (c : KubernetesConfig).

Record SourceSyncStatus := {
  sst_Phase : string;
  sst_LastSyncTime : option Z;
  sst_LastAttempt : option Z;
  sst_AttemptCount : Z;
  sst_ServerCount : Z;
  sst_SkillCount : Z;
  sst_PluginCount : Z;
  sst_Message : string }.

Record SourceInfo := {
  si_Name : string;
  si_CreationType : CreationType;
  si_SourceType : SourceType;
  si_SourceConfig : option SourceBlock;
  si_FilterConfig : option FilterConfig;
  si_SyncSchedule : string;
  si_Claims : claims;
  si_CreatedAt : Z;
  si_SyncStatus : option SourceSyncStatus }.

Definition deserializeSourceConfig (sourceType : SourceType) (data : string) : option SourceBlock :=
  if String.eqb data "" then None
  else match sourceType with
       | SourceTypeGit => BlockGit <$> parse_git data
       | SourceTypeAPI => BlockAPI <$> parse_api data
       | SourceTypeFile => BlockFile <$> parse_file data
       | SourceTypeManaged => BlockManaged <$> parse_managed data
       | SourceTypeKubernetes => BlockKubernetes <$> parse_kubernetes data
       | SourceTypeNone => None
       end.

Definition deserializeFilterConfig (data : string) : option FilterConfig :=
  if String.eqb data "" then None else parse_filter data.

Definition buildSourceInfo (name : string) (row : SourceRow) : SourceInfo :=
  {| si_Name := name; si_CreationType := so_creation_type row; si_SourceType := so_source_type row;
     si_SourceConfig := deserializeSourceConfig (so_source_type row) (so_source_config row);
     si_FilterConfig := deserializeFilterConfig (so_filter_config row);
     si_SyncSchedule := match so_sync_schedule row with Some d => Duration.String d | None => "" end;
     si_Claims := DeserializeClaims (so_claims row);
     si_CreatedAt := so_created_at row; si_SyncStatus := None |}.

Definition with_status (info : SourceInfo) (st : option SourceSyncStatus) : SourceInfo :=
  {| si_Name := si_Name info; si_CreationType := si_CreationType info; si_SourceType := si_SourceType info;
     si_SourceConfig := si_SourceConfig info; si_FilterConfig := si_FilterConfig info;
     si_SyncSchedule := si_SyncSchedule info; si_Claims := si_Claims info; si_CreatedAt := si_CreatedAt info;
     si_SyncStatus := st |}.

Definition convertSyncPhase (status : SyncState) : string :=
  match status with
  | SyncStatusINPROGRESS => "syncing"
  | SyncStatusCOMPLETED => "complete"
  | SyncStatusFAILED => "failed"
  end.

Definition getStatusMessage (errorMsg : option string) : string := default "" errorMsg.

Definition sync_status_of (r : SyncRow) : SourceSyncStatus :=
  {| sst_Phase := convertSyncPhase (sy_status r); sst_LastSyncTime := sy_ended_at r;
     sst_LastAttempt := sy_started_at r; sst_AttemptCount := sy_attempt_count r;
     sst_ServerCount := sy_server_count r; sst_SkillCount := sy_skill_count r;
     sst_PluginCount := sy_plugin_count r; sst_Message := getStatusMessage (sy_error_msg r) |}.

(** Every error reads as no status. *)
Definition fetchSyncStatus (sourceName : string) : Q (option SourceSyncStatus) :=
  r ← attempt (GetSourceSyncByName sourceName);
  match r with
  | Err _ => mret None
  | Ok r => mret (Some (sync_status_of r))
  end.

Definition getAPISourceInitialSyncStatus (req : SourceCreateRequest) (sourceType : SourceType)
    : SyncState * string :=
  if IsNonSyncedType req && negb (IsInlineData req)
  then (SyncStatusCOMPLETED, "Non-synced registry (type: " +:+ SourceType_string sourceType +:+ ")")
  else (SyncStatusFAILED, "No previous sync status found").

(** [fmt.Errorf("%w: %v", service.ErrInvalidSourceConfig, err)] *)
Definition invalid_config (s : sentinel) (r : result ()) : result () :=
  match r with Ok _ => Ok () | Err _ => Err (EWrap s "%v") end.

(** [callerClaims := claimsFromCtx(ctx); if s.skipAuthz { callerClaims = nil }] *)
Definition caller_claims (s : dbService) (ctx : Ctx) : option claims := gate s (claimsFromCtx ctx).

Context `{FS : FileSystem} `{RP : RegistryParser}.

(** What an error of the insert becomes. *)
Definition insert_error (isManagedSource : bool) (err : error) : error :=
  if errorIs err ErrPgUnique then EWrap ErrSourceAlreadyExists "%s"
  else if isManagedSource && errorIs err ErrPgSerialization then EWrap ErrManagedSourceLimitReached ""
  else wrapf "failed to insert source" err.

Definition commit_error (isManagedSource : bool) (err : error) : error :=
  if isManagedSource && errorIs err ErrPgSerialization then EWrap ErrManagedSourceLimitReached ""
  else wrapf "failed to commit transaction" err.

Definition CreateSource (now : Z) (s : dbService) (ctx : Ctx) (name : string) (req : SourceCreateRequest)
    : Q SourceInfo :=
  _ ← lift (invalid_config ErrInvalidSourceConfig (ValidateSourceConfig req));
  _ ← lift (validateClaimsSubset ctx (caller_claims s ctx) (claims_or_empty (sr_Claims req)));
  let isManagedSource := bool_decide (GetSourceType req = SourceTypeManaged) in
  transaction_gen (wrapf "failed to begin transaction") (commit_error isManagedSource) (
    existing ← attempt (GetSourceByName name);
    match existing with
    | Ok _ => fail (EWrap ErrSourceAlreadyExists "%s")
    | Err err =>
        if negb (errorIs err ErrNoRows) then fail (wrapf "failed to check source existence" err)
        else
          _ ← lift (invalid_config ErrInvalidSourceConfig (SourceName.ValidateSourceName name));
          _ ← (if isManagedSource then
                 managedSources ← wrapping "failed to check managed source limit" GetManagedSources;
                 if (0 <? List.length managedSources)%nat then fail (EWrap ErrManagedSourceLimitReached "")
                 else mret ()
               else mret ());
          sourceConfig ← lift (serializeSourceConfigFromRequest req);
          filterConfig ← lift (serializeFilterConfigFromRequest (sr_Filter req));
          inserted ← attempt (InsertSource name (fun id =>
            request_row req sourceConfig filterConfig id CreationTypeAPI now));
          match inserted with
          | Err err => fail (insert_error isManagedSource err)
          | Ok source =>
              _ ← wrapping "failed to initialize sync status"
                    (BulkInitializeSourceSyncs now [(so_id source, getAPISourceInitialSyncStatus req (GetSourceType req))]);
              mret (buildSourceInfo name source)
          end
    end).

(** [existing] may be the zero row of a source that is not there. *)
Definition validateSourceTypeChange (existing : option SourceRow) (newSourceType : SourceType) : result () :=
  match existing with
  | None => Ok ()
  | Some e =>
      if negb (bool_decide (so_source_type e = SourceTypeNone)) && negb (bool_decide (so_source_type e = newSourceType))
      then Err (EWrap ErrSourceTypeChangeNotAllowed "cannot change from '%s' to '%s', delete and recreate the source instead")
      else Ok ()
  end.

Definition getFileSourceSubtype (cfg : option FileConfig) : string :=
  match cfg with
  | None => "unknown"
  | Some c =>
      if negb (String.eqb (file_Path c) "") then "path"
      else if negb (String.eqb (file_URL c) "") then "url"
      else if negb (String.eqb (file_Data c) "") then "data"
      else "unknown"
  end.

Definition no_file : FileConfig := {| file_Path := ""; file_URL := ""; file_Data := ""; file_Timeout := "" |}.

Definition validateFileSourceTypeChange (existing : option SourceRow) (newConfig : SourceCreateRequest) : result () :=
  match existing with
  | None => Ok ()
  | Some e =>
      if negb (bool_decide (so_source_type e = SourceTypeFile)) then Ok ()
      else
        existingFileConfig <-
          (if String.eqb (so_source_config e) "" then Ok no_file
           else or_err "failed to parse existing file config" (parse_file (so_source_config e))) ;;
        guard_err (negb (String.eqb (getFileSourceSubtype (Some existingFileConfig))
                                    (getFileSourceSubtype (sr_File newConfig))))
          (EWrap ErrInvalidSourceConfig "cannot change file source type from '%s' to '%s', delete and recreate the source instead")
  end.

Definition classifyUpdateSourceError {A} (name : string) (err : error) : Q A :=
  if negb (errorIs err ErrNoRows) then fail (wrapf "failed to update source" err)
  else
    existing ← attempt (GetSourceByName name);
    match existing with
    | Err checkErr =>
        if errorIs checkErr ErrNoRows then fail (EWrap ErrSourceNotFound "%s")
        else fail (wrapf "failed to check source" checkErr)
    | Ok e =>
        if bool_decide (so_creation_type e = CreationTypeCONFIG) then fail (EWrap ErrConfigSource "%s")
        else fail (EWrap ErrSourceNotFound "%s")
    end.

Definition UpdateSource (s : dbService) (ctx : Ctx) (name : string) (req : SourceCreateRequest) : Q SourceInfo :=
  _ ← lift (invalid_config ErrInvalidSourceConfig (ValidateSourceConfig req));
  transaction (
    r ← attempt (GetSourceByName name);
    existing ← match r with
               | Ok e => mret (Some e)
               | Err err => if negb (errorIs err ErrNoRows) then fail (wrapf "failed to get existing source" err)
                            else mret None
               end;
    _ ← (if bool_decide (so_creation_type <$> existing = Some CreationTypeCONFIG)
         then fail (EWrap ErrConfigSource "%s") else mret ());
    _ ← lift (validateClaimsVisibleBytes ctx (caller_claims s ctx) (default "" (so_claims <$> existing)));
    _ ← lift (validateClaimsSubset ctx (caller_claims s ctx) (claims_or_empty (sr_Claims req)));
    _ ← lift (validateSourceTypeChange existing (GetSourceType req));
    _ ← (if bool_decide (GetSourceType req = SourceTypeFile)
         then lift (validateFileSourceTypeChange existing req) else mret ());
    sourceConfig ← lift (serializeSourceConfigFromRequest req);
    filterConfig ← lift (serializeFilterConfigFromRequest (sr_Filter req));
    updated ← attempt (UpdateSourceRow name (request_row req sourceConfig filterConfig));
    match updated with
    | Err err => classifyUpdateSourceError name err
    | Ok source => mret (buildSourceInfo name source)
    end).

Definition DeleteSource (s : dbService) (ctx : Ctx) (name : string) : Q () :=
  transaction (
    r ← attempt (GetSourceByName name);
    match r with
    | Err err =>
        if errorIs err ErrNoRows then fail (EWrap ErrSourceNotFound "%s")
        else fail (wrapf "failed to get source" err)
    | Ok existing =>
        _ ← (if bool_decide (so_creation_type existing = CreationTypeCONFIG)
             then fail (EWrap ErrConfigSource "%s") else mret ());
        _ ← lift (validateClaimsVisibleBytes ctx (caller_claims s ctx) (so_claims existing));
        linkCount ← wrapping "failed to check registry links" (CountRegistriesBySourceID (so_id existing));
        _ ← (if (0 <? linkCount)%nat
             then fail (EWrap ErrSourceInUse "%s is referenced by %d registry(ies)") else mret ());
        _ ← wrapping "failed to delete source" (DeleteSourceRow name);
        mret ()
    end).

(** *** Reading *)

Definition source_visible (ctx : Ctx) (callerClaims : option claims) (r : string * SourceRow) : bool :=
  is_ok (validateClaimsVisibleBytes ctx callerClaims (so_claims (snd r))).

(** The loop of [streamSourceRows]; [None] is the fuel running out. *)
Fixpoint stream_sources (fuel size : nat) (ctx : Ctx) (callerClaims : option claims)
    (accumulated : list (string * SourceRow)) (next : option Z) : Q (option (list (string * SourceRow))) :=
  match fuel with
  | O => mret None
  | S fuel' =>
      batch ← ListSourcesQuery next size;
      let accumulated' := accumulated ++ List.filter (source_visible ctx callerClaims) batch in
      if (List.length batch <? size)%nat then mret (Some accumulated')
      else match last batch with
           | None => mret (Some accumulated')
           | Some l => stream_sources fuel' size ctx callerClaims accumulated' (Some (so_created_at (snd l)))
           end
  end.

Definition streamSourceRows (fuel : nat) (ctx : Ctx) (callerClaims : option claims)
    : Q (option (list (string * SourceRow))) :=
  stream_sources fuel MaxPageSize ctx callerClaims [] None.

Fixpoint infos_of (l : list (string * SourceRow)) : Q (list SourceInfo) :=
  match l with
  | [] => mret []
  | (name, row) :: l' =>
      st ← fetchSyncStatus name;
      rest ← infos_of l';
      mret (with_status (buildSourceInfo name row) st :: rest)
  end.

Definition ListSources (fuel : nat) (s : dbService) (ctx : Ctx) : Q (option (list SourceInfo)) :=
  read_transaction (
    rows ← wrapping "failed to list sources" (streamSourceRows fuel ctx (caller_claims s ctx));
    match rows with
    | None => mret None
    | Some rows => infos ← infos_of rows; mret (Some infos)
    end).

(** [dbService.GetSourceByName] *)
Definition service_GetSourceByName (s : dbService) (ctx : Ctx) (name : string) : Q SourceInfo :=
  read_transaction (
    r ← attempt (GetSourceByName name);
    match r with
    | Err err =>
        if errorIs err ErrNoRows then fail (EWrap ErrSourceNotFound "%s")
        else fail (wrapf "failed to get source" err)
    | Ok source =>
        let info := buildSourceInfo name source in
        match validateClaimsVisible ctx (caller_claims s ctx) (si_Claims info) with
        | Err _ => fail (EWrap ErrSourceNotFound "%s")
        | Ok _ =>
            st ← fetchSyncStatus name;
            mret (with_status info st)
        end
    end).

(** *** The entries of a source *)

Record EntryVersionInfo := { ev_Version : string; ev_Title : string; ev_Description : string; ev_CreatedAt : Z }.
Record SourceEntryInfo := {
  se_EntryType : EntryType;
  se_Name : string;
  se_Claims : claims;
  se_Versions : list EntryVersionInfo }.

(** A row of ListEntriesBySource: type, name, claims; version. *)
Record EntryVersionRow := {
  er_type : EntryType;
  er_name : string;
  er_claims : string;
  er_version : string;
  er_row : VersionRow }.

Definition version_of (r : EntryVersionRow) : EntryVersionInfo :=
  {| ev_Version := er_version r; ev_Title := ve_title (er_row r);
     ev_Description := ve_description (er_row r); ev_CreatedAt := ve_created (er_row r) |}.

Definition source_entry_rows (sid : uuid) (d : DB) : list EntryVersionRow :=
  map_to_list (d_entry d) ≫= fun '((s, ty, name), e) =>
    if (s =? sid)%nat then
      (fun '(v, r) => {| er_type := ty; er_name := name; er_claims := en_claims e; er_version := v; er_row := r |})
        <$> entry_versions (en_id e) d
    else [].

Definition entry_row_le (a b : EntryVersionRow) : Prop :=
  coll_lt (ve_name (er_row a)) (ve_name (er_row b)) \/
  (ve_name (er_row a) = ve_name (er_row b) /\ coll_le (er_version a) (er_version b)).
#[export] Instance entry_row_le_dec : RelDecision entry_row_le.
Proof. intros a b. unfold entry_row_le, coll_lt. apply _. Defined.

Definition ListEntriesBySource (sid : uuid) : Q (list EntryVersionRow) :=
  select (fun d => Ok (merge_sort entry_row_le (source_entry_rows sid d))).

Definition EntryType_string (t : EntryType) : string :=
  match t with EntryTypeMCP => "MCP" | EntryTypeSKILL => "SKILL" | EntryTypePLUGIN => "PLUGIN" end.

Definition entry_key (ty : EntryType) (name : string) : string := EntryType_string ty +:+ "/" +:+ name.
Definition info_key (i : SourceEntryInfo) : string := entry_key (se_EntryType i) (se_Name i).

(** [result[idx].Versions = append(...)], where [entryMap] gives the index of the
    key: the first and only entry of that key. *)
Fixpoint add_version (r : EntryVersionRow) (result : list SourceEntryInfo) : list SourceEntryInfo :=
  match result with
  | [] => [{| se_EntryType := er_type r; se_Name := er_name r; se_Claims := DeserializeClaims (er_claims r);
              se_Versions := [version_of r] |}]
  | i :: result' =>
      if String.eqb (info_key i) (entry_key (er_type r) (er_name r))
      then {| se_EntryType := se_EntryType i; se_Name := se_Name i; se_Claims := se_Claims i;
              se_Versions := se_Versions i ++ [version_of r] |} :: result'
      else i :: add_version r result'
  end.

Definition group_entries (rows : list EntryVersionRow) : list SourceEntryInfo :=
  foldl (fun acc r => add_version r acc) [] rows.

Definition ListSourceEntries (s : dbService) (ctx : Ctx) (sourceName : string) : Q (list SourceEntryInfo) :=
  read_transaction (
    r ← attempt (GetSourceByName sourceName);
    match r with
    | Err err =>
        if errorIs err ErrNoRows then fail (EWrap ErrSourceNotFound "%s")
        else fail (wrapf "failed to get source" err)
    | Ok source =>
        match validateClaimsVisibleBytes ctx (caller_claims s ctx) (so_claims source) with
        | Err _ => fail (EWrap ErrSourceNotFound "%s")
        | Ok _ =>
            rows ← wrapping "failed to list entries by source" (ListEntriesBySource (so_id source));
            mret (group_entries rows)
        end
    end).

(** *** Inline data *)

Context `{SW : SyncWriter}.

Definition inline_row (st : SyncState) (msg : option string) (startTime endTime : Z) (servers : nat) : SyncRow :=
  {| sy_status := st; sy_error_msg := msg; sy_started_at := Some startTime; sy_ended_at := Some endTime;
     sy_attempt_count := 1; sy_last_sync_hash := None; sy_filter_hash := None;
     sy_server_count := Z.of_nat servers; sy_skill_count := 0; sy_plugin_count := 0 |}.

Definition updateSyncStatusFailed (name errorMsg : string) (startTime endTime : Z) : Q () :=
  UpsertSourceSyncByName name (inline_row SyncStatusFAILED (Some errorMsg) startTime endTime 0).

Definition updateSyncStatusCompleted (name : string) (serverCount : nat) (startTime endTime : Z) : Q () :=
  UpsertSourceSyncByName name (inline_row SyncStatusCOMPLETED None startTime endTime serverCount).

(** The error of a status update is only logged. *)
Definition ProcessInlineSourceData (name data : string) (startTime endTime : Z) : Q () :=
  match ValidateData data with
  | Err err =>
      _ ← attempt (updateSyncStatusFailed name "failed to parse registry data: %v" startTime endTime);
      fail (wrapf "failed to parse inline registry data" err)
  | Ok registry =>
      r ← attempt (Store name registry);
      match r with
      | Err err =>
          _ ← attempt (updateSyncStatusFailed name "failed to store servers: %v" startTime endTime);
          fail (wrapf "failed to store inline registry data" err)
      | Ok _ =>
          _ ← attempt (updateSyncStatusCompleted name (List.length (ur_Servers registry)) startTime endTime);
          mret ()
      end
  end.
End SourceOrder.

(** ** Correctness *)

Section Correct.
Context `{Co : Collation} `{C : JsonCodec} `{CM : ConfigMarshal} `{CC : ConfigCodec}.
Context `{FS : FileSystem} `{RP : RegistryParser}.

Lemma GetSourceByName_ok o n d name s n' d' :
  GetSourceByName name o n d = (Ok s, n', d') -> d_source d !! name = Some s /\ d' = d.
Proof. intros H. apply select_run_ok in H as [H ->]. unfold row_or_none in H. by case_match; simplify_eq. Qed.

Lemma GetSourceByName_none o n d name e n' d' :
  GetSourceByName name o n d = (Err e, n', d') -> errorIs e ErrNoRows = true -> d_source d !! name = None /\ d' = d.
Proof.
  intros H He. apply select_no_rows in H as [H ->]; [|done]. unfold row_or_none in H. by case_match; simplify_eq.
Qed.

Lemma invalid_config_ok s r : invalid_config s r = Ok () <-> r = Ok ().
Proof. destruct r as [[]|e]; cbn; naive_solver. Qed.

(** *** Creating *)

Definition managed_free (d : DB) : Prop :=
  forall name s, d_source d !! name = Some s -> so_source_type s <> SourceTypeManaged.

Lemma managed_sources_nil d : managed_sources d = [] <-> managed_free d.
Proof.
  unfold managed_sources, managed_free. split.
  - intros H name s Hs Ht.
    assert (Hin : In (name, s) (List.filter (fun '(_, s) => bool_decide (so_source_type s = SourceTypeManaged))
                                 (map_to_list (d_source d)))).
    { apply filter_In. split; [by apply list_elem_of_In, elem_of_map_to_list|by apply bool_decide_eq_true]. }
    by rewrite H in Hin.
  - intros H. destruct (List.filter _ _) as [|[name s] l] eqn:E; [done|exfalso].
    assert (Hin : In (name, s) (List.filter (fun '(_, s) => bool_decide (so_source_type s = SourceTypeManaged))
                                 (map_to_list (d_source d)))) by (rewrite E; by left).
    apply filter_In in Hin as [Hin Ht%bool_decide_eq_true]. apply list_elem_of_In, elem_of_map_to_list in Hin.
    by apply (H name s).
Qed.

Lemma nonempty_none {A} (l : list A) : (0 <? List.length l)%nat = false <-> l = [].
Proof. rewrite Nat.ltb_ge. destruct l; cbn; split; (done || lia). Qed.

(** When a source can be created. *)
Record creatable (s : dbService) (ctx : Ctx) (name : string) (req : SourceCreateRequest) (d : DB) : Prop := {
  cr_request : ValidateSourceConfig req = Ok ();
  cr_claims : validateClaimsSubset ctx (caller_claims s ctx) (claims_or_empty (sr_Claims req)) = Ok ();
  cr_new : d_source d !! name = None;
  cr_name : SourceName.ValidateSourceName name = Ok ();
  cr_managed : GetSourceType req = SourceTypeManaged -> managed_free d;
  cr_json : exists c f, serializeSourceConfigFromRequest req = Ok c /\ serializeFilterConfigFromRequest (sr_Filter req) = Ok f }.

(** The database with the new source. *)
Definition with_source (name : string) (row : SourceRow) (st : SyncRow) (d : DB) : DB :=
  let d1 := set_source (set_next d (S (d_next d))) (<[name := row]> (d_source d)) in
  set_sync d1 (match d_sync d !! so_id row with Some _ => d_sync d | None => <[so_id row := st]> (d_sync d) end).

Definition request_status (now : Z) (req : SourceCreateRequest) : SyncRow :=
  let '(st, msg) := getAPISourceInitialSyncStatus req (GetSourceType req) in initial_row now st msg.

Lemma CreateSource_run now s ctx name req o n d info n' d' :
  CreateSource now s ctx name req o n d = (Ok info, n', d') ->
  creatable s ctx name req d /\
  exists c f, serializeSourceConfigFromRequest req = Ok c /\ serializeFilterConfigFromRequest (sr_Filter req) = Ok f /\
    let row := request_row req c f (d_next d) CreationTypeAPI now in
    info = buildSourceInfo name row /\ d' = with_source name row (request_status now req) d.
Proof.
  unfold CreateSource. intros H. lift_in H u Hreq. apply invalid_config_ok in Hreq. lift_in H u Hcl.
  apply transaction_gen_ok in H as (n1 & n2 & H). attempt_in H r E.
  destruct r as [x|err]; [done|]. destruct (errorIs err ErrNoRows) eqn:He; [|done].
  apply GetSourceByName_none in E as [Hnone ->]; [|done]. cbn [negb] in H.
  lift_in H u Hname. apply invalid_config_ok in Hname. apply bind_run_ok in H as ([] & n3 & d1 & E & H).
  assert (Hm : (GetSourceType req = SourceTypeManaged -> managed_free d) /\ d1 = d).
  { case_bool_decide as Ht; [|apply ret_run_ok in E as (_ & _ & ->); naive_solver]. select_in E ms Em.
    injection Em as <-. destruct (0 <? _)%nat eqn:El; [done|]. apply ret_run_ok in E as (_ & _ & ->).
    split; [|done]. intros _. apply managed_sources_nil. by apply nonempty_none. }
  destruct Hm as [Hm ->]. lift_in H c Ec. lift_in H f Ef. attempt_in H row Er. destruct row as [row|e]; [|done].
  apply query_run_ok in Er. rewrite Hnone in Er. injection Er as <- <-. query_in H u Eb. injection Eb as <-.
  apply ret_run_ok in H as (-> & _ & ->). split; [constructor; eauto|].
  exists c, f. split; [done|]. split; [done|]. cbv zeta. split; [done|].
  unfold with_source, request_status. cbn. by destruct (getAPISourceInitialSyncStatus _ _) as [st msg].
Qed.

Section Create.
Context (o : Oracle).
Hypothesis Ho : forall k, o k = None.

Lemma GetSourceByName_missing name n d :
  d_source d !! name = None -> attempt (GetSourceByName name) o n d = (Ok (Err no_rows), S n, d).
Proof using Ho. intros H. apply attempt_fine, (select_none o Ho). by rewrite H. Qed.

Lemma GetSourceByName_found name s n d :
  d_source d !! name = Some s -> attempt (GetSourceByName name) o n d = (Ok (Ok s), S n, d).
Proof using Ho. intros H. apply attempt_fine, (select_fine o Ho). by rewrite H. Qed.

Lemma CreateSource_runs now s ctx name req n d :
  creatable s ctx name req d -> exists info n' d', CreateSource now s ctx name req o n d = (Ok info, n', d').
Proof using Ho.
  intros [Hreq Hcl Hnew Hname Hm (c & f & Hc & Hf)].
  assert (Hlimit : exists n1, (if bool_decide (GetSourceType req = SourceTypeManaged) then
      managedSources ← wrapping "failed to check managed source limit" GetManagedSources;
      if (0 <? List.length managedSources)%nat then fail (EWrap ErrManagedSourceLimitReached "") else mret ()
    else mret ()) o (S (S n)) d = (Ok (), n1, d)).
  { case_bool_decide as Ht; [|by eexists]. eexists. eapply bind_fine.
    { eapply wrapping_fine, (select_fine o Ho). reflexivity. }
    by rewrite (proj2 (managed_sources_nil d) (Hm Ht)). }
  destruct Hlimit as [n1 Hlimit]. do 3 eexists. unfold CreateSource.
  eapply bind_fine; [apply lift_fine; by rewrite Hreq|]. eapply bind_fine; [by apply lift_fine|].
  eapply (transaction_gen_fine o Ho). eapply bind_fine; [by apply GetSourceByName_missing|]. cbn [no_rows].
  eapply bind_fine; [apply lift_fine; by rewrite Hname|]. eapply bind_fine; [exact Hlimit|].
  eapply bind_fine; [by apply lift_fine|]. eapply bind_fine; [by apply lift_fine|].
  eapply bind_fine; [eapply attempt_fine, (query_fine o Ho); rewrite ?Hnew; reflexivity|].
  eapply bind_fine; [eapply wrapping_fine, (query_fine o Ho); reflexivity|]. reflexivity.
Qed.
End Create.

(** C9. [CreateSource] either leaves the database as it was, or adds exactly the
    requested source — under a fresh id, API-created, with the claims of the
    request and an initial sync status, started now — and returns what it stored.  It does so
    only when the request is valid, the caller's claims contain the source's, the
    name is free and well formed, and a managed source would be the only one; and
    with a database that answers, whenever that is the case. *)
Theorem CreateSource_correct now s ctx name req o n d r n' d' :
  CreateSource now s ctx name req o n d = (r, n', d') ->
  match r with
  | Ok info => creatable s ctx name req d /\
      exists c f, serializeSourceConfigFromRequest req = Ok c /\
        serializeFilterConfigFromRequest (sr_Filter req) = Ok f /\
        let row := request_row req c f (d_next d) CreationTypeAPI now in
        info = buildSourceInfo name row /\ d' = with_source name row (request_status now req) d
  | Err _ => d' = d /\ ((forall k, o k = None) -> ~ creatable s ctx name req d)
  end.
Proof.
  intros H. destruct r as [info|e]; [by apply CreateSource_run in H|]. split.
  - unfold CreateSource in H. unfold mbind at 1, Q_bind at 1, lift at 1 in H.
    destruct (invalid_config _ _); [|by injection H]. unfold mbind at 1, Q_bind at 1, lift at 1 in H.
    destruct (validateClaimsSubset _ _ _); [|by injection H]. by apply transaction_gen_atomic in H.
  - intros Ho Hc. destruct (CreateSource_runs o Ho now s ctx name req n d Hc) as (? & ? & ? & E). congruence.
Qed.

(** *** Deleting *)

(** Nothing of the source is left, and nothing else is touched. *)
Record source_removed (name : string) (row : SourceRow) (d d' : DB) : Prop := {
  sr_source : d_source d' = delete name (d_source d);
  sr_registries : same_registries d d';
  sr_sync : d_sync d' = delete (so_id row) (d_sync d);
  sr_entry : forall sid ty nm, d_entry d' !! (sid, ty, nm) =
    if decide (sid = so_id row) then None else d_entry d !! (sid, ty, nm);
  sr_version : forall eid v r, d_version d' !! (eid, v) = Some r <->
    d_version d !! (eid, v) = Some r /\
    forall ty nm e, d_entry d !! (so_id row, ty, nm) = Some e -> en_id e <> eid;
  sr_latest : forall sid nm, d_latest d' !! (sid, nm) =
    if decide (sid = so_id row) then None else d_latest d !! (sid, nm);
  sr_wf : wf_core d' }.

Definition source_entry_ids (sid : uuid) (d : DB) : gset uuid :=
  list_to_set ((fun kv => en_id (snd kv)) <$>
    map_to_list (filter (fun kv => fst (fst (fst kv)) ∈ ({[ sid ]} : gset uuid)) (d_entry d))).

Lemma source_entry_ids_spec sid d eid :
  eid ∈ source_entry_ids sid d <-> exists ty nm e, d_entry d !! (sid, ty, nm) = Some e /\ en_id e = eid.
Proof.
  unfold source_entry_ids. rewrite elem_of_list_to_set, list_elem_of_fmap. split.
  - intros ([[[s ty] nm] e] & -> & Hin%elem_of_map_to_list). apply map_lookup_filter_Some in Hin as [He Hs].
    cbn in *. apply elem_of_singleton in Hs as ->. by exists ty, nm, e.
  - intros (ty & nm & e & He & <-). exists ((sid, ty, nm), e). split; [done|].
    apply elem_of_map_to_list, map_lookup_filter_Some. split; [done|]. by apply elem_of_singleton.
Qed.

Definition source_version_ids (sid : uuid) (d : DB) : gset uuid :=
  list_to_set ((fun kv => ve_id (snd kv)) <$>
    List.filter (fun kv => bool_decide (fst (fst kv) ∈ source_entry_ids sid d)) (map_to_list (d_version d))).

Lemma source_version_ids_spec sid d eid v r :
  wf_core d -> d_version d !! (eid, v) = Some r ->
  ve_id r ∈ source_version_ids sid d <-> eid ∈ source_entry_ids sid d.
Proof.
  intros Hwf Hr. unfold source_version_ids. rewrite elem_of_list_to_set, list_elem_of_fmap. split.
  - intros ([[e w] x] & E & Hin). apply list_elem_of_In, filter_In in Hin as [Hin He%bool_decide_eq_true].
    apply list_elem_of_In, elem_of_map_to_list in Hin. cbn in *.
    pose proof (wf_version_inj _ Hwf _ _ _ _ Hr Hin E) as [= -> ->]. done.
  - intros He. exists ((eid, v), r). split; [done|]. apply list_elem_of_In, filter_In.
    split; [by apply list_elem_of_In, elem_of_map_to_list|by apply bool_decide_eq_true].
Qed.

Section Cascade.
Context (name : string) (row : SourceRow) (d : DB).
Hypothesis Hwf : wf_core d.
Hypothesis Hs : d_source d !! name = Some row.
Let d' := cascade_sources {[ so_id row ]} d.

Lemma cascade_source_version eid v r :
  d_version d' !! (eid, v) = Some r <-> d_version d !! (eid, v) = Some r /\ eid ∉ source_entry_ids (so_id row) d.
Proof using Hwf.
  cbn. rewrite map_lookup_filter_Some. cbn.
  fold (source_entry_ids (so_id row) d). fold (source_version_ids (so_id row) d).
  split; intros [Hr Hk]; (split; [done|]).
  - apply bool_decide_eq_false in Hk. by rewrite (source_version_ids_spec _ _ _ _ _ Hwf Hr) in Hk.
  - apply bool_decide_eq_false. by rewrite (source_version_ids_spec _ _ _ _ _ Hwf Hr).
Qed.

Lemma cascade_source_entry sid ty nm :
  d_entry d' !! (sid, ty, nm) = if decide (sid = so_id row) then None else d_entry d !! (sid, ty, nm).
Proof using.
  cbn. rewrite map_lookup_filter. destruct (d_entry d !! _); cbn; [|by case_decide].
  case_decide as Hd; [rewrite option_guard_False|rewrite option_guard_True]; first [done|rewrite elem_of_singleton; tauto].
Qed.

Lemma foreign_entry sid ty nm e : d_entry d !! (sid, ty, nm) = Some e -> sid <> so_id row ->
  en_id e ∉ source_entry_ids (so_id row) d.
Proof using Hwf.
  intros He Hne (ty' & nm' & e' & He' & E)%source_entry_ids_spec.
  pose proof (wf_entry_inj _ Hwf _ _ _ _ He' He E). congruence.
Qed.

Lemma cascade_source_latest sid nm :
  d_latest d' !! (sid, nm) = if decide (sid = so_id row) then None else d_latest d !! (sid, nm).
Proof using Hwf.
  cbn. rewrite map_lookup_filter, map_lookup_filter. cbn. fold (source_entry_ids (so_id row) d).
  fold (source_version_ids (so_id row) d). destruct (d_latest d !! (sid, nm)) as [[v vid]|] eqn:El; cbn; [|by case_decide].
  case_decide as Hd.
  - subst sid. destruct (guard _ ≫= _); cbn; [|done]. by rewrite option_guard_False by (rewrite elem_of_singleton; tauto).
  - destruct (wf_latest _ Hwf _ _ _ _ El) as (ty & e & r & He & Hr & <-).
    rewrite option_guard_True; cbn; [by rewrite option_guard_True by (rewrite elem_of_singleton; tauto)|].
    apply bool_decide_eq_false. rewrite (source_version_ids_spec _ _ _ _ _ Hwf Hr). by eapply foreign_entry.
Qed.

Lemma cascade_source_wf : wf_core d'.
Proof using Hwf.
  split.
  - intros [[sid ty] nm] e. rewrite cascade_source_entry. case_decide; [done|]. apply (wf_entry_id _ Hwf).
  - intros [[s1 t1] n1] [[s2 t2] n2] e1 e2. rewrite !cascade_source_entry. do 2 case_decide; try done.
    apply (wf_entry_inj _ Hwf).
  - intros [eid v] r [Hr _]%cascade_source_version. by eapply (wf_version_id _ Hwf).
  - intros [e1 v1] [e2 v2] r1 r2 [Hr1 _]%cascade_source_version [Hr2 _]%cascade_source_version.
    by apply (wf_version_inj _ Hwf).
  - intros eid v r [Hr He]%cascade_source_version.
    destruct (wf_version_entry _ Hwf _ _ _ Hr) as (sid & ty & e & Hen & <-). exists sid, ty, e.
    split; [|done]. rewrite cascade_source_entry, decide_False; [done|]. intros ->.
    apply He, source_entry_ids_spec. eauto.
  - intros sid nm v vid. rewrite cascade_source_latest. case_decide as Hd; [done|]. intros Hl.
    destruct (wf_latest _ Hwf _ _ _ _ Hl) as (ty & e & r & He & Hr & Hid). exists ty, e, r.
    rewrite cascade_source_entry, decide_False by done. split; [done|]. split; [|done].
    apply cascade_source_version. split; [done|]. by eapply foreign_entry.
  - apply (wf_next _ Hwf).
Qed.

Lemma cascade_source : ids_unique d -> source_removed name row d d'.
Proof using Hwf Hs.
  intros Hu. split.
  - apply map_eq. intros nm. cbn. rewrite map_lookup_filter. destruct (decide (nm = name)) as [->|Hne].
    + rewrite Hs, lookup_delete_eq. cbn. by rewrite option_guard_False by (rewrite elem_of_singleton; tauto).
    + rewrite lookup_delete_ne by done. destruct (d_source d !! nm) as [s|] eqn:E; [|done]. cbn.
      rewrite option_guard_True; [done|]. intros Hin%elem_of_singleton. apply Hne. by eapply Hu.
  - done.
  - apply map_eq. intros sid. cbn. rewrite map_lookup_filter. destruct (decide (sid = so_id row)) as [->|Hne].
    + rewrite lookup_delete_eq. destruct (d_sync d !! _); [|done]. cbn. by rewrite option_guard_False by (rewrite elem_of_singleton; tauto).
    + rewrite lookup_delete_ne by done. destruct (d_sync d !! _); [|done]. cbn. by rewrite option_guard_True by (rewrite elem_of_singleton; tauto).
  - apply cascade_source_entry.
  - intros eid v r. rewrite cascade_source_version. split; intros [Hr Hk]; (split; [done|]).
    + intros ty nm e He <-. apply Hk, source_entry_ids_spec. eauto.
    + intros (ty & nm & e & He & Hid)%source_entry_ids_spec. by eapply Hk.
  - apply cascade_source_latest.
  - apply cascade_source_wf.
Qed.
End Cascade.

(** When a source can be deleted. *)
Record deletable (s : dbService) (ctx : Ctx) (row : SourceRow) (d : DB) : Prop := {
  dl_api : so_creation_type row = CreationTypeAPI;
  dl_visible : validateClaimsVisibleBytes ctx (caller_claims s ctx) (so_claims row) = Ok ();
  dl_links : forall rid pos, d_registry_source d !! (rid, so_id row) <> Some pos }.

Lemma registry_links_nil sid d :
  registry_links sid d = [] <-> forall rid pos, d_registry_source d !! (rid, sid) <> Some pos.
Proof.
  unfold registry_links. split.
  - intros H rid pos Hp. assert (Hin : In ((rid, sid), pos) []); [rewrite <-H|done].
    apply filter_In. split; [by apply list_elem_of_In, elem_of_map_to_list|]. cbn. apply Nat.eqb_refl.
  - intros H. destruct (List.filter _ _) as [|[[rid s] pos] l] eqn:E; [done|exfalso].
    assert (Hin : In ((rid, s), pos) (((rid, s), pos) :: l)) by by left. rewrite <-E in Hin.
    apply filter_In in Hin as [Hin Hs%Nat.eqb_eq]. apply list_elem_of_In, elem_of_map_to_list in Hin. cbn in Hs.
    subst s. by apply (H rid pos).
Qed.

Lemma creation_not_config t : t <> CreationTypeCONFIG <-> t = CreationTypeAPI.
Proof. by destruct t. Qed.

Lemma DeleteSource_run s ctx name o n d n' d' :
  DeleteSource s ctx name o n d = (Ok (), n', d') ->
  exists row, d_source d !! name = Some row /\ deletable s ctx row d /\ d' = cascade_sources {[ so_id row ]} d.
Proof.
  intros (n1 & n2 & H)%transaction_ok. attempt_in H r E. destruct r as [row|e].
  2:{ by destruct (errorIs e ErrNoRows). }
  apply GetSourceByName_ok in E as [Hs ->]. exists row. split; [done|]. bind_in H u E.
  case_bool_decide as Hc; [done|]. apply ret_run_ok in E as (_ & _ & ->). lift_in H u Hv. select_in H k Ek.
  injection Ek as <-. bind_in H u E. destruct (0 <? _)%nat eqn:El; [done|]. apply ret_run_ok in E as (_ & _ & ->).
  query_in H u E. rewrite Hs in E. rewrite El in E. injection E as <- <-. apply ret_run_ok in H as (_ & _ & ->).
  split; [|done]. split; [by apply creation_not_config|done|]. by apply registry_links_nil, nonempty_none.
Qed.

Lemma DeleteSource_runs s ctx name row o n d :
  (forall k, o k = None) -> d_source d !! name = Some row -> deletable s ctx row d ->
  exists n' d', DeleteSource s ctx name o n d = (Ok (), n', d').
Proof.
  intros Ho Hs [Hc Hv Hl]. apply registry_links_nil in Hl. do 2 eexists. eapply (transaction_gen_fine o Ho).
  eapply bind_fine; [by apply GetSourceByName_found|]. cbv beta iota.
  eapply bind_fine; [rewrite Hc; reflexivity|]. eapply bind_fine; [by apply lift_fine|].
  eapply bind_fine; [eapply wrapping_fine, (select_fine o Ho); reflexivity|]. rewrite Hl.
  eapply bind_fine; [reflexivity|].
  eapply bind_fine; [eapply wrapping_fine, (query_fine o Ho); rewrite Hs, Hl; reflexivity|]. reflexivity.
Qed.

(** C10. [DeleteSource] either leaves the database as it was, or removes exactly
    the named source with its sync status, entries, versions and pointers.  It
    does so only for an API-created source visible to the caller that no registry
    links, and with a database that answers, for every such source. *)
Theorem DeleteSource_correct s ctx name o n d r n' d' :
  ids_unique d -> wf_core d ->
  DeleteSource s ctx name o n d = (r, n', d') ->
  match r with
  | Ok _ => exists row, d_source d !! name = Some row /\ deletable s ctx row d /\ source_removed name row d d'
  | Err _ => d' = d /\ ((forall k, o k = None) ->
      forall row, d_source d !! name = Some row -> ~ deletable s ctx row d)
  end.
Proof.
  intros Hu Hwf H. destruct r as [[]|e].
  - apply DeleteSource_run in H as (row & Hs & Hd & ->). exists row. split; [done|]. split; [done|].
    by apply cascade_source.
  - split; [by apply transaction_gen_atomic in H|]. intros Ho row Hs Hd.
    destruct (DeleteSource_runs s ctx name row o n d Ho Hs Hd) as (? & ? & E). congruence.
Qed.

(** *** Updating *)

Record updatable (s : dbService) (ctx : Ctx) (row : SourceRow) (req : SourceCreateRequest) : Prop := {
  ud_request : ValidateSourceConfig req = Ok ();
  ud_api : so_creation_type row = CreationTypeAPI;
  ud_visible : validateClaimsVisibleBytes ctx (caller_claims s ctx) (so_claims row) = Ok ();
  ud_claims : validateClaimsSubset ctx (caller_claims s ctx) (claims_or_empty (sr_Claims req)) = Ok ();
  ud_type : so_source_type row = SourceTypeNone \/ so_source_type row = GetSourceType req;
  ud_subtype : GetSourceType req = SourceTypeFile -> so_source_type row = SourceTypeFile ->
    exists f, (if String.eqb (so_source_config row) "" then Some no_file else parse_file (so_source_config row)) = Some f /\
      getFileSourceSubtype (Some f) = getFileSourceSubtype (sr_File req);
  ud_json : exists c f, serializeSourceConfigFromRequest req = Ok c /\ serializeFilterConfigFromRequest (sr_Filter req) = Ok f }.

Lemma validateSourceTypeChange_iff row t :
  validateSourceTypeChange (Some row) t = Ok () <-> so_source_type row = SourceTypeNone \/ so_source_type row = t.
Proof. unfold validateSourceTypeChange. repeat case_bool_decide; cbn; naive_solver. Qed.

Lemma validateFileSourceTypeChange_iff row req :
  validateFileSourceTypeChange (Some row) req = Ok () <->
  (so_source_type row = SourceTypeFile ->
   exists f, (if String.eqb (so_source_config row) "" then Some no_file else parse_file (so_source_config row)) = Some f /\
     getFileSourceSubtype (Some f) = getFileSourceSubtype (sr_File req)).
Proof.
  unfold validateFileSourceTypeChange. case_bool_decide as Ht; cbn [negb]; [|naive_solver].
  destruct (String.eqb (so_source_config row) "").
  - unfold rbind. rewrite guard_err_ok, negb_false_iff, String.eqb_eq. naive_solver.
  - destruct (parse_file _) as [f|]; unfold rbind, or_err; [|naive_solver].
    rewrite guard_err_ok, negb_false_iff, String.eqb_eq. naive_solver.
Qed.

(** The database with the row replaced. *)
Definition with_row (name : string) (row : SourceRow) (d : DB) : DB :=
  set_source d (<[name := row]> (d_source d)).

Lemma UpdateSource_run s ctx name req o n d info n' d' :
  UpdateSource s ctx name req o n d = (Ok info, n', d') ->
  exists row, d_source d !! name = Some row /\ updatable s ctx row req /\
  exists c f, serializeSourceConfigFromRequest req = Ok c /\ serializeFilterConfigFromRequest (sr_Filter req) = Ok f /\
    let row' := request_row req c f (so_id row) CreationTypeAPI (so_created_at row) in
    info = buildSourceInfo name row' /\ d' = with_row name row' d.
Proof.
  unfold UpdateSource. intros H. lift_in H u Hreq. apply invalid_config_ok in Hreq.
  apply transaction_gen_ok in H as (n1 & n2 & H). attempt_in H r E. bind_in H existing E2.
  assert (Hex : existing = d_source d !! name /\ d0 = d /\ d1 = d).
  { destruct r as [e|err].
    - apply GetSourceByName_ok in E as [-> ->]. by apply ret_run_ok in E2 as (-> & _ & ->).
    - destruct (errorIs err ErrNoRows) eqn:He; [|done]. apply GetSourceByName_none in E as [-> ->]; [|done].
      by apply ret_run_ok in E2 as (-> & _ & ->). }
  destruct Hex as (-> & -> & ->). clear E E2 r. bind_in H u E.
  destruct (bool_decide (so_creation_type <$> _ = _)) eqn:Hc; [done|]. apply bool_decide_eq_false in Hc.
  apply ret_run_ok in E as (_ & _ & ->). lift_in H u Hv. lift_in H u Hcl. lift_in H u Ht. bind_in H u E.
  assert (Hf : d0 = d /\ (GetSourceType req = SourceTypeFile -> validateFileSourceTypeChange (d_source d !! name) req = Ok ())).
  { case_bool_decide as Hf; [apply lift_run_ok in E as (E & _ & ->)|apply ret_run_ok in E as (_ & _ & ->)]; done. }
  destruct Hf as [-> Hf]. clear E. lift_in H c Ec. lift_in H f Ef. attempt_in H r E. destruct r as [row'|err].
  - apply query_run_ok in E. destruct (d_source d !! name) as [row|] eqn:Hs; [|done]. injection E as <- <-.
    apply ret_run_ok in H as (-> & _ & ->). exists row. split; [done|].
    assert (Ha : so_creation_type row = CreationTypeAPI) by (apply creation_not_config; intros Hr; apply Hc; cbn; by rewrite Hr).
    split.
    + split; [done..| | |eauto]; [by apply validateSourceTypeChange_iff|].
      intros Hr. by apply validateFileSourceTypeChange_iff, Hf.
    + exists c, f. split; [done|]. split; [done|]. cbv zeta. by rewrite Ha.
  - exfalso. revert H. unfold classifyUpdateSourceError. destruct (errorIs err ErrNoRows); [|done]. cbn [negb].
    intros H. attempt_in H r2 E2. destruct r2 as [x|e2]; [by case_bool_decide|by destruct (errorIs e2 ErrNoRows)].
Qed.

Lemma UpdateSource_runs s ctx name req row o n d :
  (forall k, o k = None) -> d_source d !! name = Some row -> updatable s ctx row req ->
  exists info n' d', UpdateSource s ctx name req o n d = (Ok info, n', d').
Proof.
  intros Ho Hs [Hreq Hc Hv Hcl Ht Hf (c & f & Ec & Ef)]. do 3 eexists. unfold UpdateSource.
  eapply bind_fine; [apply lift_fine; by rewrite Hreq|]. eapply (transaction_gen_fine o Ho).
  eapply bind_fine; [by apply GetSourceByName_found|]. eapply bind_fine; [reflexivity|].
  eapply bind_fine; [cbn [fmap option_fmap option_map]; rewrite Hc; reflexivity|].
  eapply bind_fine; [by apply lift_fine|]. eapply bind_fine; [by apply lift_fine|].
  eapply bind_fine; [by apply lift_fine, validateSourceTypeChange_iff|].
  eapply (bind_fine o _ _ _ _ tt).
  { case_bool_decide as Hft; [|reflexivity]. by apply lift_fine, validateFileSourceTypeChange_iff, Hf. }
  eapply bind_fine; [by apply lift_fine|]. eapply bind_fine; [by apply lift_fine|].
  eapply bind_fine; [eapply attempt_fine, (query_fine o Ho); rewrite Hs; reflexivity|]. reflexivity.
Qed.

(** C11. [UpdateSource] either leaves the database as it was, or replaces exactly
    the row of the named source by the requested one, keeping its id and its time
    of creation.  It does so only for a valid request on an API-created source
    that the caller sees and whose new claims the caller holds, of the same type
    and file subtype; and with a database that answers, for every such request. *)
Theorem UpdateSource_correct s ctx name req o n d r n' d' :
  UpdateSource s ctx name req o n d = (r, n', d') ->
  match r with
  | Ok info => exists row, d_source d !! name = Some row /\ updatable s ctx row req /\
      exists c f, serializeSourceConfigFromRequest req = Ok c /\
        serializeFilterConfigFromRequest (sr_Filter req) = Ok f /\
        let row' := request_row req c f (so_id row) CreationTypeAPI (so_created_at row) in
        info = buildSourceInfo name row' /\ d' = with_row name row' d
  | Err _ => d' = d /\ ((forall k, o k = None) ->
      forall row, d_source d !! name = Some row -> ~ updatable s ctx row req)
  end.
Proof.
  intros H. destruct r as [info|e]; [by apply UpdateSource_run in H|]. split.
  - unfold UpdateSource in H. unfold mbind at 1, Q_bind at 1, lift at 1 in H.
    destruct (invalid_config _ _); [|by injection H]. by apply transaction_gen_atomic in H.
  - intros Ho row Hs Hu. destruct (UpdateSource_runs s ctx name req row o n d Ho Hs Hu) as (? & ? & ? & E). congruence.
Qed.

(** *** Reading back *)

(** A caller that may put claims on a resource sees the resource with the
    claims it stored. *)
Lemma stamped_visible `{!JsonLaws C} ctx caller c :
  storable (claims_or_empty c) -> validateClaimsSubset ctx caller (claims_or_empty c) = Ok () ->
  validateClaimsVisible ctx caller (DeserializeClaims (SerializeClaims c)) = Ok ().
Proof.
  intros Hst. unfold validateClaimsSubset, validateClaimsVisible. rewrite !validateClaimsWith_ok.
  intros [?|[?|(caller' & -> & Hne & Hm)]]; [by left|by right; left|]. right; right. exists caller'.
  destruct c as [c|]; [|done]. change (claims_or_empty (Some c)) with c in *. destruct (SerializeClaims_cases c Hst) as [[? _]|(_ & Hs & Hu)]; [done|].
  unfold DeserializeClaims. destruct (String.eqb_spec (SerializeClaims (Some c)) ""); [done|]. rewrite Hu. cbn.
  split; [done|]. split; [|by apply contain_visible; rewrite claimsContain_record].
  unfold normalize. by rewrite fmap_empty_iff.
Qed.

Lemma fetchSyncStatus_fine name row st o n d :
  (forall k, o k = None) -> d_source d !! name = Some row -> d_sync d !! so_id row = Some st ->
  fetchSyncStatus name o n d = (Ok (Some (sync_status_of st)), S n, d).
Proof.
  intros Ho Hs Hy. unfold fetchSyncStatus. apply (bind_fine o _ _ _ _ (Ok st) (S n) d); [|reflexivity].
  apply attempt_fine, (select_fine o Ho). unfold row_or_none. rewrite Hs. cbn. by rewrite Hy.
Qed.

(** Create, then read: whoever created a source reads back exactly what
    [CreateSource] returned, with the initial sync status. *)
Lemma CreateSource_read_back `{!JsonLaws C} now s ctx name req o n d info n' d' o' m :
  CreateSource now s ctx name req o n d = (Ok info, n', d') ->
  storable (claims_or_empty (sr_Claims req)) -> d_sync d !! d_next d = None -> (forall k, o' k = None) ->
  exists m', service_GetSourceByName s ctx name o' m d' =
    (Ok (with_status info (Some (sync_status_of (request_status now req)))), m', d').
Proof.
  intros H Hst Hfresh Ho. apply CreateSource_run in H as ([_ Hcl _ _ _ _] & c & f & _ & _ & -> & ->).
  set (row := request_row req c f (d_next d) CreationTypeAPI now). set (d' := with_source _ _ _ _).
  assert (Hs : d_source d' !! name = Some row) by (cbn; by rewrite lookup_insert_eq).
  eexists. eapply (read_transaction_fine o' Ho). eapply bind_fine; [by apply GetSourceByName_found|].
  cbv beta iota zeta. change (si_Claims _) with (DeserializeClaims (SerializeClaims (sr_Claims req))).
  rewrite (stamped_visible ctx (caller_claims s ctx) (sr_Claims req) Hst Hcl).
  eapply bind_fine; [eapply fetchSyncStatus_fine; [done..|]; cbn; rewrite Hfresh; by rewrite lookup_insert_eq|].
  reflexivity.
Qed.

(** *** Listing *)

(** The rows a page of the given cursor is cut from. *)
Definition beyond (next : option Z) (r : string * SourceRow) : bool :=
  match next with None => true | Some t => (t <? so_created_at (snd r))%Z end.
Definition candidates (next : option Z) (d : DB) : list (string * SourceRow) :=
  List.filter (beyond next) (map_to_list (d_source d)).

Lemma page_candidates next size d r :
  r ∈ source_page next size d -> r ∈ map_to_list (d_source d) /\ beyond next r = true.
Proof.
  unfold source_page. destruct next as [t|]; intros (i & Hin%list_elem_of_lookup_2 & _)%elem_of_take;
    rewrite merge_sort_Permutation in Hin; [|done]. by apply list_elem_of_In, filter_In in Hin as [?%list_elem_of_In ?].
Qed.

Lemma page_last next size d l :
  last (source_page next size d) = Some l ->
  (List.length (candidates (Some (so_created_at (snd l))) d) < List.length (candidates next d))%nat.
Proof.
  intros Hl%last_Some_elem_of. apply page_candidates in Hl as [Hin Hb].
  apply filter_length_lt with (h := l).
  - intros x Hx%Z.ltb_lt. destruct next as [t|]; [|done]. cbn in *. apply Z.ltb_lt in Hb. apply Z.ltb_lt. lia.
  - by apply list_elem_of_In.
  - cbn. apply Z.ltb_irrefl.
  - done.
Qed.

Lemma stream_sources_total size ctx caller o fuel acc next n d :
  (forall k, o k = None) -> (List.length (candidates next d) < fuel)%nat ->
  exists rows n', stream_sources fuel size ctx caller acc next o n d = (Ok (Some rows), n', d).
Proof.
  intros Ho. revert acc next n. induction fuel as [|fuel IH]; intros acc next n Hf; [lia|]. cbn [stream_sources].
  destruct (List.length (source_page next size d) <? size)%nat eqn:El.
  { do 2 eexists. eapply bind_fine; [by apply (select_fine o Ho)|]. cbv zeta. by rewrite El. }
  destruct (last (source_page next size d)) as [l|] eqn:Elast.
  2:{ do 2 eexists. eapply bind_fine; [by apply (select_fine o Ho)|]. cbv zeta. by rewrite El, Elast. }
  apply page_last in Elast as Hlt.
  destruct (IH (acc ++ List.filter (source_visible ctx caller) (source_page next size d))
    (Some (so_created_at (snd l))) (S n)) as (rows & n' & E); [lia|].
  exists rows, n'. eapply bind_fine; [by apply (select_fine o Ho)|]. cbv zeta. rewrite El, Elast. exact E.
Qed.

(** In a sorted list, a predicate that holds of what lies above one row cuts
    off the list there. *)
Lemma filter_above {A} (R : A -> A -> Prop) (p : A -> bool) l i x :
  StronglySorted R l -> l !! i = Some x -> (forall y, R x y -> p y = true) -> p x = false ->
  (forall y, R y x -> p y = false) -> List.filter p l = drop (S i) l.
Proof.
  intros Hs Hi H1 H2 H3. revert i Hi. induction Hs as [|y l Hs IH Hy]; intros i Hi; [done|]. rewrite Forall_forall in Hy.
  destruct i as [|i]; cbn in Hi |- *.
  - injection Hi as ->. rewrite H2, drop_0. apply forallb_filter_id, forallb_true_iff. auto.
  - rewrite H3; [by apply IH|]. apply Hy. by eapply list_elem_of_lookup_2.
Qed.

Lemma filter_perm {A} (p : A -> bool) l l' : l ≡ₚ l' -> List.filter p l ≡ₚ List.filter p l'.
Proof. induction 1; cbn; [done| | |etrans; eauto]; repeat case_match; by repeat constructor. Qed.

Lemma last_take_lookup {A} (l : list A) k : (0 < k <= List.length l)%nat ->
  exists x, last (take k l) = Some x /\ l !! (k - 1)%nat = Some x.
Proof.
  intros Hk. destruct (lookup_lt_is_Some_2 l (k - 1)) as [x Hx]; [lia|]. exists x. split; [|done].
  rewrite last_lookup, length_take. replace (pred (k `min` List.length l)) with (k - 1)%nat by lia.
  rewrite lookup_take_lt; [done|lia].
Qed.

#[local] Instance created_le_total : Total created_le.
Proof. intros [na a] [nb b]. unfold created_le. cbn. destruct (coll_total na nb); destruct (Z.lt_trichotomy (so_created_at a) (so_created_at b)) as [|[]]; auto. Qed.
#[local] Instance created_le_trans : Transitive created_le.
Proof.
  intros [na a] [nb b] [nc c]. unfold created_le. cbn. intros [?|[? ?]] [?|[? ?]]; [left; lia..|].
  right. split; [lia|]. by transitivity nb.
Qed.
#[local] Instance created_ge_total : Total created_ge.
Proof. intros a b. unfold created_ge. destruct (created_le_total a b); auto. Qed.
#[local] Instance created_ge_trans : Transitive created_ge.
Proof. intros a b c H1 H2. unfold created_ge in *. by transitivity b. Qed.

(** Sources by age; no two created at the same instant. *)
Definition created (r : string * SourceRow) : Z := so_created_at (snd r).
Definition by_age (d : DB) : list (string * SourceRow) := merge_sort created_le (map_to_list (d_source d)).
Definition distinct_times (d : DB) : Prop := NoDup (created <$> map_to_list (d_source d)).
Definition older (a b : string * SourceRow) : Prop := (created a < created b)%Z.

Section Pages.
Context (d : DB).
Hypothesis Hd : distinct_times d.

Lemma by_age_perm : by_age d ≡ₚ map_to_list (d_source d).
Proof using. apply merge_sort_Permutation. Qed.

Lemma NoDup_created l : NoDup (created <$> l) -> StronglySorted created_le l -> StronglySorted older l.
Proof using.
  intros Hnd Hs. induction Hs as [|x l Hs IH Hx]; [constructor|]. cbn in Hnd.
  apply NoDup_cons in Hnd as [Hn Hnd]. constructor; [by apply IH|]. rewrite Forall_forall in Hx |- *.
  intros y Hy. destruct (Hx y Hy) as [?|[E _]]; [done|]. exfalso. apply Hn, list_elem_of_fmap. by exists y.
Qed.

Lemma by_age_sorted : StronglySorted older (by_age d).
Proof using Hd.
  apply NoDup_created; [|by apply StronglySorted_merge_sort; apply _].
  unfold distinct_times in Hd. by rewrite by_age_perm.
Qed.

(** What is younger than the [i]-th row. *)
Lemma younger_filter l i x : StronglySorted older l -> l !! i = Some x ->
  List.filter (beyond (Some (created x))) l = drop (S i) l.
Proof using.
  intros Hs Hi. apply (filter_above older _ l i x Hs Hi).
  - intros y Hy. by apply Z.ltb_lt.
  - apply Z.ltb_irrefl.
  - intros y Hy. apply Z.ltb_ge. unfold older, created in *. lia.
Qed.

Lemma created_inj a b : a ∈ by_age d -> b ∈ by_age d -> created a = created b -> a = b.
Proof using Hd.
  intros Ha Hb E. pose proof by_age_sorted as Hs.
  apply list_elem_of_lookup in Ha as [i Hi]. apply list_elem_of_lookup in Hb as [j Hj].
  destruct (Nat.lt_trichotomy i j) as [Hlt|[->|Hlt]]; [exfalso|congruence|exfalso].
  - assert (older a b); [|unfold older in *; lia].
    rewrite <-(take_drop j (by_age d)) in Hs. eapply (StronglySorted_app_1_elem_of _ _ _ _ _ Hs).
    + apply elem_of_take. eauto.
    + apply (list_elem_of_lookup_2 _ 0). by rewrite lookup_drop, Nat.add_0_r.
  - assert (older b a); [|unfold older in *; lia].
    rewrite <-(take_drop i (by_age d)) in Hs. eapply (StronglySorted_app_1_elem_of _ _ _ _ _ Hs).
    + apply elem_of_take. eauto.
    + apply (list_elem_of_lookup_2 _ 0). by rewrite lookup_drop, Nat.add_0_r.
Qed.

Lemma StronglySorted_reverse l : StronglySorted older l -> StronglySorted created_ge (reverse l).
Proof using.
  clear Hd. induction 1 as [|x l Hs IH Hx]; [constructor|]. rewrite reverse_cons. rewrite Forall_forall in Hx.
  apply StronglySorted_app_2; [|done|repeat constructor]. intros y z Hy Hz. apply list_elem_of_singleton in Hz as ->.
  left. apply Hx. by rewrite elem_of_reverse in Hy.
Qed.

(** The page after the [i]-th row is cut from the younger rows, youngest first. *)
Lemma page_after i x size : by_age d !! i = Some x ->
  source_page (Some (created x)) size d = take size (reverse (drop (S i) (by_age d))).
Proof using Hd.
  intros Hi. unfold source_page. f_equal.
  assert (Hp : List.filter (beyond (Some (created x))) (map_to_list (d_source d)) ≡ₚ reverse (drop (S i) (by_age d))).
  { rewrite reverse_Permutation, <-(younger_filter _ _ _ by_age_sorted Hi).
    apply filter_perm. by rewrite by_age_perm. }
  assert (Hin : forall a, a ∈ reverse (drop (S i) (by_age d)) -> a ∈ by_age d).
  { intros a. rewrite elem_of_reverse. intros [j Hj]%list_elem_of_lookup. rewrite lookup_drop in Hj.
    by eapply list_elem_of_lookup_2. }
  apply (StronglySorted_unique_strong created_ge).
  - intros a b Ha Hb Hab Hba. rewrite merge_sort_Permutation in Ha. apply created_inj; [apply Hin; by rewrite <-Hp|auto|].
    unfold created_ge, created_le in *. fold (created a) (created b) in *. lia.
  - apply StronglySorted_merge_sort; apply _.
  - apply StronglySorted_reverse. pose proof by_age_sorted as H. rewrite <-(take_drop (S i)) in H.
    by apply StronglySorted_app_1_r in H.
  - rewrite merge_sort_Permutation. exact Hp.
Qed.

(** What the loop collects: below two pages, every row once; from there on, the
    oldest page, the youngest page, and the youngest page but one row again. *)
Definition listing (size : nat) (l : list (string * SourceRow)) : list (string * SourceRow) :=
  let n := List.length l in
  if (n <? size)%nat then l
  else if (n <? 2 * size)%nat then take size l ++ reverse (drop size l)
  else take size l ++ reverse (drop (n - size) l) ++ reverse (drop (n - size + 1) l).

Lemma stream_step size ctx caller o fuel acc next n x :
  (forall k, o k = None) ->
  last (source_page next size d) = Some x -> (size <= List.length (source_page next size d))%nat ->
  stream_sources (S fuel) size ctx caller acc next o n d =
  stream_sources fuel size ctx caller
    (acc ++ List.filter (source_visible ctx caller) (source_page next size d)) (Some (created x)) o (S n) d.
Proof using.
  intros Ho Hl Hsz. cbn [stream_sources]. eapply bind_fine; [by apply (select_fine o Ho)|]. cbv zeta.
  apply Nat.ltb_ge in Hsz. by rewrite Hsz, Hl.
Qed.

Lemma stream_stop size ctx caller o fuel acc next n :
  (forall k, o k = None) -> (List.length (source_page next size d) < size)%nat ->
  stream_sources (S fuel) size ctx caller acc next o n d =
  (Ok (Some (acc ++ List.filter (source_visible ctx caller) (source_page next size d))), S n, d).
Proof using.
  intros Ho Hsz. cbn [stream_sources]. eapply bind_fine; [by apply (select_fine o Ho)|]. cbv zeta.
  apply Nat.ltb_lt in Hsz. by rewrite Hsz.
Qed.

Lemma page_first size : source_page None size d = take size (by_age d).
Proof using. done. Qed.

Lemma stream_sources_listing size ctx caller o fuel n :
  (0 < size)%nat -> (2 < fuel)%nat -> (forall k, o k = None) -> exists n',
  stream_sources fuel size ctx caller [] None o n d =
  (Ok (Some (List.filter (source_visible ctx caller) (listing size (by_age d)))), n', d).
Proof using Hd.
  intros Hsz Hf Ho. destruct fuel as [|[|[|fuel]]]; [lia..|]. set (l := by_age d). unfold listing. fold l.
  destruct (Nat.ltb_spec (List.length l) size) as [H1|H1].
  { eexists. rewrite stream_stop; rewrite ?page_first, ?length_take; fold l; [|done|lia].
    by rewrite take_ge by lia. }
  destruct (last_take_lookup l size) as (x & Hx & Hi); [lia|].
  rewrite (stream_step _ _ _ _ _ _ _ _ x); rewrite ?page_first, ?length_take; fold l; [|done..|lia].
  pose proof (page_after _ _ size Hi) as Hpage. replace (S (size - 1)) with size in Hpage by lia. fold l in Hpage.
  destruct (Nat.ltb_spec (List.length l) (2 * size)) as [H2|H2].
  { eexists. rewrite stream_stop; rewrite ?Hpage, ?length_take, ?length_reverse, ?length_drop; [|done|lia].
    rewrite (take_ge (reverse (drop size l))) by (rewrite length_reverse, length_drop; lia). by rewrite List.filter_app. }
  destruct (last_take_lookup (reverse (drop size l)) size) as (y & Hy & Hj); [rewrite length_reverse, length_drop; lia|].
  rewrite (stream_step _ _ _ _ _ _ _ _ y); rewrite ?Hpage, ?length_take, ?length_reverse, ?length_drop; [|done..|lia].
  rewrite reverse_lookup in Hj by (rewrite length_drop; lia). rewrite lookup_drop, length_drop in Hj.
  pose proof (page_after _ _ size Hj) as Hpage'. fold l in Hpage'.
  replace (S (size + (List.length l - size - S (size - 1)))) with (List.length l - size + 1)%nat in Hpage' by lia.
  eexists. rewrite stream_stop; rewrite ?Hpage', ?length_take, ?length_reverse, ?length_drop; [|done|lia].
  rewrite !take_reverse, !length_drop, !drop_drop.
  replace (size + (List.length l - size - size))%nat with (List.length l - size)%nat by lia.
  replace (List.length l - size + 1 + (List.length l - (List.length l - size + 1) - size))%nat
    with (List.length l - size + 1)%nat by lia.
  by rewrite !List.filter_app, <-app_assoc.
Qed.
End Pages.

Lemma listing_small size l : (List.length l < 2 * size)%nat -> listing size l ≡ₚ l.
Proof.
  intros H. unfold listing. destruct (Nat.ltb_spec (List.length l) size); [done|].
  destruct (Nat.ltb_spec (List.length l) (2 * size)); [|lia].
  by rewrite reverse_Permutation, take_drop.
Qed.

(** From two full pages on, the youngest source is collected twice and the
    sources between the oldest and the youngest page not at all. *)
Theorem stream_sources_overflow d size ctx o fuel n :
  distinct_times d -> (1 < size)%nat -> (2 * size <= List.length (by_age d))%nat -> (2 < fuel)%nat ->
  (forall k, o k = None) ->
  exists rows n', stream_sources fuel size ctx None [] None o n d = (Ok (Some rows), n', d) /\ ~ NoDup rows /\
    forall i r, (size <= i < List.length (by_age d) - size)%nat -> by_age d !! i = Some r -> r ∉ rows.
Proof.
  intros Hd Hs Hlen Hf Ho. destruct (stream_sources_listing d Hd size ctx None o fuel n) as [n' E]; [lia|done..|].
  rewrite E. exists (listing size (by_age d)), n'.
  assert (Hall : List.filter (source_visible ctx None) (listing size (by_age d)) = listing size (by_age d))
    by (apply forallb_filter_id, forallb_true_iff; done).
  rewrite Hall. split; [done|]. set (l := by_age d) in *. set (len := List.length l) in *.
  assert (Hl : listing size l = take size l ++ reverse (drop (len - size) l) ++ reverse (drop (len - size + 1) l)).
  { unfold listing. fold len. rewrite !(proj2 (Nat.ltb_ge _ _)) by lia. done. }
  rewrite Hl. split.
  - intros (_ & _ & (_ & Hnd & _)%NoDup_app)%NoDup_app. destruct (lookup_lt_is_Some_2 l (len - 1)) as [x Hx]; [lia|].
    apply (Hnd x); apply elem_of_reverse, list_elem_of_lookup.
    + exists (size - 1)%nat. rewrite lookup_drop. by replace (len - size + (size - 1))%nat with (len - 1)%nat by lia.
    + exists (size - 2)%nat. rewrite lookup_drop. by replace (len - size + 1 + (size - 2))%nat with (len - 1)%nat by lia.
  - intros i r Hi Hr Hin.
    assert (Huniq : forall j, l !! j = Some r -> j = i).
    { intros j Hj. eapply NoDup_lookup; [|exact Hj|exact Hr].
      unfold l. rewrite by_age_perm. apply NoDup_map_to_list. }
    rewrite !elem_of_app, !elem_of_reverse in Hin. destruct Hin as [(j & Hj & Hlt)%elem_of_take|Hin].
    + apply Huniq in Hj. lia.
    + destruct Hin as [[j Hj]%list_elem_of_lookup|[j Hj]%list_elem_of_lookup]; rewrite lookup_drop in Hj;
        apply Huniq in Hj; lia.
Qed.

Definition listed_info (d : DB) (r : string * SourceRow) : SourceInfo :=
  with_status (buildSourceInfo (fst r) (snd r)) (sync_status_of <$> d_sync d !! so_id (snd r)).

Lemma fetchSyncStatus_total name row o n d :
  (forall k, o k = None) -> d_source d !! name = Some row ->
  fetchSyncStatus name o n d = (Ok (sync_status_of <$> d_sync d !! so_id row), S n, d).
Proof.
  intros Ho Hs. destruct (d_sync d !! so_id row) as [st|] eqn:Hy; [by apply fetchSyncStatus_fine with row|].
  unfold fetchSyncStatus. apply (bind_fine o _ _ _ _ (Err no_rows) (S n) d); [|done].
  apply attempt_fine, (select_none o Ho). unfold row_or_none. rewrite Hs. cbn. by rewrite Hy.
Qed.

Lemma infos_of_fine rows o n d :
  (forall k, o k = None) -> (forall r, r ∈ rows -> d_source d !! fst r = Some (snd r)) ->
  infos_of rows o n d = (Ok (listed_info d <$> rows), (n + List.length rows)%nat, d).
Proof.
  intros Ho. revert n. induction rows as [|[name row] rows IH]; intros n Hr.
  - cbn. by rewrite Nat.add_0_r.
  - cbn [infos_of]. eapply bind_fine; [apply (fetchSyncStatus_total name row); [done|]; apply (Hr (name, row)); set_solver|].
    eapply bind_fine; [apply IH; set_solver|]. cbn. by rewrite Nat.add_succ_r.
Qed.

Lemma stream_sources_sound fuel size ctx caller acc next o n d rows n' d' :
  stream_sources fuel size ctx caller acc next o n d = (Ok (Some rows), n', d') ->
  forall r, r ∈ rows -> r ∈ acc \/ (d_source d !! fst r = Some (snd r) /\ source_visible ctx caller r = true).
Proof.
  revert acc next n. induction fuel as [|fuel IH]; intros acc next n H r Hr; cbn [stream_sources] in H; [done|].
  select_in H batch Eb. injection Eb as <-.
  set (acc' := acc ++ List.filter (source_visible ctx caller) (source_page next size d)) in H.
  assert (Hacc : r ∈ acc' -> r ∈ acc \/ (d_source d !! fst r = Some (snd r) /\ source_visible ctx caller r = true)).
  { intros [?|Hin]%elem_of_app; [by left|right]. apply list_elem_of_In, filter_In in Hin as [Hin%list_elem_of_In Hv].
    apply page_candidates in Hin as [Hin _]. destruct r. by apply elem_of_map_to_list in Hin. }
  cbv zeta in H. destruct (_ <? _)%nat; [apply ret_run_ok in H as ([= ->] & _); auto|].
  destruct (last _) as [l|]; [|apply ret_run_ok in H as ([= ->] & _); auto].
  destruct (IH _ _ _ H r Hr); auto.
Qed.

Lemma ListSources_run fuel s ctx o n d rows n1 :
  (forall k, o k = None) ->
  stream_sources fuel MaxPageSize ctx (caller_claims s ctx) [] None o (S n) d = (Ok (Some rows), n1, d) ->
  exists n', ListSources fuel s ctx o n d = (Ok (Some (listed_info d <$> rows)), n', d).
Proof.
  intros Ho E. eexists. eapply (read_transaction_fine o Ho). eapply bind_fine; [apply wrapping_fine, E|].
  cbv beta iota. eapply bind_fine; [apply infos_of_fine; [done|]|reflexivity].
  intros r Hr. by destruct (stream_sources_sound _ _ _ _ _ _ _ _ _ _ _ _ E r Hr) as [?%elem_of_nil|[? _]].
Qed.

(** Listing sources terminates: with more fuel than there are sources, the
    loop over pages ends, whatever the times of creation and the claims, and
    lists only sources the caller sees, as they are stored. *)
Lemma ListSources_terminates s ctx o fuel n d :
  (forall k, o k = None) -> (size (d_source d) < fuel)%nat ->
  exists infos n', ListSources fuel s ctx o n d = (Ok (Some infos), n', d) /\
    forall i, i ∈ infos -> exists name row, d_source d !! name = Some row /\
      source_visible ctx (caller_claims s ctx) (name, row) = true /\ i = listed_info d (name, row).
Proof.
  intros Ho Hf. destruct (stream_sources_total MaxPageSize ctx (caller_claims s ctx) o fuel [] None (S n) d Ho)
    as (rows & n1 & E).
  { unfold candidates. rewrite forallb_filter_id by (by apply forallb_true_iff). by rewrite length_map_to_list. }
  destruct (ListSources_run _ _ _ _ _ _ _ _ Ho E) as [n' H]. exists (listed_info d <$> rows), n'. split; [done|].
  intros i ([name row] & -> & Hr)%list_elem_of_fmap.
  destruct (stream_sources_sound _ _ _ _ _ _ _ _ _ _ _ _ E _ Hr) as [?%elem_of_nil|[? ?]]; [done|]. eauto.
Qed.

(** With fewer than two full pages of sources, created at different
    instants, [ListSources] returns exactly the sources the caller sees, each
    once, with its stored settings and its sync status. *)
Lemma ListSources_exact s ctx o fuel n d :
  (forall k, o k = None) -> distinct_times d -> (size (d_source d) < 2 * MaxPageSize)%nat -> (2 < fuel)%nat ->
  exists infos n', ListSources fuel s ctx o n d = (Ok (Some infos), n', d) /\
    infos ≡ₚ listed_info d <$> List.filter (source_visible ctx (caller_claims s ctx)) (map_to_list (d_source d)).
Proof.
  intros Ho Hd Hs Hf.
  destruct (stream_sources_listing d Hd MaxPageSize ctx (caller_claims s ctx) o fuel (S n)) as [n1 E];
    [unfold MaxPageSize; lia|done..|].
  destruct (ListSources_run _ _ _ _ _ _ _ _ Ho E) as [n' H]. eexists _, n'. split; [exact H|].
  apply fmap_Permutation, filter_perm. rewrite listing_small; [apply by_age_perm|].
  by rewrite by_age_perm, length_map_to_list.
Qed.

(** *** Entries of a source *)

Lemma entry_key_inj t1 n1 t2 n2 : entry_key t1 n1 = entry_key t2 n2 <-> t1 = t2 /\ n1 = n2.
Proof.
  unfold entry_key. split; [|by intros [-> ->]].
  destruct t1, t2; cbn; intros H; try discriminate H; injection H as H; auto.
Qed.

Definition of_entry (ty : EntryType) (nm : string) (r : EntryVersionRow) : bool :=
  bool_decide (er_type r = ty) && String.eqb (er_name r) nm.
Definition info_of (ty : EntryType) (nm : string) (i : SourceEntryInfo) : bool :=
  bool_decide (se_EntryType i = ty) && String.eqb (se_Name i) nm.

(** The entry the rows of one type and name make. *)
Definition gathered (ty : EntryType) (nm : string) (rows : list EntryVersionRow) : option SourceEntryInfo :=
  match List.filter (of_entry ty nm) rows with
  | [] => None
  | (r :: _) as l => Some {| se_EntryType := ty; se_Name := nm; se_Claims := DeserializeClaims (er_claims r);
                           se_Versions := version_of <$> l |}
  end.

Lemma info_of_key ty nm i : info_of ty nm i = String.eqb (info_key i) (entry_key ty nm).
Proof.
  apply bool_eq_iff. unfold info_of, info_key. rewrite andb_true_iff, bool_decide_eq_true, !String.eqb_eq.
  by rewrite entry_key_inj.
Qed.

Lemma of_entry_key ty nm r : of_entry ty nm r = String.eqb (entry_key (er_type r) (er_name r)) (entry_key ty nm).
Proof.
  apply bool_eq_iff. unfold of_entry. rewrite andb_true_iff, bool_decide_eq_true, !String.eqb_eq.
  by rewrite entry_key_inj.
Qed.

Definition new_info (r : EntryVersionRow) : SourceEntryInfo :=
  {| se_EntryType := er_type r; se_Name := er_name r; se_Claims := DeserializeClaims (er_claims r);
     se_Versions := [version_of r] |}.
Definition extend_info (r : EntryVersionRow) (i : SourceEntryInfo) : SourceEntryInfo :=
  {| se_EntryType := se_EntryType i; se_Name := se_Name i; se_Claims := se_Claims i;
     se_Versions := se_Versions i ++ [version_of r] |}.

Lemma find_add_version ty nm r acc :
  find (info_of ty nm) (add_version r acc) =
  if of_entry ty nm r then Some (default (new_info r) (extend_info r <$> find (info_of ty nm) acc))
  else find (info_of ty nm) acc.
Proof.
  rewrite of_entry_key. induction acc as [|i acc IH]; cbn.
  - rewrite info_of_key. unfold info_key. cbn. by destruct (String.eqb _ _).
  - destruct (String.eqb_spec (info_key i) (entry_key (er_type r) (er_name r))) as [E|E]; cbn.
    + rewrite !info_of_key. unfold info_key at 1. cbn. fold (info_key i). rewrite E.
      by destruct (String.eqb _ _).
    + rewrite info_of_key, IH. destruct (String.eqb_spec (info_key i) (entry_key ty nm)) as [E2|E2]; [|done].
      destruct (String.eqb_spec (entry_key (er_type r) (er_name r)) (entry_key ty nm)); [congruence|done].
Qed.

Lemma keys_add_version r acc :
  info_key <$> add_version r acc =
  if bool_decide (entry_key (er_type r) (er_name r) ∈ info_key <$> acc) then info_key <$> acc
  else (info_key <$> acc) ++ [entry_key (er_type r) (er_name r)].
Proof.
  induction acc as [|i acc IH]; cbn; [done|].
  destruct (String.eqb_spec (info_key i) (entry_key (er_type r) (er_name r))) as [E|E]; cbn.
  - unfold info_key at 1. cbn. fold (info_key i). rewrite bool_decide_eq_true_2; [done|]. rewrite E. set_solver.
  - rewrite IH. repeat case_bool_decide; set_solver.
Qed.

(** The grouping of [ListSourceEntries] is exact: one entry per type and name
    that has a row, with the claims of its first row and the versions of all its
    rows in their order. *)
Lemma group_entries_exact rows :
  NoDup (info_key <$> group_entries rows) /\
  forall ty nm, find (info_of ty nm) (group_entries rows) = gathered ty nm rows.
Proof.
  unfold group_entries. induction rows as [|r rows [IH1 IH2]] using rev_ind; [by split; [constructor|]|].
  rewrite foldl_app. cbn. split.
  - rewrite keys_add_version. case_bool_decide; [done|]. apply NoDup_app. split; [done|].
    split; [set_solver|apply NoDup_singleton].
  - intros ty nm. rewrite find_add_version, IH2. unfold gathered. rewrite List.filter_app. cbn.
    destruct (of_entry ty nm r) eqn:E; [|by rewrite app_nil_r].
    unfold of_entry in E. apply andb_true_iff in E as [<-%bool_decide_eq_true <-%String.eqb_eq].
    destruct (List.filter _ rows) as [|r0 l]; cbn; [done|]. unfold extend_info. cbn. by rewrite fmap_app.
Qed.
End Correct.

(** One API-created and one configured source; a caller of the first's team
    creates, reads, changes, lists and deletes sources. *)
Module SourcesExample.
#[local] Existing Instance ClaimsJson.codec.
#[local] Existing Instance ClaimsJson.laws.
#[local] Existing Instance InitializeExample.marshal.
#[local] Existing Instance SyncExample.codec.
#[local] Existing Instance SyncExample.bytewise.
#[local] Instance no_files : FileSystem :=
  {| EvalSymlinks := fun _ => Err (EMsg ""); Stat := fun _ => Err (EMsg ""); ReadFile := fun _ => Err (EMsg "") |}.
#[local] Instance no_registry : RegistryParser := {| parse_registry := fun _ => None |}.

Definition acme : claims := {[ "org" := VString "acme" ]}.
Definition svc : dbService := {| sv_skipAuthz := false; sv_maxMetaSize := 0 |}.
Definition ctx : Ctx := {| ctx_claims := Some acme; ctx_roles := []; ctx_holder := false |}.
Definition fine : Oracle := fun _ => None.

Definition request : SourceCreateRequest :=
  {| sr_Git := Some {| git_Repository := "https://git.example/r"; git_Branch := "main"; git_Tag := "";
                       git_Commit := ""; git_Path := ""; git_Auth := None |};
     sr_API := None; sr_File := None; sr_Managed := None; sr_Kubernetes := None;
     sr_SyncPolicy := Some {| sp_Interval := "30m" |}; sr_Filter := None; sr_Claims := Some acme |}.

Definition row (id : uuid) (c : CreationType) (created : Z) : SourceRow :=
  {| so_id := id; so_creation_type := c; so_source_type := SourceTypeGit; so_source_config := "{}";
     so_filter_config := ""; so_sync_schedule := None; so_syncable := true;
     so_claims := SerializeClaims (Some acme); so_created_at := created |}.
Definition entry : EntryRow := {| en_id := 3; en_claims := "" |}.
Definition d0 : DB :=
  {| d_next := 4; d_source := {[ "ours" := row 1 CreationTypeAPI 1; "theirs" := row 2 CreationTypeCONFIG 2 ]};
     d_registry := ∅; d_registry_source := ∅;
     d_entry := {[ (1%nat, EntryTypeMCP, "io.acme/db") := entry ]};
     d_version := ∅; d_latest := ∅; d_server := ∅; d_package := ∅; d_remote := ∅; d_icon := ∅;
     d_sync := {[ 1%nat := initial_row 0 SyncStatusCOMPLETED "" ]}; d_skill := ∅; d_plugin := ∅ |}.

Lemma d0_rows name s : d_source d0 !! name = Some s ->
  (name = "ours" /\ so_id s = 1%nat) \/ (name = "theirs" /\ so_id s = 2%nat).
Proof.
  cbn. intros [[<- <-]|[_ H]]%lookup_insert_Some; [by left|]. apply lookup_singleton_Some in H as [<- <-]. by right.
Qed.

Lemma d0_unique : ids_unique d0.
Proof. intros n1 n2 s1 s2 H1%d0_rows H2%d0_rows E. naive_solver congruence. Qed.

Lemma d0_core : wf_core d0.
Proof.
  split; cbn.
  - intros k e [<- <-]%lookup_singleton_Some. cbn. lia.
  - by intros k1 k2 e1 e2 [<- _]%lookup_singleton_Some [<- _]%lookup_singleton_Some _.
  - by intros k r ?%lookup_empty_Some.
  - by intros k1 k2 r1 r2 ?%lookup_empty_Some.
  - by intros eid v r ?%lookup_empty_Some.
  - by intros sid nm v vid ?%lookup_empty_Some.
  - lia.
Qed.

Lemma acme_storable : storable acme.
Proof.
  split; intros k v Hv; unfold acme in Hv; apply lookup_singleton_Some in Hv as [<- <-]; [done|]. split; [done|]. by repeat constructor.
Qed.

Definition created := CreateSource 7 svc ctx "new" request fine 0 d0.
Definition new_row : SourceRow := request_row request "{}" "" 4 CreationTypeAPI 7.

Lemma CreateSource_correct_witness :
  creatable svc ctx "new" request d0 /\ d_source (snd created) !! "new" = Some new_row.
Proof.
  pose proof (CreateSource_correct 7 svc ctx "new" request fine 0 d0 _ _ (snd created) eq_refl) as H.
  vm_compute fst in H. destruct H as [H _]. split; [exact H|vm_compute; reflexivity].
Defined.

Lemma CreateSource_read_back_witness : exists info m',
  service_GetSourceByName svc ctx "new" fine 0 (snd created) = (Ok info, m', snd created) /\
  si_SyncStatus info = Some (sync_status_of (request_status 7 request)).
Proof.
  eexists. edestruct (CreateSource_read_back 7 svc ctx "new" request fine 0 d0 (buildSourceInfo "new" new_row)
    (snd (fst created)) (snd created) fine 0) as [m' H]; [vm_compute; reflexivity|exact acme_storable|
    vm_compute; reflexivity|reflexivity|]. exists m'. split; [exact H|reflexivity].
Defined.

Definition updated := UpdateSource svc ctx "ours" request fine 0 d0.

Lemma UpdateSource_correct_witness :
  updatable svc ctx (row 1 CreationTypeAPI 1) request /\
  d_source (snd updated) !! "ours" = Some (request_row request "{}" "" 1 CreationTypeAPI 1).
Proof.
  pose proof (UpdateSource_correct svc ctx "ours" request fine 0 d0 _ _ (snd updated) eq_refl) as H.
  vm_compute fst in H. destruct H as (r & Hr & H & _). vm_compute in Hr. injection Hr as <-.
  split; [exact H|vm_compute; reflexivity].
Defined.

Definition dropped := DeleteSource svc ctx "ours" fine 0 d0.

Lemma DeleteSource_correct_witness :
  source_removed "ours" (row 1 CreationTypeAPI 1) d0 (snd dropped).
Proof.
  pose proof (DeleteSource_correct svc ctx "ours" fine 0 d0 _ _ (snd dropped) d0_unique d0_core eq_refl) as H.
  vm_compute fst in H. destruct H as (r & Hr & _ & H). vm_compute in Hr. injection Hr as <-. exact H.
Defined.

Lemma ListSources_terminates_witness : exists infos n',
  ListSources 3 svc ctx fine 0 d0 = (Ok (Some infos), n', d0) /\ List.length infos = 2%nat.
Proof.
  destruct (ListSources_terminates svc ctx fine 3 0 d0) as (infos & n' & H & _); [reflexivity|vm_compute; lia|].
  exists infos, n'. split; [exact H|]. vm_compute in H. injection H as <- _. reflexivity.
Defined.

Lemma ListSources_exact_witness : exists infos n',
  ListSources 3 svc ctx fine 0 d0 = (Ok (Some infos), n', d0) /\ si_Name <$> infos = ["ours"; "theirs"].
Proof.
  destruct (ListSources_exact svc ctx fine 3 0 d0) as (infos & n' & H & _);
    [reflexivity|apply (bool_decide_unpack _); vm_compute; reflexivity|vm_compute; lia|lia|].
  exists infos, n'. split; [exact H|]. vm_compute in H. injection H as <- _. reflexivity.
Defined.
End SourcesExample.
