(* ===== verification/Fetching.v ===== *)
(** * Fetching sources

    The handlers of [internal/sources] ([factory.go], [api.go],
    [api_upstream.go], [file.go], [git.go]), the HTTP client of
    [internal/httpclient] and the git client of [internal/git/client.go]: what
    the sync manager calls through [Sync.SourceHandlers].

    The network, go-git, YAML, JSON and SHA-256 are parameters.  The [k]-th
    request of a fetch may be answered differently from the others. *)

From stdpp Require Import base list strings gmap.
From Stdlib Require Import String Ascii ZArith Lia.
From S2P Require Import Prelude GoStrings Validators Claims ConfigTypes Durations Config Upstream Sync Sources.

Local Open Scope string_scope.
Local Open Scope list_scope.

(** ** [internal/httpclient] *)

(** [http.Response]: the bytes its body delivers, and whether reading fails after
    them. *)
Record HttpResponse := { hr_StatusCode : Z; hr_ContentLength : Z; hr_Body : bytes; hr_Broken : bool }.

(** [http.NewRequest] and [Client.Do] with a timeout, for the [k]-th request. *)
Class Http := {
  NewRequest : string -> result ();
  Do : nat -> Z -> string -> result HttpResponse }.

Definition DefaultTimeout : Z := 10 * Second.
Definition MaxResponseSize : Z := 100 * 1024 * 1024.

(** [io.LimitReader] of [n] bytes under [io.ReadAll]. *)
Fixpoint limit_bytes (n : Z) (l : bytes) : bytes :=
  match l with
  | [] => []
  | c :: l' => if (n <=? 0)%Z then [] else c :: limit_bytes (n - 1) l'
  end.
Definition read_limited (n : Z) (body : bytes) (broken : bool) : result bytes :=
  let got := limit_bytes n body in
  if broken && (Z.of_nat (List.length got) <? n)%Z then Err (EMsg "unexpected EOF") else Ok got.

Definition NewDefaultClient (timeout : Z) : Z := if (timeout =? 0)%Z then DefaultTimeout else timeout.

Definition NewHTTPError : error := EMsg "HTTP %d for URL %s: %s".

Definition Get `{H : Http} (timeout : Z) (k : nat) (url : string) : result string :=
  with_context "failed to create request: %w" (NewRequest url) ;;;
  resp <- with_context "failed to execute request: %w" (Do k timeout url) ;;
  guard_err (negb (hr_StatusCode resp =? 200)%Z) NewHTTPError ;;;
  guard_err (MaxResponseSize <? hr_ContentLength resp)%Z (EMsg "response size %d bytes exceeds maximum allowed size of %d bytes (%.2f MB)") ;;;
  body <- with_context "failed to read response body: %w" (read_limited (MaxResponseSize + 1) (hr_Body resp) (hr_Broken resp)) ;;
  guard_err (MaxResponseSize <? Z.of_nat (List.length body))%Z (EMsg "response size exceeds maximum allowed size of %d bytes (%.2f MB)") ;;;
  Ok (of_bytes body).

(** ** Results *)

Definition NewFetchResult (reg : UpstreamRegistry) (hash : string) : FetchResult :=
  {| fr_Registry := reg; fr_Hash := hash; fr_ServerCount := Z.of_nat (List.length (ur_Servers reg));
     fr_SkillCount := Z.of_nat (List.length (ur_Skills reg)); fr_PluginCount := Z.of_nat (List.length (ur_Plugins reg)) |}.

(** Hex of the SHA-256 of a text. *)
Class Sha256 := { sha256_hex : string -> string }.

(** ** [api_upstream.go] *)

(** [yaml.Unmarshal] of the description, [json.Unmarshal] of a page (its servers
    and the next cursor), [json.Marshal] of the data of a registry. *)
Class UpstreamCodec := {
  yaml_Unmarshal : string -> option (list (string * any));
  page_Unmarshal : string -> option (list ServerJSON * string);
  data_Marshal : list ServerJSON -> list Skill -> list Plugin -> option string }.

(** [strings.Contains] *)
Definition Contains (s sub : string) : bool := match String.index 0 sub s with Some _ => true | None => false end.

(** [url.QueryEscape] *)
Definition hex_digit (n : N) : ascii := ascii_of_N (if (n <? 10)%N then 48 + n else 55 + n).
Definition query_plain (c : ascii) : bool :=
  alnum c || Ascii.eqb c "-" || Ascii.eqb c "_" || Ascii.eqb c "." || Ascii.eqb c "~".
Definition query_byte (c : ascii) : bytes :=
  if query_plain c then [c]
  else if Ascii.eqb c " " then ["+"%char]
  else ["%"%char; hex_digit (N_of_ascii c / 16); hex_digit (N_of_ascii c mod 16)].
Definition QueryEscape (s : string) : string := of_bytes (to_bytes s ≫= query_byte).

Definition maxPaginationPages : nat := 1000.
Definition maxServers : Z := 100000.
Definition UpstreamRegistrySchemaURL : string :=
  "https://raw.githubusercontent.com/stacklok/toolhive-core/main/" +:+ "registry/types/data/upstream-registry.schema.json".
Definition UpstreamRegistryVersion : string := "1.0.0".
Definition expectedGitHubURL : string := "https://github.com/modelcontextprotocol/registry".

Definition getBaseURL (api : APIConfig) : string :=
  let baseURL := to_bytes (api_Endpoint api) in
  match last baseURL with
  | Some c => if Ascii.eqb c "/" then of_bytes (take (List.length baseURL - 1) baseURL) else api_Endpoint api
  | None => api_Endpoint api
  end.

Section Upstream.
Context `{H : Http} `{SH : Sha256} `{UC : UpstreamCodec}.

Definition upstream_Validate (timeout : Z) (endpoint : string) : result () :=
  let openapiURL := endpoint +:+ "/openapi.yaml" in
  data <- with_context "failed to fetch /openapi.yaml: %w" (Get timeout 0 openapiURL) ;;
  match yaml_Unmarshal data with
  | None => Err (EMsg "failed to parse /openapi.yaml: %w")
  | Some openapiSpec =>
      match map_get "info" openapiSpec with
      | Some (VMap info) =>
          match map_get "version" info with
          | Some (VString version) =>
              guard_err (negb (String.eqb version "1.0.0")) (EMsg "/openapi.yaml version is %s, expected 1.0.0") ;;;
              match map_get "description" info with
              | Some (VString description) =>
                  guard_err (negb (Contains description expectedGitHubURL)) (EMsg "/openapi.yaml description does not contain expected GitHub URL: %s")
              | _ => Err (EMsg "/openapi.yaml info section missing 'description' field")
              end
          | _ => Err (EMsg "/openapi.yaml info section missing 'version' field")
          end
      | _ => Err (EMsg "/openapi.yaml missing 'info' section")
      end
  end.

Definition page_url (baseURL cursor : string) : string :=
  let requestURL := baseURL +:+ "/v0.1/servers?limit=100" in
  if String.eqb cursor "" then requestURL else requestURL +:+ "&cursor=" +:+ QueryEscape cursor.

Definition fetch_page (timeout : Z) (baseURL : string) (k : nat) (cursor : string) : result (list ServerJSON * string) :=
  data <- with_context "failed to fetch page %d: %w" (Get timeout k (page_url baseURL cursor)) ;;
  match page_Unmarshal data with
  | None => Err (EMsg "failed to parse response page %d: %w")
  | Some page => Ok page
  end.

(** The loop: [left] is [maxPaginationPages] less the pages fetched, [k] the page
    to fetch. *)
Fixpoint fetch_pages (timeout : Z) (baseURL : string) (left k : nat) (cursor : string) (allServers : list ServerJSON)
    : result (list ServerJSON) :=
  match left with
  | O => Err (EMsg "pagination exceeded maximum pages (%d), possible infinite loop or malicious upstream")
  | S left' =>
      page <- fetch_page timeout baseURL k cursor ;;
      let '(servers, nextCursor) := page in
      guard_err (maxServers <? Z.of_nat (List.length allServers) + Z.of_nat (List.length servers))%Z
        (EMsg "total servers (%d) would exceed maximum (%d), could cause out of service") ;;;
      let allServers := allServers ++ servers in
      if String.eqb nextCursor "" then Ok allServers
      else fetch_pages timeout baseURL left' (S k) nextCursor allServers
  end.

Definition fetchAllServers (timeout : Z) (baseURL : string) : result (list ServerJSON) :=
  fetch_pages timeout baseURL maxPaginationPages 1 "" [].

(** [now] is the time in RFC 3339. *)
Definition buildUpstreamRegistry (now : string) (servers : list ServerJSON) : UpstreamRegistry :=
  {| ur_Schema := UpstreamRegistrySchemaURL; ur_Version := UpstreamRegistryVersion; ur_LastUpdated := now;
     ur_Servers := servers; ur_Skills := []; ur_Plugins := [] |}.

Definition calculateHash (reg : UpstreamRegistry) : result string :=
  match data_Marshal (ur_Servers reg) (ur_Skills reg) (ur_Plugins reg) with
  | None => Err (EMsg "failed to marshal registry data: %w")
  | Some data => Ok (sha256_hex data)
  end.

Definition upstream_FetchRegistry (timeout : Z) (now : string) (api : APIConfig) : result FetchResult :=
  let baseURL := getBaseURL api in
  servers <- with_context "failed to fetch servers: %w" (fetchAllServers timeout baseURL) ;;
  let upstreamReg := buildUpstreamRegistry now servers in
  hash <- with_context "failed to calculate hash: %w" (calculateHash upstreamReg) ;;
  Ok (NewFetchResult upstreamReg hash).

(** ** [api.go] *)

Definition api_Validate (regCfg : option SourceConfig) : result APIConfig :=
  match regCfg with
  | None => Err (EMsg "registry configuration cannot be nil")
  | Some cfg =>
      match src_API cfg with
      | None => Err (EMsg "api configuration is required")
      | Some api => if String.eqb (api_Endpoint api) "" then Err (EMsg "api endpoint cannot be empty") else Ok api
      end
  end.

Definition newUpstreamHandler (api : APIConfig) : result Z :=
  if String.eqb (api_Timeout api) "" then Ok (NewDefaultClient DefaultTimeout)
  else
    parsed <- with_context "invalid api timeout %q: %w" (Duration.ParseDuration (api_Timeout api)) ;;
    Ok (NewDefaultClient parsed).

Definition validateUpstreamFormat (timeout : Z) (api : APIConfig) : result () :=
  match upstream_Validate timeout (getBaseURL api) with
  | Err _ => Err (EMsg "unable to validate Upstream format")
  | Ok _ => Ok ()
  end.

Definition api_FetchRegistry (now : string) (regCfg : option SourceConfig) : result FetchResult :=
  api <- with_context "registry validation failed: %w" (api_Validate regCfg) ;;
  timeout <- newUpstreamHandler api ;;
  with_context "upstream format validation failed: %w" (validateUpstreamFormat timeout api) ;;;
  upstream_FetchRegistry timeout now api.
End Upstream.

(** ** [file.go] *)

Section File.
Context `{H : Http} `{SH : Sha256} `{Fs : FileSystem} `{RP : RegistryParser}.
(** [os.IsNotExist] *)
Context (IsNotExist : error -> bool).

Definition DefaultURLTimeout : Z := 30 * Second.

Definition file_Validate (regCfg : option SourceConfig) : result FileConfig :=
  match regCfg with
  | None => Err (EMsg "registry configuration cannot be nil")
  | Some cfg =>
      match src_File cfg with
      | None => Err (EMsg "file configuration is required")
      | Some file =>
          let hasPath := negb (String.eqb (file_Path file) "") in
          let hasURL := negb (String.eqb (file_URL file) "") in
          if negb hasPath && negb hasURL then Err (EMsg "file path or url cannot be empty")
          else if hasPath && hasURL then Err (EMsg "file path and url are mutually exclusive")
          else Ok file
      end
  end.

Definition isURLSource (file : FileConfig) : bool := negb (String.eqb (file_URL file) "").

(** The data and its hash. *)
Definition fetchLocalFileData (file : FileConfig) : result (string * string) :=
  match ReadFile (file_Path file) with
  | Err err => if IsNotExist err then Err (EMsg "file not found: %s") else Err (EMsg "failed to read file %s: %w")
  | Ok data => Ok (data, sha256_hex data)
  end.

Definition fetchURLData (file : FileConfig) : result (string * string) :=
  timeout <- (if String.eqb (file_Timeout file) "" then Ok (NewDefaultClient DefaultURLTimeout)
              else timeout <- with_context "invalid timeout: %w" (Duration.ParseDuration (file_Timeout file)) ;;
                   Ok (NewDefaultClient timeout)) ;;
  data <- with_context "failed to fetch URL %s: %w" (Get timeout 0 (file_URL file)) ;;
  Ok (data, sha256_hex data).

Definition fetchData (regCfg : option SourceConfig) : result (string * string) :=
  file <- with_context "registry validation failed: %w" (file_Validate regCfg) ;;
  if isURLSource file then fetchURLData file else fetchLocalFileData file.

Definition file_FetchRegistry (regCfg : option SourceConfig) : result FetchResult :=
  got <- with_context "failed to fetch data: %w" (fetchData regCfg) ;;
  let '(data, hash) := got in
  reg <- with_context "validation failed: %w" (ValidateData data) ;;
  Ok (NewFetchResult reg hash).
End File.

(** ** [internal/git/client.go] *)

Record GitCredentials := { gc_Username : string; gc_Password : string }.
Record CloneConfig := { cc_URL : string; cc_Branch : string; cc_Tag : string; cc_Commit : string; cc_Auth : option GitCredentials }.
(** [git.CloneOptions] of go-git; a reference is a branch or a tag by name. *)
Inductive ReferenceName := BranchReference (name : string) | TagReference (name : string).
Record CloneOptions := {
  co_URL : string; co_Auth : option GitCredentials; co_Depth : Z; co_ReferenceName : option ReferenceName; co_SingleBranch : bool }.

(** go-git: a clone into the limited file systems, a checkout of a commit, and the
    way from the head of a repository to a file of it.  A head is the name of its
    branch, if it is one, and its hash. *)
Class GoGit := {
  gitrepo : Type;
  gitcommit : Type;
  gittree : Type;
  gitfile : Type;
  CloneContext : CloneOptions -> result gitrepo;
  Worktree : gitrepo -> result ();
  Checkout : string -> gitrepo -> result gitrepo;
  Head : gitrepo -> result (option string * string);
  CommitObject : gitrepo -> string -> result gitcommit;
  Tree : gitcommit -> result gittree;
  File : gittree -> string -> result gitfile;
  Contents : gitfile -> result string }.

Section Git.
Context `{GG : GoGit}.

Record RepositoryInfo := { ri_Repository : option gitrepo; ri_Branch : string; ri_RemoteURL : string }.

Definition clone_options (config : CloneConfig) : CloneOptions :=
  let auth := match cc_Auth config with
              | Some a => if String.eqb (gc_Username a) "" then None else Some a
              | None => None
              end in
  if String.eqb (cc_Commit config) "" then
    if negb (String.eqb (cc_Branch config) "") then
      {| co_URL := cc_URL config; co_Auth := auth; co_Depth := 1; co_ReferenceName := Some (BranchReference (cc_Branch config)); co_SingleBranch := true |}
    else if negb (String.eqb (cc_Tag config) "") then
      {| co_URL := cc_URL config; co_Auth := auth; co_Depth := 1; co_ReferenceName := Some (TagReference (cc_Tag config)); co_SingleBranch := true |}
    else {| co_URL := cc_URL config; co_Auth := auth; co_Depth := 1; co_ReferenceName := None; co_SingleBranch := false |}
  else {| co_URL := cc_URL config; co_Auth := auth; co_Depth := 0; co_ReferenceName := None; co_SingleBranch := false |}.

Definition updateRepositoryInfo (repoInfo : RepositoryInfo) : result RepositoryInfo :=
  match ri_Repository repoInfo with
  | None => Err (EMsg "repository is nil")
  | Some repo =>
      ref <- with_context "failed to get HEAD reference: %w" (Head repo) ;;
      Ok {| ri_Repository := Some repo; ri_Branch := default (ri_Branch repoInfo) (fst ref); ri_RemoteURL := ri_RemoteURL repoInfo |}
  end.

Definition Clone (config : CloneConfig) : result RepositoryInfo :=
  repo <- with_context "failed to clone repository: %w" (CloneContext (clone_options config)) ;;
  repo <- (if String.eqb (cc_Commit config) "" then Ok repo
           else with_context "failed to get worktree: %w" (Worktree repo) ;;;
                with_context "failed to checkout commit %s: %w" (Checkout (cc_Commit config) repo)) ;;
  with_context "failed to update repository info: %w"
    (updateRepositoryInfo {| ri_Repository := Some repo; ri_Branch := ""; ri_RemoteURL := cc_URL config |}).

Definition GetFileContent (repoInfo : RepositoryInfo) (path : string) : result string :=
  match ri_Repository repoInfo with
  | None => Err (EMsg "repository is nil")
  | Some repo =>
      ref <- with_context "failed to get HEAD reference: %w" (Head repo) ;;
      commit <- with_context "failed to get commit object: %w" (CommitObject repo (snd ref)) ;;
      tree <- with_context "failed to get tree: %w" (Tree commit) ;;
      file <- with_context "failed to get file %s: %w" (File tree path) ;;
      with_context "failed to read file contents: %w" (Contents file)
  end.

(** The repository is gone afterwards. *)
Definition Cleanup (repoInfo : RepositoryInfo) : result RepositoryInfo :=
  match ri_Repository repoInfo with
  | None => Err (EMsg "repository is nil")
  | Some _ => Ok {| ri_Repository := None; ri_Branch := ri_Branch repoInfo; ri_RemoteURL := ri_RemoteURL repoInfo |}
  end.

(** ** [git.go] *)

Context `{SH : Sha256} `{Fs : FileSystem} `{RP : RegistryParser}.

Definition DefaultRegistryDataFile : string := "registry.json".

(** The configuration it leaves, with the default path filled in. *)
Definition git_Validate (regCfg : option SourceConfig) : result GitConfig :=
  match regCfg with
  | None => Err (EMsg "registry configuration cannot be nil")
  | Some cfg =>
      match src_Git cfg with
      | None => Err (EMsg "git configuration is required")
      | Some gitSource =>
          if String.eqb (git_Repository gitSource) "" then Err (EMsg "git repository URL cannot be empty")
          else
            let one (s : string) : nat := if String.eqb s "" then 0%nat else 1%nat in
            let specified := (one (git_Branch gitSource) + one (git_Tag gitSource) + one (git_Commit gitSource))%nat in
            if (1 <? specified)%nat then Err (EMsg "only one of branch, tag, or commit may be specified")
            else if String.eqb (git_Path gitSource) "" then
              Ok {| git_Repository := git_Repository gitSource; git_Branch := git_Branch gitSource; git_Tag := git_Tag gitSource;
                    git_Commit := git_Commit gitSource; git_Path := DefaultRegistryDataFile; git_Auth := git_Auth gitSource |}
            else Ok gitSource
      end
  end.

Definition clone_auth (gitSource : GitConfig) : result (option GitCredentials) :=
  match git_Auth gitSource with
  | None => Ok None
  | Some a =>
      if String.eqb (ga_Username a) "" then Ok None
      else
        password <- with_context "failed to get git password: %w" (GitAuth_GetPassword (Some a)) ;;
        Ok (Some {| gc_Username := ga_Username a; gc_Password := password |})
  end.

Definition fetchRegistryData (regCfg : option SourceConfig) : result string :=
  gitSource <- with_context "registry validation failed: %w" (git_Validate regCfg) ;;
  auth <- clone_auth gitSource ;;
  let cloneConfig := {| cc_URL := git_Repository gitSource; cc_Branch := git_Branch gitSource; cc_Tag := git_Tag gitSource;
                        cc_Commit := git_Commit gitSource; cc_Auth := auth |} in
  repoInfo <- with_context "failed to clone repository: %w" (Clone cloneConfig) ;;
  let filePath := if String.eqb (git_Path gitSource) "" then DefaultRegistryDataFile else git_Path gitSource in
  with_context "failed to get file %s from repository: %w" (GetFileContent repoInfo filePath).

Definition git_FetchRegistry (regCfg : option SourceConfig) : result FetchResult :=
  registryData <- with_context "failed to fetch registry data: %w" (fetchRegistryData regCfg) ;;
  reg <- with_context "registry data validation failed: %w" (ValidateData registryData) ;;
  Ok (NewFetchResult reg (sha256_hex registryData)).
End Git.

(** ** [factory.go] *)

Inductive RegistryHandler := GitRegistryHandler | APIRegistryHandler | FileRegistryHandler.

Definition createHandler (regCfg : option SourceConfig) : result RegistryHandler :=
  match regCfg with
  | None => Err (EMsg "registry configuration cannot be nil")
  | Some cfg =>
      match GetType cfg with
      | SourceTypeNone => Err (EMsg "unable to determine source type from registry configuration")
      | SourceTypeGit => Ok GitRegistryHandler
      | SourceTypeAPI => Ok APIRegistryHandler
      | SourceTypeFile => Ok FileRegistryHandler
      | SourceTypeKubernetes => Err (EMsg "kubernetes source type is not yet implemented")
      | SourceTypeManaged => Err (EMsg "managed registries do not use external sources")
      end
  end.

Section Handlers.
Context `{H : Http} `{SH : Sha256} `{UC : UpstreamCodec} `{Fs : FileSystem} `{RP : RegistryParser} `{GG : GoGit}.
Context (IsNotExist : error -> bool).

(** The methods of the handler the factory makes. *)
Definition handler_Validate (regCfg : SourceConfig) : result () :=
  handler <- createHandler (Some regCfg) ;;
  match handler with
  | GitRegistryHandler => git_Validate (Some regCfg) ;;; Ok ()
  | APIRegistryHandler => api_Validate (Some regCfg) ;;; Ok ()
  | FileRegistryHandler => file_Validate (Some regCfg) ;;; Ok ()
  end.
Definition handler_FetchRegistry (now : string) (regCfg : SourceConfig) : result FetchResult :=
  handler <- createHandler (Some regCfg) ;;
  match handler with
  | GitRegistryHandler => git_FetchRegistry (Some regCfg)
  | APIRegistryHandler => api_FetchRegistry now (Some regCfg)
  | FileRegistryHandler => file_FetchRegistry IsNotExist (Some regCfg)
  end.

(** What the sync manager is given, at one moment. *)
Definition default_handlers (now : string) : SourceHandlers :=
  {| CreateHandler := fun cfg => createHandler (Some cfg) ;;; Ok ();
     Validate := handler_Validate;
     FetchRegistry := handler_FetchRegistry now |}.
End Handlers.

(** ** A response is taken whole or not at all *)

Lemma limit_bytes_length n l : (0 <= n)%Z -> Z.of_nat (List.length (limit_bytes n l)) = Z.min n (Z.of_nat (List.length l)).
Proof.
  revert n. induction l as [|c l IH]; intros n Hn; cbn [limit_bytes List.length]; [lia|].
  destruct (Z.leb_spec n 0); cbn [List.length]; [lia|]. rewrite !Nat2Z.inj_succ, IH; lia.
Qed.
Lemma limit_bytes_all n l : (Z.of_nat (List.length l) <= n)%Z -> limit_bytes n l = l.
Proof.
  revert n. induction l as [|c l IH]; intros n Hn; [done|]. cbn [limit_bytes List.length] in *.
  destruct (Z.leb_spec n 0); [lia|]. f_equal. apply IH. lia.
Qed.

Lemma rbind_Ok {A B} (a : A) (f : A -> result B) : rbind (Ok a) f = f a.
Proof. done. Qed.

Lemma Get_iff `{H : Http} timeout k url b : Get timeout k url = Ok b <-> exists resp,
  NewRequest url = Ok () /\ Do k timeout url = Ok resp /\ hr_StatusCode resp = 200%Z /\
  (hr_ContentLength resp <= MaxResponseSize)%Z /\ (Z.of_nat (List.length (hr_Body resp)) <= MaxResponseSize)%Z /\
  hr_Broken resp = false /\ b = of_bytes (hr_Body resp).
Proof.
  unfold Get. split.
  - intros E. apply bind_ok in E as ([] & E1%with_context_ok & E). apply bind_ok in E as (resp & E2%with_context_ok & E). exists resp.
    apply bind_ok in E as ([] & E3%guard_err_ok & E). apply bind_ok in E as ([] & E4%guard_err_ok & E).
    apply bind_ok in E as (body & E5%with_context_ok & E). apply bind_ok in E as ([] & E6%guard_err_ok & [= <-]).
    apply negb_false_iff, Z.eqb_eq in E3. apply Z.ltb_ge in E4, E6. unfold read_limited in E5.
    destruct (hr_Broken resp && _)%bool eqn:Eb; [done|]. injection E5 as <-.
    rewrite limit_bytes_length in E6 by (unfold MaxResponseSize; lia). assert (Hl : (Z.of_nat (List.length (hr_Body resp)) <= MaxResponseSize)%Z) by lia.
    rewrite limit_bytes_all in * by lia. apply andb_false_iff in Eb as [Eb|Eb]; [done|apply Z.ltb_ge in Eb; lia].
  - intros (resp & -> & -> & E1 & E2 & E3 & E4 & ->). cbn [with_context]. rewrite !rbind_Ok, E1, (proj2 (Z.ltb_ge _ _) E2).
    unfold read_limited. rewrite E4, limit_bytes_all by lia. cbn [Z.eqb Pos.eqb negb guard_err andb with_context]. rewrite !rbind_Ok.
    by rewrite (proj2 (Z.ltb_ge _ _) E3).
Qed.

(** ** No cursor escapes its parameter *)

Definition query_safe (c : ascii) : bool := query_plain c || Ascii.eqb c "+" || Ascii.eqb c "%".

Lemma query_byte_safe c : Forall (fun x => query_safe x = true) (query_byte c).
Proof.
  apply Forall_forall. intros x. revert c x.
  assert (Hall : forallb (fun c => forallb query_safe (query_byte c)) (ascii_of_N ∘ N.of_nat <$> seq 0 256) = true) by (vm_compute; reflexivity).
  intros c x Hx. rewrite forallb_true_iff in Hall. specialize (Hall c). rewrite forallb_true_iff in Hall. apply Hall; [|done].
  apply list_elem_of_fmap. exists (N.to_nat (N_of_ascii c)). unfold compose. rewrite N2Nat.id, ascii_N_embedding. split; [done|].
  apply elem_of_seq. pose proof (N_ascii_bounded c). lia.
Qed.
(** An escaped text has no byte that separates parameters. *)
Lemma QueryEscape_safe s : Forall (fun x => query_safe x = true) (to_bytes (QueryEscape s)).
Proof.
  unfold QueryEscape. rewrite to_of_bytes. apply Forall_forall. intros x (c & Hx & _)%list_elem_of_bind.
  pose proof (query_byte_safe c) as Hc. rewrite Forall_forall in Hc. by apply Hc.
Qed.

(** ** Pages *)

Section Pages.
Context `{H : Http} `{SH : Sha256} `{UC : UpstreamCodec}.
Context (timeout : Z) (baseURL : string).

(** The servers of [n] pages from the [k]-th request on: each page but the last
    names the next. *)
Inductive paged : nat -> nat -> string -> list ServerJSON -> Prop :=
| paged_last k cursor servers : fetch_page timeout baseURL k cursor = Ok (servers, "") -> paged 1 k cursor servers
| paged_more n k cursor servers next rest : fetch_page timeout baseURL k cursor = Ok (servers, next) -> next <> "" ->
    paged n (S k) next rest -> paged (S n) k cursor (servers ++ rest).

Lemma fetch_pages_iff left k cursor all l : fetch_pages timeout baseURL left k cursor all = Ok l <->
  exists n rest, paged n k cursor rest /\ (n <= left)%nat /\ l = all ++ rest /\ (Z.of_nat (List.length l) <= maxServers)%Z.
Proof.
  revert k cursor all. induction left as [|left IH]; intros k cursor all; cbn [fetch_pages].
  - split; [done|]. intros (n & rest & Hp & Hn & _). inversion Hp; lia.
  - split.
    + intros E. apply bind_ok in E as ([servers next] & E1 & E). apply bind_ok in E as ([] & E2%guard_err_ok & E). apply Z.ltb_ge in E2.
      destruct (String.eqb_spec next "") as [->|Hne].
      * injection E as <-. exists 1%nat, servers. split_and!; [by constructor|lia|done|rewrite length_app; lia].
      * apply IH in E as (n & rest & Hp & Hn & -> & Hl). exists (S n), (servers ++ rest). rewrite app_assoc. split_and!; [by econstructor|lia|done|done].
    + intros (n & rest & Hp & Hn & -> & Hl). destruct Hp as [k cursor servers E|n k cursor servers next rest E Hne Hp]; rewrite E, rbind_Ok; cbv beta iota zeta.
      * rewrite (proj2 (Z.ltb_ge _ _)); [done|]. rewrite length_app in Hl. lia.
      * rewrite !length_app in Hl. rewrite (proj2 (Z.ltb_ge _ _)) by lia. cbn [guard_err]. rewrite rbind_Ok, (proj2 (String.eqb_neq _ _) Hne).
        apply IH. exists n, rest. rewrite app_assoc. split_and!; [done|lia|done|rewrite !length_app; lia].
Qed.
End Pages.

(** ** The handlers fetch what the configuration names *)

Section Correct.
Context `{H : Http} `{SH : Sha256} `{UC : UpstreamCodec} `{Fs : FileSystem} `{RP : RegistryParser} `{GG : GoGit}.
Context (IsNotExist : error -> bool).

(** Data that is a registry. *)
Definition is_registry (data : string) (reg : UpstreamRegistry) : Prop :=
  data <> "" /\ parse_registry data = Some reg /\ ur_Servers reg <> [] /\
  Forall (fun s => sj_Name s <> "" /\ sj_Description s <> "") (ur_Servers reg).

Lemma ValidateData_iff data reg : ValidateData data = Ok reg <-> is_registry data reg.
Proof.
  unfold ValidateData, validateUpstreamFormatAndParse, is_registry. destruct (String.eqb_spec data "") as [->|Hne]; [by split; [|intros [[] _]]|].
  destruct (parse_registry data) as [r|]; [|by split; [|intros (_ & ? & _)]].
  assert (Hz : (List.length (ur_Servers r) =? 0)%nat = true <-> ur_Servers r = []) by (rewrite Nat.eqb_eq; by rewrite length_zero_iff_nil).
  assert (Hf : for_each server_fields (ur_Servers r) = Ok () <-> Forall (fun s => sj_Name s <> "" /\ sj_Description s <> "") (ur_Servers r)).
  { rewrite for_each_ok. apply Forall_iff. intros s. unfold server_fields. destruct (String.eqb_spec (sj_Name s) ""), (String.eqb_spec (sj_Description s) ""); naive_solver. }
  destruct (List.length (ur_Servers r) =? 0)%nat eqn:E.
  - split; [done|]. intros (_ & [= <-] & Hn & _). by destruct Hn; apply Hz.
  - split.
    + intros E2. apply bind_ok in E2 as ([] & E2 & [= <-]). split_and!; try done; [|by apply Hf]. intros Hs. apply Hz in Hs. congruence.
    + intros (_ & [= <-] & _ & Hs). apply Hf in Hs. by rewrite Hs.
Qed.

(** *** What a fetch is to find

    In terms of requests and their answers, of go-git and of the file system. *)

(** The [k]-th request gets a complete answer with status 200 and at most 100 MiB,
    announced and delivered. *)
Definition answered (timeout : Z) (k : nat) (url data : string) : Prop := exists resp,
  NewRequest url = Ok () /\ Do k timeout url = Ok resp /\ hr_StatusCode resp = 200%Z /\
  (hr_ContentLength resp <= 104857600)%Z /\ (Z.of_nat (List.length (hr_Body resp)) <= 104857600)%Z /\
  hr_Broken resp = false /\ data = of_bytes (hr_Body resp).

(** The timeout of the client: the default of the kind of source when none is
    configured, the configured duration, and ten seconds for a duration of zero. *)
Inductive client_timeout (fallback : Z) : string -> Z -> Prop :=
| timeout_default : client_timeout fallback "" fallback
| timeout_given s t : s <> "" -> Duration.ParseDuration s = Ok t -> t <> 0%Z -> client_timeout fallback s t
| timeout_zero s : s <> "" -> Duration.ParseDuration s = Ok 0%Z -> client_timeout fallback s (10 * 1000000000).

(** The endpoint without one slash at its end. *)
Definition base_url (endpoint base : string) : Prop :=
  endpoint = base +:+ "/" \/ (endpoint = base /\ forall x, endpoint <> x +:+ "/").

(** [/openapi.yaml] is a description of the registry API in version 1.0.0. *)
Definition upstream_format (timeout : Z) (base : string) : Prop := exists data spec info description,
  answered timeout 0 (base +:+ "/openapi.yaml") data /\ yaml_Unmarshal data = Some spec /\
  map_get "info" spec = Some (VMap info) /\ map_get "version" info = Some (VString "1.0.0") /\
  map_get "description" info = Some (VString description) /\
  Contains description "https://github.com/modelcontextprotocol/registry" = true.

(** The pages, each asked for with the cursor the one before it gave, to the one
    that gives none. *)
Definition page_at (timeout : Z) (base : string) (k : nat) (cursor : string) (servers : list ServerJSON) (next : string) : Prop :=
  exists data, page_Unmarshal data = Some (servers, next) /\
    answered timeout k (base +:+ "/v0.1/servers?limit=100" +:+
      (if String.eqb cursor "" then "" else "&cursor=" +:+ QueryEscape cursor)) data.
Inductive pages (timeout : Z) (base : string) : nat -> nat -> string -> list ServerJSON -> Prop :=
| pages_last k cursor servers : page_at timeout base k cursor servers "" -> pages timeout base 1 k cursor servers
| pages_more n k cursor servers next rest : page_at timeout base k cursor servers next -> next <> "" ->
    pages timeout base n (S k) next rest -> pages timeout base (S n) k cursor (servers ++ rest).

(** The bytes of a file source: of the file, or of the answer to one request. *)
Definition file_content (file : FileConfig) (data : string) : Prop :=
  (file_Path file <> "" /\ file_URL file = "" /\ ReadFile (file_Path file) = Ok data) \/
  (file_Path file = "" /\ file_URL file <> "" /\ exists timeout,
     client_timeout (30 * 1000000000) (file_Timeout file) timeout /\ answered timeout 0 (file_URL file) data).

Definition password_in (file password : string) : Prop :=
  (file = "" /\ password = "") \/
  (file <> "" /\ exists real data, EvalSymlinks file = Ok real /\ filepath_IsAbs real = true /\
     ReadFile real = Ok data /\ password = TrimSpace data).

(** The credentials of a repository: none without a user name, else the password
    is the trimmed content of the password file, or empty without one. *)
Definition credentials (g : GitConfig) (auth : option GitCredentials) : Prop :=
  match git_Auth g with
  | Some a => if String.eqb (ga_Username a) "" then auth = None
              else exists password, auth = Some {| gc_Username := ga_Username a; gc_Password := password |} /\
                     password_in (ga_PasswordFile a) password
  | None => auth = None
  end.

(** What is asked of go-git: the tip of the branch, the tag or the default branch
    alone, or the whole history when a commit is to be checked out. *)
Inductive asked (g : GitConfig) (auth : option GitCredentials) : CloneOptions -> Prop :=
| asked_branch : git_Commit g = "" -> git_Branch g <> "" -> asked g auth
    {| co_URL := git_Repository g; co_Auth := auth; co_Depth := 1; co_ReferenceName := Some (BranchReference (git_Branch g)); co_SingleBranch := true |}
| asked_tag : git_Commit g = "" -> git_Branch g = "" -> git_Tag g <> "" -> asked g auth
    {| co_URL := git_Repository g; co_Auth := auth; co_Depth := 1; co_ReferenceName := Some (TagReference (git_Tag g)); co_SingleBranch := true |}
| asked_default : git_Commit g = "" -> git_Branch g = "" -> git_Tag g = "" -> asked g auth
    {| co_URL := git_Repository g; co_Auth := auth; co_Depth := 1; co_ReferenceName := None; co_SingleBranch := false |}
| asked_commit : git_Commit g <> "" -> asked g auth
    {| co_URL := git_Repository g; co_Auth := auth; co_Depth := 0; co_ReferenceName := None; co_SingleBranch := false |}.

(** The bytes of a git source: of the file at the head of the clone, or of the
    commit that was checked out. *)
Definition git_content (g : GitConfig) (data : string) : Prop :=
  git_Repository g <> "" /\
  ((git_Branch g = "" /\ git_Tag g = "") \/ (git_Branch g = "" /\ git_Commit g = "") \/ (git_Tag g = "" /\ git_Commit g = "")) /\
  exists auth options cloned repo branch hash commit tree file,
    credentials g auth /\ asked g auth options /\ CloneContext options = Ok cloned /\
    (if String.eqb (git_Commit g) "" then repo = cloned else Worktree cloned = Ok () /\ Checkout (git_Commit g) cloned = Ok repo) /\
    Head repo = Ok (branch, hash) /\ CommitObject repo hash = Ok commit /\ Tree commit = Ok tree /\
    File tree (if String.eqb (git_Path g) "" then "registry.json" else git_Path g) = Ok file /\ Contents file = Ok data.

(** The registry with its hash and counts. *)
Definition with_counts (reg : UpstreamRegistry) (hash : string) : FetchResult :=
  {| fr_Registry := reg; fr_Hash := hash; fr_ServerCount := Z.of_nat (List.length (ur_Servers reg));
     fr_SkillCount := Z.of_nat (List.length (ur_Skills reg)); fr_PluginCount := Z.of_nat (List.length (ur_Plugins reg)) |}.

Inductive fetched (now : string) (cfg : SourceConfig) : FetchResult -> Prop :=
| fetched_api api base timeout n servers data :
    src_Git cfg = None -> src_API cfg = Some api -> api_Endpoint api <> "" -> base_url (api_Endpoint api) base ->
    client_timeout (10 * 1000000000) (api_Timeout api) timeout -> upstream_format timeout base ->
    pages timeout base n 1 "" servers -> (n <= 1000)%nat -> (Z.of_nat (List.length servers) <= 100000)%Z ->
    data_Marshal servers [] [] = Some data ->
    fetched now cfg (with_counts {| ur_Schema := UpstreamRegistrySchemaURL; ur_Version := "1.0.0"; ur_LastUpdated := now;
                                ur_Servers := servers; ur_Skills := []; ur_Plugins := [] |} (sha256_hex data))
| fetched_file file data reg :
    src_Git cfg = None -> src_API cfg = None -> src_File cfg = Some file -> file_content file data -> is_registry data reg ->
    fetched now cfg (with_counts reg (sha256_hex data))
| fetched_git g data reg :
    src_Git cfg = Some g -> git_content g data -> is_registry data reg ->
    fetched now cfg (with_counts reg (sha256_hex data)).

#[local] Instance to_bytes_inj : Inj (=) (=) to_bytes.
Proof. intros a b E. by rewrite <-(of_to_bytes a), E, of_to_bytes. Qed.

Lemma answered_iff timeout k url data : Get timeout k url = Ok data <-> answered timeout k url data.
Proof. apply Get_iff. Qed.
Lemma base_url_iff endpoint timeout base : base_url endpoint base <-> base = getBaseURL {| api_Endpoint := endpoint; api_Timeout := timeout |}.
Proof.
  unfold base_url, getBaseURL. cbn [api_Endpoint]. destruct (last (to_bytes endpoint)) as [c|] eqn:El.
  - apply last_Some in El as [l El]. assert (Ee : endpoint = of_bytes l +:+ of_bytes [c]).
    { rewrite <-(of_to_bytes endpoint), El. apply (inj to_bytes). by rewrite to_bytes_app, !to_of_bytes. }
    destruct (Ascii.eqb_spec c "/") as [->|Hc].
    + rewrite El, length_app, Nat.add_sub, take_app_length. change (of_bytes ["/"%char]) with "/" in Ee. split; [|intros ->; by left].
      intros [E|[_ E]]; [|by destruct (E (of_bytes l))]. apply (f_equal to_bytes) in E. rewrite El, to_bytes_app in E.
      apply app_inj_tail in E as [-> _]. by rewrite of_to_bytes.
    + assert (Hno : forall x, endpoint <> x +:+ "/").
      { intros x E. apply (f_equal to_bytes) in E. rewrite El, to_bytes_app in E. by apply app_inj_tail in E as [_ ?]. }
      split; [intros [E|[-> _]]; [by destruct (Hno base)|done]|]. intros ->. by right.
  - apply last_None in El. assert (endpoint = "") as -> by (by rewrite <-(of_to_bytes endpoint), El). split.
    + intros [E|[-> _]]; [|done]. by destruct base.
    + intros ->. right. split; [done|]. intros x E. by destruct x.
Qed.
Lemma timeout_iff fallback s t : fallback <> 0%Z ->
  (if String.eqb s "" then t = NewDefaultClient fallback else exists p, Duration.ParseDuration s = Ok p /\ t = NewDefaultClient p) <->
  client_timeout fallback s t.
Proof.
  intros Hf. unfold NewDefaultClient. rewrite (proj2 (Z.eqb_neq _ _) Hf). split.
  - destruct (String.eqb_spec s "") as [->|Hs]; [intros ->; constructor|]. intros (p & Hp & ->).
    destruct (Z.eqb_spec p 0) as [->|Hz]; [by apply timeout_zero|by apply timeout_given].
  - intros [|s' t' Hs Hp Hz|s' Hs Hp]; [done|..]; rewrite (proj2 (String.eqb_neq _ _) Hs).
    + exists t'. by rewrite (proj2 (Z.eqb_neq _ _) Hz).
    + by exists 0%Z.
Qed.
Lemma upstream_format_iff timeout base : upstream_Validate timeout base = Ok () <-> upstream_format timeout base.
Proof.
  unfold upstream_Validate, upstream_format, expectedGitHubURL. setoid_rewrite <-answered_iff. split.
  - intros E. apply bind_ok in E as (data & E1%with_context_ok & E). destruct (yaml_Unmarshal data) as [spec|] eqn:Ey; [|done].
    destruct (map_get "info" spec) as [[]|] eqn:Ei; try done. destruct (map_get "version" _) as [[]|] eqn:Ev; try done.
    apply bind_ok in E as ([] & E2%guard_err_ok & E). apply negb_false_iff, String.eqb_eq in E2. subst.
    destruct (map_get "description" _) as [[]|] eqn:Ed; try done. apply guard_err_ok, negb_false_iff in E. by eexists data, spec, _, _.
  - intros (data & spec & info & description & -> & Ey & Ei & Ev & Ed & Ec). cbn [with_context]. rewrite rbind_Ok, Ey, Ei, Ev.
    change (String.eqb "1.0.0" "1.0.0") with true. cbn [negb guard_err]. rewrite rbind_Ok, Ed, Ec. done.
Qed.
Lemma page_iff timeout base k cursor servers next :
  fetch_page timeout base k cursor = Ok (servers, next) <-> page_at timeout base k cursor servers next.
Proof.
  unfold fetch_page, page_at, page_url. setoid_rewrite <-answered_iff.
  assert (Hu : base +:+ "/v0.1/servers?limit=100" +:+ (if String.eqb cursor "" then "" else "&cursor=" +:+ QueryEscape cursor) =
    (if String.eqb cursor "" then base +:+ "/v0.1/servers?limit=100" else (base +:+ "/v0.1/servers?limit=100") +:+ "&cursor=" +:+ QueryEscape cursor)).
  { apply (inj to_bytes). destruct (String.eqb cursor ""); rewrite !to_bytes_app; cbn; by rewrite ?app_nil_r, <-?app_assoc. }
  rewrite Hu. split.
  - intros E. apply bind_ok in E as (data & E1%with_context_ok & E). destruct (page_Unmarshal data) as [p|] eqn:Ep; [|done]. injection E as ->. eauto.
  - intros (data & Ep & ->). cbn [with_context]. by rewrite rbind_Ok, Ep.
Qed.
Lemma pages_iff timeout base n k cursor servers : paged timeout base n k cursor servers <-> pages timeout base n k cursor servers.
Proof.
  split; induction 1; first [apply paged_last|apply pages_last|eapply paged_more|eapply pages_more]; try done; by apply page_iff.
Qed.
Lemma password_iff file password : readSecretFromFile file = Ok password <-> password_in file password.
Proof.
  unfold readSecretFromFile, password_in. destruct (String.eqb_spec file ""); [naive_solver|].
  destruct (EvalSymlinks file) as [real|[]]; unfold rbind; cbn [with_context]; [|naive_solver..].
  destruct (filepath_IsAbs real) eqn:Ea; cbn [negb]; [|split; [done|]; intros [[? _]|(_ & ? & ? & [= <-] & ? & _)]; congruence].
  destruct (ReadFile real) as [data|err] eqn:Er; cbn [with_context].
  - split; [intros [= <-]; right; split; [done|]; by exists real, data|].
    intros [[? _]|(_ & ? & d & [= <-] & _ & E & ->)]; [done|]. rewrite Er in E. by simplify_eq.
  - split; [by destruct err|]. intros [[? _]|(_ & ? & d & [= <-] & _ & E & _)]; congruence.
Qed.
Lemma credentials_iff g auth : clone_auth g = Ok auth <-> credentials g auth.
Proof.
  unfold clone_auth, credentials, GitAuth_GetPassword. destruct (git_Auth g) as [a|]; [|split; [by intros [= <-]|by intros ->]].
  destruct (String.eqb (ga_Username a) ""); [split; [by intros [= <-]|by intros ->]|]. split.
  - intros E. apply bind_ok in E as (p & E1%with_context_ok%with_context_ok%password_iff & [= <-]). eauto.
  - intros (p & -> & ->%password_iff). done.
Qed.
Lemma asked_iff g auth options : credentials g auth ->
  options = clone_options {| cc_URL := git_Repository g; cc_Branch := git_Branch g; cc_Tag := git_Tag g; cc_Commit := git_Commit g; cc_Auth := auth |} <->
  asked g auth options.
Proof.
  intros Hc. assert (Ha : match auth with Some a => if String.eqb (gc_Username a) "" then None else Some a | None => None end = auth).
  { unfold credentials in Hc. destruct (git_Auth g) as [a|]; [|by subst]. destruct (String.eqb (ga_Username a) "") eqn:E; [by subst|].
    destruct Hc as (p & -> & _). cbn. by rewrite E. }
  unfold clone_options. cbn [cc_URL cc_Branch cc_Tag cc_Commit cc_Auth]. rewrite Ha. split.
  - intros ->. destruct (String.eqb_spec (git_Commit g) ""); [|by constructor].
    destruct (String.eqb_spec (git_Branch g) ""); [|by constructor]. destruct (String.eqb_spec (git_Tag g) ""); by constructor.
  - intros [H1 H2|H1 H2 H3|H1 H2 H3|H1]; rewrite ?H1, ?H2, ?H3; cbn [String.eqb negb]; try done.
    + by rewrite (proj2 (String.eqb_neq _ _) H2).
    + by rewrite (proj2 (String.eqb_neq _ _) H3).
    + by rewrite (proj2 (String.eqb_neq _ _) H1).
Qed.

Ltac inv_ctx :=
  repeat match goal with
  | E : rbind _ _ = Ok _ |- _ => let a := fresh "a" in let E' := fresh "E" in apply bind_ok in E as (a & E' & E)
  | E : with_context _ _ = Ok _ |- _ => apply with_context_ok in E
  end; simplify_eq.

Lemma fetchData_iff cfg data hash : fetchData IsNotExist (Some cfg) = Ok (data, hash) <->
  hash = sha256_hex data /\ exists file, src_File cfg = Some file /\ file_content file data.
Proof.
  unfold fetchData, file_Validate, isURLSource, file_content. destruct (src_File cfg) as [file|]; cbn; [|by split; [|intros (_ & ? & ? & _)]].
  destruct (String.eqb_spec (file_Path file) "") as [Hp|Hp], (String.eqb_spec (file_URL file) "") as [Hu|Hu]; cbn; try rewrite rbind_Ok; cbn.
  - split; [done|]. intros (_ & f & [= <-] & [(? & _)|(_ & ? & _)]); done.
  - rewrite (proj2 (String.eqb_neq _ _) Hu). cbn [negb]. unfold fetchURLData. split.
    + intros E. inv_ctx. split; [done|]. exists file. split; [done|]. right. split_and!; [done..|]. exists a.
      rewrite <-answered_iff, <-timeout_iff by done. split; [|done].
      destruct (String.eqb (file_Timeout file) ""); [by simplify_eq|]. inv_ctx. eauto.
    + intros (-> & f & [= <-] & [(? & _)|(_ & _ & t & Ht & Hg%answered_iff)]); [done|]. rewrite <-timeout_iff in Ht by done. destruct (String.eqb (file_Timeout file) "").
      * subst t. rewrite rbind_Ok. change DefaultURLTimeout with (30 * 1000000000)%Z. by rewrite Hg.
      * destruct Ht as (t0 & -> & ->). cbn [with_context]. by rewrite !rbind_Ok, Hg.
  - rewrite Hu. cbn [String.eqb negb]. unfold fetchLocalFileData. destruct (ReadFile (file_Path file)) as [d|err] eqn:Er.
    + split; [intros [= <- <-]; split; [done|]; exists file; split; [done|]; by left|].
      intros (-> & f & [= <-] & [(_ & _ & E)|(? & _)]); [|done]. rewrite Er in E. by simplify_eq.
    + split; [by case_match|]. intros (_ & f & [= <-] & [(_ & _ & E)|(? & _)]); [|done]. by rewrite Er in E.
  - split; [done|]. intros (_ & f & [= <-] & [(_ & ? & _)|(? & _)]); done.
Qed.

Lemma git_Validate_iff cfg g : git_Validate (Some cfg) = Ok g <-> exists g0, src_Git cfg = Some g0 /\ git_Repository g0 <> "" /\
  ((git_Branch g0 = "" /\ git_Tag g0 = "") \/ (git_Branch g0 = "" /\ git_Commit g0 = "") \/ (git_Tag g0 = "" /\ git_Commit g0 = "")) /\
  g = {| git_Repository := git_Repository g0; git_Branch := git_Branch g0; git_Tag := git_Tag g0; git_Commit := git_Commit g0;
         git_Path := if String.eqb (git_Path g0) "" then DefaultRegistryDataFile else git_Path g0; git_Auth := git_Auth g0 |}.
Proof.
  unfold git_Validate. destruct (src_Git cfg) as [g0|]; [|by split; [|intros (? & ? & _)]].
  destruct (String.eqb_spec (git_Repository g0) "") as [Hr|Hr]; [by split; [|intros (? & [= <-] & ? & _)]|].
  destruct (String.eqb_spec (git_Branch g0) ""), (String.eqb_spec (git_Tag g0) ""), (String.eqb_spec (git_Commit g0) ""); cbn;
    (split; [|intros (? & [= <-] & _ & Hs & ->)]); try (by naive_solver); try (by (intros E; exists g0; destruct (String.eqb_spec (git_Path g0) ""); simplify_eq; split_and!; auto; by destruct g));
    by (destruct (String.eqb_spec (git_Path g0) ""); [done|]; destruct g0).
Qed.

Lemma Clone_iff config info : Clone config = Ok info <-> exists cloned repo branch hash,
  CloneContext (clone_options config) = Ok cloned /\
  (if String.eqb (cc_Commit config) "" then repo = cloned else Worktree cloned = Ok () /\ Checkout (cc_Commit config) cloned = Ok repo) /\
  Head repo = Ok (branch, hash) /\ info = {| ri_Repository := Some repo; ri_Branch := default "" branch; ri_RemoteURL := cc_URL config |}.
Proof.
  unfold Clone, updateRepositoryInfo. split.
  - intros E. apply bind_ok in E as (cloned & E1%with_context_ok & E). apply bind_ok in E as (repo & E2 & E). apply with_context_ok in E.
    cbn [ri_Repository ri_Branch ri_RemoteURL] in E. apply bind_ok in E as ([branch hash] & E3%with_context_ok & [= <-]).
    exists cloned, repo, branch, hash. split_and!; try done.
    destruct (String.eqb (cc_Commit config) ""); inv_ctx; [done|]. by destruct a.
  - intros (cloned & repo & branch & hash & -> & Hc & Hh & ->). cbn [with_context]. rewrite rbind_Ok. destruct (String.eqb (cc_Commit config) "").
    + subst repo. rewrite rbind_Ok. cbn [ri_Repository]. rewrite Hh. done.
    + destruct Hc as [-> ->]. cbn [with_context]. rewrite !rbind_Ok. cbn [ri_Repository]. rewrite Hh. done.
Qed.

Lemma default_path (p : string) :
  (if String.eqb (if String.eqb p "" then DefaultRegistryDataFile else p) "" then DefaultRegistryDataFile
   else if String.eqb p "" then DefaultRegistryDataFile else p) = if String.eqb p "" then DefaultRegistryDataFile else p.
Proof. destruct (String.eqb p "") eqn:E; [done|by rewrite E]. Qed.

Lemma fetchRegistryData_iff cfg data : fetchRegistryData (Some cfg) = Ok data <-> exists g, src_Git cfg = Some g /\ git_content g data.
Proof.
  unfold fetchRegistryData. split.
  - intros E. apply bind_ok in E as (g' & E1%with_context_ok & E). apply bind_ok in E as (auth & E2 & E).
    apply bind_ok in E as (info & E3%with_context_ok & E). apply with_context_ok in E.
    apply git_Validate_iff in E1 as (g & Hg & Hr & Hs & ->). apply Clone_iff in E3 as (cloned & repo & branch & hash & Hc & Hk & Hh & ->).
    unfold GetFileContent in E. cbn [ri_Repository git_Path] in E. rewrite default_path, Hh in E. cbn [with_context] in E. rewrite rbind_Ok in E.
    apply bind_ok in E as (commit & E4%with_context_ok & E). apply bind_ok in E as (tree & E5%with_context_ok & E).
    apply bind_ok in E as (file & E6%with_context_ok & E7%with_context_ok).
    exists g. split; [done|]. split_and!; [done..|]. apply credentials_iff in E2. exists auth.
    eexists _, cloned, repo, branch, hash, commit, tree, file. split_and!; [exact E2|by apply asked_iff|done..].
  - intros (g & Hg & Hr & Hs & auth & options & cloned & repo & branch & hash & commit & tree & file & Ha & Hq & Hc & Hk & Hh & H1 & H2 & H3 & H4).
    apply (asked_iff _ _ _ Ha) in Hq. subst options. apply credentials_iff in Ha.
    rewrite (proj2 (git_Validate_iff cfg _)) by (exists g; split_and!; done). cbn [with_context]. rewrite rbind_Ok.
    unfold clone_auth in *. cbn [git_Auth git_Repository git_Branch git_Tag git_Commit git_Path]. rewrite Ha, rbind_Ok.
    match goal with |- context [Clone ?c] => assert (Hcl : exists info, Clone c = Ok info /\ ri_Repository info = Some repo) end.
    { eexists. rewrite Clone_iff. split; [exists cloned, repo, branch, hash; by split_and!|done]. }
    destruct Hcl as (info & Hcl & Hri). rewrite Hcl. cbn [with_context]. rewrite rbind_Ok.
    unfold GetFileContent. rewrite Hri, Hh. cbn [with_context]. rewrite rbind_Ok. cbn [snd]. rewrite H1. cbn [with_context]. rewrite rbind_Ok, H2.
    cbn [with_context]. rewrite rbind_Ok, default_path.
    change DefaultRegistryDataFile with "registry.json". rewrite H3. cbn [with_context]. by rewrite rbind_Ok, H4.
Qed.
Lemma api_Validate_iff cfg api : api_Validate (Some cfg) = Ok api <-> src_API cfg = Some api /\ api_Endpoint api <> "".
Proof.
  unfold api_Validate. destruct (src_API cfg) as [a|]; [|by split; [|intros []]]. destruct (String.eqb_spec (api_Endpoint a) ""); naive_solver.
Qed.

Lemma api_FetchRegistry_iff now cfg res : api_FetchRegistry now (Some cfg) = Ok res <-> exists api timeout n servers data,
  src_API cfg = Some api /\ api_Endpoint api <> "" /\ newUpstreamHandler api = Ok timeout /\
  upstream_Validate timeout (getBaseURL api) = Ok () /\
  paged timeout (getBaseURL api) n 1 "" servers /\ (n <= 1000)%nat /\ (Z.of_nat (List.length servers) <= 100000)%Z /\
  data_Marshal servers [] [] = Some data /\ res = NewFetchResult (buildUpstreamRegistry now servers) (sha256_hex data).
Proof.
  unfold api_FetchRegistry, validateUpstreamFormat, upstream_FetchRegistry, calculateHash. split.
  - intros E. apply bind_ok in E as (api & E1%with_context_ok & E). apply bind_ok in E as (timeout & E2 & E).
    apply bind_ok in E as ([] & E3%with_context_ok & E). apply bind_ok in E as (servers & E4%with_context_ok & E).
    apply bind_ok in E as (hash & E5%with_context_ok & [= <-]). apply api_Validate_iff in E1 as [E1 E1'].
    apply fetch_pages_iff in E4 as (n & rest & Hp & Hn & -> & Hl). cbn [ur_Servers ur_Skills ur_Plugins buildUpstreamRegistry app] in *.
    destruct (data_Marshal rest [] []) as [data|] eqn:Ed; [|done]. injection E5 as <-.
    destruct (upstream_Validate _ _) as [[]|] eqn:Ev; [|done]. by exists api, timeout, n, rest, data.
  - intros (api & timeout & n & servers & data & E1 & E1' & E2 & E3 & Hp & Hn & Hl & Ed & ->).
    rewrite (proj2 (api_Validate_iff cfg api)) by done. cbn [with_context]. rewrite rbind_Ok, E2, rbind_Ok, E3. cbn [with_context]. rewrite rbind_Ok.
    assert (Hf : fetchAllServers timeout (getBaseURL api) = Ok servers) by (apply fetch_pages_iff; by exists n, servers).
    rewrite Hf. cbn [with_context]. rewrite rbind_Ok. cbn [ur_Servers ur_Skills ur_Plugins buildUpstreamRegistry]. by rewrite Ed.
Qed.

Lemma api_fetched_iff now cfg res : api_FetchRegistry now (Some cfg) = Ok res <-> exists api base timeout n servers data,
  src_API cfg = Some api /\ api_Endpoint api <> "" /\ base_url (api_Endpoint api) base /\
  client_timeout (10 * 1000000000) (api_Timeout api) timeout /\ upstream_format timeout base /\
  pages timeout base n 1 "" servers /\ (n <= 1000)%nat /\ (Z.of_nat (List.length servers) <= 100000)%Z /\
  data_Marshal servers [] [] = Some data /\ res = with_counts (buildUpstreamRegistry now servers) (sha256_hex data).
Proof.
  rewrite api_FetchRegistry_iff.
  assert (Ht : forall api timeout, newUpstreamHandler api = Ok timeout <-> client_timeout (10 * 1000000000) (api_Timeout api) timeout).
  { intros api timeout. rewrite <-timeout_iff by done. unfold newUpstreamHandler, DefaultTimeout, Second. destruct (String.eqb (api_Timeout api) "").
    - split; [by intros [= <-]|by intros ->].
    - split; [intros E; inv_ctx; eauto|]. intros (p & -> & ->). done. }
  split.
  - intros (api & timeout & n & servers & data & E1 & E2 & E3%Ht & E4%upstream_format_iff & E5%pages_iff & E6 & E7 & E8 & ->).
    exists api, (getBaseURL api), timeout, n, servers, data. split_and!; try done. destruct api. by eapply base_url_iff.
  - intros (api & base & timeout & n & servers & data & E1 & E2 & Eb & E3%Ht & E4%upstream_format_iff & E5%pages_iff & E6 & E7 & E8 & ->).
    exists api, timeout, n, servers, data. assert (base = getBaseURL api) as -> by (destruct api; by eapply base_url_iff). by split_and!.
Qed.

Lemma validated_iff {A} (f : result (string * string)) msg msg' (k : UpstreamRegistry -> string -> A) res :
  (got <- with_context msg f ;; let '(data, hash) := got in reg <- with_context msg' (ValidateData data) ;; Ok (k reg hash)) = Ok res <->
  exists data hash reg, f = Ok (data, hash) /\ is_registry data reg /\ res = k reg hash.
Proof.
  split.
  - intros E. apply bind_ok in E as ([data hash] & E1%with_context_ok & E). apply bind_ok in E as (reg & E2%with_context_ok & [= <-]).
    exists data, hash, reg. split_and!; try done. by apply ValidateData_iff.
  - intros (data & hash & reg & -> & Hr%ValidateData_iff & ->). cbn [with_context]. rewrite rbind_Ok, Hr. done.
Qed.

(** C22. A fetch succeeds exactly with what the configuration names.  Of an API
    source: the servers of the pages of its endpoint (one slash at the end apart),
    each asked for with the cursor of the one before, to the last, in order, of at
    most a thousand pages and a hundred thousand servers, after the endpoint's
    openapi.yaml gave version 1.0.0 and a description with the URL of the registry
    project.  Of a file source: the content of its path or the answer of its URL.
    Of a git source: the file (registry.json by default) at the head of a clone of
    its branch, its tag or the default branch with depth one, or at its commit
    checked out of a full clone, of at most one of the three, with the configured
    credentials.  A file is accepted only when it is a registry with at least one
    server and all of them are named and described.  Every request is answered with
    200 and at most 100 MiB, within the configured timeout (10 s by default and for
    a configured zero, 30 s by default for a file URL).  Of several blocks in one
    source git goes before API and API before file.  The result has the registry, the SHA-256 of the file, or of
    the servers as JSON, and the counts. *)
Theorem handlers_correct now cfg res :
  FetchRegistry (default_handlers IsNotExist now) cfg = Ok res <-> fetched now cfg res.
Proof.
  cbn. unfold handler_FetchRegistry, createHandler, GetType. split.
  - intros E. apply bind_ok in E as (handler & E1 & E).
    destruct (src_Git cfg) as [g|] eqn:Eg; cbn in E1; [simplify_eq|destruct (src_API cfg) as [api|] eqn:Ea; cbn in E1; [simplify_eq|
      destruct (src_File cfg) as [file|] eqn:Ef; cbn in E1; [simplify_eq|repeat case_bool_decide; done]]].
    + unfold git_FetchRegistry in E. apply bind_ok in E as (data & E1%with_context_ok & E). apply bind_ok in E as (reg & E2%with_context_ok & [= <-]).
      apply fetchRegistryData_iff in E1 as (g' & Hg & Hc). rewrite Eg in Hg. injection Hg as <-. apply ValidateData_iff in E2. by eapply fetched_git.
    + apply api_fetched_iff in E as (api' & base & timeout & n & servers & data & E1 & ? & ? & ? & ? & ? & ? & ? & ? & ->).
      rewrite Ea in E1. injection E1 as <-. by eapply fetched_api.
    + unfold file_FetchRegistry in E. apply validated_iff in E as (data & hash & reg & E1 & Hr & ->).
      apply fetchData_iff in E1 as (-> & file' & Hf & Hc). rewrite Ef in Hf. injection Hf as <-. by eapply fetched_file.
  - intros [api base timeout n servers data Eg Ea ? ? ? ? ? ? ? ?|file data reg Eg Ea Ef Hc Hr|g data reg Eg Hc Hr].
    + rewrite Eg, Ea. cbn. apply api_fetched_iff. by exists api, base, timeout, n, servers, data.
    + rewrite Eg, Ea, Ef. cbn. unfold file_FetchRegistry. apply validated_iff. exists data, (sha256_hex data), reg. split_and!; try done.
      apply fetchData_iff. eauto.
    + rewrite Eg. cbn [is_Some bool_decide decide_rel]. change (git_FetchRegistry (Some cfg) = Ok (NewFetchResult reg (sha256_hex data))).
      unfold git_FetchRegistry. rewrite (proj2 (fetchRegistryData_iff cfg data)) by eauto. cbn [with_context].
      rewrite rbind_Ok, (proj2 (ValidateData_iff data reg)) by done. done.
Qed.
End Correct.

(** ** A fetch ends, and an unchanged source is not changed *)

(** C23. Whatever the server answers, and however often it names a next page, the
    outcome is decided by the answers to the first thousand requests. *)
Theorem fetch_terminates (H H' : Http) `{UC : UpstreamCodec} timeout baseURL :
  (forall url, @NewRequest H url = @NewRequest H' url) ->
  (forall k url, (1 <= k <= 1000)%nat -> @Do H k timeout url = @Do H' k timeout url) ->
  fetchAllServers (H := H) timeout baseURL = fetchAllServers (H := H') timeout baseURL.
Proof.
  intros HN HD. unfold fetchAllServers.
  assert (Hgo : forall left k cursor all, (1 <= k)%nat -> (k + left <= 1001)%nat ->
    fetch_pages (H := H) timeout baseURL left k cursor all = fetch_pages (H := H') timeout baseURL left k cursor all).
  { induction left as [|left IH]; intros k cursor all Hk Hl; [done|]. cbn [fetch_pages].
    assert (Hp : fetch_page (H := H) timeout baseURL k cursor = fetch_page (H := H') timeout baseURL k cursor).
    { unfold fetch_page, Get. by rewrite HN, HD by lia. }
    rewrite Hp. destruct (fetch_page (H := H') timeout baseURL k cursor) as [[servers next]|]; [|reflexivity]. rewrite !rbind_Ok.
    destruct (guard_err _ _) as [[]|]; [|reflexivity]. rewrite !rbind_Ok.
    destruct (String.eqb next ""); [done|]. apply IH; lia. }
  apply Hgo; unfold maxPaginationPages; lia.
Qed.

(** When two fetches of an upstream registry find the same servers, the second
    one sees no change, however much later it is. *)
Lemma same_servers_unchanged (H : Http) `{SH : Sha256} `{UC : UpstreamCodec} `{Fs : FileSystem} `{RP : RegistryParser} `{GG : GoGit}
    IsNotExist now now' cfg st res res' :
  FetchRegistry (default_handlers (H := H) IsNotExist now) cfg = Ok res ->
  FetchRegistry (default_handlers (H := H) IsNotExist now') cfg = Ok res' ->
  GetType cfg = SourceTypeAPI -> ur_Servers (fr_Registry res) = ur_Servers (fr_Registry res') ->
  ss_LastSyncHash st = fr_Hash res -> fr_Hash res <> "" ->
  IsDataChanged (default_handlers (H := H) IsNotExist now') cfg st = Ok (false, res').
Proof.
  intros E1 E2 Ht Hs Hst Hne. assert (Hh : fr_Hash res = fr_Hash res').
  { cbn in E1, E2. unfold handler_FetchRegistry, createHandler in E1, E2. rewrite Ht in E1, E2. rewrite rbind_Ok in E1, E2.
    apply api_FetchRegistry_iff in E1 as (a1 & t1 & n1 & s1 & d1 & _ & _ & _ & _ & _ & _ & _ & D1 & ->).
    apply api_FetchRegistry_iff in E2 as (a2 & t2 & n2 & s2 & d2 & _ & _ & _ & _ & _ & _ & _ & D2 & ->). cbn in *. congruence. }
  unfold IsDataChanged. cbn [CreateHandler default_handlers]. unfold createHandler. rewrite Ht, !rbind_Ok, E2, rbind_Ok.
  rewrite Hst, (proj2 (String.eqb_neq _ _) Hne), Hh. by rewrite String.eqb_refl.
Qed.

(** ** A concrete registry *)
Module FetchingExample.

Definition answer (body : string) : result HttpResponse :=
  Ok {| hr_StatusCode := 200; hr_ContentLength := Z.of_nat (String.length body); hr_Body := to_bytes body; hr_Broken := false |}.
Definition server (name : string) : ServerJSON :=
  {| sj_Schema := ""; sj_Name := name; sj_Description := "d"; sj_Title := ""; sj_Version := "1.0.0"; sj_WebsiteURL := ""; sj_Repository := None;
     sj_Packages := []; sj_Remotes := []; sj_Icons := []; sj_Meta := None |}.

(** Two pages; the second is asked for with the cursor, escaped. *)
Definition two_pages : Http :=
  {| NewRequest := fun _ => Ok ();
     Do := fun _ _ url =>
       if String.eqb url "https://up.example/openapi.yaml" then answer "openapi"
       else if String.eqb url "https://up.example/v0.1/servers?limit=100" then answer "page1"
       else if String.eqb url "https://up.example/v0.1/servers?limit=100&cursor=a%26b" then answer "page2"
       else Err (EMsg "connection refused") |}.
(** A server that always has a next page. *)
Definition endless : Http := {| NewRequest := fun _ => Ok (); Do := fun _ _ _ => answer "page1" |}.
(** The same for a thousand requests. *)
Definition thousand : Http :=
  {| NewRequest := fun _ => Ok (); Do := fun k _ _ => if (k <=? 1000)%nat then answer "page1" else answer "page2" |}.

Definition texts : UpstreamCodec :=
  {| yaml_Unmarshal := fun s => if String.eqb s "openapi" then
       Some [("info", VMap [("version", VString "1.0.0"); ("description", VString "See https://github.com/modelcontextprotocol/registry.")])] else None;
     page_Unmarshal := fun s => if String.eqb s "page1" then Some ([server "io.a/one"], "a&b")
                                else if String.eqb s "page2" then Some ([server "io.a/two"], "") else None;
     data_Marshal := fun servers _ _ => Some (String.concat "," (sj_Name <$> servers)) |}.
#[local] Existing Instance texts.
#[local] Instance plain_hash : Sha256 := {| sha256_hex := fun s => s |}.
#[local] Instance no_files : FileSystem :=
  {| EvalSymlinks := fun _ => Err (EMsg "no such file"); Stat := fun _ => Err (EMsg "no such file"); ReadFile := fun _ => Err (EMsg "no such file") |}.
#[local] Instance no_parser : RegistryParser := {| parse_registry := fun _ => None |}.
#[local] Instance no_git : GoGit :=
  {| gitrepo := (); gitcommit := (); gittree := (); gitfile := (); CloneContext := fun _ => Err (EMsg "offline"); Worktree := fun _ => Ok ();
     Checkout := fun _ r => Ok r; Head := fun _ => Ok (None, ""); CommitObject := fun _ _ => Ok (); Tree := fun _ => Ok ();
     File := fun _ _ => Ok (); Contents := fun _ => Ok "" |}.

Definition upstream_source : SourceConfig :=
  {| src_Name := "up"; src_Git := None; src_API := Some {| api_Endpoint := "https://up.example/"; api_Timeout := "30s" |}; src_File := None;
     src_Managed := None; src_Kubernetes := None; src_SyncPolicy := None; src_Filter := None; src_Claims := None |}.

Lemma two_pages_fetched :
  match FetchRegistry (default_handlers (H := two_pages) (fun _ => true) "2026-01-01T00:00:00Z") upstream_source with
  | Ok res => (sj_Name <$> ur_Servers (fr_Registry res), fr_Hash res, fr_ServerCount res) = (["io.a/one"; "io.a/two"], "io.a/one,io.a/two", 2%Z)
  | Err _ => False
  end.
Proof. vm_compute. reflexivity. Qed.
Lemma endless_refused :
  fetchAllServers (H := endless) 5 "https://up.example" =
  Err (EMsg "pagination exceeded maximum pages (%d), possible infinite loop or malicious upstream").
Proof. vm_compute. reflexivity. Qed.

Lemma fetch_terminates_witness :
  fetchAllServers (H := endless) 5 "https://up.example" = fetchAllServers (H := thousand) 5 "https://up.example".
Proof.
  apply (fetch_terminates endless thousand 5 "https://up.example"); [intros url; reflexivity|].
  intros k url [_ Hk]. cbn [Do endless thousand]. rewrite (proj2 (Nat.leb_le k 1000) Hk). reflexivity.
Defined.
End FetchingExample.
