(* ===== verification/Syncing.v ===== *)
(** * Synchronisation from end to end

    The replicas of [Sync] with the writer of [Writer] in the place of the
    interface: what the database holds of a source while any number of replicas
    claim, fetch, store, report, crash and lose their connections, and others
    write what is not synchronised.

    [mirrors] is the contract: the entries of the source are those of a
    registry.  [completed_mirrors] says that a source whose status row says
    completed mirrors what was fetched for the hash in that row, which is what
    the change detection compares the next fetch with. *)

From stdpp Require Import base list strings gmap sets sorting relations.
From Stdlib Require Import String Ascii ZArith Lia.
From S2P Require Import Prelude GoStrings Durations ConfigTypes Config Versions Claims Upstream Filtering Database Entries Artifacts Sync Writer WriterCorrect WriterKinds Fetching.

Local Open Scope string_scope.
Local Open Scope list_scope.

(** ** What a source mirrors *)

Section Mirror.
Context `{SC : ServerCodec} `{AC : ArtifactCodec} `{L : SemverLib} `{!SemverLaws L}.

(** The source holds exactly the registry, every value as the writer stores it,
    and each server name points to its newest version. *)
Record mirrors (mx : Z) (src : SourceRow) (reg : UpstreamRegistry) (d : DB) : Prop := {
  mi_exact : exactly d (so_id src) EntryTypeMCP (server_pairs (ur_Servers reg)) /\
    exactly d (so_id src) EntryTypeSKILL (kind_pairs (ur_Skills reg)) /\ exactly d (so_id src) EntryTypePLUGIN (kind_pairs (ur_Plugins reg));
  mi_servers : forall s, s ∈ ur_Servers reg -> exists e r,
    server_here mx (fun _ => so_claims src) d (so_id src) s e r /\ contents_of d (ve_id r) s;
  mi_skills : forall u, u ∈ ur_Skills reg -> exists old e r, value_here (so_claims src) old d (so_id src) u e r;
  mi_plugins : forall u, u ∈ ur_Plugins reg -> exists old e r, value_here (so_claims src) old d (so_id src) u e r;
  mi_latest : forall s, s ∈ ur_Servers reg ->
    (forall s', s' ∈ ur_Servers reg -> sj_Name s' = sj_Name s -> is_semver (sj_Version s') = true) ->
    sj_Name s ∉ (kind_pairs (ur_Skills reg)).*1 -> sj_Name s ∉ (kind_pairs (ur_Plugins reg)).*1 ->
    points_to_newest d (so_id src) EntryTypeMCP (server_pairs (ur_Servers reg)) (sj_Name s) }.

(** The keys of a source. *)
Definition keys_of (src : SourceRow) (k : uuid * EntryType * string) : Prop := fst (fst k) = so_id src.

Lemma mirrors_untouched mx src reg d d' : untouched (keys_of src) d d' -> mirrors mx src reg d -> mirrors mx src reg d'.
Proof.
  intros Hu [(A1 & A2 & A3) B C D F]. split.
  - split_and!; (eapply exactly_untouched; [exact Hu|done|done]).
  - intros s Hs. by eapply server_untouched; [..|by apply B].
  - intros u Hin. destruct (C u Hin) as (old & e & r & Hv). exists old, e, r. by eapply value_here_untouched.
  - intros u Hin. destruct (D u Hin) as (old & e & r & Hv). exists old, e, r. by eapply value_here_untouched.
  - intros s Hs Hsem H1 H2. eapply points_untouched; [exact Hu|done| |by apply F].
    intros v e r _ Hl. rewrite <-Hl. by apply (un_latest _ _ _ Hu).
Qed.

Lemma stored_mirrors mx src reg d d' : registry_stored mx src reg ∅ d d' -> mirrors mx src reg d'.
Proof.
  intros [_ _ A B C D _ F _]. split; try done.
  - intros u Hu. destruct (C u Hu) as (e & r & Hv). eauto.
  - intros u Hu. destruct (D u Hu) as (e & r & Hv). eauto.
Qed.

(** ** Storing one source *)

(** A registry whose names the writer tells apart. *)
Definition well_named (reg : UpstreamRegistry) : Prop :=
  (forall s, s ∈ ur_Servers reg -> no_at (sj_Name s)) /\ distinct_keys (ur_Skills reg) /\ distinct_keys (ur_Plugins reg).

Definition plain_sources (d : DB) : Prop := forall name src, d_source d !! name = Some src -> plain_names d (so_id src).

(** Only the source [name] has other entries. *)
Record only_source (name : string) (d d' : DB) : Prop := {
  os_admin : same_admin d d';
  os_sane : sane d';
  os_plain : plain_sources d';
  os_others : forall name' src, d_source d !! name' = Some src -> name' <> name -> untouched (keys_of src) d d' }.

Lemma db_Store_only w name reg pc now o n d r n' d' :
  sane d -> plain_sources d -> ids_unique d -> well_named reg -> db_Store w name (Some reg) pc now o n d = (r, n', d') -> only_source name d d'.
Proof.
  intros Hs Hp Hu (H1 & H2 & H3) H. pose proof (db_Store_same _ _ _ _ _ _ _ _ _ _ _ H) as Hadm. destruct r as [[]|err].
  2:{ apply transaction_atomic in H as ->. by split. }
  destruct (db_Store_stored _ _ _ _ _ _ _ _ _ _ Hs H1 (Hp name) H2 H3 H) as (src & Hsrc & Hst).
  assert (Ho : forall name' src', d_source d !! name' = Some src' -> name' <> name -> so_id src' <> so_id src) by (intros * Hs' Hne E; apply Hne; eauto).
  split; [done|by apply Hst| |].
  - intros name' src' Hs' nm e He. destruct Hadm as [Esrc _]. rewrite Esrc in Hs'. destruct (decide (name' = name)) as [->|Hne].
    + simplify_eq. destruct (rs_names _ _ _ _ _ _ Hst _ _ He) as [(s & -> & Hin)%list_elem_of_fmap|[e' He']]; [by apply H1|by eapply Hp].
    + rewrite (un_entry _ _ _ (rs_others _ _ _ _ _ _ Hst)) in He by by apply (Ho name'). by eapply Hp.
  - intros name' src' Hs' Hne. eapply untouched_weaken; [|apply (rs_others _ _ _ _ _ _ Hst)]. intros k E. unfold keys_of in E. cbn beta. rewrite E. by apply (Ho name').
Qed.
End Mirror.

(** ** The cluster *)

Section Syncing.
Context `{SC : ServerCodec} `{AC : ArtifactCodec} `{L : SemverLib} `{!SemverLaws L}.
Context `{NF : NameFilter} `{TF : TagFilter} `{FH : FilterHash} `{CC : ConfigCodec} `{Co : Collation}.
Context (w : dbSyncWriter) (configs : gmap string SourceConfig) (upstream : SourceHandlers -> Prop).
Hypothesis Hnamed : configs_named configs.
Hypothesis Hserved : forall h cfg fr, upstream h -> FetchRegistry h cfg = Ok fr -> well_named (fr_Registry fr).

(** A write that is none of the synchronisation's business: sources and sync rows
    are as they were, the entries of synchronised sources are untouched, and the
    database is still sane and its names plain. *)
Record elsewhere (d d' : DB) : Prop := {
  ew_source : d_source d' = d_source d;
  ew_sync : d_sync d' = d_sync d;
  ew_sane : sane d';
  ew_plain : plain_sources d';
  ew_synced : forall name src, d_source d !! name = Some src -> so_syncable src = true -> untouched (keys_of src) d d' }.

(** A step of a replica, which stores at the time it is, or a write elsewhere by
    anyone: a store of a source that is not synchronised, as the Kubernetes
    reconcilers do it ([store_elsewhere]), or a change of registries
    ([registries_elsewhere]).  Changes of the sources themselves and restarts with
    another configuration are not steps. *)
Inductive cluster_step : Cluster -> Cluster -> Prop :=
| cs_replica c c' : step (SW := dbWriter w (c_now c)) configs upstream c c' -> cluster_step c c'
| cs_other c d' : elsewhere (c_db c) d' -> cluster_step c {| c_now := c_now c; c_db := d'; c_jobs := c_jobs c |}.

(** The result of a sync of what was fetched. *)
Definition result_of (fr : FetchResult) : Result :=
  {| re_Hash := fr_Hash fr; re_ServerCount := fr_ServerCount fr; re_SkillCount := fr_SkillCount fr; re_PluginCount := fr_PluginCount fr |}.

(** The source mirrors what the network served for its configuration, filtered,
    and the result is of that. *)
Definition synced (d : DB) (name : string) (src : SourceRow) (res : Result) : Prop :=
  exists h cfg fr, upstream h /\ config_of configs d name cfg /\ FetchRegistry h cfg = Ok fr /\
    res = result_of (applyFilteringIfConfigured cfg fr) /\
    mirrors (dw_maxMetaSize w) src (fr_Registry (applyFilteringIfConfigured cfg fr)) d.

(** Every synchronised source whose row says completed. *)
Definition completed_synced (d : DB) : Prop :=
  forall name src row, d_source d !! name = Some src -> so_syncable src = true -> d_sync d !! so_id src = Some row ->
    sy_status row = SyncStatusCOMPLETED -> exists t res, row = status_row (final_status t (inl res)) /\ synced d name src res.

Record job_ok (d : DB) (j : Job) : Prop := {
  jo_config : config_of configs d (src_Name (j_cfg j)) (j_cfg j);
  jo_prefetched : forall fr, j_prefetched j = Some fr -> exists h, upstream h /\ FetchRegistry h (j_cfg j) = Ok fr;
  jo_done : forall res src, j_outcome j = Some (inl res) -> d_source d !! src_Name (j_cfg j) = Some src -> synced d (src_Name (j_cfg j)) src res }.

Record cluster_inv (c : Cluster) : Prop := {
  ci_sync : sync_inv c;
  ci_sane : sane (c_db c);
  ci_plain : plain_sources (c_db c);
  ci_jobs : forall p j, c_jobs c !! p = Some j -> job_ok (c_db c) j /\
    exists src, d_source (c_db c) !! src_Name (j_cfg j) = Some src /\ so_syncable src = true;
  ci_rows : completed_synced (c_db c) }.

(** *** Writes elsewhere *)

Lemma store_elsewhere name src reg pc now o n d r n' d' :
  sane d -> plain_sources d -> ids_unique d -> d_source d !! name = Some src -> so_syncable src = false -> well_named reg ->
  db_Store w name (Some reg) pc now o n d = (r, n', d') -> elsewhere d d'.
Proof using SemverLaws0.
  intros Hs Hp Hu Hsrc Hsy Hw H. destruct (db_Store_only _ _ _ _ _ _ _ _ _ _ _ Hs Hp Hu Hw H) as [(Es & _ & _ & Ey) H1 H2 H3].
  split; try done. intros name' src' Hs' Hsy'. apply (H3 name'); [done|]. intros ->. congruence.
Qed.

Lemma registries_elsewhere d regs links next : sane d -> plain_sources d -> (d_next d <= next)%nat ->
  elsewhere d (set_next (set_registry_source (set_registry d regs) links) next).
Proof using Type.
  intros [[W1 W2 W3 W4 W5 W6 W7] Hc Hf] Hp Hn. split; [done|done| |done|by intros; apply untouched_same].
  split; [|exact Hc|exact Hf]. split; cbn; try done; try lia.
  - intros k e He. specialize (W1 k e He). lia.
  - intros k r Hr. specialize (W3 k r Hr). lia.
Qed.

(** *** Frames *)

Lemma synced_frame name d d' name' src res : only_source name d d' -> d_source d !! name' = Some src -> name' <> name ->
  synced d name' src res -> synced d' name' src res.
Proof.
  intros [(Es & _) _ _ Ho] Hs Hne (h & cfg & fr & H1 & H2 & H3 & H4 & H5). exists h, cfg, fr. split_and!; try done.
  - by eapply config_of_sources.
  - eapply mirrors_untouched; [by eapply Ho|done].
Qed.

Lemma set_sync_sane d m : sane d -> sane (set_sync d m).
Proof. intros [[] H2 H3]. split; [by split|done..]. Qed.

Lemma synced_set_sync d m name src res : synced d name src res -> synced (set_sync d m) name src res.
Proof.
  intros (h & cfg & fr & H1 & H2 & H3 & H4 & H5). exists h, cfg, fr. split_and!; try done; [by apply (config_of_sources _ d)|].
  eapply mirrors_untouched; [|done]. by apply untouched_same.
Qed.

(** *** The pieces of a tick *)

Lemma ShouldSync_fetched h now cfg st manual r fr : ShouldSync h now cfg st manual = (r, Some fr) -> FetchRegistry h cfg = Ok fr.
Proof.
  unfold ShouldSync, IsDataChanged, rbind. intros H. destruct (FetchRegistry h cfg) as [fr'|]; repeat case_match; by simplify_eq.
Qed.

Lemma sync_predicate_fetched h now cfg st pre fr : sync_predicate h now cfg st = Some pre -> pre = Some fr -> FetchRegistry h cfg = Ok fr.
Proof.
  unfold sync_predicate. destruct (ShouldSync h now cfg st false) as [r f] eqn:E. intros H ->. case_match; [|done]. simplify_eq. by eapply ShouldSync_fetched.
Qed.

(** A sync stores what was prefetched, or fetched now, or changes nothing. *)
Lemma PerformSync_run t h cfg pre o n d outcome n' d' :
  PerformSync (SW := dbWriter w t) h cfg pre o n d = (Ok outcome, n', d') ->
  (d' = d /\ forall res, outcome <> inl res) \/
  exists fr, (pre = Some fr \/ pre = None /\ FetchRegistry h cfg = Ok fr) /\
    outcome = inl (result_of (applyFilteringIfConfigured cfg fr)) /\
    db_Store w (src_Name cfg) (Some (fr_Registry (applyFilteringIfConfigured cfg fr))) ∅ t o n d = (Ok (), n', d').
Proof.
  unfold PerformSync, storeRegistryData, attempt, mbind, Q_bind, mret, Q_ret. intros H.
  destruct (fetchAndProcessRegistryData h cfg pre) as [fr'|err] eqn:Ef; [|left; by simplify_eq].
  assert (Hfr : exists fr, fr' = applyFilteringIfConfigured cfg fr /\ (pre = Some fr \/ pre = None /\ FetchRegistry h cfg = Ok fr)).
  { unfold fetchAndProcessRegistryData in Ef. destruct pre as [fr|]; [simplify_eq; eauto|].
    destruct (CreateHandler h cfg), (Validate h cfg), (FetchRegistry h cfg) as [fr|]; simplify_eq; eauto. }
  destruct Hfr as (fr & -> & Hfr). cbn [Store dbWriter] in H.
  destruct (db_Store w _ _ _ _ o n d) as [[[[]|e] n1] d1] eqn:E; simplify_eq.
  - right. exists fr. split; [done|]. split; [done|]. done.
  - left. apply transaction_atomic in E. by subst.
Qed.

Lemma filtered_well_named cfg fr : well_named (fr_Registry fr) -> well_named (fr_Registry (applyFilteringIfConfigured cfg fr)).
Proof.
  intros (H1 & H2 & H3). unfold applyFilteringIfConfigured. destruct (src_Filter cfg) as [f|]; [|done]. cbn [fr_Registry].
  unfold ApplyFilters, well_named, distinct_keys. cbn [ur_Servers ur_Skills ur_Plugins]. rewrite !filter_loop_spec. setoid_rewrite elem_of_filter_bool.
  split_and!; [intros s [Hs _]; by apply H1|intros u u' [Hu _] [Hu' _]; by apply H2|intros u u' [Hu _] [Hu' _]; by apply H3].
Qed.

(** *** The invariant *)

Lemma rows_set_sync d name s row : completed_synced d -> ids_unique d -> d_source d !! name = Some s ->
  (sy_status row = SyncStatusCOMPLETED -> exists t res, row = status_row (final_status t (inl res)) /\ synced d name s res) ->
  completed_synced (set_sync d (<[so_id s := row]> (d_sync d))).
Proof.
  intros Hc Hu Hs Hrow name' src row' Hs' Hsy Hr Hst. cbn [d_source d_sync set_sync] in *.
  assert (Hx : exists t res, row' = status_row (final_status t (inl res)) /\ synced d name' src res).
  { apply lookup_insert_Some in Hr as [[E <-]|[_ Hr]]; [|by eapply Hc].
    assert (name = name') as <- by by eapply Hu. simplify_eq. by apply Hrow. }
  destruct Hx as (t & res & -> & Hx). exists t, res. split; [done|]. by apply synced_set_sync.
Qed.

Lemma job_ok_set_sync d m j : job_ok d j -> job_ok (set_sync d m) j.
Proof.
  intros [H1 H2 H3]. split; [by apply (config_of_sources _ d)|done|]. intros res src Hr Hs. apply synced_set_sync. by apply H3.
Qed.

Lemma job_ok_frame name d d' j : only_source name d d' -> (src_Name (j_cfg j) = name -> forall res, j_outcome j <> Some (inl res)) ->
  job_ok d j -> job_ok d' j.
Proof.
  intros Ho Hn [H1 H2 H3]. pose proof (os_admin _ _ _ Ho) as [Es _]. split; [by apply (config_of_sources _ d)|done|].
  intros res src Hr Hs. rewrite Es in Hs. eapply synced_frame; [done|done| |by apply H3]. intros E. by destruct (Hn E res).
Qed.

Lemma rows_frame name d d' : only_source name d d' ->
  (forall src row, d_source d !! name = Some src -> so_syncable src = true -> d_sync d !! so_id src = Some row -> sy_status row <> SyncStatusCOMPLETED) ->
  completed_synced d -> completed_synced d'.
Proof.
  intros Ho Hn Hc name' src row Hs Hsy Hr Hst. pose proof (os_admin _ _ _ Ho) as (Es & _ & _ & Ey). rewrite Es in Hs. rewrite Ey in Hr.
  destruct (Hc _ _ _ Hs Hsy Hr Hst) as (t & res & -> & Hx). exists t, res. split; [done|]. eapply synced_frame; [done|done| |done].
  intros ->. by eapply Hn.
Qed.

Lemma sync_inv_frame c d' : d_source d' = d_source (c_db c) -> d_sync d' = d_sync (c_db c) -> sync_inv c ->
  sync_inv {| c_now := c_now c; c_db := d'; c_jobs := c_jobs c |}.
Proof.
  intros Es Ey [H1 H2 H3 H4]. split; cbn [c_db c_now c_jobs]; [|by unfold rows_wf; rewrite Ey| |done].
  - unfold ids_unique. by rewrite Es.
  - unfold in_progress. by rewrite Es, Ey.
Qed.

(** A job has stored its source: it alone changed, and the outcome is of what
    the source now mirrors. *)
Lemma performed t c p j h o n outcome n' d' : cluster_inv c -> c_jobs c !! p = Some j -> j_outcome j = None -> upstream h ->
  PerformSync (SW := dbWriter w t) h (j_cfg j) (j_prefetched j) o n (c_db c) = (Ok outcome, n', d') ->
  only_source (src_Name (j_cfg j)) (c_db c) d' /\
  job_ok d' {| j_cfg := j_cfg j; j_prefetched := j_prefetched j; j_started := j_started j; j_outcome := Some outcome |}.
Proof.
  intros Hi Hp Ho Hh H. destruct (ci_jobs _ Hi _ _ Hp) as [[Hc Hpre _] _].
  apply PerformSync_run in H as [[-> Hr]|(fr & Hfr & -> & Hst)].
  - split; [split; [done|apply Hi..|intros; apply untouched_refl]|]. split; cbn; [done|done|]. intros res src [= ->]. by destruct (Hr res).
  - assert (Hf : exists h', upstream h' /\ FetchRegistry h' (j_cfg j) = Ok fr).
    { destruct Hfr as [E|[E Hf]]; [by apply Hpre|by exists h]. }
    destruct Hf as (h' & Hh' & Hf). pose proof (filtered_well_named (j_cfg j) fr (Hserved _ _ _ Hh' Hf)) as Hw.
    assert (Hos : only_source (src_Name (j_cfg j)) (c_db c) d') by (eapply db_Store_only; [apply Hi|apply Hi|apply Hi|exact Hw|exact Hst]).
    split; [done|]. destruct Hw as (W1 & W2 & W3). pose proof (os_admin _ _ _ Hos) as [Es _].
    destruct (db_Store_stored _ _ _ _ _ _ _ _ _ _ (ci_sane _ Hi) W1 (ci_plain _ Hi _) W2 W3 Hst) as (src & Hsrc & Hstored).
    split; cbn; [by apply (config_of_sources _ (c_db c))|done|]. intros res src' [= <-] Hs'. rewrite Es, Hsrc in Hs'. injection Hs' as <-.
    exists h', (j_cfg j), fr. split_and!; try done; [by apply (config_of_sources _ (c_db c))|]. by eapply stored_mirrors.
Qed.


Lemma replica_inv now c c' : step (SW := dbWriter w now) configs upstream c c' -> cluster_inv c -> cluster_inv c'.
Proof.
  intros Hstep Hi. pose proof (step_inv (SW := dbWriter w now) _ _ _ _ Hnamed Hstep (ci_sync _ Hi)) as Hsync.
  pose proof Hi as [Hsi Hs Hp Hj Hr]. pose proof (inv_ids _ Hsi) as Hids. destruct Hstep as
    [c t Ht Hgrace|c p h locked o n cfg pre n' d' Hq Hh H|c p h locked o n r n' d' Hq Hh H Hres
    |c p j h o n outcome n' d' Hq Ho Hh H|c p j outcome o n r n' d' Hq Ho H|c p].
  - by split.
  - apply GetNextSyncJob_run in H; [|done]. destruct H as (s & row & Hsrc & Hrow & Hdue & _ & Hcfg & _ & Hpred & ->).
    split; cbn [c_db c_jobs]; [done|by apply set_sync_sane|done| |by eapply rows_set_sync].
    intros q k [[<- <-]|[_ Hk]]%lookup_insert_Some.
    + split; [split; cbn; [by apply (config_of_sources _ (c_db c))| |done]|].
      * intros fr ->. exists h. split; [done|]. by eapply sync_predicate_fetched.
      * exists s. split; [done|]. unfold due in Hdue. by apply andb_true_iff in Hdue as [? _].
    + destruct (Hj _ _ Hk) as [Hk1 Hk2]. split; [by apply job_ok_set_sync|done].
  - apply GetNextSyncJob_run in H; [|done]. destruct r as [[[??]|]|]; [by edestruct Hres|subst d'; by split..].
  - destruct (performed now c p j h o n outcome n' d' Hi Hq Ho Hh H) as [Hos Hjob]. destruct (Hj _ _ Hq) as [_ Hsy].
    destruct (inv_jobs _ Hsi _ _ Hq) as [(s' & row' & Hs' & Hr' & Hst & _) _]. pose proof (os_admin _ _ _ Hos) as [Es _].
    split; cbn [c_db c_jobs]; [done|apply Hos|apply Hos| |].
    + intros q k [[<- <-]|[Hne Hk]]%lookup_insert_Some; rewrite Es; [done|]. destruct (Hj _ _ Hk) as [Hk1 Hk2]. split; [|done].
      eapply job_ok_frame; [done| |done]. intros E. destruct Hne. symmetry. by eapply (inv_exclusive _ Hsi).
    + eapply rows_frame; [done| |done]. intros src row Hs1 _ Hr1. simplify_eq. by rewrite Hst.
  - destruct (Hj _ _ Hq) as [[Hc Hpre Hdone] _].
    assert (Hk : forall q k, delete p (c_jobs c) !! q = Some k -> c_jobs c !! q = Some k) by by intros q k [_ ?]%lookup_delete_Some.
    apply UpdateSyncStatus_run in H as [->|(s & Hsrc & ->)]; split; cbn [c_db c_jobs]; try done; try (by apply set_sync_sane).
    + intros q k Hk'%Hk. by eapply Hj.
    + intros q k Hk'%Hk. destruct (Hj _ _ Hk') as [Hk1 Hk2]. split; [by apply job_ok_set_sync|done].
    + eapply rows_set_sync; [done|done|done|]. destruct outcome as [res|err]; [|done]. intros _. eauto.
  - split; cbn [c_db c_jobs]; try done. intros q k [_ Hk]%lookup_delete_Some. by eapply Hj.
Qed.

Lemma synced_elsewhere d d' name src res : elsewhere d d' -> d_source d !! name = Some src -> so_syncable src = true ->
  synced d name src res -> synced d' name src res.
Proof.
  intros [Es _ _ _ Hu] Hs Hsy (h & cfg & fr & H1 & H2 & H3 & H4 & H5). exists h, cfg, fr. split_and!; try done.
  - by eapply config_of_sources.
  - eapply mirrors_untouched; [by eapply Hu|done].
Qed.

Lemma cluster_step_inv c c' : cluster_step c c' -> cluster_inv c -> cluster_inv c'.
Proof.
  intros [c1 c2 Hstep|c1 d' He] Hi; [by eapply replica_inv|]. pose proof Hi as [Hsi Hs Hp Hj Hr]. pose proof He as [Es Ey H1 H2 Hu].
  split; cbn [c_db c_jobs]; [by apply sync_inv_frame|done|done| |].
  - intros p j Hpj. destruct (Hj _ _ Hpj) as [[J1 J2 J3] (src' & Hs' & Hsy')]. rewrite Es. split; [|eauto].
    split; [by eapply config_of_sources|done|]. intros res src Hres Hs2. rewrite Es in Hs2.
    assert (src = src') as -> by congruence. by eapply synced_elsewhere; [..|by apply J3].
  - intros name src row Hs' Hsy Hrow Hst. rewrite Es in Hs'. rewrite Ey in Hrow.
    destruct (Hr _ _ _ Hs' Hsy Hrow Hst) as (t & res & -> & Hx). exists t, res. split; [done|]. by eapply synced_elsewhere.
Qed.

(** A database none of whose sources has been synchronised. *)
Definition nothing_completed (d : DB) : Prop :=
  forall name src row, d_source d !! name = Some src -> so_syncable src = true -> d_sync d !! so_id src = Some row -> sy_status row <> SyncStatusCOMPLETED.

Lemma nothing_yet d : nothing_completed d -> completed_synced d.
Proof. intros Hn name src row H1 H2 H3 H4. by destruct (Hn _ _ _ H1 H2 H3). Qed.

Lemma cluster_reachable c c' : started c -> sane (c_db c) -> plain_sources (c_db c) -> completed_synced (c_db c) ->
  rtc cluster_step c c' -> cluster_inv c'.
Proof.
  intros Hst Hs Hp Hn Hr. assert (Hi : cluster_inv c).
  { split; [by apply started_inv|done|done| |done]. destruct Hst as (-> & _). intros p j Hj. by rewrite lookup_empty in Hj. }
  clear -Hr Hi Hnamed Hserved SemverLaws0. induction Hr; eauto using cluster_step_inv.
Qed.

(** C18. Completed means current as of the fetch.  Start with an invariant database
    in which this holds already, as it does when no synchronised source is marked
    completed, and with no sync running; let the replicas take,
    perform and report syncs in any interleaving, crash, lose their connections and
    read the wall clock, and let others write elsewhere in between, that is without
    changing the sources, the sync rows and the entries of synchronised sources (as
    stores of Kubernetes sources and changes of registries do), as long as no sync
    runs longer than the hour of grace.  Then a synchronised source whose row says
    completed holds exactly the servers, skills and plugins of a registry that was
    fetched for its configuration, filtered, with contents and claims as C17 says,
    and the hash and counts in the row are of that very registry; the invariant of
    the database holds throughout.  Assumed: the configuration and the sources stay
    as they are (after an update of a source or a restart with another
    configuration a row can still say completed of the old one), and names are as
    C17 needs them, in what upstreams serve and at the start. *)
Theorem completed_mirrors c c' name src row :
  started c -> sane (c_db c) -> plain_sources (c_db c) -> completed_synced (c_db c) -> rtc cluster_step c c' ->
  d_source (c_db c') !! name = Some src -> so_syncable src = true -> d_sync (c_db c') !! so_id src = Some row ->
  sy_status row = SyncStatusCOMPLETED ->
  sane (c_db c') /\ exists t h cfg fr, upstream h /\ config_of configs (c_db c') name cfg /\ FetchRegistry h cfg = Ok fr /\
    row = status_row (final_status t (inl (result_of (applyFilteringIfConfigured cfg fr)))) /\
    mirrors (dw_maxMetaSize w) src (fr_Registry (applyFilteringIfConfigured cfg fr)) (c_db c').
Proof.
  intros H1 H2 H3 H4 Hr Hs Hsy Hrow Hst. pose proof (cluster_reachable c c' H1 H2 H3 H4 Hr) as Hi. split; [apply Hi|].
  destruct (ci_rows _ Hi _ _ _ Hs Hsy Hrow Hst) as (t & res & -> & h & cfg & fr & A1 & A2 & A3 & -> & A4).
  exists t, h, cfg, fr. done.
Qed.
End Syncing.

(** ** A concrete cluster

    One source, with the upstream registry of [FetchingExample] behind the
    handlers of the program, and a source that is written by others. *)
Module SyncingExample.
Import EntriesExample ArtifactsExample WriterExample.
#[local] Existing Instance MiniSemver.lib.
#[local] Existing Instance MiniSemver.laws.
#[local] Existing Instance SyncExample.all_names.
#[local] Existing Instance SyncExample.all_tags.
#[local] Existing Instance SyncExample.hash.
#[local] Existing Instance SyncExample.codec.
#[local] Existing Instance FetchingExample.texts.
#[local] Existing Instance FetchingExample.plain_hash.
#[local] Existing Instance FetchingExample.no_files.
#[local] Existing Instance FetchingExample.no_parser.
#[local] Existing Instance FetchingExample.no_git.

Definition network (now : string) : SourceHandlers := default_handlers (H := FetchingExample.two_pages) (fun _ => true) now.
Definition served (h : SourceHandlers) : Prop := exists now, h = network now.

Definition configs : gmap string SourceConfig := {[ "up" := FetchingExample.upstream_source ]}.
Definition src_row (id : nat) (syncable : bool) : SourceRow :=
  {| so_id := id; so_creation_type := CreationTypeCONFIG; so_source_type := if syncable then SourceTypeAPI else SourceTypeKubernetes;
     so_source_config := ""; so_filter_config := ""; so_sync_schedule := Some (30 * Minute)%Z; so_syncable := syncable; so_claims := ""; so_created_at := 0 |}.
Definition row0 : SyncRow :=
  {| sy_status := SyncStatusFAILED; sy_error_msg := Some "No previous sync status found"; sy_started_at := Some 0%Z; sy_ended_at := None; sy_attempt_count := 0;
     sy_last_sync_hash := None; sy_filter_hash := None; sy_server_count := 0; sy_skill_count := 0; sy_plugin_count := 0 |}.
Definition start : DB :=
  {| d_next := 3; d_source := {[ "up" := src_row 1 true; "internal" := src_row 2 false ]}; d_registry := ∅; d_registry_source := ∅; d_entry := ∅;
     d_version := ∅; d_latest := ∅; d_server := ∅; d_package := ∅; d_remote := ∅; d_icon := ∅; d_sync := {[ 1%nat := row0 ]}; d_skill := ∅; d_plugin := ∅ |}.

Lemma example_configs_ok : configs_named configs.
Proof. unfold configs. intros name c H. apply lookup_singleton_Some in H as [<- <-]. reflexivity. Qed.

Lemma page_names data servers next : page_Unmarshal data = Some (servers, next) -> Forall (fun s => no_at (sj_Name s)) servers.
Proof.
  cbn. intros H. assert (Hn : forall n, n ∈ ["io.a/one"; "io.a/two"] -> no_at n).
  { intros n. unfold no_at. rewrite !elem_of_cons, elem_of_nil. intros [->|[->|[]]]; apply (bool_decide_eq_true_1 ("@"%char ∉ _)); reflexivity. }
  repeat case_match; simplify_eq; constructor; try done; apply Hn; set_solver.
Qed.

Lemma served_named h cfg fr : served h -> FetchRegistry h cfg = Ok fr -> well_named (fr_Registry fr).
Proof.
  intros [now ->] H. cbn [FetchRegistry network default_handlers] in H. unfold handler_FetchRegistry in H. apply bind_ok in H as (k & _ & H). destruct k.
  - unfold git_FetchRegistry in H. apply bind_ok in H as (data & _ & H). apply bind_ok in H as (reg & E%with_context_ok%ValidateData_iff & _).
    by destruct E as (_ & E & _).
  - apply api_FetchRegistry_iff in H as (api & timeout & n & servers & data & _ & _ & _ & _ & Hp & _ & _ & _ & ->).
    split; [|split; [apply no_key|apply no_key]]. cbn. apply Forall_forall.
    induction Hp as [k cursor servers E|n k cursor servers next rest E _ _ IH]; [|apply Forall_app; split; [|done]];
      unfold fetch_page in E; apply bind_ok in E as (page & _ & E); destruct (page_Unmarshal page) as [[l nx]|] eqn:Ep; simplify_eq; by eapply page_names.
  - unfold file_FetchRegistry in H. apply bind_ok in H as (data & _ & H). destruct data as [data hash].
    apply bind_ok in H as (reg & E%with_context_ok%ValidateData_iff & _). by destruct E as (_ & E & _).
Qed.


Lemma start_source name s : d_source start !! name = Some s -> (name, s) = ("up", src_row 1 true) \/ (name, s) = ("internal", src_row 2 false).
Proof. unfold start. cbn [d_source]. intros [[<- <-]|[_ H]]%lookup_insert_Some; [by left|right]. by apply lookup_singleton_Some in H as [<- <-]. Qed.
Lemma start_row id row : d_sync start !! id = Some row -> row = row0.
Proof. unfold start. cbn [d_sync]. intros H. by apply lookup_singleton_Some in H as [_ <-]. Qed.
Lemma start_sane : sane start.
Proof.
  split.
  - split; simpl; intros; by try rewrite lookup_empty in *; try lia.
  - intros sid ty name e v r H. simpl in H. by rewrite lookup_empty in H.
  - intros [] id H; cbn in H; apply bool_decide_eq_true in H as [x Hx]; cbn in Hx; by rewrite lookup_empty in Hx.
Qed.
Lemma start_plain : plain_sources start.
Proof. intros name src _ nm e H. simpl in H. by rewrite lookup_empty in H. Qed.
Lemma start_nothing : nothing_completed start.
Proof. intros name src row _ _ H. by rewrite (start_row _ _ H). Qed.

(** A replica claims [up], with the two pages; another writer stores [internal];
    the replica stores and reports. *)
Definition cluster (d : DB) (jobs : gmap nat Job) : Cluster := {| c_now := Hour; c_db := d; c_jobs := jobs |}.
Definition claim := GetNextSyncJob configs Hour ∅ (sync_predicate (network "t") Hour) no_fault 0 start.
Definition pages : FetchResult := NewFetchResult
  (buildUpstreamRegistry "t" [FetchingExample.server "io.a/one"; FetchingExample.server "io.a/two"]) "io.a/one,io.a/two".
Definition job (outcome : option (Result + Error)) : Job :=
  {| j_cfg := FetchingExample.upstream_source; j_prefetched := Some pages; j_started := Hour; j_outcome := outcome |}.
Definition other := db_Store writer "internal" (Some reg1) ∅ Hour no_fault 0 (snd claim).
Definition perform := PerformSync (SW := dbWriter writer Hour) (network "t") FetchingExample.upstream_source (Some pages) no_fault 0 (snd other).
Definition success : Result + Error := inl (result_of pages).
Definition report := UpdateSyncStatus "up" (final_status Hour success) no_fault 0 (snd perform).
Definition finish : Cluster := cluster (snd report) (delete 0%nat {[ 0%nat := job (Some success) ]}).

Lemma start_started : started (cluster start ∅).
Proof.
  split; [done|]. split.
  - intros n1 n2 s1 s2 [[= -> ->]|[= -> ->]]%start_source [[= -> ->]|[= -> ->]]%start_source; done.
  - intros id row H. by rewrite (start_row _ _ H).
Qed.

Lemma reg1_named : well_named reg1.
Proof. split; [|split; [apply one_key|apply no_key]]. intros s Hs. apply (upstream_at [("1.2.0", "oci"); ("1.10.0", "oci")]). exact Hs. Qed.

Lemma claimed : cluster_step writer configs served (cluster start ∅) (cluster (snd claim) {[ 0%nat := job None ]}).
Proof.
  apply cs_replica. apply (step_claim (SW := dbWriter writer Hour) configs served (cluster start ∅) 0 (network "t") ∅ no_fault 0
      FetchingExample.upstream_source (Some pages) (snd (fst claim)) (snd claim)); [done|by exists "t"|]. vm_compute. reflexivity.
Qed.

Lemma finish_reachable : rtc (cluster_step writer configs served) (cluster start ∅) finish.
Proof.
  apply rtc_l with (cluster (snd claim) {[ 0%nat := job None ]}); [exact claimed|].
  apply rtc_l with (cluster (snd other) {[ 0%nat := job None ]}).
  { refine (cs_other writer configs served (cluster (snd claim) {[ 0%nat := job None ]}) (snd other) _).
    assert (H : cluster_inv writer configs served (cluster (snd claim) {[ 0%nat := job None ]})).
    { eapply (cluster_reachable writer configs served example_configs_ok served_named); [exact start_started|exact start_sane|exact start_plain|exact (nothing_yet _ _ _ _ start_nothing)|].
      apply rtc_once, claimed. }
    eapply (store_elsewhere writer "internal" (src_row 2 false) reg1 ∅ Hour no_fault 0 (snd claim) (fst (fst other)) (snd (fst other)));
      [exact (ci_sane _ _ _ _ H)|exact (ci_plain _ _ _ _ H)|exact (inv_ids _ (ci_sync _ _ _ _ H))|vm_compute; reflexivity|done|exact reg1_named|vm_compute; reflexivity]. }
  apply rtc_l with (cluster (snd perform) {[ 0%nat := job (Some success) ]}).
  { apply cs_replica. refine (step_perform (SW := dbWriter writer Hour) configs served (cluster (snd other) {[ 0%nat := job None ]}) 0 (job None)
      (network "t") no_fault 0 success (snd (fst perform)) (snd perform) _ _ _ _); [done|done|by exists "t"|]. vm_compute. reflexivity. }
  apply rtc_once, cs_replica. refine (step_report (SW := dbWriter writer Hour) configs served (cluster (snd perform) {[ 0%nat := job (Some success) ]}) 0
    (job (Some success)) success no_fault 0 (fst (fst report)) (snd (fst report)) (snd report) _ _ _); [done|done|]. vm_compute. reflexivity.
Qed.

Lemma completed_mirrors_witness :
  sy_last_sync_hash <$> d_sync (c_db finish) !! 1%nat = Some (Some "io.a/one,io.a/two") /\
  exists t h cfg fr, served h /\ FetchRegistry h cfg = Ok fr /\
    status_row (final_status Hour success) = status_row (final_status t (inl (result_of (applyFilteringIfConfigured cfg fr)))) /\
    mirrors 262144 (src_row 1 true) (fr_Registry (applyFilteringIfConfigured cfg fr)) (c_db finish).
Proof.
  split; [vm_compute; reflexivity|].
  destruct (completed_mirrors writer configs served example_configs_ok served_named (cluster start ∅) finish "up" (src_row 1 true)
    (status_row (final_status Hour success)) start_started start_sane start_plain (nothing_yet _ _ _ _ start_nothing) finish_reachable)
    as [_ (t & h & cfg & fr & H1 & _ & H3 & H4 & H5)]; [vm_compute; reflexivity|reflexivity|vm_compute; reflexivity|reflexivity|].
  exists t, h, cfg, fr. split; [exact H1|split; [exact H3|split; [exact H4|exact H5]]].
Defined.

(** The hour matters.  A replica that stalls for longer finds its source claimed
    again: when it stores the first registry after the other stored the second,
    and the other reports last, the row has the hash of the second while the
    source holds the first, and a later fetch of the second changes nothing. *)
Definition reg_of (name : string) : FetchResult := NewFetchResult (buildUpstreamRegistry "t" [FetchingExample.server name]) name.
Definition serving (name : string) : SourceHandlers :=
  {| CreateHandler := fun _ => Ok (); Validate := fun _ => Ok (); FetchRegistry := fun _ => Ok (reg_of name) |}.
Definition sync_with (h : SourceHandlers) (now : Z) := GetNextSyncJob configs now ∅ (sync_predicate h now) no_fault 0.
Definition store_with (now : Z) (fr : FetchResult) :=
  PerformSync (SW := dbWriter writer now) (serving "") FetchingExample.upstream_source (Some fr) no_fault 0.
Definition report_with (now : Z) (fr : FetchResult) := UpdateSyncStatus "up" (final_status now (inl (result_of fr))) no_fault 0.
Definition slow : DB := snd (sync_with (serving "io.a/first") 0%Z start).
Definition again := sync_with (serving "io.a/second") (2 * Hour)%Z slow.
Definition overrun : DB :=
  snd (report_with (2 * Hour) (reg_of "io.a/second") (snd (report_with (2 * Hour) (reg_of "io.a/first")
    (snd (store_with (2 * Hour) (reg_of "io.a/first") (snd (store_with (2 * Hour) (reg_of "io.a/second") (snd again)))))))).

Lemma overrun_stale :
  fst (fst again) = Ok (Some (FetchingExample.upstream_source, Some (reg_of "io.a/second"))) /\
  sy_last_sync_hash <$> d_sync overrun !! 1%nat = Some (Some "io.a/second") /\
  is_Some (d_entry overrun !! (1%nat, EntryTypeMCP, "io.a/first")) /\
  match d_entry overrun !! (1%nat, EntryTypeMCP, "io.a/second") with Some e => d_version overrun !! (en_id e, "1.0.0") = None | None => True end /\
  fst (fst (sync_with (serving "io.a/second") (24 * Hour)%Z overrun)) = Ok None.
Proof.
  split; [vm_compute; reflexivity|]. split; [vm_compute; reflexivity|]. split; [vm_compute; eauto|].
  split; [vm_compute; first [exact I|reflexivity]|vm_compute; reflexivity].
Qed.
End SyncingExample.
