(* ===== verification/Coordinator.v ===== *)
(** * The sync coordinator

    [internal/sync/coordinator/coordinator.go]: the options, the polling
    interval with its jitter, and [Start], which brings the database up to date
    with the configuration and then looks for a job at every tick until its
    context is done.  The ticks a run gets, with what the network serves and the
    random numbers drawn, are its input.

    A tick refines the steps of a replica of the cluster of [Sync] and
    [Syncing], so what holds in every reachable state of the cluster holds of
    the database a coordinator leaves. *)

From stdpp Require Import base list strings gmap sets sorting relations.
From Stdlib Require Import String Ascii ZArith Lia.
From S2P Require Import Prelude GoStrings Durations Codec ConfigTypes Config Versions Claims Upstream Filtering Database Entries Artifacts Sync Writer WriterCorrect WriterKinds Initialize Fetching Syncing.

Local Open Scope string_scope.
Local Open Scope list_scope.

(** ** The coordinator *)

Definition basePollingInterval : Z := 2 * Minute.
Definition pollingJitter : Z := 30 * Second.

(** The manager is given by the writer it stores with; metrics and the tracer
    are left out. *)
Record defaultCoordinator := { co_manager : dbSyncWriter; co_config : Config; co_pollingIntervalOverride : Z }.
Definition Option : Type := defaultCoordinator -> defaultCoordinator.
Definition withPollingInterval (d : Z) : Option := fun c =>
  {| co_manager := co_manager c; co_config := co_config c; co_pollingIntervalOverride := d |}.
Definition New (manager : dbSyncWriter) (cfg : Config) (opts : list Option) : defaultCoordinator :=
  foldl (fun c opt => opt c) {| co_manager := manager; co_config := cfg; co_pollingIntervalOverride := 0 |} opts.

(** [rand] is the number [rand.Int64N(2 * pollingJitter)] draws. *)
Definition calculatePollingInterval (rand : Z) : Z :=
  let jitterOffset := (rand - pollingJitter)%Z in (basePollingInterval + jitterOffset)%Z.
Definition pollingInterval (c : defaultCoordinator) (rand : Z) : Z :=
  if (0 <? co_pollingIntervalOverride c)%Z then co_pollingIntervalOverride c else calculatePollingInterval rand.

(** What a tick meets: the network, the rows others hold, when its claim and its
    report are, and the random number of the next interval. *)
Record Tick := { tk_handlers : SourceHandlers; tk_locked : gset string; tk_now : Z; tk_later : Z; tk_rand : Z }.

Section Coordinator.
Context `{SC : ServerCodec} `{AC : ArtifactCodec} `{L : SemverLib}.
Context `{NF : NameFilter} `{TF : TagFilter} `{FH : FilterHash} `{CC : ConfigCodec} `{Co : Collation} `{CM : ConfigMarshal} `{C : JsonCodec}.

Definition tick (c : defaultCoordinator) (t : Tick) : Q () :=
  processNextSyncJob (SW := dbWriter (co_manager c) (tk_later t)) (sourceConfigsMap (co_config c)) (tk_handlers t) (tk_locked t) (tk_now t) (tk_later t).

(** The loop, over the ticks that come before the context is done; the intervals
    it sets. *)
Fixpoint coordinator_loop (c : defaultCoordinator) (ticks : list Tick) : Q (list Z) :=
  match ticks with
  | [] => mret []
  | t :: ticks => _ ← tick c t; rest ← coordinator_loop c ticks; mret (pollingInterval c (tk_rand t) :: rest)
  end.

(** [Start]: [rand] is drawn for the first interval, [first] is the initial check. *)
Definition Start (c : defaultCoordinator) (now rand : Z) (first : Tick) (ticks : list Tick) : Q (list Z) :=
  _ ← wrapping "failed to initialize registry sync status: %w" (Initialize now (co_config c));
  let interval := pollingInterval c rand in
  _ ← tick c first;
  rest ← coordinator_loop c ticks;
  mret (interval :: rest).

(** ** It runs until it is told to stop *)

Lemma tick_total c t o n d : exists n' d', tick c t o n d = (Ok (), n', d').
Proof.
  unfold tick, processNextSyncJob, attempt, mbind at 1, Q_bind.
  destruct (GetNextSyncJob _ _ _ _ o n d) as [[[[[cfg pre]|]|e] n1] d1]; [|by eexists _, _..].
  unfold performRegistrySync, mbind at 1, Q_bind. destruct (PerformSync_total (SW := dbWriter (co_manager c) (tk_later t)) (tk_handlers t) cfg pre o n1 d1) as (outcome & n2 & d2 & ->).
  unfold mbind, Q_bind, attempt, mret, Q_ret. destruct (UpdateSyncStatus _ _ o n2 d2) as [[??]?]. by eexists _, _.
Qed.

Lemma loop_total c ticks o n d : exists n' d', coordinator_loop c ticks o n d = (Ok ((fun t => pollingInterval c (tk_rand t)) <$> ticks), n', d').
Proof.
  revert n d. induction ticks as [|t ticks IH]; intros n d; [by eexists _, _|]. cbn [coordinator_loop]. unfold mbind at 1, Q_bind.
  destruct (tick_total c t o n d) as (n1 & d1 & ->). unfold mbind at 1, Q_bind. destruct (IH n1 d1) as (n2 & d2 & ->). by eexists _, _.
Qed.

(** No failure of a sync ends the loop: [Start] fails only when the database
    cannot be brought up to date with the configuration, and then nothing has
    been synchronised. *)
Lemma Start_returns c now rand first ticks o n d :
  (exists err n' d', Initialize now (co_config c) o n d = (Err err, n', d') /\
     Start c now rand first ticks o n d = (Err (wrapf "failed to initialize registry sync status: %w" err), n', d')) \/
  exists n' d', Start c now rand first ticks o n d =
    (Ok (pollingInterval c rand :: ((fun t => pollingInterval c (tk_rand t)) <$> ticks)), n', d').
Proof.
  unfold Start, wrapping, mbind, Q_bind. cbv zeta.
  destruct (Initialize now (co_config c) o n d) as [[[[]|err] n1] d1]; [right|left; by eexists _, _, _].
  destruct (tick_total c first o n1 d1) as (n2 & d2 & ->). destruct (loop_total c ticks o n2 d2) as (n3 & d3 & ->). by eexists _, _.
Qed.

(** The interval is between one and a half and two and a half minutes. *)
Lemma interval_bounds rand : (0 <= rand < 2 * pollingJitter)%Z ->
  (90 * Second <= calculatePollingInterval rand < 150 * Second)%Z.
Proof. unfold calculatePollingInterval, basePollingInterval, pollingJitter, Minute, Second. lia. Qed.

(** ** It refines the cluster *)

Context `{!SemverLaws L} (upstream : SourceHandlers -> Prop).

(** Ticks in order, none longer than the hour of grace. *)
Fixpoint in_order (now : Z) (ticks : list Tick) : Prop :=
  match ticks with
  | [] => True
  | t :: ticks => (now <= tk_now t <= tk_later t)%Z /\ (tk_later t - tk_now t <= orphanedSyncGracePeriod)%Z /\ upstream (tk_handlers t) /\ in_order (tk_later t) ticks
  end.

Definition alone (now : Z) (d : DB) : Cluster := {| c_now := now; c_db := d; c_jobs := ∅ |}.

Abbreviation steps c := (rtc (cluster_step (co_manager c) (sourceConfigsMap (co_config c)) upstream)).

Lemma wait c now now' d : (now <= now')%Z -> steps c (alone now d) (alone now' d).
Proof. intros Hle. apply rtc_once, cs_replica. apply (step_time _ _ (alone now d) now'); [done|]. intros p j Hj. cbn in Hj. by rewrite lookup_empty in Hj. Qed.

(** One replica at work on a job. *)
Definition at_work (now : Z) (d : DB) (j : Job) : Cluster := {| c_now := now; c_db := d; c_jobs := {[ 0%nat := j ]} |}.

(** A claimed job takes its time, stores and reports. *)
Lemma work_steps c (t : Tick) cfg pre o n d u n' d' : let j := {| j_cfg := cfg; j_prefetched := pre; j_started := tk_now t; j_outcome := None |} in
  (tk_now t <= tk_later t)%Z -> (tk_later t - tk_now t <= orphanedSyncGracePeriod)%Z -> upstream (tk_handlers t) ->
  performRegistrySync (SW := dbWriter (co_manager c) (tk_later t)) (tk_handlers t) (tk_later t) cfg pre o n d = (Ok u, n', d') ->
  steps c (at_work (tk_now t) d j) (alone (tk_later t) d').
Proof.
  intros j Hle Hg Hh H. apply bind_run_ok in H as (outcome & n1 & d1 & E & H). apply bind_run_ok in H as (r & n2 & d2 & E2 & H).
  apply attempt_run_ok in E2. apply ret_run_ok in H as (_ & _ & ->).
  apply rtc_l with (at_work (tk_later t) d j).
  { apply cs_replica. apply (step_time _ _ (at_work (tk_now t) d j) (tk_later t)); [done|]. intros p k Hk. cbn [c_jobs at_work] in Hk. by apply lookup_singleton_Some in Hk as [_ <-]. }
  set (j' := {| j_cfg := cfg; j_prefetched := pre; j_started := tk_now t; j_outcome := Some outcome |}).
  apply rtc_l with (at_work (tk_later t) d1 j').
  { apply cs_replica. pose proof (step_perform (SW := dbWriter (co_manager c) (tk_later t)) (sourceConfigsMap (co_config c)) upstream (at_work (tk_later t) d j) 0 j
      (tk_handlers t) o n outcome n1 d1 (lookup_singleton_eq _ _) eq_refl Hh E) as Hs. cbn in Hs. by rewrite insert_singleton_eq in Hs. }
  apply rtc_once, cs_replica. pose proof (step_report (SW := dbWriter (co_manager c) (tk_later t)) (sourceConfigsMap (co_config c)) upstream (at_work (tk_later t) d1 j') 0 j'
    outcome o n1 r n2 d2 (lookup_singleton_eq _ _) eq_refl E2) as Hs. cbn in Hs. by rewrite delete_singleton_eq in Hs.
Qed.

Lemma tick_steps c now t o n d n' d' : in_order now [t] -> tick c t o n d = (Ok (), n', d') -> steps c (alone now d) (alone (tk_later t) d').
Proof.
  intros ([H1 H2] & Hg & Hh & _) H. etrans; [by apply wait|]. unfold tick, processNextSyncJob in H.
  apply bind_run_ok in H as (job & n1 & d1 & E & H). apply attempt_run_ok in E. destruct job as [[[cfg pre]|]|e].
  - eapply rtc_l; [|by eapply work_steps]. apply cs_replica.
    apply (step_claim (SW := dbWriter (co_manager c) (tk_now t)) (sourceConfigsMap (co_config c)) upstream (alone (tk_now t) d) 0 (tk_handlers t) (tk_locked t) o n cfg pre n1 d1);
      [apply lookup_empty|done|exact E].
  - apply ret_run_ok in H as (_ & _ & ->). apply (GetNextSyncJob_run _ _ _ _ (sourceConfigsMap_named _)) in E as ->. by apply wait.
  - apply ret_run_ok in H as (_ & _ & ->). apply (GetNextSyncJob_run _ _ _ _ (sourceConfigsMap_named _)) in E as ->. by apply wait.
Qed.

Lemma loop_steps c ticks now o n d l n' d' : in_order now ticks -> coordinator_loop c ticks o n d = (Ok l, n', d') ->
  exists now', (now <= now')%Z /\ steps c (alone now d) (alone now' d').
Proof.
  revert now n d l n'. induction ticks as [|t ticks IH]; intros now n d l n' Ho H; cbn [coordinator_loop] in H.
  { apply ret_run_ok in H as (_ & _ & ->). exists now. split; [lia|by apply rtc_refl]. }
  apply bind_run_ok in H as ([] & n1 & d1 & E & H). apply bind_run_ok in H as (rest & n2 & d2 & E2 & H). apply ret_run_ok in H as (_ & _ & ->).
  destruct Ho as (Ho1 & Ho2 & Ho3 & Ho4). destruct (IH _ _ _ _ _ Ho4 E2) as (now' & Hn & Hs). exists now'. split; [lia|].
  etrans; [|exact Hs]. eapply tick_steps; [|exact E]. done.
Qed.

(** What a coordinator leaves.  From a database that [Initialize] left with no
    source synchronised, whatever the ticks meet and whichever calls fail, a
    source whose row says completed mirrors a registry fetched for its
    configuration, with the hash in the row. *)
Lemma coordinator_mirrors c ticks now o n d l n' d' name src row :
  (forall h cfg fr, upstream h -> FetchRegistry h cfg = Ok fr -> well_named (fr_Registry fr)) ->
  ids_unique d -> rows_wf d -> sane d -> plain_sources d -> nothing_completed d ->
  in_order now ticks -> coordinator_loop c ticks o n d = (Ok l, n', d') ->
  d_source d' !! name = Some src -> so_syncable src = true -> d_sync d' !! so_id src = Some row -> sy_status row = SyncStatusCOMPLETED ->
  exists t res, row = status_row (final_status t (inl res)) /\ synced (co_manager c) (sourceConfigsMap (co_config c)) upstream d' name src res.
Proof.
  intros Hserved Hids Hrows Hs Hp Hn Ho H H1 H2 H3 H4. destruct (loop_steps _ _ _ _ _ _ _ _ _ Ho H) as (now' & _ & Hst).
  pose proof (cluster_reachable _ _ _ (sourceConfigsMap_named _) Hserved (alone now d) (alone now' d') (conj eq_refl (conj Hids Hrows)) Hs Hp (nothing_yet _ _ _ _ Hn) Hst) as Hi.
  by eapply (ci_rows _ _ _ _ Hi).
Qed.
End Coordinator.

(** ** A coordinator that is stopped

    The context of a sync is the one [Stop] cancels: when it is cancelled while
    the sync runs, the deferred status update fails with the rest, and the source
    stays in progress, not to be claimed for an hour. *)
Module CoordinatorExample.
Import EntriesExample ArtifactsExample WriterExample SyncingExample.
#[local] Existing Instance MiniSemver.lib.
#[local] Existing Instance SyncExample.all_names.
#[local] Existing Instance SyncExample.all_tags.
#[local] Existing Instance SyncExample.hash.
#[local] Existing Instance SyncExample.codec.

Definition config : Config :=
  {| cfg_Sources := [FetchingExample.upstream_source]; cfg_Registries := []; cfg_Database := None; cfg_Auth := None; cfg_Audit := None;
     cfg_insecureAllowHTTP := false; cfg_compressResponse := false; cfg_WatchNamespace := ""; cfg_LeaderElectionID := "" |}.
Definition coordinator : defaultCoordinator := New writer config [].
Definition tick_at (now : Z) : Tick :=
  {| tk_handlers := serving "io.a/one"; tk_locked := ∅; tk_now := now; tk_later := (now + Second)%Z; tk_rand := 0 |}.
(** The job is claimed; then every call fails. *)
Definition cancelled : Oracle := fun n => if (n <? 4)%nat then None else Some (FConn "context canceled").
Definition stopped : DB := snd (tick coordinator (tick_at 0) cancelled 0 start).
Definition status_of (d : DB) : option SyncState := sy_status <$> d_sync d !! 1%nat.

Lemma stopped_in_progress :
  status_of stopped = Some SyncStatusINPROGRESS /\
  status_of (snd (tick coordinator (tick_at (59 * Minute)) no_fault 0 stopped)) = Some SyncStatusINPROGRESS /\
  status_of (snd (tick coordinator (tick_at (61 * Minute)) no_fault 0 stopped)) = Some SyncStatusCOMPLETED.
Proof. split; [|split]; vm_compute; reflexivity. Qed.

(** Three ticks, the first of which loses its connection. *)
Lemma three_ticks :
  exists n' d', coordinator_loop coordinator [tick_at 0; tick_at Minute; tick_at (2 * Hour)] cancelled 0 start = (Ok [90 * Second; 90 * Second; 90 * Second]%Z, n', d').
Proof. destruct (loop_total coordinator [tick_at 0; tick_at Minute; tick_at (2 * Hour)] cancelled 0 start) as (n' & d' & H). by exists n', d'. Qed.
End CoordinatorExample.
