(* ===== verification/Registries.v ===== *)
(** * Registry administration

    [internal/service/db/impl_registry.go]: creating, updating, deleting, reading
    and listing registries, each an ordered list of sources with claims, and the
    entries a registry offers; the request's check in
    [internal/service/validation.go].  Times of creation and update of a registry
    are not modelled. *)

From stdpp Require Import base list strings gmap sets sorting.
From Stdlib Require Import String ZArith Lia.
From S2P Require Import Prelude Claims Codec ConfigTypes Auth ClaimsGate Database Entries Streaming Sync Initialize Sources.

Local Open Scope string_scope.
Local Open Scope list_scope.

(** ** The request *)

Record RegistryCreateRequest := { rr_Sources : list string; rr_Claims : option claims }.

(** The loop over the sources with [seen]. *)
Fixpoint no_duplicate (seen : gset string) (l : list string) : result () :=
  match l with
  | [] => Ok ()
  | s :: l' => if bool_decide (s ∈ seen) then Err (EMsg "duplicate source: %s") else no_duplicate ({[ s ]} ∪ seen) l'
  end.

Definition ValidateRegistryConfig (req : RegistryCreateRequest) : result () :=
  if (List.length (rr_Sources req) =? 0)%nat then Err (EMsg "at least one source is required")
  else no_duplicate ∅ (rr_Sources req).

(** ** Queries *)

(** DELETE FROM registry WHERE name = $1, cascading to its links. *)
Definition DeleteRegistryRow (name : string) : Q nat :=
  query (fun d =>
    match d_registry d !! name with
    | None => Ok (0%nat, d)
    | Some r => Ok (1%nat, set_registry_source (set_registry d (delete name (d_registry d)))
                             (filter (fun kv => fst (fst kv) <> rg_id r) (d_registry_source d)))
    end).

(** The source of a link. *)
Definition source_name (sid : uuid) (d : DB) : option string :=
  fst <$> find (fun kv => (so_id (snd kv) =? sid)%nat) (map_to_list (d_source d)).

Definition registry_sources (rid : uuid) (d : DB) : gmap (uuid * uuid) Z :=
  filter (fun kv => fst (fst kv) = rid) (d_registry_source d).

Definition link_row (d : DB) (kv : (uuid * uuid) * Z) : option (Z * string) :=
  (fun nm => (snd kv, nm)) <$> source_name (snd (fst kv)) d.
Definition link_rows (rid : uuid) (d : DB) : list (Z * string) :=
  omap (link_row d) (map_to_list (registry_sources rid d)).

Definition position_le (a b : Z * string) : Prop := (fst a <= fst b)%Z.
#[export] Instance position_le_dec : RelDecision position_le.
Proof. intros a b. unfold position_le. apply _. Defined.
#[export] Instance position_le_total : Total position_le.
Proof. intros a b. unfold position_le. lia. Qed.
#[export] Instance position_le_trans : Transitive position_le.
Proof. intros a b c. unfold position_le. lia. Qed.

(** ORDER BY rs.position *)
Definition linked_sources (rid : uuid) (d : DB) : list string :=
  snd <$> merge_sort position_le (link_rows rid d).
Definition ListRegistrySources (rid : uuid) : Q (list string) := select (fun d => Ok (linked_sources rid d)).

Section Queries.
Context `{Co : Collation}.

(** ListRegistries: names after the cursor, in order. *)
Definition name_le (a b : string * RegistryRow) : Prop := coll_le (fst a) (fst b).
#[export] Instance name_le_dec : RelDecision name_le.
Proof. intros a b. apply coll_dec. Defined.

Definition registry_page (cursor : option string) (size : nat) (d : DB) : list (string * RegistryRow) :=
  take size (merge_sort name_le (List.filter (fun kv =>
    match cursor with None => true | Some c => bool_decide (coll_lt c (fst kv)) end) (map_to_list (d_registry d)))).
Definition ListRegistriesQuery (cursor : option string) (size : nat) : Q (list (string * RegistryRow)) :=
  select (fun d => Ok (registry_page cursor size d)).

(** A row of ListEntriesByRegistry. *)
Record RegistryEntryInfo := {
  re_EntryType : EntryType;
  re_Name : string;
  re_Version : string;
  re_Title : string;
  re_Description : string;
  re_CreatedAt : Z;
  re_SourceName : string;
  re_Position : Z;
  re_version_name : string }. (* v.name, the sort key *)

Definition registry_entry_le (a b : RegistryEntryInfo) : Prop :=
  coll_lt (re_version_name a) (re_version_name b) \/
  (re_version_name a = re_version_name b /\
   (coll_lt (re_Version a) (re_Version b) \/
    (re_Version a = re_Version b /\ (re_Position a <= re_Position b)%Z))).
#[export] Instance registry_entry_le_dec : RelDecision registry_entry_le.
Proof. intros a b. unfold registry_entry_le, coll_lt. apply _. Defined.

Definition registry_entry_rows (rid : uuid) (d : DB) : list RegistryEntryInfo :=
  map_to_list (registry_sources rid d) ≫= fun '((_, sid), position) =>
    match source_name sid d with
    | None => []
    | Some sourceName =>
        (fun r => {| re_EntryType := er_type r; re_Name := er_name r; re_Version := er_version r;
                     re_Title := ve_title (er_row r); re_Description := ve_description (er_row r);
                     re_CreatedAt := ve_created (er_row r); re_SourceName := sourceName; re_Position := position;
                     re_version_name := ve_name (er_row r) |}) <$> source_entry_rows sid d
    end.

Definition ListEntriesByRegistry (rid : uuid) : Q (list RegistryEntryInfo) :=
  select (fun d => Ok (merge_sort registry_entry_le (registry_entry_rows rid d))).

(** ** The service *)

Context `{C : JsonCodec}.

Record RegistryInfo := {
  ri_Name : string;
  ri_Claims : claims;
  ri_CreationType : CreationType;
  ri_Sources : list string }.

Definition newRegistryInfo (name : string) (reg : RegistryRow) (sourceNames : list string) : RegistryInfo :=
  {| ri_Name := name; ri_Claims := DeserializeClaims (rg_claims reg);
     ri_CreationType := rg_creation_type reg; ri_Sources := sourceNames |}.

Definition registryToInfo (name : string) (reg : RegistryRow) (sources : list string) : RegistryInfo :=
  newRegistryInfo name reg sources.

Definition getExistingAPIRegistry (name : string) : Q RegistryRow :=
  r ← attempt (GetRegistryByName name);
  match r with
  | Err err =>
      if errorIs err ErrNoRows then fail (EWrap ErrRegistryNotFound "%s")
      else fail (wrapf "failed to get registry" err)
  | Ok existing =>
      if bool_decide (rg_creation_type existing = CreationTypeCONFIG) then fail (EWrap ErrConfigRegistry "%s")
      else mret existing
  end.

Fixpoint resolveSourceIDsWithGate (ctx : Ctx) (names : list string) (callerClaims : option claims) : Q (list uuid) :=
  match names with
  | [] => mret []
  | name :: names' =>
      r ← attempt (GetSourceByName name);
      match r with
      | Err err =>
          if errorIs err ErrNoRows then fail (EWrap ErrSourceNotFound "%s")
          else fail (wrapf "failed to resolve source %s" err)
      | Ok src =>
          _ ← wrapping "cannot reference source %s"
                (lift (validateClaimsVisibleBytes ctx callerClaims (so_claims src)));
          ids ← resolveSourceIDsWithGate ctx names' callerClaims;
          mret (so_id src :: ids)
      end
  end.

(** The position is an int32 in the code; a request with 2^31 sources does not get
    this far. *)
Fixpoint link_from (rid : uuid) (i : nat) (sourceIDs : list uuid) : Q () :=
  match sourceIDs with
  | [] => mret ()
  | sourceID :: l => _ ← LinkRegistrySource rid sourceID (Z.of_nat i); link_from rid (S i) l
  end.
Definition linkSources (rid : uuid) (sourceIDs : list uuid) : Q () := link_from rid 0 sourceIDs.

Definition unlinkAllSources (rid : uuid) : Q () := UnlinkAllRegistrySources rid.

Definition replaceRegistrySourcesWithGate (ctx : Ctx) (rid : uuid) (sourceNames : list string)
    (callerClaims : option claims) : Q () :=
  sourceIDs ← resolveSourceIDsWithGate ctx sourceNames callerClaims;
  _ ← wrapping "failed to unlink sources" (unlinkAllSources rid);
  wrapping "failed to link sources" (linkSources rid sourceIDs).

Definition CreateRegistry (s : dbService) (ctx : Ctx) (name : string) (req : RegistryCreateRequest) : Q RegistryInfo :=
  _ ← lift (invalid_config ErrInvalidRegistryConfig (ValidateRegistryConfig req));
  transaction (
    existing ← attempt (GetRegistryByName name);
    match existing with
    | Ok _ => fail (EWrap ErrRegistryAlreadyExists "%s")
    | Err err =>
        if negb (errorIs err ErrNoRows) then fail (wrapf "failed to check registry existence" err)
        else
          _ ← lift (validateClaimsSubset ctx (caller_claims s ctx) (claims_or_empty (rr_Claims req)));
          sourceIDs ← resolveSourceIDsWithGate ctx (rr_Sources req) (caller_claims s ctx);
          inserted ← wrapping "failed to insert registry"
            (UpsertRegistry name (SerializeClaims (rr_Claims req)) CreationTypeAPI);
          _ ← wrapping "failed to link sources" (linkSources (rg_id inserted) sourceIDs);
          mret (newRegistryInfo name inserted (rr_Sources req))
    end).

Definition UpdateRegistry (s : dbService) (ctx : Ctx) (name : string) (req : RegistryCreateRequest) : Q RegistryInfo :=
  _ ← lift (invalid_config ErrInvalidRegistryConfig (ValidateRegistryConfig req));
  transaction (
    existing ← getExistingAPIRegistry name;
    _ ← lift (validateClaimsVisibleBytes ctx (caller_claims s ctx) (rg_claims existing));
    _ ← lift (validateClaimsSubset ctx (caller_claims s ctx) (claims_or_empty (rr_Claims req)));
    _ ← replaceRegistrySourcesWithGate ctx (rg_id existing) (rr_Sources req) (caller_claims s ctx);
    upserted ← wrapping "failed to update registry"
      (UpsertRegistry name (SerializeClaims (rr_Claims req)) CreationTypeAPI);
    mret (newRegistryInfo name upserted (rr_Sources req))).

Definition DeleteRegistry (s : dbService) (ctx : Ctx) (name : string) : Q () :=
  transaction (
    existing ← getExistingAPIRegistry name;
    _ ← lift (validateClaimsVisibleBytes ctx (caller_claims s ctx) (rg_claims existing));
    _ ← wrapping "failed to delete registry" (DeleteRegistryRow name);
    mret ()).

(** [dbService.GetRegistryByName] *)
Definition service_GetRegistryByName (s : dbService) (ctx : Ctx) (name : string) : Q RegistryInfo :=
  read_transaction (
    r ← attempt (GetRegistryByName name);
    match r with
    | Err err =>
        if errorIs err ErrNoRows then fail (EWrap ErrRegistryNotFound "%s")
        else fail (wrapf "failed to get registry" err)
    | Ok reg =>
        match validateClaimsVisible ctx (caller_claims s ctx) (DeserializeClaims (rg_claims reg)) with
        | Err _ => fail (EWrap ErrRegistryNotFound "%s")
        | Ok _ =>
            sources ← wrapping "failed to list sources for registry %s" (ListRegistrySources (rg_id reg));
            mret (registryToInfo name reg sources)
        end
    end).

Definition registry_visible (ctx : Ctx) (callerClaims : option claims) (r : string * RegistryRow) : bool :=
  is_ok (validateClaimsVisibleBytes ctx callerClaims (rg_claims (snd r))).

(** The loop of [streamRegistryRows]; [None] is the fuel running out. *)
Fixpoint stream_registries (fuel size : nat) (ctx : Ctx) (callerClaims : option claims)
    (accumulated : list (string * RegistryRow)) (cursor : option string) : Q (option (list (string * RegistryRow))) :=
  match fuel with
  | O => mret None
  | S fuel' =>
      batch ← ListRegistriesQuery cursor size;
      let accumulated' := accumulated ++ List.filter (registry_visible ctx callerClaims) batch in
      if (List.length batch <? size)%nat then mret (Some accumulated')
      else match last batch with
           | None => mret (Some accumulated')
           | Some l => stream_registries fuel' size ctx callerClaims accumulated' (Some (fst l))
           end
  end.

Definition streamRegistryRows (fuel : nat) (ctx : Ctx) (callerClaims : option claims)
    : Q (option (list (string * RegistryRow))) :=
  stream_registries fuel MaxPageSize ctx callerClaims [] None.

Fixpoint registry_infos (l : list (string * RegistryRow)) : Q (list RegistryInfo) :=
  match l with
  | [] => mret []
  | (name, reg) :: l' =>
      sources ← wrapping "failed to list sources for registry %s" (ListRegistrySources (rg_id reg));
      rest ← registry_infos l';
      mret (registryToInfo name reg sources :: rest)
  end.

Definition ListRegistries (fuel : nat) (s : dbService) (ctx : Ctx) : Q (option (list RegistryInfo)) :=
  read_transaction (
    rows ← wrapping "failed to list registries" (streamRegistryRows fuel ctx (caller_claims s ctx));
    match rows with
    | None => mret None
    | Some rows => infos ← registry_infos rows; mret (Some infos)
    end).

Definition ListRegistryEntries (s : dbService) (ctx : Ctx) (registryName : string) : Q (list RegistryEntryInfo) :=
  read_transaction (
    r ← attempt (GetRegistryByName registryName);
    match r with
    | Err err =>
        if errorIs err ErrNoRows then fail (EWrap ErrRegistryNotFound "%s")
        else fail (wrapf "failed to get registry" err)
    | Ok registry =>
        match validateClaimsVisibleBytes ctx (caller_claims s ctx) (rg_claims registry) with
        | Err _ => fail (EWrap ErrRegistryNotFound "%s")
        | Ok _ => wrapping "failed to list entries by registry" (ListEntriesByRegistry (rg_id registry))
        end
    end).
End Queries.

(** ** Registries as a map

    What a registry is to its clients: who created it, its claims as stored, and
    its sources in order. *)

Definition registry_view (d : DB) (name : string) : option (CreationType * string * list string) :=
  (fun r => (rg_creation_type r, rg_claims r, linked_sources (rg_id r) d)) <$> d_registry d !! name.

Lemma no_duplicate_iff seen l :
  no_duplicate seen l = Ok () <-> NoDup l /\ forall x, x ∈ l -> x ∉ seen.
Proof.
  revert seen. induction l as [|s l IH]; intros seen; cbn.
  - split; [|done]. intros _. split; [constructor|set_solver].
  - case_bool_decide as Hs; [split; [done|]; intros [_ H]; exfalso; apply (H s); [set_solver|done]|].
    rewrite IH, NoDup_cons. set_solver.
Qed.

Lemma ValidateRegistryConfig_iff req :
  ValidateRegistryConfig req = Ok () <-> rr_Sources req <> [] /\ NoDup (rr_Sources req).
Proof.
  unfold ValidateRegistryConfig. destruct (rr_Sources req) as [|s l] eqn:E; cbn [List.length Nat.eqb]; [naive_solver|].
  rewrite no_duplicate_iff. set_solver.
Qed.

Lemma source_name_iff sid d nm :
  ids_unique d -> source_name sid d = Some nm <-> exists s, d_source d !! nm = Some s /\ so_id s = sid.
Proof.
  intros Hu. unfold source_name. split.
  - intros ([nm' s] & E & ->)%fmap_Some. apply find_some in E as [Hin Hid%Nat.eqb_eq].
    apply list_elem_of_In, elem_of_map_to_list in Hin. cbn in *. eauto.
  - intros (s & Hs & Hid). destruct (find _ _) as [[nm' s']|] eqn:E; cbn.
    + apply find_some in E as [Hin Hid'%Nat.eqb_eq]. apply list_elem_of_In, elem_of_map_to_list in Hin. cbn in *.
      f_equal. eapply Hu; [exact Hin|exact Hs|congruence].
    + assert (Hin : In (nm, s) (map_to_list (d_source d))) by by apply list_elem_of_In, elem_of_map_to_list.
      apply (find_none _ _ E) in Hin. cbn in Hin. by rewrite Hid, Nat.eqb_refl in Hin.
Qed.

(** Rows at consecutive positions come out in order. *)
Definition at_positions (k : nat) (names : list string) : list (Z * string) :=
  imap (fun i nm => (Z.of_nat (k + i), nm)) names.

Lemma at_positions_cons k nm names :
  at_positions k (nm :: names) = (Z.of_nat k, nm) :: at_positions (S k) names.
Proof.
  unfold at_positions. cbn. f_equal; [do 2 f_equal; lia|]. apply imap_ext. intros. cbn. do 2 f_equal. lia.
Qed.

Lemma at_positions_sorted k names : StronglySorted position_le (at_positions k names).
Proof.
  revert k. induction names as [|nm names IH]; intros k; [constructor|]. rewrite at_positions_cons.
  constructor; [apply IH|]. apply Forall_forall. intros x Hx.
  apply elem_of_lookup_imap in Hx as (i & y & -> & _). unfold position_le. cbn. lia.
Qed.

Lemma at_positions_inj k names a b : a ∈ at_positions k names -> b ∈ at_positions k names -> fst a = fst b -> a = b.
Proof.
  intros (i & x & -> & Hi)%elem_of_lookup_imap (j & y & -> & Hj)%elem_of_lookup_imap E. cbn in E.
  assert (i = j) as <- by lia. congruence.
Qed.

Lemma sort_positions names l : l ≡ₚ at_positions 0 names -> snd <$> merge_sort position_le l = names.
Proof.
  intros Hl. replace (merge_sort position_le l) with (at_positions 0 names).
  - unfold at_positions. rewrite fmap_imap. etrans; [|apply list_fmap_id].
    rewrite <-imap_const. apply imap_ext. done.
  - symmetry. apply (StronglySorted_unique_strong position_le).
    + intros a b Ha Hb H1 H2. rewrite merge_sort_Permutation, Hl in Ha. unfold position_le in *.
      apply (at_positions_inj 0 names); [done|done|lia].
    + apply StronglySorted_merge_sort; apply _.
    + apply at_positions_sorted.
    + by rewrite merge_sort_Permutation.
Qed.

(** *** Links *)

(** Linking and unlinking touch the links only. *)
Definition with_links (d : DB) (m : gmap (uuid * uuid) Z) : DB := set_registry_source d m.

Fixpoint add_links (rid : uuid) (k : nat) (ids : list uuid) (m : gmap (uuid * uuid) Z) : gmap (uuid * uuid) Z :=
  match ids with
  | [] => m
  | sid :: ids' => add_links rid (S k) ids' (<[(rid, sid) := Z.of_nat k]> m)
  end.

Lemma link_from_run rid k ids o n d n' d' :
  link_from rid k ids o n d = (Ok (), n', d') -> d' = with_links d (add_links rid k ids (d_registry_source d)).
Proof.
  revert k n d. induction ids as [|sid ids IH]; intros k n d H; cbn [link_from] in H.
  - apply ret_run_ok in H as (_ & _ & ->). by destruct d.
  - query_in H u E. injection E as <-. by apply IH in H.
Qed.

Lemma link_from_succeeds rid k ids o : (forall i, o i = None) -> succeeds o (link_from rid k ids).
Proof.
  intros Ho. revert k. induction ids as [|sid ids IH]; intros k; cbn [link_from]; [apply ret_succeeds|].
  apply bind_succeeds; [apply (query_succeeds o Ho)|]. auto.
Qed.

Lemma filter_add_links_other rid k ids m rid' : rid' <> rid ->
  filter (fun kv => fst (fst kv) = rid') (add_links rid k ids m) = filter (fun kv => fst (fst kv) = rid') m.
Proof.
  intros Hne. revert k m. induction ids as [|sid ids IH]; intros k m; cbn [add_links]; [done|].
  rewrite IH, map_filter_insert_False; [|done]. apply map_filter_strong_ext. intros i x.
  cbn. destruct (decide (i = (rid, sid))) as [->|Hi]; cbn; [|by rewrite lookup_delete_ne].
  split; [by intros [? _]|by intros [? _]].
Qed.

Lemma add_links_rows d rid k ids names m :
  Forall2 (fun sid nm => source_name sid d = Some nm) ids names -> NoDup ids ->
  (forall sid, sid ∈ ids -> m !! (rid, sid) = None) ->
  omap (link_row d) (map_to_list (filter (fun kv => fst (fst kv) = rid) (add_links rid k ids m))) ≡ₚ
  at_positions k names ++ omap (link_row d) (map_to_list (filter (fun kv => fst (fst kv) = rid) m)).
Proof.
  intros H. revert k m. induction H as [|sid nm ids names Hnm Hf IH]; intros k m Hnd Hm; cbn [add_links]; [done|].
  apply NoDup_cons in Hnd as [Hni Hnd]. rewrite IH; [|done|].
  2:{ intros x Hx. rewrite lookup_insert_ne by congruence. set_solver. }
  rewrite map_filter_insert_True by done. rewrite map_to_list_insert.
  2:{ rewrite map_lookup_filter, Hm by set_solver. done. }
  assert (E : link_row d ((rid, sid), Z.of_nat k) = Some (Z.of_nat k, nm)) by (unfold link_row; cbn [fst snd]; by rewrite Hnm).
  rewrite at_positions_cons. cbn [omap list_omap]. rewrite E. symmetry. apply Permutation_middle.
Qed.

(** ** What the operations do *)

(** Ids apart and links owned, as the foreign keys keep them. *)
Record admin_wf (d : DB) : Prop := {
  aw_ids : wf_ids d;
  aw_owned : links_owned d;
  aw_sources : forall rid sid pos, d_registry_source d !! (rid, sid) = Some pos ->
    exists nm s, d_source d !! nm = Some s /\ so_id s = sid }.

(** Nothing but registries and links is touched. *)
Definition only_registries (d d' : DB) : Prop :=
  d' = set_registry_source (set_registry (set_next d (d_next d')) (d_registry d')) (d_registry_source d').

(** One registry now reads as given, the others as before. *)
Record registry_set (name : string) (v : option (CreationType * string * list string)) (d d' : DB) : Prop := {
  rv_self : registry_view d' name = v;
  rv_other : forall other, other <> name -> registry_view d' other = registry_view d other;
  rv_frame : only_registries d d';
  rv_wf : admin_wf d' }.

Section Operations.
Context `{C : JsonCodec}.

Definition resolves (ctx : Ctx) (caller : option claims) (d : DB) (nm : string) (sid : uuid) : Prop :=
  exists s, d_source d !! nm = Some s /\ validateClaimsVisibleBytes ctx caller (so_claims s) = Ok () /\ so_id s = sid.

Lemma resolve_run ctx caller names o n d ids n' d' :
  resolveSourceIDsWithGate ctx names caller o n d = (Ok ids, n', d') ->
  d' = d /\ Forall2 (resolves ctx caller d) names ids.
Proof.
  revert n ids n' d'. induction names as [|nm names IH]; intros n ids n' d' H; cbn [resolveSourceIDsWithGate] in H.
  - apply ret_run_ok in H as (-> & _ & ->). done.
  - attempt_in H r E. destruct r as [s|e]; [|by destruct (errorIs e ErrNoRows)].
    apply GetSourceByName_ok in E as [Hs ->]. lift_in H u Hv. bind_in H ids' E. apply IH in E as [-> HF].
    apply ret_run_ok in H as (-> & _ & ->). split; [done|]. constructor; [|done]. by exists s.
Qed.

Lemma resolve_runs ctx caller names o n d :
  (forall k, o k = None) -> (forall nm, nm ∈ names -> exists sid, resolves ctx caller d nm sid) ->
  exists ids n', resolveSourceIDsWithGate ctx names caller o n d = (Ok ids, n', d).
Proof.
  intros Ho. revert n. induction names as [|nm names IH]; intros n H; [by exists [], n|].
  destruct (H nm) as (sid & s & Hs & Hv & _); [set_solver|].
  destruct (IH (S n)) as (ids & n' & E); [set_solver|]. exists (so_id s :: ids), n'. cbn [resolveSourceIDsWithGate].
  eapply bind_fine; [by apply GetSourceByName_found|]. cbv beta iota.
  eapply bind_fine; [by apply wrapping_fine, lift_fine|]. by eapply bind_fine.
Qed.

Lemma resolved_names ctx caller d names ids :
  ids_unique d -> Forall2 (resolves ctx caller d) names ids ->
  Forall2 (fun sid nm => source_name sid d = Some nm) ids names.
Proof.
  intros Hu H. apply Forall2_flip. eapply Forall2_impl; [exact H|]. intros nm sid (s & Hs & _ & Hid).
  apply source_name_iff; eauto.
Qed.

Lemma resolved_nodup ctx caller d names ids :
  Forall2 (resolves ctx caller d) names ids -> ids_unique d -> NoDup names -> NoDup ids.
Proof.
  intros H Hu. induction H as [|nm sid names ids (s & Hs & _ & Hid) HF IH]; [constructor|].
  rewrite !NoDup_cons. intros [Hni Hnd]. split; [|auto]. intros Hin. apply Hni.
  apply list_elem_of_lookup in Hin as [i Hi]. destruct (Forall2_lookup_r _ _ _ _ _ HF Hi) as (nm' & Hin' & s' & Hs' & _ & Hid').
  apply list_elem_of_lookup_2 in Hin'.
  assert (nm' = nm) as <-; [|done]. eapply Hu; [exact Hs'|exact Hs|congruence].
Qed.

Lemma source_name_frame sid d d' : d_source d' = d_source d -> source_name sid d' = source_name sid d.
Proof. unfold source_name. by intros ->. Qed.

Lemma linked_sources_frame rid d d' :
  d_source d' = d_source d -> registry_sources rid d' = registry_sources rid d ->
  linked_sources rid d' = linked_sources rid d.
Proof.
  intros Hs Hr. unfold linked_sources, link_rows. rewrite Hr. do 2 f_equal.
  assert (E : forall kv, link_row d' kv = link_row d kv)
    by (intros kv; unfold link_row; by rewrite (source_name_frame _ d d' Hs)).
  induction (map_to_list (registry_sources rid d)) as [|kv l IH]; [done|]. cbn [omap list_omap]. by rewrite E, IH.
Qed.

(** The database with a registry (re)written and its sources linked afresh. *)
Definition relinked (name : string) (row : RegistryRow) (ids : list uuid) (next : uuid) (d : DB) : DB :=
  set_registry_source (set_registry (set_next d next) (<[name := row]> (d_registry d)))
    (add_links (rg_id row) 0 ids (filter (fun kv => fst (fst kv) <> rg_id row) (d_registry_source d))).

(** The id of the row is the registry's own, or fresh. *)
Definition own_id (d : DB) (name : string) (rid next : uuid) : Prop :=
  (exists r, d_registry d !! name = Some r /\ rg_id r = rid /\ next = d_next d) \/
  (d_registry d !! name = None /\ rid = d_next d /\ next = S (d_next d)).

Lemma add_links_lookup rid k ids m rid' sid' pos :
  add_links rid k ids m !! (rid', sid') = Some pos ->
  (rid' = rid /\ sid' ∈ ids) \/ m !! (rid', sid') = Some pos.
Proof.
  revert k m. induction ids as [|sid ids IH]; intros k m H; cbn [add_links] in H; [by right|].
  apply IH in H as [[-> H]|H]; [left; set_solver|].
  apply lookup_insert_Some in H as [[[= <- <-] _]|[_ H]]; [left; set_solver|by right].
Qed.

Section Relink.
Context (ctx : Ctx) (caller : option claims) (d : DB) (name : string) (row : RegistryRow).
Context (names : list string) (ids : list uuid) (next : uuid).
Hypothesis Hwf : admin_wf d.
Hypothesis Hid : own_id d name (rg_id row) next.
Hypothesis Hres : Forall2 (resolves ctx caller d) names ids.
Hypothesis Hnd : NoDup names.
Lemma own_id_other other r : other <> name -> d_registry d !! other = Some r -> rg_id r <> rg_id row.
Proof using Hwf Hid.
  destruct Hwf as [[_ _ Hu Hf] _ _]. intros Hne Hr E. destruct Hid as [(r0 & Hr0 & E0 & _)|(_ & E0 & _)].
  - apply Hne. eapply Hu; [exact Hr|exact Hr0|congruence].
  - apply Hf in Hr. lia.
Qed.

Lemma own_id_next : (d_next d <= next)%nat /\ (rg_id row < next)%nat.
Proof using Hwf Hid.
  destruct Hwf as [[_ _ _ Hf] _ _]. destruct Hid as [(r0 & Hr0 & E0 & ->)|(_ & E0 & ->)]; [|lia].
  apply Hf in Hr0. lia.
Qed.

Let d' := relinked name row ids next d.

Lemma relinked_self : registry_view d' name = Some (rg_creation_type row, rg_claims row, names).
Proof using Hwf Hres Hnd.
  unfold registry_view. cbn [relinked d_registry set_registry_source set_registry d'].
  rewrite lookup_insert_eq. cbn. do 2 f_equal. unfold linked_sources. apply sort_positions. unfold link_rows, registry_sources.
  pose proof (wi_source _ (aw_ids _ Hwf)) as Hu.
  etrans; [apply (add_links_rows d' (rg_id row) 0 ids names)|].
  - pose proof (resolved_names _ _ _ _ _ Hu Hres) as H. exact H.
  - by eapply resolved_nodup.
  - intros sid _. apply map_lookup_filter_None. right. intros x _ Hx. by apply Hx.
  - rewrite map_filter_filter. replace (filter _ (d_registry_source d)) with (∅ : gmap (uuid * uuid) Z).
    + rewrite map_to_list_empty. cbn. by rewrite app_nil_r.
    + symmetry. apply map_empty. intros k. apply map_lookup_filter_None. right. intros x _ [? ?]. done.
Qed.

Lemma relinked_other other : other <> name -> registry_view d' other = registry_view d other.
Proof using Hwf Hid.
  intros Hne. unfold registry_view. cbn [relinked d_registry set_registry_source set_registry d'].
  rewrite lookup_insert_ne by done. destruct (d_registry d !! other) as [r|] eqn:E; [|done]. cbn. do 2 f_equal.
  apply linked_sources_frame; [done|]. unfold registry_sources. cbn [relinked d_registry_source set_registry_source d'].
  pose proof (own_id_other other r Hne E) as Hr. rewrite filter_add_links_other by done.
  rewrite map_filter_filter. apply map_filter_strong_ext. intros k x. cbn. split; [naive_solver|].
  intros [E2 Hk]. split; [|done]. split; [done|congruence].
Qed.

Lemma relinked_wf : admin_wf d'.
Proof using Hwf Hid Hres.
  pose proof own_id_next as [Hn1 Hn2]. pose proof Hwf as [[H1 H2 H3 H4] Ho Hs]. split; [split; cbn|..].
  - exact H1.
  - intros nm s Hnm%H2. lia.
  - intros n1 n2 r1 r2. intros [[<- <-]|[Hn E1]]%lookup_insert_Some [[<- <-]|[Hn' E2]]%lookup_insert_Some E; [done|..|by eapply H3].
    + exfalso. eapply own_id_other; [|exact E2|]; congruence.
    + exfalso. eapply own_id_other; [|exact E1|]; congruence.
  - intros nm r [[<- <-]|[_ Hr%H4]]%lookup_insert_Some; lia.
  - intros rid sid pos [[-> _]|[Hp Hk]%map_lookup_filter_Some]%add_links_lookup; cbn.
    + exists name, row. by rewrite lookup_insert_eq.
    + destruct (Ho _ _ _ Hp) as (nm & r & Hr & Er). cbn in Hk. destruct (decide (nm = name)) as [->|Hne].
      * exists name, row. rewrite lookup_insert_eq. split; [done|]. exfalso. apply Hk. subst rid.
        destruct Hid as [(r0 & Hr0 & E0 & _)|(Hn & _)]; congruence.
      * exists nm, r. by rewrite lookup_insert_ne.
  - intros rid sid pos [[-> Hin]|[Hp _]%map_lookup_filter_Some]%add_links_lookup; cbn; [|by eapply Hs].
    apply list_elem_of_lookup in Hin as [i Hi]. destruct (Forall2_lookup_r _ _ _ _ _ Hres Hi) as (nm & _ & s & E & _ & <-). eauto.
Qed.

Lemma relinked_set : registry_set name (Some (rg_creation_type row, rg_claims row, names)) d d'.
Proof using Hwf Hid Hres Hnd.
  split; [apply relinked_self|apply relinked_other|done|apply relinked_wf].
Qed.
End Relink.

(** The sources of a request: some, no duplicate, each there and visible. *)
Record sources_fine (ctx : Ctx) (caller : option claims) (req : RegistryCreateRequest) (d : DB) : Prop := {
  sf_some : rr_Sources req <> [];
  sf_nodup : NoDup (rr_Sources req);
  sf_resolve : forall nm, nm ∈ rr_Sources req -> exists sid, resolves ctx caller d nm sid }.

Record registry_creatable (s : dbService) (ctx : Ctx) (name : string) (req : RegistryCreateRequest) (d : DB) : Prop := {
  rc_new : d_registry d !! name = None;
  rc_claims : validateClaimsSubset ctx (caller_claims s ctx) (claims_or_empty (rr_Claims req)) = Ok ();
  rc_sources : sources_fine ctx (caller_claims s ctx) req d }.

Record registry_updatable (s : dbService) (ctx : Ctx) (row : RegistryRow) (req : RegistryCreateRequest) (d : DB) : Prop := {
  ru_api : rg_creation_type row = CreationTypeAPI;
  ru_visible : validateClaimsVisibleBytes ctx (caller_claims s ctx) (rg_claims row) = Ok ();
  ru_claims : validateClaimsSubset ctx (caller_claims s ctx) (claims_or_empty (rr_Claims req)) = Ok ();
  ru_sources : sources_fine ctx (caller_claims s ctx) req d }.

(** The registry a request asks for. *)
Definition requested (req : RegistryCreateRequest) : CreationType * string * list string :=
  (CreationTypeAPI, SerializeClaims (rr_Claims req), rr_Sources req).
Definition requested_info (name : string) (req : RegistryCreateRequest) : RegistryInfo :=
  {| ri_Name := name; ri_Claims := DeserializeClaims (SerializeClaims (rr_Claims req));
     ri_CreationType := CreationTypeAPI; ri_Sources := rr_Sources req |}.

Lemma sources_fine_resolved ctx caller req d ids :
  ValidateRegistryConfig req = Ok () -> Forall2 (resolves ctx caller d) (rr_Sources req) ids ->
  sources_fine ctx caller req d.
Proof.
  intros [Hne Hnd]%ValidateRegistryConfig_iff HF. split; [done..|]. intros nm Hin.
  apply list_elem_of_lookup in Hin as [i Hi]. destruct (Forall2_lookup_l _ _ _ _ _ HF Hi) as (sid & _ & H). eauto.
Qed.

Lemma GetRegistryByName_ok o n d name r n' d' :
  GetRegistryByName name o n d = (Ok r, n', d') -> d_registry d !! name = Some r /\ d' = d.
Proof. intros H. apply select_run_ok in H as [H ->]. unfold row_or_none in H. by case_match; simplify_eq. Qed.

Lemma GetRegistryByName_none o n d name e n' d' :
  GetRegistryByName name o n d = (Err e, n', d') -> errorIs e ErrNoRows = true -> d_registry d !! name = None /\ d' = d.
Proof.
  intros H He. apply select_no_rows in H as [H ->]; [|done]. unfold row_or_none in H. by case_match; simplify_eq.
Qed.

Lemma unlinked_fresh d : admin_wf d ->
  filter (fun kv => fst (fst kv) <> d_next d) (d_registry_source d) = d_registry_source d.
Proof.
  intros [[_ _ _ Hf] Ho _]. apply map_eq. intros [rid sid]. rewrite map_lookup_filter.
  destruct (d_registry_source d !! (rid, sid)) as [pos|] eqn:E; [|done]. cbn.
  rewrite option_guard_True; [done|]. destruct (Ho _ _ _ E) as (nm & r & Hr%Hf & <-). lia.
Qed.

Lemma CreateRegistry_run s ctx name req o n d info n' d' :
  admin_wf d -> CreateRegistry s ctx name req o n d = (Ok info, n', d') ->
  registry_creatable s ctx name req d /\ info = requested_info name req /\
  registry_set name (Some (requested req)) d d'.
Proof.
  intros Hwf H. unfold CreateRegistry in H. lift_in H u Hreq. apply invalid_config_ok in Hreq.
  apply transaction_ok in H as (n1 & n2 & H). attempt_in H r E. destruct r as [x|err]; [done|].
  destruct (errorIs err ErrNoRows) eqn:He; [|done]. apply GetRegistryByName_none in E as [Hnew ->]; [|done]. cbn [negb] in H.
  lift_in H u Hcl. bind_in H ids E. apply resolve_run in E as [-> HF]. query_in H row E. rewrite Hnew in E.
  injection E as <- <-. bind_in H u E. apply link_from_run in E as ->. apply ret_run_ok in H as (-> & _ & ->).
  pose proof (sources_fine_resolved _ _ _ _ _ Hreq HF) as Hsf. split; [by split|]. split; [done|].
  set (row := {| rg_id := d_next d; rg_creation_type := CreationTypeAPI; rg_claims := SerializeClaims (rr_Claims req) |}).
  pose proof (relinked_set ctx (caller_claims s ctx) d name row (rr_Sources req) ids (S (d_next d)) Hwf) as HR.
  unfold relinked in HR. cbn [rg_id row] in HR. rewrite (unlinked_fresh d Hwf) in HR.
  apply HR; [by right|done|apply Hsf].
Qed.

Lemma getExisting_run name o n d row n' d' :
  getExistingAPIRegistry name o n d = (Ok row, n', d') ->
  d' = d /\ d_registry d !! name = Some row /\ rg_creation_type row = CreationTypeAPI.
Proof.
  intros H. unfold getExistingAPIRegistry in H. attempt_in H r E.
  destruct r as [r|e]; [|by destruct (errorIs e ErrNoRows)]. apply GetRegistryByName_ok in E as [Hr ->].
  case_bool_decide as Hc; [done|]. apply ret_run_ok in H as (-> & _ & ->).
  split; [done|]. split; [done|]. by apply creation_not_config.
Qed.

Lemma UpdateRegistry_run s ctx name req o n d info n' d' :
  admin_wf d -> UpdateRegistry s ctx name req o n d = (Ok info, n', d') ->
  exists row, d_registry d !! name = Some row /\ registry_updatable s ctx row req d /\
    info = requested_info name req /\ registry_set name (Some (requested req)) d d'.
Proof.
  intros Hwf H. unfold UpdateRegistry in H. lift_in H u Hreq. apply invalid_config_ok in Hreq.
  apply transaction_ok in H as (n1 & n2 & H). bind_in H row E. apply getExisting_run in E as (-> & Hr & Hc).
  lift_in H u Hv. lift_in H u Hcl. bind_in H u E. unfold replaceRegistrySourcesWithGate in E.
  bind_in E ids E1. apply resolve_run in E1 as [-> HF]. query_in E u E1. injection E1 as <-.
  apply wrapping_run_ok, link_from_run in E as ->. query_in H up E. cbn in E. rewrite Hr in E. injection E as <- <-.
  apply ret_run_ok in H as (-> & _ & ->). pose proof (sources_fine_resolved _ _ _ _ _ Hreq HF) as Hsf.
  exists row. split; [done|]. split; [by split|]. split; [unfold newRegistryInfo; cbn; by rewrite Hc|].
  set (row' := {| rg_id := rg_id row; rg_creation_type := rg_creation_type row; rg_claims := SerializeClaims (rr_Claims req) |}).
  pose proof (relinked_set ctx (caller_claims s ctx) d name row' (rr_Sources req) ids (d_next d) Hwf) as HR.
  unfold requested. rewrite <-Hc. apply HR; [left; by exists row|done|apply Hsf].
Qed.

Lemma DeleteRegistry_run s ctx name o n d n' d' :
  DeleteRegistry s ctx name o n d = (Ok (), n', d') ->
  exists row, d_registry d !! name = Some row /\ rg_creation_type row = CreationTypeAPI /\
    validateClaimsVisibleBytes ctx (caller_claims s ctx) (rg_claims row) = Ok () /\
    d' = set_registry_source (set_registry d (delete name (d_registry d)))
           (filter (fun kv => fst (fst kv) <> rg_id row) (d_registry_source d)).
Proof.
  intros (n1 & n2 & H)%transaction_ok. bind_in H row E. apply getExisting_run in E as (-> & Hr & Hc).
  lift_in H u Hv. query_in H u E. rewrite Hr in E. injection E as <- <-. apply ret_run_ok in H as (_ & _ & ->).
  exists row. split_and!; done.
Qed.

Lemma registry_deleted name row d :
  admin_wf d -> d_registry d !! name = Some row ->
  registry_set name None d (set_registry_source (set_registry d (delete name (d_registry d)))
    (filter (fun kv => fst (fst kv) <> rg_id row) (d_registry_source d))).
Proof.
  intros [[H1 H2 H3 H4] Ho Hs] Hr. split.
  - unfold registry_view. cbn. by rewrite lookup_delete_eq.
  - intros other Hne. unfold registry_view. cbn. rewrite lookup_delete_ne by done.
    destruct (d_registry d !! other) as [r|] eqn:E; [|done]. cbn. do 2 f_equal. apply linked_sources_frame; [done|].
    unfold registry_sources. cbn. rewrite map_filter_filter. apply map_filter_strong_ext. intros k x. cbn.
    split; [naive_solver|]. intros [E2 Hk]. split; [|done]. split; [done|].
    intros E3. apply Hne. eapply H3; [exact E|exact Hr|congruence].
  - by destruct d.
  - split; [split; cbn|..]; [done..| | | |].
    + intros n1 n2 r1 r2 [_ ?]%lookup_delete_Some [_ ?]%lookup_delete_Some. eauto.
    + intros nm r [_ ?]%lookup_delete_Some. eauto.
    + intros rid sid pos [Hp Hk]%map_lookup_filter_Some. destruct (Ho _ _ _ Hp) as (nm & r & Hnm & <-).
      exists nm, r. split; [|done]. cbn. rewrite lookup_delete_ne; [done|]. intros <-. cbn in Hk. congruence.
    + intros rid sid pos [Hp _]%map_lookup_filter_Some. by eapply Hs.
Qed.

Section Progress.
Context (o : Oracle).
Hypothesis Ho : forall k, o k = None.

Lemma getExisting_fine name row n d :
  d_registry d !! name = Some row -> rg_creation_type row = CreationTypeAPI ->
  getExistingAPIRegistry name o n d = (Ok row, S n, d).
Proof using Ho.
  intros Hr Hc. unfold getExistingAPIRegistry. apply (bind_fine o _ _ _ _ (Ok row) (S n) d).
  - apply attempt_fine, (select_fine o Ho). by rewrite Hr.
  - by rewrite Hc.
Qed.

Lemma CreateRegistry_runs s ctx name req n d :
  registry_creatable s ctx name req d -> exists info n' d', CreateRegistry s ctx name req o n d = (Ok info, n', d').
Proof using Ho.
  intros [Hnew Hcl [Hne Hnd Hres]]. destruct (resolve_runs ctx (caller_claims s ctx) (rr_Sources req) o (S (S n)) d Ho Hres)
    as (ids & n1 & E1).
  set (d1 := set_registry (set_next d (S (d_next d))) (<[name := {| rg_id := d_next d; rg_creation_type := CreationTypeAPI;
    rg_claims := SerializeClaims (rr_Claims req) |}]> (d_registry d))).
  destruct (link_from_succeeds (d_next d) 0 ids o Ho (S n1) d1) as ([] & n2 & d2 & E2).
  assert (Hreq : ValidateRegistryConfig req = Ok ()) by by apply ValidateRegistryConfig_iff.
  do 3 eexists. unfold CreateRegistry. eapply bind_fine; [apply lift_fine; by rewrite Hreq|].
  eapply (transaction_gen_fine o Ho). eapply (bind_fine o _ _ _ _ (Err no_rows)).
  { apply attempt_fine, (select_none o Ho). by rewrite Hnew. }
  cbn [no_rows]. eapply bind_fine; [by apply lift_fine|]. eapply bind_fine; [exact E1|].
  eapply bind_fine; [eapply wrapping_fine, (query_fine o Ho); rewrite Hnew; reflexivity|].
  eapply bind_fine; [eapply wrapping_fine, E2|]. reflexivity.
Qed.

Lemma UpdateRegistry_runs s ctx name row req n d :
  d_registry d !! name = Some row -> registry_updatable s ctx row req d ->
  exists info n' d', UpdateRegistry s ctx name req o n d = (Ok info, n', d').
Proof using Ho.
  intros Hr [Hc Hv Hcl [Hne Hnd Hres]]. destruct (resolve_runs ctx (caller_claims s ctx) (rr_Sources req) o (S (S n)) d Ho Hres)
    as (ids & n1 & E1).
  set (d1 := set_registry_source d (filter (fun kv => fst (fst kv) <> rg_id row) (d_registry_source d))).
  destruct (link_from_succeeds (rg_id row) 0 ids o Ho (S n1) d1) as ([] & n2 & d2 & E2).
  pose proof E2 as Ed. apply link_from_run in Ed. subst d2.
  assert (Hreq : ValidateRegistryConfig req = Ok ()) by by apply ValidateRegistryConfig_iff.
  do 3 eexists. unfold UpdateRegistry. eapply bind_fine; [apply lift_fine; by rewrite Hreq|].
  eapply (transaction_gen_fine o Ho). eapply bind_fine; [by apply getExisting_fine|].
  eapply bind_fine; [by apply lift_fine|]. eapply bind_fine; [by apply lift_fine|].
  eapply (bind_fine o _ _ _ _ tt).
  { eapply bind_fine; [exact E1|]. eapply bind_fine; [eapply wrapping_fine, (query_fine o Ho); reflexivity|].
    eapply wrapping_fine, E2. }
  eapply bind_fine; [eapply wrapping_fine, (query_fine o Ho); cbn; rewrite Hr; reflexivity|]. reflexivity.
Qed.

Lemma DeleteRegistry_runs s ctx name row n d :
  d_registry d !! name = Some row -> rg_creation_type row = CreationTypeAPI ->
  validateClaimsVisibleBytes ctx (caller_claims s ctx) (rg_claims row) = Ok () ->
  exists n' d', DeleteRegistry s ctx name o n d = (Ok (), n', d').
Proof using Ho.
  intros Hr Hc Hv. do 2 eexists. eapply (transaction_gen_fine o Ho). eapply bind_fine; [by apply getExisting_fine|].
  eapply bind_fine; [by apply lift_fine|].
  eapply bind_fine; [eapply wrapping_fine, (query_fine o Ho); rewrite Hr; reflexivity|]. reflexivity.
Qed.
End Progress.

(** C12. Registries refine a map from names to ordered source lists: a successful
    [CreateRegistry] inserts exactly the requested registry, API-created, with
    the request's claims and its sources in the request's order, and changes no
    other registry and no other table; a failed one changes nothing.  It succeeds
    only for a new name, with claims the caller holds, on distinct existing
    sources the caller sees, and with a database that answers, whenever that is
    so. *)
Theorem CreateRegistry_correct s ctx name req o n d r n' d' :
  admin_wf d -> CreateRegistry s ctx name req o n d = (r, n', d') ->
  match r with
  | Ok info => registry_creatable s ctx name req d /\ info = requested_info name req /\
      registry_set name (Some (requested req)) d d'
  | Err _ => d' = d /\ ((forall k, o k = None) -> ~ registry_creatable s ctx name req d)
  end.
Proof.
  intros Hwf H. destruct r as [info|e]; [by apply CreateRegistry_run in H|]. split.
  - unfold CreateRegistry in H. unfold mbind at 1, Q_bind at 1, lift at 1 in H.
    destruct (invalid_config _ _); [|by injection H]. by apply transaction_gen_atomic in H.
  - intros Ho Hc. destruct (CreateRegistry_runs o Ho s ctx name req n d Hc) as (? & ? & ? & E). congruence.
Qed.

(** C13. A successful [UpdateRegistry] replaces exactly the named registry's
    claims and source list by the request's and keeps every other registry; a
    failed one changes nothing.  It succeeds only for an API-created registry the
    caller sees, with claims the caller holds, on distinct existing sources the
    caller sees, and with a database that answers, for every such request. *)
Theorem UpdateRegistry_correct s ctx name req o n d r n' d' :
  admin_wf d -> UpdateRegistry s ctx name req o n d = (r, n', d') ->
  match r with
  | Ok info => exists row, d_registry d !! name = Some row /\ registry_updatable s ctx row req d /\
      info = requested_info name req /\ registry_set name (Some (requested req)) d d'
  | Err _ => d' = d /\ ((forall k, o k = None) ->
      forall row, d_registry d !! name = Some row -> ~ registry_updatable s ctx row req d)
  end.
Proof.
  intros Hwf H. destruct r as [info|e]; [by apply UpdateRegistry_run in H|]. split.
  - unfold UpdateRegistry in H. unfold mbind at 1, Q_bind at 1, lift at 1 in H.
    destruct (invalid_config _ _); [|by injection H]. by apply transaction_gen_atomic in H.
  - intros Ho row Hr Hu. destruct (UpdateRegistry_runs o Ho s ctx name row req n d Hr Hu) as (? & ? & ? & E). congruence.
Qed.

(** A successful [DeleteRegistry] removes exactly the named registry with its
    links, a failed one changes nothing; it succeeds exactly for API-created
    registries the caller sees, given a database that answers. *)
Lemma DeleteRegistry_correct s ctx name o n d r n' d' :
  admin_wf d -> DeleteRegistry s ctx name o n d = (r, n', d') ->
  match r with
  | Ok _ => registry_set name None d d' /\ exists row, d_registry d !! name = Some row /\
      rg_creation_type row = CreationTypeAPI /\
      validateClaimsVisibleBytes ctx (caller_claims s ctx) (rg_claims row) = Ok ()
  | Err _ => d' = d /\ ((forall k, o k = None) -> forall row, d_registry d !! name = Some row ->
      rg_creation_type row = CreationTypeAPI ->
      ~ validateClaimsVisibleBytes ctx (caller_claims s ctx) (rg_claims row) = Ok ())
  end.
Proof.
  intros Hwf H. destruct r as [[]|e].
  - apply DeleteRegistry_run in H as (row & Hr & Hc & Hv & ->). split; [by apply registry_deleted|eauto].
  - split; [by apply transaction_gen_atomic in H|]. intros Ho row Hr Hc Hv.
    destruct (DeleteRegistry_runs o Ho s ctx name row n d Hr Hc Hv) as (? & ? & E). congruence.
Qed.

(** *** Reading back *)

Lemma service_GetRegistryByName_fine s ctx name ct cl srcs o n d :
  (forall k, o k = None) -> registry_view d name = Some (ct, cl, srcs) ->
  validateClaimsVisible ctx (caller_claims s ctx) (DeserializeClaims cl) = Ok () ->
  exists n', service_GetRegistryByName s ctx name o n d =
    (Ok {| ri_Name := name; ri_Claims := DeserializeClaims cl; ri_CreationType := ct; ri_Sources := srcs |}, n', d).
Proof.
  intros Ho Hv Hvis. unfold registry_view in Hv. destruct (d_registry d !! name) as [r|] eqn:E; [|done].
  injection Hv as <- <- <-. eexists. eapply (read_transaction_fine o Ho). eapply (bind_fine o _ _ _ _ (Ok r)).
  { apply attempt_fine, (select_fine o Ho). by rewrite E. }
  cbv beta iota. rewrite Hvis. eapply bind_fine; [by apply wrapping_fine, (select_fine o Ho)|]. reflexivity.
Qed.

(** C34. Write, then read: after a successful [CreateRegistry] or
    [UpdateRegistry], its caller reads back exactly the registry the call
    returned, the sources in the order of the request. *)
Theorem registry_read_back `{!JsonLaws C} s ctx name req o n d info n' d' o' m :
  admin_wf d -> storable (claims_or_empty (rr_Claims req)) -> (forall k, o' k = None) ->
  (CreateRegistry s ctx name req o n d = (Ok info, n', d') \/ UpdateRegistry s ctx name req o n d = (Ok info, n', d')) ->
  exists m', service_GetRegistryByName s ctx name o' m d' = (Ok info, m', d').
Proof.
  intros Hwf Hst Ho H.
  assert (Hs : info = requested_info name req /\ registry_view d' name = Some (requested req) /\
    validateClaimsSubset ctx (caller_claims s ctx) (claims_or_empty (rr_Claims req)) = Ok ()).
  { destruct H as [H|H].
    - apply CreateRegistry_run in H as ([_ Hcl _] & -> & [Hv _ _ _]); done.
    - apply UpdateRegistry_run in H as (row & _ & [_ _ Hcl _] & -> & [Hv _ _ _]); done. }
  destruct Hs as (-> & Hv & Hcl). eapply service_GetRegistryByName_fine; [done|exact Hv|].
  by apply stamped_visible.
Qed.

(** *** Listing *)

Context `{Co : Collation}.

#[local] Instance name_le_total : Total name_le.
Proof. intros a b. apply coll_total. Qed.
#[local] Instance name_le_trans : Transitive name_le.
Proof. intros a b c. apply coll_trans. Qed.

Definition by_name (d : DB) : list (string * RegistryRow) := merge_sort name_le (map_to_list (d_registry d)).
Definition past (cursor : option string) (kv : string * RegistryRow) : bool :=
  match cursor with None => true | Some c => bool_decide (coll_lt c (fst kv)) end.
Definition before (a b : string * RegistryRow) : Prop := coll_lt (fst a) (fst b).

Lemma by_name_perm d : by_name d ≡ₚ map_to_list (d_registry d).
Proof. apply merge_sort_Permutation. Qed.

Lemma by_name_elem d a : a ∈ by_name d <-> d_registry d !! fst a = Some (snd a).
Proof. destruct a. by rewrite by_name_perm, elem_of_map_to_list. Qed.

Lemma by_name_sorted d : StronglySorted before (by_name d).
Proof.
  assert (Hs : StronglySorted name_le (by_name d)) by (apply StronglySorted_merge_sort; apply _).
  assert (Hnd : NoDup (fst <$> by_name d)) by (rewrite by_name_perm; apply NoDup_fst_map_to_list).
  induction Hs as [|x l Hs IH Hx]; [constructor|]. cbn in Hnd. apply NoDup_cons in Hnd as [Hn Hnd].
  constructor; [by apply IH|]. rewrite Forall_forall in Hx |- *. intros y Hy. split; [by apply Hx|].
  intros E. apply Hn, list_elem_of_fmap. by exists y.
Qed.

Lemma registry_page_by_name cursor size d :
  registry_page cursor size d = take size (List.filter (past cursor) (by_name d)).
Proof.
  unfold registry_page. f_equal. apply (StronglySorted_unique_strong name_le).
  - intros a b Ha Hb H1 H2. rewrite merge_sort_Permutation in Ha.
    apply list_elem_of_In, filter_In in Ha as [Ha%list_elem_of_In _].
    apply list_elem_of_In, filter_In in Hb as [Hb%list_elem_of_In _].
    rewrite <-by_name_perm, by_name_elem in Ha. apply by_name_elem in Hb.
    assert (E : fst a = fst b) by (by apply coll_anti). destruct a, b. cbn in *. congruence.
  - apply StronglySorted_merge_sort; apply _.
  - pose proof (StronglySorted_merge_sort name_le (map_to_list (d_registry d))) as Hs. fold (by_name d) in Hs.
    induction Hs as [|x l Hs IH Hx]; [constructor|]. cbn. destruct (past cursor x); [|done].
    constructor; [done|]. rewrite Forall_forall in *. intros y Hy%list_elem_of_In.
    apply filter_In in Hy as [Hy%list_elem_of_In _]. auto.
  - rewrite merge_sort_Permutation. apply filter_perm. by rewrite by_name_perm.
Qed.

(** The cursor after [k] rows. *)
Definition cursor_at (d : DB) (k : nat) (cursor : option string) : Prop :=
  match k with
  | O => cursor = None
  | S i => exists x, by_name d !! i = Some x /\ cursor = Some (fst x)
  end.

Lemma cursor_at_filter d k cursor : cursor_at d k cursor -> List.filter (past cursor) (by_name d) = drop k (by_name d).
Proof.
  destruct k as [|i]; cbn.
  - intros ->. rewrite drop_0. by apply forallb_filter_id, forallb_true_iff.
  - intros (x & Hx & ->). apply (filter_above before _ _ _ x (by_name_sorted d) Hx).
    + intros y Hy. by apply bool_decide_eq_true.
    + apply bool_decide_eq_false. by intros [_ ?].
    + intros y [Hle Hne]. apply bool_decide_eq_false. intros [Hle' _]. by apply Hne, (anti_symm coll_le).
Qed.

Lemma stream_registries_exact size ctx caller o fuel acc cursor k n d :
  (0 < size)%nat -> (forall i, o i = None) -> cursor_at d k cursor -> (List.length (by_name d) - k < fuel)%nat ->
  exists n', stream_registries fuel size ctx caller acc cursor o n d =
    (Ok (Some (acc ++ List.filter (registry_visible ctx caller) (drop k (by_name d)))), n', d).
Proof.
  intros Hsz Ho. revert acc cursor k n. induction fuel as [|fuel IH]; intros acc cursor k n Hc Hf; [lia|].
  cbn [stream_registries]. pose proof (registry_page_by_name cursor size d) as Hp. rewrite (cursor_at_filter d k cursor Hc) in Hp.
  destruct (Nat.ltb_spec (List.length (registry_page cursor size d)) size) as [El|El].
  { exists (S n). eapply bind_fine; [by apply (select_fine o Ho)|]. cbv zeta. rewrite (proj2 (Nat.ltb_lt _ _) El).
    rewrite Hp in *. rewrite length_take, length_drop in El. by rewrite take_ge by (rewrite length_drop; lia). }
  assert (Hlen : (size <= List.length (by_name d) - k)%nat) by (rewrite Hp, length_take, length_drop in El; lia).
  destruct (last_take_lookup (drop k (by_name d)) size) as (x & Hx & Hi); [rewrite length_drop; lia|].
  rewrite lookup_drop in Hi.
  destruct (IH (acc ++ List.filter (registry_visible ctx caller) (registry_page cursor size d)) (Some (fst x)) (k + size)%nat (S n))
    as [n' E]; [|lia|].
  { replace (k + size)%nat with (S (k + (size - 1))) by lia. cbn. by exists x. }
  exists n'. eapply bind_fine; [by apply (select_fine o Ho)|]. cbv zeta. apply Nat.ltb_ge in El. rewrite El, Hp, Hx, <-Hp, E.
  rewrite Hp, <-app_assoc, <-List.filter_app. do 4 f_equal. rewrite <-drop_drop. by rewrite take_drop.
Qed.

Definition registry_info (d : DB) (r : string * RegistryRow) : RegistryInfo :=
  newRegistryInfo (fst r) (snd r) (linked_sources (rg_id (snd r)) d).

Lemma registry_infos_fine rows o n d : (forall k, o k = None) -> exists n',
  registry_infos rows o n d = (Ok (registry_info d <$> rows), n', d).
Proof.
  intros Ho. revert n. induction rows as [|[name reg] rows IH]; intros n; [by exists n|].
  destruct (IH (S n)) as [n' E]. exists n'. cbn [registry_infos].
  eapply bind_fine; [by apply wrapping_fine, (select_fine o Ho)|]. eapply bind_fine; [exact E|]. done.
Qed.

(** [ListRegistries] terminates and is exact: with more fuel than there are
    registries it returns every registry the caller sees, once, by name, with its
    sources in order, however many pages that takes. *)
Lemma ListRegistries_exact s ctx o fuel n d :
  (forall k, o k = None) -> (size (d_registry d) < fuel)%nat ->
  exists n', ListRegistries fuel s ctx o n d =
    (Ok (Some (registry_info d <$> List.filter (registry_visible ctx (caller_claims s ctx)) (by_name d))), n', d).
Proof.
  intros Ho Hf.
  destruct (stream_registries_exact MaxPageSize ctx (caller_claims s ctx) o fuel [] None 0 (S n) d) as [n1 E];
    [unfold MaxPageSize; lia|done|done|rewrite by_name_perm, length_map_to_list; lia|].
  rewrite drop_0 in E. destruct (registry_infos_fine (List.filter (registry_visible ctx (caller_claims s ctx)) (by_name d)) o n1 d Ho) as [n2 E2].
  eexists. eapply (read_transaction_fine o Ho). eapply bind_fine; [apply wrapping_fine, E|].
  cbv beta iota. cbn [app]. eapply bind_fine; [exact E2|]. reflexivity.
Qed.
End Operations.

(** A registry over the two sources of [SourcesExample], in an order of its own. *)
Module RegistriesExample.
#[local] Existing Instance ClaimsJson.codec.
#[local] Existing Instance ClaimsJson.laws.
#[local] Existing Instance SyncExample.bytewise.
Import SourcesExample.

Definition mine : RegistryRow := {| rg_id := 3; rg_creation_type := CreationTypeAPI; rg_claims := SerializeClaims (Some acme) |}.
Definition e0 : DB :=
  {| d_next := 5; d_source := d_source d0; d_registry := {[ "mine" := mine ]};
     d_registry_source := {[ (3, 1)%nat := 0%Z ]}; d_entry := ∅; d_version := ∅; d_latest := ∅; d_server := ∅;
     d_package := ∅; d_remote := ∅; d_icon := ∅; d_sync := ∅; d_skill := ∅; d_plugin := ∅ |}.
Definition request : RegistryCreateRequest := {| rr_Sources := ["theirs"; "ours"]; rr_Claims := Some acme |}.

Lemma e0_wf : admin_wf e0.
Proof.
  split; [split|..].
  - exact d0_unique.
  - intros name s H%d0_rows. cbn. lia.
  - cbn. by intros n1 n2 r1 r2 [<- _]%lookup_singleton_Some [<- _]%lookup_singleton_Some _.
  - cbn. intros name r [<- <-]%lookup_singleton_Some. cbn. lia.
  - intros rid sid pos. cbn. intros [[= <- <-] _]%lookup_singleton_Some. by exists "mine", mine.
  - intros rid sid pos. cbn. intros [[= <- <-] _]%lookup_singleton_Some. by exists "ours", (row 1 CreationTypeAPI 1).
Qed.

Definition made := CreateRegistry svc ctx "both" request fine 0 e0.
Definition changed := UpdateRegistry svc ctx "mine" request fine 0 e0.
Definition gone := DeleteRegistry svc ctx "mine" fine 0 e0.

Lemma CreateRegistry_correct_witness : registry_set "both" (Some (requested request)) e0 (snd made).
Proof.
  pose proof (CreateRegistry_correct svc ctx "both" request fine 0 e0 _ _ (snd made) e0_wf eq_refl) as H.
  vm_compute fst in H. destruct H as (_ & _ & H). exact H.
Defined.

Lemma UpdateRegistry_correct_witness : registry_set "mine" (Some (requested request)) e0 (snd changed).
Proof.
  pose proof (UpdateRegistry_correct svc ctx "mine" request fine 0 e0 _ _ (snd changed) e0_wf eq_refl) as H.
  vm_compute fst in H. destruct H as (r & _ & _ & _ & H). exact H.
Defined.

Lemma DeleteRegistry_correct_witness : registry_set "mine" None e0 (snd gone).
Proof.
  pose proof (DeleteRegistry_correct svc ctx "mine" fine 0 e0 _ _ (snd gone) e0_wf eq_refl) as H.
  vm_compute fst in H. destruct H as [H _]. exact H.
Defined.

Lemma registry_read_back_witness : exists m',
  service_GetRegistryByName svc ctx "both" fine 0 (snd made) = (Ok (requested_info "both" request), m', snd made).
Proof.
  apply (registry_read_back svc ctx "both" request fine 0 e0 (requested_info "both" request) (snd (fst made)) (snd made) fine 0 e0_wf).
  - exact acme_storable.
  - reflexivity.
  - left. vm_compute. reflexivity.
Defined.

Lemma ListRegistries_exact_witness : exists n', ListRegistries 3 svc ctx fine 0 (snd made) =
  (Ok (Some (registry_info (snd made) <$> List.filter (registry_visible ctx (caller_claims svc ctx)) (by_name (snd made)))), n', snd made) /\
  (ri_Name <$> (registry_info (snd made) <$> by_name (snd made))) = ["both"; "mine"].
Proof.
  destruct (ListRegistries_exact svc ctx fine 3 0 (snd made)) as [n' H]; [reflexivity|vm_compute; lia|].
  exists n'. split; [exact H|vm_compute; reflexivity].
Defined.
End RegistriesExample.
