(* ===== verification/Admin.v ===== *)
(** * Administration over time

    Any sequence of administration calls and restarts, as a step relation on the
    database, with the invariant it keeps: ids are handed out once, links join
    existing registries to existing sources, there is at most one managed
    source, and every source has a sync status. *)

From stdpp Require Import base list strings gmap sets relations.
From Stdlib Require Import String ZArith Lia.
From S2P Require Import Prelude Claims Codec ConfigTypes Config Auth ClaimsGate Database Entries Sync Initialize.
From S2P Require Import Sources Registries.

Local Open Scope string_scope.
Local Open Scope list_scope.

(** ** The invariant *)

Definition one_managed (d : DB) : Prop :=
  forall n1 n2 s1 s2, d_source d !! n1 = Some s1 -> d_source d !! n2 = Some s2 ->
  so_source_type s1 = SourceTypeManaged -> so_source_type s2 = SourceTypeManaged -> n1 = n2.

Definition has_status (d : DB) : Prop :=
  forall name s, d_source d !! name = Some s -> is_Some (d_sync d !! so_id s).

(** The type column is set. *)
Definition typed (d : DB) : Prop :=
  forall name s, d_source d !! name = Some s -> so_source_type s <> SourceTypeNone.

Record admin_inv (d : DB) : Prop := {
  ai_wf : admin_wf d;
  ai_typed : typed d;
  ai_managed : one_managed d;
  ai_status : has_status d }.

(** ** Steps *)

Section Steps.
Context `{Co : Collation} `{C : JsonCodec} `{CM : ConfigMarshal} `{CC : ConfigCodec}.
Context `{FS : FileSystem} `{RP : RegistryParser}.

(** A configuration as [validate] lets it through. *)
Record validated (cfg : Config) : Prop := {
  vc_ready : init_ready cfg;
  vc_typed : forall a, a ∈ cfg_Sources cfg -> GetType a <> SourceTypeNone;
  vc_managed : forall a b, a ∈ cfg_Sources cfg -> b ∈ cfg_Sources cfg ->
    GetType a = SourceTypeManaged -> GetType b = SourceTypeManaged -> src_Name a = src_Name b }.

Inductive admin_step (d : DB) : DB -> Prop :=
| StepCreateSource now s ctx name req o n r n' d' :
    CreateSource now s ctx name req o n d = (r, n', d') -> admin_step d d'
| StepUpdateSource s ctx name req o n r n' d' :
    UpdateSource s ctx name req o n d = (r, n', d') -> admin_step d d'
| StepDeleteSource s ctx name o n r n' d' :
    DeleteSource s ctx name o n d = (r, n', d') -> admin_step d d'
| StepCreateRegistry s ctx name req o n r n' d' :
    CreateRegistry s ctx name req o n d = (r, n', d') -> admin_step d d'
| StepUpdateRegistry s ctx name req o n r n' d' :
    UpdateRegistry s ctx name req o n d = (r, n', d') -> admin_step d d'
| StepDeleteRegistry s ctx name o n r n' d' :
    DeleteRegistry s ctx name o n d = (r, n', d') -> admin_step d d'
| StepRestart now cfg o n r n' d' : validated cfg ->
    Initialize now cfg o n d = (r, n', d') -> admin_step d d'.

(** A failed call changes nothing. *)
Lemma CreateSource_err now s ctx name req o n d e n' d' :
  CreateSource now s ctx name req o n d = (Err e, n', d') -> d' = d.
Proof.
  intros H. unfold CreateSource in H. unfold mbind at 1, Q_bind at 1, lift at 1 in H.
  destruct (invalid_config _ _); [|by injection H]. unfold mbind at 1, Q_bind at 1, lift at 1 in H.
  destruct (validateClaimsSubset _ _ _); [|by injection H]. by apply transaction_gen_atomic in H.
Qed.

Lemma guarded_transaction_err {A} (r : result ()) (b : Q A) o n d e n' d' :
  (lift r ≫= fun _ => transaction b) o n d = (Err e, n', d') -> d' = d.
Proof.
  unfold mbind, Q_bind, lift. destruct r; [apply transaction_atomic|by intros [= _ _ ->]].
Qed.

(** *** Sources *)

Lemma request_typed req : ValidateSourceConfig req = Ok () -> GetSourceType req <> SourceTypeNone.
Proof.
  unfold ValidateSourceConfig. destruct (Nat.eqb_spec (CountSourceTypes req) 0) as [|Hc]; [done|]. intros _ Ht. apply Hc.
  unfold CountSourceTypes, GetSourceType in *.
  by destruct (sr_Git req), (sr_API req), (sr_File req), (sr_Managed req), (sr_Kubernetes req).
Qed.

Lemma create_keeps now s ctx name req o n d info n' d' :
  CreateSource now s ctx name req o n d = (Ok info, n', d') -> admin_inv d -> admin_inv d'.
Proof.
  intros H [[Hids Hown Hsrc] Hty Hman Hst].
  apply CreateSource_run in H as ([Hreq _ Hnew _ Hm _] & c & f & _ & _ & _ & ->). apply request_typed in Hreq.
  set (row := request_row req c f (d_next d) CreationTypeAPI now).
  assert (Hl : forall nm x, d_source (with_source name row (request_status now req) d) !! nm = Some x <->
    (nm = name /\ x = row) \/ (nm <> name /\ d_source d !! nm = Some x)).
  { intros nm x. cbn. rewrite lookup_insert_Some. naive_solver. }
  split; [split|..].
  - destruct (wf_ids_insert d name row Hids eq_refl). by constructor.
  - exact Hown.
  - intros rid sid pos Hp. destruct (Hsrc _ _ _ Hp) as (nm & x & Hx & E). exists nm, x. split; [|done].
    apply Hl. right. split; [|done]. intros ->. congruence.
  - intros nm x [[-> ->]|[_ Hx]]%Hl; [done|by eapply Hty].
  - intros n1 n2 s1 s2 [[-> ->]|[Hn1 H1]]%Hl [[-> ->]|[Hn2 H2]]%Hl T1 T2; [done|exfalso..|by eapply Hman].
    + by eapply (Hm T1).
    + by eapply (Hm T2).
  - intros nm x [[-> ->]|[Hn Hx]]%Hl; cbn.
    + destruct (d_sync d !! d_next d) eqn:E; [by rewrite E|by rewrite lookup_insert_eq].
    + destruct (d_sync d !! d_next d) eqn:E; [by eapply Hst|]. destruct (Hst _ _ Hx) as [y Hy].
      destruct (decide (so_id x = d_next d)) as [->|Hne]; [by rewrite lookup_insert_eq|by rewrite lookup_insert_ne].
Qed.

Lemma update_keeps s ctx name req o n d info n' d' :
  UpdateSource s ctx name req o n d = (Ok info, n', d') -> admin_inv d -> admin_inv d'.
Proof.
  intros H [[Hids Hown Hsrc] Hty Hman Hst].
  apply UpdateSource_run in H as (row & Hrow & [Hreq _ _ _ Ht _ _] & c & f & _ & _ & _ & ->).
  assert (Ht' : so_source_type row = GetSourceType req) by (destruct Ht as [Ht|]; [by eapply Hty in Ht|done]).
  set (row' := request_row req c f (so_id row) CreationTypeAPI (so_created_at row)).
  assert (Hl : forall nm x, d_source (with_row name row' d) !! nm = Some x -> exists y, d_source d !! nm = Some y /\
    so_id x = so_id y /\ so_source_type x = so_source_type y).
  { intros nm x. cbn. intros [[<- <-]|[_ Hx]]%lookup_insert_Some; [exists row|by exists x]. by rewrite Ht'. }
  split; [split|..].
  - by apply (wf_ids_update d name row' row).
  - exact Hown.
  - intros rid sid pos Hp. destruct (Hsrc _ _ _ Hp) as (nm & x & Hx & E). cbn.
    destruct (decide (nm = name)) as [->|Hne]; [exists name, row'|exists nm, x].
    + rewrite lookup_insert_eq. split; [done|]. cbn. congruence.
    + by rewrite lookup_insert_ne.
  - intros nm x (y & Hy & _ & ->)%Hl. by eapply Hty.
  - intros n1 n2 s1 s2 (y1 & Hy1 & _ & ->)%Hl (y2 & Hy2 & _ & ->)%Hl. by eapply Hman.
  - intros nm x (y & Hy & -> & _)%Hl. cbn. by eapply Hst.
Qed.

Lemma delete_keeps s ctx name o n d n' d' :
  DeleteSource s ctx name o n d = (Ok (), n', d') -> admin_inv d -> admin_inv d'.
Proof.
  intros H [[[H1 H2 H3 H4] Hown Hsrc] Hty Hman Hst]. apply DeleteSource_run in H as (row & Hrow & [_ _ Hlinks] & ->).
  assert (Hl : forall nm x, d_source (cascade_sources {[ so_id row ]} d) !! nm = Some x <->
    d_source d !! nm = Some x /\ so_id x <> so_id row).
  { intros nm x. cbn. rewrite map_lookup_filter_Some. cbn. by rewrite not_elem_of_singleton. }
  split; [split; [split|..]|..].
  - intros n1 n2 s1 s2 [? _]%Hl [? _]%Hl. by apply H1.
  - intros nm x [Hx _]%Hl. by apply (H2 nm).
  - exact H3.
  - exact H4.
  - exact Hown.
  - intros rid sid pos Hp. destruct (Hsrc _ _ _ Hp) as (nm & x & Hx & E). exists nm, x. split; [|done].
    apply Hl. split; [done|]. intros E'. apply (Hlinks rid pos). by rewrite <-E', E.
  - intros nm x [Hx _]%Hl. by eapply Hty.
  - intros n1 n2 s1 s2 [? _]%Hl [? _]%Hl. by eapply Hman.
  - intros nm x [Hx Hne]%Hl. destruct (Hst _ _ Hx) as [y Hy]. exists y. cbn. rewrite map_lookup_filter_Some.
    cbn. by rewrite not_elem_of_singleton.
Qed.

(** *** Registries *)

Lemma registries_keep name v d d' : registry_set name v d d' -> admin_inv d -> admin_inv d'.
Proof.
  intros [_ _ Hf Hwf] [_ Hty Hman Hst]. unfold only_registries in Hf.
  assert (Hs : d_source d' = d_source d) by (by rewrite Hf).
  assert (Hy : d_sync d' = d_sync d) by (by rewrite Hf).
  split; [done|..]; unfold typed, one_managed, has_status; rewrite Hs; [done..|]. by rewrite Hy.
Qed.

(** *** Restarts *)

Section Restart.
Context (now : Z) (cfg : Config) (d d' : DB).
Hypothesis Hcfg : validated cfg.
Hypothesis Hinv : admin_inv d.
Hypothesis Hin : initialized now cfg d d'.
Hypothesis Hp : init_possible cfg d.

Lemma configured name : name ∈ src_Name <$> cfg_Sources cfg -> exists src, src ∈ cfg_Sources cfg /\ src_Name src = name.
Proof using. intros (src & -> & H)%list_elem_of_fmap. eauto. Qed.

(** Where a source of the new database comes from. *)
Lemma restart_source name s : d_source d' !! name = Some s ->
  (exists src, src ∈ cfg_Sources cfg /\ src_Name src = name /\ so_source_type s = GetType src /\
    is_Some (d_sync d' !! so_id s)) \/
  (d_source d !! name = Some s /\ so_creation_type s = CreationTypeAPI /\ d_sync d' !! so_id s = d_sync d !! so_id s).
Proof using Hin.
  intros Hs. destruct (decide (name ∈ src_Name <$> cfg_Sources cfg)) as [Hc|Hc].
  - left. apply configured in Hc as (src & Hsrc & <-). destruct (in_source _ _ _ _ Hin src Hsrc) as (id & E & _ & _ & Hy).
    rewrite Hs in E. injection E as ->. exists src. split_and!; try done.
  - right. destruct (in_other _ _ _ _ Hin name s Hc) as [[H1 _] H2]. destruct (H1 Hs), (H2 Hs). done.
Qed.

Lemma restart_links rid sid pos : links_owned d' -> d_registry_source d' !! (rid, sid) = Some pos ->
  exists nm s, d_source d' !! nm = Some s /\ so_id s = sid.
Proof using Hin Hp Hinv.
  intros Hown Hl. destruct (Hown _ _ _ Hl) as (rn & rg & Hrg & <-).
  destruct (decide (rn ∈ reg_Name <$> cfg_Registries cfg)) as [Hc|Hc].
  - apply list_elem_of_fmap in Hc as (r & Ern & Hr). rewrite Ern in Hrg. destruct (in_registry _ _ _ _ Hin r Hr) as (rg' & E & _ & _ & Hlk).
    rewrite Hrg in E. injection E as <-. apply Hlk in Hl as (k & nm & s & _ & Hs & Hid & _). eauto.
  - destruct (in_registry_other _ _ _ _ Hin rn rg Hc) as [[Hr _] Hlk]. destruct (Hr Hrg) as [Hr1 Ha].
    rewrite (Hlk Hrg) in Hl. destruct (aw_sources _ (ai_wf _ Hinv) _ _ _ Hl) as (nm & s & Hs & Hid).
    destruct (decide (nm ∈ src_Name <$> cfg_Sources cfg)) as [Hn|Hn].
    + apply configured in Hn as (src & Hsrc & <-). destruct (in_source _ _ _ _ Hin src Hsrc) as (id & E & Hold & _).
      exists (src_Name src), (stored now d src id). split; [done|]. cbn. rewrite <-Hid. symmetry. by apply Hold.
    + exists nm, s. split; [|done]. apply (in_other _ _ _ _ Hin nm s Hn). split; [done|]. apply creation_not_config. intros Hcf.
      subst sid. by apply (ip_links _ _ Hp rn rg nm s pos).
Qed.

Lemma restart_managed : one_managed d'.
Proof using Hcfg Hinv Hin Hp.
  intros n1 n2 s1 s2 H1 H2 T1 T2. destruct (restart_source _ _ H1) as [(a & Ha & <- & Ea & _)|(Ha & Ca & _)];
    destruct (restart_source _ _ H2) as [(b & Hb & <- & Eb & _)|(Hb & Cb & _)].
  - apply (vc_managed _ Hcfg); congruence.
  - exfalso. assert (Hm : has_managed (cfg_Sources cfg) = true).
    { apply existsb_exists. exists a. split; [by apply list_elem_of_In|apply bool_decide_eq_true; congruence]. }
    pose proof (ip_managed _ _ Hp Hm _ _ Hb T2). congruence.
  - exfalso. assert (Hm : has_managed (cfg_Sources cfg) = true).
    { apply existsb_exists. exists b. split; [by apply list_elem_of_In|apply bool_decide_eq_true; congruence]. }
    pose proof (ip_managed _ _ Hp Hm _ _ Ha T1). congruence.
  - by apply (ai_managed _ Hinv n1 n2 s1 s2).
Qed.

Lemma restart_keeps : wf_ids d' -> links_owned d' -> admin_inv d'.
Proof using Hcfg Hinv Hin Hp.
  intros Hwf Hown. split; [split; [done..|]|..].
  - intros rid sid pos. by apply restart_links.
  - intros name s [(src & Hsrc & _ & -> & _)|(Hs & _)]%restart_source; [by apply (vc_typed _ Hcfg)|].
    by apply (ai_typed _ Hinv name).
  - exact restart_managed.
  - intros name s [(src & _ & _ & _ & Hy)|(Hs & _ & ->)]%restart_source; [done|]. by apply (ai_status _ Hinv name).
Qed.
End Restart.

Lemma step_keeps d d' : admin_step d d' -> admin_inv d -> admin_inv d'.
Proof.
  destruct 1 as [now s ctx name req o n r n' d' H|s ctx name req o n r n' d' H|s ctx name o n r n' d' H|
    s ctx name req o n r n' d' H|s ctx name req o n r n' d' H|s ctx name o n r n' d' H|now cfg o n r n' d' Hv H]; intros Hinv.
  - destruct r; [by eapply create_keeps|by apply CreateSource_err in H as ->].
  - destruct r; [by eapply update_keeps|by apply guarded_transaction_err in H as ->].
  - destruct r as [[]|]; [by eapply delete_keeps|by apply transaction_atomic in H as ->].
  - destruct r; [|by apply guarded_transaction_err in H as ->].
    apply CreateRegistry_run in H as (_ & _ & H); [by eapply registries_keep|apply Hinv].
  - destruct r; [|by apply guarded_transaction_err in H as ->].
    apply UpdateRegistry_run in H as (_ & _ & _ & _ & H); [by eapply registries_keep|apply Hinv].
  - destruct r as [[]|]; [|by apply transaction_atomic in H as ->].
    apply DeleteRegistry_run in H as (row & Hr & _ & _ & ->). eapply registries_keep; [|exact Hinv].
    apply registry_deleted; [apply Hinv|exact Hr].
  - destruct r as [[]|]; [|by apply transaction_plain_atomic in H as ->]. destruct Hinv as [[Hids Hown Hsrc] Hty Hman Hst].
    pose proof (Initialize_done _ _ _ _ _ _ _ (vc_ready _ Hv) Hids Hown H) as (Hin & Hids' & Hown').
    pose proof (Initialize_needs _ _ _ _ _ _ _ (vc_ready _ Hv) Hids Hown H) as Hp.
    eapply restart_keeps; eauto. by split; [split|..].
Qed.

(** C8. However administration calls and restarts follow each other, and
    whichever of them fail, at any point: there is at most one managed source,
    every source has a type and a sync status, every link joins an existing
    registry to an existing source, and no id is used twice. *)
Theorem admin_reachable d d' : rtc admin_step d d' -> admin_inv d -> admin_inv d'.
Proof. intros H. induction H as [|d d1 d' Hs _ IH]; [done|]. intros Hd. eapply IH, step_keeps; eauto. Qed.
End Steps.

(** From an empty database: start-up with the configuration of
    [InitializeExample], then a source and a registry through the API. *)
Module AdminExample.
#[local] Existing Instance ClaimsJson.codec.
#[local] Existing Instance InitializeExample.marshal.
#[local] Existing Instance SyncExample.codec.
#[local] Existing Instance SyncExample.bytewise.
#[local] Existing Instance SourcesExample.no_files.
#[local] Existing Instance SourcesExample.no_registry.

Definition empty : DB :=
  {| d_next := 1; d_source := ∅; d_registry := ∅; d_registry_source := ∅; d_entry := ∅; d_version := ∅; d_latest := ∅;
     d_server := ∅; d_package := ∅; d_remote := ∅; d_icon := ∅; d_sync := ∅; d_skill := ∅; d_plugin := ∅ |}.

Lemma empty_inv : admin_inv empty.
Proof.
  split; [split; [split|..]|..]; unfold ids_unique, links_owned, typed, one_managed, has_status;
    cbn [empty d_source d_registry d_registry_source].
  - by intros n1 n2 s1 s2 ?%lookup_empty_Some.
  - by intros n s ?%lookup_empty_Some.
  - by intros n1 n2 s1 s2 ?%lookup_empty_Some.
  - by intros n s ?%lookup_empty_Some.
  - by intros r s p ?%lookup_empty_Some.
  - by intros r s p ?%lookup_empty_Some.
  - by intros n s ?%lookup_empty_Some.
  - by intros n1 n2 s1 s2 ?%lookup_empty_Some.
  - by intros n s ?%lookup_empty_Some.
Qed.

Lemma cfg_validated : validated InitializeExample.cfg.
Proof.
  split; [exact InitializeExample.cfg_ready|..].
  - intros a Ha%list_elem_of_In. cbn in Ha. by destruct Ha as [<-|[<-|[]]].
  - intros a b Ha%list_elem_of_In Hb%list_elem_of_In. cbn in Ha, Hb.
    by destruct Ha as [<-|[<-|[]]], Hb as [<-|[<-|[]]].
Qed.

Import SourcesExample.
Definition run1 := Initialize 7 InitializeExample.cfg fine 0 empty.
Definition run2 := CreateSource 8 svc ctx "new" request fine 0 (snd run1).
Definition registry_request : RegistryCreateRequest := {| rr_Sources := ["new"; "internal"]; rr_Claims := Some acme |}.
Definition run3 := CreateRegistry svc ctx "both" registry_request fine 0 (snd run2).

Lemma admin_reachable_witness :
  admin_inv (snd run3) /\ linked_sources 5 (snd run3) = ["new"; "internal"].
Proof.
  split; [|vm_compute; reflexivity]. apply (admin_reachable empty); [|exact empty_inv].
  eapply rtc_l; [eapply (StepRestart empty 7 InitializeExample.cfg fine 0 _ _ (snd run1)); [exact cfg_validated|vm_compute; reflexivity]|].
  eapply rtc_l; [eapply (StepCreateSource (snd run1) 8 svc ctx "new" request fine 0 _ _ (snd run2)); vm_compute; reflexivity|].
  eapply rtc_l; [eapply (StepCreateRegistry (snd run2) svc ctx "both" registry_request fine 0 _ _ (snd run3)); vm_compute; reflexivity|].
  apply rtc_refl.
Defined.
End AdminExample.
