(* ===== verification/Service.v ===== *)
(** * The registry service

    [service.RegistryService] of [internal/service/service.go], the interface
    the HTTP handlers are written against, as a class with the promises the
    handlers rely on, and [dbService] as an instance that keeps them.  An
    operation takes its options as the source does, a list of functions applied
    to the defaults.  A loop over pages yields [None] when it runs out of fuel. *)

From stdpp Require Import base list strings gmap.
From Stdlib Require Import String ZArith Lia.
From S2P Require Import Prelude GoStrings Claims Codec ConfigTypes Config Auth Versions ClaimsGate Upstream Database.
From S2P Require Import Entries Streaming Artifacts ServerReads Options Sync Initialize Sources Registries.

Local Open Scope string_scope.
Local Open Scope list_scope.

(** ** The interface *)

Class RegistryService := {
  svc_CheckReadiness : Q ();
  svc_ListServers : Ctx -> list (Option_ ListServersOptions) -> Q (option (list ServerJSON * string));
  svc_ListServerVersions : Ctx -> list (Option_ ListServerVersionsOptions) -> Q (option (list ServerJSON));
  svc_GetServerVersion : Ctx -> list (Option_ GetServerVersionOptions) -> Q (option (option ServerJSON));
  svc_PublishServerVersion : Ctx -> list (Option_ PublishServerVersionOptions) -> Q ServerJSON;
  svc_DeleteServerVersion : Ctx -> list (Option_ DeleteServerVersionOptions) -> Q ();
  svc_ListSources : Ctx -> Q (option (list SourceInfo));
  svc_GetSourceByName : Ctx -> string -> Q SourceInfo;
  svc_CreateSource : Ctx -> string -> SourceCreateRequest -> Q SourceInfo;
  svc_UpdateSource : Ctx -> string -> SourceCreateRequest -> Q SourceInfo;
  svc_DeleteSource : Ctx -> string -> Q ();
  svc_ListSourceEntries : Ctx -> string -> Q (list SourceEntryInfo);
  svc_ListRegistries : Ctx -> Q (option (list RegistryInfo));
  svc_GetRegistryByName : Ctx -> string -> Q RegistryInfo;
  svc_CreateRegistry : Ctx -> string -> RegistryCreateRequest -> Q RegistryInfo;
  svc_UpdateRegistry : Ctx -> string -> RegistryCreateRequest -> Q RegistryInfo;
  svc_DeleteRegistry : Ctx -> string -> Q ();
  svc_ListRegistryEntries : Ctx -> string -> Q (list RegistryEntryInfo);
  svc_ListSkills : Ctx -> list (Option_ ListArtifactOptions) -> Q (option (list SkillValue * string));
  svc_GetSkillVersion : Ctx -> list (Option_ GetArtifactOptions) -> Q SkillValue;
  svc_PublishSkill : Ctx -> SkillValue -> list (Option_ PublishArtifactOptions) -> Q SkillValue;
  svc_DeleteSkillVersion : Ctx -> list (Option_ DeleteArtifactOptions) -> Q ();
  svc_ListPlugins : Ctx -> list (Option_ ListArtifactOptions) -> Q (option (list Artifact * string));
  svc_GetPluginVersion : Ctx -> list (Option_ GetArtifactOptions) -> Q Artifact;
  svc_PublishPlugin : Ctx -> Artifact -> list (Option_ PublishArtifactOptions) -> Q Artifact;
  svc_DeletePluginVersion : Ctx -> list (Option_ DeleteArtifactOptions) -> Q ();
  svc_UpdateEntryClaims : Ctx -> list (Option_ UpdateEntryClaimsOptions) -> Q ();
  svc_GetEntryClaims : Ctx -> list (Option_ GetEntryClaimsOptions) -> Q claims }.

(** A failure changes nothing. *)
Definition atomic {A} (m : Q A) : Prop := forall o n d e n' d', m o n d = (Err e, n', d') -> d' = d.

(** The errors that say a publication was refused. *)
Definition refusals : list sentinel := [ErrInvalidServerName; ErrClaimsInsufficient; ErrVersionAlreadyExists; ErrClaimsMismatch].

(** A refused publication changes nothing; one that is stored may still fail, in
    reading back what it stored. *)
Definition publishes {A} (m : Q A) : Prop := forall o n d e n' d', m o n d = (Err e, n', d') ->
  d' = d \/ forall s, s ∈ refusals -> errorIs e s = false.

Class ServiceLaws (S : RegistryService) : Prop := {
  sl_CheckReadiness : reads svc_CheckReadiness;
  sl_ListServers ctx opts : reads (svc_ListServers ctx opts);
  sl_ListServerVersions ctx opts : reads (svc_ListServerVersions ctx opts);
  sl_GetServerVersion ctx opts : reads (svc_GetServerVersion ctx opts);
  sl_ListSources ctx : reads (svc_ListSources ctx);
  sl_GetSourceByName ctx name : reads (svc_GetSourceByName ctx name);
  sl_ListSourceEntries ctx name : reads (svc_ListSourceEntries ctx name);
  sl_ListRegistries ctx : reads (svc_ListRegistries ctx);
  sl_GetRegistryByName ctx name : reads (svc_GetRegistryByName ctx name);
  sl_ListRegistryEntries ctx name : reads (svc_ListRegistryEntries ctx name);
  sl_ListSkills ctx opts : reads (svc_ListSkills ctx opts);
  sl_GetSkillVersion ctx opts : reads (svc_GetSkillVersion ctx opts);
  sl_ListPlugins ctx opts : reads (svc_ListPlugins ctx opts);
  sl_GetPluginVersion ctx opts : reads (svc_GetPluginVersion ctx opts);
  sl_GetEntryClaims ctx opts : reads (svc_GetEntryClaims ctx opts);
  sl_DeleteServerVersion ctx opts : atomic (svc_DeleteServerVersion ctx opts);
  sl_CreateSource ctx name req : atomic (svc_CreateSource ctx name req);
  sl_UpdateSource ctx name req : atomic (svc_UpdateSource ctx name req);
  sl_DeleteSource ctx name : atomic (svc_DeleteSource ctx name);
  sl_CreateRegistry ctx name req : atomic (svc_CreateRegistry ctx name req);
  sl_UpdateRegistry ctx name req : atomic (svc_UpdateRegistry ctx name req);
  sl_DeleteRegistry ctx name : atomic (svc_DeleteRegistry ctx name);
  sl_DeleteSkillVersion ctx opts : atomic (svc_DeleteSkillVersion ctx opts);
  sl_DeletePluginVersion ctx opts : atomic (svc_DeletePluginVersion ctx opts);
  sl_UpdateEntryClaims ctx opts : atomic (svc_UpdateEntryClaims ctx opts);
  sl_PublishServerVersion ctx opts : publishes (svc_PublishServerVersion ctx opts);
  sl_PublishSkill ctx x opts : publishes (svc_PublishSkill ctx x opts);
  sl_PublishPlugin ctx x opts : publishes (svc_PublishPlugin ctx x opts) }.

#[export] Hint Resolve sl_CheckReadiness sl_ListServers sl_ListServerVersions sl_GetServerVersion sl_ListSources sl_GetSourceByName
  sl_ListSourceEntries sl_ListRegistries sl_GetRegistryByName sl_ListRegistryEntries sl_ListSkills sl_GetSkillVersion
  sl_ListPlugins sl_GetPluginVersion sl_GetEntryClaims sl_DeleteServerVersion sl_CreateSource sl_UpdateSource
  sl_DeleteSource sl_CreateRegistry sl_UpdateRegistry sl_DeleteRegistry sl_DeleteSkillVersion sl_DeletePluginVersion
  sl_UpdateEntryClaims sl_PublishServerVersion sl_PublishSkill sl_PublishPlugin : registry.

(** ** [dbService] *)

Section DbService.
Context `{SC : ServerCodec} `{RC : ServerReadCodec} `{C : JsonCodec} `{AC : ArtifactCodec} `{L : SemverLib}.
Context `{Co : Collation} `{SQ : SqlConditions} `{CM : ConfigMarshal} `{CC : ConfigCodec}.
Context `{FS : FileSystem} `{RP : RegistryParser}.
Context (s : dbService) (now : Z) (fuel : nat).

(** The options of a call, or its first bad one; [Publish] and [Delete] of
    servers and the claims operations wrap the error. *)
Definition with_options {T A} (opts : list (Option_ T)) (defaults : T) (body : T -> Q A) : Q A :=
  options ← lift (apply_options opts defaults); body options.
Definition with_options_wrapped {T A} (opts : list (Option_ T)) (defaults : T) (body : T -> Q A) : Q A :=
  options ← wrapping "invalid option" (lift (apply_options opts defaults)); body options.

Definition no_list_servers : ListServersOptions := list_servers_with "" "" DefaultPageSize "" None "" None.
Definition no_list_versions : ListServerVersionsOptions :=
  {| vo_RegistryName := ""; vo_Name := ""; vo_Limit := DefaultPageSize; vo_Claims := None |}.
Definition no_get_server : GetServerVersionOptions := get_server_with "" "" "" "" None.
Definition no_publish_server : PublishServerVersionOptions := {| po_ServerData := None; po_JWTClaims := None; po_Claims := None |}.
Definition no_delete_server : DeleteServerVersionOptions := {| do_ServerName := ""; do_Version := ""; do_JWTClaims := None |}.
Definition no_list_artifacts : ListArtifactOptions := list_artifacts_with "" "" None None DefaultPageSize None "" None.
Definition no_get_artifact : GetArtifactOptions := get_artifact_with "" "" "" "" "" None.
Definition no_publish_artifact : PublishArtifactOptions := {| ao_Claims := None; ao_JWTClaims := None |}.
Definition no_delete_artifact : DeleteArtifactOptions := {| dao_Name := ""; dao_Version := ""; dao_JWTClaims := None |}.
Definition no_update_claims : UpdateEntryClaimsOptions :=
  {| uo_EntryType := ""; uo_Name := ""; uo_Claims := None; uo_JWTClaims := None |}.
Definition no_get_claims : GetEntryClaimsOptions := {| geo_EntryType := ""; geo_Name := ""; geo_JWTClaims := None |}.

(** [s.pool.Ping(ctx)] *)
Definition CheckReadiness : Q () := wrapping "failed to ping database" (select (fun _ => Ok ())).

#[export] Instance db_service : RegistryService := {|
  svc_CheckReadiness := CheckReadiness;
  svc_ListServers ctx opts := with_options opts no_list_servers (ListServers fuel s ctx);
  svc_ListServerVersions ctx opts := with_options opts no_list_versions (ListServerVersions fuel s ctx);
  svc_GetServerVersion ctx opts := with_options opts no_get_server (fun options =>
    res ← GetServerVersion fuel s ctx options; mret (Some <$> res));
  svc_PublishServerVersion ctx opts :=
    with_options_wrapped opts no_publish_server (fun options => publishServerVersion s ctx options now);
  svc_DeleteServerVersion ctx opts := with_options_wrapped opts no_delete_server (DeleteServerVersion s ctx);
  svc_ListSources := ListSources fuel s;
  svc_GetSourceByName := service_GetSourceByName s;
  svc_CreateSource := CreateSource now s;
  svc_UpdateSource := UpdateSource s;
  svc_DeleteSource := DeleteSource s;
  svc_ListSourceEntries := ListSourceEntries s;
  svc_ListRegistries := ListRegistries fuel s;
  svc_GetRegistryByName := service_GetRegistryByName s;
  svc_CreateRegistry := CreateRegistry s;
  svc_UpdateRegistry := UpdateRegistry s;
  svc_DeleteRegistry := DeleteRegistry s;
  svc_ListRegistryEntries := ListRegistryEntries s;
  svc_ListSkills ctx opts := with_options opts no_list_artifacts (ListSkills fuel s ctx);
  svc_GetSkillVersion ctx opts := with_options opts no_get_artifact (GetSkillVersion s ctx);
  svc_PublishSkill ctx x opts := with_options opts no_publish_artifact (fun options => PublishSkill s ctx x options now);
  svc_DeleteSkillVersion ctx opts := with_options opts no_delete_artifact (DeleteSkillVersion s ctx);
  svc_ListPlugins ctx opts := with_options opts no_list_artifacts (ListPlugins fuel s ctx);
  svc_GetPluginVersion ctx opts := with_options opts no_get_artifact (GetPluginVersion s ctx);
  svc_PublishPlugin ctx x opts := with_options opts no_publish_artifact (fun options => PublishPlugin s ctx x options now);
  svc_DeletePluginVersion ctx opts := with_options opts no_delete_artifact (DeletePluginVersion s ctx);
  svc_UpdateEntryClaims ctx opts := with_options_wrapped opts no_update_claims (UpdateEntryClaims s ctx);
  svc_GetEntryClaims ctx opts := with_options_wrapped opts no_get_claims (fun options =>
    GetEntryClaims s ctx (geo_EntryType options) (geo_Name options) (geo_JWTClaims options)) |}.

(** *** Its promises *)

Lemma reads_read_transaction {A} (m : Q A) : reads (read_transaction m).
Proof. intros o n d r n' d'. unfold read_transaction. destruct (o n); [by intros [= _ _ ->]|]. by destruct (m _ _ _) as [[??]?] => -[= _ _ ->]. Qed.

Lemma atomic_fail {A} e : atomic (fail (A := A) e).
Proof. by intros o n d e' n' d' [= _ _ ->]. Qed.
Lemma atomic_reads_bind {A B} (m : Q A) (f : A -> Q B) : reads m -> (forall a, atomic (f a)) -> atomic (m ≫= f).
Proof.
  intros Hm Hf o n d e n' d'. unfold mbind, Q_bind. destruct (m o n d) as [[[a|e1] n1] d1] eqn:E; intros H.
  - rewrite <-(Hm _ _ _ _ _ _ E). by eapply Hf.
  - injection H as <- <- <-. by eapply Hm.
Qed.
Lemma atomic_transaction_gen {A} b c (m : Q A) : atomic (transaction_gen b c m).
Proof. intros o n d e n' d'. apply transaction_gen_atomic. Qed.
Lemma atomic_transaction {A} (m : Q A) : atomic (transaction m).
Proof. apply atomic_transaction_gen. Qed.


(** A sentinel outside the list. *)
Ltac not_refused := apply (bool_decide_unpack _); by vm_compute.

(** What a handler would not take for a refusal. *)
Definition blameless (e : error) : Prop := forall x, x ∈ refusals -> errorIs e x = false.
Definition forgiving {A} (m : Q A) : Prop := forall o n d e n' d', m o n d = (Err e, n', d') -> blameless e.

Lemma blameless_msg msg : blameless (EMsg msg).
Proof. done. Qed.
Lemma blameless_wrap x msg : x ∉ refusals -> blameless (EWrap x msg).
Proof. intros Hx y Hy. cbn. apply bool_decide_eq_false. by intros ->. Qed.
Lemma blameless_wrapf msg e : blameless e -> blameless (wrapf msg e).
Proof. destruct e; [|done]. intros H x Hx. exact (H x Hx). Qed.

Lemma forgiving_select {A} (f : DB -> result A) : (forall d e, f d = Err e -> blameless e) -> forgiving (select f).
Proof.
  intros Hf o n d e n' d'. unfold select, query. destruct (o n) as [[]|].
  - by intros [= <- _ _].
  - intros [= <- _ _]. apply blameless_wrap. not_refused.
  - destruct (f d) eqn:E; [done|]. intros [= <- _ _]. by eapply Hf.
Qed.
Lemma forgiving_bind {A B} (m : Q A) (f : A -> Q B) : forgiving m -> (forall a, forgiving (f a)) -> forgiving (m ≫= f).
Proof.
  intros Hm Hf o n d e n' d'. unfold mbind, Q_bind. destruct (m o n d) as [[[a|e1] n1] d1] eqn:E; [apply Hf|].
  intros [= <- _ _]. by eapply Hm.
Qed.
Lemma forgiving_ret {A} (a : A) : forgiving (mret a).
Proof. by intros o n d e n' d' [=]. Qed.
Lemma forgiving_wrapping {A} msg (m : Q A) : forgiving m -> forgiving (wrapping msg m).
Proof.
  intros Hm o n d e n' d'. unfold wrapping. destruct (m o n d) as [[[a|e1] n1] d1] eqn:E; intros [=].
  subst. by eapply blameless_wrapf, Hm.
Qed.
(** The row is asked for by its key, and there being none is not found. *)
Lemma forgiving_row {A B} (f : DB -> result A) (k : A -> Q B) : (forall d e, f d = Err e -> blameless e) ->
  (forall a, forgiving (k a)) ->
  forgiving (row ← attempt (select f);
    match row with
    | Err err => if errorIs err ErrNoRows then fail (EWrap ErrNotFound "%s %s") else fail err
    | Ok h => k h
    end).
Proof.
  intros Hf Hk o n d e n' d' H. unfold mbind, Q_bind, attempt in H. destruct (select f o n d) as [[[a|err] n1] d1] eqn:E.
  - by eapply Hk.
  - destruct (errorIs err ErrNoRows).
    + injection H as <- _ _. apply blameless_wrap. not_refused.
    + injection H as <- _ _. by eapply forgiving_select.
Qed.

Lemma row_or_none_blameless {A} (x : option A) e : row_or_none x = Err e -> blameless e.
Proof. destruct x; [done|]. intros [= <-]. apply blameless_wrap. not_refused. Qed.

Lemma no_rows_blameless : blameless no_rows.
Proof. apply blameless_wrap. not_refused. Qed.

Lemma forgiving_fetch_server name version source : forgiving (fetchServerVersionBySource name version source).
Proof.
  apply forgiving_row; [intros d e H|intros h].
  - destruct (d_source d !! source); [by eapply row_or_none_blameless|]. injection H as <-. apply no_rows_blameless.
  - apply forgiving_bind; [by apply forgiving_select|]. intros packages.
    apply forgiving_bind; [by apply forgiving_select|]. intros remotes o n d e n' d' [= H _ _]. revert H.
    unfold helperToServer, rbind, or_err. repeat case_match; try done; by intros [= <-]; simplify_eq.
Qed.

Lemma forgiving_fetch_artifact {X R} {K : ArtifactKind X R} name version source :
  forgiving (fetchVersionBySource (X := X) name version source).
Proof.
  apply forgiving_row; [intros d e H|intros j].
  - destruct (d_source d !! source); [by eapply row_or_none_blameless|]. injection H as <-. apply no_rows_blameless.
  - apply forgiving_bind; [|intros; apply forgiving_ret].
    apply forgiving_bind; [by apply forgiving_select|]. intros oci.
    apply forgiving_bind; [by apply forgiving_select|]. intros; apply forgiving_ret.
Qed.

(** The refusals come before the commit, the read-back after it. *)
Lemma publishes_then {A B} (m : Q A) (f : A -> Q B) : atomic m -> (forall a, forgiving (f a)) -> publishes (m ≫= f).
Proof.
  intros Hm Hf o n d e n' d'. unfold mbind, Q_bind. destruct (m o n d) as [[[a|e1] n1] d1] eqn:E; intros H.
  - right. by eapply Hf.
  - injection H as <- <- <-. left. by eapply Hm.
Qed.
Lemma publishes_reads_bind {A B} (m : Q A) (f : A -> Q B) : reads m -> (forall a, publishes (f a)) -> publishes (m ≫= f).
Proof.
  intros Hm Hf o n d e n' d'. unfold mbind, Q_bind. destruct (m o n d) as [[[a|e1] n1] d1] eqn:E; intros H.
  - rewrite <-(Hm _ _ _ _ _ _ E). by eapply Hf.
  - injection H as <- <- <-. left. by eapply Hm.
Qed.

Lemma publishes_server ctx opts : publishes (publishServerVersion s ctx opts now).
Proof.
  apply publishes_then.
  - intros o n d e n' d'. apply PublishServerVersion_atomic.
  - intros name. destruct (po_ServerData opts).
    + by apply forgiving_wrapping, forgiving_fetch_server.
    + by intros o n d e n' d' [= <- _ _].
Qed.
Lemma publishes_artifact {X R} {K : ArtifactKind X R} ctx x opts : publishes (PublishArtifact (X := X) s ctx x opts now).
Proof.
  unfold PublishArtifact. destruct (_ || _ || _); [by intros o n d e n' d' [= _ _ ->]; left|].
  apply publishes_reads_bind; [apply reads_lift|intros _]. apply publishes_reads_bind; [apply reads_lift|intros json].
  apply publishes_then; [apply atomic_transaction|]. intros name. by apply forgiving_wrapping, forgiving_fetch_artifact.
Qed.

Lemma reads_lookup_gate ctx name cs : reads (lookupRegistryIDWithGate ctx name cs).
Proof.
  unfold lookupRegistryIDWithGate. apply reads_bind; [apply reads_attempt, reads_select|].
  intros [row|err]; [|case_match; apply reads_fail]. apply reads_bind; [apply reads_lift|intros; apply reads_ret].
Qed.
Lemma reads_managed : reads getManagedSource.
Proof. unfold getManagedSource. apply reads_bind; [apply reads_wrapping, reads_select|]. intros. repeat case_match; auto with registry. Qed.


Lemma reads_with_options {T A} (opts : list (Option_ T)) x (body : T -> Q A) :
  (forall t, reads (body t)) -> reads (with_options opts x body).
Proof. intros H. apply reads_bind; [apply reads_lift|exact H]. Qed.
Lemma reads_with_options_wrapped {T A} (opts : list (Option_ T)) x (body : T -> Q A) :
  (forall t, reads (body t)) -> reads (with_options_wrapped opts x body).
Proof. intros H. apply reads_bind; [apply reads_wrapping, reads_lift|exact H]. Qed.
Lemma atomic_with_options {T A} (opts : list (Option_ T)) x (body : T -> Q A) :
  (forall t, atomic (body t)) -> atomic (with_options opts x body).
Proof. intros H. apply atomic_reads_bind; [apply reads_lift|exact H]. Qed.
Lemma atomic_with_options_wrapped {T A} (opts : list (Option_ T)) x (body : T -> Q A) :
  (forall t, atomic (body t)) -> atomic (with_options_wrapped opts x body).
Proof. intros H. apply atomic_reads_bind; [apply reads_wrapping, reads_lift|exact H]. Qed.

Lemma reads_ListServers ctx opts : reads (ListServers fuel s ctx opts).
Proof.
  unfold ListServers. case_match; [apply reads_fail|]. apply reads_bind; [apply reads_lookup_gate|intros rid].
  apply reads_bind; [apply reads_lift|intros start].
  apply reads_bind; [apply reads_read_transaction|intros; apply reads_ret].
Qed.
Lemma reads_shared {Cu} f (cursor_of : helper -> Cu) q flt : reads (sharedListServers f cursor_of q flt).
Proof. apply reads_bind; [apply reads_read_transaction|intros; apply reads_ret]. Qed.
Lemma reads_ListServerVersions ctx opts : reads (ListServerVersions fuel s ctx opts).
Proof.
  unfold ListServerVersions. case_match; [apply reads_fail|]. apply reads_bind; [apply reads_lookup_gate|intros rid].
  apply reads_shared.
Qed.
Lemma reads_GetServerVersion ctx opts : reads (GetServerVersion fuel s ctx opts).
Proof.
  unfold GetServerVersion. case_match; [apply reads_fail|]. apply reads_bind; [apply reads_lookup_gate|intros rid].
  apply reads_bind; [apply reads_shared|]. intros [[|x [|y l]]|]; auto with registry.
Qed.
Lemma reads_version_packages {X R} {K : ArtifactKind X R} vid : reads (version_packages (K := K) vid).
Proof. apply reads_bind; [apply reads_select|intros oci]. apply reads_bind; [apply reads_select|intros; apply reads_ret]. Qed.
Lemma reads_GetArtifactVersion {X R} {K : ArtifactKind X R} ctx opts : reads (GetArtifactVersion (X := X) s ctx opts).
Proof.
  unfold GetArtifactVersion. do 3 (case_match; [apply reads_fail|]).
  apply reads_bind; [apply reads_lookup_gate|intros rid]. apply reads_bind; [apply reads_select|intros rows].
  case_match; [apply reads_fail|]. apply reads_bind; [apply reads_lift|intros [row|]; [|apply reads_fail]].
  apply reads_bind; [apply reads_version_packages|intros; apply reads_ret].
Qed.
Lemma reads_ListArtifacts {X R} {K : ArtifactKind X R} ctx opts : reads (ListArtifacts (X := X) fuel s ctx opts).
Proof.
  unfold ListArtifacts. case_match; [apply reads_fail|]. apply reads_bind; [apply reads_lookup_gate|intros rid].
  apply reads_bind; [apply reads_lift|intros start]. apply reads_bind; [apply reads_select|intros rows].
  destruct (streamArtifactRows _ _ _ _ _) as [[[page next]|e]|]; [|apply reads_fail|apply reads_ret].
  apply reads_bind; [|intros; apply reads_ret].
  apply reads_bind; [apply reads_select|intros oci]. apply reads_bind; [apply reads_select|intros; apply reads_ret].
Qed.
Lemma reads_GetEntryClaims ctx ty name jwt : reads (GetEntryClaims s ctx ty name jwt).
Proof.
  apply reads_bind; [apply reads_lift|intros et]. apply reads_bind; [apply reads_managed|intros src].
  apply reads_bind; [|intros row; apply reads_bind; [apply reads_lift|intros; apply reads_ret]].
  apply reads_bind; [apply reads_attempt, reads_select|]. intros [e|err]; [apply reads_ret|case_match; apply reads_fail].
Qed.

(** A call that validates and then runs a transaction. *)
Ltac guarded := repeat (apply atomic_reads_bind; [apply reads_lift|intros]);
  first [apply atomic_transaction|apply atomic_transaction_gen].

#[export] Instance db_service_laws : ServiceLaws db_service.
Proof.
  constructor; intros; cbn -[CreateSource UpdateSource CreateRegistry UpdateRegistry].
  - apply reads_wrapping, reads_select.
  - apply reads_with_options, reads_ListServers.
  - apply reads_with_options, reads_ListServerVersions.
  - apply reads_with_options. intros. apply reads_bind; [apply reads_GetServerVersion|intros; apply reads_ret].
  - apply reads_read_transaction.
  - apply reads_read_transaction.
  - apply reads_read_transaction.
  - apply reads_read_transaction.
  - apply reads_read_transaction.
  - apply reads_read_transaction.
  - apply reads_with_options. intros. apply reads_bind; [apply reads_ListArtifacts|intros; apply reads_ret].
  - apply reads_with_options, reads_GetArtifactVersion.
  - apply reads_with_options, reads_ListArtifacts.
  - apply reads_with_options, reads_GetArtifactVersion.
  - apply reads_with_options_wrapped. intros. apply reads_GetEntryClaims.
  - apply atomic_with_options_wrapped. intros. apply atomic_transaction.
  - unfold CreateSource. guarded.
  - unfold UpdateSource. guarded.
  - apply atomic_transaction.
  - unfold CreateRegistry. guarded.
  - unfold UpdateRegistry. guarded.
  - apply atomic_transaction.
  - apply atomic_with_options. intros. apply atomic_transaction.
  - apply atomic_with_options. intros. apply atomic_transaction.
  - apply atomic_with_options_wrapped. intros. unfold UpdateEntryClaims. guarded.
  - apply publishes_reads_bind; [apply reads_wrapping, reads_lift|intros]. apply publishes_server.
  - apply publishes_reads_bind; [apply reads_lift|intros]. apply publishes_artifact.
  - apply publishes_reads_bind; [apply reads_lift|intros]. apply publishes_artifact.
Qed.
End DbService.
