(* ===== verification/Api.v ===== *)
(** * The HTTP API

    [internal/api]: the parameter checks and response writers of [common], the
    handlers of [v1], [registry/v01], [x/skills] and [x/plugins] against the
    service interface, and the routers as the list of routes they register.

    A handler function takes a request and the database, with the number of
    database calls made so far, to a response and the database.  Matching a
    request against the routes is chi's; the JSON, YAML, time and quoting
    functions of the libraries are parameters.  A handler whose service call has
    run out of fuel has not answered: its status is 0. *)

From stdpp Require Import base list strings gmap.
From Stdlib Require Import String Ascii ZArith Lia.
From S2P Require Import Prelude GoStrings Validators Claims ConfigTypes Config Auth AuditLog Upstream Database.
From S2P Require Import Entries Streaming Artifacts ServerReads Options Sync Initialize Sources Registries Service.

Local Open Scope string_scope.
Local Open Scope list_scope.

(** ** [common/url.go] *)

Definition hex_digit (c : ascii) : option N :=
  let n := N_of_ascii c in
  if ((48 <=? n) && (n <=? 57))%N then Some (n - 48)%N
  else if ((97 <=? n) && (n <=? 102))%N then Some (n - 87)%N
  else if ((65 <=? n) && (n <=? 70))%N then Some (n - 55)%N
  else None.

(** [url.PathUnescape] *)
Fixpoint unescape (l : bytes) : option bytes :=
  match l with
  | [] => Some []
  | c :: l' =>
      if Ascii.eqb c "%" then
        match l' with
        | a :: b :: rest =>
            x ← hex_digit a; y ← hex_digit b; out ← unescape rest; Some (ascii_of_N (16 * x + y) :: out)
        | _ => None
        end
      else out ← unescape l'; Some (c :: out)
  end.
Definition PathUnescape (s : string) : option string := of_bytes <$> unescape (to_bytes s).

(** [strings.ContainsAny(s, chars)] for one-byte characters. *)
Definition ContainsAny (s : string) (chars : bytes) : bool :=
  existsb (fun c => existsb (Ascii.eqb c) chars) (to_bytes s).
Definition blanks : bytes := [" "%char; byte 9; byte 10; byte 13].

Definition GetAndValidateURLParam (r : Request) (paramName : string) : result string :=
  match PathUnescape (r_param r paramName) with
  | None => Err (EMsg "invalid URL encoding in %s")
  | Some decoded =>
      if String.eqb (TrimSpace decoded) "" then Err (EMsg "%s cannot be empty")
      else if ContainsAny decoded blanks then Err (EMsg "%s cannot contain whitespace")
      else Ok decoded
  end.

Definition GetAndValidateServerNameParam (r : Request) (paramName : string) : result string :=
  decoded <- GetAndValidateURLParam r paramName ;;
  match ServerName.ValidateServerName decoded with
  | Err e => Err (wrapf "invalid server name format" e)
  | Ok validName => Ok validName
  end.

(** [strconv.Atoi]: an optional sign and decimal digits, in the range of an int. *)
Fixpoint digits (acc : Z) (l : bytes) : option Z :=
  match l with
  | [] => Some acc
  | c :: l' =>
      let n := Z.of_N (N_of_ascii c) in
      if ((48 <=? n) && (n <=? 57))%Z then digits (10 * acc + (n - 48)) l' else None
  end.
Definition unsigned (l : bytes) : option Z := match l with [] => None | _ => digits 0 l end.
Definition Atoi (s : string) : option Z :=
  v ← match to_bytes s with
      | c :: l => if Ascii.eqb c "-" then Z.opp <$> unsigned l
                  else if Ascii.eqb c "+" then unsigned l else unsigned (c :: l)
      | [] => None
      end;
  if ((- 2 ^ 63 <=? v) && (v <? 2 ^ 63))%Z then Some v else None.

(** ** Bodies *)

Record ListMetadata := { md_Count : nat; md_NextCursor : string }.

Inductive Payload :=
| PSources (l : list SourceInfo) | PSource (s : SourceInfo) | PSourceEntries (l : list SourceEntryInfo)
| PRegistries (l : list RegistryInfo) | PRegistry (r : RegistryInfo) | PRegistryEntries (l : list RegistryEntryInfo)
| PPublishedServer (x : ServerJSON) | PPublishedSkill (x : SkillValue) | PPublishedPlugin (x : Artifact)
| PClaims (c : claims)
| PServer (x : ServerJSON) | PServerList (l : list ServerJSON) (m : ListMetadata)
| PSkill (x : Skill) | PSkillList (l : list Skill) (m : ListMetadata)
| PPlugin (x : Plugin) | PPluginList (l : list Plugin) (m : ListMetadata)
| PArchive (files : list (string * string))          (* a zip archive *)
| PDocument (doc : string)
| PStatus (status : string).                          (* HealthResponse, ReadinessResponse *)

(** [publishEntryRequest] *)
Record publishEntryRequest := {
  pe_Claims : option claims;
  pe_Server : option ServerJSON;
  pe_Skill : option SkillValue;
  pe_Plugin : option Artifact }.

(** [updateEntryClaimsRequest] *)
Record updateEntryClaimsRequest := { ue_Claims : option claims }.

(** The block at the top of a SKILL.md; empty fields after the first two are
    left out by the library. *)
Record frontmatter := {
  fm_Name : string; fm_Description : string; fm_Version : string; fm_Namespace : string;
  fm_License : string; fm_Compatibility : string; fm_AllowedTools : list string }.

(** The libraries: decoding of the request bodies and of RFC 3339 times, the
    encoders of the skill archive, [fmt]'s [%q], and the OpenAPI document. *)
Class ApiLib := {
  decode_source : Reader -> option SourceCreateRequest;
  decode_registry : Reader -> option RegistryCreateRequest;
  decode_publish : Reader -> option publishEntryRequest;
  decode_claims : Reader -> option updateEntryClaimsRequest;
  time_Parse : string -> option Z;
  time_IsZero : Z -> bool;
  yaml_Marshal : frontmatter -> option string;
  json_MarshalIndent : SkillValue -> option string;
  fmt_q : string -> string;
  ReadDoc : option string }.

Definition StatusCreated : Z := 201.
Definition StatusNoContent : Z := 204.
Definition StatusBadRequest : Z := 400.
Definition StatusNotFound : Z := 404.
Definition StatusConflict : Z := 409.
Definition StatusInternalServerError : Z := 500.
Definition StatusServiceUnavailable : Z := 503.

Definition WriteJSONResponse (data : Payload) (statusCode : Z) : Response Payload :=
  {| rs_status := statusCode; rs_headers := [json_header]; rs_body := BData data |}.
(** [w.WriteHeader(http.StatusNoContent)] *)
Definition no_content : Response Payload := {| rs_status := StatusNoContent; rs_headers := []; rs_body := BNone |}.
(** The service is still in its loop. *)
Definition running : Response Payload := {| rs_status := 0; rs_headers := []; rs_body := BNone |}.

(** [err.Error()]: the literal text. *)
Definition error_text (e : error) : string := match e with EWrap _ msg => msg | EMsg msg => msg end.

(** The database and the number of calls made to it. *)
Definition World : Type := nat * DB.
Definition HandlerFunc : Type := Request -> World -> Response Payload * World.

Section Handlers.
Context `{S : RegistryService} `{AL : ApiLib} (o : Oracle).

(** A service call, and what is made of its result. *)
Definition call {A} (m : Q A) (w : World) (k : result A -> World -> Response Payload * World) : Response Payload * World :=
  let '(r, n, d) := m o (fst w) (snd w) in k r (n, d).

Definition bad_request (e : error) : Response Payload := WriteErrorResponse (error_text e) StatusBadRequest.
Definition internal_error (msg : string) : Response Payload := WriteErrorResponse msg StatusInternalServerError.
Definition invalid_body : Response Payload := WriteErrorResponse "invalid request body: " StatusBadRequest.

(** [v, err := common.GetAndValidateURLParam(r, p); if err != nil { 400 }] *)
Definition with_param (r : Request) (p : string) (w : World) (k : string -> Response Payload * World)
    : Response Payload * World :=
  match GetAndValidateURLParam r p with Err e => (bad_request e, w) | Ok v => k v end.

(** [if jwtClaims := auth.ClaimsFromContext(ctx); jwtClaims != nil { append }] *)
Definition jwt {T} (r : Request) (opt : claims -> Option_ T) : list (Option_ T) :=
  match ClaimsFromContext (r_ctx r) with Some c => [opt c] | None => [] end.
(** [if v != "" { append }] *)
Definition unless_empty {T} (v : string) (opt : string -> Option_ T) : list (Option_ T) :=
  if String.eqb v "" then [] else [opt v].
(** [if v != nil { append }] *)
Definition when_set {A T} (v : option A) (opt : A -> Option_ T) : list (Option_ T) :=
  match v with Some a => [opt a] | None => [] end.

(** ** [v1/sources.go] *)

Definition writeSourceError (err : error) : Response Payload :=
  if errorIs err ErrClaimsInsufficient then WriteErrorResponse (error_text err) StatusForbidden
  else if errorIs err ErrSourceNotFound then WriteErrorResponse (error_text err) StatusNotFound
  else if errorIs err ErrConfigSource then WriteErrorResponse (error_text err) StatusForbidden
  else if errorIs err ErrInvalidSourceConfig then WriteErrorResponse (error_text err) StatusBadRequest
  else if errorIs err ErrSourceTypeChangeNotAllowed then WriteErrorResponse (error_text err) StatusBadRequest
  else if errorIs err ErrSourceInUse then WriteErrorResponse (error_text err) StatusConflict
  else if errorIs err ErrManagedSourceLimitReached then WriteErrorResponse (error_text err) StatusConflict
  else internal_error "internal server error".

Definition listSources : HandlerFunc := fun r w =>
  call (svc_ListSources (r_ctx r)) w (fun res w =>
    (match res with
     | Err _ => internal_error "failed to list sources"
     | Ok None => running
     | Ok (Some sources) => WriteJSONResponse (PSources sources) StatusOK
     end, w)).

Definition getSource : HandlerFunc := fun r w =>
  with_param r "name" w (fun name =>
  call (svc_GetSourceByName (r_ctx r) name) w (fun res w =>
    (match res with
     | Err err => writeSourceError err
     | Ok source => WriteJSONResponse (PSource source) StatusOK
     end, w))).

Definition upsertSource : HandlerFunc := fun r w =>
  with_param r "name" w (fun name =>
  match decode_source (r_body r) with
  | None => (invalid_body, w)
  | Some req =>
      call (svc_CreateSource (r_ctx r) name req) w (fun res w =>
        match res with
        | Ok source => (WriteJSONResponse (PSource source) StatusCreated, w)
        | Err err =>
            if errorIs err ErrSourceAlreadyExists then
              call (svc_UpdateSource (r_ctx r) name req) w (fun res w =>
                (match res with
                 | Err err => writeSourceError err
                 | Ok source => WriteJSONResponse (PSource source) StatusOK
                 end, w))
            else (writeSourceError err, w)
        end)
  end).

Definition deleteSource : HandlerFunc := fun r w =>
  with_param r "name" w (fun name =>
  call (svc_DeleteSource (r_ctx r) name) w (fun res w =>
    (match res with Err err => writeSourceError err | Ok _ => no_content end, w))).

Definition listSourceEntries : HandlerFunc := fun r w =>
  with_param r "name" w (fun name =>
  call (svc_ListSourceEntries (r_ctx r) name) w (fun res w =>
    (match res with
     | Err err => writeSourceError err
     | Ok entries => WriteJSONResponse (PSourceEntries entries) StatusOK
     end, w))).

(** ** [v1/registries.go] *)

Definition writeRegistryError (err : error) : Response Payload :=
  if errorIs err ErrClaimsInsufficient then WriteErrorResponse (error_text err) StatusForbidden
  else if errorIs err ErrRegistryNotFound then WriteErrorResponse (error_text err) StatusNotFound
  else if errorIs err ErrConfigRegistry then WriteErrorResponse (error_text err) StatusForbidden
  else if errorIs err ErrInvalidRegistryConfig then WriteErrorResponse (error_text err) StatusBadRequest
  else if errorIs err ErrRegistryAlreadyExists then WriteErrorResponse (error_text err) StatusConflict
  else if errorIs err ErrSourceNotFound then WriteErrorResponse (error_text err) StatusBadRequest
  else internal_error "internal server error".

Definition listRegistries : HandlerFunc := fun r w =>
  call (svc_ListRegistries (r_ctx r)) w (fun res w =>
    (match res with
     | Err _ => internal_error "failed to list registries"
     | Ok None => running
     | Ok (Some registries) => WriteJSONResponse (PRegistries registries) StatusOK
     end, w)).

Definition getRegistry : HandlerFunc := fun r w =>
  with_param r "name" w (fun name =>
  call (svc_GetRegistryByName (r_ctx r) name) w (fun res w =>
    (match res with
     | Err err => writeRegistryError err
     | Ok registry => WriteJSONResponse (PRegistry registry) StatusOK
     end, w))).

Definition upsertRegistry : HandlerFunc := fun r w =>
  with_param r "name" w (fun name =>
  match decode_registry (r_body r) with
  | None => (invalid_body, w)
  | Some req =>
      call (svc_CreateRegistry (r_ctx r) name req) w (fun res w =>
        match res with
        | Ok registry => (WriteJSONResponse (PRegistry registry) StatusCreated, w)
        | Err err =>
            if errorIs err ErrRegistryAlreadyExists then
              call (svc_UpdateRegistry (r_ctx r) name req) w (fun res w =>
                (match res with
                 | Err err => writeRegistryError err
                 | Ok registry => WriteJSONResponse (PRegistry registry) StatusOK
                 end, w))
            else (writeRegistryError err, w)
        end)
  end).

Definition deleteRegistry : HandlerFunc := fun r w =>
  with_param r "name" w (fun name =>
  call (svc_DeleteRegistry (r_ctx r) name) w (fun res w =>
    (match res with Err err => writeRegistryError err | Ok _ => no_content end, w))).

Definition listRegistryEntries : HandlerFunc := fun r w =>
  with_param r "name" w (fun name =>
  call (svc_ListRegistryEntries (r_ctx r) name) w (fun res w =>
    (match res with
     | Err err => writeRegistryError err
     | Ok entries => WriteJSONResponse (PRegistryEntries entries) StatusOK
     end, w))).


(** ** [v1/entries.go] *)

Definition writePublishError (err : error) : Response Payload :=
  if errorIs err ErrInvalidServerName then WriteErrorResponse (error_text err) StatusBadRequest
  else if errorIs err ErrClaimsInsufficient then WriteErrorResponse (error_text err) StatusForbidden
  else if errorIs err ErrVersionAlreadyExists then WriteErrorResponse (error_text err) StatusConflict
  else if errorIs err ErrClaimsMismatch then WriteErrorResponse (error_text err) StatusConflict
  else if errorIs err ErrNoManagedSource then internal_error "no managed source available for publishing"
  else internal_error "failed to publish entry".

Definition publish_response {A} (payload : A -> Payload) (res : result A) (w : World) : Response Payload * World :=
  (match res with Err err => writePublishError err | Ok x => WriteJSONResponse (payload x) StatusCreated end, w).

Definition publishEntry (authzEnabled : bool) : HandlerFunc := fun r w =>
  match decode_publish (r_body r) with
  | None => (invalid_body, w)
  | Some req =>
      let hasServer := bool_decide (is_Some (pe_Server req)) in
      let hasSkill := bool_decide (is_Some (pe_Skill req)) in
      let hasPlugin := bool_decide (is_Some (pe_Plugin req)) in
      let one_of := WriteErrorResponse "exactly one of 'server', 'skill', or 'plugin' must be provided" StatusBadRequest in
      if negb hasServer && negb hasSkill && negb hasPlugin then (one_of, w)
      else if (hasServer && hasSkill) || (hasServer && hasPlugin) || (hasSkill && hasPlugin) then (one_of, w)
      else if authzEnabled && (size (claims_or_empty (pe_Claims req)) =? 0)%nat
      then (WriteErrorResponse "claims are required when authorization is enabled" StatusBadRequest, w)
      else
        match pe_Server req, pe_Skill req, pe_Plugin req with
        | Some server, _, _ =>
            call (svc_PublishServerVersion (r_ctx r)
                    ([WithServerData (Some server)] ++ jwt r WithJWTClaims ++ when_set (pe_Claims req) WithClaims))
              w (publish_response PPublishedServer)
        | None, Some skill, _ =>
            call (svc_PublishSkill (r_ctx r) skill (jwt r WithJWTClaims ++ when_set (pe_Claims req) WithClaims))
              w (publish_response PPublishedSkill)
        | None, None, Some plugin =>
            call (svc_PublishPlugin (r_ctx r) plugin (jwt r WithJWTClaims ++ when_set (pe_Claims req) WithClaims))
              w (publish_response PPublishedPlugin)
        | None, None, None => ({| rs_status := StatusOK; rs_headers := []; rs_body := BNone |}, w)
        end
  end.

(** The chain of [errors.Is] after a deletion; the message names the purpose. *)
Definition writeDeleteError (err : error) : Response Payload :=
  if errorIs err ErrClaimsInsufficient then WriteErrorResponse (error_text err) StatusForbidden
  else if errorIs err ErrNotFound then WriteErrorResponse (error_text err) StatusNotFound
  else if errorIs err ErrNoManagedSource then internal_error "no managed source available for deletion"
  else internal_error "failed to delete entry".

Definition delete_response (res : result ()) (w : World) : Response Payload * World :=
  (match res with Err err => writeDeleteError err | Ok _ => no_content end, w).

Definition deletePublishedEntry : HandlerFunc := fun r w =>
  with_param r "type" w (fun entryType =>
  with_param r "name" w (fun name =>
  with_param r "version" w (fun version =>
  if String.eqb entryType "server" then
    call (svc_DeleteServerVersion (r_ctx r) ([WithName name; WithVersion version] ++ jwt r WithJWTClaims)) w delete_response
  else if String.eqb entryType "skill" then
    call (svc_DeleteSkillVersion (r_ctx r) ([WithName name; WithVersion version] ++ jwt r WithJWTClaims)) w delete_response
  else if String.eqb entryType "plugin" then
    call (svc_DeletePluginVersion (r_ctx r) ([WithName name; WithVersion version] ++ jwt r WithJWTClaims)) w delete_response
  else (WriteErrorResponse "unsupported entry type: must be 'server', 'skill', or 'plugin'" StatusBadRequest, w)))).

Definition writeClaimsError (no_source failed : string) (err : error) : Response Payload :=
  if errorIs err ErrInvalidEntryType then WriteErrorResponse (error_text err) StatusBadRequest
  else if errorIs err ErrClaimsInsufficient then WriteErrorResponse (error_text err) StatusForbidden
  else if errorIs err ErrNotFound then WriteErrorResponse (error_text err) StatusNotFound
  else if errorIs err ErrNoManagedSource then internal_error no_source
  else internal_error failed.

Definition getEntryClaims : HandlerFunc := fun r w =>
  with_param r "type" w (fun entryType =>
  with_param r "name" w (fun name =>
  call (svc_GetEntryClaims (r_ctx r) ([WithEntryType entryType; WithName name] ++ jwt r WithJWTClaims)) w (fun res w =>
    (match res with
     | Err err => writeClaimsError "no managed source available" "failed to get entry claims" err
     | Ok cs => WriteJSONResponse (PClaims cs) StatusOK
     end, w)))).

Definition updateEntryClaims : HandlerFunc := fun r w =>
  with_param r "type" w (fun entryType =>
  with_param r "name" w (fun name =>
  match decode_claims (r_body r) with
  | None => (invalid_body, w)
  | Some req =>
      call (svc_UpdateEntryClaims (r_ctx r)
              ([WithEntryType entryType; WithName name] ++ when_set (ue_Claims req) WithClaims ++ jwt r WithJWTClaims)) w
        (fun res w =>
          (match res with
           | Err err => writeClaimsError "no managed source available for updating claims" "failed to update entry claims" err
           | Ok _ => no_content
           end, w))
  end)).

(** ** [registry/v01/routes.go] *)

Definition writeServiceError (err : error) : Response Payload :=
  if errorIs err ErrClaimsInsufficient
  then WriteErrorResponse "forbidden: insufficient claims for registry" StatusForbidden
  else if errorIs err ErrRegistryNotFound then WriteErrorResponse "registry not found" StatusNotFound
  else if errorIs err ErrNotFound then WriteErrorResponse "not found" StatusNotFound
  else internal_error "internal server error".

Definition handleListServers (registryName : string) : HandlerFunc := fun r w =>
  let q := r_query r in
  let limit := q "limit" in
  match (if String.eqb limit "" then Some None else Some <$> Atoi limit) with
  | None => (WriteErrorResponse "Invalid limit parameter: must be an integer" StatusBadRequest, w)
  | Some limit =>
      let since := q "updated_since" in
      match (if String.eqb since "" then Some None else Some <$> time_Parse since) with
      | None => (WriteErrorResponse "Invalid updated_since parameter: must be RFC3339 format (e.g., 2025-08-07T13:15:04.280Z)"
                   StatusBadRequest, w)
      | Some updatedSince =>
          let opts := unless_empty (q "cursor") WithCursor ++ when_set limit WithLimit ++
                      unless_empty (q "search") WithSearch ++ when_set updatedSince (WithUpdatedSince time_IsZero) ++
                      unless_empty (q "version") WithVersion ++ unless_empty registryName WithRegistryName ++
                      jwt r WithClaims in
          call (svc_ListServers (r_ctx r) opts) w (fun res w =>
            (match res with
             | Err err => writeServiceError err
             | Ok None => running
             | Ok (Some (servers, nextCursor)) =>
                 WriteJSONResponse (PServerList servers {| md_Count := List.length servers; md_NextCursor := nextCursor |}) StatusOK
             end, w))
      end
  end.

Definition listServersWithRegistryName : HandlerFunc := fun r w =>
  with_param r "registryName" w (fun registryName => handleListServers registryName r w).

Definition with_server_name (r : Request) (w : World) (k : string -> Response Payload * World) : Response Payload * World :=
  match GetAndValidateServerNameParam r "serverName" with Err e => (bad_request e, w) | Ok v => k v end.

Definition handleListVersions (registryName : string) : HandlerFunc := fun r w =>
  with_server_name r w (fun serverName =>
  let opts := [WithLimit 1000] ++ unless_empty registryName WithRegistryName ++ unless_empty serverName WithName ++
              jwt r WithClaims in
  call (svc_ListServerVersions (r_ctx r) opts) w (fun res w =>
    (match res with
     | Err err => writeServiceError err
     | Ok None => running
     | Ok (Some versions) =>
         WriteJSONResponse (PServerList versions {| md_Count := List.length versions; md_NextCursor := "" |}) StatusOK
     end, w))).

Definition listVersionsWithRegistryName : HandlerFunc := fun r w =>
  with_param r "registryName" w (fun registryName => handleListVersions registryName r w).

Definition handleGetVersion (registryName : string) : HandlerFunc := fun r w =>
  with_server_name r w (fun serverName =>
  with_param r "version" w (fun version =>
  let opts := unless_empty registryName WithRegistryName ++ unless_empty serverName WithName ++
              unless_empty version WithVersion ++ jwt r WithClaims in
  call (svc_GetServerVersion (r_ctx r) opts) w (fun res w =>
    (match res with
     | Err err => writeServiceError err
     | Ok None => running
     | Ok (Some None) => internal_error "internal server error"
     | Ok (Some (Some server)) => WriteJSONResponse (PServer server) StatusOK
     end, w)))).

Definition getVersionWithRegistryName : HandlerFunc := fun r w =>
  with_param r "registryName" w (fun registryName => handleGetVersion registryName r w).


(** ** [x/skills/routes.go], [x/plugins/routes.go]

    The two packages have the same handlers over their own service calls and
    response types; the first part is what they share. *)

Definition defaultListLimit : Z := 50.
Definition maxListLimit : Z := 100.

Record ListQuery := { lq_Search : string; lq_Status : string; lq_Limit : Z; lq_Cursor : string }.

Definition parseListQuery (r : Request) : result ListQuery :=
  let q := r_query r in
  let query limit := {| lq_Search := TrimSpace (q "search"); lq_Status := TrimSpace (q "status"); lq_Limit := limit;
                        lq_Cursor := TrimSpace (q "cursor") |} in
  if String.eqb (q "limit") "" then Ok (query defaultListLimit)
  else
    match Atoi (q "limit") with
    | None => Err (EMsg "invalid limit parameter: must be an integer")
    | Some limit =>
        if ((limit <? 1) || (maxListLimit <? limit))%Z
        then Err (EMsg "invalid limit parameter: must be between 1 and %d")
        else Ok (query limit)
    end.

Definition writeArtifactError (err : error) : Response Payload :=
  if errorIs err ErrClaimsInsufficient
  then WriteErrorResponse "forbidden: insufficient claims for registry" StatusForbidden
  else if errorIs err ErrNotFound then WriteErrorResponse "not found" StatusNotFound
  else if errorIs err ErrRegistryNotFound then WriteErrorResponse "registry not found" StatusNotFound
  else internal_error "internal server error".

(** The common fields, the repository, icons and packages copied one by one. *)
Definition artifact_item (a : Artifact) : Item :=
  {| it_Namespace := a_Namespace a; it_Name := a_Name a; it_Version := a_Version a; it_Title := a_Title a;
     it_Description := a_Description a; it_Status := a_Status a; it_License := a_License a;
     it_Repository := (fun p => {| ap_URL := ap_URL p; ap_Type := ap_Type p |}) <$> a_Repository a;
     it_Icons := (fun i => {| ai_Src := ai_Src i; ai_Size := ai_Size i; ai_Type := ai_Type i; ai_Label := ai_Label i |}) <$> a_Icons a;
     it_Packages := (fun p => {| pg_RegistryType := pg_RegistryType p; pg_Identifier := pg_Identifier p;
                                 pg_Digest := pg_Digest p; pg_MediaType := pg_MediaType p; pg_URL := pg_URL p;
                                 pg_Ref := pg_Ref p; pg_Commit := pg_Commit p; pg_Subfolder := pg_Subfolder p |}) <$> a_Packages a;
     it_Metadata := a_Metadata a; it_Meta := a_Meta a |}.

Definition serviceSkillToResponse (s : SkillValue) : Skill :=
  {| sk_item := artifact_item (s_common s); sk_Compatibility := s_Compatibility s; sk_AllowedTools := s_AllowedTools s |}.
Definition serviceSkillsToResponse (skills : list SkillValue) : list Skill := serviceSkillToResponse <$> skills.
Definition servicePluginToResponse (p : Artifact) : Plugin := {| pl_item := artifact_item p |}.
Definition servicePluginsToResponse (plugins : list Artifact) : list Plugin := servicePluginToResponse <$> plugins.

Section Extension.
Context {X : Type} (svc_List : Ctx -> list (Option_ ListArtifactOptions) -> Q (option (list X * string))).
Context (svc_Get : Ctx -> list (Option_ GetArtifactOptions) -> Q X).
Context (one : X -> Payload) (many : list X -> ListMetadata -> Payload).

Definition list_response (res : result (option (list X * string))) (w : World) : Response Payload * World :=
  (match res with
   | Err err => writeArtifactError err
   | Ok None => running
   | Ok (Some (xs, nextCursor)) =>
       WriteJSONResponse (many xs {| md_Count := List.length xs; md_NextCursor := nextCursor |}) StatusOK
   end, w).

(** [listSkills], [listPlugins]; only the first passes the status on. *)
Definition listArtifacts (status : bool) : HandlerFunc := fun r w =>
  with_param r "registryName" w (fun registryName =>
  match parseListQuery r with
  | Err e => (bad_request e, w)
  | Ok query =>
      let opts := [WithRegistryName registryName; WithLimit (lq_Limit query)] ++
                  unless_empty (lq_Search query) WithSearch ++ unless_empty (lq_Cursor query) WithCursor ++
                  (if status then unless_empty (lq_Status query) WithStatus else []) ++ jwt r WithClaims in
      call (svc_List (r_ctx r) opts) w list_response
  end).

Definition with_names (r : Request) (w : World) (k : string -> string -> string -> Response Payload * World)
    : Response Payload * World :=
  with_param r "registryName" w (fun registryName =>
  with_param r "namespace" w (fun namespace =>
  with_param r "name" w (fun name => k registryName namespace name))).

Definition get_options (r : Request) (registryName namespace name version : string) : list (Option_ GetArtifactOptions) :=
  [WithRegistryName registryName; WithNamespace namespace; WithName name; WithVersion version] ++ jwt r WithClaims.

Definition get_response (res : result X) (w : World) : Response Payload * World :=
  (match res with Err err => writeArtifactError err | Ok x => WriteJSONResponse (one x) StatusOK end, w).

Definition getLatestVersion : HandlerFunc := fun r w =>
  with_names r w (fun registryName namespace name =>
  call (svc_Get (r_ctx r) (get_options r registryName namespace name "latest")) w get_response).

Definition listVersions : HandlerFunc := fun r w =>
  with_names r w (fun registryName namespace name =>
  call (svc_List (r_ctx r) ([WithRegistryName registryName; WithNamespace namespace; WithName name] ++ jwt r WithClaims)) w
    list_response).

Definition getVersion : HandlerFunc := fun r w =>
  with_names r w (fun registryName namespace name =>
  with_param r "version" w (fun version =>
  call (svc_Get (r_ctx r) (get_options r registryName namespace name version)) w get_response)).
End Extension.

(** ** [x/skills/download.go] *)

Definition renderSkillMarkdown (skill : SkillValue) : option string :=
  let a := s_common skill in
  yamlFm ← yaml_Marshal {| fm_Name := a_Name a; fm_Description := a_Description a; fm_Version := a_Version a;
                           fm_Namespace := a_Namespace a; fm_License := a_License a;
                           fm_Compatibility := s_Compatibility skill; fm_AllowedTools := s_AllowedTools skill |};
  let nl := String (byte 10) "" in
  Some ("---" +:+ nl +:+ yamlFm +:+ "---" +:+ nl +:+ nl +:+
        (if String.eqb (a_Description a) "" then "" else a_Description a +:+ nl)).

(** The archive, as its entries; writing one into a buffer does not fail. *)
Definition buildSkillZip (skill : SkillValue) : option (list (string * string)) :=
  skillMd ← renderSkillMarkdown skill;
  manifest ← json_MarshalIndent skill;
  Some [("SKILL.md", skillMd); ("manifest.json", manifest)].

Definition zip_response (skill : SkillValue) (files : list (string * string)) : Response Payload :=
  let filename := a_Name (s_common skill) +:+ "-" +:+ a_Version (s_common skill) +:+ ".zip" in
  {| rs_status := StatusOK;
     rs_headers := [("Content-Type", "application/zip"); ("Content-Disposition", "attachment; filename=" +:+ fmt_q filename)];
     rs_body := BData (PArchive files) |}.

Definition downloadSkill (version : string) : HandlerFunc := fun r w =>
  with_names r w (fun registryName namespace name =>
  call (svc_GetSkillVersion (r_ctx r) (get_options r registryName namespace name version)) w (fun res w =>
    (match res with
     | Err err => writeArtifactError err
     | Ok skill =>
         match buildSkillZip skill with
         | None => internal_error "internal server error"
         | Some files => zip_response skill files
         end
     end, w))).

Definition downloadLatestSkill : HandlerFunc := downloadSkill "latest".
Definition downloadSkillVersion : HandlerFunc := fun r w => downloadSkill (r_param r "version") r w.


(** ** [server.go]: the other handlers *)

Definition openAPIHandler : HandlerFunc := fun _ w =>
  (match ReadDoc with
   | None => WriteErrorResponse "failed to read OpenAPI specification" StatusInternalServerError
   | Some doc => WriteJSONResponse (PDocument doc) StatusOK
   end, w).

Definition healthHandler : HandlerFunc := fun _ w => (WriteJSONResponse (PStatus "healthy") StatusOK, w).

Definition readinessHandler : HandlerFunc := fun r w =>
  call svc_CheckReadiness w (fun res w =>
    (match res with
     | Err _ => WriteErrorResponse "service not ready" StatusServiceUnavailable
     | Ok _ => WriteJSONResponse (PStatus "ready") StatusOK
     end, w)).

(** [auth.newProtectedResourceHandler]; the metadata are strings, which JSON
    always encodes. *)
Definition newProtectedResourceHandler (resourceURL : string) (authorizationServers : list string) : result HandlerFunc :=
  if (List.length authorizationServers =? 0)%nat then Err (EMsg "at least one authorization server is required")
  else Ok (fun _ w =>
    ({| rs_status := StatusOK; rs_headers := [json_header];
        rs_body := BMetadata resourceURL authorizationServers ["header"] |}, w)).

(** ** Routers *)

(** A registered route; no method stands for all of them. *)
Record Route := {
  rt_method : option string;
  rt_pattern : string;
  rt_handler : Handler Payload (Audit World) }.

(** A handler function neither looks at the identity holder nor at the log. *)
Definition serve (k : HandlerFunc) : Handler Payload (Audit World) :=
  unaware (fun r h => let '(resp, w) := k r (snd h) in (resp, (fst h, w))).

Definition route (method : string) (pattern : string) (h : Handler Payload (Audit World)) : Route :=
  {| rt_method := Some method; rt_pattern := pattern; rt_handler := h |}.
Definition Get := route "GET".
Definition Put := route "PUT".
Definition Post := route "POST".
Definition Delete := route "DELETE".
Definition Handle (pattern : string) (h : Handler Payload (Audit World)) : Route :=
  {| rt_method := None; rt_pattern := pattern; rt_handler := h |}.

(** [r.Group] with one [r.Use]: the middleware goes around every handler. *)
Definition Group (mw : Handler Payload (Audit World) -> Handler Payload (Audit World)) (routes : list Route) : list Route :=
  (fun rt => {| rt_method := rt_method rt; rt_pattern := rt_pattern rt; rt_handler := mw (rt_handler rt) |}) <$> routes.
Definition Mount (prefix : string) (routes : list Route) : list Route :=
  (fun rt => {| rt_method := rt_method rt; rt_pattern := prefix +:+ rt_pattern rt; rt_handler := rt_handler rt |}) <$> routes.

(** *** [v1.Router] *)
Definition v1_Router (authCfg : option AuthConfig) : list Route :=
  let authzCfg := match authCfg with Some c => ac_Authz c | None => None end in
  let authzEnabled := bool_decide (is_Some authzCfg) in
  [Get "/me" (Audited EventUserInfo ResourceTypeUser "" getMe)] ++
  Group (RequireRole RoleManageSources authzCfg) [
    Get "/sources" (Audited EventSourceList ResourceTypeSource "" (serve listSources));
    Get "/sources/{name}" (Audited EventSourceRead ResourceTypeSource "name" (serve getSource));
    Put "/sources/{name}" (AuditedUpsert EventSourceCreate EventSourceUpdate ResourceTypeSource "name" (serve upsertSource));
    Delete "/sources/{name}" (Audited EventSourceDelete ResourceTypeSource "name" (serve deleteSource));
    Get "/sources/{name}/entries" (Audited EventSourceEntriesList ResourceTypeSource "name" (serve listSourceEntries))] ++
  [Get "/registries" (Audited EventRegistryList ResourceTypeRegistry "" (serve listRegistries));
   Get "/registries/{name}" (Audited EventRegistryRead ResourceTypeRegistry "name" (serve getRegistry))] ++
  Group (RequireRole RoleManageRegistries authzCfg) [
    Get "/registries/{name}/entries" (Audited EventRegistryEntriesList ResourceTypeRegistry "name" (serve listRegistryEntries));
    Put "/registries/{name}"
      (AuditedUpsert EventRegistryCreate EventRegistryUpdate ResourceTypeRegistry "name" (serve upsertRegistry));
    Delete "/registries/{name}" (Audited EventRegistryDelete ResourceTypeRegistry "name" (serve deleteRegistry))] ++
  Group (RequireRole RoleManageEntries authzCfg) [
    Post "/entries" (Audited EventEntryPublish ResourceTypeEntry "" (serve (publishEntry authzEnabled)));
    Delete "/entries/{type}/{name}/versions/{version}" (AuditedEntry EventEntryDelete (serve deletePublishedEntry));
    Get "/entries/{type}/{name}/claims" (AuditedEntry EventEntryClaimsRead (serve getEntryClaims));
    Put "/entries/{type}/{name}/claims" (AuditedEntry EventEntryClaims (serve updateEntryClaims))].

(** *** The routers of [registry/v01], [x/skills] and [x/plugins] *)

Definition registryRouter : list Route := [
  Get "/servers" (AuditedServer EventServerList (serve listServersWithRegistryName));
  Get "/servers/{serverName}/versions" (AuditedServer EventServerVersionsList (serve listVersionsWithRegistryName));
  Get "/servers/{serverName}/versions/{version}" (AuditedServer EventServerVersionRead (serve getVersionWithRegistryName))].

Definition skill_list (skills : list SkillValue) (m : ListMetadata) : Payload := PSkillList (serviceSkillsToResponse skills) m.
Definition skill_one (skill : SkillValue) : Payload := PSkill (serviceSkillToResponse skill).
Definition plugin_list (plugins : list Artifact) (m : ListMetadata) : Payload := PPluginList (servicePluginsToResponse plugins) m.
Definition plugin_one (plugin : Artifact) : Payload := PPlugin (servicePluginToResponse plugin).

Definition skills_Router : list Route := [
  Get "/" (AuditedSkill EventSkillList (serve (listArtifacts svc_ListSkills skill_list true)));
  Get "/{namespace}/{name}" (AuditedSkill EventSkillRead (serve (getLatestVersion svc_GetSkillVersion skill_one)));
  Get "/{namespace}/{name}/versions" (AuditedSkill EventSkillVersionsList (serve (listVersions svc_ListSkills skill_list)));
  Get "/{namespace}/{name}/versions/{version}"
    (AuditedSkill EventSkillVersionRead (serve (getVersion svc_GetSkillVersion skill_one)));
  Get "/{namespace}/{name}/download" (serve downloadLatestSkill);
  Get "/{namespace}/{name}/versions/{version}/download" (serve downloadSkillVersion)].

(** The handlers of [x/plugins/routes.go]. *)
Definition listPlugins : HandlerFunc := listArtifacts svc_ListPlugins plugin_list false.
Definition plugins_getLatestVersion : HandlerFunc := getLatestVersion svc_GetPluginVersion plugin_one.
Definition plugins_listVersions : HandlerFunc := listVersions svc_ListPlugins plugin_list.
Definition plugins_getVersion : HandlerFunc := getVersion svc_GetPluginVersion plugin_one.

Definition plugins_Router : list Route := [
  Get "/" (AuditedPlugin EventPluginList (serve listPlugins));
  Get "/{namespace}/{name}" (AuditedPlugin EventPluginRead (serve plugins_getLatestVersion));
  Get "/{namespace}/{name}/versions" (AuditedPlugin EventPluginVersionsList (serve plugins_listVersions));
  Get "/{namespace}/{name}/versions/{version}" (AuditedPlugin EventPluginVersionRead (serve plugins_getVersion))].

Definition v01_Router : list Route :=
  Mount "/{registryName}/v0.1" registryRouter ++
  Mount "/{registryName}/v0.1/x/dev.toolhive/skills" skills_Router ++
  Mount "/{registryName}/v0.1/x/dev.toolhive/plugins" plugins_Router.

(** [NewServer] without its middlewares, and [NewInternalServer] without the
    metrics and version routes. *)
Definition server_routes (authInfoHandler : option HandlerFunc) (authCfg : option AuthConfig) : list Route :=
  [Get "/openapi.json" (serve openAPIHandler)] ++
  (match authInfoHandler with
   | Some k => [Handle "/.well-known/oauth-protected-resource" (serve k)]
   | None => []
   end) ++
  Mount "/registry" v01_Router ++
  Mount "/v1" (v1_Router authCfg).

Definition internal_routes : list Route := [Get "/health" (serve healthHandler); Get "/readiness" (serve readinessHandler)].

(** What the router makes of a method and a path: the route and the parameters it
    captures, no route for the path, or none for the method. *)
Inductive Match :=
| Found (i : nat) (ps : string -> string)
| NoRoute
| WrongMethod (methodsAllowed : list string).
Class Chi := { chi_find : list (option string * string) -> string -> string -> Match }.

(** The path chi goes by. *)
Definition route_path (r : Request) : string :=
  let p := if String.eqb (r_rawPath r) "" then r_path r else r_rawPath r in
  if String.eqb p "" then "/" else p.

(** chi's default handlers: [http.NotFound], and a 405 with nothing but the
    [Allow] headers. *)
Definition http_NotFound : Response Payload :=
  {| rs_status := StatusNotFound;
     rs_headers := [("Content-Type", "text/plain; charset=utf-8"); ("X-Content-Type-Options", "nosniff")];
     rs_body := BText ("404 page not found" +:+ String (byte 10) "") |}.
Definition methodNotAllowed (methodsAllowed : list string) : Response Payload :=
  {| rs_status := 405; rs_headers := (fun m => ("Allow", m)) <$> methodsAllowed; rs_body := BNone |}.

Definition set_params (r : Request) (ps : string -> string) : Request :=
  {| r_method := r_method r; r_path := r_path r; r_rawPath := r_rawPath r; r_authorization := r_authorization r; r_param := ps;
     r_query := r_query r; r_header := r_header r; r_remote := r_remote r; r_body := r_body r; r_ctx := r_ctx r |}.

Definition mux `{Chi} (routes : list Route) : Handler Payload (Audit World) := fun r h =>
  match chi_find ((fun rt => (rt_method rt, rt_pattern rt)) <$> routes) (r_method r) (route_path r) with
  | Found i ps =>
      match routes !! i with
      | Some rt => rt_handler rt (set_params r ps) h
      | None => (http_NotFound, h)
      end
  | NoRoute => (http_NotFound, h)
  | WrongMethod methodsAllowed => (methodNotAllowed methodsAllowed, h)
  end.
End Handlers.
