(* ===== verification/ApiCorrect.v ===== *)
(** * What the handlers promise

    Against the service interface: the shape of every answer, which handlers may
    change the database, and that a refusal leaves it alone; every registered
    route is such a handler behind its role check and its audit annotation. *)

From stdpp Require Import base list strings gmap.
From Stdlib Require Import String Ascii ZArith Lia.
From S2P Require Import Prelude GoStrings Validators Claims Codec Versions ConfigTypes Config Auth AuditLog ClaimsGate Upstream Database.
From S2P Require Import Entries Streaming Artifacts ServerReads Options Sync Initialize Sources Registries Service Api.

Local Open Scope string_scope.
Local Open Scope list_scope.

(** ** URL parameters *)

Lemma contains_blank s : ContainsAny s blanks = false <-> Forall (fun c => c ∉ blanks) (to_bytes s).
Proof.
  unfold ContainsAny. rewrite <-not_true_iff_false, existsb_true_iff, Forall_forall. split.
  - intros H c Hc Hb. apply H. exists c. split; [done|]. apply existsb_true_iff. exists c. by rewrite Ascii.eqb_refl.
  - intros H (c & Hc & Hb). apply existsb_true_iff in Hb as (b & Hb & ->%Ascii.eqb_eq). by eapply H.
Qed.

(** A parameter is accepted exactly when it decodes to a text that is not blank
    and has no blank in it, and then that text is the value. *)
Lemma GetAndValidateURLParam_iff r p v : GetAndValidateURLParam r p = Ok v <->
  PathUnescape (r_param r p) = Some v /\ TrimSpace v <> "" /\ Forall (fun c => c ∉ blanks) (to_bytes v).
Proof.
  unfold GetAndValidateURLParam. rewrite <-contains_blank. destruct (PathUnescape (r_param r p)) as [s|].
  2:{ split; [done|]. by intros (? & _). }
  destruct (String.eqb_spec (TrimSpace s) "").
  { split; [done|]. intros (? & ? & _). by simplify_eq. }
  destruct (ContainsAny s blanks) eqn:E.
  - split; [done|]. intros (? & _ & ?). simplify_eq. congruence.
  - split; [intros; by simplify_eq|]. intros (? & _). by simplify_eq.
Qed.

Lemma trim_nothing : TrimSpace "" = "".
Proof. by vm_compute. Qed.
Lemma param_not_empty r p v : GetAndValidateURLParam r p = Ok v -> v <> "".
Proof. intros (_ & H & _)%GetAndValidateURLParam_iff ->. by apply H. Qed.

(** Every byte may be sent percent-encoded. *)
Definition hex_char (n : N) : ascii := ascii_of_N (if (n <? 10)%N then 48 + n else 55 + n).
Definition escape_all (l : bytes) : bytes :=
  l ≫= fun c => let n := N_of_ascii c in ["%"%char; hex_char (n / 16); hex_char (n mod 16)].
Lemma hex_char_digit c : hex_digit (hex_char (N_of_ascii c / 16)) = Some (N_of_ascii c / 16)%N /\
  hex_digit (hex_char (N_of_ascii c mod 16)) = Some (N_of_ascii c mod 16)%N.
Proof. destruct c as [[] [] [] [] [] [] [] []]; by vm_compute. Qed.
Lemma unescape_escape_all l : unescape (escape_all l) = Some l.
Proof.
  induction l as [|c l IH]; [done|]. unfold escape_all in *. cbn [mbind list_bind app unescape].
  change (Ascii.eqb "%" "%") with true. cbv iota. destruct (hex_char_digit c) as [-> ->]. cbn. rewrite IH. cbn.
  rewrite <-N.div_mod, ascii_N_embedding by done. done.
Qed.

(** ** The contract of a handler *)

(** [Discards] writes and answers with nothing. *)
Inductive effect := Reads | Writes | Discards | Publishes.

(** Success has a body of the API or, for a deletion or an update of claims, none;
    everything else is a message in an [error] object. *)
Definition well_typed (e : effect) (resp : Response Payload) : Prop :=
  match rs_body resp with
  | BError _ => rs_status resp ∈ [400; 403; 404; 409; 500; 503]%Z
  | BText _ => False
  | BNone => rs_status resp ∈ match e with Discards => [204; 0] | _ => [0] end%Z
  | _ => rs_status resp ∈ [200; 201]%Z
  end.

Definition success (resp : Response Payload) : bool := ((200 <=? rs_status resp) && (rs_status resp <? 300))%Z.

Definition allowed (e : effect) (resp : Response Payload) (d d' : DB) : Prop :=
  match e with
  | Reads => d' = d
  | Writes | Discards => success resp = true \/ d' = d
  | Publishes => success resp = true \/ rs_status resp = StatusInternalServerError \/ d' = d
  end.

Definition keeps (e : effect) (w : World) (out : Response Payload * World) : Prop :=
  well_typed e (fst out) /\ allowed e (fst out) (snd w) (snd (snd out)).
Definition honours (e : effect) (k : HandlerFunc) : Prop := forall r w, keeps e w (k r w).

(** [getMe] of a caller without claims. *)
Definition turned_away (r : Request) (w : World) (out : Response Payload * World) : Prop :=
  ClaimsFromContext (r_ctx r) = None /\ rs_status (fst out) = StatusUnauthorized /\
  (exists msg, rs_body (fst out) = BError msg) /\ snd out = w.

Lemma allowed_same e resp d : allowed e resp d d.
Proof. destruct e; cbn; auto. Qed.
Lemma keeps_answer e w resp : well_typed e resp -> keeps e w (resp, w).
Proof. split; [done|apply allowed_same]. Qed.

(** One of a list of statuses. *)
Ltac status := apply (bool_decide_unpack _); by vm_compute.
Ltac typed_error := unfold well_typed; cbn; status.

Lemma typed_bad_request x e : well_typed x (bad_request e).
Proof. typed_error. Qed.
Lemma typed_internal x msg : well_typed x (internal_error msg).
Proof. typed_error. Qed.
Lemma typed_invalid_body x : well_typed x invalid_body.
Proof. typed_error. Qed.
Lemma typed_source_error x e : well_typed x (writeSourceError e).
Proof. unfold writeSourceError. repeat case_match; typed_error. Qed.
Lemma typed_registry_error x e : well_typed x (writeRegistryError e).
Proof. unfold writeRegistryError. repeat case_match; typed_error. Qed.
Lemma typed_publish_error x e : well_typed x (writePublishError e).
Proof. unfold writePublishError. repeat case_match; typed_error. Qed.
Lemma typed_delete_error x e : well_typed x (writeDeleteError e).
Proof. unfold writeDeleteError. repeat case_match; typed_error. Qed.
Lemma typed_claims_error x a b e : well_typed x (writeClaimsError a b e).
Proof. unfold writeClaimsError. repeat case_match; typed_error. Qed.
Lemma typed_service_error x e : well_typed x (writeServiceError e).
Proof. unfold writeServiceError. repeat case_match; typed_error. Qed.
Lemma typed_artifact_error x e : well_typed x (writeArtifactError e).
Proof. unfold writeArtifactError. repeat case_match; typed_error. Qed.
Lemma typed_ok x p : well_typed x (WriteJSONResponse p StatusOK).
Proof. typed_error. Qed.
Lemma typed_created x p : well_typed x (WriteJSONResponse p StatusCreated).
Proof. typed_error. Qed.
Lemma typed_no_content : well_typed Discards no_content.
Proof. typed_error. Qed.
Lemma typed_running x : well_typed x running.
Proof. destruct x; typed_error. Qed.
#[export] Hint Resolve typed_bad_request typed_internal typed_invalid_body typed_source_error typed_registry_error
  typed_publish_error typed_delete_error typed_claims_error typed_service_error typed_artifact_error typed_ok
  typed_created typed_no_content typed_running keeps_answer : registry.

Section Contracts.
Context `{S : RegistryService} `{SL : !ServiceLaws S} `{AL : ApiLib} (o : Oracle).

Lemma keeps_param e r p w k : (forall v, keeps e w (k v)) -> keeps e w (with_param r p w k).
Proof. intros H. unfold with_param. destruct (GetAndValidateURLParam r p); auto with registry. Qed.
Lemma keeps_server_name e r w k : (forall v, keeps e w (k v)) -> keeps e w (with_server_name r w k).
Proof. intros H. unfold with_server_name. destruct (GetAndValidateServerNameParam r _); auto with registry. Qed.
Lemma keeps_names e r w k : (forall a b c, keeps e w (k a b c)) -> keeps e w (with_names r w k).
Proof. intros H. do 3 (apply keeps_param; intros). apply H. Qed.

Lemma keeps_call_reads {A} e (m : Q A) w (f : result A -> Response Payload) : reads m -> (forall res, well_typed e (f res)) ->
  keeps e w (call o m w (fun res w => (f res, w))).
Proof.
  intros Hm Hf. unfold call. destruct (m o (fst w) (snd w)) as [[res n] d] eqn:E. apply Hm in E as ->.
  split; [apply Hf|apply allowed_same].
Qed.
Lemma allowed_success e resp d d' : e <> Reads -> success resp = true -> allowed e resp d d'.
Proof. destruct e; cbn; [done|by left..]. Qed.
Lemma keeps_call_atomic {A} e (m : Q A) w (f : result A -> Response Payload) : e <> Reads -> atomic m ->
  (forall res, well_typed e (f res)) -> (forall a, success (f (Ok a)) = true) -> keeps e w (call o m w (fun res w => (f res, w))).
Proof.
  intros He Hm Hf Hs. unfold call. destruct (m o (fst w) (snd w)) as [[[a|err] n] d] eqn:E.
  - split; [apply Hf|]. apply allowed_success; [done|apply Hs].
  - apply Hm in E as ->. split; [apply Hf|apply allowed_same].
Qed.
(** Create, and on a conflict update. *)
Lemma keeps_call_then {A} (m : Q A) w (k : result A -> World -> Response Payload * World) : atomic m ->
  (forall a w', well_typed Writes (fst (k (Ok a) w')) /\ success (fst (k (Ok a) w')) = true) ->
  (forall err n, keeps Writes (n, snd w) (k (Err err) (n, snd w))) -> keeps Writes w (call o m w k).
Proof.
  intros Hm Hok Herr. unfold call. destruct (m o (fst w) (snd w)) as [[[a|err] n] d] eqn:E.
  - destruct (Hok a (n, d)) as [Ht Hs]. split; [done|by left].
  - apply Hm in E as ->. apply Herr.
Qed.

Lemma publish_error_status err : (forall s, s ∈ refusals -> errorIs err s = false) ->
  rs_status (writePublishError err) = StatusInternalServerError.
Proof.
  intros H. unfold writePublishError.
  rewrite !H by (apply (bool_decide_unpack _); by vm_compute). by case_match.
Qed.
Lemma keeps_publish {A} (m : Q A) w (payload : A -> Payload) : publishes m ->
  keeps Publishes w (call o m w (publish_response payload)).
Proof.
  intros Hm. unfold call. destruct (m o (fst w) (snd w)) as [[[a|err] n] d] eqn:E; cbn.
  - split; [apply typed_created|by left].
  - split; [apply typed_publish_error|]. right. destruct (Hm _ _ _ _ _ _ E) as [->|H]; [by right|]. left.
    by apply publish_error_status.
Qed.


(** *** The handlers *)

Ltac params := repeat first [apply keeps_param; intros ?|apply keeps_server_name; intros ?|apply keeps_names; intros ? ? ?].
Ltac reading := params; apply keeps_call_reads; [auto with registry|]; intros res; repeat case_match; auto with registry.
Ltac writing := params; apply keeps_call_atomic; [done|auto with registry|intros res; repeat case_match; auto with registry|done].

Lemma listSources_keeps : honours Reads (listSources o).
Proof. intros r w. unfold listSources. reading. Qed.
Lemma getSource_keeps : honours Reads (getSource o).
Proof. intros r w. unfold getSource. reading. Qed.
Lemma upsertSource_keeps : honours Writes (upsertSource o).
Proof.
  intros r w. unfold upsertSource. params. destruct (decode_source _); [|auto with registry].
  apply keeps_call_then; [auto with registry|by split; [apply typed_created|]|]. intros err n.
  destruct (errorIs err _); [writing|auto with registry].
Qed.
Lemma deleteSource_keeps : honours Discards (deleteSource o).
Proof. intros r w. unfold deleteSource. writing. Qed.
Lemma listSourceEntries_keeps : honours Reads (listSourceEntries o).
Proof. intros r w. unfold listSourceEntries. reading. Qed.
Lemma listRegistries_keeps : honours Reads (listRegistries o).
Proof. intros r w. unfold listRegistries. reading. Qed.
Lemma getRegistry_keeps : honours Reads (getRegistry o).
Proof. intros r w. unfold getRegistry. reading. Qed.
Lemma upsertRegistry_keeps : honours Writes (upsertRegistry o).
Proof.
  intros r w. unfold upsertRegistry. params. destruct (decode_registry _); [|auto with registry].
  apply keeps_call_then; [auto with registry|by split; [apply typed_created|]|]. intros err n.
  destruct (errorIs err _); [writing|auto with registry].
Qed.
Lemma deleteRegistry_keeps : honours Discards (deleteRegistry o).
Proof. intros r w. unfold deleteRegistry. writing. Qed.
Lemma listRegistryEntries_keeps : honours Reads (listRegistryEntries o).
Proof. intros r w. unfold listRegistryEntries. reading. Qed.

Lemma publishEntry_keeps az : honours Publishes (publishEntry o az).
Proof.
  intros r w. unfold publishEntry. destruct (decode_publish _) as [req|]; [|auto with registry].
  case_match eqn:E0; [apply keeps_answer; typed_error|]. case_match; [apply keeps_answer; typed_error|].
  case_match; [apply keeps_answer; typed_error|].
  destruct (pe_Server req), (pe_Skill req), (pe_Plugin req); try (apply keeps_publish; auto with registry; done). done.
Qed.
Lemma deletePublishedEntry_keeps : honours Discards (deletePublishedEntry o).
Proof.
  intros r w. unfold deletePublishedEntry. params. do 3 (case_match; [writing|]). apply keeps_answer. typed_error.
Qed.
Lemma getEntryClaims_keeps : honours Reads (getEntryClaims o).
Proof. intros r w. unfold getEntryClaims. reading. Qed.
Lemma updateEntryClaims_keeps : honours Discards (updateEntryClaims o).
Proof. intros r w. unfold updateEntryClaims. params. destruct (decode_claims _); [writing|auto with registry]. Qed.

Lemma listServers_keeps : honours Reads (listServersWithRegistryName o).
Proof.
  intros r w. unfold listServersWithRegistryName, handleListServers. params.
  destruct (if String.eqb (r_query r "limit") "" then _ else _); [|apply keeps_answer; typed_error].
  destruct (if String.eqb (r_query r "updated_since") "" then _ else _); [|apply keeps_answer; typed_error]. reading.
Qed.
Lemma listServerVersions_keeps : honours Reads (listVersionsWithRegistryName o).
Proof. intros r w. unfold listVersionsWithRegistryName, handleListVersions. reading. Qed.
Lemma getServerVersion_keeps : honours Reads (getVersionWithRegistryName o).
Proof. intros r w. unfold getVersionWithRegistryName, handleGetVersion. reading. Qed.

Section Artifacts.
Context {X : Type} (svc_List : Ctx -> list (Option_ ListArtifactOptions) -> Q (option (list X * string))).
Context (svc_Get : Ctx -> list (Option_ GetArtifactOptions) -> Q X).
Context (one : X -> Payload) (many : list X -> ListMetadata -> Payload).
Context (HL : forall ctx opts, reads (svc_List ctx opts)) (HG : forall ctx opts, reads (svc_Get ctx opts)).

Lemma listArtifacts_keeps st : honours Reads (listArtifacts o svc_List many st).
Proof. intros r w. unfold listArtifacts, list_response. params. case_match; [reading|auto with registry]. Qed.
Lemma getLatest_keeps : honours Reads (getLatestVersion o svc_Get one).
Proof. intros r w. unfold getLatestVersion, get_response. reading. Qed.
Lemma listArtifactVersions_keeps : honours Reads (listVersions o svc_List many).
Proof. intros r w. unfold listVersions, list_response. reading. Qed.
Lemma getArtifactVersion_keeps : honours Reads (getVersion o svc_Get one).
Proof. intros r w. unfold getVersion, get_response. reading. Qed.
End Artifacts.

(** The handler of plugins reads the [status] parameter and does nothing with it. *)
Definition set_query (r : Request) (q : string -> string) : Request :=
  {| r_method := r_method r; r_path := r_path r; r_rawPath := r_rawPath r; r_authorization := r_authorization r; r_param := r_param r;
     r_query := q; r_header := r_header r; r_remote := r_remote r; r_body := r_body r; r_ctx := r_ctx r |}.
Lemma plugin_status_ignored {X} (svc_List : Ctx -> list (Option_ ListArtifactOptions) -> Q (option (list X * string))) many r q w :
  (forall k, k <> "status" -> q k = r_query r k) ->
  listArtifacts o svc_List many false (set_query r q) w = listArtifacts o svc_List many false r w.
Proof.
  intros Hq. unfold listArtifacts, with_param. change (GetAndValidateURLParam (set_query r q)) with (GetAndValidateURLParam r).
  destruct (GetAndValidateURLParam r "registryName"); [|done]. unfold parseListQuery. cbn [r_query set_query].
  rewrite (Hq "limit"), (Hq "search"), (Hq "cursor") by done.
  destruct (String.eqb _ ""); [done|]. destruct (Atoi _) as [z|]; [|done]. by destruct (_ || _).
Qed.

Lemma downloadSkill_keeps v : honours Reads (downloadSkill o v).
Proof.
  intros r w. unfold downloadSkill. params. apply keeps_call_reads; [auto with registry|]. intros res.
  repeat case_match; auto with registry. typed_error.
Qed.
Lemma downloadVersion_keeps : honours Reads (downloadSkillVersion o).
Proof. intros r w. apply downloadSkill_keeps. Qed.
Lemma openAPI_keeps : honours Reads openAPIHandler.
Proof. intros r w. unfold openAPIHandler. apply keeps_answer. case_match; typed_error. Qed.
Lemma health_keeps : honours Reads healthHandler.
Proof. intros r w. apply keeps_answer. typed_error. Qed.
Lemma readiness_keeps : honours Reads (readinessHandler o).
Proof. intros r w. unfold readinessHandler. apply keeps_call_reads; [auto with registry|]. intros []; [auto with registry|typed_error]. Qed.
Lemma me_keeps r w : let out := (fst (getMe r (fresh_holder, w)), w) in keeps Reads w out \/ turned_away r w out.
Proof.
  cbv zeta. unfold getMe. destruct (ClaimsFromContext (r_ctx r)) eqn:E; [left|right].
  - apply keeps_answer. destruct (IdentityFromClaims _). typed_error.
  - split_and!; [done|done|by eexists|done].
Qed.
Lemma metadata_keeps url servers k : newProtectedResourceHandler url servers = Ok k -> honours Reads k.
Proof. unfold newProtectedResourceHandler. case_match; [done|]. intros [= <-] r w. apply keeps_answer. typed_error. Qed.


(** *** The routes *)

(** A handler function behind its annotation and its role check. *)
Definition served (authzCfg : option AuthzConfig) (role : option Role) (info : option (Request -> RouteInfo)) (k : HandlerFunc)
    : Handler Payload (Audit World) :=
  let audited := match info with Some i => annotate i (serve k) | None => serve k end in
  match role with Some x => RequireRole x authzCfg audited | None => audited end.

(** The role that guards the writes of each part of the API. *)
Definition write_role (pattern : string) : Role :=
  if HasPrefix pattern "/v1/sources" then RoleManageSources
  else if HasPrefix pattern "/v1/registries" then RoleManageRegistries
  else RoleManageEntries.

(** The routes without an annotation. *)
Definition unaudited : list string :=
  ["/openapi.json"; "/.well-known/oauth-protected-resource";
   "/registry/{registryName}/v0.1/x/dev.toolhive/skills/{namespace}/{name}/download";
   "/registry/{registryName}/v0.1/x/dev.toolhive/skills/{namespace}/{name}/versions/{version}/download"].

(** The event each write is to leave in the audit log. *)
Definition write_event (meth pattern : string) (status : Z) : string :=
  if String.eqb pattern "/v1/sources/{name}" then
    if String.eqb meth "DELETE" then "source.delete" else if (status =? 201)%Z then "source.create" else "source.update"
  else if String.eqb pattern "/v1/registries/{name}" then
    if String.eqb meth "DELETE" then "registry.delete" else if (status =? 201)%Z then "registry.create" else "registry.update"
  else if String.eqb pattern "/v1/entries" then "entry.publish"
  else if String.eqb meth "DELETE" then "entry.delete" else "entry.claims.update".

(** The routes that answer with nothing. *)
Definition no_content_routes : list (option string * string) :=
  [(Some "DELETE", "/v1/sources/{name}"); (Some "DELETE", "/v1/registries/{name}");
   (Some "DELETE", "/v1/entries/{type}/{name}/versions/{version}"); (Some "PUT", "/v1/entries/{type}/{name}/claims")].

Record route_is (authzCfg : option AuthzConfig) (rt : Route) (e : effect) (role : option Role)
    (info : option (Request -> RouteInfo)) (k : HandlerFunc) : Prop := {
  ri_handler : forall r h, rt_handler rt r h = served authzCfg role info k r h;
  ri_honours : forall r w, keeps e w (k r w) \/ turned_away r w (k r w);
  ri_writes : e <> Reads -> role = Some (write_role (rt_pattern rt)) /\
                exists i m, info = Some i /\ rt_method rt = Some m /\ isMutating m = true /\
                  forall r st, resolve_event (i r) st = write_event m (rt_pattern rt) st;
  ri_discards : e = Discards -> (rt_method rt, rt_pattern rt) ∈ no_content_routes;
  ri_publishes : e = Publishes -> rt_pattern rt = "/v1/entries";
  ri_event : forall i r st, info = Some i -> resolve_event (i r) st <> "";
  ri_unaudited : info = None <-> rt_pattern rt ∈ unaudited }.
Definition registered (authzCfg : option AuthzConfig) (rt : Route) : Prop :=
  exists e role info k, route_is authzCfg rt e role info k.

(** What of [route_is] can be read off a route. *)
Ltac audited_or_not := first
  [ split; [done|intros Hu; exfalso; revert Hu; apply (bool_decide_unpack _); by vm_compute]
  | split; [intros _; apply (bool_decide_unpack _); by vm_compute|done] ].
Ltac named_event := intros ? ? ? [=]; subst; cbn; by repeat case_match.
Ltac one_of_them := first [done|intros _; apply (bool_decide_unpack _); by vm_compute].
Ltac plain_route role H :=
  eexists Reads, role, (Some _), _; constructor; [intros r h; reflexivity|intros r w; left; apply H|done|done|done|named_event|audited_or_not].
Ltac write_route e H :=
  eexists e, (Some _), (Some _), _;
  constructor; [intros r h; reflexivity|intros r w; left; apply H|intros _; split; [done|]; eexists _, _; by split_and!|one_of_them|done|named_event|audited_or_not].

Lemma registryRouter_registered az : Forall (registered az) (Mount "/registry" (Mount "/{registryName}/v0.1" (registryRouter o))).
Proof.
  repeat constructor.
  - plain_route (@None Role) listServers_keeps.
  - plain_route (@None Role) listServerVersions_keeps.
  - plain_route (@None Role) getServerVersion_keeps.
Qed.
Lemma skills_registered az :
  Forall (registered az) (Mount "/registry" (Mount "/{registryName}/v0.1/x/dev.toolhive/skills" (skills_Router o))).
Proof.
  repeat constructor.
  - plain_route (@None Role) (listArtifacts_keeps svc_ListSkills skill_list sl_ListSkills true).
  - plain_route (@None Role) (getLatest_keeps svc_GetSkillVersion skill_one sl_GetSkillVersion).
  - plain_route (@None Role) (listArtifactVersions_keeps svc_ListSkills skill_list sl_ListSkills).
  - plain_route (@None Role) (getArtifactVersion_keeps svc_GetSkillVersion skill_one sl_GetSkillVersion).
  - exists Reads, None, None, (downloadLatestSkill o). constructor; [done|intros r w; left; apply downloadSkill_keeps|done|done|done|named_event|audited_or_not].
  - exists Reads, None, None, (downloadSkillVersion o). constructor; [done|intros r w; left; apply downloadVersion_keeps|done|done|done|named_event|audited_or_not].
Qed.
Lemma plugins_registered az :
  Forall (registered az) (Mount "/registry" (Mount "/{registryName}/v0.1/x/dev.toolhive/plugins" (plugins_Router o))).
Proof.
  repeat constructor.
  - plain_route (@None Role) (listArtifacts_keeps svc_ListPlugins plugin_list sl_ListPlugins false).
  - plain_route (@None Role) (getLatest_keeps svc_GetPluginVersion plugin_one sl_GetPluginVersion).
  - plain_route (@None Role) (listArtifactVersions_keeps svc_ListPlugins plugin_list sl_ListPlugins).
  - plain_route (@None Role) (getArtifactVersion_keeps svc_GetPluginVersion plugin_one sl_GetPluginVersion).
Qed.

Lemma getMe_serve r h : getMe r h = serve (fun r w => (fst (getMe r (fresh_holder, w)), w)) r h.
Proof.
  destruct h as [i [c l w]]. unfold serve, unaware, getMe. cbn. destruct (ClaimsFromContext (r_ctx r)); [|done].
  by destruct (IdentityFromClaims _).
Qed.
Lemma v1_registered authCfg : let az := match authCfg with Some c => ac_Authz c | None => None end in
  Forall (registered az) (Mount "/v1" (v1_Router o authCfg)).
Proof.
  intros az. unfold v1_Router, Mount, Group. cbn [app fmap list_fmap].
  repeat constructor.
  - eexists Reads, None, (Some _), (fun r w => (fst (getMe r (fresh_holder, w)), w)).
    constructor; [intros r h; apply getMe_serve|intros r w; apply me_keeps|done|done|done|named_event|audited_or_not].
  - plain_route (Some RoleManageSources) listSources_keeps.
  - plain_route (Some RoleManageSources) getSource_keeps.
  - write_route Writes upsertSource_keeps.
  - write_route Discards deleteSource_keeps.
  - plain_route (Some RoleManageSources) listSourceEntries_keeps.
  - plain_route (@None Role) listRegistries_keeps.
  - plain_route (@None Role) getRegistry_keeps.
  - plain_route (Some RoleManageRegistries) listRegistryEntries_keeps.
  - write_route Writes upsertRegistry_keeps.
  - write_route Discards deleteRegistry_keeps.
  - write_route Publishes publishEntry_keeps.
  - write_route Discards deletePublishedEntry_keeps.
  - plain_route (Some RoleManageEntries) getEntryClaims_keeps.
  - write_route Discards updateEntryClaims_keeps.
Qed.

(** Every route of the server is registered as one of the handlers above. *)
Lemma server_registered info authCfg : (forall k, info = Some k -> honours Reads k) ->
  let az := match authCfg with Some c => ac_Authz c | None => None end in
  Forall (registered az) (server_routes o info authCfg).
Proof.
  intros Hinfo az. unfold server_routes. apply Forall_app. split.
  { constructor; [|constructor]. eexists Reads, None, None, openAPIHandler.
    constructor; [done|intros r w; left; apply openAPI_keeps|done|done|done|named_event|audited_or_not]. }
  apply Forall_app. split.
  { destruct info as [k|]; [|constructor]. constructor; [|constructor]. exists Reads, None, None, k.
    constructor; [done|intros r w; left; by apply Hinfo|done|done|done|named_event|audited_or_not]. }
  apply Forall_app. split; [|apply v1_registered].
  unfold v01_Router, Mount. rewrite !fmap_app. rewrite !Forall_app.
  split_and!; [apply registryRouter_registered|apply skills_registered|apply plugins_registered].
Qed.
End Contracts.

(** ** On the database *)

Section OnDatabase.
Context `{SC : ServerCodec} `{RC : ServerReadCodec} `{C : JsonCodec} `{AC : ArtifactCodec} `{L : SemverLib}.
Context `{Co : Collation} `{SQ : SqlConditions} `{CM : ConfigMarshal} `{CC : ConfigCodec}.
Context `{FS : FileSystem} `{RP : RegistryParser} `{AL : ApiLib}.
Context (s : dbService) (now : Z) (fuel : nat) (o : Oracle).
#[local] Instance database_service : RegistryService := db_service s now fuel.
#[local] Instance database_laws : ServiceLaws database_service := db_service_laws s now fuel.

Lemma CreateSource_exists ctx name req n d row : (forall k, o k = None) -> d_source d !! name = Some row ->
  ValidateSourceConfig req = Ok () -> validateClaimsSubset ctx (caller_claims s ctx) (claims_or_empty (sr_Claims req)) = Ok () ->
  exists n', CreateSource now s ctx name req o n d = (Err (EWrap ErrSourceAlreadyExists "%s"), n', d).
Proof.
  intros Ho Hr Hv Hc. eexists. unfold CreateSource.
  eapply bind_fine; [apply lift_fine; by rewrite Hv|]. eapply bind_fine; [by apply lift_fine|].
  unfold transaction_gen. rewrite Ho. unfold mbind at 1, Q_bind at 1.
  rewrite (GetSourceByName_found o Ho _ _ _ _ Hr). reflexivity.
Qed.

(** What PUT did, given what the caller asked for. *)
Definition source_put (ctx : Ctx) (name : string) (req : SourceCreateRequest) (resp : Response Payload) (d d' : DB) : Prop :=
  exists c f, serializeSourceConfigFromRequest req = Ok c /\ serializeFilterConfigFromRequest (sr_Filter req) = Ok f /\
  ((rs_status resp = StatusCreated /\ creatable s ctx name req d /\
    let row := request_row req c f (d_next d) CreationTypeAPI now in
    rs_body resp = BData (PSource (buildSourceInfo name row)) /\ d' = with_source name row (request_status now req) d) \/
   (rs_status resp = StatusOK /\ exists old, d_source d !! name = Some old /\ updatable s ctx old req /\
    let row := request_row req c f (so_id old) CreationTypeAPI (so_created_at old) in
    rs_body resp = BData (PSource (buildSourceInfo name row)) /\ d' = with_row name row d)).

Lemma source_error_not_success err : success (writeSourceError err) = false.
Proof. unfold writeSourceError. by repeat case_match. Qed.

(** The two calls of the handler, on a name and a body that decode. *)
Lemma upsertSource_run r w name req : GetAndValidateURLParam r "name" = Ok name -> decode_source (r_body r) = Some req ->
  let out := upsertSource o r w in
  if success (fst out) then source_put (r_ctx r) name req (fst out) (snd w) (snd (snd out))
  else snd (snd out) = snd w /\ ((forall k, o k = None) ->
    ~ creatable s (r_ctx r) name req (snd w) /\
    forall old, d_source (snd w) !! name = Some old -> ~ updatable s (r_ctx r) old req).
Proof.
  intros Hn Hb out. unfold out, upsertSource, with_param, call. rewrite Hn, Hb.
  change svc_CreateSource with (CreateSource now s). change svc_UpdateSource with (UpdateSource s).
  destruct (CreateSource now s (r_ctx r) name req o (fst w) (snd w)) as [[[info|err] n1] d1] eqn:E1.
  { cbn. apply CreateSource_run in E1 as (Hc & c & f & Ec & Ef & -> & ->). exists c, f. auto 10. }
  pose proof (sl_CreateSource (r_ctx r) name req _ _ _ _ _ _ E1) as ->.
  assert (Hno : (forall k, o k = None) -> ~ creatable s (r_ctx r) name req (snd w)).
  { intros Ho Hc. destruct (CreateSource_runs o Ho now s (r_ctx r) name req (fst w) (snd w) Hc) as (? & ? & ? & E). congruence. }
  destruct (errorIs err ErrSourceAlreadyExists) eqn:He.
  - cbn [fst snd]. destruct (UpdateSource s (r_ctx r) name req o n1 (snd w)) as [[[info|err2] n2] d2] eqn:E2; cbn [fst snd].
    + apply UpdateSource_run in E2 as (old & Hold & Hu & c & f & Ec & Ef & -> & ->). exists c, f.
      split; [done|]. split; [done|]. right. split; [done|]. by exists old.
    + rewrite source_error_not_success. split; [by eapply (sl_UpdateSource (r_ctx r) name req)|]. intros Ho. split; [auto|].
      intros old Hold Hu. destruct (UpdateSource_runs s (r_ctx r) name req old o n1 (snd w) Ho Hold Hu) as (? & ? & ? & E). congruence.
  - cbn [fst snd]. rewrite source_error_not_success. split; [done|]. intros Ho. split; [auto|]. intros old Hold [].
    destruct (CreateSource_exists (r_ctx r) name req (fst w) (snd w) old Ho Hold) as [n' E]; [done..|]. rewrite E in E1. by simplify_eq.
Qed.

(** C3. PUT /v1/sources/{name} end to end.  It answers 201 only having created the
    source asked for, 200 only having replaced the API-created source of that
    name, with the stored source as the body; any other answer leaves the
    database as it was, and with a database that works it is given only if the
    parameter or the body does not decode, or the caller may neither create nor
    update the source so. *)
Theorem upsertSource_correct r w :
  let out := upsertSource o r w in
  if success (fst out) then
    exists name req, GetAndValidateURLParam r "name" = Ok name /\ decode_source (r_body r) = Some req /\
      source_put (r_ctx r) name req (fst out) (snd w) (snd (snd out))
  else snd (snd out) = snd w /\ ((forall k, o k = None) ->
    forall name req, GetAndValidateURLParam r "name" = Ok name -> decode_source (r_body r) = Some req ->
      ~ creatable s (r_ctx r) name req (snd w) /\
      forall old, d_source (snd w) !! name = Some old -> ~ updatable s (r_ctx r) old req).
Proof.
  intros out. destruct (GetAndValidateURLParam r "name") as [name|e] eqn:Hn.
  2:{ unfold out, upsertSource, with_param. rewrite Hn. cbn. split; [done|]. intros _ name req [=]. }
  destruct (decode_source (r_body r)) as [req|] eqn:Hb.
  2:{ unfold out, upsertSource, with_param. rewrite Hn, Hb. cbn. split; [done|]. intros _ name' req _ [=]. }
  pose proof (upsertSource_run r w name req Hn Hb) as H. cbv zeta in H. fold out in H.
  destruct (success (fst out)); [by exists name, req|]. destruct H as [Hd H]. split; [done|].
  intros Ho name' req' [= <-] [= <-]. auto.
Qed.
End OnDatabase.
