(* ===== verification/Kubernetes.v ===== *)
(** * The Kubernetes source

    [internal/kubernetes]: the server name of a resource ([naming.go]), the
    conversion of the three kinds of resources to entries ([types.go]), the
    reconciler with its event predicates and per-entry claims
    ([controller.go]) and its construction from options ([builder.go]).

    The resource types, the cluster and its cache belong to third-party modules:
    a resource is the record of the fields the code reads, the cluster is what
    [client.List] answers ([Cluster]).  Constants of the registry module are
    [ModelConstants], the JSON of annotations and extensions is [ResourceJson]. *)

From stdpp Require Import base list strings gmap sets.
From Stdlib Require Import String Ascii ZArith Lia.
From S2P Require Import Prelude GoStrings Validators Versions Claims Codec Durations Upstream Database Entries Artifacts.
From S2P Require Import Writer WriterCorrect WriterKinds.

Local Open Scope string_scope.
Local Open Scope list_scope.

(** ** Names *)

Definition k8sServerNamePrefix : string := "com.toolhive.k8s".
Definition k8sMaxServerNameLength : nat := 200.

Definition GenerateServerName (k8sNamespace k8sName : string) : result string :=
  guard_err (String.eqb k8sNamespace "") (EMsg "kubernetes namespace cannot be empty") ;;;
  guard_err (String.eqb k8sName "") (EMsg "kubernetes name cannot be empty") ;;;
  let serverName := k8sServerNamePrefix +:+ "." +:+ k8sNamespace +:+ "/" +:+ k8sName in
  guard_err (k8sMaxServerNameLength <? len serverName)%nat
    (EMsg "generated server name exceeds maximum length of %d characters: %s") ;;;
  Ok serverName.

(** ** Image references *)

(** [strings.Index] and [strings.LastIndex] of one byte. *)
Definition Index (s : string) (c : ascii) : Z :=
  match list_find (eq c) (to_bytes s) with Some (i, _) => Z.of_nat i | None => -1 end.
Definition LastIndex (s : string) (c : ascii) : Z :=
  match list_find (eq c) (rev (to_bytes s)) with
  | Some (i, _) => Z.of_nat (len s) - 1 - Z.of_nat i
  | None => -1
  end.

Definition parseImageTag (image : string) : string :=
  let at_ := Index image "@" in
  let image := if (at_ =? -1)%Z then image else of_bytes (take (Z.to_nat at_) (to_bytes image)) in
  let colon := LastIndex image ":" in
  if ((colon =? -1)%Z || (colon <? LastIndex image "/")%Z)%bool then ""
  else of_bytes (drop (Z.to_nat (colon + 1)) (to_bytes image)).

Definition defaultImageVersion : string := "latest".

Definition parseImageTagOrDigest (image : string) : string :=
  let parts := Split image ":" in
  let potentialTag := if (2 <=? List.length parts)%nat then List.last parts "" else "" in
  let parts := Split image "@" in
  let potentialDigest := if (2 <=? List.length parts)%nat then List.last parts "" else "" in
  if negb (String.eqb potentialDigest "") then potentialDigest
  else if negb (String.eqb potentialTag "") then potentialTag
  else defaultImageVersion.

(** ** Annotations *)

Abbreviation annotations := (gmap string string).

Definition defaultRegistryExportAnnotation : string := "toolhive.stacklok.dev/registry-export".
Definition defaultRegistryURLAnnotation : string := "toolhive.stacklok.dev/registry-url".
Definition defaultRegistryDescriptionAnnotation : string := "toolhive.stacklok.dev/registry-description".
Definition defaultRegistryTitleAnnotation : string := "toolhive.stacklok.dev/registry-title".
Definition defaultRegistryIconAnnotation : string := "toolhive.stacklok.dev/registry-icon".
Definition defaultRegistryCategoryAnnotation : string := "toolhive.stacklok.dev/registry-category".
Definition defaultRegistryToolDefinitionsAnnotation : string := "toolhive.stacklok.dev/tool-definitions".
Definition defaultRegistryToolsAnnotation : string := "toolhive.stacklok.dev/tools".
Definition defaultRegistryVersionAnnotation : string := "toolhive.stacklok.dev/registry-version".
Definition defaultAuthzClaimsAnnotation : string := "toolhive.stacklok.dev/authz-claims".

(** [annotations[key]]; the nil map has no keys. *)
Definition annotation (m : option annotations) (key : string) : option string := m ≫= fun a => a !! key.

Definition hasRequiredRegistryAnnotations (m : option annotations) : bool :=
  match m with
  | None => false
  | Some a => bool_decide (is_Some (a !! defaultRegistryDescriptionAnnotation)) &&
              bool_decide (is_Some (a !! defaultRegistryURLAnnotation))
  end.

Definition annotationValueTrue : string := "true".

Definition checkAnnotation (m : option annotations) (key : string) : bool :=
  match m with
  | None => false
  | Some a => match a !! key with None => false | Some value => String.eqb value annotationValueTrue end
  end.

(** ** Resources *)

Record ObjectMeta := {
  om_Kind : string; om_Namespace : string; om_Name : string; om_UID : string;
  om_Annotations : option annotations }.
Record MCPServer := { ms_Meta : ObjectMeta; ms_Image : string; ms_Transport : string; ms_ProxyMode : string }.
Record VirtualMCPServer := { vs_Meta : ObjectMeta }.
Record MCPRemoteProxy := { rp_Meta : ObjectMeta }.

(** [registry.ServerExtensions], of which the code sets these fields. *)
Record KubernetesMetadata := {
  km_Kind : string; km_Namespace : string; km_Name : string; km_Image : string; km_UID : string; km_Transport : string }.
Record ServerExtensions := {
  se_Status : string;
  se_Kubernetes : KubernetesMetadata;
  se_ToolDefinitions : option (list any);
  se_Tools : option (list string);
  se_Tags : list string }.

Class ModelConstants := {
  CurrentSchemaURL : string;
  TransportTypeStreamableHTTP : string;
  TransportTypeStdio : string;
  RegistryTypeOCI : string;
  ToolHivePublisherNamespace : string }.

(** [encoding/json] on the types at hand; the outer [None] is the error, an inner
    one the nil slice or map the text "null" stands for. *)
Class ResourceJson := {
  unmarshal_tool_definitions : string -> option (option (list any));
  unmarshal_tools : string -> option (option (list string));
  unmarshal_claims : string -> option (option claims);
  marshal_extensions : ServerExtensions -> option string;
  unmarshal_map : string -> option (list (string * any)) }.

Section Extract.
Context `{MC : ModelConstants} `{RJ : ResourceJson} `{L : SemverLib} `{C : JsonCodec}.

Definition defaultServerVersion : string := "1.0.0".
Definition defaultServerStatus : string := "active".

Definition resolveServerVersion (m : option annotations) (image : string) : string :=
  let annotated := TrimSpace (default "" (annotation m defaultRegistryVersionAnnotation)) in
  if negb (String.eqb annotated "") && IsPublishable annotated then annotated
  else
    let tag := TrimSpace (parseImageTag image) in
    if IsPublishable tag then tag else defaultServerVersion.

Definition extractPackages (mcpServer : MCPServer) : list Package :=
  let transportType := ms_Transport mcpServer in
  let transportType := if String.eqb transportType "" then TransportTypeStreamableHTTP else transportType in
  let transportType :=
    if String.eqb transportType TransportTypeStdio then
      if negb (String.eqb (ms_ProxyMode mcpServer) "") then ms_ProxyMode mcpServer else TransportTypeStreamableHTTP
    else transportType in
  let version := parseImageTagOrDigest (ms_Image mcpServer) in
  [ {| pk_RegistryType := RegistryTypeOCI; pk_RegistryBaseURL := ""; pk_Identifier := ms_Image mcpServer;
       pk_Version := version; pk_FileSHA256 := ""; pk_RunTimeHint := "";
       pk_Transport := {| tr_Type := transportType; tr_URL := ""; tr_Headers := [] |};
       pk_RuntimeArguments := []; pk_PackageArguments := []; pk_EnvironmentVariables := [] |} ].

Definition extractToolDefinitions (m : option annotations) : option (list any) :=
  match annotation m defaultRegistryToolDefinitionsAnnotation with
  | None => None
  | Some s => if String.eqb s "" then None else default None (unmarshal_tool_definitions s)
  end.

Definition extractTools (m : option annotations) : option (list string) :=
  match annotation m defaultRegistryToolsAnnotation with
  | None => None
  | Some s => if String.eqb s "" then None else default None (unmarshal_tools s)
  end.

(** The icons [applyRegistryIcon] sets, and the tags [applyRegistryCategory] adds. *)
Definition applyRegistryIcon (m : option annotations) (icons : list Icon) : list Icon :=
  match annotation m defaultRegistryIconAnnotation with
  | Some icon => if String.eqb icon "" then icons else [ {| ic_Src := icon; ic_MimeType := None; ic_Theme := None |} ]
  | None => icons
  end.
Definition applyRegistryCategory (m : option annotations) (tags : list string) : list string :=
  match annotation m defaultRegistryCategoryAnnotation with
  | Some category => if String.eqb category "" then tags else tags ++ [category]
  | None => tags
  end.

Definition structToMap (v : ServerExtensions) : result (list (string * any)) :=
  match marshal_extensions v with
  | None => Err (EMsg "failed to marshal struct: %w")
  | Some data => match unmarshal_map data with
                 | None => Err (EMsg "failed to unmarshal into map: %w")
                 | Some m => Ok m
                 end
  end.

(** What the three extractors share: they differ in the packages and in the
    image and transport, which only a container has. *)
Definition extract_resource (obj : ObjectMeta) (image transport : string) (packages : list Package) : result ServerJSON :=
  match GenerateServerName (om_Namespace obj) (om_Name obj) with
  | Err _ => Err (EMsg "failed to generate server name: %w")
  | Ok serverName =>
      let m := om_Annotations obj in
      guard_err (match m with None => true | Some _ => false end) (EMsg "annotations not found") ;;;
      let version := resolveServerVersion m image in
      match annotation m defaultRegistryDescriptionAnnotation with
      | None => Err (EMsg "description not found in annotations")
      | Some desc =>
          let title := default "" (annotation m defaultRegistryTitleAnnotation) in
          let icons := applyRegistryIcon m [] in
          match annotation m defaultRegistryURLAnnotation with
          | None => Err (EMsg "URL not found in annotations")
          | Some transportURL =>
              let extensions := {|
                se_Status := defaultServerStatus;
                se_Kubernetes := {| km_Kind := om_Kind obj; km_Namespace := om_Namespace obj; km_Name := om_Name obj;
                                    km_Image := image; km_UID := om_UID obj; km_Transport := transport |};
                se_ToolDefinitions := extractToolDefinitions m;
                se_Tools := extractTools m;
                se_Tags := applyRegistryCategory m [] |} in
              match structToMap extensions with
              | Err _ => Err (EMsg "failed to convert extensions to map: %w")
              | Ok extensionsMap =>
                  Ok {| sj_Schema := CurrentSchemaURL; sj_Name := serverName; sj_Description := desc; sj_Title := title;
                        sj_Version := version; sj_WebsiteURL := ""; sj_Repository := None; sj_Packages := packages;
                        sj_Remotes := [ {| tr_Type := TransportTypeStreamableHTTP; tr_URL := transportURL; tr_Headers := [] |} ];
                        sj_Icons := icons;
                        sj_Meta := Some {| sm_PublisherProvided :=
                          [(ToolHivePublisherNamespace, VMap [(transportURL, VMap extensionsMap)])] |} |}
              end
          end
      end
  end.

Definition extractServer (s : MCPServer) : result ServerJSON :=
  extract_resource (ms_Meta s) (ms_Image s) (ms_Transport s) (extractPackages s).
Definition extractVirtualMCPServer (s : VirtualMCPServer) : result ServerJSON := extract_resource (vs_Meta s) "" "" [].
Definition extractMCPRemoteProxy (s : MCPRemoteProxy) : result ServerJSON := extract_resource (rp_Meta s) "" "" [].

(** ** Per-entry claims *)

(** [None] is the nil slice: no annotation. *)
Definition parseEntryClaims (m : option annotations) : result (option string) :=
  match annotation m defaultAuthzClaimsAnnotation with
  | None => Ok None
  | Some raw =>
      if String.eqb raw "" then Ok None
      else match unmarshal_claims raw with
           | None => Err (EMsg "failed to parse %s annotation: %w")
           | Some None => Ok (Some "null")
           | Some (Some cs) =>
               match ValidateClaimValues cs with
               | Err _ => Err (EMsg "invalid claim value in %s annotation: %w")
               | Ok _ => match json_Marshal cs with
                         | Some data => Ok (Some data)
                         | None => Err (EMsg "json: unsupported value")
                         end
               end
           end
  end.

(** ** Collecting the resources of a namespace *)

(** The servers found so far and the claims of those that have some: the map is
    shared by the three calls. *)
Fixpoint processResources {T} (meta : T -> ObjectMeta) (extractor : T -> result ServerJSON) (items : list T)
    (serverJSONs : list ServerJSON) (perEntryClaims : gmap string string) : list ServerJSON * gmap string string :=
  match items with
  | [] => (serverJSONs, perEntryClaims)
  | obj :: items' =>
      let skip := processResources meta extractor items' serverJSONs perEntryClaims in
      if negb (hasRequiredRegistryAnnotations (om_Annotations (meta obj))) then skip
      else match extractor obj with
           | Err _ => skip
           | Ok serverJSON =>
               match parseEntryClaims (om_Annotations (meta obj)) with
               | Err _ => skip
               | Ok cs =>
                   processResources meta extractor items' (serverJSONs ++ [serverJSON])
                     (match cs with Some data => <[sj_Name serverJSON := data]> perEntryClaims | None => perEntryClaims end)
               end
           end
  end.

(** What [client.List] answers for a namespace. *)
Record Cluster := {
  list_MCPServers : string -> result (list MCPServer);
  list_VirtualMCPServers : string -> result (list VirtualMCPServer);
  list_MCPRemoteProxies : string -> result (list MCPRemoteProxy) }.

Record reconcileResult := { rr_Registry : UpstreamRegistry; rr_PerEntryClaims : option (gmap string string) }.

Definition registry_of (servers : list ServerJSON) : UpstreamRegistry :=
  {| ur_Schema := ""; ur_Version := ""; ur_LastUpdated := ""; ur_Servers := servers; ur_Skills := []; ur_Plugins := [] |}.

Definition getMCPServerList (c : Cluster) (namespace : string) : result reconcileResult :=
  match list_MCPServers c namespace with
  | Err _ => Err (EMsg "failed to list MCPServers: %w")
  | Ok mcpServers =>
      match list_VirtualMCPServers c namespace with
      | Err _ => Err (EMsg "failed to list VirtualMCPServers: %w")
      | Ok vmcpServers =>
          match list_MCPRemoteProxies c namespace with
          | Err _ => Err (EMsg "failed to list MCPRemoteProxies: %w")
          | Ok proxies =>
              let '(serverJSONs, perEntryClaims) := processResources ms_Meta extractServer mcpServers [] ∅ in
              let '(serverJSONs, perEntryClaims) :=
                processResources vs_Meta extractVirtualMCPServer vmcpServers serverJSONs perEntryClaims in
              let '(serverJSONs, perEntryClaims) :=
                processResources rp_Meta extractMCPRemoteProxy proxies serverJSONs perEntryClaims in
              Ok {| rr_Registry := registry_of serverJSONs;
                    rr_PerEntryClaims := if (0 <? size perEntryClaims)%nat then Some perEntryClaims else None |}
          end
      end
  end.

End Extract.

(** ** The reconciler *)

Record MCPServerReconciler := { mr_requeueAfter : Z; mr_syncWriter : dbSyncWriter; mr_registryName : string }.

Section Reconcile.
Context `{MC : ModelConstants} `{RJ : ResourceJson} `{L : SemverLib} `{C : JsonCodec}.
Context `{SC : ServerCodec} `{AC : ArtifactCodec}.

(** The delay asked for and the error. *)
Definition Reconcile (r : MCPServerReconciler) (c : Cluster) (namespace : string) (now : Z) : Q (Z * option error) :=
  match getMCPServerList c namespace with
  | Err err => mret (0%Z, Some err)
  | Ok result =>
      let perEntryClaims :=
        match rr_PerEntryClaims result with
        | Some m => if (0 <? size m)%nat then m else ∅
        | None => ∅
        end in
      stored ← attempt (db_Store (mr_syncWriter r) (mr_registryName r) (Some (rr_Registry result)) perEntryClaims now);
      match stored with
      | Err err => mret (mr_requeueAfter r, Some err)
      | Ok _ => mret (0%Z, None)
      end
  end.
End Reconcile.

(** *** Which events ask for a reconciliation *)

Inductive Event :=
| CreateEvent (obj : ObjectMeta)
| UpdateEvent (old new : ObjectMeta)
| DeleteEvent (obj : ObjectMeta).

Definition makeNewObjectPredicate (key : string) (obj : ObjectMeta) : bool := checkAnnotation (om_Annotations obj) key.
Definition makeUpdateObjectPredicate (key : string) (old new : ObjectMeta) : bool :=
  let newEnabled := checkAnnotation (om_Annotations new) key in
  let oldEnabled := checkAnnotation (om_Annotations old) key in
  newEnabled || oldEnabled.
Definition makeDeleteObjectPredicate (key : string) (obj : ObjectMeta) : bool := checkAnnotation (om_Annotations obj) key.

(** The predicates [SetupWithManager] installs for the three kinds. *)
Definition annotationPredicate (ev : Event) : bool :=
  match ev with
  | CreateEvent obj => makeNewObjectPredicate defaultRegistryExportAnnotation obj
  | UpdateEvent old new => makeUpdateObjectPredicate defaultRegistryExportAnnotation old new
  | DeleteEvent obj => makeDeleteObjectPredicate defaultRegistryExportAnnotation obj
  end.

(** [enqueueMCPServerRequests]: the namespace and name of the object; of an
    update, the new one. *)
Definition enqueueMCPServerRequests (obj : ObjectMeta) : string * string := (om_Namespace obj, om_Name obj).

(** ** Options *)

Record mcpServerReconcilerOptions := {
  ro_namespaces : list string;
  ro_requeueAfter : Z;
  ro_syncWriter : option dbSyncWriter;
  ro_registryName : string;
  ro_leaderElectionID : string }.

Definition ReconcilerOption : Type := mcpServerReconcilerOptions -> result mcpServerReconcilerOptions.

Definition defaultRequeueAfter : Z := 10 * Second.
Definition leaderElectionID : string := "toolhive-registry-server-leader-election".

Definition validateNamespaces (namespaces : list string) : result () :=
  for_each (fun namespace => guard_err (negb (SourceName.IsValidDNSSubdomain namespace)) (EMsg "invalid namespace name: %s")) namespaces.

Fixpoint distinct_namespaces (nsSet : gset string) (namespaces : list string) : result () :=
  match namespaces with
  | [] => Ok ()
  | namespace :: rest =>
      if bool_decide (namespace ∈ nsSet) then Err (EMsg "duplicate namespace: %s")
      else distinct_namespaces ({[ namespace ]} ∪ nsSet) rest
  end.

Definition add_namespaces (o : mcpServerReconcilerOptions) (namespaces : list string) : mcpServerReconcilerOptions :=
  {| ro_namespaces := ro_namespaces o ++ namespaces; ro_requeueAfter := ro_requeueAfter o; ro_syncWriter := ro_syncWriter o;
     ro_registryName := ro_registryName o; ro_leaderElectionID := ro_leaderElectionID o |}.

Definition WithNamespaces (namespaces : list string) : ReconcilerOption := fun o =>
  validateNamespaces namespaces ;;;
  distinct_namespaces ∅ namespaces ;;;
  Ok (add_namespaces o namespaces).

(** [readNamespaceFromFile] on the first 257 bytes the file gives. *)
Definition readNamespaceFromFile (opened : result (result string)) : result string :=
  match opened with
  | Err _ => Err (EMsg "failed to open namespace file: %w")
  | Ok (Err _) => Err (EMsg "failed to read namespace: %w")
  | Ok (Ok content) =>
      let buf := take 257 (to_bytes content) in
      if (256 <? List.length buf)%nat then Err (EMsg "namespace file exceeds maximum size of 256 bytes")
      else Ok (TrimSpace (of_bytes buf))
  end.

Definition WithCurrentNamespace (file : result (result string)) : ReconcilerOption := fun o =>
  namespace <- readNamespaceFromFile file ;;
  Ok (add_namespaces o [namespace]).

Definition WithRequeueAfter (requeueAfter : Z) : ReconcilerOption := fun o =>
  if (requeueAfter <=? 0)%Z then Err (EMsg "requeueAfter must be greater than 0")
  else Ok {| ro_namespaces := ro_namespaces o; ro_requeueAfter := requeueAfter; ro_syncWriter := ro_syncWriter o;
             ro_registryName := ro_registryName o; ro_leaderElectionID := ro_leaderElectionID o |}.

Definition WithSyncWriter (sw : option dbSyncWriter) : ReconcilerOption := fun o =>
  match sw with
  | None => Err (EMsg "sync writer is required")
  | Some _ => Ok {| ro_namespaces := ro_namespaces o; ro_requeueAfter := ro_requeueAfter o; ro_syncWriter := sw;
                    ro_registryName := ro_registryName o; ro_leaderElectionID := ro_leaderElectionID o |}
  end.

Definition WithRegistryName (name : string) : ReconcilerOption := fun o =>
  if String.eqb name "" then Err (EMsg "registry name is required")
  else Ok {| ro_namespaces := ro_namespaces o; ro_requeueAfter := ro_requeueAfter o; ro_syncWriter := ro_syncWriter o;
             ro_registryName := name; ro_leaderElectionID := ro_leaderElectionID o |}.

Definition WithLeaderElectionID (id : string) : ReconcilerOption := fun o =>
  if String.eqb id "" then Err (EMsg "leader election ID is required")
  else Ok {| ro_namespaces := ro_namespaces o; ro_requeueAfter := ro_requeueAfter o; ro_syncWriter := ro_syncWriter o;
             ro_registryName := ro_registryName o; ro_leaderElectionID := id |}.

(** What a manager is made with: its lease, the namespaces its cache is limited
    to (none: all namespaces) and its controller. *)
Record Manager := {
  mg_LeaderElectionID : string;
  mg_DefaultNamespaces : gset string;
  mg_Controller : MCPServerReconciler }.

(** controller-runtime: the scheme, the manager, and the registration of the
    controller with it. *)
Class ControllerRuntime := {
  AddToScheme : result ();
  NewManager : Manager -> result ();
  SetupWithManager : Manager -> result () }.

Fixpoint apply_reconciler_options (opts : list ReconcilerOption) (o : mcpServerReconcilerOptions) : result mcpServerReconcilerOptions :=
  match opts with
  | [] => Ok o
  | opt :: opts' => o' <- opt o ;; apply_reconciler_options opts' o'
  end.

Definition NewMCPServerReconciler `{CR : ControllerRuntime} (opts : list ReconcilerOption) : result Manager :=
  o <- apply_reconciler_options opts {| ro_namespaces := []; ro_requeueAfter := defaultRequeueAfter; ro_syncWriter := None;
                             ro_registryName := ""; ro_leaderElectionID := "" |} ;;
  match ro_syncWriter o with
  | None => Err (EMsg "sync writer is required")
  | Some syncWriter =>
      guard_err (String.eqb (ro_registryName o) "") (EMsg "registry name is required") ;;;
      let leaderID := if String.eqb (ro_leaderElectionID o) "" then leaderElectionID else ro_leaderElectionID o in
      let mgr := {| mg_LeaderElectionID := leaderID;
                    mg_DefaultNamespaces := list_to_set (ro_namespaces o);
                    mg_Controller := {| mr_requeueAfter := ro_requeueAfter o; mr_syncWriter := syncWriter;
                                        mr_registryName := ro_registryName o |} |} in
      match AddToScheme with Err _ => Err (EMsg "failed to add MCPv1beta1 scheme: %w") | Ok _ =>
      match NewManager mgr with Err _ => Err (EMsg "failed to create manager: %w") | Ok _ =>
      match SetupWithManager mgr with Err _ => Err (EMsg "failed to setup controller with manager: %w") | Ok _ =>
      Ok mgr
      end end end
  end.

(** ** Names are valid *)

Lemma len_app a b : len (a +:+ b) = (len a + len b)%nat.
Proof. unfold len. rewrite <-!to_bytes_length, to_bytes_app. apply length_app. Qed.

Lemma append_assoc a b c : a +:+ (b +:+ c) = (a +:+ b) +:+ c.
Proof. rewrite <-(of_to_bytes (a +:+ (b +:+ c))), <-(of_to_bytes ((a +:+ b) +:+ c)), !to_bytes_app. by rewrite app_assoc. Qed.

Lemma lower_alnum_alnum c : lower_alnum c = true -> alnum c = true.
Proof. unfold lower_alnum, alnum. intros H. apply orb_true_iff in H as [->| ->]; rewrite ?orb_true_r; done. Qed.
Lemma dns_class_ns c : dns_class c = true -> ns_class c = true.
Proof.
  unfold dns_class, ns_class. intros H. apply orb_true_iff in H as [->|H%lower_alnum_alnum]; [by rewrite orb_true_r|by rewrite H].
Qed.
Lemma dns_class_name c : dns_class c = true -> name_class c = true.
Proof.
  unfold dns_class, name_class. intros H. apply orb_true_iff in H as [->|H%lower_alnum_alnum]; [|by rewrite H].
  by rewrite ?orb_true_r.
Qed.

Lemma dns_label_spec s : SourceName.IsValidDNSSubdomain s = true <->
  bracketed lower_alnum dns_class (to_bytes s) /\ (len s <= 63)%nat.
Proof.
  unfold SourceName.IsValidDNSSubdomain, MatchString. rewrite re_match_spec, dnsSubdomainRegex_spec, to_bytes_length. done.
Qed.

Lemma bracketed_mono (A B A' B' : ascii -> bool) l : (forall c, A c = true -> A' c = true) -> (forall c, B c = true -> B' c = true) ->
  bracketed A B l -> bracketed A' B' l.
Proof.
  intros HA HB [(c & Hc & ->)|(c & m & d & Hc & Hd & Hm & ->)]; [left|right].
  - eauto.
  - exists c, m, d. split_and!; auto. eapply Forall_impl; [exact Hm|]. eauto.
Qed.

Lemma bracketed_extend (A B : ascii -> bool) c p l : (forall c, A c = true -> B c = true) -> A c = true ->
  Forall (fun c => B c = true) p -> bracketed A B l -> bracketed A B (c :: p ++ l).
Proof.
  intros HAB Hc Hp [(d & Hd & ->)|(d & m' & d' & Hd & Hd' & Hm' & ->)]; right.
  - by exists c, p, d.
  - exists c, (p ++ d :: m'), d'. split_and!; try done.
    + apply Forall_app. split; [done|]. constructor; [auto|done].
    + by rewrite <-app_assoc.
Qed.

(** A namespace and a name that are DNS labels always give a name, and one the
    registry accepts. *)
Lemma GenerateServerName_valid ns nm :
  SourceName.IsValidDNSSubdomain ns = true -> SourceName.IsValidDNSSubdomain nm = true ->
  exists s, GenerateServerName ns nm = Ok s /\ ServerName.valid_name s.
Proof.
  intros [Hns Lns]%dns_label_spec [Hnm Lnm]%dns_label_spec. unfold GenerateServerName.
  pose proof (bracketed_Forall _ _ _ lower_dns Hns) as [N1 _]. pose proof (bracketed_Forall _ _ _ lower_dns Hnm) as [N2 _].
  rewrite !(proj2 (String.eqb_neq _ _)) by (by intros ->). cbn [guard_err rbind].
  set (s := k8sServerNamePrefix +:+ "." +:+ ns +:+ "/" +:+ nm).
  assert (Hlen : (len s = 18 + len ns + len nm)%nat). { unfold s. rewrite !len_app. change (len k8sServerNamePrefix) with 16%nat. change (len ".") with 1%nat. change (len "/") with 1%nat. lia. }
  assert ((k8sMaxServerNameLength <? len s)%nat = false) as ->. { apply Nat.ltb_ge. unfold k8sMaxServerNameLength. lia. }
  cbn [guard_err rbind]. exists s. split; [done|].
  exists (k8sServerNamePrefix +:+ "." +:+ ns), nm. split_and!.
  - unfold s. by rewrite !append_assoc.
  - rewrite !to_bytes_app, app_assoc. cbn [to_bytes k8sServerNamePrefix list_ascii_of_string app].
    apply (bracketed_extend _ _ "c" (tl (to_bytes "com.toolhive.k8s."))); [apply alnum_ns|done|..].
    + by repeat (apply Forall_cons; split; [done|]).
    + eapply bracketed_mono; [| |exact Hns]; [apply lower_alnum_alnum|apply dns_class_ns].
  - eapply bracketed_mono; [| |exact Hnm]; [apply lower_alnum_alnum|apply dns_class_name].
  - lia.
  - lia.
Qed.

(** Names of different objects differ. *)
Lemma GenerateServerName_inj ns nm ns' nm' s : "/"%char ∉ to_bytes ns -> "/"%char ∉ to_bytes ns' ->
  GenerateServerName ns nm = Ok s -> GenerateServerName ns' nm' = Ok s -> ns = ns' /\ nm = nm'.
Proof.
  unfold GenerateServerName. intros H1 H2 E1 E2. inv_ok. simplify_eq.
  assert (Hb : to_bytes ns ++ "/"%char :: to_bytes nm = to_bytes ns' ++ "/"%char :: to_bytes nm').
  { pose proof (f_equal to_bytes E2) as Hb. cbn in Hb. rewrite !to_bytes_app in Hb. cbn in Hb. by simplify_eq. }
  pose proof (ServerName.cut_bytes_app _ _ (to_bytes nm) H1) as C1. pose proof (ServerName.cut_bytes_app _ _ (to_bytes nm') H2) as C2.
  rewrite Hb, C2 in C1. injection C1 as Ea Eb. split; [rewrite <-(of_to_bytes ns), <-(of_to_bytes ns')|rewrite <-(of_to_bytes nm), <-(of_to_bytes nm')]; congruence.
Qed.

(** ** The tag of an image *)

Lemma list_find_hit (c : ascii) a b : c ∉ a -> list_find (eq c) (a ++ c :: b) = Some (List.length a, c).
Proof.
  intros Ha. apply list_find_Some. split_and!; [by rewrite list_lookup_middle|done|].
  intros j y Hj Hlt <-. apply Ha. rewrite lookup_app_l in Hj by lia. by eapply list_elem_of_lookup_2.
Qed.
Lemma list_find_miss (c : ascii) l : c ∉ l -> list_find (eq c) l = None.
Proof. intros H. apply list_find_None. apply Forall_forall. intros x Hx <-. done. Qed.

Lemma Index_cut s c : let at_ := Index s c in
  (if (at_ =? -1)%Z then s else of_bytes (take (Z.to_nat at_) (to_bytes s))) = of_bytes (fst (cut_bytes c (to_bytes s))).
Proof.
  cbn. unfold Index. pose proof (ServerName.cut_bytes_spec c (to_bytes s)) as H. destruct (cut_bytes c (to_bytes s)) as [a [b|]]; destruct H as [E Ha]; cbn.
  - rewrite E, list_find_hit by done. rewrite (proj2 (Z.eqb_neq _ _)) by lia. by rewrite Nat2Z.id, take_app_length.
  - rewrite E, list_find_miss by done. cbn. by rewrite <-E, of_to_bytes.
Qed.

Lemma LastIndex_hit c a b : c ∉ b -> LastIndex (of_bytes (a ++ c :: b)) c = Z.of_nat (List.length a).
Proof.
  intros Hb. unfold LastIndex, len. rewrite <-to_bytes_length, to_of_bytes, rev_app_distr. cbn. rewrite <-app_assoc. cbn.
  rewrite list_find_hit by (by rewrite list_elem_of_In, <-in_rev, <-list_elem_of_In).
  rewrite length_rev, length_app. cbn. lia.
Qed.
Lemma LastIndex_miss c l : c ∉ l -> LastIndex (of_bytes l) c = (-1)%Z.
Proof.
  intros Hl. unfold LastIndex. rewrite to_of_bytes, list_find_miss; [done|]. by rewrite list_elem_of_In, <-in_rev, <-list_elem_of_In.
Qed.

Lemma slash_before_colon a t : "/"%char ∉ t -> (LastIndex (of_bytes (a ++ ":"%char :: t)) "/" < Z.of_nat (List.length a))%Z.
Proof.
  intros Ht. destruct (decide ("/"%char ∈ a)) as [(a1 & a2 & -> & Ha)%list_elem_of_split_r|Ha].
  - rewrite <-app_assoc. cbn. rewrite LastIndex_hit; [rewrite length_app; cbn; lia|]. rewrite elem_of_app, elem_of_cons. naive_solver.
  - rewrite LastIndex_miss; [lia|]. rewrite elem_of_app, elem_of_cons. naive_solver.
Qed.

(** Of a reference without its digest: what follows the last colon, if no slash
    does; a colon before a slash belongs to a port. *)
Lemma parseImageTag_spec image : let ref := fst (cut_bytes "@" (to_bytes image)) in
  (forall a t, ref = a ++ ":"%char :: t -> ":"%char ∉ t -> "/"%char ∉ t -> parseImageTag image = of_bytes t) /\
  ((forall a t, ref = a ++ ":"%char :: t -> ":"%char ∉ t -> "/"%char ∈ t) -> parseImageTag image = "").
Proof.
  intros ref. unfold parseImageTag. rewrite (Index_cut image "@"). fold ref. split.
  - intros a t -> Hc Hs. rewrite LastIndex_hit by done. pose proof (slash_before_colon a t Hs) as Hlt.
    rewrite (proj2 (Z.eqb_neq _ _)), (proj2 (Z.ltb_ge _ _)) by lia. cbn. rewrite to_of_bytes.
    replace (Z.to_nat (Z.of_nat (List.length a) + 1)) with (List.length a + 1)%nat by lia. rewrite <-drop_drop, drop_app_length. done.
  - intros Hno. destruct (decide (":"%char ∈ ref)) as [(a & t & E & Ht)%list_elem_of_split_r|Hn].
    + pose proof (Hno a t E Ht) as (t1 & t2 & -> & Ht2)%list_elem_of_split_r. rewrite E at 2. rewrite E, LastIndex_hit by done.
      replace (a ++ ":"%char :: t1 ++ "/"%char :: t2) with ((a ++ ":"%char :: t1) ++ "/"%char :: t2) by (by rewrite <-app_assoc).
      rewrite LastIndex_hit by done. rewrite (proj2 (Z.ltb_lt _ _)); [by rewrite orb_true_r|]. rewrite length_app. cbn. lia.
    + by rewrite LastIndex_miss.
Qed.

(** ** Versions and claims *)

Section ExtractFacts.
Context `{MC : ModelConstants} `{RJ : ResourceJson} `{L : SemverLib} `{C : JsonCodec}.

(** Whatever the annotations and the image say, the version is publishable, or
    the fallback. *)
Lemma resolveServerVersion_publishable m image :
  IsPublishable (resolveServerVersion m image) = true \/ resolveServerVersion m image = defaultServerVersion.
Proof. unfold resolveServerVersion. repeat case_match; try (by right); left; try done. by apply andb_true_iff in H as [_ ?]. Qed.

(** The annotation wins over the tag, the tag over the fallback. *)
Lemma resolveServerVersion_order m image :
  let annotated := TrimSpace (default "" (annotation m defaultRegistryVersionAnnotation)) in
  let tag := TrimSpace (parseImageTag image) in
  resolveServerVersion m image =
    if IsPublishable annotated then annotated else if IsPublishable tag then tag else defaultServerVersion.
Proof.
  intros annotated tag. unfold resolveServerVersion. fold annotated tag. destruct (String.eqb_spec annotated "") as [->|]; [|done].
  cbn. reflexivity.
Qed.

(** Claims of an annotation are stored in a form that reads back as valid claims,
    or the annotation is refused. *)
Lemma parseEntryClaims_sound m data : JsonLaws C -> (forall raw cs, unmarshal_claims raw = Some (Some cs) -> utf8_text cs) ->
  parseEntryClaims m = Ok (Some data) -> data = "null" \/
  exists raw cs, annotation m defaultAuthzClaimsAnnotation = Some raw /\ unmarshal_claims raw = Some (Some cs) /\
    well_valued cs /\ json_Unmarshal data = Some (normalize cs).
Proof.
  intros HL Hu H. unfold parseEntryClaims in H. destruct (annotation m _) as [raw|] eqn:Ea; [|done].
  destruct (String.eqb raw ""); [done|]. destruct (unmarshal_claims raw) as [[cs|]|] eqn:Ec; [| |done].
  2:{ left. by simplify_eq. }
  right. exists raw, cs. destruct (ValidateClaimValues cs) as [[]|] eqn:Ev; [|done].
  assert (Hw : well_valued cs) by by apply ValidateClaimValues_iff.
  destruct (marshal_unmarshal cs) as (b & Hb & Hr); [by split; [|by eapply Hu]|]. rewrite Hb in H. by simplify_eq.
Qed.
End ExtractFacts.

(** ** What a namespace publishes *)

Section Published.
Context `{MC : ModelConstants} `{RJ : ResourceJson} `{L : SemverLib} `{C : JsonCodec}.

(** The entry of a resource, with the claims of its own: none unless it has a
    description and a URL, converts, and its claims annotation is absent or valid. *)
Definition published (obj : ObjectMeta) (server : result ServerJSON) : option (ServerJSON * option string) :=
  if hasRequiredRegistryAnnotations (om_Annotations obj) then
    match server, parseEntryClaims (om_Annotations obj) with
    | Ok s, Ok cs => Some (s, cs)
    | _, _ => None
    end
  else None.

Definition add_claims (m : gmap string string) (p : ServerJSON * option string) : gmap string string :=
  match snd p with Some data => <[sj_Name (fst p) := data]> m | None => m end.
Definition claims_of (l : list (ServerJSON * option string)) : gmap string string := foldl add_claims ∅ l.

Definition exported (ms : list MCPServer) (vs : list VirtualMCPServer) (ps : list MCPRemoteProxy)
    : list (ServerJSON * option string) :=
  omap (fun s => published (ms_Meta s) (extractServer s)) ms ++
  omap (fun s => published (vs_Meta s) (extractVirtualMCPServer s)) vs ++
  omap (fun s => published (rp_Meta s) (extractMCPRemoteProxy s)) ps.

Lemma processResources_spec {T} (meta : T -> ObjectMeta) ex items servers pc :
  let found := omap (fun s => published (meta s) (ex s)) items in
  processResources meta ex items servers pc = (servers ++ found.*1, foldl add_claims pc found).
Proof.
  cbn zeta. revert servers pc. induction items as [|obj items IH]; intros servers pc; cbn; [by rewrite app_nil_r|].
  destruct (published (meta obj) (ex obj)) as [[s cs]|] eqn:E; unfold published in E;
    destruct (hasRequiredRegistryAnnotations (om_Annotations (meta obj))); destruct (ex obj) as [s'|]; destruct (parseEntryClaims (om_Annotations (meta obj))) as [cs'|]; simplify_eq;
    cbn; rewrite IH; try done.
  rewrite <-app_assoc. cbn. by destruct cs.
Qed.

Lemma getMCPServerList_spec c ns :
  getMCPServerList c ns =
    match list_MCPServers c ns, list_VirtualMCPServers c ns, list_MCPRemoteProxies c ns with
    | Ok ms, Ok vs, Ok ps =>
        let l := exported ms vs ps in
        Ok {| rr_Registry := registry_of l.*1;
              rr_PerEntryClaims := if (0 <? size (claims_of l))%nat then Some (claims_of l) else None |}
    | Err _, _, _ => Err (EMsg "failed to list MCPServers: %w")
    | Ok _, Err _, _ => Err (EMsg "failed to list VirtualMCPServers: %w")
    | Ok _, Ok _, Err _ => Err (EMsg "failed to list MCPRemoteProxies: %w")
    end.
Proof.
  unfold getMCPServerList. destruct (list_MCPServers c ns) as [ms|]; [|done].
  destruct (list_VirtualMCPServers c ns) as [vs|]; [|done]. destruct (list_MCPRemoteProxies c ns) as [ps|]; [|done].
  rewrite !processResources_spec. cbn [app]. unfold exported, claims_of. by rewrite !fmap_app, !foldl_app, app_assoc.
Qed.

Lemma foldl_claims l m name : name ∉ sj_Name <$> l.*1 -> foldl add_claims m l !! name = m !! name.
Proof.
  revert m. induction l as [|[s cs] l IH]; intros m Hn; [done|]. cbn in *. rewrite not_elem_of_cons in Hn. destruct Hn as [Hs Hn].
  rewrite IH by done. unfold add_claims. cbn. destruct cs; [|done]. by rewrite lookup_insert_ne.
Qed.

(** Of names that differ, each keeps the claims of its own resource. *)
(** The claims stored for a name: of the last of its resources that has some. *)
Definition own_claims (name : string) (p : ServerJSON * option string) : option string :=
  if String.eqb (sj_Name (fst p)) name then snd p else None.
Definition name_claims (l : list (ServerJSON * option string)) (name : string) : option string := last (omap (own_claims name) l).
Lemma claims_of_last l name : claims_of l !! name = name_claims l name.
Proof.
  unfold claims_of, name_claims. induction l as [|[s cs] l IH] using rev_ind; [done|]. rewrite foldl_snoc, omap_app. cbn.
  unfold add_claims at 1, own_claims at 2. cbn. destruct (String.eqb_spec (sj_Name s) name) as [->|Hne]; cbn.
  - destruct cs; cbn; [by rewrite lookup_insert_eq, last_snoc|by rewrite app_nil_r].
  - rewrite app_nil_r, <-IH. destruct cs; [by rewrite lookup_insert_ne|done].
Qed.

(** Where names are distinct these are the claims of the resource itself. *)
Lemma name_claims_own l s cs : NoDup (sj_Name <$> l.*1) -> (s, cs) ∈ l -> name_claims l (sj_Name s) = cs.
Proof.
  intros Hnd Hin. rewrite <-claims_of_last. unfold claims_of. apply list_elem_of_split in Hin as (l1 & l2 & ->). rewrite !fmap_app in Hnd. cbn in Hnd.
  apply NoDup_app in Hnd as (_ & H1 & H2). apply NoDup_cons in H2 as [H2 _]. rewrite foldl_app. cbn.
  rewrite foldl_claims by done. assert (H0 : foldl add_claims ∅ l1 !! sj_Name s = None).
  { rewrite foldl_claims; [done|]. intros Hx. apply (H1 _ Hx). by left. }
  unfold add_claims at 1. cbn. destruct cs; [by rewrite lookup_insert_eq|done].
Qed.

(** What a published resource looks like. *)
Lemma extract_ok obj image tr pk s : extract_resource obj image tr pk = Ok s ->
  GenerateServerName (om_Namespace obj) (om_Name obj) = Ok (sj_Name s) /\ sj_Packages s = pk /\
  sj_Version s = resolveServerVersion (om_Annotations obj) image /\
  annotation (om_Annotations obj) defaultRegistryDescriptionAnnotation = Some (sj_Description s) /\
  (tr_URL <$> sj_Remotes s) = option_list (annotation (om_Annotations obj) defaultRegistryURLAnnotation).
Proof.
  unfold extract_resource. destruct (GenerateServerName _ _) as [nm|]; [|done]. destruct (om_Annotations obj) as [ann|]; [|done]. cbn.
  intros H. destruct (ann !! defaultRegistryDescriptionAnnotation); [|done]. destruct (ann !! defaultRegistryURLAnnotation); [|done].
  destruct (structToMap _); [|done]. by injection H as <-.
Qed.

(** The resource behind an entry. *)
Lemma exported_from ms vs ps s cs : (s, cs) ∈ exported ms vs ps -> exists obj image tr pk,
  (obj ∈ (ms_Meta <$> ms) ++ (vs_Meta <$> vs) ++ (rp_Meta <$> ps)) /\ extract_resource obj image tr pk = Ok s /\
  hasRequiredRegistryAnnotations (om_Annotations obj) = true /\ parseEntryClaims (om_Annotations obj) = Ok cs.
Proof.
  assert (Hp : forall T (meta : T -> ObjectMeta) ex (l : list T), (s, cs) ∈ omap (fun s => published (meta s) (ex s)) l ->
    exists x, x ∈ l /\ ex x = Ok s /\ hasRequiredRegistryAnnotations (om_Annotations (meta x)) = true /\ parseEntryClaims (om_Annotations (meta x)) = Ok cs).
  { intros T meta ex l (x & Hx & E)%list_elem_of_omap. exists x. unfold published in E. split; [done|].
    destruct (hasRequiredRegistryAnnotations _) eqn:?; [|done]. destruct (ex x) eqn:?; [|done]. destruct (parseEntryClaims _); [|done]. by simplify_eq. }
  unfold exported. rewrite !elem_of_app. intros [H|[H|H]]; apply Hp in H as (x & Hx & E & H1 & H2).
  - exists (ms_Meta x), (ms_Image x), (ms_Transport x), (extractPackages x). split_and!; try done. apply elem_of_app. left. by apply list_elem_of_fmap_2.
  - exists (vs_Meta x), "", "", []. split_and!; try done. rewrite !elem_of_app. right. left. by apply list_elem_of_fmap_2.
  - exists (rp_Meta x), "", "", []. split_and!; try done. rewrite !elem_of_app. right. right. by apply list_elem_of_fmap_2.
Qed.
End Published.

(** ** Reconciliation is correct *)

(** Names of namespaces and objects. *)
Definition k8s_name (s : string) : Prop := Forall (fun c => (dns_class c || Ascii.eqb c ".")%bool = true) (to_bytes s).

(** Documented of Kubernetes: objects listed for a namespace are of that
    namespace, and names are DNS labels and subdomains. *)
Definition in_namespace (ns : string) (obj : ObjectMeta) : Prop :=
  om_Namespace obj = ns /\ k8s_name ns /\ k8s_name (om_Name obj).
Class ClusterLaws (c : Cluster) : Prop := {
  list_MCPServers_in : forall ns l, ns <> "" -> list_MCPServers c ns = Ok l -> Forall (in_namespace ns) (ms_Meta <$> l);
  list_VirtualMCPServers_in : forall ns l, ns <> "" -> list_VirtualMCPServers c ns = Ok l -> Forall (in_namespace ns) (vs_Meta <$> l);
  list_MCPRemoteProxies_in : forall ns l, ns <> "" -> list_MCPRemoteProxies c ns = Ok l -> Forall (in_namespace ns) (rp_Meta <$> l) }.

Lemma k8s_name_no_at s : k8s_name s -> "@"%char ∉ to_bytes s.
Proof. intros H. by eapply (class_excludes (fun c => dns_class c || Ascii.eqb c ".")%bool). Qed.

Lemma GenerateServerName_no_at ns nm s : k8s_name ns -> k8s_name nm -> GenerateServerName ns nm = Ok s -> no_at s.
Proof.
  intros H1%k8s_name_no_at H2%k8s_name_no_at H. unfold GenerateServerName in H. inv_ok. subst s. unfold no_at. rewrite !to_bytes_app, !elem_of_app.
  intros [Hx|[Hx|[Hx|[Hx|Hx]]]]; try done; by apply (bool_decide_eq_true_2 (_ ∈ _)) in Hx; vm_compute in Hx.
Qed.

Section ReconcileCorrect.
Context `{MC : ModelConstants} `{RJ : ResourceJson} `{L : SemverLib} `{!SemverLaws L} `{C : JsonCodec}.
Context `{SC : ServerCodec} `{AC : ArtifactCodec}.

(** The database after the resources of namespace [ns] were stored. *)
Record namespace_stored (mx : Z) (src : SourceRow) (ns : string) (l : list (ServerJSON * option string)) (d d' : DB) : Prop := {
  ns_stored : registry_stored mx src (registry_of l.*1) (claims_of l) d d';
  ns_claims : forall s, s ∈ l.*1 -> exists e r,
    holds d' (so_id src) EntryTypeMCP (sj_Name s) (sj_Version s) e r /\ en_claims e = default (so_claims src) (name_claims l (sj_Name s));
  ns_own : NoDup (sj_Name <$> l.*1) -> forall s cs, (s, cs) ∈ l -> exists e r,
    holds d' (so_id src) EntryTypeMCP (sj_Name s) (sj_Version s) e r /\ en_claims e = default (so_claims src) cs;
  ns_latest : is_semver defaultServerVersion = true -> forall s, s ∈ l.*1 ->
    points_to_newest d' (so_id src) EntryTypeMCP (server_pairs l.*1) (sj_Name s);
  ns_only : forall name v e r, holds d' (so_id src) EntryTypeMCP name v e r -> exists nm, GenerateServerName ns nm = Ok name }.

Lemma exported_names c ns ms vs ps s : ClusterLaws c -> ns <> "" ->
  list_MCPServers c ns = Ok ms -> list_VirtualMCPServers c ns = Ok vs -> list_MCPRemoteProxies c ns = Ok ps ->
  s ∈ (exported ms vs ps).*1 -> no_at (sj_Name s) /\ (exists nm, GenerateServerName ns nm = Ok (sj_Name s)) /\
  (is_semver defaultServerVersion = true -> is_semver (sj_Version s) = true).
Proof.
  intros HC Hns H1 H2 H3 ([s' cs] & -> & Hin)%list_elem_of_fmap. cbn.
  destruct (exported_from _ _ _ _ _ Hin) as (obj & image & tr & pk & Hobj & (Hg & _ & Hv & _)%extract_ok & _).
  assert (Hall : Forall (in_namespace ns) ((ms_Meta <$> ms) ++ (vs_Meta <$> vs) ++ (rp_Meta <$> ps))).
  { apply Forall_app. split; [by apply list_MCPServers_in|]. apply Forall_app. split; [by apply list_VirtualMCPServers_in|by apply list_MCPRemoteProxies_in]. }
  rewrite Forall_forall in Hall. destruct (Hall _ Hobj) as (E & Kn & Ko). rewrite E in Hg. split_and!.
  - exact (GenerateServerName_no_at ns (om_Name obj) _ Kn Ko Hg).
  - by exists (om_Name obj).
  - intros Hd. rewrite Hv. destruct (resolveServerVersion_publishable (om_Annotations obj) image) as [Hp|Ep]; [by apply publishable_semver|by rewrite Ep].
Qed.

(** What an outcome promises.  When an error is reported nothing has changed;
    otherwise the source holds exactly the published resources of the namespace,
    and the rest of the database is as it was. *)
Definition reconciled (r : MCPServerReconciler) (c : Cluster) (ns : string) (d : DB) (q : Z) (e : option error) (d' : DB) : Prop :=
  match e with
  | Some _ => d' = d /\ (q = 0%Z \/ q = mr_requeueAfter r)
  | None => q = 0%Z /\ same_admin d d' /\ exists ms vs ps src,
      list_MCPServers c ns = Ok ms /\ list_VirtualMCPServers c ns = Ok vs /\ list_MCPRemoteProxies c ns = Ok ps /\
      d_source d !! mr_registryName r = Some src /\
      namespace_stored (dw_maxMetaSize (mr_syncWriter r)) src ns (exported ms vs ps) d d'
  end.

Lemma Reconcile_run r c ns now o n d :
  sane d -> (forall src, d_source d !! mr_registryName r = Some src -> plain_names d (so_id src)) ->
  ClusterLaws c -> ns <> "" ->
  exists q e n' d', Reconcile r c ns now o n d = (Ok (q, e), n', d') /\ reconciled r c ns d q e d'.
Proof.
  intros Hs Hplain HC Hns. unfold Reconcile, reconciled. rewrite getMCPServerList_spec.
  destruct (list_MCPServers c ns) as [ms|] eqn:E1; [|eexists 0%Z, (Some _), n, d; split; [reflexivity|]; by auto].
  destruct (list_VirtualMCPServers c ns) as [vs|] eqn:E2; [|eexists 0%Z, (Some _), n, d; split; [reflexivity|]; by auto].
  destruct (list_MCPRemoteProxies c ns) as [ps|] eqn:E3; [|eexists 0%Z, (Some _), n, d; split; [reflexivity|]; by auto].
  cbv zeta. cbn [rr_Registry rr_PerEntryClaims]. set (l := exported ms vs ps).
  assert (Hpc : match (if (0 <? size (claims_of l))%nat then Some (claims_of l) else None) with
                | Some m => if (0 <? size m)%nat then m else ∅ | None => ∅ end = claims_of l).
  { destruct (0 <? size (claims_of l))%nat eqn:Ez; [by rewrite Ez|]. apply Nat.ltb_ge in Ez. symmetry. apply map_size_empty_inv. lia. }
  rewrite Hpc. unfold mbind, Q_bind, attempt. destruct (db_Store _ _ _ _ _ _ _ _) as [[[[]|err] n1] d1] eqn:E.
  - exists 0%Z, None, n1, d1. split; [done|]. split; [done|].
    assert (Hn : forall s, s ∈ l.*1 -> _) by (intros s; by apply (exported_names c ns ms vs ps s HC Hns E1 E2 E3)).
    pose proof (db_Store_same _ _ _ _ _ _ _ _ _ _ _ E) as Hadm.
    destruct (db_Store_stored _ _ (registry_of l.*1) _ _ _ _ _ _ _ Hs (fun s H => proj1 (Hn s H)) Hplain ltac:(by intros ?? ?%elem_of_nil)
      ltac:(by intros ?? ?%elem_of_nil) E) as (src & Hsrc & Hst). split; [done|].
    exists ms, vs, ps, src. split_and!; try done. split; [done|..].
    + intros s Hin. destruct (rs_servers _ _ _ _ _ _ Hst s Hin) as (e & r' & (Hh & Hc & _) & _). exists e, r'. split; [done|]. by rewrite Hc, claims_of_last.
    + intros Hnd s cs Hin. destruct (rs_servers _ _ _ _ _ _ Hst s) as (e & r' & (Hh & Hc & _) & _); [by apply (list_elem_of_fmap_2 fst _ (s, cs))|].
      exists e, r'. split; [done|]. rewrite Hc, claims_of_last. by rewrite (name_claims_own l s cs).
    + intros Hd s Hin. apply (rs_latest _ _ _ _ _ _ Hst); [done| |by apply not_elem_of_nil|by apply not_elem_of_nil].
      intros s' Hs' _. by apply Hn.
    + intros name v e r' Hh. destruct (rs_exact _ _ _ _ _ _ Hst) as (Hex & _). assert (Hin : (name, v) ∈ server_pairs l.*1) by (apply Hex; eauto).
      apply list_elem_of_fmap in Hin as (s & [= -> ->] & Hin). by apply Hn.
  - exists (mr_requeueAfter r), (Some err), n1, d1. split; [done|]. split; [|by right]. cbn in E. by apply transaction_atomic in E.
Qed.
(** C20. A reconciliation of a namespace always returns.  When it reports an error
    nothing has changed; otherwise the source holds exactly the servers of the
    published resources of the namespace (those with a description and a URL that
    convert and whose claims annotation is absent or valid), stored as C17 says,
    and the rest of the database is as it was.  An entry has the claims of the
    resource's annotation in the place of the source's (they are not merged), or
    the source's if there is none; resources of different kinds with one name are
    one entry, which has the claims of the last of them that has some, in the order
    MCPServers, VirtualMCPServers, MCPRemoteProxies.  Each name points to its
    newest version if the default version is semantic.  Assumed: the listed
    resources are of the namespace and have names as Kubernetes allows them, and
    the server names in the source have no '@'. *)
Theorem Reconcile_correct r c ns now o n d :
  sane d -> (forall src, d_source d !! mr_registryName r = Some src -> plain_names d (so_id src)) ->
  ClusterLaws c -> ns <> "" ->
  exists q e n' d', Reconcile r c ns now o n d = (Ok (q, e), n', d') /\ reconciled r c ns d q e d'.
Proof. apply Reconcile_run. Qed.
End ReconcileCorrect.

(** ** Watching a namespace

    The work queue of controller-runtime for one namespace, the only one that is
    watched for the source: an event that the
    predicate lets through marks it pending; a worker takes it, lists the
    resources, stores them, and marks it pending again on an error.  Resources
    change, and other parts of the program write, at any moment in between. *)

(** One resource is created, updated or deleted. *)
Inductive change {T} (meta : T -> ObjectMeta) : list T -> list T -> Event -> Prop :=
| change_create l1 x l2 : change meta (l1 ++ l2) (l1 ++ x :: l2) (CreateEvent (meta x))
| change_update l1 x y l2 : change meta (l1 ++ x :: l2) (l1 ++ y :: l2) (UpdateEvent (meta x) (meta y))
| change_delete l1 x l2 : change meta (l1 ++ x :: l2) (l1 ++ l2) (DeleteEvent (meta x)).

Record Resources := { rs_ms : list MCPServer; rs_vs : list VirtualMCPServer; rs_ps : list MCPRemoteProxy }.
Definition metas (rs : Resources) : list ObjectMeta := (ms_Meta <$> rs_ms rs) ++ (vs_Meta <$> rs_vs rs) ++ (rp_Meta <$> rs_ps rs).

Inductive changes : Resources -> Resources -> Event -> Prop :=
| changes_ms rs l ev : change ms_Meta (rs_ms rs) l ev -> changes rs {| rs_ms := l; rs_vs := rs_vs rs; rs_ps := rs_ps rs |} ev
| changes_vs rs l ev : change vs_Meta (rs_vs rs) l ev -> changes rs {| rs_ms := rs_ms rs; rs_vs := l; rs_ps := rs_ps rs |} ev
| changes_ps rs l ev : change rp_Meta (rs_ps rs) l ev -> changes rs {| rs_ms := rs_ms rs; rs_vs := rs_vs rs; rs_ps := l |} ev.

Section Watch.
Context `{MC : ModelConstants} `{RJ : ResourceJson} `{L : SemverLib} `{!SemverLaws L} `{C : JsonCodec}.
Context `{SC : ServerCodec} `{AC : ArtifactCodec}.
Context (rc : MCPServerReconciler) (ns : string) (Hns : ns <> "").

Definition cluster_of (rs : Resources) : Cluster :=
  {| list_MCPServers := fun ns' => Ok (if String.eqb ns' ns then rs_ms rs else []);
     list_VirtualMCPServers := fun ns' => Ok (if String.eqb ns' ns then rs_vs rs else []);
     list_MCPRemoteProxies := fun ns' => Ok (if String.eqb ns' ns then rs_ps rs else []) |}.

(** The discipline the predicate asks of operators: what has a description and a
    URL is also marked for export. *)
Definition marked (obj : ObjectMeta) : Prop :=
  hasRequiredRegistryAnnotations (om_Annotations obj) = true ->
  checkAnnotation (om_Annotations obj) defaultRegistryExportAnnotation = true.
Definition orderly (rs : Resources) : Prop := Forall (fun obj => in_namespace ns obj /\ marked obj) (metas rs).

Record Watch := { wa_resources : Resources; wa_pending : bool; wa_running : option Resources; wa_db : DB }.

(** Somebody else's write: the source and its entries stay.  A reconciliation of a
    second namespace for the same source is no such write: it drops the entries of
    the first ([other_namespace_dropped] below). *)
Definition elsewhere (d d' : DB) : Prop :=
  sane d' /\ d_source d' !! mr_registryName rc = d_source d !! mr_registryName rc /\
  forall src, d_source d !! mr_registryName rc = Some src -> untouched (fun k => fst (fst k) = so_id src) d d'.

Inductive watch_step : Watch -> Watch -> Prop :=
| watch_change w rs' ev : changes (wa_resources w) rs' ev -> orderly rs' ->
    watch_step w {| wa_resources := rs'; wa_pending := wa_pending w || annotationPredicate ev;
                    wa_running := wa_running w; wa_db := wa_db w |}
| watch_start w : wa_pending w = true -> wa_running w = None ->
    watch_step w {| wa_resources := wa_resources w; wa_pending := false; wa_running := Some (wa_resources w); wa_db := wa_db w |}
| watch_finish w rs now o n q e n' d' : wa_running w = Some rs ->
    Reconcile rc (cluster_of rs) ns now o n (wa_db w) = (Ok (q, e), n', d') ->
    watch_step w {| wa_resources := wa_resources w; wa_pending := wa_pending w || bool_decide (e <> None);
                    wa_running := None; wa_db := d' |}
| watch_other w d' : elsewhere (wa_db w) d' ->
    watch_step w {| wa_resources := wa_resources w; wa_pending := wa_pending w; wa_running := wa_running w; wa_db := d' |}.

Definition published_of (rs : Resources) : list (ServerJSON * option string) := exported (rs_ms rs) (rs_vs rs) (rs_ps rs).

(** The source has the servers the resources publish, with their contents and
    claims, and nothing else. *)
Definition in_sync (rs : Resources) (d : DB) : Prop :=
  exists src, d_source d !! mr_registryName rc = Some src /\
    exactly d (so_id src) EntryTypeMCP (server_pairs (published_of rs).*1) /\
    exactly d (so_id src) EntryTypeSKILL [] /\ exactly d (so_id src) EntryTypePLUGIN [] /\
    forall s, s ∈ (published_of rs).*1 -> exists e r,
      server_here (dw_maxMetaSize (mr_syncWriter rc)) (fun name => default (so_claims src) (name_claims (published_of rs) name))
        d (so_id src) s e r /\ contents_of d (ve_id r) s.
Lemma in_sync_published rs rs' d : published_of rs = published_of rs' -> in_sync rs d -> in_sync rs' d.
Proof. unfold in_sync. by intros ->. Qed.

Record watch_inv (w : Watch) : Prop := {
  wi_sane : sane (wa_db w);
  wi_plain : forall src, d_source (wa_db w) !! mr_registryName rc = Some src -> plain_names (wa_db w) (so_id src);
  wi_orderly : orderly (wa_resources w);
  wi_running : forall rs, wa_running w = Some rs -> orderly rs /\ (wa_pending w = true \/ published_of rs = published_of (wa_resources w));
  wi_idle : wa_running w = None -> wa_pending w = true \/ in_sync (wa_resources w) (wa_db w) }.

Lemma unmarked_unpublished obj s : marked obj -> checkAnnotation (om_Annotations obj) defaultRegistryExportAnnotation = false ->
  published obj s = None.
Proof. unfold marked, published. intros Hm Hc. destruct (hasRequiredRegistryAnnotations _); [|done]. rewrite Hm in Hc; done. Qed.

(** A change the predicate ignores publishes nothing else. *)
Lemma change_ignored {T} (meta : T -> ObjectMeta) ex l l' ev : change meta l l' ev ->
  Forall marked (meta <$> l) -> Forall marked (meta <$> l') -> annotationPredicate ev = false ->
  omap (fun s => published (meta s) (ex s)) l' = omap (fun s => published (meta s) (ex s)) l.
Proof.
  intros H Hl Hl' Hp. destruct H as [l1 x l2|l1 x y l2|l1 x l2]; rewrite ?fmap_app, ?Forall_app in Hl, Hl'; cbn in *;
    rewrite ?Forall_cons in Hl; rewrite ?Forall_cons in Hl'; rewrite !omap_app; cbn; f_equal.
  - by rewrite (unmarked_unpublished (meta x)) by (tauto || exact Hp).
  - unfold makeUpdateObjectPredicate in Hp. apply orb_false_iff in Hp as [H1 H2]. rewrite (unmarked_unpublished (meta x)) by (tauto || exact H2).
    by rewrite (unmarked_unpublished (meta y)) by (tauto || exact H1).
  - by rewrite (unmarked_unpublished (meta x)) by (tauto || exact Hp).
Qed.

Lemma orderly_marked rs : orderly rs -> Forall marked (ms_Meta <$> rs_ms rs) /\ Forall marked (vs_Meta <$> rs_vs rs) /\ Forall marked (rp_Meta <$> rs_ps rs).
Proof.
  unfold orderly, metas. intros H. rewrite !Forall_app in H. destruct H as (H1 & H2 & H3).
  split_and!; (eapply Forall_impl; [eassumption|]); by intros ? [].
Qed.

Lemma changes_ignored rs rs' ev : changes rs rs' ev -> orderly rs -> orderly rs' -> annotationPredicate ev = false ->
  published_of rs' = published_of rs.
Proof.
  intros H (A1 & A2 & A3)%orderly_marked (B1 & B2 & B3)%orderly_marked Hp. unfold published_of, exported.
  destruct H as [rs l ev H|rs l ev H|rs l ev H]; cbn in *; by rewrite (change_ignored _ _ _ _ _ H) by done.
Qed.

Lemma orderly_laws rs : orderly rs -> ClusterLaws (cluster_of rs).
Proof using Hns.
  unfold orderly, metas. rewrite !Forall_app. intros (H1 & H2 & H3).
  split; intros ns' l _ [= <-]; destruct (String.eqb_spec ns' ns) as [->|]; try constructor; (eapply Forall_impl; [eassumption|]); by intros ? [].
Qed.

Lemma in_sync_elsewhere rs d d' : elsewhere d d' -> in_sync rs d -> in_sync rs d'.
Proof.
  intros (_ & Es & Hu) (src & Hsrc & H1 & H2 & H3 & H4). specialize (Hu _ Hsrc). exists src. split; [by rewrite Es|].
  split_and!; try (by eapply exactly_untouched; [exact Hu|done|]). intros s Hs. by eapply server_untouched; [exact Hu|done|apply H4].
Qed.

(** What a finished reconciliation leaves. *)
Lemma watch_reconciled rs now o n d q e n' d' : sane d -> orderly rs ->
  (forall src, d_source d !! mr_registryName rc = Some src -> plain_names d (so_id src)) ->
  Reconcile rc (cluster_of rs) ns now o n d = (Ok (q, e), n', d') ->
  sane d' /\ (forall src, d_source d' !! mr_registryName rc = Some src -> plain_names d' (so_id src)) /\ (e = None -> in_sync rs d').
Proof using Hns SemverLaws0.
  intros Hs Ho Hp H. pose proof (orderly_laws _ Ho) as HL.
  destruct (Reconcile_run rc (cluster_of rs) ns now o n d Hs Hp HL Hns) as (q' & e' & n1 & d1 & E & Hr). rewrite E in H. injection H as -> -> -> ->.
  destruct e as [err|]; [by destruct Hr as [-> _]|]. destruct Hr as (_ & Hadm & ms & vs & ps & src & H1 & H2 & H3 & Hsrc & Hst).
  pose proof (exported_names (cluster_of rs) ns ms vs ps) as Hn. cbn in H1, H2, H3. rewrite String.eqb_refl in H1, H2, H3. simplify_eq.
  destruct Hst as [Hst _ _ _]. assert (Hsrc' : d_source d' !! mr_registryName rc = Some src) by (by rewrite (proj1 Hadm)).
  split_and!; [apply Hst| |].
  - intros src' E' name en He. rewrite Hsrc' in E'. injection E' as <-. destruct (rs_names _ _ _ _ _ _ Hst name en He) as [Hin|[e0 H0]]; [|by eapply Hp].
    cbn in Hin. apply list_elem_of_fmap in Hin as (s & -> & Hin). apply (Hn s); try done; by (cbn; rewrite String.eqb_refl).
  - intros _. exists src. split; [done|]. destruct (rs_exact _ _ _ _ _ _ Hst) as (X1 & X2 & X3). split_and!; try done.
    intros s Hin. destruct (rs_servers _ _ _ _ _ _ Hst s Hin) as (en & rw & (Hh & Hc & Hrest) & Hct). exists en, rw. split; [|done].
    split; [done|]. split; [by rewrite Hc, claims_of_last|done].
Qed.

Lemma watch_step_inv w w' : watch_inv w -> watch_step w w' -> watch_inv w'.
Proof using Hns SemverLaws0.
  intros Hi Hst. destruct Hst as [w1 rs' ev Hch Ho|w1 Hp Hr|w1 rs now o n q e n' d' Hr H|w1 d' He]; destruct Hi as [I1 I2 I3 I4 I5].
  - assert (Hsame : wa_pending w1 || annotationPredicate ev = true \/ (wa_pending w1 = false /\ published_of rs' = published_of (wa_resources w1))).
    { destruct (annotationPredicate ev) eqn:Ep; [left; apply orb_true_r|]. rewrite orb_false_r. destruct (wa_pending w1); [by left|right].
      split; [done|]. exact (changes_ignored _ _ _ Hch I3 Ho Ep). }
    split; cbn; try done.
    + intros rs Hr. destruct (I4 rs Hr) as [A B]. split; [done|]. destruct Hsame as [Hs|[Hs E]]; [by left|right]. rewrite E. destruct B; congruence.
    + intros Hr. destruct Hsame as [Hs|[Hs E]]; [by left|]. destruct (I5 Hr) as [B|B]; [congruence|]. right. by eapply in_sync_published.
  - split; cbn; try done. intros rs [= <-]. split; [done|by right].
  - destruct (I4 rs Hr) as [Ho B]. destruct (watch_reconciled rs now o n _ q e n' d' I1 Ho I2 H) as (J1 & J2 & J3). split; cbn; try done.
    intros _. destruct e as [err|]; [left; apply orb_true_r|]. destruct B as [B|B]; [left; by rewrite B|right].
    by eapply in_sync_published; [|apply J3].
  - pose proof He as (Hs & Es & Hu). split; cbn; try done.
    + intros src Hsrc name e Hen. rewrite Es in Hsrc. apply (I2 src Hsrc name e). by rewrite <-(un_entry _ _ _ (Hu src Hsrc)).
    + intros Hr. destruct (I5 Hr) as [|Hi]; [by left|right]. by eapply in_sync_elsewhere.
Qed.

End Watch.

(** ** A concrete cluster *)
Module KubernetesExample.
Import EntriesExample ArtifactsExample WriterExample.
#[local] Existing Instance MiniSemver.lib.
#[local] Existing Instance MiniSemver.laws.
#[local] Existing Instance ClaimsJson.codec.

Definition constants : ModelConstants :=
  {| CurrentSchemaURL := "https://static.modelcontextprotocol.io/schemas/server.schema.json";
     TransportTypeStreamableHTTP := "streamable-http"; TransportTypeStdio := "stdio"; RegistryTypeOCI := "oci";
     ToolHivePublisherNamespace := "io.github.stacklok" |}.
#[local] Existing Instance constants.

Definition json : ResourceJson :=
  {| unmarshal_tool_definitions := fun _ => None;
     unmarshal_tools := fun _ => None;
     unmarshal_claims := fun raw => if String.eqb raw "null" then Some None else Some <$> json_Unmarshal raw;
     marshal_extensions := fun e => json_Marshal {[ "status" := VString (se_Status e); "tags" := VStrings (se_Tags e) ]};
     unmarshal_map := fun s => map_to_list <$> json_Unmarshal s |}.
#[local] Existing Instance json.

Definition notes (extra : list (string * string)) : option annotations :=
  Some (list_to_map ([(defaultRegistryDescriptionAnnotation, "A database"); (defaultRegistryURLAnnotation, "https://db.acme/mcp")] ++ extra)).
Definition meta (kind ns name : string) (extra : list (string * string)) : ObjectMeta :=
  {| om_Kind := kind; om_Namespace := ns; om_Name := name; om_UID := "u"; om_Annotations := notes extra |}.
Definition export : string * string := (defaultRegistryExportAnnotation, "true").

Definition db_server (ns : string) : MCPServer :=
  {| ms_Meta := meta "MCPServer" ns "db" [export; (defaultAuthzClaimsAnnotation, of_bytes (to_bytes "{" ++ [byte 34] ++ to_bytes "team" ++ [byte 34] ++ to_bytes ":" ++ [byte 34] ++ to_bytes "eng" ++ [byte 34] ++ to_bytes "}"))];
     ms_Image := "registry.internal:5000/db:1.4.2@sha256:0"; ms_Transport := "stdio"; ms_ProxyMode := "sse" |}.
Definition gateway (ns name : string) : VirtualMCPServer := {| vs_Meta := meta "VirtualMCPServer" ns name [export] |}.
Definition unmarked : MCPRemoteProxy := {| rp_Meta := meta "MCPRemoteProxy" "prod" "proxy" [] |}.

Definition prod : Resources := {| rs_ms := [db_server "prod"]; rs_vs := [gateway "prod" "gw"]; rs_ps := [] |}.
Definition dev : Resources := {| rs_ms := [db_server "dev"]; rs_vs := []; rs_ps := [] |}.
Definition reconciler : MCPServerReconciler := {| mr_requeueAfter := defaultRequeueAfter; mr_syncWriter := writer; mr_registryName := "internal" |}.

Definition run1 := Reconcile reconciler (cluster_of "prod" prod) "prod" 5 no_fault 0 d0.
Definition k1 : DB := snd run1.

(** The tag of the image is the version, digest and port aside; the package says
    the digest. *)
Lemma prod_published :
  (fun p => (sj_Name (fst p), sj_Version (fst p), pk_Version <$> sj_Packages (fst p), snd p)) <$> published_of prod =
  [("com.toolhive.k8s.prod/db", "1.4.2", ["sha256:0"], Some (of_bytes (to_bytes "{" ++ [byte 34] ++ to_bytes "team" ++ [byte 34] ++ to_bytes ":" ++ [byte 34] ++ to_bytes "eng" ++ [byte 34] ++ to_bytes "}")));
   ("com.toolhive.k8s.prod/gw", "1.0.0", [], None)].
Proof. vm_compute. reflexivity. Qed.
Lemma reconcile1_ok : Reconcile reconciler (cluster_of "prod" prod) "prod" 5 no_fault 0 d0 = (Ok (0%Z, None), snd (fst run1), k1).
Proof. vm_compute. reflexivity. Qed.


Lemma bool_name s : forallb (fun c => dns_class c || Ascii.eqb c ".")%bool (to_bytes s) = true -> k8s_name s.
Proof. intros H. apply Forall_forall. by apply forallb_true_iff. Qed.

Ltac tidy := repeat first [apply List.Forall_nil | apply List.Forall_cons];
  (split; [split; [reflexivity|split; apply bool_name; vm_compute; reflexivity]|intros _; vm_compute; reflexivity]).
Lemma prod_orderly : orderly "prod" prod.
Proof. unfold orderly, metas. cbn [prod rs_ms rs_vs rs_ps fmap list_fmap app]. tidy. Qed.
Lemma dev_orderly : orderly "dev" dev.
Proof. unfold orderly, metas. cbn [dev rs_ms rs_vs rs_ps fmap list_fmap app]. tidy. Qed.
Lemma d0_plain src : d_source d0 !! "internal" = Some src -> plain_names d0 (so_id src).
Proof. intros _ name e He. cbn in He. by rewrite lookup_empty in He. Qed.
Lemma prod_some : "prod" <> "". Proof. discriminate. Qed.

Lemma run_inj {A B X Y} (a a' : A) (b b' : B) (x x' : X) (y y' : Y) : ((Ok (a, b), x), y) = ((Ok (a', b'), x'), y') ->
  a = a' /\ b = b' /\ x = x' /\ y = y'.
Proof. by intros [=]. Qed.

Lemma Reconcile_correct_witness : exists src,
  d_source d0 !! "internal" = Some src /\ namespace_stored 262144 src "prod" (published_of prod) d0 k1.
Proof.
  destruct (Reconcile_correct reconciler (cluster_of "prod" prod) "prod" 5 no_fault 0 d0 d0_sane d0_plain
    (orderly_laws "prod" prod_some prod prod_orderly) prod_some) as (q & e & n' & d' & E & H).
  rewrite reconcile1_ok in E. apply run_inj in E as (<- & <- & <- & <-). destruct H as (_ & _ & ms & vs & ps & src & E1 & E2 & E3 & Hs & H).
  injection E1 as <-. injection E2 as <-. injection E3 as <-. exists src. exact (conj Hs H).
Defined.

Definition w0 : Watch := {| wa_resources := prod; wa_pending := true; wa_running := None; wa_db := d0 |}.
Definition w1' : Watch := {| wa_resources := prod; wa_pending := false; wa_running := Some prod; wa_db := d0 |}.
Definition w2' : Watch := {| wa_resources := prod; wa_pending := false; wa_running := None; wa_db := k1 |}.
Lemma w0_inv : watch_inv reconciler "prod" w0.
Proof. split; [apply d0_sane|apply d0_plain|apply prod_orderly|done|by left]. Qed.
Lemma w_steps : rtc (watch_step reconciler "prod") w0 w2'.
Proof.
  eapply rtc_l; [apply (watch_start reconciler "prod" w0); reflexivity|]. eapply rtc_l; [|apply rtc_refl].
  eapply (watch_finish reconciler "prod" w1' prod 5 no_fault 0 0 None); [reflexivity|apply reconcile1_ok].
Qed.


(** With two namespaces watched, a reconciliation of one removes the entries of
    the other. *)
Definition k2 : DB := snd (Reconcile reconciler (cluster_of "dev" dev) "dev" 6 no_fault 0 k1).
Lemma other_namespace_dropped :
  fst (fst (Reconcile reconciler (cluster_of "dev" dev) "dev" 6 no_fault 0 k1)) = Ok (0%Z, None) /\
  (exists vid, d_latest k1 !! (1%nat, "com.toolhive.k8s.prod/db") = Some ("1.4.2", vid)) /\
  d_latest k2 !! (1%nat, "com.toolhive.k8s.prod/db") = None.
Proof. split_and!; [vm_compute; reflexivity|eexists; vm_compute; reflexivity|vm_compute; reflexivity]. Qed.

(** A resource that is not marked for export is published with the others. *)
Lemma unmarked_published :
  checkAnnotation (om_Annotations (rp_Meta unmarked)) defaultRegistryExportAnnotation = false /\
  (sj_Name ∘ fst) <$> published_of {| rs_ms := rs_ms prod; rs_vs := []; rs_ps := [unmarked] |} =
    ["com.toolhive.k8s.prod/db"; "com.toolhive.k8s.prod/proxy"].
Proof. split; vm_compute; reflexivity. Qed.

(** A port is taken for a tag. *)
Lemma port_taken_for_tag : parseImageTagOrDigest "registry.internal:5000/db" = "5000/db" /\ parseImageTag "registry.internal:5000/db" = "".
Proof. split; vm_compute; reflexivity. Qed.

(** Two resources of one name and version: nothing of the namespace is stored,
    and asking again does not help. *)
Definition namesakes : Resources :=
  {| rs_ms := []; rs_vs := [gateway "prod" "gw"]; rs_ps := [ {| rp_Meta := meta "MCPRemoteProxy" "prod" "gw" [export] |} ] |}.
Lemma namesakes_block : exists err n, Reconcile reconciler (cluster_of "prod" namesakes) "prod" 5 no_fault 0 d0 =
  (Ok (defaultRequeueAfter, Some err), n, d0).
Proof. eexists _, _. vm_compute. reflexivity. Qed.
End KubernetesExample.
