(* ===== verification/Reconcilers.v ===== *)
(** * The Kubernetes reconcilers of a configuration

    [setupKubernetesReconciler] of [internal/app/builder.go]: one reconciler of
    [Kubernetes] for each Kubernetes source, with its namespaces and its lease. *)

From stdpp Require Import base list strings gmap sets.
From Stdlib Require Import String Ascii ZArith Lia.
From S2P Require Import Prelude GoStrings Validators ConfigTypes Config Writer Kubernetes.

Local Open Scope string_scope.
Local Open Scope list_scope.

Section Reconcilers.
Context `{CR : ControllerRuntime}.

Definition reconciler_namespaces (cfg : Config) (reg : SourceConfig) : list ReconcilerOption :=
  let global := if String.eqb (cfg_WatchNamespace cfg) "" then [] else [WithNamespaces (Split (cfg_WatchNamespace cfg) ",")] in
  match src_Kubernetes reg with
  | Some k => if (0 <? List.length (k8s_Namespaces k))%nat then [WithNamespaces (k8s_Namespaces k)] else global
  | None => global
  end.

Definition lease_id (cfg : Config) (reg : SourceConfig) : string :=
  let leaderID := if String.eqb (cfg_LeaderElectionID cfg) "" then "toolhive-registry-server-leader-election"
                  else cfg_LeaderElectionID cfg in
  leaderID +:+ "-" +:+ src_Name reg.

Definition reconciler_options (cfg : Config) (syncWriter : option dbSyncWriter) (reg : SourceConfig) : list ReconcilerOption :=
  [WithSyncWriter syncWriter; WithRegistryName (src_Name reg)] ++ reconciler_namespaces cfg reg ++
  [WithLeaderElectionID (lease_id cfg reg)].

(** The managers started before the first failure, and the failure. *)
Fixpoint setup_reconcilers (cfg : Config) (syncWriter : option dbSyncWriter) (sources : list SourceConfig)
    : list Manager * result () :=
  match sources with
  | [] => ([], Ok ())
  | reg :: rest =>
      if negb (bool_decide (GetType reg = SourceTypeKubernetes)) then setup_reconcilers cfg syncWriter rest
      else match NewMCPServerReconciler (reconciler_options cfg syncWriter reg) with
           | Err _ => ([], Err (EMsg "failed to create kubernetes reconciler for source %s: %w"))
           | Ok mgr => let '(mgrs, r) := setup_reconcilers cfg syncWriter rest in (mgr :: mgrs, r)
           end
  end.

Definition setupKubernetesReconciler (cfg : Config) (syncWriter : option dbSyncWriter) : list Manager * result () :=
  setup_reconcilers cfg syncWriter (cfg_Sources cfg).
End Reconcilers.

Lemma append_inj_r p a b : (p +:+ a)%string = (p +:+ b)%string -> a = b.
Proof. induction p as [|c p IH]; cbn; [done|]. intros [= ?]. auto. Qed.

Section Leases.
Context `{CR : ControllerRuntime}.

Lemma lease_nonempty cfg reg : lease_id cfg reg <> "".
Proof. unfold lease_id. case_match; [done|]. apply String.eqb_neq in H. by destruct (cfg_LeaderElectionID cfg). Qed.

Lemma reconciler_namespaces_cases cfg reg :
  reconciler_namespaces cfg reg = [] \/ exists nss, reconciler_namespaces cfg reg = [WithNamespaces nss].
Proof. unfold reconciler_namespaces. repeat case_match; eauto. Qed.

(** A manager that starts writes to its own source, holds the lease of its
    source, and watches valid namespaces. *)
Lemma manager_of cfg sw reg mgr : NewMCPServerReconciler (reconciler_options cfg sw reg) = Ok mgr ->
  mg_LeaderElectionID mgr = lease_id cfg reg /\ mr_registryName (mg_Controller mgr) = src_Name reg /\
  Some (mr_syncWriter (mg_Controller mgr)) = sw /\
  (forall ns, ns ∈ mg_DefaultNamespaces mgr -> SourceName.IsValidDNSSubdomain ns = true).
Proof.
  unfold NewMCPServerReconciler, reconciler_options. cbn [app apply_reconciler_options]. intros H. apply bind_ok in H as (o & Ho & H).
  destruct sw as [w|]; [|done]. cbn [WithSyncWriter rbind] in Ho. unfold WithRegistryName at 1 in Ho.
  destruct (String.eqb (src_Name reg) "") eqn:En; [done|]. cbn [rbind ro_namespaces ro_requeueAfter ro_syncWriter ro_registryName ro_leaderElectionID] in Ho.
  do 2 (apply bind_ok in Ho as (? & [= <-] & Ho)).
  assert (Hw : forall nss o1 o2, WithNamespaces nss o1 = Ok o2 -> o2 = add_namespaces o1 nss /\
    (forall ns, ns ∈ nss -> SourceName.IsValidDNSSubdomain ns = true)).
  { unfold WithNamespaces. intros nss o1 o2 Hn. apply bind_ok in Hn as ([] & Hv & Hn). apply bind_ok in Hn as ([] & _ & [= <-]). split; [done|].
    unfold validateNamespaces in Hv. rewrite for_each_ok, Forall_forall in Hv. intros ns Hin. specialize (Hv ns Hin). apply guard_err_ok in Hv.
    by apply negb_false_iff in Hv. }
  assert (Hl : forall o1 o2, apply_reconciler_options [WithLeaderElectionID (lease_id cfg reg)] o1 = Ok o2 ->
    ro_namespaces o2 = ro_namespaces o1 /\ ro_syncWriter o2 = ro_syncWriter o1 /\ ro_registryName o2 = ro_registryName o1 /\
    ro_leaderElectionID o2 = lease_id cfg reg).
  { intros o1 o2. cbn. unfold WithLeaderElectionID. rewrite (proj2 (String.eqb_neq _ _) (lease_nonempty cfg reg)). by intros [= <-]. }
  assert (Hall : ro_syncWriter o = Some w /\ ro_registryName o = src_Name reg /\ ro_leaderElectionID o = lease_id cfg reg /\
    (forall ns, ns ∈ ro_namespaces o -> SourceName.IsValidDNSSubdomain ns = true)).
  { assert (Hn : forall o1, apply_reconciler_options [WithLeaderElectionID (lease_id cfg reg)] o1 = Ok o -> ro_syncWriter o1 = Some w ->
      ro_registryName o1 = src_Name reg -> (forall ns, ns ∈ ro_namespaces o1 -> SourceName.IsValidDNSSubdomain ns = true) ->
      ro_syncWriter o = Some w /\ ro_registryName o = src_Name reg /\ ro_leaderElectionID o = lease_id cfg reg /\
      (forall ns, ns ∈ ro_namespaces o -> SourceName.IsValidDNSSubdomain ns = true)).
    { intros o1 (E1 & E2 & E3 & E4)%Hl. rewrite E1, E2, E3, E4. done. }
    destruct (reconciler_namespaces_cases cfg reg) as [E|[nss E]]; rewrite E in Ho; cbn [app] in Ho.
    - apply (Hn _ Ho); [done..|]. by intros ns ?%elem_of_nil.
    - apply bind_ok in Ho as (o' & [-> Hv]%Hw & Ho). by apply (Hn _ Ho). }
  destruct Hall as (E1 & E2 & E3 & E4). rewrite E1, E2, E3 in H. rewrite En, (proj2 (String.eqb_neq _ _) (lease_nonempty cfg reg)) in H. cbn in H.
  destruct AddToScheme; [|done]. destruct (NewManager _); [|done]. destruct (SetupWithManager _); [|done]. injection H as <-. cbn.
  split_and!; try done. intros ns Hin%elem_of_list_to_set. auto.
Qed.

(** Sources of different names hold different leases. *)
Lemma leases_distinct cfg sw : NoDup (src_Name <$> cfg_Sources cfg) ->
  NoDup (mg_LeaderElectionID <$> fst (setupKubernetesReconciler cfg sw)).
Proof.
  unfold setupKubernetesReconciler. induction (cfg_Sources cfg) as [|x l IH]; intros H; [constructor|].
  assert (Hfrom : forall id, id ∈ mg_LeaderElectionID <$> fst (setup_reconcilers cfg sw l) -> exists y, y ∈ l /\ id = lease_id cfg y).
  { clear. induction l as [|y l IH]; cbn; intros id Hid; [by apply elem_of_nil in Hid|]. case_match; [destruct (IH id Hid) as (z & ? & ?); exists z; split; [by right|done]|].
    destruct (NewMCPServerReconciler _) as [mgr|] eqn:E; [|by apply elem_of_nil in Hid]. destruct (setup_reconcilers cfg sw l) as [mgrs r]. cbn in *.
    apply elem_of_cons in Hid as [->|Hid]; [exists y; split; [by left|by apply manager_of in E as [-> _]]|]. destruct (IH id Hid) as (z & ? & ?). exists z. split; [by right|done]. }
  cbn in *. apply NoDup_cons in H as [Hx H]. case_match; [by apply IH|]. destruct (NewMCPServerReconciler _) as [mgr|] eqn:E; [|constructor].
  destruct (setup_reconcilers cfg sw l) as [mgrs r] eqn:El. cbn in *. apply NoDup_cons. split; [|by apply IH].
  intros (y & Hy & Eq)%Hfrom. apply manager_of in E as [E _]. rewrite E in Eq. unfold lease_id in Eq. apply append_inj_r, (append_inj_r "-") in Eq.
  apply Hx. rewrite Eq. by apply list_elem_of_fmap_2.
Qed.
End Leases.
