(* ===== verification/App.v ===== *)
(** * The application

    [internal/app/builder.go] and [internal/app/storage/database_factory.go]: the
    service made from the configuration, the authentication middleware of
    [internal/auth/factory.go], and the chain of middlewares [buildHTTPServer]
    puts in front of the routes of [Api].  Metrics, tracing and compression, and
    chi's request id, recovery and timeout, do not change what is modelled. *)

From stdpp Require Import base list strings gmap.
From Stdlib Require Import String Ascii ZArith Lia.
From S2P Require Import Prelude GoStrings Validators Claims Codec Versions ConfigTypes Config Auth AuditLog ClaimsGate Upstream Database.
From S2P Require Import Entries Streaming Artifacts ServerReads Options Sync Initialize Sources Registries Service Api ApiCorrect.

Local Open Scope string_scope.
Local Open Scope list_scope.

(** ** [factory.go] *)

(** [thvauth.TokenValidatorConfig] *)
Record TokenValidatorConfig := {
  tv_Issuer : string; tv_JWKSURL : string; tv_Audience : string; tv_ClientID : string; tv_ClientSecret : string;
  tv_CACertPath : string; tv_AuthTokenFile : string; tv_IntrospectionURL : string;
  tv_AllowPrivateIP : bool; tv_InsecureAllowHTTP : bool }.

(** [providerConfig]; a validator of its own bypasses the factory. *)
Record providerConfig := {
  pc_Name : string;
  pc_IssuerURL : string;
  pc_ValidatorConfig : TokenValidatorConfig;
  pc_Validator : option Validator }.

Section Factory.
Context `{FS : FileSystem}.
Context (factory : TokenValidatorConfig -> result Validator).
Context (newSSOValidator : string -> string -> Validator).

Fixpoint make_validators (providers : list providerConfig) : result (list namedValidator) :=
  match providers with
  | [] => Ok []
  | pc :: rest =>
      validator <- (match pc_Validator pc with
                    | Some v => Ok v
                    | None => match factory (pc_ValidatorConfig pc) with
                              | Ok v => Ok v
                              | Err e => Err (wrapf "failed to create validator for provider %q" e)
                              end
                    end) ;;
      validators <- make_validators rest ;;
      Ok ({| nv_Name := pc_Name pc; nv_Validator := validator |} :: validators)
  end.

Definition newMultiProviderMiddleware (providers : list providerConfig) (resourceURL realm : string)
    : result multiProviderMiddleware :=
  if (List.length providers =? 0)%nat then Err (EMsg "at least one provider must be configured")
  else
    validators <- make_validators providers ;;
    Ok {| mp_validators := validators; mp_resourceURL := resourceURL;
          mp_realm := if String.eqb realm "" then defaultRealm else realm |}.

Definition provider_of (cfg : AuthConfig) (p : OAuthProviderConfig) : result providerConfig :=
  clientSecret <- (if String.eqb (op_ClientSecretFile p) "" then Ok ""
                   else match GetClientSecret p with
                        | Ok secret => Ok secret
                        | Err e => Err (wrapf "failed to read client secret for provider %q" e)
                        end) ;;
  Ok {| pc_Name := op_Name p; pc_IssuerURL := op_IssuerURL p;
        pc_ValidatorConfig :=
          {| tv_Issuer := op_IssuerURL p; tv_JWKSURL := op_JwksUrl p; tv_Audience := op_Audience p;
             tv_ClientID := op_ClientID p; tv_ClientSecret := clientSecret; tv_CACertPath := op_CACertPath p;
             tv_AuthTokenFile := op_AuthTokenFile p; tv_IntrospectionURL := op_IntrospectionURL p;
             tv_AllowPrivateIP := op_AllowPrivateIP p; tv_InsecureAllowHTTP := ac_InsecureAllowHTTP cfg |};
        pc_Validator := if String.eqb (op_SsoCheckURL p) "" then None
                        else Some (newSSOValidator (op_SsoCheckURL p) (op_IssuerURL p)) |}.

(** The middleware, [None] for the one that passes requests through, and the
    handler of the protected-resource metadata. *)
Definition Authentication : Type := option multiProviderMiddleware * option HandlerFunc.

Definition createOAuthMiddleware (cfg : AuthConfig) : result Authentication :=
  match ac_OAuth cfg with
  | None => Err (EMsg "oauth configuration is required for oauth mode")
  | Some oauth =>
      providers <- map_result (provider_of cfg) (oa_Providers oauth) ;;
      m <- (match newMultiProviderMiddleware providers (oa_ResourceURL oauth) (oa_Realm oauth) with
            | Ok m => Ok m
            | Err e => Err (wrapf "failed to create multi-provider middleware" e)
            end) ;;
      handler <- (match newProtectedResourceHandler (oa_ResourceURL oauth) (op_IssuerURL <$> oa_Providers oauth) with
                  | Ok h => Ok h
                  | Err e => Err (wrapf "failed to create protected resource handler" e)
                  end) ;;
      Ok (Some m, Some handler)
  end.

Definition NewAuthMiddleware (cfg : option AuthConfig) : result Authentication :=
  match cfg with
  | None => Err (EMsg "auth configuration is required")
  | Some cfg =>
      match ac_Mode cfg with
      | AuthModeAnonymous => Ok (None, None)
      | AuthModeOAuth => createOAuthMiddleware cfg
      | _ => Err (EMsg "unsupported auth mode: %s")
      end
  end.
End Factory.

(** ** The service *)

(** [WithMaxMetaSize] and [WithSkipAuthz] of [CreateRegistryService]. *)
Definition CreateRegistryService (cfg : Config) : result dbService :=
  let maxMetaSize := GetMaxMetaSize (cfg_Database cfg) in
  if (maxMetaSize <=? 0)%Z then Err (EMsg "maxMetaSize must be greater than zero, got %d")
  else Ok {| sv_skipAuthz := match cfg_Auth cfg with Some a => negb (bool_decide (is_Some (ac_Authz a))) | None => true end;
             sv_maxMetaSize := maxMetaSize |}.

(** ** [buildHTTPServer] *)

Definition defaultPublicPaths : list string := ["/openapi.json"; "/.well-known"].

Definition securityHeadersMiddleware {P W} (next : Handler P W) : Handler P W := fun r h =>
  let '(resp, h') := next r h in
  ({| rs_status := rs_status resp;
      rs_headers := [("X-Content-Type-Options", "nosniff"); ("Cross-Origin-Resource-Policy", "same-origin")] ++ rs_headers resp;
      rs_body := rs_body resp |}, h').

(** [buildAuditLogger]: a logger only when auditing is on; opening the log file
    may fail. *)
Definition buildAuditLogger (NewLogger : string -> result ()) (cfg : option Config) : result bool :=
  if negb (IsAuditEnabled cfg) then Ok false
  else
    let logFile := match cfg with Some c => match cfg_Audit c with Some a => aud_LogFile a | None => "" end | None => "" end in
    NewLogger logFile ;;; Ok true.

Section Server.
Context `{S : RegistryService} `{AL : ApiLib} `{CH : Chi} `{AJ : AuditJson}.
Context (ExtractBearerToken : Request -> result string) (o : Oracle).

Definition authMiddleware (mw : option multiProviderMiddleware) {P W} (next : Handler P W) : Handler P W :=
  match mw with Some m => Middleware ExtractBearerToken m next | None => next end.

Definition public_paths (cfg : Config) : list string :=
  defaultPublicPaths ++ match cfg_Auth cfg with Some a => ac_PublicPaths a | None => [] end.
Definition authz_of (cfg : Config) : option AuthzConfig :=
  match cfg_Auth cfg with Some a => ac_Authz a | None => None end.

(** The middlewares from the audit of authentication failures inwards. *)
Definition guarded_server (auth : Authentication) (cfg : Config) (auditLogger : bool) : Handler Payload (Audit World) :=
  AuthFailureMiddleware (cfg_Audit cfg) auditLogger
    (WrapWithPublicPaths (authMiddleware (fst auth)) (public_paths cfg)
      (ResolveRolesMiddleware (authz_of cfg)
        (AuditMiddleware (cfg_Audit cfg) auditLogger
          (mux (server_routes o (snd auth) (cfg_Auth cfg)))))).

Definition buildHTTPServer (auth : Authentication) (cfg : Config) (auditLogger : bool)
    : Request -> Audit World -> Response Payload * AccessLog * Audit World :=
  LoggingMiddleware (securityHeadersMiddleware (guarded_server auth cfg auditLogger)).

(** [NewInternalServer]: no middleware. *)
Definition buildInternalHTTPServer : Handler Payload (Audit World) := mux (internal_routes o).
End Server.

(** ** Addresses *)

(** [WithAddress]: the index of the second part is out of range when the address
    has no colon, which is a run-time panic. *)
Inductive outcome_ (A : Type) := Returned (r : result A) | Panicked.
Arguments Returned {_} _.
Arguments Panicked {_}.

Definition WithAddress (ParseAddrPort : string -> bool) (addr : string) : outcome_ string :=
  if String.eqb addr "" then Returned (Err (EMsg "address cannot be empty"))
  else
    match SplitN2 addr ":" with
    | host :: port :: _ =>
        if String.eqb port "" then Returned (Err (EMsg "address is not a valid port: %s"))
        else
          let host := if String.eqb host "localhost" then "127.0.0.1" else host in
          let host := if String.eqb host "" then "0.0.0.0" else host in
          if ParseAddrPort (host +:+ ":" +:+ port) then Returned (Ok addr)
          else Returned (Err (EMsg "address is not a valid port: %w"))
    | _ => Panicked
    end.

(** ** One request *)

(** Documented of chi: a handler registered for a method is picked only for
    requests of that method. *)
Class ChiLaws (CH : Chi) : Prop := {
  chi_find_ok rs m p i ps : chi_find rs m p = Found i ps ->
    exists rt, rs !! i = Some rt /\ (fst rt = Some m \/ fst rt = None) }.

Section Request.
Context `{S : RegistryService} `{SL : !ServiceLaws S} `{AL : ApiLib} `{CH : Chi} `{CL : !ChiLaws CH} `{AJ : AuditJson}.
Context (ExtractBearerToken : Request -> result string) (o : Oracle).

(** The route a request goes to, and the request its handler sees. *)
Definition chi_match (routes : list Route) (r : Request) : Match :=
  chi_find ((fun rt => (rt_method rt, rt_pattern rt)) <$> routes) (r_method r) (route_path r).
Definition dispatched (routes : list Route) (r : Request) : option (Route * Request) :=
  match chi_match routes r with
  | Found i ps => rt ← routes !! i; Some (rt, set_params r ps)
  | _ => None
  end.
Definition missed (routes : list Route) (r : Request) : Response Payload :=
  match chi_match routes r with WrongMethod ms => methodNotAllowed ms | _ => http_NotFound end.

Lemma mux_run routes r h : mux routes r h =
  match dispatched routes r with
  | Some (rt, r') => rt_handler rt r' h
  | None => (missed routes r, h)
  end.
Proof.
  unfold mux, dispatched, missed. fold (chi_match routes r). destruct (chi_match routes r) as [i ps| |]; [|done..]. cbn.
  by destruct (routes !! i).
Qed.

Lemma dispatched_route routes r rt r' : dispatched routes r = Some (rt, r') ->
  rt ∈ routes /\ (rt_method rt = Some (r_method r) \/ rt_method rt = None) /\ r_ctx r' = r_ctx r.
Proof.
  unfold dispatched. destruct (chi_match routes r) as [i ps| |] eqn:E; [|done..]. cbn.
  destruct (routes !! i) as [x|] eqn:Ei; [|done]. intros [= <- <-]. split; [by eapply list_elem_of_lookup_2|]. split; [|done].
  apply chi_find_ok in E as (p & Hp & Hm). rewrite list_lookup_fmap, Ei in Hp. by injection Hp as <-.
Qed.

(** The route alone; the body has no say in it. *)
Definition route_of (routes : list Route) (r : Request) : option Route := fst <$> dispatched routes r.

(** The request as the audit middleware hands it on. *)
Definition passed (cfg : option AuditConfig) (logger : bool) (r : Request) : Request :=
  match active cfg logger with Some c => AuditLog.handed c r | None => r end.
Lemma passed_body cfg logger r : passed cfg logger r = r \/ exists b, passed cfg logger r = set_body r b.
Proof. unfold passed, AuditLog.handed. destruct (active cfg logger); [|by left]. case_match; [right; by eexists|by left]. Qed.
Lemma passed_ctx cfg logger r : r_ctx (passed cfg logger r) = r_ctx r /\ r_method (passed cfg logger r) = r_method r.
Proof. by destruct (passed_body cfg logger r) as [->|[b ->]]. Qed.
Lemma passed_match routes cfg logger r : chi_match routes (passed cfg logger r) = chi_match routes r.
Proof. by destruct (passed_body cfg logger r) as [->|[b ->]]. Qed.
Lemma passed_route routes cfg logger r : route_of routes (passed cfg logger r) = route_of routes r.
Proof. unfold route_of, dispatched. rewrite passed_match. destruct (chi_match routes r) as [i ps| |]; [|done..]. by destruct (routes !! i). Qed.

(** The role check of a route on the request. *)
Definition role_denied (az : option AuthzConfig) (role : option Role) (r : Request) : bool :=
  match role, az, ClaimsFromContext (r_ctx r) with
  | Some x, Some _, Some _ => negb (HasRole (RolesFromContext (r_ctx r)) x)
  | _, _, _ => false
  end.

Definition forbidden : Response Payload := WriteErrorResponse "forbidden: insufficient permissions" StatusForbidden.

(** What a registered handler does to the audit state. *)
Lemma served_run az role info k r i a : served az role info k r (i, a) =
  if role_denied az role r then (forbidden, (i, a))
  else let '(resp, w) := k r (au_rest a) in
    (resp, (i, {| au_carrier := match info, au_carrier a with
                                | Some f, Some _ => Some (Some (f r)) | _, c => c end;
                  au_log := au_log a; au_rest := w |})).
Proof.
  assert (H : forall audited : Handler Payload (Audit World), match role with Some x => RequireRole x az audited | None => audited end r (i, a) =
    if role_denied az role r then (forbidden, (i, a)) else audited r (i, a)).
  { intros audited. unfold role_denied, RequireRole. destruct role as [x|]; [|done]. destruct az; [|done].
    by destruct (ClaimsFromContext (r_ctx r)). }
  unfold served. rewrite H. destruct (role_denied az role r); [done|].
  destruct info as [f|]; unfold annotate, serve, unaware, on_audit, setRouteInfo; cbn.
  - destruct a as [[c|] l w]; cbn; by destruct (k r w) as [resp w'].
  - by destruct (k r (au_rest a)) as [resp w'], (au_carrier a).
Qed.

(** The response and the database after dispatching, and what the audit
    middleware adds to the log. *)
Definition annotation (az : option AuthzConfig) (role : option Role) (info : option (Request -> RouteInfo)) (r : Request)
    : option RouteInfo :=
  if role_denied az role r then None else (fun f => f r) <$> info.

Definition logged (c : AuditConfig) (r : Request) (info : option RouteInfo) (status : Z) : list AuditEvent :=
  match info with Some i => AuditLog.due c r i status | None => [] end.

Definition answer (az : option AuthzConfig) (role : option Role) (k : HandlerFunc) (r : Request) (w : World)
    : Response Payload * World :=
  if role_denied az role r then (forbidden, w) else k r w.

Lemma audited_answer cfg logger routes az r i a rt r' e role info k :
  dispatched routes (passed cfg logger r) = Some (rt, r') -> route_is az rt e role info k ->
  AuditMiddleware cfg logger (mux routes) r (i, a) =
  let '(resp, w) := answer az role k r' (au_rest a) in
  (resp, (i, {| au_carrier := match active cfg logger with
                              | Some _ => au_carrier a
                              | None => match annotation az role info r', au_carrier a with
                                        | Some x, Some _ => Some (Some x) | _, c => c end
                              end;
                au_log := au_log a ++ match active cfg logger with
                                      | Some c => logged c r (annotation az role info r') (rs_status resp)
                                      | None => []
                                      end;
                au_rest := w |})).
Proof.
  intros Hd [Hh _ _ _ _ _ _]. unfold AuditMiddleware. unfold passed in Hd. destruct (active cfg logger) as [c|].
  - rewrite AuditLog.audit_capture, mux_run, Hd, Hh. unfold on_audit. cbn [fst snd]. rewrite served_run. unfold answer, annotation.
    destruct (role_denied az role r'); cbn; [by rewrite app_nil_r|].
    destruct (k r' (au_rest a)) as [resp w]. cbn. rewrite AuditLog.after_handed.
    destruct info as [f|]; unfold after_request, RouteInfoFromContext, logged, AuditLog.due; cbn; [|by rewrite app_nil_r].
    destruct (String.eqb (resolve_event (f r') (rs_status resp)) ""); cbn; [by rewrite app_nil_r|].
    destruct (isEventAllowed _ _ _); cbn; by rewrite ?app_nil_r.
  - rewrite mux_run, Hd, Hh, served_run. unfold answer, annotation.
    destruct (role_denied az role r'); cbn; [by destruct a; rewrite app_nil_r|].
    destruct (k r' (au_rest a)) as [resp w]. cbn. rewrite app_nil_r. by destruct info, (au_carrier a).
Qed.

Lemma audited_miss cfg logger routes r i a : dispatched routes (passed cfg logger r) = None ->
  AuditMiddleware cfg logger (mux routes) r (i, a) = (missed routes r, (i, a)).
Proof.
  intros Hd. assert (Hm : missed routes (passed cfg logger r) = missed routes r) by (unfold missed; by rewrite passed_match).
  unfold AuditMiddleware. unfold passed in Hd, Hm. destruct (active cfg logger) as [c|]; [|by rewrite mux_run, Hd].
  rewrite AuditLog.audit_capture, mux_run, Hd, Hm. unfold on_audit. by destruct a.
Qed.

(** *** Through the chain *)

Context (m : multiProviderMiddleware) (info : option HandlerFunc) (cfg : Config) (logger : bool).
Hypothesis info_reads : forall k, info = Some k -> honours Reads k.
Hypothesis validators_ok : never_nil m.

Definition routes : list Route := server_routes o info (cfg_Auth cfg).
Definition server : Request -> Audit World -> Response Payload * AccessLog * Audit World :=
  buildHTTPServer ExtractBearerToken o (Some m, info) cfg logger.

(** The request behind the access log, and behind authentication. *)
Definition incoming (r : Request) : Request := WithContext r (WithIdentityHolder (r_ctx r)).
Definition caller (r : Request) : option claims :=
  match authenticated ExtractBearerToken m (incoming r) with Some c => c | None => None end.
Definition roles_of (c : claims) : list Role :=
  match authz_of cfg with None => AllRoles | Some _ => ResolveRoles (Some c) (authz_of cfg) end.
Definition identified (r : Request) (c : claims) : Request := with_identity (incoming r) c (roles_of c).

Lemma server_run r a : let r' := incoming r in
  let '(resp, (h, a')) := guarded_server ExtractBearerToken o (Some m, info) cfg logger r' (fresh_holder, a) in
  exists log, server r a = ({| rs_status := rs_status resp;
      rs_headers := [("X-Content-Type-Options", "nosniff"); ("Cross-Origin-Resource-Policy", "same-origin")] ++ rs_headers resp;
      rs_body := rs_body resp |}, log, a').
Proof.
  cbv zeta. unfold server, buildHTTPServer, LoggingMiddleware, securityHeadersMiddleware, incoming.
  destruct (guarded_server _ _ _ _ _ _ _) as [resp [h a']]. destruct (IdentityFromContext _ _) as [sub user]. by eexists.
Qed.

Definition failure_events (r : Request) : list AuditEvent :=
  match active (cfg_Audit cfg) logger with
  | Some c => if isEventAllowed EventAuthUnauthenticated (aud_EventTypes c) (aud_ExcludeEventTypes c)
              then [emitAuthFailureEvent r] else []
  | None => []
  end.

(** A request no provider accepts gets 401 and leaves one event. *)
Lemma guarded_unauthenticated r h a : IsPublicPath (r_path r) (public_paths cfg) = false ->
  authenticated ExtractBearerToken m r = None ->
  exists resp, guarded_server ExtractBearerToken o (Some m, info) cfg logger r (h, a) =
    (resp, (h, {| au_carrier := au_carrier a; au_log := au_log a ++ failure_events r; au_rest := au_rest a |})) /\
    rs_status resp = StatusUnauthorized /\ exists msg, rs_body resp = BError msg.
Proof using All.
  intros Hp Ha. assert (Hm : forall next : Handler Payload (Audit World), exists resp,
    Middleware ExtractBearerToken m next r (h, a) = (resp, (h, a)) /\ rs_status resp = StatusUnauthorized /\ exists msg, rs_body resp = BError msg).
  { intros next. unfold authenticated in Ha. unfold Middleware. destruct (ExtractBearerToken r) as [t|]; [|by eexists; split_and!; [done|done|eexists]].
    destruct (vr_Error (validateToken m t)); [|done]. by eexists; split_and!; [done|done|eexists]. }
  unfold guarded_server, AuthFailureMiddleware, WrapWithPublicPaths, authMiddleware, failure_events. cbn [fst snd].
  destruct (active (cfg_Audit cfg) logger) as [c|]; rewrite Hp; cbn [negb];
    destruct (Hm (ResolveRolesMiddleware (authz_of cfg) (AuditMiddleware (cfg_Audit cfg) logger
      (mux (server_routes o info (cfg_Auth cfg)))))) as (resp & -> & Hs & Hb); exists resp; (split; [|done]).
  - rewrite Hs. cbn [Z.eqb StatusUnauthorized Pos.eqb andb].
    destruct (isEventAllowed _ _ _); unfold on_audit, log_event; cbn; [done|]. rewrite app_nil_r. by destruct a.
  - rewrite app_nil_r. by destruct a.
Qed.

(** Otherwise the routes see the caller's claims and roles. *)
Lemma guarded_authenticated r h a c : IsPublicPath (r_path r) (public_paths cfg) = false ->
  authenticated ExtractBearerToken m r = Some (Some c) ->
  exists h', guarded_server ExtractBearerToken o (Some m, info) cfg logger r (h, a) =
  let r' := with_identity r c (roles_of c) in
  let '(resp, (h'', a')) := AuditMiddleware (cfg_Audit cfg) logger (mux routes) r' (h', a) in
  (resp, (h'', if (rs_status resp =? StatusUnauthorized)%Z
               then {| au_carrier := au_carrier a'; au_log := au_log a' ++ failure_events r; au_rest := au_rest a' |} else a')).
Proof using All.
  intros Hp Ha. exists (fst (publish r c (h, a))).
  assert (Hm : forall next : Handler Payload (Audit World),
    Middleware ExtractBearerToken m (ResolveRolesMiddleware (authz_of cfg) next) r (h, a) =
    next (with_identity r c (roles_of c)) (fst (publish r c (h, a)), a)).
  { intros next. unfold authenticated in Ha. unfold Middleware. destruct (ExtractBearerToken r) as [t|]; [|done].
    destruct (vr_Error (validateToken m t)); [done|]. injection Ha as ->. unfold publish.
    destruct (IdentityFromClaims (Some c)) as [sub user]. unfold ResolveRolesMiddleware, roles_of, with_identity.
    by destruct (authz_of cfg). }
  unfold guarded_server, AuthFailureMiddleware, WrapWithPublicPaths, authMiddleware, failure_events. cbn [fst snd].
  destruct (active (cfg_Audit cfg) logger) as [au|]; rewrite Hp; cbn [negb]; rewrite Hm; fold routes;
    destruct (AuditMiddleware _ _ _ _ _) as [resp [h'' a']].
  - destruct (rs_status resp =? _)%Z; cbn [andb]; [|done].
    destruct (isEventAllowed _ _ _); unfold on_audit, log_event; cbn; [done|]. rewrite app_nil_r. by destruct a'.
  - destruct (rs_status resp =? _)%Z; [|done]. rewrite app_nil_r. by destruct a'.
Qed.

Lemma typed_not_401 e resp : well_typed e resp -> rs_status resp <> StatusUnauthorized.
Proof.
  unfold well_typed. intros H E. rewrite E in H.
  destruct (rs_body resp); [..|destruct e|]; revert H; try done; apply (bool_decide_unpack _); by vm_compute.
Qed.

Lemma route_registered rt : rt ∈ routes -> registered (authz_of cfg) rt.
Proof using All.
  intros H. unfold routes in H. pose proof (server_registered o info (cfg_Auth cfg) info_reads) as HF.
  rewrite Forall_forall in HF. by apply HF.
Qed.

(** The answer of a route to a caller with claims. *)
Definition routed (a : Audit World) (r : Request) (c : claims) (resp : Response Payload) (a' : Audit World) : Prop :=
  match dispatched routes (passed (cfg_Audit cfg) logger (identified r c)) with
  | None => rs_status resp = rs_status (missed routes (identified r c)) /\ rs_body resp = rs_body (missed routes (identified r c)) /\ a' = a
  | Some (rt, r') =>
      (rt_method rt = Some (r_method r) \/ rt_method rt = None) /\ rt ∈ routes /\
      exists e role inf k, route_is (authz_of cfg) rt e role inf k /\
        let '(resp0, w) := answer (authz_of cfg) role k r' (au_rest a) in
        rs_status resp = rs_status resp0 /\ rs_body resp = rs_body resp0 /\ au_rest a' = w /\
        (role_denied (authz_of cfg) role r' = false -> keeps e (au_rest a) (resp0, w)) /\
        au_log a' = au_log a ++ match active (cfg_Audit cfg) logger with
                                | Some ac => logged ac (identified r c) (annotation (authz_of cfg) role inf r') (rs_status resp0)
                                | None => []
                                end
  end.

(** Everything the server does with a request off the public paths. *)
Lemma server_cases r a : IsPublicPath (r_path r) (public_paths cfg) = false ->
  exists resp log a', server r a = (resp, log, a') /\
    (exists rest, rs_headers resp =
      [("X-Content-Type-Options", "nosniff"); ("Cross-Origin-Resource-Policy", "same-origin")] ++ rest) /\
    match authenticated ExtractBearerToken m (incoming r) with
    | None => rs_status resp = StatusUnauthorized /\ (exists msg, rs_body resp = BError msg) /\
        au_rest a' = au_rest a /\ au_log a' = au_log a ++ failure_events (incoming r)
    | Some None => False
    | Some (Some c) => routed a r c resp a'
    end.
Proof using All.
  intros Hp. assert (Hp' : IsPublicPath (r_path (incoming r)) (public_paths cfg) = false) by exact Hp.
  pose proof (server_run r a) as Hrun. cbv zeta in Hrun.
  destruct (authenticated ExtractBearerToken m (incoming r)) as [[c|]|] eqn:Ha.
  - destruct (guarded_authenticated (incoming r) fresh_holder a c Hp' Ha) as [h' Hg]. rewrite Hg in Hrun. clear Hg.
    cbv zeta in Hrun. fold (identified r c) in Hrun. unfold routed.
    destruct (passed_ctx (cfg_Audit cfg) logger (identified r c)) as [Pc Pm].
    destruct (dispatched routes (passed (cfg_Audit cfg) logger (identified r c))) as [[rt r']|] eqn:Hd.
    + destruct (dispatched_route _ _ _ _ Hd) as (Hin & Hmeth & Hctx). rewrite Pc in Hctx. rewrite Pm in Hmeth.
      destruct (route_registered rt Hin) as (e & role & inf & k & Hrt).
      rewrite (audited_answer _ _ _ _ _ _ _ _ _ _ _ _ _ Hd Hrt) in Hrun.
      destruct (answer (authz_of cfg) role k r' (au_rest a)) as [resp0 w] eqn:Hans.
      assert (Hk : (role_denied (authz_of cfg) role r' = true /\ resp0 = forbidden) \/
                   (role_denied (authz_of cfg) role r' = false /\ keeps e (au_rest a) (resp0, w))).
      { unfold answer in Hans. destruct (role_denied _ _ _); [left; split; [done|congruence]|right]. split; [done|].
        rewrite <-Hans. destruct (ri_honours _ _ _ _ _ _ Hrt r' (au_rest a)) as [|(Hc & _)]; [done|].
        by rewrite Hctx in Hc. }
      assert (Hs : (rs_status resp0 =? StatusUnauthorized)%Z = false).
      { apply Z.eqb_neq. destruct Hk as [[_ ->]|[_ [Hk _]]]; [done|by eapply typed_not_401]. }
      rewrite Hs in Hrun. destruct Hrun as [log ->]. eexists _, _, _. split; [done|]. split; [by eexists|].
      split; [exact Hmeth|]. split; [done|]. exists e, role, inf, k. rewrite Hans. cbn. split; [done|].
      split_and!; try done. intros Hr. destruct Hk as [[? _]|[_ ?]]; [congruence|done].
    + rewrite (audited_miss _ _ _ _ _ _ Hd) in Hrun.
      assert (Hs : (rs_status (missed routes (identified r c)) =? StatusUnauthorized)%Z = false) by (unfold missed; by destruct (chi_match routes (identified r c))).
      rewrite Hs in Hrun. destruct Hrun as [log ->]. eexists _, _, _. split; [done|]. split; [by eexists|]. by cbn.
  - by apply authenticated_non_nil in Ha.
  - destruct (guarded_unauthenticated (incoming r) fresh_holder a Hp' Ha) as (resp & Hg & Hs & Hb). rewrite Hg in Hrun.
    destruct Hrun as [log ->]. eexists _, _, _. split; [done|]. split; [by eexists|]. cbn. done.
Qed.

Lemma allowed_changed e resp d d' : allowed e resp d d' -> d' <> d ->
  e <> Reads /\ (success resp = true \/ (e = Publishes /\ rs_status resp = StatusInternalServerError)).
Proof.
  destruct e; cbn; intros H Hd; [done|..]; (split; [done|]).
  - destruct H; [by left|done].
  - destruct H; [by left|done].
  - destruct H as [|[|]]; [by left|by right|done].
Qed.

(** What a change of the database says about the request. *)
Lemma change_route r a resp log a' : IsPublicPath (r_path r) (public_paths cfg) = false ->
  server r a = (resp, log, a') -> snd (au_rest a') <> snd (au_rest a) ->
  exists c rt r' e inf k, authenticated ExtractBearerToken m (incoming r) = Some (Some c) /\
    route_of routes (identified r c) = Some rt /\ r_ctx r' = r_ctx (identified r c) /\
    route_is (authz_of cfg) rt e (Some (write_role (rt_pattern rt))) (Some inf) k /\
    rt_method rt = Some (r_method r) /\ isMutating (r_method r) = true /\
    (forall x st, resolve_event (inf x) st = write_event (r_method r) (rt_pattern rt) st) /\
    role_denied (authz_of cfg) (Some (write_role (rt_pattern rt))) r' = false /\
    (success resp = true \/ (e = Publishes /\ rs_status resp = StatusInternalServerError)) /\
    au_log a' = au_log a ++ match active (cfg_Audit cfg) logger with
                            | Some ac => AuditLog.due ac (identified r c) (inf r') (rs_status resp)
                            | None => []
                            end.
Proof using All.
  intros Hp Hs Hch. destruct (server_cases r a Hp) as (resp' & log' & a'' & E & _ & H). rewrite E in Hs.
  injection Hs as -> -> ->. destruct (authenticated _ _ _) as [[c|]|] eqn:Ha; [|done|].
  2:{ destruct H as (_ & _ & H & _). by rewrite H in Hch. }
  pose proof (passed_route routes (cfg_Audit cfg) logger (identified r c)) as Hro.
  unfold routed in H. destruct (dispatched routes (passed _ _ _)) as [[rt r']|] eqn:Hd.
  2:{ destruct H as (_ & _ & ->). done. }
  unfold route_of at 1 in Hro. rewrite Hd in Hro. cbn in Hro. destruct (dispatched_route _ _ _ _ Hd) as (_ & _ & Hctx).
  rewrite (proj1 (passed_ctx _ _ _)) in Hctx.
  destruct H as (Hm & Hin & e & role & inf & k & Hrt & H).
  destruct (answer (authz_of cfg) role k r' (au_rest a)) as [resp0 w] eqn:Hans.
  destruct H as (Hst & _ & <- & Hk & Hlog). destruct (role_denied (authz_of cfg) role r') eqn:Hr.
  { unfold answer in Hans. rewrite Hr in Hans. injection Hans as <- Hw. by rewrite <-Hw in Hch. }
  destruct (Hk eq_refl) as [_ Hal]. destruct (allowed_changed _ _ _ _ Hal Hch) as [Hne Hok].
  destruct (ri_writes _ _ _ _ _ _ Hrt Hne) as (-> & i & meth & -> & Hmeth & Hmut & Hev).
  assert (Heq : meth = r_method r) by (destruct Hm as [Hm|Hm]; congruence). subst meth.
  exists c, rt, r', e, i, k. split_and!; try done.
  - unfold success in *. rewrite Hst. exact Hok.
  - rewrite Hlog. unfold annotation. by rewrite Hr, Hst.
Qed.

(** C1. No write without a caller that may.  With OAuth authentication and an
    authorization block configured, a request off the public paths changes the
    database only if a provider accepted its token, and the claims of the token
    resolve to the role that guards the part of the API that the route it is
    dispatched to belongs to: manageSources for /v1/sources, manageRegistries for
    /v1/registries, manageEntries for /v1/entries.  That route is registered for
    the request's own method, which is POST, PUT or DELETE; and the answer is a
    success, or, for a publication only, a 500. *)
Theorem server_mediates az r a resp log a' :
  authz_of cfg = Some az -> IsPublicPath (r_path r) (public_paths cfg) = false ->
  server r a = (resp, log, a') -> snd (au_rest a') <> snd (au_rest a) ->
  exists c rt, authenticated ExtractBearerToken m (incoming r) = Some (Some c) /\
    route_of routes (identified r c) = Some rt /\
    rt_method rt = Some (r_method r) /\ isMutating (r_method r) = true /\
    HasRole (ResolveRoles (Some c) (Some az)) (write_role (rt_pattern rt)) = true /\
    (success resp = true \/ (rt_pattern rt = "/v1/entries" /\ rs_status resp = StatusInternalServerError)).
Proof using All.
  intros Haz Hp Hs Hch.
  destruct (change_route r a resp log a' Hp Hs Hch) as (c & rt & r' & e & inf & k & Ha & Hro & Hctx & Hrt & Hm & Hmut & _ & Hr & Hok & _).
  exists c, rt. split_and!; try done.
  - unfold role_denied in Hr. rewrite Haz, Hctx in Hr. cbn in Hr. unfold roles_of in Hr. rewrite Haz in Hr. by apply negb_false_iff in Hr.
  - destruct Hok as [|[He ?]]; [by left|right]. split; [|done]. by apply (ri_publishes _ _ _ _ _ _ Hrt).
Qed.

(** C2. Nothing changes unlogged.  With auditing on and OAuth authentication, a
    request off the public paths adds at most one event.  A rejected
    authentication adds its event, if the configuration allows events of that
    type.  Whatever a request changes in the database, the event of the route it
    is dispatched to is due ([write_event]: source.create or source.update by the
    status of the answer, source.delete, registry.create, registry.update,
    registry.delete, entry.publish, entry.delete, entry.claims.update): it is
    added, with the caller as the subject and the outcome of the answer, when the
    configuration allows events of its type, and then it is the only one; otherwise
    nothing is. *)
Theorem audit_complete c r a resp log a' :
  active (cfg_Audit cfg) logger = Some c -> IsPublicPath (r_path r) (public_paths cfg) = false ->
  server r a = (resp, log, a') ->
  exists events, au_log a' = au_log a ++ events /\ (List.length events <= 1)%nat /\
    (authenticated ExtractBearerToken m (incoming r) = None ->
       events = if isEventAllowed EventAuthUnauthenticated (aud_EventTypes c) (aud_ExcludeEventTypes c)
                then [emitAuthFailureEvent (incoming r)] else []) /\
    (snd (au_rest a') <> snd (au_rest a) -> exists cl rt,
       authenticated ExtractBearerToken m (incoming r) = Some (Some cl) /\
       route_of routes (identified r cl) = Some rt /\
       let ty := write_event (r_method r) (rt_pattern rt) (rs_status resp) in
       if isEventAllowed ty (aud_EventTypes c) (aud_ExcludeEventTypes c)
       then exists e, events = [e] /\ ev_Type e = ty /\ ev_Outcome e = OutcomeFromStatus (rs_status resp) /\
          ev_Subjects e = subjectsFromRequest (identified r cl)
       else events = []).
Proof using All.
  intros Hact Hp Hs. destruct (server_cases r a Hp) as (resp' & log' & a'' & E & _ & H). rewrite E in Hs. injection Hs as -> -> ->.
  assert (Hev : exists events, au_log a' = au_log a ++ events /\ (List.length events <= 1)%nat /\
    (authenticated ExtractBearerToken m (incoming r) = None -> events = failure_events (incoming r))).
  { destruct (authenticated _ _ _) as [[cl|]|]; [|done|].
    - unfold routed in H. destruct (dispatched _ _) as [[rt r']|].
      + destruct H as (_ & _ & e & role & inf & k & _ & H). destruct (answer _ _ _ _ _) as [resp0 w].
        destruct H as (_ & _ & _ & _ & ->). rewrite Hact. eexists. split; [done|]. split; [|done].
        unfold logged, AuditLog.due. destruct (annotation _ _ _ _); [destruct (_ && _)|]; cbn; lia.
      + destruct H as (_ & _ & ->). exists []. rewrite app_nil_r. split_and!; [done|cbn; lia|done].
    - destruct H as (_ & _ & _ & ->). eexists. split; [done|]. split; [|done]. unfold failure_events. rewrite Hact.
      destruct (isEventAllowed _ _ _); cbn; lia. }
  destruct Hev as (events & Hlog & Hlen & Hno). exists events. split_and!; try done.
  { intros Ha. rewrite (Hno Ha). unfold failure_events. by rewrite Hact. }
  intros Hch.
  destruct (change_route r a resp log a' Hp E Hch) as (cl & rt & r' & e & inf & k & Ha & Hro & _ & Hrt & _ & _ & Hw & _ & _ & Hl).
  rewrite Hact, Hlog in Hl. apply app_inv_head in Hl. exists cl, rt. split_and!; try done. cbv zeta. rewrite <-(Hw r').
  assert (Hne : resolve_event (inf r') (rs_status resp) <> "") by by apply (ri_event _ _ _ _ _ _ Hrt).
  unfold AuditLog.due in Hl. rewrite (proj2 (String.eqb_neq _ _) Hne) in Hl. cbn [negb andb] in Hl.
  destruct (isEventAllowed _ _ _); subst events; [by eexists|done].
Qed.

(** C4. The shape of every answer off the public paths, with OAuth
    authentication.  The two security headers come first.  An error body goes with
    a 4xx or 5xx of the documented list, and with 401 exactly when no provider
    accepted the token.  Otherwise the caller is known, and the answer has the text
    of a 404 when no route takes the path, is a 405 without a body when none takes
    the method, and else is that of the route: 200 or 201 with a value of the API,
    or 204 without a body, which only the three deletions and the update of an
    entry's claims ([no_content_routes]) answer; the remaining case, no body and
    status 0, is a handler that the model has run out of fuel for. *)
Theorem server_typed r a resp log a' :
  IsPublicPath (r_path r) (public_paths cfg) = false -> server r a = (resp, log, a') ->
  take 2 (rs_headers resp) = [("X-Content-Type-Options", "nosniff"); ("Cross-Origin-Resource-Policy", "same-origin")] /\
  (rs_status resp = 401%Z <-> authenticated ExtractBearerToken m (incoming r) = None) /\
  match rs_body resp with
  | BError _ => rs_status resp ∈ [400; 401; 403; 404; 409; 500; 503]%Z
  | BText text => rs_status resp = 404%Z /\ text = "404 page not found" +:+ String (byte 10) "" /\
      exists c, authenticated ExtractBearerToken m (incoming r) = Some (Some c) /\ route_of routes (identified r c) = None
  | BNone => exists c, authenticated ExtractBearerToken m (incoming r) = Some (Some c) /\
      match route_of routes (identified r c) with
      | None => rs_status resp = 405%Z
      | Some rt => rs_status resp = 0%Z \/ rs_status resp = 204%Z /\ (rt_method rt, rt_pattern rt) ∈ no_content_routes
      end
  | _ => rs_status resp ∈ [200; 201]%Z /\
      exists c, authenticated ExtractBearerToken m (incoming r) = Some (Some c) /\ is_Some (route_of routes (identified r c))
  end.
Proof using All.
  intros Hp Hs. destruct (server_cases r a Hp) as (resp' & log' & a'' & E & [rest Hh] & H). rewrite E in Hs. injection Hs as -> -> ->.
  split; [by rewrite Hh|]. destruct (authenticated _ _ _) as [[c|]|] eqn:Hauth; [|done|].
  2:{ destruct H as (-> & [msg ->] & _). split; [done|]. status. }
  pose proof (passed_route routes (cfg_Audit cfg) logger (identified r c)) as Hro. unfold route_of at 1 in Hro.
  unfold routed in H. destruct (dispatched _ _) as [[rt r']|]; cbn [fmap option_fmap option_map fst] in Hro.
  - destruct H as (_ & _ & e & role & inf & k & Hrt & H). destruct (answer _ _ _ _ _) as [resp0 w] eqn:Ha.
    destruct H as (-> & -> & _ & Hk & _). destruct (role_denied _ _ _) eqn:Hr.
    { unfold answer in Ha. rewrite Hr in Ha. injection Ha as <- _. cbn. split; [done|]. status. }
    destruct (Hk eq_refl) as [Ht _]. pose proof (typed_not_401 _ _ Ht) as H401. unfold well_typed in Ht. cbn in Ht, H401.
    split; [by split|]. destruct (rs_body resp0); try done.
    + repeat (apply elem_of_cons in Ht as [->|Ht]; [status|]). by apply not_elem_of_nil in Ht.
    + split; [done|]. exists c. by rewrite <-Hro.
    + split; [done|]. exists c. by rewrite <-Hro.
    + exists c. split; [done|]. rewrite <-Hro. destruct e; try (left; by apply list_elem_of_singleton in Ht).
      apply elem_of_cons in Ht as [Ht|Ht%list_elem_of_singleton]; [right|by left]. split; [done|]. by apply (ri_discards _ _ _ _ _ _ Hrt).
    + split; [done|]. exists c. by rewrite <-Hro.
  - destruct H as (-> & -> & _). unfold missed. destruct (chi_match routes (identified r c)) as [i ps| |ms]; cbn [rs_status rs_body http_NotFound methodNotAllowed]; (split; [done|]).
    + split_and!; [done|done|]. by exists c.
    + split_and!; [done|done|]. by exists c.
    + exists c. split; [done|]. by rewrite <-Hro.
Qed.

End Request.

(** ** Start-up *)

Lemma cut_bytes_absent sep l : existsb (Ascii.eqb sep) l = false -> cut_bytes sep l = (l, None).
Proof.
  induction l as [|c l IH]; [done|]. cbn. rewrite Ascii.eqb_sym. intros [-> H]%orb_false_iff. by rewrite IH.
Qed.

(** An address without a colon is not refused, it stops the program. *)
Lemma WithAddress_no_colon parse addr : addr <> "" -> ContainsRune addr ":" = false -> WithAddress parse addr = Panicked.
Proof.
  intros Hne Hc. unfold WithAddress. rewrite (proj2 (String.eqb_neq _ _) Hne). unfold SplitN2. by rewrite cut_bytes_absent.
Qed.

(** ** A concrete server *)
Module AppExample.
#[local] Existing Instance ClaimsJson.codec.
#[local] Existing Instance MiniSemver.lib.
#[local] Existing Instance InitializeExample.marshal.
#[local] Existing Instance SyncExample.codec.
#[local] Existing Instance SyncExample.bytewise.
#[local] Existing Instance ServerReadsExample.mini_codec.
#[local] Existing Instance ServerReadsExample.mini_read_codec.
#[local] Existing Instance ArtifactsExample.mini_artifacts.
#[local] Existing Instance ArtifactsExample.match_all.
#[local] Instance no_files : FileSystem :=
  {| EvalSymlinks := fun _ => Err (EMsg ""); Stat := fun _ => Err (EMsg ""); ReadFile := fun _ => Err (EMsg "") |}.
#[local] Instance no_registry : RegistryParser := {| parse_registry := fun _ => None |}.
#[export] Instance json : AuditJson := {| json_Valid := fun _ => true; json_Quote := fun _ => None |}.

(** The body "git" asks for the source of [SourcesExample]. *)
#[export] Instance lib : ApiLib := {|
  decode_source := fun b => if String.eqb (rd_bytes b) "git" && negb (rd_fails b) then Some SourcesExample.request else None;
  decode_registry := fun _ => None;
  decode_publish := fun _ => None;
  decode_claims := fun _ => None;
  time_Parse := fun _ => None; time_IsZero := fun _ => false;
  yaml_Marshal := fun _ => None; json_MarshalIndent := fun _ => None; fmt_q := fun s => s; ReadDoc := None |}.

(** Segments match themselves, braces capture. *)
Fixpoint match_segments (ps qs : list string) : option (list (string * string)) :=
  match ps, qs with
  | [], [] => Some []
  | p :: ps', q :: qs' =>
      rest ← match_segments ps' qs';
      if HasPrefix p "{" then Some ((p, q) :: rest) else if String.eqb p q then Some rest else None
  | _, _ => None
  end.
Definition captures (l : list (string * string)) (name : string) : string :=
  default "" (snd <$> List.find (fun kv => String.eqb (fst kv) ("{" +:+ name +:+ "}")) l).
Fixpoint first_match (i : nat) (rs : list (option string * string)) (meth path : string) : Match :=
  match rs with
  | [] => NoRoute
  | (m0, pat) :: rs' =>
      match match_segments (Split pat "/") (Split path "/") with
      | Some l => if bool_decide (m0 = Some meth \/ m0 = None) then Found i (captures l) else match first_match (S i) rs' meth path with NoRoute => WrongMethod (option_list m0) | x => x end
      | None => first_match (S i) rs' meth path
      end
  end.
#[export] Instance mini_chi : Chi := {| chi_find := first_match 0 |}.

Lemma first_match_ok rs meth path k i ps : first_match k rs meth path = Found i ps ->
  exists j rt, i = (k + j)%nat /\ rs !! j = Some rt /\ (fst rt = Some meth \/ fst rt = None).
Proof.
  revert k. induction rs as [|[m0 pat] rs IH]; intros k; cbn; [done|].
  destruct (match_segments _ _) as [l|]; [case_bool_decide as Hm|].
  - intros [= <- _]. exists 0%nat, (m0, pat). by rewrite Nat.add_0_r.
  - intros H. assert (Hf : first_match (S k) rs meth path = Found i ps) by by destruct (first_match (S k) rs meth path).
    apply IH in Hf as (j & rt & -> & Hj & Hr). exists (S j), rt. split; [lia|done].
  - intros (j & rt & -> & Hj & Hr)%IH. exists (S j), rt. split; [lia|done].
Qed.
#[export] Instance mini_chi_laws : ChiLaws mini_chi.
Proof.
  constructor. intros rs meth p i ps (j & rt & -> & Hj & Hr)%first_match_ok. by exists rt.
Qed.

Definition member (team : string) : claims := {[ "sub" := VString team; "org" := VString "acme"; "team" := VString team ]}.
Definition mw : multiProviderMiddleware :=
  {| mp_validators := [ {| nv_Name := "corp"; nv_Validator := fun t =>
       if String.eqb t "p" then Ok (Some (member "platform"))
       else if String.eqb t "q" then Ok (Some (member "sales")) else Err (EMsg "bad token") |} ];
     mp_resourceURL := ""; mp_realm := defaultRealm |}.
Lemma app_mw_never_nil : never_nil mw.
Proof.
  intros v t cs Hv. apply list_elem_of_singleton in Hv as ->. cbn. repeat case_match; congruence.
Qed.

Definition cfg : Config :=
  {| cfg_Sources := []; cfg_Registries := []; cfg_Database := None;
     cfg_Auth := Some {| ac_Mode := AuthModeOAuth; ac_PublicPaths := []; ac_OAuth := None;
                         ac_Authz := Some AuthExample.az; ac_InsecureAllowHTTP := false |};
     cfg_Audit := Some {| aud_Enabled := true; aud_LogFile := ""; aud_EventTypes := []; aud_ExcludeEventTypes := [];
                          aud_IncludeRequestData := false; aud_MaxDataSize := 0 |};
     cfg_insecureAllowHTTP := false; cfg_compressResponse := false; cfg_WatchNamespace := ""; cfg_LeaderElectionID := "" |}.

Definition request (method path token body : string) : Request :=
  {| r_method := method; r_path := path; r_rawPath := ""; r_authorization := "Bearer " +:+ token; r_param := fun _ => "";
     r_query := fun _ => ""; r_header := fun _ => ""; r_remote := "10.0.0.1:4000"; r_body := whole body;
     r_ctx := {| ctx_claims := None; ctx_roles := []; ctx_holder := false |} |}.

#[local] Instance the_service : RegistryService := db_service {| sv_skipAuthz := false; sv_maxMetaSize := 1 |} 7 5.
#[local] Instance the_laws : ServiceLaws the_service := db_service_laws _ 7 5.
Definition start : Audit World := {| au_carrier := None; au_log := []; au_rest := (0%nat, SourcesExample.d0) |}.
Definition run (r : Request) : Response Payload * AccessLog * Audit World :=
  server AuthExample.extract SourcesExample.fine mw None cfg true r start.

Definition status_of (out : Response Payload * AccessLog * Audit World) : Z := rs_status (fst (fst out)).
Definition events_of (out : Response Payload * AccessLog * Audit World) : list string := ev_Type <$> au_log (snd out).
Definition sources_of (out : Response Payload * AccessLog * Audit World) : list string :=
  (map_to_list (d_source (snd (au_rest (snd out))))).*1.

(** Created, then known; deleted; refused to another team without a trace in the
    audit log; not authenticated; not a route. *)
Example run_requests : (fun r => (status_of (run r), events_of (run r), List.length (sources_of (run r)))) <$>
  [request "PUT" "/v1/sources/new" "p" "git"; request "PUT" "/v1/sources/ours" "p" "git";
   request "DELETE" "/v1/sources/ours" "p" ""; request "DELETE" "/v1/sources/theirs" "p" "";
   request "DELETE" "/v1/sources/ours" "q" ""; request "DELETE" "/v1/sources/ours" "x" "";
   request "PATCH" "/v1/sources/ours" "p" ""; request "GET" "/v1/nothing" "p" ""; request "PUT" "/v1/sources/a%2" "p" "git"] =
  [(201, ["source.create"], 3%nat); (200, ["source.update"], 2%nat); (204, ["source.delete"], 1%nat);
   (403, ["source.delete"], 2%nat); (403, [], 2%nat); (401, ["auth.unauthenticated"], 2%nat); (405, [], 2%nat); (404, [], 2%nat);
   (400, ["source.update"], 2%nat)]%Z.
Proof. by vm_compute. Qed.

(** A limit the service refuses is answered as a fault of the server. *)
Example bad_limit_is_500 : rs_status (fst (handleListServers SourcesExample.fine "r"
  (set_query (request "GET" "" "p" "") (fun k => if String.eqb k "limit" then "0" else "")) (0%nat, SourcesExample.d0))) = StatusInternalServerError.
Proof. by vm_compute. Qed.

Definition del : Request := request "DELETE" "/v1/sources/ours" "p" "".
Definition no_info (k : HandlerFunc) (H : None = Some k) : honours Reads k := match H with end.
Lemma del_changes : snd (au_rest (snd (run del))) <> snd (au_rest start).
Proof. intros H. apply (f_equal (fun d => size (d_source d))) in H. vm_compute in H. discriminate H. Qed.
Lemma del_private : IsPublicPath (r_path del) (public_paths cfg) = false.
Proof. by vm_compute. Qed.

Lemma server_mediates_witness : exists c rt,
  authenticated AuthExample.extract mw (incoming del) = Some (Some c) /\
  route_of (routes SourcesExample.fine None cfg) (identified cfg del c) = Some rt /\
  HasRole (ResolveRoles (Some c) (Some AuthExample.az)) (write_role (rt_pattern rt)) = true.
Proof.
  pose proof del_changes as Hch. destruct (run del) as [[resp log] a'] eqn:E.
  destruct (server_mediates AuthExample.extract SourcesExample.fine mw None cfg true no_info app_mw_never_nil
    AuthExample.az del start resp log a' eq_refl del_private E Hch) as (c & rt & Hc & Hro & _ & _ & Hr & _).
  exists c, rt. exact (conj Hc (conj Hro Hr)).
Defined.

Definition audit_cfg : AuditConfig := default {| aud_Enabled := false; aud_LogFile := ""; aud_EventTypes := [];
  aud_ExcludeEventTypes := []; aud_IncludeRequestData := false; aud_MaxDataSize := 0 |} (cfg_Audit cfg).
Lemma del_event : events_of (run del) = ["source.delete"].
Proof. by vm_compute. Qed.
Lemma all_allowed ty : isEventAllowed ty (aud_EventTypes audit_cfg) (aud_ExcludeEventTypes audit_cfg) = true.
Proof. done. Qed.
Lemma audit_complete_witness : exists e, au_log (snd (run del)) = [e] /\ ev_Type e = "source.delete" /\
  ev_Outcome e = OutcomeFromStatus (rs_status (fst (fst (run del)))) /\ exists c, ev_Subjects e = subjectsFromRequest (identified cfg del c).
Proof.
  pose proof del_changes as Hch. pose proof del_event as Hde. destruct (run del) as [[resp log] a'] eqn:E.
  destruct (audit_complete AuthExample.extract SourcesExample.fine mw None cfg true no_info app_mw_never_nil
    audit_cfg del start resp log a' eq_refl del_private E) as (events & Hl & _ & _ & H).
  destruct (H Hch) as (cl & rt & _ & _ & Hev). cbv zeta in Hev. rewrite all_allowed in Hev. destruct Hev as (e & -> & Ht & Ho & Hs).
  exists e. cbn [fst snd] in *. unfold events_of in Hde. cbn [snd] in Hde. rewrite Hl in Hde |- *. injection Hde as Hty.
  split; [reflexivity|]. split; [exact Hty|]. split; [exact Ho|]. exists cl. exact Hs.
Defined.

Lemma server_typed_witness : take 2 (rs_headers (fst (fst (run del)))) =
    [("X-Content-Type-Options", "nosniff"); ("Cross-Origin-Resource-Policy", "same-origin")] /\ rs_status (fst (fst (run del))) = 204%Z.
Proof.
  assert (Hb : rs_status (fst (fst (run del))) = 204%Z) by by vm_compute.
  destruct (run del) as [[resp log] a'] eqn:E.
  destruct (server_typed AuthExample.extract SourcesExample.fine mw None cfg true no_info app_mw_never_nil
    del start resp log a' del_private E) as [Hh H]. exact (conj Hh Hb).
Defined.
End AppExample.
